(* ===== verification/_CoqProject ===== *)
-Q . S2P
Prelude.v
GoStrings.v
GoLib.v
GoJSON.v
BranchRules.v
Permission.v
ReceivePack.v
RefGuard.v
Approvals.v
KeyResolver.v
ProxyACL.v
OutputHub.v
Registry.v
ProxyPath.v
DefaultBranch.v
GoMarshal.v
GoStrconv.v
Session.v
SessionDB.v
TxLogic.v
SessionStore.v
SessionSpec.v
TaskStore.v
SessionService.v
SessionRun.v
SessionRefine.v
SessionSteps.v
SessionSafety.v
History.v
SessionStream.v
TaskSafety.v
Lifecycle.v
LifecycleProgress.v
InputPump.v
InputSafety.v
AgentTasks.v
Attention.v
Framing.v
Layout.v
LayoutSafety.v
LayoutOps.v
LayoutViews.v
AdminAuth.v
EventsHub.v
Redact.v
OutputPool.v
OutputPoolSafety.v
OutputPoolCalls.v
RetainedOutput.v
OutputServe.v
OutputServeSafety.v
OAuthRefresh.v
OAuthSafety.v
Crypto.v
ActivityState.v
ActivityStore.v
ActivitySafety.v
Organization.v
OrganizationSafety.v
ActivityWitness.v
