(* ===== verification/Prelude.v ===== *)
(** * Duckway: shallow embedding and proofs

    Duckway keeps real API keys on a server and gives clients phantom tokens.  A
    client sends its request to the server's proxy ([internal/server]), which
    finds the real key behind the token, decides whether the request is allowed,
    asks a human where the rules say so, and forwards it.  For GitHub it also
    enforces branch rules, down to the commands of a git push.  Ducklion
    ([internal/ducklion]) is a daemon on a client machine: it keeps terminal
    sessions alive under supervisors, decides who may type into them, carries
    their lifecycle through, and replays their output.  Ducklord
    ([internal/ducklord]) shows the sessions of several machines in a workspace.

    ** The files

    Shared:
    - [Prelude]: results, notations ([go_scope]), tactics ([bool_to_prop],
      [case_goal]) and facts on byte strings.
    - [GoStrings], [GoLib], [GoJSON], [GoMarshal], [GoStrconv]: what the program
      uses of [strings], [unicode/utf8], [path], [net/url], [encoding/json] and
      [strconv].

    The server ([internal/server], [internal/database]):
    - [BranchRules]: [services/github_branch_rules.go].  Policies, their
      validation and normal form, the glob matcher, [SelectRule].
    - [Permission]: [services/permission.go].  Permission configs of both
      versions, [Check], [Explain], body constraints, rate-limit windows, the
      repository-scope check, and the readers of branch policies with their cache.
    - [ReceivePack]: [handlers/git_receive_pack.go].  Reading the command section
      of a push and writing the refusal a git client understands.
    - [RefGuard]: [handlers/github_ref_guard.go].  Which request needs a guard,
      what it does to the repository, and whether the policy allows it;
      [DefaultBranch]: its default-branch cache.
    - [Approvals]: the approvals table ([queries/approvals.go]), the admin
      handlers, the sweeper, and the race of [resolveScopedApproval].
    - [KeyResolver]: [services/key_resolver.go] and key groups
      ([queries/groups.go]).
    - [ProxyPath] and [ProxyACL]: [Handle] in [handlers/proxy.go], from the request
      URL to the path the ACL sees and the path sent upstream, and its decision
      part, which calls [Permission], [RefGuard], [ReceivePack] and [Approvals] in
      the handler's order.
    - [Redact]: [handlers/credential_redact.go] and [handlers/cc_mask.go], what
      the admin pages and approval prompts show of stored secrets.
    - [AdminAuth]: [middleware/admin_auth.go], signed admin sessions and the epoch
      that revokes them.
    - [EventsHub]: [events/hub.go], live events for admin pages.
    - [OAuthRefresh] and [OAuthSafety]: [services/oauth_refresh.go] and the Codex
      refresh of [handlers/proxy.go], which rotate the tokens of stored keys.
    - [Crypto]: [services/crypto.go], encryption of stored secrets.

    Ducklion:
    - [Session]: [model/model.go] and [model/transitions.go]; [SessionDB]: the
      schema of [store/sqlite.go] with its constraints and triggers, and
      transactions; [SessionStore] and [TaskStore]: every operation of [store];
      [SessionService]: [service/service.go].
    - [SessionSpec]: the abstract machine of one session.  [TxLogic],
      [SessionRefine] and [SessionSteps] carry the proof that the store and the
      service implement it; [SessionRun] defines executions; [SessionSafety],
      [History], [TaskSafety] and [SessionStream] hold what follows for every
      reachable database, the last with the event stream of [daemon/server.go].
    - [Lifecycle], [LifecycleProgress]: [daemon/session_lifecycle.go], the request
      handler and the worker that drives an end, destroy or restart.
    - [InputPump], [InputSafety]: [runtime/input.go] and the input gate of
      [supervisor/session.go]; [AgentTasks]: managed agent tasks and their events
      in the supervisor; [Attention]: [runtime/attention.go] and
      [supervisor/terminal_queries.go].
    - [OutputHub]: [runtime/output.go], the replay ring and its subscribers;
      [RetainedOutput]: [supervisor/retained_output.go], output kept on disk, with the
      parts of [capture] and [Wait] of [supervisor/session.go] that use it;
      [OutputServe] and [OutputServeSafety]: the output subscriptions of
      [daemon/server.go], which serve from either;
      [Registry]: [runtime/registry.go] and [model/recovery.go]; [Framing]:
      [bridge/framing.go] and version negotiation in [protocol/protocol.go].

    Ducklord:
    - [Layout]: [project_layout.go], every operation and its validation;
      [LayoutSafety], [LayoutOps], [LayoutViews]: its theorems.
    - [OutputPool]: [output_pool.go], which terminals stay connected;
      [OutputPoolSafety], [OutputPoolCalls]: its theorems.
    - [ActivityState]: [activity_state.go], [notification_policy.go] and what
      [cmd/ducklord] does with them: unread marks, notification levels, bookmarks,
      validation; [ActivityStore]: saving and loading that state; [Organization]:
      the groups and the list of sessions of [cmd/ducklord/main.go].
      [ActivitySafety] and [OrganizationSafety] hold their theorems,
      [ActivityWitness] concrete runs.

    ** How the code is modelled

    A Go string or byte slice is a [string] of bytes; a function returning an
    error returns [result]; an error or refusal is a constructor with the
    arguments of the message.  A struct is a record, a table a finite map or a list
    of rows, a map a [gmap] (or an association list where the visiting order
    matters).  A method that changes its receiver returns the new state.  A
    database transaction is a function in a state and error monad ([SessionDB]).
    Where goroutines interleave ([Registry], [DefaultBranch], [OutputHub],
    [EventsHub], [InputPump], [Lifecycle], [OutputPool], [OutputServe],
    [OAuthRefresh], the approval race), each critical section is one function and a step relation or a schedule puts them in any order.  Times
    are integers in the unit the code compares; sequence numbers, epochs and
    generations wrap at their width where the code can reach it.

    Parameters stand for what is not written in the repository: the Unicode tables
    beyond ASCII ([UnicodeCase], [UnicodeFormat], [UnicodeClass]),
    reflection-driven decoding of config texts into structs ([ConfigJSON], with the
    two laws the code relies on), the text of a floating-point number
    ([FloatText]), UUID parsing and generation, the HMAC, SHA-256, AES-GCM ([AEAD])
    and ed25519 functions, JSON written and read by reflection ([StateCodec], with
    what it reads back as [reads_back]), the opener of streams ([OutputOpener], with no
    law), random draws, clocks, files that fail, and the answers of GitHub and of token endpoints.

    ** What the theorems show

    - The proxy: [forward_is_authorised] is the end-to-end statement: a forwarded
      request passed every ACL layer, holds the approval bound to its method, path,
      query and body if one is needed, satisfies the branch rules, and is sent
      with the body the client sent.  [forwarded_path_is_checked_path] shows that
      the upstream path is the checked one.
    - The guard: [push_only_agent_or_new_tag] and [rest_only_covered] say what a
      push or REST request that passes may change; [writes_are_guarded] that no
      write to a governed repository escapes.
    - The rules: [GitHubGlobMatch_correct] (the table is the language of the
      pattern), [SelectRule_spec], [checkRule_spec], [repo_scope_confines].
    - The wire format of a push: [parse_prefix] and [parse_encode_push] (reading
      ends, splits exactly, and inverts the encoding), [rejection_body_readable].
    - Approvals and keys: [resolve_race_outcome], [decisions_are_final],
      [one_pending_per_scope]; [Resolve_only_assigned_key], [round_robin_fair].
    - Secrets and admin pages: [admin_key_redacted], [mask_restore_roundtrip],
      [mask_hides_secrets], [approval_query_redacted]; [bump_revokes_sessions],
      [issued_session_accepted]; [hub_within_limits], [events_coalesced];
      [decrypt_encrypt].
    - OAuth: [replaced_token_never_presented], for surroundings that are [polite];
      [deactivation_is_justified].
    - The session store refines its abstract machine ([store_refines_machine]), and
      so: [epoch_has_one_writer], [lifecycle_barrier], [fences_only_grow],
      [reachable_rows_readable].  What was recorded stays: [mutation_at_most_once],
      [yield_request_replayed], [lifecycle_receipt_final], [task_event_once],
      [task_result_final].  A subscriber sees every change
      ([session_stream_complete]).
    - The lifecycle worker: [drive_effects_safe], [lifecycle_started_by_owner],
      [lifecycle_answer_fixed]; it makes progress ([end_completes],
      [destroy_completes], [restart_completes]) in passes that nothing disturbs.
    - Terminal input and output: [submit_outcome_definitive],
      [accepted_input_answered], [input_written_at_epoch]; [agent_events_retained],
      [terminal_event_is_last]; [attention_chunked_spec], [terminal_replies_fixed];
      [hub_is_window] refines the ring to "the last bytes published",
      [subscriber_sees_no_holes]; [live_runtime_proved].
    - Output on disk and to clients: [retained_roundtrip], [prune_keeps_newest];
      [subscription_quota_exact], [live_subscriber_sees_stream] (unless the hub is
      seeded late), [stopped_subscriber_sees_stream] (up to the first failed write).
    - Frames: [frames_roundtrip], [truncated_frame_refused], [write_ends].
    - The layout: [layout_always_valid], [session_never_lost],
      [move_pane_succeeds], [place_then_close].  The output pool:
      [pool_within_limits], [members_hold_open_streams], [activate_evicts_oldest].
    - Ducklord's local state: [unread_exact], [deltas_exact], [bookmark_found];
      [save_is_atomic]; [organization_always_savable], [list_shows_sessions].
    - Behaviour that differs from what the code or a document intends is proved
      too: [default_branch_push_refused], [cloneAndValidate_not_idempotent],
      [group_resolution_drops_key_acl], [layers_share_rate_counter],
      [encoded_slash_acl_collision], [recovering_exit_refused], [submit_can_hang],
      [acked_task_reports_nothing], [oversized_command_notifies],
      [evict_disconnected_panics], and the examples [nested_secret_lost],
      [plain_list_shown], [remove_during_disconnect], [update_after_snapshot], [owned_closed],
      [recovered_seed_missed], [admin_update_overwritten],
      [null_metadata_loses_token], [pool_resolves_twice], [pool_refresh_unlocked],
      [unknown_category_blocks_save], [last_event_by_chance],
      [alias_delivered_twice], [dropped_line_shifts_bookmark] and
      [long_text_misses_bookmark]; [order_never_shrinks].

    ** Fuel and bounds

    Fuel is at least the length of what a loop consumes, and every
    round consumes at least one byte.  For the packet loop of [ReceivePack] this is
    proved: [parse_prefix] shows [OutOfFuel] is never returned; for the side band
    by [rejection_body_readable]; for the chunk loop of [Publish] by
    [hub_is_window], which accounts for every byte; for [writeFull] by
    [write_ends].  The other loops with fuel are library routines: trimming,
    [path.Match], the JSON parser, and decimal texts of at most twenty digits.  All
    other recursion is structural.  The queue and outbox limits of [InputPump],
    [AgentTasks] and [EventsHub] are those of the code.

    ** What is not modelled

    The HTTP exchange with the upstream, header rewriting, loans of keys, the
    certificate authority, GitHub App tokens, WebSocket bridging, usage accounting, chat bots and notifications,
    the templates and routes of the admin pages, client tokens and origin checks,
    the client programs, the terminal rendering, selection, quick-sort view and key handling of Ducklord, and
    the processes, sockets and PTYs of Ducklion: they are input and output
    around the modelled decisions. *)

From stdpp Require Export base tactics list strings gmap.
From Stdlib Require Export ZArith NArith Lia Bool Ascii.

(** ** Error results

    A Go function returning [(T, error)] is a function into [result E T]. *)
Inductive result (E A : Type) : Type :=
| Ok (a : A)
| Err (e : E).
Arguments Ok {E A} a.
Arguments Err {E A} e.

Definition rbind {E A B : Type} (m : result E A) (k : A -> result E B) : result E B :=
  match m with Ok a => k a | Err e => Err e end.

Definition is_Ok {E A : Type} (r : result E A) : bool :=
  match r with Ok _ => true | Err _ => false end.

(** Notations of the development live in [go_scope]. *)
Declare Scope go_scope.
Delimit Scope go_scope with go.
Notation "x <-! m ; k" := (rbind m (fun x => k))
  (at level 90, m at level 89, right associativity, only parsing) : go_scope.
Notation "a ==s b" := (String.eqb a b) (at level 70, no associativity) : go_scope.
Notation "a !=s b" := (negb (String.eqb a b)) (at level 70, no associativity) : go_scope.
Notation "a ==c b" := (Ascii.eqb a b) (at level 70, no associativity) : go_scope.

(** [len(s)] of a Go string or byte slice. *)
Abbreviation slen := String.length.
Definition zlen (s : string) : Z := Z.of_nat (String.length s).

(** A Go [uint64]: arithmetic wraps around. *)
Definition u64 (z : Z) : Z := (z mod 2 ^ 64)%Z.

(** The value a 64-bit signed computation leaves. *)
Definition i64 (z : Z) : Z := ((z + 2 ^ 63) mod 2 ^ 64 - 2 ^ 63)%Z.

(** ** Automation *)

Create HintDb duckway.
Create Rewrite HintDb duckway.

(** Turn boolean tests in hypotheses and goal into propositions. *)
Ltac bool_to_prop :=
  repeat match goal with
  | H : andb _ _ = true |- _ => apply andb_true_iff in H; destruct H
  | H : andb _ _ = false |- _ => apply andb_false_iff in H
  | H : orb _ _ = true |- _ => apply orb_true_iff in H
  | H : orb _ _ = false |- _ => apply orb_false_iff in H; destruct H
  | H : negb _ = true |- _ => apply negb_true_iff in H
  | H : negb _ = false |- _ => apply negb_false_iff in H
  | H : String.eqb _ _ = true |- _ => apply String.eqb_eq in H
  | H : String.eqb _ _ = false |- _ => apply String.eqb_neq in H
  | H : Ascii.eqb _ _ = true |- _ => apply Ascii.eqb_eq in H
  | H : Ascii.eqb _ _ = false |- _ => apply Ascii.eqb_neq in H
  | H : Nat.eqb _ _ = true |- _ => apply Nat.eqb_eq in H
  | H : Nat.eqb _ _ = false |- _ => apply Nat.eqb_neq in H
  | H : Nat.leb _ _ = true |- _ => apply Nat.leb_le in H
  | H : Nat.leb _ _ = false |- _ => apply Nat.leb_gt in H
  | H : Nat.ltb _ _ = true |- _ => apply Nat.ltb_lt in H
  | H : Nat.ltb _ _ = false |- _ => apply Nat.ltb_ge in H
  | H : Z.eqb _ _ = true |- _ => apply Z.eqb_eq in H
  | H : Z.eqb _ _ = false |- _ => apply Z.eqb_neq in H
  | H : Z.leb _ _ = true |- _ => apply Z.leb_le in H
  | H : Z.leb _ _ = false |- _ => apply Z.leb_gt in H
  | H : Z.ltb _ _ = true |- _ => apply Z.ltb_lt in H
  | H : Z.ltb _ _ = false |- _ => apply Z.ltb_ge in H
  | H : N.eqb _ _ = true |- _ => apply N.eqb_eq in H
  | H : N.eqb _ _ = false |- _ => apply N.eqb_neq in H
  | H : N.leb _ _ = true |- _ => apply N.leb_le in H
  | H : N.leb _ _ = false |- _ => apply N.leb_gt in H
  | H : N.ltb _ _ = true |- _ => apply N.ltb_lt in H
  | H : N.ltb _ _ = false |- _ => apply N.ltb_ge in H
  end.

(** Case analysis on the scrutinee of a [match] or [if] of the goal. *)
Ltac case_goal :=
  match goal with
  | |- context [match ?x with _ => _ end] =>
      lazymatch x with
      | context [match _ with _ => _ end] => fail
      | _ => destruct x eqn:?
      end
  end.

(** The same in a hypothesis. *)
Ltac case_hyp H :=
  match type of H with
  | context [match ?x with _ => _ end] =>
      lazymatch x with
      | context [match _ with _ => _ end] => fail
      | _ => destruct x eqn:?
      end
  end.

(** ** Facts on strings *)

Lemma str_app_nil_l (s : string) : "" +:+ s = s.
Proof. reflexivity. Qed.

Lemma str_app_cons (c : ascii) (s t : string) : String c s +:+ t = String c (s +:+ t).
Proof. reflexivity. Qed.

Lemma str_app_nil_r (s : string) : s +:+ "" = s.
Proof. induction s as [|c s IH]; [done|]. rewrite str_app_cons. by rewrite IH. Qed.

Lemma str_app_assoc (s t u : string) : s +:+ (t +:+ u) = (s +:+ t) +:+ u.
Proof. induction s as [|c s IH]; [done|]. rewrite !str_app_cons. by rewrite IH. Qed.

Lemma slen_app (s t : string) : slen (s +:+ t) = slen s + slen t.
Proof. induction s as [|c s IH]; [done|]. rewrite str_app_cons. simpl. by rewrite IH. Qed.

Lemma slen_0_inv (s : string) : slen s = 0 -> s = "".
Proof. by destruct s. Qed.

Lemma str_app_inj_l (s t u : string) : s +:+ t = s +:+ u -> t = u.
Proof.
  induction s as [|c s IH]; [done|]. rewrite !str_app_cons. intros [=]. auto.
Qed.

Lemma str_app_inj_len (s s' t t' : string) :
  slen s = slen s' -> s +:+ t = s' +:+ t' -> s = s' /\ t = t'.
Proof.
  revert s'. induction s as [|c s IH]; intros [|c' s'] Hl; try discriminate Hl.
  - rewrite !str_app_nil_l. auto.
  - rewrite !str_app_cons. intros [= -> Hr]. simpl in Hl.
    destruct (IH s' ltac:(lia) Hr) as [-> ->]. done.
Qed.

Lemma str_app_inj_r (s s' t : string) : s +:+ t = s' +:+ t -> s = s'.
Proof.
  intros H. pose proof (f_equal slen H) as Hl. rewrite !slen_app in Hl.
  by destruct (str_app_inj_len s s' t t ltac:(lia) H).
Qed.

(** [s[:n]] and [s[n:]] (with [n <= len(s)]). *)
Fixpoint str_take (n : nat) (s : string) : string :=
  match n, s with
  | S n', String c s' => String c (str_take n' s')
  | _, _ => ""
  end.

Fixpoint str_drop (n : nat) (s : string) : string :=
  match n, s with
  | S n', String _ s' => str_drop n' s'
  | _, _ => s
  end.

Lemma str_take_drop (n : nat) (s : string) : str_take n s +:+ str_drop n s = s.
Proof.
  revert s. induction n as [|n IH]; intros [|c s]; try done.
  cbn [str_take str_drop]. rewrite str_app_cons. by rewrite IH.
Qed.

Lemma slen_take (n : nat) (s : string) : slen (str_take n s) = Nat.min n (slen s).
Proof. revert s. induction n as [|n IH]; intros [|c s]; simpl; auto. Qed.

Lemma slen_drop (n : nat) (s : string) : slen (str_drop n s) = slen s - n.
Proof. revert s. induction n as [|n IH]; intros [|c s]; simpl; auto. Qed.

Lemma str_take_app (s t : string) : str_take (slen s) (s +:+ t) = s.
Proof.
  induction s as [|c s IH]; [by destruct t|]. rewrite str_app_cons. cbn. by rewrite IH.
Qed.

Lemma str_drop_app (s t : string) : str_drop (slen s) (s +:+ t) = t.
Proof. induction s as [|c s IH]; [by destruct t|]. rewrite str_app_cons. cbn. done. Qed.

Lemma str_take_ge (n : nat) (s : string) : slen s <= n -> str_take n s = s.
Proof.
  revert s. induction n as [|n IH]; intros [|c s] H; simpl in *; try done; [lia|].
  rewrite IH; [done|lia].
Qed.

Lemma str_drop_ge (n : nat) (s : string) : slen s <= n -> str_drop n s = "".
Proof.
  revert s. induction n as [|n IH]; intros [|c s] H; simpl in *; try done; [lia|].
  apply IH. lia.
Qed.

Lemma u64_small z : (0 <= z < 2 ^ 64)%Z -> u64 z = z.
Proof. intros H. by apply Z.mod_small. Qed.

Lemma zlen_nonneg (s : string) : (0 <= zlen s)%Z.
Proof. unfold zlen. lia. Qed.

Lemma zlen_app (s t : string) : zlen (s +:+ t) = (zlen s + zlen t)%Z.
Proof. unfold zlen. rewrite slen_app. lia. Qed.

#[export] Hint Rewrite str_app_nil_l str_app_nil_r str_app_cons slen_app : duckway.
#[export] Hint Resolve zlen_nonneg : duckway.

(** A list of chunks as one string. *)
Fixpoint concat_str (l : list string) : string :=
  match l with [] => "" | s :: l' => s +:+ concat_str l' end.

Lemma concat_str_app (l l' : list string) : concat_str (l ++ l') = concat_str l +:+ concat_str l'.
Proof. induction l as [|s l IH]; simpl; [done|]. by rewrite IH, str_app_assoc. Qed.

Lemma str_take_app_le (n : nat) (s t : string) : n <= slen s -> str_take n (s +:+ t) = str_take n s.
Proof.
  intros Hn. rewrite <- (str_take_drop n s) at 1. rewrite <- str_app_assoc.
  replace n with (slen (str_take n s)) at 1 by (rewrite slen_take; lia). apply str_take_app.
Qed.
Lemma str_drop_app_le (n : nat) (s t : string) : n <= slen s -> str_drop n (s +:+ t) = str_drop n s +:+ t.
Proof.
  intros Hn. rewrite <- (str_take_drop n s) at 1. rewrite <- str_app_assoc.
  replace n with (slen (str_take n s)) at 1 by (rewrite slen_take; lia). apply str_drop_app.
Qed.
Lemma str_take_app_ge (n : nat) (s t : string) : slen s <= n -> str_take n (s +:+ t) = s +:+ str_take (n - slen s) t.
Proof.
  revert n. induction s as [|c s IH]; intros n Hn; simpl in *; [by rewrite str_app_nil_l, Nat.sub_0_r|].
  destruct n; [lia|]. rewrite !str_app_cons. simpl. rewrite IH by lia. done.
Qed.
Lemma str_drop_app_ge (n : nat) (s t : string) : slen s <= n -> str_drop n (s +:+ t) = str_drop (n - slen s) t.
Proof.
  revert n. induction s as [|c s IH]; intros n Hn; simpl in *; [by rewrite str_app_nil_l, Nat.sub_0_r|].
  destruct n; [lia|]. rewrite str_app_cons. simpl. by rewrite IH by lia.
Qed.
