(* ===== verification/GoStrings.v ===== *)
(** * The part of Go's [strings], [unicode] and [utf8] packages the program uses

    A Go [string] or [[]byte] is a [string]: a sequence of bytes.  Functions
    that look at code points decode UTF-8 the way [utf8.DecodeRune] does.  The
    Unicode case tables beyond ASCII are the parameter [UnicodeCase]; every
    theorem of the development holds for any such tables. *)

From S2P Require Import Prelude.
Local Open Scope go_scope.

(** ** Prefixes, suffixes, searching *)

Fixpoint HasPrefix (s p : string) : bool :=
  match p, s with
  | EmptyString, _ => true
  | String c p', String d s' => (c ==c d) && HasPrefix s' p'
  | String _ _, EmptyString => false
  end.

Definition HasSuffix (s p : string) : bool :=
  (slen p <=? slen s)%nat && (str_drop (slen s - slen p) s ==s p).

Definition TrimPrefix (s p : string) : string :=
  if HasPrefix s p then str_drop (slen p) s else s.

Definition TrimSuffix (s p : string) : string :=
  if HasSuffix s p then str_take (slen s - slen p) s else s.

Fixpoint Contains (s sub : string) : bool :=
  HasPrefix s sub ||
  match s with EmptyString => false | String _ s' => Contains s' sub end.

Fixpoint str_forall (f : ascii -> bool) (s : string) : bool :=
  match s with EmptyString => true | String c s' => f c && str_forall f s' end.

Definition str_exists (f : ascii -> bool) (s : string) : bool :=
  negb (str_forall (fun c => negb (f c)) s).

Definition ContainsByte (s : string) (c : ascii) : bool := str_exists (fun d => c ==c d) s.

Fixpoint IndexByte (s : string) (c : ascii) : option nat :=
  match s with
  | EmptyString => None
  | String d s' => if d ==c c then Some 0 else option_map S (IndexByte s' c)
  end.

(** [strings.Count(s, c)] for a one-byte [c]. *)
Fixpoint CountByte (s : string) (c : ascii) : nat :=
  match s with
  | EmptyString => 0
  | String d s' => (if d ==c c then 1 else 0) + CountByte s' c
  end.

(** ** Splitting and joining (one-byte separators) *)

Fixpoint Split (s : string) (sep : ascii) : list string :=
  match s with
  | EmptyString => [""]
  | String c s' =>
      if c ==c sep then "" :: Split s' sep
      else match Split s' sep with
           | [] => [String c ""]
           | w :: ws => String c w :: ws
           end
  end.

Fixpoint Join (ws : list string) (sep : ascii) : string :=
  match ws with
  | [] => ""
  | [w] => w
  | w :: ws' => w +:+ String sep (Join ws' sep)
  end.

(** [strings.Cut]: before, after, found. *)
Fixpoint Cut (s : string) (sep : ascii) : string * string * bool :=
  match s with
  | EmptyString => ("", "", false)
  | String c s' =>
      if c ==c sep then ("", s', true)
      else let '(b, a, f) := Cut s' sep in (String c b, a, f)
  end.

(** [strings.SplitN(s, sep, n)] for [n > 0]. *)
Fixpoint SplitN (s : string) (sep : ascii) (n : nat) : list string :=
  match n with
  | 0 => []
  | 1 => [s]
  | S n' => let '(b, a, f) := Cut s sep in if f then b :: SplitN a sep n' else [b]
  end.

(** ** Trimming *)

Fixpoint TrimLeftByte (s : string) (c : ascii) : string :=
  match s with
  | String d s' => if d ==c c then TrimLeftByte s' c else s
  | EmptyString => ""
  end.

Fixpoint TrimRightByte (s : string) (c : ascii) : string :=
  match s with
  | EmptyString => ""
  | String d s' =>
      match TrimRightByte s' c with
      | EmptyString => if d ==c c then "" else String d ""
      | t => String d t
      end
  end.

Definition TrimByte (s : string) (c : ascii) : string := TrimRightByte (TrimLeftByte s c) c.

Fixpoint ReplaceByte (s : string) (c d : ascii) : string :=
  match s with
  | EmptyString => ""
  | String x s' => String (if x ==c c then d else x) (ReplaceByte s' c d)
  end.

(** ** UTF-8 *)

Definition byteN (c : ascii) : N := N_of_ascii c.
Definition Nbyte (n : N) : ascii := ascii_of_N n.

Definition RuneError : N := 65533%N.

Definition in_range (lo hi x : N) : bool := ((lo <=? x)%N && (x <=? hi)%N).

Definition is_cont (c : ascii) : bool := in_range 128 191 (byteN c).

(** [utf8.RuneStart]. *)
Definition RuneStart (c : ascii) : bool := negb (is_cont c).

(** First byte of a multi-byte sequence: its size and the accepted range of the
    second byte. *)
Definition lead_info (b : N) : option (nat * N * N) :=
  if in_range 194 223 b then Some (2, 128%N, 191%N)
  else if (b =? 224)%N then Some (3, 160%N, 191%N)
  else if in_range 225 236 b then Some (3, 128%N, 191%N)
  else if (b =? 237)%N then Some (3, 128%N, 159%N)
  else if in_range 238 239 b then Some (3, 128%N, 191%N)
  else if (b =? 240)%N then Some (4, 144%N, 191%N)
  else if in_range 241 243 b then Some (4, 128%N, 191%N)
  else if (b =? 244)%N then Some (4, 128%N, 143%N)
  else None.

(** [utf8.DecodeRuneInString]: rune and width; [(RuneError, 1)] on bad input. *)
Definition DecodeRune (s : string) : N * nat :=
  match s with
  | EmptyString => (RuneError, 0)
  | String c0 s1 =>
      let b0 := byteN c0 in
      if (b0 <? 128)%N then (b0, 1) else
      match lead_info b0 with
      | None => (RuneError, 1)
      | Some (n, lo, hi) =>
          match s1 with
          | EmptyString => (RuneError, 1)
          | String c1 s2 =>
              if negb (in_range lo hi (byteN c1)) then (RuneError, 1) else
              let b1 := (byteN c1 - 128)%N in
              if (n =? 2)%nat then (((b0 - 192) * 64 + b1)%N, 2) else
              match s2 with
              | EmptyString => (RuneError, 1)
              | String c2 s3 =>
                  if negb (is_cont c2) then (RuneError, 1) else
                  let b2 := (byteN c2 - 128)%N in
                  if (n =? 3)%nat then ((((b0 - 224) * 64 + b1) * 64 + b2)%N, 3) else
                  match s3 with
                  | EmptyString => (RuneError, 1)
                  | String c3 _ =>
                      if negb (is_cont c3) then (RuneError, 1) else
                      (((((b0 - 240) * 64 + b1) * 64 + b2) * 64 + (byteN c3 - 128))%N, 4)
                  end
              end
          end
      end
  end.

(** [for _, r := range s]: the runes of [s]. *)
Fixpoint runes_from (skip : nat) (s : string) : list N :=
  match s with
  | EmptyString => []
  | String _ s' =>
      match skip with
      | S k => runes_from k s'
      | 0 => let '(r, w) := DecodeRune s in r :: runes_from (w - 1) s'
      end
  end.
Definition runes (s : string) : list N := runes_from 0 s.

Definition surrogate (r : N) : bool := in_range 55296 57343 r.

(** [utf8.AppendRune]. *)
Definition EncodeRune (r0 : N) : string :=
  let r := if surrogate r0 || (1114111 <? r0)%N then RuneError else r0 in
  if (r <? 128)%N then String (Nbyte r) ""
  else if (r <? 2048)%N then
    String (Nbyte (192 + r / 64)) (String (Nbyte (128 + r mod 64)) "")
  else if (r <? 65536)%N then
    String (Nbyte (224 + r / 4096))
      (String (Nbyte (128 + (r / 64) mod 64)) (String (Nbyte (128 + r mod 64)) ""))
  else
    String (Nbyte (240 + r / 262144)) (String (Nbyte (128 + (r / 4096) mod 64))
      (String (Nbyte (128 + (r / 64) mod 64)) (String (Nbyte (128 + r mod 64)) ""))).

Definition EncodeRunes (rs : list N) : string :=
  fold_right (fun r s => EncodeRune r +:+ s) "" rs.

(** ** White space *)

Definition space_runes : list N :=
  ([9; 10; 11; 12; 13; 32; 133; 160; 5760; 8192; 8193; 8194; 8195; 8196; 8197;
    8198; 8199; 8200; 8201; 8202; 8232; 8233; 8239; 8287; 12288])%N.

(** [unicode.IsSpace]. *)
Definition IsSpace (r : N) : bool := existsb (N.eqb r) space_runes.

(** The encodings of the white-space runes: no lead byte of a rune occurs inside
    another one, so trimming and splitting at white space compares bytes. *)
Definition space_encs : list string := map EncodeRune space_runes.

Definition strip_space_prefix (s : string) : option string :=
  match List.find (HasPrefix s) space_encs with
  | Some e => Some (str_drop (slen e) s)
  | None => None
  end.

Definition strip_space_suffix (s : string) : option string :=
  match List.find (HasSuffix s) space_encs with
  | Some e => Some (str_take (slen s - slen e) s)
  | None => None
  end.

Fixpoint iter_strip (strip : string -> option string) (fuel : nat) (s : string) : string :=
  match fuel with
  | 0 => s
  | S n => match strip s with Some s' => iter_strip strip n s' | None => s end
  end.

Definition TrimLeftSpace (s : string) : string := iter_strip strip_space_prefix (slen s) s.
Definition TrimRightSpace (s : string) : string := iter_strip strip_space_suffix (slen s) s.
Definition TrimSpace (s : string) : string := TrimRightSpace (TrimLeftSpace s).

(** [strings.Fields]. *)
Fixpoint fields_from (skip : nat) (cur : string) (s : string) : list string :=
  let flush := if cur ==s "" then [] else [cur] in
  match s with
  | EmptyString => flush
  | String c s' =>
      match skip with
      | S k => fields_from k cur s'
      | 0 =>
          match List.find (HasPrefix s) space_encs with
          | Some e => flush ++ fields_from (slen e - 1) "" s'
          | None => fields_from 0 (cur +:+ String c "") s'
          end
      end
  end.
Definition Fields (s : string) : list string := fields_from 0 "" s.

(** ** Case *)

(** [unicode.ToLower], [unicode.ToUpper] and the least element of the
    [unicode.SimpleFold] orbit, for runes outside ASCII. *)
Class UnicodeCase := {
  u_lower : N -> N;
  u_upper : N -> N;
  u_fold : N -> N;
}.

Section Case.
Context `{UC : UnicodeCase}.

Definition is_upper (r : N) : bool := in_range 65 90 r.
Definition is_lower (r : N) : bool := in_range 97 122 r.

Definition rune_lower (r : N) : N :=
  if (r <? 128)%N then (if is_upper r then r + 32 else r)%N else u_lower r.
Definition rune_upper (r : N) : N :=
  if (r <? 128)%N then (if is_lower r then r - 32 else r)%N else u_upper r.
Definition rune_fold (r : N) : N :=
  if (r <? 128)%N then (if is_lower r then r - 32 else r)%N else u_fold r.

Definition ToLower (s : string) : string := EncodeRunes (map rune_lower (runes s)).
Definition ToUpper (s : string) : string := EncodeRunes (map rune_upper (runes s)).

Definition EqualFold (s t : string) : bool :=
  bool_decide (map rune_fold (runes s) = map rune_fold (runes t)).

End Case.

(** Case tables for evaluating examples: Latin-1 letters and the two
    non-ASCII runes (U+017F, U+212A) that fold to ASCII letters. *)
Definition latin_upper (r : N) : bool := in_range 192 222 r && negb (r =? 215)%N.
Definition latin_lower (r : N) : bool := in_range 224 254 r && negb (r =? 247)%N.
Definition latin_case : UnicodeCase := {|
  u_lower r := if latin_upper r then (r + 32)%N else if (r =? 8490)%N then 107%N else r;
  u_upper r := if latin_lower r then (r - 32)%N else if (r =? 383)%N then 83%N else r;
  u_fold r := if latin_lower r then (r - 32)%N
              else if (r =? 8490)%N then 75%N else if (r =? 383)%N then 83%N else r;
|}.

(** ** Lemmas *)

Lemma HasPrefix_spec (s p : string) : HasPrefix s p = true <-> exists t, s = p +:+ t.
Proof.
  revert s. induction p as [|c p IH]; intros s; cbn [HasPrefix].
  - split; [intros _; by exists s | intros _; by destruct s].
  - destruct s as [|d s]; [split; [done|]; intros [t Ht]; discriminate|].
    cbn [HasPrefix]. rewrite andb_true_iff, Ascii.eqb_eq, IH. split.
    + intros [-> [t ->]]. by exists t.
    + intros [t Ht]. rewrite str_app_cons in Ht. injection Ht as -> ->. eauto.
Qed.

Lemma HasPrefix_app (p t : string) : HasPrefix (p +:+ t) p = true.
Proof. apply HasPrefix_spec. by exists t. Qed.

Lemma HasPrefix_app_r (s t p : string) : HasPrefix s p = true -> HasPrefix (s +:+ t) p = true.
Proof.
  rewrite !HasPrefix_spec. intros [u ->]. exists (u +:+ t). by rewrite str_app_assoc.
Qed.

Lemma TrimPrefix_app (p t : string) : TrimPrefix (p +:+ t) p = t.
Proof. unfold TrimPrefix. by rewrite HasPrefix_app, str_drop_app. Qed.

Lemma TrimPrefix_none (s p : string) : HasPrefix s p = false -> TrimPrefix s p = s.
Proof. unfold TrimPrefix. by intros ->. Qed.

Lemma HasSuffix_spec (s p : string) : HasSuffix s p = true <-> exists t, s = t +:+ p.
Proof.
  unfold HasSuffix. rewrite andb_true_iff, Nat.leb_le, String.eqb_eq. split.
  - intros [Hl Hd]. exists (str_take (slen s - slen p) s).
    transitivity (str_take (slen s - slen p) s +:+ str_drop (slen s - slen p) s);
      [by rewrite str_take_drop | by rewrite Hd].
  - intros [t ->]. rewrite slen_app. split; [lia|].
    replace (slen t + slen p - slen p) with (slen t) by lia. apply str_drop_app.
Qed.

Lemma HasSuffix_app (t p : string) : HasSuffix (t +:+ p) p = true.
Proof. apply HasSuffix_spec. by exists t. Qed.

Lemma TrimSuffix_app (t p : string) : TrimSuffix (t +:+ p) p = t.
Proof.
  unfold TrimSuffix. rewrite HasSuffix_app, slen_app.
  replace (slen t + slen p - slen p) with (slen t) by lia. apply str_take_app.
Qed.

Lemma str_forall_app (f : ascii -> bool) (s t : string) :
  str_forall f (s +:+ t) = str_forall f s && str_forall f t.
Proof.
  induction s as [|c s IH]; [done|]. rewrite str_app_cons. cbn [str_forall].
  by rewrite IH, andb_assoc.
Qed.

Lemma ContainsByte_cons (s : string) (c d : ascii) :
  ContainsByte (String d s) c = (c ==c d) || ContainsByte s c.
Proof.
  unfold ContainsByte, str_exists. simpl. by destruct (c ==c d).
Qed.

Lemma ContainsByte_app (s t : string) (c : ascii) :
  ContainsByte (s +:+ t) c = ContainsByte s c || ContainsByte t c.
Proof.
  induction s as [|d s IH]; [done|].
  by rewrite str_app_cons, !ContainsByte_cons, IH, orb_assoc.
Qed.

(** Splitting never returns an empty slice and [Join] inverts it. *)
Lemma Split_nonempty (s : string) (sep : ascii) : Split s sep <> [].
Proof.
  induction s as [|c s IH]; simpl; [done|].
  destruct (c ==c sep); [done|]. by destruct (Split s sep).
Qed.

Lemma Join_Split (s : string) (sep : ascii) : Join (Split s sep) sep = s.
Proof.
  induction s as [|c s IH]; [done|]. cbn [Split].
  pose proof (Split_nonempty s sep) as Hne.
  destruct (c ==c sep) eqn:E.
  - apply Ascii.eqb_eq in E as ->.
    destruct (Split s sep) as [|w ws] eqn:Es; [done|].
    cbn [Join]. cbn [Join] in IH. rewrite str_app_nil_l. f_equal. exact IH.
  - destruct (Split s sep) as [|w ws]; [done|].
    destruct ws as [|w' ws].
    + cbn [Join] in IH. subst. reflexivity.
    + cbn [Join] in IH |- *. rewrite str_app_cons. f_equal. exact IH.
Qed.

Lemma Split_no_sep (s : string) (sep : ascii) : ContainsByte s sep = false -> Split s sep = [s].
Proof.
  induction s as [|c s IH]; [done|]. rewrite ContainsByte_cons. intros H.
  apply orb_false_iff in H as [H1 H2]. cbn [Split].
  rewrite Ascii.eqb_sym, H1, (IH H2). done.
Qed.

Lemma Split_app_sep (s t : string) (sep : ascii) :
  ContainsByte s sep = false -> Split (s +:+ String sep t) sep = s :: Split t sep.
Proof.
  induction s as [|c s IH]; intros H.
  - rewrite str_app_nil_l. cbn [Split]. by rewrite Ascii.eqb_refl.
  - rewrite ContainsByte_cons in H. apply orb_false_iff in H as [H1 H2].
    rewrite str_app_cons. cbn [Split]. rewrite Ascii.eqb_sym, H1, (IH H2). done.
Qed.

Lemma Split_app (s t : string) (sep : ascii) : Split (s +:+ String sep t) sep = Split s sep ++ Split t sep.
Proof.
  induction s as [|c s IH]; [rewrite str_app_nil_l; cbn [Split]; by rewrite Ascii.eqb_refl|].
  rewrite str_app_cons. cbn [Split]. rewrite IH. destruct (c ==c sep); [done|].
  pose proof (Split_nonempty s sep). by destruct (Split s sep).
Qed.

Lemma Split_parts_no_sep (s : string) (sep : ascii) :
  Forall (fun w => ContainsByte w sep = false) (Split s sep).
Proof.
  induction s as [|c s IH]; cbn [Split]; [by constructor|].
  destruct (c ==c sep) eqn:E; [by constructor|].
  pose proof (Split_nonempty s sep) as Hne.
  destruct (Split s sep) as [|w ws]; [done|]. inversion IH; subst. constructor; [|done].
  by rewrite ContainsByte_cons, Ascii.eqb_sym, E.
Qed.

Lemma Split_Join ws c :
  ws <> [] -> Forall (fun w => ContainsByte w c = false) ws -> Split (Join ws c) c = ws.
Proof.
  intros Hne Hw. induction Hw as [|w [|w' ws] H Hw IH]; [done|by apply Split_no_sep|].
  cbn [Join]. rewrite Split_app_sep by done. f_equal. by apply IH.
Qed.

(** A string with a given byte, at its first one. *)
Lemma first_byte s sep :
  ContainsByte s sep = true -> exists a b, s = a +:+ String sep b /\ ContainsByte a sep = false.
Proof.
  induction s as [|c s IH]; [done|]. rewrite ContainsByte_cons. destruct (sep ==c c) eqn:E.
  - intros _. apply Ascii.eqb_eq in E as <-. by exists "", s.
  - cbn [orb]. intros (a & b & -> & Ha)%IH. exists (String c a), b. split; [done|].
    by rewrite ContainsByte_cons, E.
Qed.

Lemma IndexByte_app a b c : ContainsByte a c = false -> IndexByte (a +:+ String c b) c = Some (slen a).
Proof.
  induction a as [|d a IH]; intros H.
  - rewrite str_app_nil_l. cbn. by rewrite Ascii.eqb_refl.
  - rewrite ContainsByte_cons in H. apply orb_false_iff in H as [H1 H2]. rewrite str_app_cons.
    cbn [IndexByte slen]. rewrite Ascii.eqb_sym, H1, (IH H2). done.
Qed.

Lemma IndexByte_none a c : ContainsByte a c = false -> IndexByte a c = None.
Proof.
  induction a as [|d a IH]; intros H; [done|].
  rewrite ContainsByte_cons in H. apply orb_false_iff in H as [H1 H2].
  cbn [IndexByte]. by rewrite Ascii.eqb_sym, H1, (IH H2).
Qed.

Lemma Cut_found (s t : string) (sep : ascii) :
  ContainsByte s sep = false -> Cut (s +:+ String sep t) sep = (s, t, true).
Proof.
  induction s as [|c s IH]; intros H.
  - rewrite str_app_nil_l. cbn [Cut]. by rewrite Ascii.eqb_refl.
  - rewrite ContainsByte_cons in H. apply orb_false_iff in H as [H1 H2].
    rewrite str_app_cons. cbn [Cut]. rewrite Ascii.eqb_sym, H1, (IH H2). done.
Qed.

Lemma Cut_not_found (s : string) (sep : ascii) :
  ContainsByte s sep = false -> Cut s sep = (s, "", false).
Proof.
  induction s as [|c s IH]; [done|]. rewrite ContainsByte_cons. intros H.
  apply orb_false_iff in H as [H1 H2]. cbn [Cut]. by rewrite Ascii.eqb_sym, H1, (IH H2).
Qed.

(** [EqualFold] is an equivalence relation. *)
(** ** Trimming *)

Lemma iter_strip_none (strip : string -> option string) (n : nat) (s : string) :
  strip s = None -> iter_strip strip n s = s.
Proof. destruct n; simpl; [done|]. by intros ->. Qed.

(** With as much fuel as bytes, stripping goes on to the end. *)
Lemma iter_strip_done (strip : string -> option string) (n : nat) (s : string) :
  (forall s s', strip s = Some s' -> slen s' < slen s) -> slen s <= n -> strip (iter_strip strip n s) = None.
Proof.
  intros Hd. revert s. induction n as [|n IH]; intros s Hn; simpl.
  - destruct (strip s) as [s'|] eqn:E; [|done]. apply Hd in E. lia.
  - destruct (strip s) as [s'|] eqn:E; [|done]. apply IH. apply Hd in E. lia.
Qed.

Lemma space_encs_nonempty (e : string) : In e space_encs -> 0 < slen e.
Proof.
  intros H. assert (Hall : forallb (fun e => Nat.ltb 0 (slen e)) space_encs = true) by (vm_compute; reflexivity).
  rewrite forallb_forall in Hall. specialize (Hall e H). by bool_to_prop.
Qed.

Lemma strip_space_prefix_shorter (s s' : string) : strip_space_prefix s = Some s' -> slen s' < slen s.
Proof.
  unfold strip_space_prefix. destruct (List.find _ _) as [e|] eqn:E; [|discriminate]. intros [= <-].
  apply find_some in E. destruct E as [Hin Hp]. apply space_encs_nonempty in Hin.
  apply HasPrefix_spec in Hp. destruct Hp as [t ->]. rewrite slen_drop, slen_app. lia.
Qed.

Lemma strip_space_suffix_prefix (s s' : string) :
  strip_space_suffix s = Some s' -> slen s' < slen s /\ exists u, s = s' +:+ u.
Proof.
  unfold strip_space_suffix. destruct (List.find _ _) as [e|] eqn:E; [|discriminate]. intros [= <-].
  apply find_some in E. destruct E as [Hin Hp]. apply space_encs_nonempty in Hin.
  apply HasSuffix_spec in Hp. destruct Hp as [t ->]. rewrite slen_app. split.
  - rewrite slen_take, slen_app. lia.
  - replace (slen t + slen e - slen e) with (slen t) by lia. rewrite str_take_app. by exists e.
Qed.

Lemma TrimRightSpace_prefix (s : string) : exists u, s = TrimRightSpace s +:+ u.
Proof.
  unfold TrimRightSpace. generalize (slen s). intros n. revert s. induction n as [|n IH]; intros s; simpl.
  - exists "". by rewrite str_app_nil_r.
  - destruct (strip_space_suffix s) as [s'|] eqn:E; [|exists ""; by rewrite str_app_nil_r].
    apply strip_space_suffix_prefix in E. destruct E as [_ [u ->]]. destruct (IH s') as [w Hw].
    exists (w +:+ u). rewrite str_app_assoc. by rewrite <-Hw.
Qed.

Lemma strip_space_prefix_app (s u : string) :
  strip_space_prefix (s +:+ u) = None -> strip_space_prefix s = None.
Proof.
  unfold strip_space_prefix. destruct (List.find (HasPrefix (s +:+ u)) _) eqn:E; [discriminate|]. intros _.
  destruct (List.find (HasPrefix s) space_encs) as [e|] eqn:E'; [|done].
  apply find_some in E'. destruct E' as [Hin Hp].
  pose proof (find_none _ _ E e Hin) as Hn. by rewrite (HasPrefix_app_r s u e Hp) in Hn.
Qed.

Lemma TrimSpace_idem (s : string) : TrimSpace (TrimSpace s) = TrimSpace s.
Proof.
  assert (Hl : strip_space_prefix (TrimSpace s) = None).
  { unfold TrimSpace. destruct (TrimRightSpace_prefix (TrimLeftSpace s)) as [u Hu].
    apply (strip_space_prefix_app _ u). rewrite <-Hu.
    apply iter_strip_done; [apply strip_space_prefix_shorter|done]. }
  unfold TrimSpace at 1. unfold TrimLeftSpace. rewrite (iter_strip_none _ _ _ Hl).
  unfold TrimRightSpace. apply iter_strip_none. unfold TrimSpace, TrimRightSpace.
  apply iter_strip_done; [|done]. intros t t' H. apply (strip_space_suffix_prefix t t' H).
Qed.

Section CaseLemmas.
Context `{UC : UnicodeCase}.

Lemma EqualFold_refl (s : string) : EqualFold s s = true.
Proof. by apply bool_decide_eq_true. Qed.

Lemma EqualFold_sym (s t : string) : EqualFold s t = EqualFold t s.
Proof. unfold EqualFold. apply bool_decide_ext. split; congruence. Qed.

Lemma EqualFold_trans (s t u : string) :
  EqualFold s t = true -> EqualFold t u = true -> EqualFold s u = true.
Proof. unfold EqualFold. rewrite !bool_decide_eq_true. congruence. Qed.

(** Two names equal up to case compare the same with any third name. *)
Lemma EqualFold_ext (s t u : string) : EqualFold s t = true -> EqualFold s u = EqualFold t u.
Proof.
  unfold EqualFold. rewrite bool_decide_eq_true. intros H. apply bool_decide_ext.
  by rewrite H.
Qed.

End CaseLemmas.

#[export] Hint Resolve HasPrefix_app HasSuffix_app EqualFold_refl : duckway.
#[export] Hint Rewrite TrimPrefix_app TrimSuffix_app @EqualFold_refl : duckway.

Section Samples.
#[local] Existing Instance latin_case.

Example lower_kelvin : ToLower (EncodeRune 8490 +:+ "OctoKat") = "koctokat".
Proof. vm_compute. reflexivity. Qed.

Example fold_long_s : EqualFold (EncodeRune 383 +:+ "ET") "set" = true.
Proof. vm_compute. reflexivity. Qed.

Example trim_unicode : TrimSpace (EncodeRune 12288 +:+ " a b " +:+ EncodeRune 160) = "a b".
Proof. vm_compute. reflexivity. Qed.

Example fields_ex : Fields "  report-status   side-band-64k " = ["report-status"; "side-band-64k"].
Proof. vm_compute. reflexivity. Qed.

Example splitn_ex : SplitN "a b c d" " " 3 = ["a"; "b"; "c d"].
Proof. vm_compute. reflexivity. Qed.
End Samples.
