(* ===== verification/GoLib.v ===== *)
(** * [path.Match] and [net/url] query parsing *)

From S2P Require Import Prelude GoStrings.
Local Open Scope go_scope.

(** ** [path.Match]

    Only the [matched] result is modelled: the program drops the error, and
    [matched] is false whenever the error is set. *)

Inductive chunk_result := ChunkBad | ChunkFail | ChunkOk (rest : string).

(** [getEsc]: a possibly escaped character of a class and the rest (which must
    not be empty). *)
Definition getEsc (chunk : string) : option (N * string) :=
  let dec s :=
    let '(r, n) := DecodeRune s in
    let rest := str_drop n s in
    if ((r =? RuneError)%N && (n =? 1)%nat) || (rest ==s "") then None else Some (r, rest) in
  match chunk with
  | EmptyString => None
  | String c s =>
      if (c ==c "-") || (c ==c "]") then None
      else if c ==c "\" then (if s ==s "" then None else dec s)
      else dec chunk
  end.

(** The ranges of a character class up to its ']'. *)
Fixpoint class_ranges (fuel : nat) (r : N) (nrange : bool) (found : bool) (chunk : string)
  : option (bool * string) :=
  match fuel with
  | 0 => None
  | S n =>
      if HasPrefix chunk "]" && nrange then Some (found, str_drop 1 chunk)
      else
        match getEsc chunk with
        | None => None
        | Some (lo, chunk1) =>
            if HasPrefix chunk1 "-" then
              match getEsc (str_drop 1 chunk1) with
              | None => None
              | Some (hi, chunk2) => class_ranges n r true (found || in_range lo hi r) chunk2
              end
            else class_ranges n r true (found || in_range lo lo r) chunk1
        end
  end.

Fixpoint matchChunk (fuel : nat) (failed : bool) (chunk s : string) : chunk_result :=
  match fuel with
  | 0 => ChunkBad
  | S n =>
      match chunk with
      | EmptyString => if failed then ChunkFail else ChunkOk s
      | String c chunk1 =>
          let failed := failed || (s ==s "") in
          if c ==c "[" then
            let '(r, w) := if failed then (0%N, 0) else DecodeRune s in
            let s1 := str_drop w s in
            let negated := HasPrefix chunk1 "^" in
            let chunk2 := if negated then str_drop 1 chunk1 else chunk1 in
            match class_ranges n r false false chunk2 with
            | None => ChunkBad
            | Some (found, chunk3) => matchChunk n (failed || Bool.eqb found negated) chunk3 s1
            end
          else if c ==c "?" then
            (if failed then matchChunk n true chunk1 s
             else matchChunk n (HasPrefix s "/") chunk1 (str_drop (snd (DecodeRune s)) s))
          else
            let lit := if c ==c "\" then chunk1 else chunk in
            match lit with
            | EmptyString => ChunkBad
            | String d lit1 =>
                match s with
                | String x s1 =>
                    if failed then matchChunk n true lit1 s else matchChunk n (negb (d ==c x)) lit1 s1
                | EmptyString => matchChunk n true lit1 s
                end
            end
      end
  end.

(** The end of a chunk: the first unbracketed star. *)
Fixpoint scan_len (skip : bool) (inrange : bool) (pattern : string) : nat :=
  match pattern with
  | EmptyString => 0
  | String c p =>
      if skip then S (scan_len false inrange p)
      else if c ==c "\" then S (scan_len true inrange p)
      else if c ==c "[" then S (scan_len false true p)
      else if c ==c "]" then S (scan_len false false p)
      else if (c ==c "*") && negb inrange then 0
      else S (scan_len false inrange p)
  end.

Definition scanChunk (pattern : string) : bool * string * string :=
  let p := TrimLeftByte pattern "*" in
  let n := scan_len false false p in
  (HasPrefix pattern "*", str_take n p, str_drop n p).

(** The inner loop: skip one more byte (never a '/') and try the chunk again. *)
Fixpoint star_search (chunk name : string) (last : bool) : option string :=
  match name with
  | EmptyString => None
  | String c name' =>
      if c ==c "/" then None
      else match matchChunk (S (slen chunk)) false chunk name' with
           | ChunkOk t =>
               if last && (t !=s "") then star_search chunk name' last else Some t
           | ChunkBad => None
           | ChunkFail => star_search chunk name' last
           end
  end.

Fixpoint match_from (fuel : nat) (pattern name : string) : bool :=
  match pattern with
  | EmptyString => name ==s ""
  | String _ _ =>
      match fuel with
      | 0 => false
      | S n =>
          let '(star, chunk, rest) := scanChunk pattern in
          if star && (chunk ==s "") then negb (ContainsByte name "/")
          else
            let last := rest ==s "" in
            let retry := if star then
                           match star_search chunk name last with
                           | Some t => match_from n rest t
                           | None => false
                           end
                         else false in
            match matchChunk (S (slen chunk)) false chunk name with
            | ChunkOk t => if negb last || (t ==s "") then match_from n rest t else retry
            | ChunkBad => false
            | ChunkFail => retry
            end
      end
  end.

(** Every round consumes at least one byte of the pattern. *)
Definition PathMatch (pattern name : string) : bool := match_from (slen pattern) pattern name.

Example path_match_1 : PathMatch "release/*" "release/v1" = true.
Proof. reflexivity. Qed.
Example path_match_2 : PathMatch "release/*" "release/v1/x" = false.
Proof. reflexivity. Qed.
Example path_match_3 : PathMatch "v[0-9]?*" "v1.x" = true.
Proof. reflexivity. Qed.
Example path_match_4 : PathMatch "a*b*c" "aXbYbZc" = true.
Proof. reflexivity. Qed.
Example path_match_5 : PathMatch "[^a-c]x\*" "dx*" = true.
Proof. reflexivity. Qed.

(** ** [url.ParseQuery] *)

Definition hex_val (c : ascii) : option N :=
  let b := byteN c in
  if in_range 48 57 b then Some (b - 48)%N
  else if in_range 97 102 b then Some (b - 87)%N
  else if in_range 65 70 b then Some (b - 55)%N
  else None.

(** [url.QueryUnescape]. *)
Fixpoint QueryUnescape (s : string) : option string :=
  match s with
  | EmptyString => Some ""
  | String c s1 =>
      if c ==c "%" then
        match s1 with
        | String h (String l s2) =>
            match hex_val h, hex_val l, QueryUnescape s2 with
            | Some hv, Some lv, Some t => Some (String (Nbyte (hv * 16 + lv)) t)
            | _, _, _ => None
            end
        | _ => None
        end
      else option_map (String (if c ==c "+" then " " else c)%char) (QueryUnescape s1)
  end.

(** [url.ParseQuery]: the parameters that parse, in order, and whether an error
    was recorded (parsing goes on after one). *)
Definition parse_pair (kv : string) : option (string * string) :=
  if ContainsByte kv ";" then None
  else let '(k, v, _) := Cut kv "=" in
       match QueryUnescape k, QueryUnescape v with
       | Some k', Some v' => Some (k', v')
       | _, _ => None
       end.

Definition query_parts (q : string) : list string :=
  List.filter (fun p => p !=s "") (Split q "&").

Definition ParseQuery (q : string) : list (string * string) * bool :=
  (omap parse_pair (query_parts q),
   existsb (fun p => match parse_pair p with None => true | Some _ => false end) (query_parts q)).

(** [Values.Get]: the first value of a key. *)
Definition query_get (vals : list (string * string)) (k : string) : string :=
  match List.find (fun kv => fst kv ==s k) vals with Some (_, v) => v | None => "" end.

Example parse_query_1 : ParseQuery "a=1&_method=%50UT&&b+c=d" =
  ([("a", "1"); ("_method", "PUT"); ("b c", "d")], false).
Proof. reflexivity. Qed.
Example parse_query_2 : ParseQuery "a=%zz&b=2" = ([("b", "2")], true).
Proof. reflexivity. Qed.
