(* ===== verification/GoJSON.v ===== *)
(** * [encoding/json] into [map[string]interface{}]

    The values, numbers and failures of [json.Unmarshal] for an untyped target.
    Numbers are IEEE binary64 values ([spec_float] of the Standard Library). *)

From S2P Require Import Prelude GoStrings GoLib.
From Stdlib Require Import SpecFloat.
Local Open Scope go_scope.

Definition dquote : ascii := "034".

(** JSON text written with single quotes, for examples. *)
Definition quoted (s : string) : string := ReplaceByte s "'" dquote.

#[local] Set Warnings "-register-all".
Inductive jval :=
| JNull
| JBool (b : bool)
| JNum (f : spec_float)
| JStr (s : string)
| JArr (l : list jval)
| JObj (m : list (string * jval)).

(** Map operations: a later duplicate key replaces the earlier value. *)
Fixpoint obj_set (m : list (string * jval)) (k : string) (v : jval) : list (string * jval) :=
  match m with
  | [] => [(k, v)]
  | (k', v') :: m' => if k ==s k' then (k, v) :: m' else (k', v') :: obj_set m' k v
  end.

Fixpoint obj_get (m : list (string * jval)) (k : string) : option jval :=
  match m with
  | [] => None
  | (k', v) :: m' => if k ==s k' then Some v else obj_get m' k
  end.

(** ** Numbers: [strconv.ParseFloat(s, 64)] *)

(** [m * 10^e10] rounded to nearest even; [None] is a range error. *)
Definition decimal_float (neg : bool) (m : Z) (ndigits e10 : Z) : option spec_float :=
  if (m =? 0)%Z then Some (S754_zero neg)
  else if (400 <? e10)%Z then None
  else if (e10 + ndigits <? -400)%Z then Some (S754_zero neg)
  else
    let sgn z := if neg then Z.opp z else z in
    let r :=
      if (0 <=? e10)%Z then binary_normalize 53 1024 (sgn (m * 10 ^ e10))%Z 0 neg
      else
        let d := (10 ^ (- e10))%Z in
        let s := Z.max 0 (66 + Z.log2 d - Z.log2 m) in
        let q := (Z.shiftl m s / d)%Z in
        let sticky := if (Z.shiftl m s mod d =? 0)%Z then 0%Z else 1%Z in
        binary_normalize 53 1024 (sgn (2 * q + sticky))%Z (- s - 1) neg in
    match r with S754_infinity _ => None | _ => Some r end.

Definition is_digit (c : ascii) : bool := in_range 48 57 (byteN c).
Definition digitZ (c : ascii) : Z := Z.of_N (byteN c - 48).

Fixpoint span_digits (s : string) : string * string :=
  match s with
  | String c s' => if is_digit c then let '(d, r) := span_digits s' in (String c d, r) else ("", s)
  | EmptyString => ("", "")
  end.

Fixpoint digits_val (acc : Z) (s : string) : Z :=
  match s with String c s' => digits_val (acc * 10 + digitZ c) s' | EmptyString => acc end.

(** A JSON number literal and the rest of the input. *)
Definition parse_number (s : string) : option (jval * string) :=
  let '(neg, s1) := match s with
                    | String c s' => if c ==c "-" then (true, s') else (false, s)
                    | EmptyString => (false, s)
                    end in
  let '(ip, s2) := span_digits s1 in
  if (ip ==s "") || (HasPrefix ip "0" && negb (ip ==s "0")) then None
  else
    let frac := match s2 with
                | String c s' => if c ==c "." then let '(d, r) := span_digits s' in
                                   if d ==s "" then None else Some (d, r)
                                 else Some ("", s2)
                | EmptyString => Some ("", s2)
                end in
    match frac with
    | None => None
    | Some (fp, s3) =>
        let ex := match s3 with
                  | String c s' =>
                      if (c ==c "e") || (c ==c "E") then
                        let '(eneg, s'') := match s' with
                          | String d t => if d ==c "-" then (true, t)
                                          else if d ==c "+" then (false, t) else (false, s')
                          | EmptyString => (false, s')
                          end in
                        let '(d, r) := span_digits s'' in
                        if d ==s "" then None
                        else Some ((if eneg then - digits_val 0 d else digits_val 0 d)%Z, r)
                      else Some (0%Z, s3)
                  | EmptyString => Some (0%Z, s3)
                  end in
        match ex with
        | None => None
        | Some (e, s4) =>
            let digits := ip +:+ fp in
            match decimal_float neg (digits_val 0 digits) (zlen digits) (e - zlen fp) with
            | Some f => Some (JNum f, s4)
            | None => None
            end
        end
    end.

(** ** Strings *)

Definition hex4 (s : string) : option (N * string) :=
  match s with
  | String a (String b (String c (String d r))) =>
      match hex_val a, hex_val b, hex_val c, hex_val d with
      | Some x, Some y, Some z, Some w => Some ((((x * 16 + y) * 16 + z) * 16 + w)%N, r)
      | _, _, _, _ => None
      end
  | _ => None
  end.

Definition simple_escape (c : ascii) : option ascii :=
  if (c ==c dquote) || (c ==c "\") || (c ==c "/") then Some c
  else if c ==c "b" then Some "008"%char else if c ==c "f" then Some "012"%char
  else if c ==c "n" then Some "010"%char else if c ==c "r" then Some "013"%char
  else if c ==c "t" then Some "009"%char else None.

(** [utf16.DecodeRune] of a \u escape: the rune and whether the following \u
    escape is consumed with it. *)
Definition utf16_pair (r1 : N) (next : option N) : N * bool :=
  if surrogate r1 then
    match next with
    | Some r2 =>
        if in_range 55296 56319 r1 && in_range 56320 57343 r2
        then ((r1 - 55296) * 1024 + (r2 - 56320) + 65536, true)%N
        else (RuneError, false)
    | None => (RuneError, false)
    end
  else (r1, false).

(** The body of a string after its opening quote. *)
Fixpoint parse_string (fuel : nat) (s : string) : option (string * string) :=
  match fuel with
  | 0 => None
  | S n =>
      let emit t r := match parse_string n r with Some (u, r') => Some (t +:+ u, r') | None => None end in
      match s with
      | EmptyString => None
      | String c s1 =>
          if c ==c dquote then Some ("", s1)
          else if (byteN c <? 32)%N then None
          else if c ==c "\" then
            match s1 with
            | EmptyString => None
            | String e s2 =>
                if e ==c "u" then
                  match hex4 s2 with
                  | None => None
                  | Some (r1, s3) =>
                      let next := if HasPrefix s3 "\u" then hex4 (str_drop 2 s3) else None in
                      let '(r, both) := utf16_pair r1 (option_map fst next) in
                      emit (EncodeRune r)
                        (if both then match next with Some (_, s4) => s4 | None => s3 end else s3)
                  end
                else match simple_escape e with
                     | Some d => emit (String d "") s2
                     | None => None
                     end
            end
          else let '(r, w) := DecodeRune s in emit (EncodeRune r) (str_drop w s)
      end
  end.

(** ** Values *)

Definition json_ws (c : ascii) : bool :=
  (c ==c " ") || (c ==c "009") || (c ==c "010") || (c ==c "013").

Fixpoint skip_ws (s : string) : string :=
  match s with String c s' => if json_ws c then skip_ws s' else s | EmptyString => "" end.

Definition maxNestingDepth : N := 10000%N.

(** One value and the rest.  [fuel] bounds the number of calls; every call
    consumes input. *)
Fixpoint parse_value (fuel : nat) (depth : N) (s : string) : option (jval * string) :=
  match fuel with
  | 0 => None
  | S n =>
      let s := skip_ws s in
      let deep := (maxNestingDepth <? depth + 1)%N in
      if HasPrefix s "null" then Some (JNull, str_drop 4 s)
      else if HasPrefix s "true" then Some (JBool true, str_drop 4 s)
      else if HasPrefix s "false" then Some (JBool false, str_drop 5 s)
      else match s with
      | EmptyString => None
      | String c s1 =>
          if c ==c dquote then
            match parse_string n s1 with Some (t, r) => Some (JStr t, r) | None => None end
          else if c ==c "[" then
            if deep then None else
            if HasPrefix (skip_ws s1) "]" then Some (JArr [], str_drop 1 (skip_ws s1))
            else match parse_elems n (depth + 1) s1 with Some (l, r) => Some (JArr l, r) | None => None end
          else if c ==c "{" then
            if deep then None else
            if HasPrefix (skip_ws s1) "}" then Some (JObj [], str_drop 1 (skip_ws s1))
            else match parse_members n (depth + 1) [] s1 with
                 | Some (m, r) => Some (JObj m, r)
                 | None => None
                 end
          else parse_number s
      end
  end
with parse_elems (fuel : nat) (depth : N) (s : string) : option (list jval * string) :=
  match fuel with
  | 0 => None
  | S n =>
      match parse_value n depth s with
      | None => None
      | Some (v, r) =>
          let r := skip_ws r in
          if HasPrefix r "]" then Some ([v], str_drop 1 r)
          else if HasPrefix r "," then
            match parse_elems n depth (str_drop 1 r) with
            | Some (l, r') => Some (v :: l, r')
            | None => None
            end
          else None
      end
  end
with parse_members (fuel : nat) (depth : N) (m : list (string * jval)) (s : string)
  : option (list (string * jval) * string) :=
  match fuel with
  | 0 => None
  | S n =>
      let s := skip_ws s in
      if negb (HasPrefix s (String dquote "")) then None else
      match parse_string n (str_drop 1 s) with
      | None => None
      | Some (k, r) =>
          let r := skip_ws r in
          if negb (HasPrefix r ":") then None else
          match parse_value n depth (str_drop 1 r) with
          | None => None
          | Some (v, r) =>
              let r := skip_ws r in
              let m := obj_set m k v in
              if HasPrefix r "}" then Some (m, str_drop 1 r)
              else if HasPrefix r "," then parse_members n depth m (str_drop 1 r)
              else None
          end
      end
  end.

(** [json.Unmarshal] into an [interface{}]: one value, nothing but white space
    after it. *)
Definition Unmarshal (s : string) : option jval :=
  match parse_value (2 * slen s + 2) 0 s with
  | Some (v, r) => if skip_ws r ==s "" then Some v else None
  | None => None
  end.

(** [json.Unmarshal] into a [map[string]interface{}]: [Some None] is the nil map
    left by a top-level null. *)
Definition UnmarshalMap (s : string) : option (option (list (string * jval))) :=
  match Unmarshal s with
  | Some (JObj m) => Some (Some m)
  | Some JNull => Some None
  | _ => None
  end.

Example json_ex_1 :
  UnmarshalMap (quoted "{'ref':'refs\/heads\/main', 'n': [1, -2.5e1, true, null], 'ref':'\u0061\ud83d\ude00'}")
  = Some (Some [("ref", JStr ("a" +:+ EncodeRune 128512));
                ("n", JArr [JNum (S754_finite false 4503599627370496 (-52));
                            JNum (S754_finite true 7036874417766400 (-48)); JBool true; JNull])]).
Proof. vm_compute. reflexivity. Qed.
Example json_ex_2 : UnmarshalMap (quoted "{'a':1}x") = None /\ UnmarshalMap "[1]" = None /\
  UnmarshalMap " null " = Some None /\ Unmarshal "1e400" = None /\ Unmarshal "01" = None.
Proof. vm_compute. auto. Qed.
Example json_ex_3 : Unmarshal "0.1" = Some (JNum (S754_finite false 7205759403792794 (-56))).
Proof. vm_compute. reflexivity. Qed.
