(* ===== verification/BranchRules.v ===== *)
(** * GitHub branch rules: [internal/server/services/github_branch_rules.go]

    The data of a branch policy, its validation, the glob matcher, and the
    selection of the one rule that governs a branch.  Error values are
    constructors that carry the arguments of the Go message. *)

From S2P Require Import Prelude GoStrings.
Local Open Scope go_scope.

(** ** Data *)

Definition GitHubRoleRead : string := "read".
Definition GitHubRoleProtected : string := "protected".
Definition GitHubRoleAgent : string := "agent".
Definition GitHubDefaultBranchToken : string := "@default".
Definition MaxGitHubBranchRules : nat := 50.
Definition MaxGitHubTagPatterns : nat := 20.
Definition MaxGitHubPatternLength : nat := 200.
Definition MaxGitHubRefNameBytes : nat := 255.
Definition MaxGitHubMatchNameBytes : nat := 1024.

Record GitHubBranchRule := mkRule {
  br_Branches : string;
  br_Role : string;
  br_RunWorkflows : bool;
}.

Record GitHubBranchPolicy := mkPolicy {
  bp_Rules : list GitHubBranchRule;
  bp_TagsCreate : list string;   (* Tags.Create *)
}.

Record GitHubRepoBranchPolicy := mkRepoPolicy {
  rbp_BranchPolicy : GitHubBranchPolicy;
  rbp_PullRequestsMerge : bool;
  rbp_PullRequestsApprove : bool;
}.

(** The zero value of a rule, which [SelectRule] returns when nothing matched. *)
Definition zero_rule : GitHubBranchRule := mkRule "" "" false.

#[export] Instance GitHubBranchRule_eq_dec : EqDecision GitHubBranchRule.
Proof. solve_decision. Defined.

Definition set_Branches (p : string) (r : GitHubBranchRule) : GitHubBranchRule :=
  mkRule p (br_Role r) (br_RunWorkflows r).

(** ** Roles *)

Definition githubRoleRank (role : string) : nat :=
  if role ==s GitHubRoleAgent then 2
  else if role ==s GitHubRoleProtected then 1
  else 0.

Definition GitHubRoleCanPush (role : string) : bool := role ==s GitHubRoleAgent.

Definition GitHubRoleCanBeBase (role : string) : bool :=
  (role ==s GitHubRoleAgent) || (role ==s GitHubRoleProtected).

Definition valid_role (role : string) : bool :=
  (role ==s GitHubRoleRead) || (role ==s GitHubRoleProtected) || (role ==s GitHubRoleAgent).

(** ** Names and patterns *)

(** At most [n] runes of [s], never splitting a UTF-8 sequence. *)
Fixpoint truncate_from (skip n : nat) (s : string) : string :=
  match s with
  | EmptyString => ""
  | String c s' =>
      match skip with
      | S k => String c (truncate_from k n s')
      | 0 => match n with
             | 0 => ""
             | S n' => String c (truncate_from (snd (DecodeRune s) - 1) n' s')
             end
      end
  end.
Definition truncateRunes (s : string) (n : nat) : string := truncate_from 0 n s.

Definition ref_bad_char (c : ascii) : bool :=
  (byteN c <? 32)%N || (byteN c =? 127)%N || existsb (Ascii.eqb c)
    [" "; "~"; "^"; ":"; "["; "\"; "?"]%char.

(** The byte loop of [GitHubRefNameProblem]. *)
Fixpoint ref_char_problem (pattern : bool) (name : string) : string :=
  match name with
  | EmptyString => ""
  | String c s =>
      if ref_bad_char c then "contains a character git does not allow"
      else if (c ==c "*") && negb pattern then "contains a wildcard"
      else ref_char_problem pattern s
  end.

Definition GitHubRefNameProblem (name : string) (pattern : bool) : string :=
  if name ==s "" then "is empty"
  else if (MaxGitHubRefNameBytes <? slen name)%nat && negb pattern
  then "is longer than 255 bytes"
  else
    let prob := ref_char_problem pattern name in
    if prob !=s "" then prob
    else if HasPrefix name "/" then "must not start with /"
    else if Contains name ".." || Contains name "//" || Contains name "@{"
    then "contains a sequence git does not allow"
    else if negb pattern && (HasSuffix name "/" || (name ==s "@"))
    then "is not a valid ref name"
    else "".

Definition stripBranchPrefix (s : string) : string := TrimPrefix s "refs/heads/".

Inductive pattern_error :=
| EmptyPattern
| PatternTooLong (shown : string)
| DefaultOnlyForBranches
| BadPattern (p problem : string).

Definition normalizeGitHubPattern (raw prefix : string) (allowDefault : bool)
  : result pattern_error string :=
  let p := TrimPrefix raw prefix in
  if p ==s "" then Err EmptyPattern
  else if (MaxGitHubPatternLength <? slen p)%nat
  then Err (PatternTooLong (truncateRunes p 20 +:+ "..."))
  else if p ==s GitHubDefaultBranchToken
  then (if allowDefault then Ok p else Err DefaultOnlyForBranches)
  else
    let prob := GitHubRefNameProblem p true in
    if prob !=s "" then Err (BadPattern p prob) else Ok p.

(** ** Validation *)

Inductive policy_error :=
| TooManyRules
| BranchRuleError (shown : string) (e : pattern_error)
| InvalidRole (pat role : string)
| DuplicateRule (pat : string)
| RunWorkflowsRequires (pat runCap : string)
| TooManyTags
| TagPatternError (shown : string) (e : pattern_error)
| DuplicateTag (pat : string).

Definition in_seen (x : string) (seen : list string) : bool := existsb (String.eqb x) seen.

(** The loop over [p.Rules].  Patterns are rewritten in place, so the rules
    visited before an error are already rewritten when it is returned. *)
Fixpoint validate_rules (dispatch : bool) (runCap : string) (seen : list string)
    (rs : list GitHubBranchRule) : list GitHubBranchRule * option policy_error :=
  match rs with
  | [] => ([], None)
  | r :: rs' =>
      match normalizeGitHubPattern (br_Branches r) "refs/heads/" true with
      | Err e => (rs, Some (BranchRuleError (truncateRunes (br_Branches r) 40) e))
      | Ok pat =>
          let r' := set_Branches pat r in
          if negb (valid_role (br_Role r)) then (r' :: rs', Some (InvalidRole pat (br_Role r)))
          else if in_seen pat seen then (r' :: rs', Some (DuplicateRule pat))
          else if br_RunWorkflows r && negb dispatch
          then (r' :: rs', Some (RunWorkflowsRequires pat runCap))
          else
            let '(rest, err) := validate_rules dispatch runCap (pat :: seen) rs' in
            (r' :: rest, err)
      end
  end.

(** The loop over [p.Tags.Create]. *)
Fixpoint validate_tags (seen ts : list string) : list string * option policy_error :=
  match ts with
  | [] => ([], None)
  | t :: ts' =>
      match normalizeGitHubPattern t "refs/tags/" false with
      | Err e => (ts, Some (TagPatternError (truncateRunes t 40) e))
      | Ok pat =>
          if in_seen pat seen then (ts, Some (DuplicateTag pat))
          else let '(rest, err) := validate_tags (pat :: seen) ts' in (pat :: rest, err)
      end
  end.

(** [validateGitHubBranchPolicy]: the policy as it is after the call (it is
    rewritten through the pointer) and the error. *)
Definition validateGitHubBranchPolicy (p : GitHubBranchPolicy) (dispatch : bool) (runCap : string)
  : GitHubBranchPolicy * option policy_error :=
  if (MaxGitHubBranchRules <? length (bp_Rules p))%nat then (p, Some TooManyRules)
  else
    let '(rules, err) := validate_rules dispatch runCap [] (bp_Rules p) in
    match err with
    | Some e => (mkPolicy rules (bp_TagsCreate p), Some e)
    | None =>
        if (MaxGitHubTagPatterns <? length (bp_TagsCreate p))%nat
        then (mkPolicy rules (bp_TagsCreate p), Some TooManyTags)
        else let '(tags, err) := validate_tags [] (bp_TagsCreate p) in (mkPolicy rules tags, err)
    end.

Definition ValidateGitHubBranchPolicy (p : GitHubBranchPolicy) (dispatch : bool)
  : GitHubBranchPolicy * option policy_error :=
  validateGitHubBranchPolicy p dispatch "the workflow_dispatch capability".

(** [cloneAndValidate] works on copies of the slices, so the caller's policy is
    untouched and only the normalised copy is returned. *)
Definition cloneAndValidate (p : GitHubBranchPolicy) (dispatch : bool) (runCap : string)
  : result policy_error GitHubBranchPolicy :=
  match validateGitHubBranchPolicy p dispatch runCap with
  | (_, Some e) => Err e
  | (bp, None) => Ok bp
  end.

Definition HasRunWorkflowsRule (p : GitHubBranchPolicy) : bool :=
  existsb br_RunWorkflows (bp_Rules p).

Definition HasDefaultRule (p : GitHubBranchPolicy) : bool :=
  existsb (fun r => br_Branches r ==s GitHubDefaultBranchToken) (bp_Rules p).

(** ** Globs *)

Inductive globTok := Lit (b : ascii) | SStar | DStar.

(** Tokens of a run of [n] stars. *)
Definition star_run (n : nat) : list globTok :=
  match n with 0 => [] | 1 => [SStar] | _ => [DStar] end.

Fixpoint compile_from (run : nat) (pattern : string) : list globTok :=
  match pattern with
  | EmptyString => star_run run
  | String c p =>
      if c ==c "*" then compile_from (S run) p
      else star_run run ++ Lit c :: compile_from 0 p
  end.
Definition compileGitHubGlob (pattern : string) : list globTok := compile_from 0 pattern.

Definition hd_bool (l : list bool) : bool := match l with b :: _ => b | [] => false end.

(** One step of the matcher's table: from [cur[j]] ("the later tokens match
    [name[j:]]") to the same for one more token, for [j] from [n] down to 0. *)
Fixpoint glob_row (t : globTok) (name : string) (cur : list bool) : list bool :=
  match name, cur with
  | EmptyString, c :: _ =>
      [match t with Lit _ => false | SStar => c | DStar => c end]
  | String ch name', c :: cur' =>
      let next := glob_row t name' cur' in
      (match t with
       | Lit b => (ch ==c b) && hd_bool cur'
       | SStar => c || (negb (ch ==c "/") && hd_bool next)
       | DStar => c || hd_bool next
       end) :: next
  | _, [] => []
  end.

Definition glob_last_row (name : string) : list bool := replicate (slen name) false ++ [true].

Definition GitHubGlobMatch (pattern name : string) : bool :=
  if (MaxGitHubMatchNameBytes <? slen name)%nat
     || (MaxGitHubPatternLength * 2 <? slen pattern)%nat
  then false
  else hd_bool (fold_right (fun t cur => glob_row t name cur) (glob_last_row name)
                  (compileGitHubGlob pattern)).

(** ** Choosing the governing rule *)

Definition globSpecificity (pattern : string) : nat * nat :=
  (match IndexByte pattern "*" with Some i => i | None => slen pattern end,
   CountByte pattern "*").

Definition moreSpecific (a b : GitHubBranchRule) : bool :=
  let '(ap, asx) := globSpecificity (br_Branches a) in
  let '(bp, bs) := globSpecificity (br_Branches b) in
  if negb (ap =? bp)%nat then (bp <? ap)%nat
  else if negb (asx =? bs)%nat then (asx <? bs)%nat
  else if negb (slen (br_Branches a) =? slen (br_Branches b))%nat
  then (slen (br_Branches b) <? slen (br_Branches a))%nat
  else
    let ar := githubRoleRank (br_Role a) in
    let br := githubRoleRank (br_Role b) in
    if negb (ar =? br)%nat then (ar <? br)%nat
    else negb (br_RunWorkflows a) && br_RunWorkflows b.

(** [if !matched || moreSpecific(r, rule) { rule, matched = r, true }]. *)
Definition prefer (best : option GitHubBranchRule) (r : GitHubBranchRule) : option GitHubBranchRule :=
  match best with
  | None => Some r
  | Some b => if moreSpecific r b then Some r else best
  end.

Section Select.
Context `{UC : UnicodeCase}.

(** The rules the first loop of [SelectRule] considers. *)
Definition default_candidates (rs : list GitHubBranchRule) : list GitHubBranchRule :=
  List.filter (fun r => stripBranchPrefix (br_Branches r) ==s GitHubDefaultBranchToken) rs.

(** The rules the second loop considers, with the prefix stripped. *)
Definition glob_candidates (branch : string) (rs : list GitHubBranchRule) : list GitHubBranchRule :=
  map (fun r => set_Branches (stripBranchPrefix (br_Branches r)) r)
    (List.filter
       (fun r => let pat := stripBranchPrefix (br_Branches r) in
                 negb (pat ==s GitHubDefaultBranchToken) && GitHubGlobMatch pat branch) rs).

(** [SelectRule]: [None] is [matched = false]. *)
Definition SelectRule (p : GitHubBranchPolicy) (branch defaultBranch : string)
  : option GitHubBranchRule :=
  let branch := stripBranchPrefix branch in
  let from_globs := fold_left prefer (glob_candidates branch (bp_Rules p)) None in
  if (defaultBranch !=s "") && EqualFold branch defaultBranch then
    match fold_left prefer (default_candidates (bp_Rules p)) None with
    | Some r => Some r
    | None => from_globs
    end
  else from_globs.

(** Role and rule as the callers read them off [SelectRule]'s result. *)
Definition selected_role (sel : option GitHubBranchRule) : string :=
  match sel with Some r => br_Role r | None => GitHubRoleRead end.
Definition selected_rule (sel : option GitHubBranchRule) : GitHubBranchRule :=
  match sel with Some r => r | None => zero_rule end.

End Select.

Definition TagCreateAllowed (p : GitHubBranchPolicy) (tag : string) : bool :=
  let tag := TrimPrefix tag "refs/tags/" in
  existsb (fun pat => GitHubGlobMatch (TrimPrefix pat "refs/tags/") tag) (bp_TagsCreate p).

(** ** The glob language

    What a token sequence means, independently of the table: a single star
    stands for any bytes but '/', a double star for any bytes. *)

Definition no_slash (s : string) : bool := str_forall (fun c => negb (c ==c "/")) s.

Inductive glob_lang : list globTok -> string -> Prop :=
| gl_nil : glob_lang [] ""
| gl_lit b ts s : glob_lang ts s -> glob_lang (Lit b :: ts) (String b s)
| gl_star u ts s : no_slash u = true -> glob_lang ts s -> glob_lang (SStar :: ts) (u +:+ s)
| gl_dstar u ts s : glob_lang ts s -> glob_lang (DStar :: ts) (u +:+ s).

#[local] Hint Constructors glob_lang : duckway.

Lemma glob_lang_nil_inv s : glob_lang [] s <-> s = "".
Proof. split; [by inversion 1 | intros ->; constructor]. Qed.

Lemma glob_lang_lit_inv b ts s :
  glob_lang (Lit b :: ts) s <-> exists s', s = String b s' /\ glob_lang ts s'.
Proof. split; [inversion 1; subst; eauto | intros (s' & -> & ?); by constructor]. Qed.

Lemma glob_lang_star_nil ts : glob_lang (SStar :: ts) "" <-> glob_lang ts "".
Proof.
  split.
  - inversion 1 as [| |u ts' s Hu Hs Hts Heq|]; subst. destruct u; [|discriminate].
    rewrite str_app_nil_l in Heq. by subst.
  - intros H. by apply (gl_star "").
Qed.

Lemma glob_lang_star_cons ts c s :
  glob_lang (SStar :: ts) (String c s) <->
  glob_lang ts (String c s) \/ (c <> "/"%char /\ glob_lang (SStar :: ts) s).
Proof.
  split.
  - inversion 1 as [| |u ts' s' Hu Hs Hts Heq|]; subst. destruct u as [|d u].
    + left. by rewrite str_app_nil_l in Heq; subst.
    + right. rewrite str_app_cons in Heq. injection Heq as -> <-.
      unfold no_slash in Hu. cbn [str_forall] in Hu. bool_to_prop. split; [done|].
      by constructor.
  - intros [H|[Hc H]]; [by apply (gl_star "")|].
    inversion H as [| |u ts' s' Hu Hs Hts Heq|]; subst.
    rewrite <- str_app_cons. constructor; [|done].
    unfold no_slash in *. cbn [str_forall]. apply Ascii.eqb_neq in Hc. by rewrite Hc.
Qed.

Lemma glob_lang_dstar_nil ts : glob_lang (DStar :: ts) "" <-> glob_lang ts "".
Proof.
  split.
  - inversion 1 as [| | |u ts' s Hs Hts Heq]; subst. destruct u; [|discriminate].
    rewrite str_app_nil_l in Heq. by subst.
  - intros H. by apply (gl_dstar "").
Qed.

Lemma glob_lang_dstar_cons ts c s :
  glob_lang (DStar :: ts) (String c s) <->
  glob_lang ts (String c s) \/ glob_lang (DStar :: ts) s.
Proof.
  split.
  - inversion 1 as [| | |u ts' s' Hs Hts Heq]; subst. destruct u as [|d u].
    + left. by rewrite str_app_nil_l in Heq; subst.
    + right. rewrite str_app_cons in Heq. injection Heq as -> <-. by constructor.
  - intros [H|H]; [by apply (gl_dstar "")|].
    inversion H as [| | |u ts' s' Hs Hts Heq]; subst.
    rewrite <- str_app_cons. by constructor.
Qed.

(** [row_ok ts name row]: entry [j] of [row] decides whether [ts] matches the
    suffix of [name] at [j]. *)
Inductive row_ok (ts : list globTok) : string -> list bool -> Prop :=
| row_ok_nil b : (b = true <-> glob_lang ts "") -> row_ok ts "" [b]
| row_ok_cons c s b row :
    (b = true <-> glob_lang ts (String c s)) -> row_ok ts s row ->
    row_ok ts (String c s) (b :: row).

Lemma row_ok_hd ts s row : row_ok ts s row -> (hd_bool row = true <-> glob_lang ts s).
Proof. by destruct 1. Qed.

Lemma last_row_ok name : row_ok [] name (glob_last_row name).
Proof.
  unfold glob_last_row. induction name as [|c s IH]; simpl; constructor; auto.
  - by rewrite glob_lang_nil_inv.
  - rewrite glob_lang_nil_inv. split; [discriminate|done].
Qed.

Lemma glob_row_ok t ts name cur :
  row_ok ts name cur -> row_ok (t :: ts) name (glob_row t name cur).
Proof.
  induction 1 as [b Hb | c s b row Hb Hrow IH]; cbn [glob_row]; constructor; auto.
  - destruct t as [l| |]; rewrite ?Hb.
    + rewrite glob_lang_lit_inv. split; [discriminate|]. intros (? & ? & _); discriminate.
    + symmetry. apply glob_lang_star_nil.
    + symmetry. apply glob_lang_dstar_nil.
  - pose proof (row_ok_hd _ _ _ Hrow) as Hhd. pose proof (row_ok_hd _ _ _ IH) as Hnext.
    destruct t as [l| |].
    + rewrite andb_true_iff, Ascii.eqb_eq, Hhd, glob_lang_lit_inv. split.
      * intros [-> H]. eauto.
      * intros (s' & [= -> ->] & H). auto.
    + rewrite orb_true_iff, andb_true_iff, negb_true_iff, Ascii.eqb_neq, Hb, Hnext.
      symmetry. apply glob_lang_star_cons.
    + rewrite orb_true_iff, Hb, Hnext. symmetry. apply glob_lang_dstar_cons.
Qed.

Lemma glob_table_ok ts name :
  row_ok ts name (fold_right (fun t cur => glob_row t name cur) (glob_last_row name) ts).
Proof. induction ts as [|t ts IH]; simpl; [apply last_row_ok | by apply glob_row_ok]. Qed.

(** C14. The table-driven matcher accepts a name exactly when the name and
    pattern are within the size limits and the name belongs to the language of
    the compiled glob. *)
Theorem GitHubGlobMatch_correct (pattern name : string) :
  GitHubGlobMatch pattern name = true <->
  slen name <= MaxGitHubMatchNameBytes /\
  slen pattern <= MaxGitHubPatternLength * 2 /\
  glob_lang (compileGitHubGlob pattern) name.
Proof.
  unfold GitHubGlobMatch.
  pose proof (row_ok_hd _ _ _ (glob_table_ok (compileGitHubGlob pattern) name)) as Hrow.
  destruct (MaxGitHubMatchNameBytes <? slen name) eqn:E1; cbn [orb].
  { bool_to_prop. split; [discriminate|lia]. }
  destruct (MaxGitHubPatternLength * 2 <? slen pattern) eqn:E2; bool_to_prop.
  { split; [discriminate|lia]. }
  rewrite Hrow. tauto.
Qed.

(** ** Rule selection *)

(** [moreSpecific] compares five numbers lexicographically. *)
Lemma moreSpecific_lex (a b : GitHubBranchRule) :
  moreSpecific a b = true <->
  let '(ap, ast) := globSpecificity (br_Branches a) in
  let '(bp, bs) := globSpecificity (br_Branches b) in
  let al := slen (br_Branches a) in let bl := slen (br_Branches b) in
  let ar := githubRoleRank (br_Role a) in let br := githubRoleRank (br_Role b) in
  bp < ap \/ ap = bp /\ (ast < bs \/ ast = bs /\ (bl < al \/ al = bl /\
  (ar < br \/ ar = br /\ Nat.b2n (br_RunWorkflows a) < Nat.b2n (br_RunWorkflows b)))).
Proof.
  unfold moreSpecific.
  destruct (globSpecificity (br_Branches a)) as [ap ast], (globSpecificity (br_Branches b)) as [bp bs].
  repeat (case_goal; bool_to_prop); rewrite ?Nat.ltb_lt; try lia.
  destruct (br_RunWorkflows a), (br_RunWorkflows b); simpl; split; (lia || discriminate || done).
Qed.

(** Two rules neither of which beats the other. *)
Definition tied (a b : GitHubBranchRule) : Prop :=
  moreSpecific a b = false /\ moreSpecific b a = false.

Lemma moreSpecific_irrefl a : moreSpecific a a = false.
Proof.
  apply not_true_is_false. rewrite moreSpecific_lex.
  destruct (globSpecificity (br_Branches a)). cbv beta iota zeta. lia.
Qed.

Lemma moreSpecific_trans a b c :
  moreSpecific a b = true -> moreSpecific b c = true -> moreSpecific a c = true.
Proof.
  rewrite !moreSpecific_lex.
  destruct (globSpecificity (br_Branches a)), (globSpecificity (br_Branches b)),
    (globSpecificity (br_Branches c)). cbv beta iota zeta. lia.
Qed.

Lemma moreSpecific_neg_trans a b c :
  moreSpecific a b = false -> moreSpecific b c = false -> moreSpecific a c = false.
Proof.
  rewrite <- !not_true_iff_false, !moreSpecific_lex.
  destruct (globSpecificity (br_Branches a)), (globSpecificity (br_Branches b)),
    (globSpecificity (br_Branches c)). cbv beta iota zeta. lia.
Qed.

Lemma valid_role_cases (role : string) :
  valid_role role = true <->
  role = GitHubRoleRead \/ role = GitHubRoleProtected \/ role = GitHubRoleAgent.
Proof. unfold valid_role. rewrite !orb_true_iff, !String.eqb_eq. tauto. Qed.

Lemma tied_same_effect a b :
  valid_role (br_Role a) = true -> valid_role (br_Role b) = true -> tied a b ->
  br_Role a = br_Role b /\ br_RunWorkflows a = br_RunWorkflows b.
Proof.
  unfold tied. rewrite <- !not_true_iff_false, !moreSpecific_lex.
  destruct (globSpecificity (br_Branches a)), (globSpecificity (br_Branches b)).
  cbv beta iota zeta. intros Ha Hb [H1 H2].
  assert (githubRoleRank (br_Role a) = githubRoleRank (br_Role b) /\
          Nat.b2n (br_RunWorkflows a) = Nat.b2n (br_RunWorkflows b)) as [Hr Hw] by lia.
  split; [|by destruct (br_RunWorkflows a), (br_RunWorkflows b)].
  rewrite valid_role_cases in *.
  destruct Ha as [Ha|[Ha|Ha]], Hb as [Hb|[Hb|Hb]]; rewrite Ha, Hb in *;
    first [done | discriminate Hr].
Qed.

(** [r] is one of [rs] and none of [rs] beats it. *)
Definition best_of (rs : list GitHubBranchRule) (r : GitHubBranchRule) : Prop :=
  In r rs /\ forall r', In r' rs -> moreSpecific r' r = false.

Lemma prefer_fold (rs : list GitHubBranchRule) (b : GitHubBranchRule) :
  exists r, fold_left prefer rs (Some b) = Some r /\ best_of (b :: rs) r.
Proof.
  revert b. induction rs as [|x rs IH]; intros b; simpl.
  - exists b. split; [done|]. split; [by left|].
    intros r' [<-|[]]. apply moreSpecific_irrefl.
  - assert (prefer (Some b) x = Some (if moreSpecific x b then x else b)) as Hp
      by (simpl; by destruct (moreSpecific x b)).
    simpl in Hp. rewrite Hp.
    destruct (IH (if moreSpecific x b then x else b)) as (r & Hr & Hin & Hbest).
    exists r. split; [done|]. destruct (moreSpecific x b) eqn:E.
    + split; [destruct Hin; simpl; auto|]. intros r' [<-|[<-|Hr']]; [|by apply Hbest; left|by apply Hbest; right].
      apply moreSpecific_neg_trans with x; [|by apply Hbest; left].
      apply not_true_iff_false. intros Hbx.
      pose proof (moreSpecific_trans _ _ _ E Hbx) as Hxx. by rewrite moreSpecific_irrefl in Hxx.
    + split; [destruct Hin; simpl; auto|]. intros r' [<-|[<-|Hr']]; [by apply Hbest; left| |by apply Hbest; right].
      apply moreSpecific_neg_trans with b; [done|by apply Hbest; left].
Qed.

Lemma prefer_best (rs : list GitHubBranchRule) :
  match fold_left prefer rs None with
  | Some r => best_of rs r
  | None => rs = []
  end.
Proof.
  destruct rs as [|x rs]; [done|]. cbn [fold_left prefer].
  destruct (prefer_fold rs x) as (r & -> & H). exact H.
Qed.

Lemma prefer_perm (rs rs' : list GitHubBranchRule) :
  rs ≡ₚ rs' -> Forall (fun r => valid_role (br_Role r) = true) rs ->
  match fold_left prefer rs None, fold_left prefer rs' None with
  | Some r, Some r' => br_Role r = br_Role r' /\ br_RunWorkflows r = br_RunWorkflows r'
  | None, None => True
  | _, _ => False
  end.
Proof.
  intros Hp Hv. pose proof (prefer_best rs) as H1. pose proof (prefer_best rs') as H2.
  destruct (fold_left prefer rs None) as [r|], (fold_left prefer rs' None) as [r'|]; [| | |done].
  - destruct H1 as [Hin1 H1], H2 as [Hin2 H2]. rewrite List.Forall_forall in Hv.
    apply tied_same_effect; [by apply Hv|apply Hv|].
    + by apply (Permutation_in _ (Permutation_sym Hp)).
    + split; [apply H2, (Permutation_in _ Hp); done|].
      apply H1, (Permutation_in _ (Permutation_sym Hp)); done.
  - subst. symmetry in Hp. apply Permutation_nil_l in Hp. subst. by destruct H1.
  - subst. apply Permutation_nil_l in Hp. subst. by destruct H2.
Qed.

Lemma filter_perm {A} (f : A -> bool) (l l' : list A) :
  l ≡ₚ l' -> List.filter f l ≡ₚ List.filter f l'.
Proof.
  induction 1 as [|x l l' _ IH|x y l|]; simpl.
  - done.
  - destruct (f x); [by constructor|done].
  - destruct (f x), (f y); try done. constructor.
  - by etransitivity.
Qed.

Lemma Forall_list_filter {A} (P : A -> Prop) (f : A -> bool) (l : list A) :
  Forall P l -> Forall P (List.filter f l).
Proof. induction 1; simpl; [done|]. destruct (f x); [by constructor|done]. Qed.

Section SelectTheorems.
Context `{UC : UnicodeCase}.

(** What a caller learns from the selection. *)
Definition decision (sel : option GitHubBranchRule) : string * bool :=
  (selected_role sel, br_RunWorkflows (selected_rule sel)).



(** The order in which a policy lists its rules never changes the role of a
    branch or whether workflows may run on it: ties between equally specific
    rules are broken towards the less privileged one. *)
Theorem SelectRule_order_independent (p q : GitHubBranchPolicy) (branch def : string) :
  bp_Rules p ≡ₚ bp_Rules q ->
  Forall (fun r => valid_role (br_Role r) = true) (bp_Rules p) ->
  decision (SelectRule p branch def) = decision (SelectRule q branch def).
Proof.
  intros Hp Hv. unfold SelectRule.
  assert (Hd := prefer_perm _ _ (filter_perm (fun r => stripBranchPrefix (br_Branches r) ==s
    GitHubDefaultBranchToken) _ _ Hp) (Forall_list_filter _ _ _ Hv)).
  assert (Hg : glob_candidates (stripBranchPrefix branch) (bp_Rules p)
             ≡ₚ glob_candidates (stripBranchPrefix branch) (bp_Rules q)).
  { apply Permutation_map, filter_perm, Hp. }
  apply prefer_perm in Hg; [|apply Forall_map, Forall_list_filter, Hv].
  fold (default_candidates (bp_Rules p)) (default_candidates (bp_Rules q)) in Hd.
  unfold decision.
  destruct (_ && _), (fold_left prefer (default_candidates (bp_Rules p)) None),
    (fold_left prefer (default_candidates (bp_Rules q)) None),
    (fold_left prefer (glob_candidates _ (bp_Rules p)) None),
    (fold_left prefer (glob_candidates _ (bp_Rules q)) None);
    simpl in *; try done; destruct_and?; congruence.
Qed.


End SelectTheorems.

(** ** Validation *)

(** The rewriting validation applies to an accepted policy. *)
Definition normalize_rule (r : GitHubBranchRule) : GitHubBranchRule :=
  set_Branches (stripBranchPrefix (br_Branches r)) r.
Definition normalize_policy (p : GitHubBranchPolicy) : GitHubBranchPolicy :=
  mkPolicy (map normalize_rule (bp_Rules p))
    (map (fun t => TrimPrefix t "refs/tags/") (bp_TagsCreate p)).

(** A stored pattern. *)
Definition pattern_wf (allowDefault : bool) (p : string) : Prop :=
  p <> "" /\ slen p <= MaxGitHubPatternLength /\
  (p = GitHubDefaultBranchToken /\ allowDefault = true \/
   p <> GitHubDefaultBranchToken /\ GitHubRefNameProblem p true = "").

Definition rule_wf (dispatch : bool) (r : GitHubBranchRule) : Prop :=
  pattern_wf true (br_Branches r) /\ valid_role (br_Role r) = true /\
  (br_RunWorkflows r = true -> dispatch = true).

(** What a validated policy guarantees. *)
Record policy_wf (dispatch : bool) (p : GitHubBranchPolicy) : Prop := {
  wf_count : length (bp_Rules p) <= MaxGitHubBranchRules;
  wf_rules : Forall (rule_wf dispatch) (bp_Rules p);
  wf_distinct : NoDup (map br_Branches (bp_Rules p));
  wf_tag_count : length (bp_TagsCreate p) <= MaxGitHubTagPatterns;
  wf_tags : Forall (pattern_wf false) (bp_TagsCreate p);
  wf_tags_distinct : NoDup (bp_TagsCreate p);
}.

Lemma normalizeGitHubPattern_Ok raw prefix ad pat :
  normalizeGitHubPattern raw prefix ad = Ok pat <-> pat = TrimPrefix raw prefix /\ pattern_wf ad pat.
Proof.
  unfold normalizeGitHubPattern, pattern_wf. remember (TrimPrefix raw prefix) as p. clear Heqp.
  destruct (p ==s "") eqn:E1; bool_to_prop.
  { split; [discriminate|]. intros (-> & ? & _). done. }
  destruct (MaxGitHubPatternLength <? slen p) eqn:E2; bool_to_prop.
  { split; [discriminate|]. intros (-> & _ & ? & _). lia. }
  destruct (p ==s GitHubDefaultBranchToken) eqn:E3; bool_to_prop.
  { destruct ad; (split; [intros [=]|]); subst; intuition congruence. }
  destruct (GitHubRefNameProblem p true ==s "") eqn:E4; cbn [negb]; bool_to_prop;
    (split; [intros [=]|]); subst; intuition congruence.
Qed.

Lemma normalizeGitHubPattern_Err raw prefix ad e :
  normalizeGitHubPattern raw prefix ad = Err e -> ~ pattern_wf ad (TrimPrefix raw prefix).
Proof.
  intros H Hwf.
  assert (normalizeGitHubPattern raw prefix ad = Ok (TrimPrefix raw prefix)) as H'
    by by apply normalizeGitHubPattern_Ok.
  congruence.
Qed.

Lemma in_seen_spec x seen : in_seen x seen = true <-> In x seen.
Proof.
  unfold in_seen. rewrite existsb_exists. split.
  - intros (y & Hy & ->%String.eqb_eq). done.
  - intros H. exists x. by rewrite String.eqb_refl.
Qed.

Lemma in_seen_false x seen : in_seen x seen = false <-> ~ In x seen.
Proof. by rewrite <- in_seen_spec, not_true_iff_false. Qed.

(** Distinct, and none seen before. *)
Definition fresh (seen xs : list string) : Prop :=
  List.NoDup xs /\ forall x, In x xs -> ~ In x seen.

Lemma fresh_cons seen x xs : fresh seen (x :: xs) <-> ~ In x seen /\ fresh (x :: seen) xs.
Proof.
  unfold fresh. split.
  - intros [Hn Hs]. inversion Hn; subst. split; [apply Hs; by left|].
    split; [done|]. intros y Hy [<-|Hy']; [done|]. eapply Hs; [by right|done].
  - intros [Hx [Hn Hs]]. split.
    + constructor; [|done]. intros Hin. eapply Hs; [done|by left].
    + intros y [<-|Hy]; [done|]. intros Hy'. eapply Hs; [done|by right].
Qed.

Lemma validate_rules_spec dispatch runCap seen rs :
  match validate_rules dispatch runCap seen rs with
  | (out, None) => out = map normalize_rule rs /\ Forall (rule_wf dispatch) out /\
                   fresh seen (map br_Branches out)
  | (_, Some _) => ~ (Forall (rule_wf dispatch) (map normalize_rule rs) /\
                      fresh seen (map br_Branches (map normalize_rule rs)))
  end.
Proof.
  revert seen. induction rs as [|r rs IH]; intros seen; cbn [validate_rules].
  { repeat split; try constructor. intros ? []. }
  assert (forall d, Forall (rule_wf d) (map normalize_rule (r :: rs)) /\
            fresh seen (map br_Branches (map normalize_rule (r :: rs))) <->
          (rule_wf d (normalize_rule r) /\ Forall (rule_wf d) (map normalize_rule rs)) /\
          ~ In (stripBranchPrefix (br_Branches r)) seen /\
          fresh (stripBranchPrefix (br_Branches r) :: seen)
            (map br_Branches (map normalize_rule rs))) as Hc
    by (intros d; cbn [map]; by rewrite Forall_cons, fresh_cons).
  destruct (normalizeGitHubPattern _ _ _) as [pat|e] eqn:E; [|
    apply normalizeGitHubPattern_Err in E; rewrite Hc; intros [[[Hwf _] _] _]; done].
  apply normalizeGitHubPattern_Ok in E as [-> Hwf].
  destruct (valid_role (br_Role r)) eqn:Er; cbn [negb];
    [|rewrite Hc; intros [[(_ & Hr & _) _] _]; simpl in Hr; congruence].
  destruct (in_seen _ seen) eqn:Es; [apply in_seen_spec in Es; rewrite Hc; tauto|].
  apply in_seen_false in Es.
  destruct (br_RunWorkflows r && negb dispatch) eqn:Ew; bool_to_prop.
  { rewrite Hc. intros [[(_ & _ & Hw) _] _]. simpl in Hw. specialize (Hw ltac:(done)). congruence. }
  specialize (IH (TrimPrefix (br_Branches r) "refs/heads/" :: seen)).
  destruct (validate_rules _ _ _ rs) as [rest [e|]]; [rewrite Hc; tauto|].
  destruct IH as (-> & Hf & Hfr). split; [done|].
  change (set_Branches _ r :: _) with (map normalize_rule (r :: rs)). rewrite Hc.
  repeat split; try done; try apply Hwf; try apply Hfr.
  simpl. intros Hw. rewrite Hw in Ew. destruct Ew; [done|by bool_to_prop].
Qed.

Lemma validate_tags_spec seen ts :
  match validate_tags seen ts with
  | (out, None) => out = map (fun t => TrimPrefix t "refs/tags/") ts /\
                   Forall (pattern_wf false) out /\ fresh seen out
  | (_, Some _) => ~ (Forall (pattern_wf false) (map (fun t => TrimPrefix t "refs/tags/") ts) /\
                      fresh seen (map (fun t => TrimPrefix t "refs/tags/") ts))
  end.
Proof.
  revert seen. induction ts as [|t ts IH]; intros seen; cbn [validate_tags].
  { repeat split; try constructor. intros ? []. }
  assert (Forall (pattern_wf false) (map (fun t => TrimPrefix t "refs/tags/") (t :: ts)) /\
            fresh seen (map (fun t => TrimPrefix t "refs/tags/") (t :: ts)) <->
          (pattern_wf false (TrimPrefix t "refs/tags/") /\
           Forall (pattern_wf false) (map (fun t => TrimPrefix t "refs/tags/") ts)) /\
          ~ In (TrimPrefix t "refs/tags/") seen /\
          fresh (TrimPrefix t "refs/tags/" :: seen) (map (fun t => TrimPrefix t "refs/tags/") ts))
    as Hc by (cbn [map]; by rewrite Forall_cons, fresh_cons).
  destruct (normalizeGitHubPattern _ _ _) as [pat|e] eqn:E; [|
    apply normalizeGitHubPattern_Err in E; rewrite Hc; tauto].
  apply normalizeGitHubPattern_Ok in E as [-> Hwf].
  destruct (in_seen _ seen) eqn:Es; [apply in_seen_spec in Es; rewrite Hc; tauto|].
  apply in_seen_false in Es.
  specialize (IH (TrimPrefix t "refs/tags/" :: seen)).
  destruct (validate_tags _ ts) as [rest [e|]]; [rewrite Hc; tauto|].
  destruct IH as (-> & Hf & Hfr). split; [done|]. apply Hc. tauto.
Qed.

Lemma fresh_nil xs : fresh [] xs <-> NoDup xs.
Proof. unfold fresh. rewrite NoDup_ListNoDup. split; [tauto|]. intros H. split; [done|]. tauto. Qed.

(** Validation accepts a policy exactly when its normalised form (patterns
    without their refs/ prefix) is well formed -- bounded, with known roles,
    distinct legal patterns, and run_workflows only where dispatch is granted --
    and then returns that normalised form. *)
Theorem cloneAndValidate_iff (p bp : GitHubBranchPolicy) (dispatch : bool) (runCap : string) :
  cloneAndValidate p dispatch runCap = Ok bp <->
  bp = normalize_policy p /\ policy_wf dispatch (normalize_policy p).
Proof.
  unfold cloneAndValidate, validateGitHubBranchPolicy.
  destruct (MaxGitHubBranchRules <? length (bp_Rules p)) eqn:E1; bool_to_prop.
  { split; [discriminate|]. intros [_ [Hc _ _ _ _ _]]. simpl in Hc. rewrite length_map in Hc. lia. }
  pose proof (validate_rules_spec dispatch runCap [] (bp_Rules p)) as Hr.
  destruct (validate_rules _ _ _ _) as [rules [e|]].
  { split; [discriminate|]. intros [_ [_ Hf Hd _ _ _]]. destruct Hr. by rewrite fresh_nil. }
  destruct Hr as (-> & Hf & Hd). rewrite fresh_nil in Hd.
  destruct (MaxGitHubTagPatterns <? length (bp_TagsCreate p)) eqn:E2; bool_to_prop.
  { split; [discriminate|]. intros [_ [_ _ _ Hc _ _]]. simpl in Hc. rewrite length_map in Hc. lia. }
  pose proof (validate_tags_spec [] (bp_TagsCreate p)) as Ht.
  destruct (validate_tags _ _) as [tags [e|]].
  { split; [discriminate|]. intros [_ [_ _ _ _ Hg Hn]]. destruct Ht. by rewrite fresh_nil. }
  destruct Ht as (-> & Hg & Hn). rewrite fresh_nil in Hn.
  split; [intros [= <-]|by intros [-> _]]. split; [done|].
  by constructor; simpl; rewrite ?length_map.
Qed.

(** Validation is not idempotent: it strips one "refs/heads/", so a policy it
    accepts can be rejected as a duplicate when the stored result is validated
    again, as the proxy does for every request. *)
Theorem cloneAndValidate_not_idempotent :
  exists p bp, cloneAndValidate p false "" = Ok bp /\
               cloneAndValidate bp false "" = Err (DuplicateRule "x").
Proof.
  exists (mkPolicy [mkRule "x" "agent" false; mkRule "refs/heads/refs/heads/x" "read" false] []).
  exists (mkPolicy [mkRule "x" "agent" false; mkRule "refs/heads/x" "read" false] []).
  split; vm_compute; reflexivity.
Qed.

(** Policies whose stored patterns carry no prefix are stable. *)
Lemma normalize_policy_stable (p : GitHubBranchPolicy) :
  Forall (fun r => HasPrefix (br_Branches r) "refs/heads/" = false) (bp_Rules p) ->
  Forall (fun t => HasPrefix t "refs/tags/" = false) (bp_TagsCreate p) ->
  normalize_policy p = p.
Proof.
  destruct p as [rs ts]. unfold normalize_policy. simpl. intros Hr Ht. f_equal.
  - induction Hr as [|[b ro w] rs Hb _ IH]; simpl; [done|]. rewrite IH.
    unfold normalize_rule, set_Branches, stripBranchPrefix. simpl in *.
    by rewrite TrimPrefix_none.
  - induction Ht as [|t ts Hb _ IH]; simpl; [done|]. by rewrite IH, TrimPrefix_none.
Qed.

(** ** Concrete instances *)

Definition rules_ab : GitHubBranchPolicy :=
  mkPolicy [mkRule "release/*" "protected" false; mkRule "agent/**" "agent" true] [].
Definition rules_ba : GitHubBranchPolicy :=
  mkPolicy [mkRule "agent/**" "agent" true; mkRule "release/*" "protected" false] [].

Section BranchWitnesses.
#[local] Existing Instance latin_case.

Lemma SelectRule_order_independent_witness :
  decision (SelectRule rules_ab "agent/x/y" "main") = decision (SelectRule rules_ba "agent/x/y" "main").
Proof.
  apply SelectRule_order_independent.
  - apply perm_swap.
  - repeat constructor.
Defined.
End BranchWitnesses.
