(* ===== verification/Permission.v ===== *)
(** * The permission engine: [internal/server/services/permission.go] and the
      configuration readers of [github_branch_rules.go]

    A permission config is a list of rules over method and path, with body
    constraints and rate limits.  [encoding/json]'s reflection-driven decoding
    of the config text into Go structs is the interface [ConfigJSON]; request
    bodies are parsed by [GoJSON].  A Go map is an association list in the order
    in which a [range] visits it, so every theorem holds for every order.
    Denial reasons and errors are constructors carrying the arguments of the
    Go message; [NoReason] is the empty string. *)

From S2P Require Import Prelude GoStrings GoLib GoJSON BranchRules.
From Stdlib Require Import SpecFloat.
Local Open Scope go_scope.

(** ** Data *)

Record FieldConstraint := mkField {
  fc_OneOf : list string;
  fc_Matches : list string;
  fc_Max : option spec_float;
  fc_Min : option spec_float;
  fc_Forbidden : bool;
  fc_Required : bool;
}.

Record EndpointConstraints := mkConstraints {
  ec_Body : option (list (string * FieldConstraint));      (* [None]: nil map *)
  ec_Headers : option (list (string * FieldConstraint));
}.

Record EndpointRule := mkEndpoint {
  ep_Method : string;
  ep_Path : string;
  ep_Allow : bool;
  ep_Approve : bool;
  ep_Constraints : option EndpointConstraints;
}.

Record RateLimitConfig := mkRateLimit {
  rl_RequestsPerMinute : Z;
  rl_RequestsPerHour : Z;
  rl_RequestsPerDay : Z;
}.

(** owner/repo to capability key to level. *)
Abbreviation GitHubCapabilityRows := (list (string * list (string * string))).

Record PermissionRule := mkPermRule {
  pr_Name : string;
  pr_Endpoints : list EndpointRule;
  pr_RateLimit : option RateLimitConfig;
  pr_DenyAllOther : bool;
  pr_GitHubCapabilityRows : GitHubCapabilityRows;
  pr_GitHubBranchPolicies : list (string * GitHubRepoBranchPolicy);
}.

Record PermissionConfig := mkConfig {
  pc_Version : string;
  pc_Provider : string;
  pc_Rules : list PermissionRule;
}.

Record GitHubCapabilities := mkCaps {
  cap_Clone : bool; cap_Push : bool;
  cap_IssuesRead : bool; cap_IssuesWrite : bool;
  cap_PullRequestsRead : bool; cap_PullRequestsWrite : bool;
  cap_PullRequestsMerge : bool; cap_PullRequestsApprove : bool;
  cap_ReleasesRead : bool; cap_ReleasesWrite : bool;
  cap_ActionsRead : bool;
  cap_WorkflowDispatch : bool; cap_WorkflowRerun : bool; cap_WorkflowCancel : bool;
}.

Record GitHubRepositoryPolicy := mkRepository {
  rp_Capabilities : GitHubCapabilities;
  rp_WorkflowAllowlist : list string;
  rp_RefAllowlist : list string;
  rp_EnvironmentAllowlist : list string;
  rp_BranchPolicy : option GitHubBranchPolicy;
}.

Record GitHubCapabilityPermissionConfig := mkCapConfig {
  cc_Version : string;
  cc_Provider : string;
  cc_Repositories : list (string * GitHubRepositoryPolicy);
}.

Inductive perm_error :=
| BadJSON
| BadCapabilityJSON
| UnsupportedVersion (v : string)
| CapabilityVersion
| NoRepositories
| InvalidRepository (repo : string)
| DuplicateRepository (repo : string)
| InRepository (repo : string) (e : perm_error)
| WriteRequiresRead
| WorkflowRequiresActionsRead
| MergeRequiresWrite
| RefAllowlistAndPolicy
| PolicyError (e : policy_error)
| DispatchRequiresRule
| DispatchRequiresRefs
| InvalidWorkflow (w : string)
| NoCapability
| NoRules
| RuleWithoutEndpoints (i : nat)
| EndpointMissingMethod (i j : nat)
| EndpointMissingPath (i j : nat)
| EndpointAllowAndApprove (i j : nat)
| PoliciesNeedGitHub (i : nat)
| MergeRequiresPRWrite (repo : string)
| ScopeEmpty
| ScopeProvider
| ScopeNoRules
| ScopeLastRule
| ScopeEndpoint (i j : nat)
| BranchRulesUnsupportedHere.

(** ** Interfaces *)

(** [json.Unmarshal] / [Decoder.Decode] of a config into Go structs: the version
    header, a version 1 config, a version 2 config (unknown fields rejected).
    The laws: text with nothing but white space is not JSON, and the version of a
    decoded version 1 config is the one the header decodes to (both come from the
    same field of the text). *)
Class ConfigJSON := {
  decode_header : string -> option string;
  decode_v1 : string -> option PermissionConfig;
  decode_v2 : string -> option GitHubCapabilityPermissionConfig;
  decode_blank : forall s, TrimSpace s = "" -> decode_header s = None;
  decode_version : forall s c, decode_v1 s = Some c -> decode_header s = Some (pc_Version c);
}.

(** ** Regular expressions of the file *)

Definition repo_char (c : ascii) : bool :=
  let b := byteN c in
  in_range 65 90 b || in_range 97 122 b || in_range 48 57 b ||
  (c ==c "_") || (c ==c ".") || (c ==c "-").

Definition name_plus (s : string) : bool := (s !=s "") && str_forall repo_char s.

(** [githubRepoPathPattern]: one or more name characters, a slash, and again. *)
Definition githubRepoPathPattern (s : string) : bool :=
  match Split s "/" with
  | [o; r] => name_plus o && name_plus r
  | _ => false
  end.

Definition githubWorkflowPattern (s : string) : bool := name_plus s.

(** Branch policies by lower-case owner/repo, and the cache of parse results. *)
Abbreviation repo_policies := (list (string * GitHubRepoBranchPolicy)).
Abbreviation policy_cache := (gmap string (result perm_error repo_policies)).

(** [rateLimitState]: count and start of the window (nanoseconds). *)
Record rateLimitState := mkWindow { rs_count : Z; rs_windowAt : Z }.

(** [PermissionChecker]: the [sync.Map] of windows. *)
Abbreviation rateLimits := (gmap string rateLimitState).

Section Permission.
Context `{UC : UnicodeCase} `{CJ : ConfigJSON}.

(** ** Compiling version 2 grants *)

Definition allow_ep (method path : string) (c : option EndpointConstraints) : EndpointRule :=
  mkEndpoint method path true false c.

Definition rest_endpoints (repo : string) (read write : bool) (resource : string) : list EndpointRule :=
  (if read then
     [allow_ep "GET" ("/repos/" +:+ repo +:+ "/" +:+ resource) None;
      allow_ep "GET" ("/repos/" +:+ repo +:+ "/" +:+ resource +:+ "/*") None] else []) ++
  (if write then
     [allow_ep "POST" ("/repos/" +:+ repo +:+ "/" +:+ resource) None;
      allow_ep "POST" ("/repos/" +:+ repo +:+ "/" +:+ resource +:+ "/*") None;
      allow_ep "PATCH" ("/repos/" +:+ repo +:+ "/" +:+ resource +:+ "/*") None;
      allow_ep "DELETE" ("/repos/" +:+ repo +:+ "/" +:+ resource +:+ "/*") None] else []).

(** The constraint a workflow_dispatch endpoint carries. *)
Definition dispatch_constraints (p : GitHubRepositoryPolicy) : EndpointConstraints :=
  let ref := match rp_BranchPolicy p with
             | Some _ => mkField [] [] None None false true
             | None => mkField [] (rp_RefAllowlist p) None None false true
             end in
  let env := match rp_EnvironmentAllowlist p with
             | [] => []
             | l => [("inputs.environment", mkField l [] None None false false)]
             end in
  mkConstraints (Some (("ref", ref) :: env)) None.

Fixpoint dispatch_endpoints (repo : string) (c : EndpointConstraints) (ws : list string)
  : result perm_error (list EndpointRule) :=
  match ws with
  | [] => Ok []
  | w :: ws' =>
      if negb (githubWorkflowPattern w) then Err (InvalidWorkflow w)
      else
        rest <-! dispatch_endpoints repo c ws';
        Ok (allow_ep "POST" ("/repos/" +:+ repo +:+ "/actions/workflows/" +:+ w +:+ "/dispatches")
              (Some c) :: rest)
  end.

(** The checks [appendGitHubCapabilityEndpoints] makes before compiling. *)
Definition capability_checks (p : GitHubRepositoryPolicy) : option perm_error :=
  let c := rp_Capabilities p in
  let no_list {A} (l : list A) := match l with [] => true | _ => false end in
  if cap_Push c && negb (cap_Clone c) || cap_IssuesWrite c && negb (cap_IssuesRead c)
     || cap_PullRequestsWrite c && negb (cap_PullRequestsRead c)
     || cap_ReleasesWrite c && negb (cap_ReleasesRead c)
  then Some WriteRequiresRead
  else if (cap_WorkflowDispatch c || cap_WorkflowRerun c || cap_WorkflowCancel c)
          && negb (cap_ActionsRead c)
  then Some WorkflowRequiresActionsRead
  else if (cap_PullRequestsMerge c || cap_PullRequestsApprove c) && negb (cap_PullRequestsWrite c)
  then Some MergeRequiresWrite
  else match rp_BranchPolicy p with
  | Some bp0 =>
      if negb (no_list (rp_RefAllowlist p)) then Some RefAllowlistAndPolicy
      else match cloneAndValidate bp0 (cap_WorkflowDispatch c) "the workflow_dispatch capability" with
      | Err e => Some (PolicyError e)
      | Ok bp =>
          if cap_WorkflowDispatch c
             && (no_list (rp_WorkflowAllowlist p) || negb (HasRunWorkflowsRule bp))
          then Some DispatchRequiresRule else None
      end
  | None =>
      if cap_WorkflowDispatch c && (no_list (rp_WorkflowAllowlist p) || no_list (rp_RefAllowlist p))
      then Some DispatchRequiresRefs else None
  end.

Definition appendGitHubCapabilityEndpoints (dst : list EndpointRule) (repo : string)
    (p : GitHubRepositoryPolicy) : result perm_error (list EndpointRule) :=
  match capability_checks p with
  | Some e => Err e
  | None =>
      let c := rp_Capabilities p in
      let when (b : bool) (l : list EndpointRule) := if b then l else [] in
      let has_policy := match rp_BranchPolicy p with Some _ => true | None => false end in
      disp <-! (if cap_WorkflowDispatch c
                then dispatch_endpoints repo (dispatch_constraints p) (rp_WorkflowAllowlist p)
                else Ok []);
      let added :=
        when (cap_Clone c)
          [allow_ep "GET" ("/" +:+ repo +:+ ".git/info/refs") None;
           allow_ep "POST" ("/" +:+ repo +:+ ".git/git-upload-pack") None;
           allow_ep "GET" ("/repos/" +:+ repo) None] ++
        when (cap_Push c) [allow_ep "POST" ("/" +:+ repo +:+ ".git/git-receive-pack") None] ++
        rest_endpoints repo (cap_IssuesRead c) (cap_IssuesWrite c) "issues" ++
        rest_endpoints repo (cap_PullRequestsRead c) (cap_PullRequestsWrite c) "pulls" ++
        when (has_policy && cap_PullRequestsMerge c)
          [allow_ep "PUT" ("/repos/" +:+ repo +:+ "/pulls/*/merge") None;
           allow_ep "PUT" ("/repos/" +:+ repo +:+ "/pulls/*/update-branch") None] ++
        rest_endpoints repo (cap_ReleasesRead c) (cap_ReleasesWrite c) "releases" ++
        when (cap_ActionsRead c)
          [allow_ep "GET" ("/repos/" +:+ repo +:+ "/actions") None;
           allow_ep "GET" ("/repos/" +:+ repo +:+ "/actions/*") None] ++
        disp ++
        when (cap_WorkflowRerun c)
          [allow_ep "POST" ("/repos/" +:+ repo +:+ "/actions/runs/*/rerun") None] ++
        when (cap_WorkflowCancel c)
          [allow_ep "POST" ("/repos/" +:+ repo +:+ "/actions/runs/*/cancel") None] in
      match added with
      | [] => Err NoCapability
      | _ => Ok (dst ++ added)
      end
  end.

(** The loop over the repositories of a version 2 config. *)
Fixpoint compile_repositories (seen : list string) (endpoints : list EndpointRule)
    (repos : list (string * GitHubRepositoryPolicy)) : result perm_error (list EndpointRule) :=
  match repos with
  | [] => Ok endpoints
  | (repo, pol) :: rest =>
      if negb (githubRepoPathPattern repo) then Err (InvalidRepository repo)
      else
        let canonical := ToLower repo in
        if in_seen canonical seen then Err (DuplicateRepository repo)
        else match appendGitHubCapabilityEndpoints endpoints canonical pol with
             | Err e => Err (InRepository repo e)
             | Ok eps => compile_repositories (canonical :: seen) eps rest
             end
  end.

Definition parseGitHubCapabilityPermissionConfig (configJSON : string)
  : result perm_error PermissionConfig :=
  match decode_v2 configJSON with
  | None => Err BadCapabilityJSON
  | Some policy =>
      if (cc_Version policy !=s "2") || (cc_Provider policy !=s "github") then Err CapabilityVersion
      else match cc_Repositories policy with
      | [] => Err NoRepositories
      | repos =>
          endpoints <-! compile_repositories [] [] repos;
          Ok (mkConfig "2" "github"
                [mkPermRule "github capabilities" endpoints None true [] []])
      end
  end.

Definition ParsePermissionConfig (configJSON : string) : result perm_error PermissionConfig :=
  match decode_header configJSON with
  | None => Err BadJSON
  | Some version =>
      if version ==s "2" then parseGitHubCapabilityPermissionConfig configJSON
      else if version !=s "1" then Err (UnsupportedVersion version)
      else match decode_v1 configJSON with
      | None => Err BadJSON
      | Some config => Ok config
      end
  end.

(** ** Matching an endpoint *)

Fixpoint segs_match (pats segs : list string) : bool :=
  match pats, segs with
  | [], [] => true
  | p :: pats', s :: segs' => ((p ==s "*") || (p ==s s)) && segs_match pats' segs'
  | _, _ => false
  end.

(** [matchPath]. *)
Definition matchPath (pattern path : string) : bool :=
  if pattern ==s path then true
  else if negb (ContainsByte pattern "*") then false
  else
    let patternParts := Split (TrimByte pattern "/") "/" in
    let pathParts := Split (TrimByte path "/") "/" in
    let init := removelast patternParts in
    if bool_decide (patternParts = ["*"]) then true
    else if List.last patternParts "" ==s "*" then
      if (length pathParts <? length patternParts - 1)%nat then false
      else segs_match init (take (length init) pathParts)
    else segs_match patternParts pathParts.

(** [githubRepoPathParts]: repository, kind and suffix. *)
Definition githubRepoPathParts (raw : string) : option (string * string * string) :=
  let path := TrimSpace raw in
  let git suffix := TrimPrefix (TrimSuffix path suffix) "/" in
  if HasSuffix path ".git/info/refs" then Some (git ".git/info/refs", "git", "info/refs")
  else if HasSuffix path ".git/git-upload-pack"
  then Some (git ".git/git-upload-pack", "git", "git-upload-pack")
  else if HasSuffix path ".git/git-receive-pack"
  then Some (git ".git/git-receive-pack", "git", "git-receive-pack")
  else if HasPrefix path "/repos/" then
    match Split (TrimPrefix path "/repos/") "/" with
    | o :: r :: rest => Some (o +:+ "/" +:+ r, "rest", Join rest "/")
    | _ => None
    end
  else None.

Definition matchGitHubRepoPath (pattern path : string) : bool :=
  match githubRepoPathParts pattern, githubRepoPathParts path with
  | Some (pRepo, pKind, pSuffix), Some (repo, kind, suffix) =>
      if (pKind !=s kind) || negb (EqualFold pRepo repo) then false
      else (pSuffix ==s suffix) || ((pKind ==s "rest") && matchPath pSuffix suffix)
  | _, _ => false
  end.

Definition matchEndpoint (provider : string) (ep : EndpointRule) (method path : string) : bool :=
  if (ep_Method ep !=s "*") && negb (EqualFold (ep_Method ep) method) then false
  else if (provider ==s "github") && matchGitHubRepoPath (ep_Path ep) path then true
  else matchPath (ep_Path ep) path.

(** ** Results *)

Inductive reason :=
| NoReason
| InvalidConfig (e : perm_error)
| EndpointDenied (method path rule : string)
| EndpointNotAllowed (method path rule : string)
| EndpointNeedsApproval (method path rule : string)
| BodyNotJSON
| FieldIsForbidden (field : string)
| FieldIsRequired (field : string)
| FieldNotString (field : string)
| FieldNotInList (field val : string) (allowed : list string)
| FieldNoPattern (field val : string)
| FieldExceedsMax (field : string) (val max : spec_float)
| FieldBelowMin (field : string) (val min : spec_float)
| RateLimitExceeded (count : Z) (window : string) (limit : Z).

(** [Reason != ""]. *)
Definition has_reason (r : reason) : bool := match r with NoReason => false | _ => true end.

Record PermissionResult := mkResult {
  res_Allowed : bool;
  res_Reason : reason;
  res_NeedsApproval : bool;
  res_RuleName : string;
}.

Definition allowed_result : PermissionResult := mkResult true NoReason false "".
Definition denied_result (r : reason) : PermissionResult := mkResult false r false "".
Definition unmatched_result : PermissionResult := mkResult false NoReason false "".

(** ** Body constraints *)

(** [nestedField]. *)
Fixpoint nested_path (cur : jval) (parts : list string) : option jval :=
  match parts with
  | [] => Some cur
  | p :: ps =>
      match cur with
      | JObj m => match obj_get m p with Some v => nested_path v ps | None => None end
      | _ => None
      end
  end.
Definition nestedField (body : option (list (string * jval))) (field : string) : option jval :=
  nested_path (JObj (default [] body)) (Split field ".").

Definition toFloat64 (v : jval) : option spec_float :=
  match v with JNum f => Some f | _ => None end.

(** One iteration of the loop of [checkConstraints]. *)
Definition check_field (body : option (list (string * jval))) (field : string)
    (c : FieldConstraint) : reason :=
  let val := nestedField body field in
  if fc_Forbidden c then
    match val with Some _ => FieldIsForbidden field | None => NoReason end
  else match val with
  | None => if fc_Required c then FieldIsRequired field else NoReason
  | Some v =>
      let oneOf :=
        match fc_OneOf c, v with
        | [], _ => NoReason
        | allowed, JStr s => if in_seen s allowed then NoReason else FieldNotInList field s allowed
        | _, _ => FieldNotString field
        end in
      let matches :=
        match fc_Matches c, v with
        | [], _ => NoReason
        | pats, JStr s =>
            if existsb (fun p => PathMatch p s) pats then NoReason else FieldNoPattern field s
        | _, _ => FieldNotString field
        end in
      let maxr :=
        match fc_Max c, toFloat64 v with
        | Some mx, Some n => if SFltb mx n then FieldExceedsMax field n mx else NoReason
        | _, _ => NoReason
        end in
      let minr :=
        match fc_Min c, toFloat64 v with
        | Some mn, Some n => if SFltb n mn then FieldBelowMin field n mn else NoReason
        | _, _ => NoReason
        end in
      if has_reason oneOf then oneOf
      else if has_reason matches then matches
      else if has_reason maxr then maxr
      else minr
  end.

Fixpoint check_fields (body : option (list (string * jval)))
    (cs : list (string * FieldConstraint)) : reason :=
  match cs with
  | [] => NoReason
  | (f, c) :: cs' =>
      let r := check_field body f c in
      if has_reason r then r else check_fields body cs'
  end.

Definition checkConstraints (constraints : EndpointConstraints) (bodyBytes : string) : reason :=
  match ec_Body constraints with
  | None => NoReason
  | Some cs =>
      match UnmarshalMap bodyBytes with
      | None => BodyNotJSON
      | Some body => check_fields body cs
      end
  end.

(** ** Rate limits *)

Definition second : Z := 1000000000.
Definition minute_ns : Z := 60 * second.
Definition hour_ns : Z := 3600 * second.
Definition day_ns : Z := 86400 * second.

Definition window_key (placeholderID window : string) : string := placeholderID +:+ ":" +:+ window.

Definition checkWindow (rl : rateLimits) (placeholderID window : string) (duration limit now : Z)
  : rateLimits * reason :=
  let key := window_key placeholderID window in
  let state := default (mkWindow 0 now) (rl !! key) in
  let state := if (duration <? now - rs_windowAt state)%Z then mkWindow 0 now else state in
  let count := (rs_count state + 1)%Z in
  (<[key := mkWindow count (rs_windowAt state)]> rl,
   if (limit <? count)%Z then RateLimitExceeded count window limit else NoReason).

(** Run [f] only if no reason was found yet and [limit > 0]. *)
Definition limit_step (placeholderID window : string) (duration limit now : Z)
    (st : rateLimits * reason) : rateLimits * reason :=
  let '(rl, r) := st in
  if has_reason r then st
  else if (0 <? limit)%Z then checkWindow rl placeholderID window duration limit now
  else (rl, NoReason).

Definition checkRateLimit (rl : rateLimits) (config : RateLimitConfig) (placeholderID : string)
    (now : Z) : rateLimits * reason :=
  limit_step placeholderID "day" day_ns (rl_RequestsPerDay config) now
    (limit_step placeholderID "hour" hour_ns (rl_RequestsPerHour config) now
       (limit_step placeholderID "minute" minute_ns (rl_RequestsPerMinute config) now
          (rl, NoReason))).

(** ** Checking a request *)

(** The endpoint loop of [checkRule]: an early denial, or whether an endpoint
    matched and whether one needs approval. *)
Definition deny_reason (rule : PermissionRule) (ep : EndpointRule) (method path body : string) : reason :=
  if negb (ep_Allow ep) && negb (ep_Approve ep) then EndpointDenied method path (pr_Name rule)
  else match ep_Constraints ep with
       | Some c => match ec_Body c with
                   | Some (_ :: _) => checkConstraints c body
                   | _ => NoReason
                   end
       | None => NoReason
       end.

Fixpoint scan_endpoints (provider : string) (rule : PermissionRule) (method path body : string)
    (matched approval : bool) (eps : list EndpointRule) : reason + bool * bool :=
  match eps with
  | [] => inr (matched, approval)
  | ep :: eps' =>
      if matchEndpoint provider ep method path then
        let r := deny_reason rule ep method path body in
        if has_reason r then inl r
        else scan_endpoints provider rule method path body true (approval || ep_Approve ep) eps'
      else scan_endpoints provider rule method path body matched approval eps'
  end.

Definition checkRule (rl : rateLimits) (provider : string) (rule : PermissionRule)
    (placeholderID method path body : string) (dry : bool) (now : Z)
  : rateLimits * PermissionResult :=
  match scan_endpoints provider rule method path body false false (pr_Endpoints rule) with
  | inl r => (rl, denied_result r)
  | inr (matched, needsApproval) =>
      if negb matched && pr_DenyAllOther rule
      then (rl, denied_result (EndpointNotAllowed method path (pr_Name rule)))
      else if matched then
        let '(rl', r) := match pr_RateLimit rule with
                         | Some cfg => if dry then (rl, NoReason)
                                       else checkRateLimit rl cfg placeholderID now
                         | None => (rl, NoReason)
                         end in
        if has_reason r then (rl', denied_result r)
        else if needsApproval
        then (rl', mkResult false (EndpointNeedsApproval method path (pr_Name rule)) true (pr_Name rule))
        else (rl', allowed_result)
      else (rl, unmatched_result)
  end.

(** [result.Allowed || result.Reason != ""]: the rule decided. *)
Definition decided (r : PermissionResult) : bool := res_Allowed r || has_reason (res_Reason r).

Fixpoint check_rules (rl : rateLimits) (provider placeholderID method path body : string) (now : Z)
    (rules : list PermissionRule) : rateLimits * PermissionResult :=
  match rules with
  | [] => (rl, allowed_result)
  | rule :: rules' =>
      let '(rl', r) := checkRule rl provider rule placeholderID method path body false now in
      if decided r then (rl', r)
      else check_rules rl' provider placeholderID method path body now rules'
  end.

Definition Check (rl : rateLimits) (configJSON placeholderID method path body : string) (now : Z)
  : rateLimits * PermissionResult :=
  if configJSON ==s "" then (rl, allowed_result)
  else match ParsePermissionConfig configJSON with
  | Err e => (rl, denied_result (InvalidConfig e))
  | Ok config =>
      check_rules rl (pc_Provider config) placeholderID method path body now (pc_Rules config)
  end.

(** ** Explaining a request *)

Record PermissionExplanation := mkExplanation {
  ex_Allowed : bool;
  ex_Reason : reason;
  ex_RuleIndex : Z;
  ex_RuleName : string;
  ex_Default : bool;
  ex_RateLimited : bool;
  ex_NeedsApproval : bool;
}.

Fixpoint explain_rules (i : Z) (provider method path body : string) (rules : list PermissionRule)
  : PermissionExplanation :=
  match rules with
  | [] => mkExplanation true NoReason (-1) "" true false false
  | rule :: rules' =>
      let r := snd (checkRule ∅ provider rule "" method path body true 0) in
      if decided r then
        mkExplanation (res_Allowed r) (res_Reason r) i (pr_Name rule) false
          ((res_Allowed r || res_NeedsApproval r)
           && match pr_RateLimit rule with Some _ => true | None => false end)
          (res_NeedsApproval r)
      else explain_rules (i + 1) provider method path body rules'
  end.

Definition Explain (configJSON method path body : string) : PermissionExplanation :=
  if configJSON ==s "" then mkExplanation true NoReason (-1) "" true false false
  else match ParsePermissionConfig configJSON with
  | Err e => mkExplanation false (InvalidConfig e) (-1) "" false false false
  | Ok config => explain_rules 0 (pc_Provider config) method path body (pc_Rules config)
  end.

(** ** Does the decision need the body? *)

Definition body_constrained (ep : EndpointRule) : bool :=
  match ep_Constraints ep with
  | Some c => match ec_Body c with Some (_ :: _) => true | _ => false end
  | None => false
  end.

Definition RequestBodyRequiredForPermission (configJSON method path : string) : bool :=
  if TrimSpace configJSON ==s "" then false
  else match ParsePermissionConfig configJSON with
  | Err _ => true
  | Ok config =>
      existsb (fun rule =>
        existsb (fun ep => matchEndpoint (pc_Provider config) ep method path && body_constrained ep)
          (pr_Endpoints rule)) (pc_Rules config)
  end.

(** ** Branch policies of a config *)

Definition githubCapRowLevel (rows : GitHubCapabilityRows) (repo key : string) : string :=
  match List.find (fun kv => EqualFold (fst kv) repo) rows with
  | Some (_, row) => match List.find (fun kv => fst kv ==s key) row with
                     | Some (_, v) => v
                     | None => ""
                     end
  | None => ""
  end.

(** [out[key] = v]. *)
Fixpoint pol_set (m : repo_policies) (k : string) (v : GitHubRepoBranchPolicy) : repo_policies :=
  match m with
  | [] => [(k, v)]
  | (k', v') :: m' => if k ==s k' then (k, v) :: m' else (k', v') :: pol_set m' k v
  end.

Definition pol_get (m : repo_policies) (k : string) : option GitHubRepoBranchPolicy :=
  match List.find (fun kv => fst kv ==s k) m with Some (_, v) => Some v | None => None end.

Fixpoint v2_policies (out : repo_policies) (repos : list (string * GitHubRepositoryPolicy))
  : result perm_error repo_policies :=
  match repos with
  | [] => Ok out
  | (repo, rp) :: rest =>
      match rp_BranchPolicy rp with
      | None => v2_policies out rest
      | Some p =>
          let caps := rp_Capabilities rp in
          match cloneAndValidate p (cap_WorkflowDispatch caps) "the workflow_dispatch capability" with
          | Err e => Err (InRepository repo (PolicyError e))
          | Ok bp =>
              v2_policies (pol_set out (ToLower repo)
                (mkRepoPolicy bp (cap_PullRequestsMerge caps) (cap_PullRequestsApprove caps))) rest
          end
      end
  end.

Fixpoint v1_entries (i : nat) (rows : GitHubCapabilityRows) (out : repo_policies)
    (entries : repo_policies) : result perm_error repo_policies :=
  match entries with
  | [] => Ok out
  | (repo, entry) :: rest =>
      if negb (githubRepoPathPattern repo) then Err (InvalidRepository repo)
      else
        let key := ToLower repo in
        match pol_get out key with
        | Some _ => Err (DuplicateRepository repo)
        | None =>
            let actionsWrite := githubCapRowLevel rows repo "actions" ==s "write" in
            match cloneAndValidate (rbp_BranchPolicy entry) actionsWrite "Actions write" with
            | Err e => Err (InRepository repo (PolicyError e))
            | Ok bp =>
                if (rbp_PullRequestsMerge entry || rbp_PullRequestsApprove entry)
                   && (githubCapRowLevel rows repo "pull_requests" !=s "write")
                then Err (MergeRequiresPRWrite repo)
                else v1_entries i rows (pol_set out key
                       (mkRepoPolicy bp (rbp_PullRequestsMerge entry) (rbp_PullRequestsApprove entry)))
                       rest
            end
        end
  end.

Fixpoint v1_policies (i : nat) (provider : string) (out : repo_policies)
    (rules : list PermissionRule) : result perm_error repo_policies :=
  match rules with
  | [] => Ok out
  | rule :: rules' =>
      match pr_GitHubBranchPolicies rule with
      | [] => v1_policies (S i) provider out rules'
      | entries =>
          if provider !=s "github" then Err (PoliciesNeedGitHub i)
          else
            out' <-! v1_entries i (pr_GitHubCapabilityRows rule) out entries;
            v1_policies (S i) provider out' rules'
      end
  end.

Definition GitHubBranchPoliciesFromConfig (configJSON : string) : result perm_error repo_policies :=
  if TrimSpace configJSON ==s "" then Ok []
  else match decode_header configJSON with
  | None => Err BadJSON
  | Some version =>
      if version ==s "2" then
        match decode_v2 configJSON with
        | None => Err BadCapabilityJSON
        | Some cfg => v2_policies [] (cc_Repositories cfg)
        end
      else if version ==s "1" then
        match decode_v1 configJSON with
        | None => Err BadJSON
        | Some cfg => v1_policies 0 (pc_Provider cfg) [] (pc_Rules cfg)
        end
      else Ok []
  end.

(** [policyCache] and [ParseGitHubBranchPolicies]: the result memoised per
    config string; the whole cache is dropped when it is full. *)
Definition policyCacheMax : nat := 256.

Definition ParseGitHubBranchPolicies (cache : policy_cache) (configJSON : string)
  : policy_cache * result perm_error repo_policies :=
  if TrimSpace configJSON ==s "" then (cache, Ok [])
  else match cache !! configJSON with
  | Some e => (cache, e)
  | None =>
      let r := GitHubBranchPoliciesFromConfig configJSON in
      (<[configJSON := r]> (if (policyCacheMax <=? size cache)%nat then ∅ else cache), r)
  end.

Definition ValidateNoBranchPolicies (cache : policy_cache) (configJSON : string)
  : policy_cache * option perm_error :=
  if TrimSpace configJSON ==s "" then (cache, None)
  else let '(cache', r) := ParseGitHubBranchPolicies cache configJSON in
       (cache', match r with
                | Err e => Some e
                | Ok [] => None
                | Ok (_ :: _) => Some BranchRulesUnsupportedHere
                end).

(** ** Validation before storing *)

(** First error of an indexed loop. *)
Fixpoint first_error {A} (f : nat -> A -> option perm_error) (i : nat) (l : list A) : option perm_error :=
  match l with
  | [] => None
  | x :: l' => match f i x with Some e => Some e | None => first_error f (S i) l' end
  end.

Definition endpoint_shape (i j : nat) (ep : EndpointRule) : option perm_error :=
  if TrimSpace (ep_Method ep) ==s "" then Some (EndpointMissingMethod i j)
  else if TrimSpace (ep_Path ep) ==s "" then Some (EndpointMissingPath i j)
  else if ep_Allow ep && ep_Approve ep then Some (EndpointAllowAndApprove i j)
  else None.

Definition rule_shape (i : nat) (rule : PermissionRule) : option perm_error :=
  match pr_Endpoints rule with
  | [] => Some (RuleWithoutEndpoints i)
  | eps => first_error (endpoint_shape i) 0 eps
  end.

Definition policies_error (configJSON : string) : option perm_error :=
  match GitHubBranchPoliciesFromConfig configJSON with Err e => Some e | Ok _ => None end.

Definition ValidatePermissionConfig (configJSON : string) : option perm_error :=
  if TrimSpace configJSON ==s "" then None
  else match ParsePermissionConfig configJSON with
  | Err e => Some e
  | Ok config =>
      match pc_Rules config with
      | [] => Some NoRules
      | rules =>
          match first_error rule_shape 0 rules with
          | Some e => Some e
          | None => policies_error configJSON
          end
      end
  end.

(** [githubRepoFromScopedEndpoint]. *)
Definition githubRepoFromScopedEndpoint (ep : EndpointRule) : option string :=
  if Bool.eqb (ep_Allow ep) (ep_Approve ep) then None
  else
    let method := ToUpper (ep_Method ep) in
    let path := TrimSpace (ep_Path ep) in
    let git suffix := TrimPrefix (TrimSuffix path suffix) "/" in
    if Contains path ".." then None
    else if (method ==s "GET") && HasSuffix path ".git/info/refs" then Some (git ".git/info/refs")
    else if (method ==s "POST") && HasSuffix path ".git/git-upload-pack"
    then Some (git ".git/git-upload-pack")
    else if (method ==s "POST") && HasSuffix path ".git/git-receive-pack"
    then Some (git ".git/git-receive-pack")
    else if HasPrefix path "/repos/" then
      if in_seen method ["GET"; "HEAD"; "POST"; "PUT"; "PATCH"; "DELETE"] then
        match Split (TrimPrefix path "/repos/") "/" with
        | o :: r :: _ => Some (o +:+ "/" +:+ r)
        | _ => None
        end
      else None
    else None.

Definition scoped_endpoint (i j : nat) (ep : EndpointRule) : option perm_error :=
  match githubRepoFromScopedEndpoint ep with
  | Some repo => if githubRepoPathPattern repo then None else Some (ScopeEndpoint i j)
  | None => Some (ScopeEndpoint i j)
  end.

Definition scoped_rule (i : nat) (rule : PermissionRule) : option perm_error :=
  match pr_Endpoints rule with
  | [] => Some (RuleWithoutEndpoints i)
  | eps => first_error (scoped_endpoint i) 0 eps
  end.

Definition zero_perm_rule : PermissionRule := mkPermRule "" [] None false [] [].

Definition ValidateGitHubRepoScopePermissionConfig (configJSON : string) : option perm_error :=
  if TrimSpace configJSON ==s "" then Some ScopeEmpty
  else match ParsePermissionConfig configJSON with
  | Err e => Some e
  | Ok config =>
      if pc_Provider config !=s "github" then Some ScopeProvider
      else if pc_Version config ==s "2" then None
      else match pc_Rules config with
      | [] => Some ScopeNoRules
      | rules =>
          if negb (pr_DenyAllOther (List.last rules zero_perm_rule)) then Some ScopeLastRule
          else match first_error scoped_rule 0 rules with
          | Some e => Some e
          | None => policies_error configJSON
          end
      end
  end.

End Permission.

(** ** Theorems: rules *)

Section RuleTheorems.
Context `{UC : UnicodeCase} `{CJ : ConfigJSON}.

(** The endpoints of a rule that match a request. *)
Definition matching (provider : string) (rule : PermissionRule) (method path : string)
  : list EndpointRule :=
  List.filter (fun ep => matchEndpoint provider ep method path) (pr_Endpoints rule).

Definition nonempty {A} (l : list A) : bool := match l with [] => false | _ => true end.

Lemma scan_endpoints_spec provider rule method path body mt ap eps :
  let ms := List.filter (fun ep => matchEndpoint provider ep method path) eps in
  scan_endpoints provider rule method path body mt ap eps =
  match List.find (fun ep => has_reason (deny_reason rule ep method path body)) ms with
  | Some ep => inl (deny_reason rule ep method path body)
  | None => inr (mt || nonempty ms, ap || existsb ep_Approve ms)
  end.
Proof.
  cbv zeta. revert mt ap. induction eps as [|ep eps IH]; intros mt ap; cbn [scan_endpoints List.filter].
  { simpl. by rewrite !orb_false_r. }
  destruct (matchEndpoint provider ep method path); [|by apply IH].
  cbn [List.find existsb nonempty].
  destruct (has_reason (deny_reason rule ep method path body)) eqn:E; [done|].
  rewrite IH. destruct (List.find _ _); [done|].
  rewrite orb_true_l, orb_true_r, <- orb_assoc. done.
Qed.

(** What one rule decides: the first matching endpoint that denies (or whose
    constraints fail) wins over everything else in the rule; without one, an
    unmatched request is denied exactly under deny_all_other; a matched one is
    held for approval when any matching endpoint asks for it and allowed
    otherwise.  (Stated for a rule without a rate limit.) *)
Theorem checkRule_spec rl provider rule id method path body dry now :
  pr_RateLimit rule = None ->
  let ms := matching provider rule method path in
  checkRule rl provider rule id method path body dry now =
  (rl, match List.find (fun ep => has_reason (deny_reason rule ep method path body)) ms with
       | Some ep => denied_result (deny_reason rule ep method path body)
       | None =>
           if nonempty ms then
             if existsb ep_Approve ms
             then mkResult false (EndpointNeedsApproval method path (pr_Name rule)) true (pr_Name rule)
             else allowed_result
           else if pr_DenyAllOther rule
           then denied_result (EndpointNotAllowed method path (pr_Name rule))
           else unmatched_result
       end).
Proof.
  intros Hrl. cbv zeta. unfold checkRule, matching. rewrite scan_endpoints_spec, Hrl.
  set (ms := List.filter _ (pr_Endpoints rule)).
  destruct (List.find _ _); [done|]. cbn [orb].
  destruct (nonempty ms); cbn [negb andb].
  - by destruct (existsb ep_Approve ms).
  - by destruct (pr_DenyAllOther rule).
Qed.

(** A positive outcome (forward now, or forward once approved) of a rule comes
    from a matching endpoint that allows or asks for approval. *)
Definition positive (r : PermissionResult) : bool := res_Allowed r || res_NeedsApproval r.

Lemma deny_reason_ok rule ep method path body :
  has_reason (deny_reason rule ep method path body) = false ->
  ep_Allow ep = true \/ ep_Approve ep = true.
Proof. unfold deny_reason. destruct (ep_Allow ep), (ep_Approve ep); simpl; auto; discriminate. Qed.

Lemma checkRule_positive rl provider rule id method path body dry now :
  positive (snd (checkRule rl provider rule id method path body dry now)) = true ->
  exists ep, In ep (pr_Endpoints rule) /\ matchEndpoint provider ep method path = true /\
             (ep_Allow ep = true \/ ep_Approve ep = true).
Proof.
  unfold checkRule. rewrite scan_endpoints_spec. cbv zeta. cbn [orb].
  destruct (List.find _ _) eqn:Ef; [discriminate|].
  destruct (List.filter _ (pr_Endpoints rule)) as [|ep ms] eqn:Em; cbn [nonempty negb andb].
  { destruct (pr_DenyAllOther rule); discriminate. }
  intros _. exists ep.
  assert (In ep (List.filter (fun ep => matchEndpoint provider ep method path) (pr_Endpoints rule)))
    as Hin by (rewrite Em; by left).
  apply filter_In in Hin as [? ?]. repeat split; try done.
  apply (deny_reason_ok rule ep method path body).
  by apply (find_none _ _ Ef ep (or_introl eq_refl)).
Qed.

(** A rule with deny_all_other always decides. *)
Lemma checkRule_deny_all_decides rl provider rule id method path body dry now :
  pr_DenyAllOther rule = true ->
  decided (snd (checkRule rl provider rule id method path body dry now)) = true.
Proof.
  unfold checkRule. rewrite scan_endpoints_spec. cbv zeta. cbn [orb]. intros ->.
  destruct (List.find _ _) as [ep|] eqn:Ef.
  { apply find_some in Ef as [_ ?]. unfold decided. simpl. done. }
  destruct (nonempty _); cbn [negb andb]; [|done].
  destruct (pr_RateLimit rule) as [cfg|]; [destruct dry|]; simpl.
  - by destruct (existsb _ _).
  - destruct (checkRateLimit _ _ _ _) as [rl' r]. destruct (has_reason r) eqn:E; unfold decided; simpl.
    + done.
    + by destruct (existsb _ _).
  - by destruct (existsb _ _).
Qed.

Lemma check_rules_positive rl provider id method path body now rules :
  rules <> [] -> pr_DenyAllOther (List.last rules zero_perm_rule) = true ->
  positive (snd (check_rules rl provider id method path body now rules)) = true ->
  exists rule ep, In rule rules /\ In ep (pr_Endpoints rule) /\
    matchEndpoint provider ep method path = true /\ (ep_Allow ep = true \/ ep_Approve ep = true).
Proof.
  intros Hne Hlast. revert rl. induction rules as [|rule rules IH]; intros rl; [done|].
  cbn [check_rules].
  pose proof (checkRule_positive rl provider rule id method path body false now) as Hpos.
  pose proof (checkRule_deny_all_decides rl provider rule id method path body false now) as Hdec.
  destruct (checkRule _ _ _ _ _ _ _ _ _) as [rl' r]. cbn [snd] in *.
  destruct (decided r) eqn:Ed.
  - intros Hp. destruct (Hpos Hp) as (ep & ? & ? & ?). exists rule, ep. repeat split; try done. by left.
  - destruct rules as [|rule' rules].
    + simpl in Hlast. specialize (Hdec Hlast). congruence.
    + intros Hp. destruct (IH ltac:(done) Hlast rl' Hp) as (ru & ep & ? & ?).
      exists ru, ep. split; [by right|done].
Qed.

End RuleTheorems.

(** ** Theorems: bodies, explanations, caching *)

Section CheckTheorems.
Context `{UC : UnicodeCase} `{CJ : ConfigJSON}.

Lemma deny_reason_body rule ep method path b1 b2 :
  body_constrained ep = false ->
  deny_reason rule ep method path b1 = deny_reason rule ep method path b2.
Proof.
  unfold body_constrained, deny_reason. destruct (_ && _); [done|].
  destruct (ep_Constraints ep) as [c|]; [|done]. by destruct (ec_Body c) as [[|]|].
Qed.

Lemma scan_endpoints_body provider rule method path b1 b2 mt ap eps :
  existsb (fun ep => matchEndpoint provider ep method path && body_constrained ep) eps = false ->
  scan_endpoints provider rule method path b1 mt ap eps =
  scan_endpoints provider rule method path b2 mt ap eps.
Proof.
  revert mt ap. induction eps as [|ep eps IH]; intros mt ap; cbn [existsb scan_endpoints]; [done|].
  intros [H1 H2]%orb_false_iff.
  destruct (matchEndpoint provider ep method path); [|by apply IH].
  cbn [andb] in H1. rewrite (deny_reason_body rule ep method path b1 b2 H1).
  destruct (has_reason _); [done|]. by apply IH.
Qed.

Lemma checkRule_body rl provider rule id method path b1 b2 dry now :
  existsb (fun ep => matchEndpoint provider ep method path && body_constrained ep)
    (pr_Endpoints rule) = false ->
  checkRule rl provider rule id method path b1 dry now =
  checkRule rl provider rule id method path b2 dry now.
Proof. intros H. unfold checkRule. by rewrite (scan_endpoints_body _ rule _ _ b1 b2 _ _ _ H). Qed.

Lemma check_rules_body rl provider id method path b1 b2 now rules :
  existsb (fun rule => existsb (fun ep => matchEndpoint provider ep method path && body_constrained ep)
             (pr_Endpoints rule)) rules = false ->
  check_rules rl provider id method path b1 now rules =
  check_rules rl provider id method path b2 now rules.
Proof.
  revert rl. induction rules as [|rule rules IH]; intros rl; cbn [existsb check_rules]; [done|].
  intros [H1 H2]%orb_false_iff. rewrite (checkRule_body _ _ _ _ _ _ b1 b2 _ _ H1).
  destruct (checkRule _ _ _ _ _ _ _ _ _) as [rl' r]. destruct (decided r); [done|by apply IH].
Qed.

Lemma Check_body_irrelevant rl configJSON id method path b1 b2 now :
  RequestBodyRequiredForPermission configJSON method path = false ->
  Check rl configJSON id method path b1 now = Check rl configJSON id method path b2 now.
Proof.
  unfold RequestBodyRequiredForPermission, Check.
  destruct (configJSON ==s "") eqn:E0; [done|].
  destruct (TrimSpace configJSON ==s "") eqn:E1; bool_to_prop.
  { intros _. unfold ParsePermissionConfig. by rewrite decode_blank. }
  destruct (ParsePermissionConfig configJSON) as [config|e]; [|done].
  by apply check_rules_body.
Qed.

(** When [RequestBodyRequiredForPermission] says the body is not needed, the
    permission decision, and the rate-limit state after it, are the same for
    every body, so the proxy may stream it. *)
Theorem body_not_required_sound rl configJSON id method path b1 b2 now :
  RequestBodyRequiredForPermission configJSON method path = false ->
  Check rl configJSON id method path b1 now = Check rl configJSON id method path b2 now.
Proof. apply Check_body_irrelevant. Qed.

(** A rate limit either leaves a rule's verdict as the dry run has it or turns it
    into a rate-limit denial. *)
Definition is_rate_limit (r : reason) : bool :=
  match r with RateLimitExceeded _ _ _ => true | _ => false end.

Lemma limit_step_reason id w d l now rl r :
  (has_reason r = true -> is_rate_limit r = true) ->
  has_reason (snd (limit_step id w d l now (rl, r))) = true ->
  is_rate_limit (snd (limit_step id w d l now (rl, r))) = true.
Proof.
  unfold limit_step. destruct (has_reason r) eqn:E; [auto|].
  destruct (0 <? l)%Z; [|discriminate]. unfold checkWindow. simpl. by destruct (_ <? _)%Z.
Qed.

Lemma checkRateLimit_reason rl cfg id now :
  has_reason (snd (checkRateLimit rl cfg id now)) = true ->
  is_rate_limit (snd (checkRateLimit rl cfg id now)) = true.
Proof.
  unfold checkRateLimit.
  destruct (limit_step id "minute" _ _ _ _) as [rl1 r1] eqn:E1.
  destruct (limit_step id "hour" _ _ _ _) as [rl2 r2] eqn:E2.
  apply limit_step_reason. intros H2.
  assert (r2 = snd (limit_step id "hour" hour_ns (rl_RequestsPerHour cfg) now (rl1, r1))) as -> by by rewrite E2.
  apply limit_step_reason; [|done]. intros H1.
  assert (r1 = snd (limit_step id "minute" minute_ns (rl_RequestsPerMinute cfg) now (rl, NoReason))) as -> by by rewrite E1.
  by apply limit_step_reason.
Qed.

Lemma checkRule_dry rl rl0 provider rule id id0 method path body now now0 :
  let r := snd (checkRule rl provider rule id method path body false now) in
  let e := snd (checkRule rl0 provider rule id0 method path body true now0) in
  r = e \/ (pr_RateLimit rule <> None /\ positive e = true /\ decided e = true /\
            is_rate_limit (res_Reason r) = true /\ r = denied_result (res_Reason r)).
Proof.
  cbv zeta. unfold checkRule. destruct (scan_endpoints _ _ _ _ _ _ _ _) as [r|[mt ap]]; [by left|].
  destruct (negb mt && pr_DenyAllOther rule); [by left|]. destruct mt; [|by left].
  destruct (pr_RateLimit rule) as [cfg|]; [|by left; destruct ap].
  pose proof (checkRateLimit_reason rl cfg id now) as Hr.
  destruct (checkRateLimit rl cfg id now) as [rl' r]. cbn [snd] in Hr. cbn [has_reason].
  destruct (has_reason r) eqn:E; [|by left; destruct ap].
  right. simpl. repeat split; auto; by destruct ap.
Qed.

Lemma explain_rules_agree rl i provider id method path body now rules :
  let r := snd (check_rules rl provider id method path body now rules) in
  let e := explain_rules i provider method path body rules in
  (res_Allowed r = ex_Allowed e /\ res_Reason r = ex_Reason e /\
   res_NeedsApproval r = ex_NeedsApproval e) \/
  (ex_RateLimited e = true /\ r = denied_result (res_Reason r) /\
   is_rate_limit (res_Reason r) = true).
Proof.
  cbv zeta. revert rl i. induction rules as [|rule rules IH]; intros rl i;
    cbn [check_rules explain_rules]; [by left|].
  pose proof (checkRule_dry rl ∅ provider rule id "" method path body now 0) as H. cbv zeta in H.
  destruct (checkRule rl _ _ _ _ _ _ _ _) as [rl' r]. cbn [snd] in H.
  destruct (checkRule ∅ _ _ _ _ _ _ _ _) as [rl'' e]. cbn [snd] in *.
  destruct H as [->|(Hc & Hp & He & Hi & Hr)].
  - destruct (decided e); [by left|]. apply IH.
  - assert (decided r = true) as ->.
    { unfold decided. rewrite Hr. simpl. by destruct (res_Reason r). }
    rewrite He. right. simpl. unfold positive in Hp. rewrite Hp. by destruct (pr_RateLimit rule).
Qed.

(** [Explain] reports what [Check] would decide: the same verdict, reason and
    approval flag, unless the deciding rule carries a rate limit that is
    exhausted, which [Explain] flags and [Check] denies. *)
Theorem Explain_agrees_Check rl configJSON id method path body now :
  let r := snd (Check rl configJSON id method path body now) in
  let e := Explain configJSON method path body in
  (res_Allowed r = ex_Allowed e /\ res_Reason r = ex_Reason e /\
   res_NeedsApproval r = ex_NeedsApproval e) \/
  (ex_RateLimited e = true /\ r = denied_result (res_Reason r) /\
   is_rate_limit (res_Reason r) = true).
Proof.
  cbv zeta. unfold Check, Explain. destruct (configJSON ==s ""); [by left|].
  destruct (ParsePermissionConfig configJSON) as [config|e]; [|by left].
  apply explain_rules_agree.
Qed.

(** ** The policy cache *)

(** Every entry is what the config parses to, and the cache is bounded. *)
Definition cache_ok (cache : policy_cache) : Prop :=
  (forall k e, cache !! k = Some e -> e = GitHubBranchPoliciesFromConfig k) /\
  size cache <= policyCacheMax.

Lemma cache_ok_empty : cache_ok ∅.
Proof. split; [intros k e; by rewrite lookup_empty|]. rewrite map_size_empty. lia. Qed.

Lemma ParseGitHubBranchPolicies_value (cache : policy_cache) (configJSON : string) :
  cache_ok cache ->
  snd (ParseGitHubBranchPolicies cache configJSON) = GitHubBranchPoliciesFromConfig configJSON.
Proof.
  intros [Hc _]. unfold ParseGitHubBranchPolicies. destruct (TrimSpace configJSON ==s "") eqn:E.
  { unfold GitHubBranchPoliciesFromConfig. by rewrite E. }
  destruct (cache !! configJSON) as [e|] eqn:El; [by apply Hc|done].
Qed.

(** Memoising branch policies never changes a decision: from the empty cache
    on, every lookup returns what parsing the config afresh returns, and the
    cache stays within its bound. *)
Theorem ParseGitHubBranchPolicies_coherent (cache : policy_cache) (configJSON : string) :
  cache_ok cache ->
  let '(cache', r) := ParseGitHubBranchPolicies cache configJSON in
  cache_ok cache' /\ r = GitHubBranchPoliciesFromConfig configJSON.
Proof.
  intros [Hc Hs]. unfold ParseGitHubBranchPolicies.
  destruct (TrimSpace configJSON ==s "") eqn:E.
  { split; [done|]. unfold GitHubBranchPoliciesFromConfig. by rewrite E. }
  destruct (cache !! configJSON) as [e|] eqn:El; [split; [done|by apply Hc]|].
  split; [|done]. split.
  - intros k e. rewrite lookup_insert. case_decide as Hk; [intros [= <-]; by subst|].
    destruct (_ <=? _)%nat; [by rewrite lookup_empty|apply Hc].
  - destruct (policyCacheMax <=? size cache)%nat eqn:Em; bool_to_prop.
    + rewrite map_size_insert_None by done. rewrite map_size_empty. unfold policyCacheMax. lia.
    + rewrite map_size_insert_None by done. lia.
Qed.

End CheckTheorems.

(** ** Theorems: rate limits *)

(** The answers to a sequence of requests at the given times. *)
Fixpoint run_window (rl : rateLimits) (id window : string) (duration limit : Z) (times : list Z)
  : list bool :=
  match times with
  | [] => []
  | now :: rest =>
      let '(rl', r) := checkWindow rl id window duration limit now in
      negb (has_reason r) :: run_window rl' id window duration limit rest
  end.

Lemma run_window_open rl id window duration limit t0 c times :
  rl !! window_key id window = Some (mkWindow c t0) ->
  Forall (fun t => t - t0 <= duration)%Z times ->
  run_window rl id window duration limit times =
  imap (fun i _ => (c + Z.of_nat i + 1 <=? limit)%Z) times.
Proof.
  revert rl c. induction times as [|t times IH]; intros rl c Hrl Hts; [done|].
  inversion Hts as [|? ? Ht Hts']; subst. cbn [run_window]. unfold checkWindow. rewrite Hrl.
  change (default ?x (Some ?y)) with y. cbn [rs_windowAt rs_count].
  assert ((duration <? t - t0)%Z = false) as -> by (apply Z.ltb_ge; lia).
  cbn [rs_windowAt rs_count].
  rewrite (IH _ (c + 1)%Z); [|apply lookup_insert_eq|done].
  cbn [imap]. f_equal.
  - rewrite Z.leb_antisym. replace (c + Z.of_nat 0 + 1)%Z with (c + 1)%Z by lia.
    by destruct (limit <? c + 1)%Z.
  - apply imap_ext. intros i x _. unfold compose. do 2 f_equal. lia.
Qed.

(** The fixed window: of the requests a token makes within one window that
    starts with the first of them, exactly the first [limit] pass. *)
Theorem window_admits_exactly_limit (id window : string) (duration limit t0 : Z) (times : list Z) :
  (0 <= duration)%Z -> Forall (fun t => t - t0 <= duration)%Z times ->
  run_window ∅ id window duration limit (t0 :: times) =
  imap (fun i _ => (Z.of_nat i <? limit)%Z) (t0 :: times).
Proof.
  intros Hd Hts. cbn [run_window]. unfold checkWindow. rewrite lookup_empty.
  change (default ?x None) with x. cbn [rs_windowAt rs_count].
  assert ((duration <? t0 - t0)%Z = false) as -> by (apply Z.ltb_ge; lia).
  cbn [rs_windowAt rs_count imap]. f_equal.
  - destruct (limit <? 0 + 1)%Z eqn:E1; simpl; symmetry; rewrite ?Z.ltb_ge, ?Z.ltb_lt; bool_to_prop; lia.
  - rewrite (run_window_open _ _ _ _ _ t0 1); [|apply lookup_insert_eq|done].
    apply imap_ext. intros i x _. unfold compose.
    destruct (_ <=? _)%Z eqn:E1, (_ <? _)%Z eqn:E2; bool_to_prop; try done; lia.
Qed.

(** ** Theorems: repository scope *)

Section ScopeTheorems.
Context `{UC : UnicodeCase} `{CJ : ConfigJSON}.

Definition git_suffixes : list string :=
  [".git/info/refs"; ".git/git-upload-pack"; ".git/git-receive-pack"].

(** An endpoint path that names one repository literally. *)
Definition scoped_to (repo path : string) : Prop :=
  path = "/repos/" +:+ repo \/
  (exists t, path = "/repos/" +:+ repo +:+ "/" +:+ t) \/
  (exists s, In s git_suffixes /\ (path = "/" +:+ repo +:+ s \/ path = repo +:+ s)).

Lemma TrimPrefix_cases (s p : string) : s = p +:+ TrimPrefix s p \/ s = TrimPrefix s p.
Proof.
  unfold TrimPrefix. destruct (HasPrefix s p) eqn:E; [left|by right].
  apply HasPrefix_spec in E as [t ->]. by rewrite str_drop_app.
Qed.

Lemma git_scoped (path suffix : string) :
  In suffix git_suffixes -> HasSuffix path suffix = true ->
  scoped_to (TrimPrefix (TrimSuffix path suffix) "/") path.
Proof.
  intros Hin Hs. apply HasSuffix_spec in Hs as [t ->]. rewrite TrimSuffix_app.
  right. right. exists suffix. split; [done|].
  destruct (TrimPrefix_cases t "/") as [E|E]; [left|right].
  - rewrite E at 1. by rewrite str_app_assoc.
  - by rewrite E at 1.
Qed.

Lemma rest_scoped (path o r : string) (rest : list string) :
  HasPrefix path "/repos/" = true -> Split (TrimPrefix path "/repos/") "/" = o :: r :: rest ->
  scoped_to (o +:+ "/" +:+ r) path.
Proof.
  intros Hp Hs. apply HasPrefix_spec in Hp as [t ->]. rewrite TrimPrefix_app in Hs.
  pose proof (Join_Split t "/") as Hj. rewrite Hs in Hj. destruct rest as [|x rest].
  - left. rewrite <- Hj. cbn [Join]. done.
  - right. left. exists (Join (x :: rest) "/"). rewrite <- Hj.
    change (Join (o :: r :: x :: rest) "/") with (o +:+ String "/" (r +:+ String "/" (Join (x :: rest) "/"))).
    rewrite <- !str_app_assoc. done.
Qed.

Lemma scoped_endpoint_path (ep : EndpointRule) (repo : string) :
  githubRepoFromScopedEndpoint ep = Some repo -> scoped_to repo (TrimSpace (ep_Path ep)).
Proof.
  unfold githubRepoFromScopedEndpoint.
  destruct (Bool.eqb _ _); [done|]. destruct (Contains _ _); [done|].
  destruct (_ && HasSuffix _ ".git/info/refs") eqn:E1.
  { intros [= <-]. bool_to_prop. apply git_scoped; simpl; auto. }
  destruct (_ && HasSuffix _ ".git/git-upload-pack") eqn:E2.
  { intros [= <-]. bool_to_prop. apply git_scoped; simpl; auto. }
  destruct (_ && HasSuffix _ ".git/git-receive-pack") eqn:E3.
  { intros [= <-]. bool_to_prop. apply git_scoped; simpl; auto. }
  destruct (HasPrefix _ "/repos/") eqn:E4; [|done]. destruct (in_seen _ _); [|done].
  destruct (Split _ _) as [|o [|r rest]] eqn:Es; try done. intros [= <-].
  by eapply rest_scoped.
Qed.

Lemma first_error_none {A} (f : nat -> A -> option perm_error) i l x :
  first_error f i l = None -> In x l -> exists j, f j x = None.
Proof.
  revert i. induction l as [|y l IH]; intros i; simpl; [done|].
  destruct (f i y) eqn:E; [done|]. intros H [->|Hin]; [by exists i|by apply (IH (S i))].
Qed.

(** Every endpoint compiled for a repository is an allow endpoint on it. *)
Definition compiled_for (repo : string) (ep : EndpointRule) : Prop :=
  scoped_to repo (ep_Path ep) /\ ep_Allow ep = true /\ ep_Approve ep = false.

Lemma compiled_rest repo m t c : compiled_for repo (allow_ep m ("/repos/" +:+ repo +:+ "/" +:+ t) c).
Proof. split; [|done]. right. left. by exists t. Qed.

Lemma compiled_git repo m s c :
  In s git_suffixes -> compiled_for repo (allow_ep m ("/" +:+ repo +:+ s) c).
Proof. intros H. split; [|done]. right. right. exists s. simpl. auto. Qed.

(** The shapes of the compiled paths, for [auto]. *)
Lemma compiled_repo repo m c : compiled_for repo (allow_ep m ("/repos/" +:+ repo) c).
Proof. split; [|done]. by left. Qed.

Lemma Forall_when {A} (P : A -> Prop) (b : bool) l : Forall P l -> Forall P (if b then l else []).
Proof. by destruct b. Qed.

Lemma rest_endpoints_compiled repo read write resource :
  Forall (compiled_for repo) (rest_endpoints repo read write resource).
Proof.
  unfold rest_endpoints. apply Forall_app. split; apply Forall_when;
    repeat (constructor; [apply compiled_rest|]); constructor.
Qed.

Lemma dispatch_endpoints_compiled repo c ws eps :
  dispatch_endpoints repo c ws = Ok eps -> Forall (compiled_for repo) eps.
Proof.
  revert eps. induction ws as [|w ws IH]; intros eps; simpl; [by intros [= <-]|].
  destruct (githubWorkflowPattern w); [|done]. cbn [negb].
  destruct (dispatch_endpoints repo c ws) as [rest|]; [|done]. intros [= <-].
  constructor; [|by apply IH].
  split; [|done]. right. left. exists ("actions/workflows/" +:+ w +:+ "/dispatches"). done.
Qed.

Ltac compiled_tac :=
  lazymatch goal with
  | |- compiled_for ?r (allow_ep _ ("/repos/" +:+ ?r) _) => apply compiled_repo
  | |- compiled_for ?r (allow_ep ?m ("/repos/" +:+ ?r +:+ String _ ?t) ?c) => exact (compiled_rest r m t c)
  | |- compiled_for ?r (allow_ep ?m ("/" +:+ ?r +:+ ?s) ?c) => apply (compiled_git r m s c); simpl; tauto
  end.

Lemma append_compiled dst repo p eps :
  appendGitHubCapabilityEndpoints dst repo p = Ok eps ->
  exists added, eps = dst ++ added /\ Forall (compiled_for repo) added.
Proof.
  unfold appendGitHubCapabilityEndpoints. destruct (capability_checks p); [done|].
  destruct (if cap_WorkflowDispatch _ then _ else _) as [disp|] eqn:Ed; [|done]. cbn [rbind].
  assert (Forall (compiled_for repo) disp) as Hd.
  { destruct (cap_WorkflowDispatch _); [by eapply dispatch_endpoints_compiled|].
    injection Ed as <-. constructor. }
  match goal with |- context [match ?l with [] => _ | _ => _ end] => set (added := l) end.
  assert (Forall (compiled_for repo) added) as Ha.
  { unfold added. clear added.
    repeat match goal with |- Forall _ (_ ++ _) => apply Forall_app; split end;
      first [apply rest_endpoints_compiled | exact Hd | apply Forall_when];
      repeat (apply List.Forall_cons; [compiled_tac|]); apply List.Forall_nil. }
  clearbody added. intros H. exists added. split; [|done]. by destruct added; [|injection H as <-].
Qed.

Lemma compile_repositories_compiled seen eps repos out :
  compile_repositories seen eps repos = Ok out ->
  Forall (fun ep => In ep eps \/ exists repo pol, In (repo, pol) repos /\
            githubRepoPathPattern repo = true /\ compiled_for (ToLower repo) ep) out.
Proof.
  revert seen eps. induction repos as [|[repo pol] repos IH]; intros seen eps; cbn [compile_repositories].
  { intros [= <-]. apply List.Forall_forall. auto. }
  destruct (githubRepoPathPattern repo) eqn:Er; [|done]. cbn [negb].
  destruct (in_seen _ _); [done|].
  destruct (appendGitHubCapabilityEndpoints _ _ _) as [eps'|] eqn:Ea; [|done].
  apply append_compiled in Ea as (added & -> & Ha). intros H. apply IH in H.
  eapply Forall_impl; [exact H|]. intros ep [Hin|(r & p & ? & ? & ?)].
  - apply in_app_or in Hin as [Hin|Hin]; [by left|]. right. exists repo, pol.
    rewrite List.Forall_forall in Ha. split; [by left|]. auto.
  - right. exists r, p. split; [by right|auto].
Qed.

(** What [ParsePermissionConfig] returns for each version. *)
Lemma ParsePermissionConfig_cases configJSON config :
  ParsePermissionConfig configJSON = Ok config ->
  (pc_Version config = "1") \/
  (exists repos endpoints, compile_repositories [] [] repos = Ok endpoints /\
     config = mkConfig "2" "github" [mkPermRule "github capabilities" endpoints None true [] []]).
Proof.
  unfold ParsePermissionConfig. destruct (decode_header configJSON) as [v|] eqn:Eh; [|done].
  destruct (v ==s "2") eqn:E2.
  - intros H. right. unfold parseGitHubCapabilityPermissionConfig in H.
    destruct (decode_v2 configJSON) as [pol|]; [|done]. destruct (_ || _); [done|].
    destruct (cc_Repositories pol) as [|kv repos]; [done|].
    destruct (compile_repositories _ _ _) as [eps|] eqn:Ec; [|done]. injection H as <-. eauto.
  - destruct (v !=s "1") eqn:E1; [done|]. destruct (decode_v1 configJSON) as [c|] eqn:Ed; [|done].
    intros [= <-]. left. apply decode_version in Ed. rewrite Eh in Ed. injection Ed as <-.
    by bool_to_prop.
Qed.

Lemma scoped_rules_endpoints rules rule ep :
  first_error scoped_rule 0 rules = None -> In rule rules -> In ep (pr_Endpoints rule) ->
  exists repo, githubRepoPathPattern repo = true /\ scoped_to repo (TrimSpace (ep_Path ep)).
Proof.
  intros Hf Hr He. destruct (first_error_none _ _ _ _ Hf Hr) as [i Hi].
  unfold scoped_rule in Hi. destruct (pr_Endpoints rule) as [|e0 eps] eqn:Ee; [done|].
  destruct (first_error_none _ _ _ _ Hi He) as [j Hj]. unfold scoped_endpoint in Hj.
  destruct (githubRepoFromScopedEndpoint ep) as [repo|] eqn:Es; [|done].
  exists repo. destruct (githubRepoPathPattern repo) eqn:Ep; [|done].
  split; [done|by apply scoped_endpoint_path].
Qed.

(** C6. A grant that passed the repository-scope check never lets a request
    through, directly or pending approval, unless one of its own allow or approve
    endpoints matches it, and that endpoint names a syntactically valid repository
    literally: in version 1 the endpoint as written, in version 2 the endpoint
    compiled for the lower-cased repository of the grant. *)
Theorem repo_scope_confines rl configJSON id method path body now :
  ValidateGitHubRepoScopePermissionConfig configJSON = None ->
  positive (snd (Check rl configJSON id method path body now)) = true ->
  exists config rule ep repo,
    ParsePermissionConfig configJSON = Ok config /\ In rule (pc_Rules config) /\
    In ep (pr_Endpoints rule) /\ (ep_Allow ep = true \/ ep_Approve ep = true) /\
    matchEndpoint "github" ep method path = true /\ githubRepoPathPattern repo = true /\
    (scoped_to repo (TrimSpace (ep_Path ep)) \/ scoped_to (ToLower repo) (ep_Path ep)).
Proof.
  unfold ValidateGitHubRepoScopePermissionConfig, Check.
  destruct (TrimSpace configJSON ==s "") eqn:Eb; [done|].
  destruct (configJSON ==s "") eqn:E0; [bool_to_prop; subst; done|].
  destruct (ParsePermissionConfig configJSON) as [config|] eqn:Ep; [|done].
  destruct (pc_Provider config !=s "github") eqn:Epr; [done|].
  assert (pc_Provider config = "github") as Hpr by (by bool_to_prop).
  destruct (ParsePermissionConfig_cases _ _ Ep) as [Hv|(repos & eps & Hc & ->)].
  - rewrite Hv. change ("1" ==s "2") with false. cbv iota. destruct (pc_Rules config) as [|r0 rules] eqn:Er; [done|].
    destruct (pr_DenyAllOther _) eqn:Ed; [|done]. cbn [negb].
    destruct (first_error scoped_rule 0 _) eqn:Ef; [done|]. intros _ Hp.
    apply check_rules_positive in Hp as (rule & ep & Hr & He & Hm & Ha); [|done|exact Ed].
    destruct (scoped_rules_endpoints _ _ _ Ef Hr He) as (repo & ? & ?).
    exists config, rule, ep, repo. rewrite Er. rewrite Hpr in Hm. tauto.
  - intros _ Hp. cbn [pc_Rules pc_Provider] in *.
    apply check_rules_positive in Hp as (rule & ep & Hr & He & Hm & Ha); [|done|done].
    destruct Hr as [<-|[]]. cbn [pr_Endpoints] in He.
    apply compile_repositories_compiled in Hc. rewrite List.Forall_forall in Hc.
    destruct (Hc ep He) as [[]|(repo & pol & ? & ? & ? & _)].
    eexists _, _, ep, repo. split; [reflexivity|]. split; [by left|]. tauto.
Qed.

End ScopeTheorems.

(** ** Concrete instances *)

Section PermissionWitnesses.
#[local] Existing Instance latin_case.

Definition demo_rule : PermissionRule :=
  mkPermRule "app"
    [mkEndpoint "GET" "/repos/Acme/app/*" true false None;
     mkEndpoint "POST" "/repos/Acme/app/pulls" false true None;
     mkEndpoint "POST" "/repos/Acme/app/issues" true false
       (Some (mkConstraints (Some [("title", mkField [] [] None None false true)]) None))]
    None true [] [].
Definition demo_config : PermissionConfig := mkConfig "1" "github" [demo_rule].

(** A decoder that knows one text. *)
Definition demo_json : ConfigJSON.
Proof.
  refine {| decode_header s := if s ==s "{v1}" then Some "1" else None;
            decode_v1 s := if s ==s "{v1}" then Some demo_config else None;
            decode_v2 s := None |}.
  - intros s. destruct (s ==s "{v1}") eqn:E; [|done]. bool_to_prop. subst. discriminate.
  - intros s c. by destruct (s ==s "{v1}"); [intros [= <-]|].
Defined.
#[local] Existing Instance demo_json.

Lemma checkRule_spec_witness :
  snd (checkRule ∅ "github" demo_rule "t" "POST" "/repos/acme/app/pulls" "" false 0) =
  mkResult false (EndpointNeedsApproval "POST" "/repos/acme/app/pulls" "app") true "app".
Proof. rewrite checkRule_spec; vm_compute; reflexivity. Defined.

Lemma body_not_required_witness :
  Check ∅ "{v1}" "t" "GET" "/repos/acme/app/pulls" "x" 0 =
  Check ∅ "{v1}" "t" "GET" "/repos/acme/app/pulls" "y" 0.
Proof. apply body_not_required_sound. vm_compute. reflexivity. Defined.

Lemma ParseGitHubBranchPolicies_witness :
  let '(cache', r) := ParseGitHubBranchPolicies ∅ "{v1}" in
  cache_ok cache' /\ r = GitHubBranchPoliciesFromConfig "{v1}".
Proof. apply ParseGitHubBranchPolicies_coherent, cache_ok_empty. Defined.

Lemma window_witness :
  run_window ∅ "t" "minute" minute_ns 2 [0; 5; 9]%Z = [true; true; false].
Proof.
  rewrite (window_admits_exactly_limit "t" "minute" minute_ns 2 0 [5; 9]%Z).
  - vm_compute. reflexivity.
  - vm_compute. discriminate.
  - repeat constructor; vm_compute; discriminate.
Defined.

Lemma repo_scope_confines_witness :
  exists config rule ep repo,
    ParsePermissionConfig "{v1}" = Ok config /\ In rule (pc_Rules config) /\
    In ep (pr_Endpoints rule) /\ (ep_Allow ep = true \/ ep_Approve ep = true) /\
    matchEndpoint "github" ep "GET" "/repos/acme/app/pulls" = true /\
    githubRepoPathPattern repo = true /\
    (scoped_to repo (TrimSpace (ep_Path ep)) \/ scoped_to (ToLower repo) (ep_Path ep)).
Proof.
  apply (repo_scope_confines ∅ "{v1}" "t" "GET" "/repos/acme/app/pulls" "" 0);
    vm_compute; reflexivity.
Defined.
End PermissionWitnesses.
