(* ===== verification/ReceivePack.v ===== *)
(** * The git push wire format: [internal/server/handlers/git_receive_pack.go]

    The command section of a git-receive-pack request is read packet by packet
    and kept so that it can be replayed; a refused push is answered with a
    report-status body, in side-band packets when the client asked for them.
    A reader is the string of the bytes it still holds.  [OutOfFuel] marks a loop
    that was cut short; [parse_prefix] shows it is never returned. *)

From S2P Require Import Prelude GoStrings GoLib.
Local Open Scope go_scope.
Local Open Scope Z_scope.

Definition receivePackMaxCommandBytes : Z := 1048576.
Definition receivePackMaxCommands : Z := 1000.
Definition receivePackMaxPktPayload : Z := 65516.

Record receivePackCommand := mkCommand {
  cmd_Old : string;
  cmd_New : string;
  cmd_Ref : string;
}.

Record receivePackRequest := mkReceivePack {
  rp_Commands : list receivePackCommand;
  rp_Caps : gset string;
  rp_Prefix : string;
}.

Inductive rp_error :=
| Truncated
| MalformedLength
| UnsupportedPkt
| OversizePkt
| SectionTooLarge (max : Z)
| PushCert
| MalformedCommand
| TooManyCommands (max : Z)
| OutOfFuel.

Definition NUL : ascii := "000".
Definition LF : ascii := "010".
Definition newline : string := String LF "".

(** ** Object ids *)

Definition isZeroOID (s : string) : bool := TrimByte s "0" ==s "".

Definition isCreate (c : receivePackCommand) : bool :=
  isZeroOID (cmd_Old c) && negb (isZeroOID (cmd_New c)).

Definition isHexDigit (c : ascii) : bool :=
  in_range 48 57 (byteN c) || in_range 97 102 (byteN c) || in_range 65 70 (byteN c).

Definition isHexOID (s : string) : bool :=
  ((slen s =? 40)%nat || (slen s =? 64)%nat) && str_forall isHexDigit s.

(** ** Parsing the command section *)

(** [strconv.ParseUint(s, 16, 32)] of four hexadecimal digits. *)
Definition hex_digit_val (c : ascii) : Z := Z.of_N (default 0%N (hex_val c)).
Fixpoint hex_num (acc : Z) (s : string) : Z :=
  match s with
  | EmptyString => acc
  | String c s' => hex_num (16 * acc + hex_digit_val c) s'
  end.

Inductive line_outcome :=
| LineSkip
| LineCommand (c : receivePackCommand)
| LineError (e : rp_error).

(** One packet: the capabilities it announces and what the line is. *)
Definition parse_line (payload : string) : gset string * line_outcome :=
  let line := TrimSuffix payload newline in
  let '(head, capsStr, hasCaps) := Cut line NUL in
  (if hasCaps then list_to_set (Fields capsStr) else ∅,
   if HasPrefix head "shallow " then LineSkip
   else if (head ==s "push-cert") || HasPrefix head "push-cert" then LineError PushCert
   else match SplitN head " " 3 with
        | [old; new; ref] =>
            if isHexOID old && isHexOID new && (slen old =? slen new)%nat && (ref !=s "")
            then LineCommand (mkCommand old new ref) else LineError MalformedCommand
        | _ => LineError MalformedCommand
        end).

(** The loop: result, and what is left in the reader. *)
Fixpoint parse_loop (fuel : nat) (maxBytes maxCommands : Z) (out : receivePackRequest) (r : string)
  : result rp_error receivePackRequest * string :=
  match fuel with
  | O => (Err OutOfFuel, r)
  | S fuel' =>
      if (slen r <? 4)%nat then (Err Truncated, "")
      else
        let hdr := str_take 4 r in
        let r1 := str_drop 4 r in
        let consumed := rp_Prefix out +:+ hdr in
        if negb (str_forall isHexDigit hdr) then (Err MalformedLength, r1)
        else
          let n := hex_num 0 hdr in
          if n =? 0 then (Ok (mkReceivePack (rp_Commands out) (rp_Caps out) consumed), r1)
          else if n <? 4 then (Err UnsupportedPkt, r1)
          else if 65520 <? n then (Err OversizePkt, r1)
          else if maxBytes <? zlen consumed + n - 4 then (Err (SectionTooLarge maxBytes), r1)
          else if zlen r1 <? n - 4 then (Err Truncated, "")
          else
            let payload := str_take (Z.to_nat (n - 4)) r1 in
            let r2 := str_drop (Z.to_nat (n - 4)) r1 in
            let '(caps, o) := parse_line payload in
            let next cmds :=
              parse_loop fuel' maxBytes maxCommands
                (mkReceivePack cmds (rp_Caps out ∪ caps) (consumed +:+ payload)) r2 in
            match o with
            | LineSkip => next (rp_Commands out)
            | LineError e => (Err e, r2)
            | LineCommand c =>
                if maxCommands <=? Z.of_nat (length (rp_Commands out))
                then (Err (TooManyCommands maxCommands), r2)
                else next (rp_Commands out ++ [c])
            end
  end.

Definition parseReceivePackCommands (r : string) (maxBytes maxCommands : Z)
  : result rp_error receivePackRequest * string :=
  parse_loop (S (slen r)) maxBytes maxCommands (mkReceivePack [] ∅ "") r.

(** ** The refusal *)

(** Step back from byte [cut] to the start of a rune. *)
Fixpoint rune_cut (s : string) (cut : nat) : nat :=
  match cut with
  | O => O
  | S cut' =>
      match String.get cut s with
      | Some c => if RuneStart c then cut else rune_cut s cut'
      | None => cut
      end
  end.

Definition receivePackNgLine (ref0 reason0 : string) : string :=
  let ref := if (1024 <? slen ref0)%nat then str_take 1024 ref0 +:+ "..." else ref0 in
  let reason1 := ReplaceByte reason0 LF " " in
  let prefix := "ng " +:+ ref +:+ " duckway: " in
  let room := receivePackMaxPktPayload - zlen prefix - 1 in
  let reason := if room <? zlen reason1
                then str_take (rune_cut reason1 (Z.to_nat room)) reason1 else reason1 in
  prefix +:+ reason +:+ newline.

(** [%04x]. *)
Definition hex_char (d : Z) : ascii :=
  Nbyte (Z.to_N (if d <? 10 then 48 + d else 87 + d)).
Fixpoint hex_w (w : nat) (n : Z) : string :=
  match w with
  | O => ""
  | S w' => hex_w w' (n / 16) +:+ String (hex_char (n mod 16)) ""
  end.
Definition fmt04x (n : Z) : string := hex_w (Nat.max 4 (Z.to_nat (Z.log2 n / 4 + 1))) n.

Definition pktLine (s : string) : string := fmt04x (zlen s + 4) +:+ s.

Definition default_ng : string := "another ref in this push was refused".

(** [reasons[i]] panics when the slice is short; the caller passes one reason per
    command, and a short list yields [None]. *)
Fixpoint ng_lines (cmds : list receivePackCommand) (reasons : list string) : option (list string) :=
  match cmds, reasons with
  | [], _ => Some []
  | c :: cmds', r :: reasons' =>
      option_map (cons (receivePackNgLine (cmd_Ref c) (if r ==s "" then default_ng else r)))
        (ng_lines cmds' reasons')
  | _ :: _, [] => None
  end.

Definition concat_str (l : list string) : string := fold_right (fun s t => s +:+ t) "" l.

Definition flush_pkt : string := "0000".

Definition report_lines (lines : list string) : string :=
  concat_str (map pktLine (("unpack ok" +:+ newline) :: lines)) +:+ flush_pkt.

(** The chunk loop of the side-band encoding. *)
Fixpoint side_band (fuel : nat) (maxData : Z) (data : string) : option string :=
  match fuel with
  | O => None
  | S fuel' =>
      if data ==s "" then Some ""
      else
        let chunk := if maxData <? zlen data then str_take (Z.to_nat maxData) data else data in
        match side_band fuel' maxData (str_drop (slen chunk) data) with
        | Some rest => Some (fmt04x (zlen chunk + 5) +:+ String "001" chunk +:+ rest)
        | None => None
        end
  end.

Definition has_cap (caps : gset string) (c : string) : bool := bool_decide (c ∈ caps).

Definition receivePackRejectionBody (req : receivePackRequest) (reasons : list string)
  : option string :=
  match ng_lines (rp_Commands req) reasons with
  | None => None
  | Some lines =>
      let report := report_lines lines in
      if negb (has_cap (rp_Caps req) "side-band-64k") && negb (has_cap (rp_Caps req) "side-band")
      then Some report
      else
        let maxData := if has_cap (rp_Caps req) "side-band-64k" then 65515 else 995 in
        option_map (fun out => out +:+ flush_pkt) (side_band (S (slen report)) maxData report)
  end.

Record response := mkResponse {
  rs_status : Z;
  rs_contentType : string;
  rs_body : string;
}.

Definition writeReceivePackRefusal (req : option receivePackRequest) (reasons : list string)
    (fallback : string) : option response :=
  let plain := Some (mkResponse 403 "text/plain; charset=utf-8"
                       ("duckway: " +:+ fallback +:+ newline)) in
  match req with
  | None => plain
  | Some q =>
      if negb (has_cap (rp_Caps q) "report-status") && negb (has_cap (rp_Caps q) "report-status-v2")
      then plain
      else option_map (mkResponse 200 "application/x-git-receive-pack-result")
             (receivePackRejectionBody q reasons)
  end.

(** ** Theorems: parsing *)

Definition wf_command (c : receivePackCommand) : bool :=
  isHexOID (cmd_Old c) && isHexOID (cmd_New c) && (slen (cmd_Old c) =? slen (cmd_New c))%nat
  && (cmd_Ref c !=s "").

Lemma parse_line_wf payload caps c :
  parse_line payload = (caps, LineCommand c) -> wf_command c = true.
Proof.
  unfold parse_line. destruct (Cut _ _) as [[head capsStr] has].
  destruct (HasPrefix head "shallow "); [done|]. destruct (_ || _); [done|].
  destruct (SplitN _ _ _) as [|a [|b [|r [|]]]]; try done.
  destruct (_ && _) eqn:E; [|done]. intros [= <- <-]. exact E.
Qed.

Lemma slen_take_le (n : nat) (s : string) : (n <= slen s)%nat -> slen (str_take n s) = n.
Proof. intros H. rewrite slen_take. lia. Qed.

(** What holds of the request under construction. *)
Record parse_inv (maxBytes maxCommands : Z) (out : receivePackRequest) : Prop := {
  pi_bytes : zlen (rp_Prefix out) <= Z.max 0 maxBytes;
  pi_count : Z.of_nat (length (rp_Commands out)) <= Z.max 0 maxCommands;
  pi_wf : Forall (fun c => wf_command c = true) (rp_Commands out);
}.

(** One lemma for the loop: it ends, and whatever it accepts splits the input
    exactly and keeps the bounds. *)
Lemma parse_loop_inv fuel maxBytes maxCommands out r :
  (slen r < fuel)%nat -> parse_inv maxBytes maxCommands out ->
  let '(res, rest) := parse_loop fuel maxBytes maxCommands out r in
  res <> Err OutOfFuel /\
  forall q, res = Ok q ->
    rp_Prefix out +:+ r = rp_Prefix q +:+ rest /\
    zlen (rp_Prefix q) <= Z.max 0 maxBytes + 4 /\
    Z.of_nat (length (rp_Commands q)) <= Z.max 0 maxCommands /\
    Forall (fun c => wf_command c = true) (rp_Commands q).
Proof.
  revert out r. induction fuel as [|fuel IH]; intros out r Hf Hinv; [lia|]. cbn [parse_loop].
  destruct (slen r <? 4)%nat eqn:E4; [done|]. bool_to_prop.
  assert (slen (str_take 4 r) = 4%nat) as Hh by (apply slen_take_le; lia).
  destruct (str_forall isHexDigit _); cbn [negb]; [|done].
  set (hdr := str_take 4 r) in *. set (n := hex_num 0 hdr).
  assert (Hr : hdr +:+ str_drop 4 r = r) by apply str_take_drop.
  assert (Hl : slen (str_drop 4 r) = (slen r - 4)%nat) by apply slen_drop.
  destruct Hinv as [Hb Hc Hw].
  assert (zlen (rp_Prefix out +:+ hdr) = zlen (rp_Prefix out) + 4) as Hz
    by (rewrite zlen_app; unfold zlen; lia).
  destruct (n =? 0) eqn:En.
  { split; [done|]. intros q [= <-]. cbn [rp_Prefix rp_Commands]. rewrite <- str_app_assoc, Hr.
    repeat split; auto; lia. }
  destruct (n <? 4) eqn:En4; [done|]. destruct (65520 <? n); [done|].
  destruct (maxBytes <? _) eqn:Em; [done|]. destruct (zlen _ <? _) eqn:El; [done|]. bool_to_prop.
  destruct (parse_line _) as [caps o] eqn:Ep.
  set (payload := str_take (Z.to_nat (n - 4)) (str_drop 4 r)) in *.
  assert (slen payload = Z.to_nat (n - 4)) as Hpl by (apply slen_take_le; unfold zlen in El; lia).
  assert (Hp2 : payload +:+ str_drop (Z.to_nat (n - 4)) (str_drop 4 r) = str_drop 4 r)
    by apply str_take_drop.
  assert (Hnext : forall cmds, Z.of_nat (length cmds) <= Z.max 0 maxCommands ->
    Forall (fun c => wf_command c = true) cmds ->
    let '(res, rest) := parse_loop fuel maxBytes maxCommands
        (mkReceivePack cmds (rp_Caps out ∪ caps) ((rp_Prefix out +:+ hdr) +:+ payload))
        (str_drop (Z.to_nat (n - 4)) (str_drop 4 r)) in
    res <> Err OutOfFuel /\ forall q, res = Ok q ->
    rp_Prefix out +:+ r = rp_Prefix q +:+ rest /\ zlen (rp_Prefix q) <= Z.max 0 maxBytes + 4 /\
    Z.of_nat (length (rp_Commands q)) <= Z.max 0 maxCommands /\
    Forall (fun c => wf_command c = true) (rp_Commands q)).
  { intros cmds Hcl Hcw.
    pose proof (IH (mkReceivePack cmds (rp_Caps out ∪ caps) ((rp_Prefix out +:+ hdr) +:+ payload))
      (str_drop (Z.to_nat (n - 4)) (str_drop 4 r))) as H.
    rewrite !slen_drop in H. cbn [rp_Prefix] in H. rewrite <- !str_app_assoc, Hp2, Hr in H.
    rewrite <- !str_app_assoc. apply H; [lia|]. split; cbn [rp_Prefix rp_Commands]; auto.
    rewrite str_app_assoc, zlen_app, Hz. unfold zlen at 2. lia. }
  destruct o as [|c|e]; [by apply Hnext| |].
  - destruct (maxCommands <=? _) eqn:Ec; [done|]. bool_to_prop. apply Hnext.
    + rewrite length_app. simpl. lia.
    + apply Forall_app. split; [done|]. constructor; [|done]. by eapply parse_line_wf.
  - split; [|done]. unfold parse_line in Ep. destruct (Cut _ _) as [[head cs] has].
    repeat case_hyp Ep; congruence.
Qed.

Lemma parseReceivePackCommands_inv (body : string) (maxBytes maxCommands : Z) :
  let '(res, rest) := parseReceivePackCommands body maxBytes maxCommands in
  res <> Err OutOfFuel /\
  forall q, res = Ok q ->
    body = rp_Prefix q +:+ rest /\
    zlen (rp_Prefix q) <= Z.max 0 maxBytes + 4 /\
    Z.of_nat (length (rp_Commands q)) <= Z.max 0 maxCommands /\
    Forall (fun c => wf_command c = true) (rp_Commands q).
Proof.
  unfold parseReceivePackCommands.
  pose proof (parse_loop_inv (S (slen body)) maxBytes maxCommands (mkReceivePack [] ∅ "") body) as H.
  rewrite str_app_nil_l in H. apply H; [lia|].
  split; cbn [rp_Prefix rp_Commands zlen]; [|simpl; lia|constructor]. unfold zlen. simpl. lia.
Qed.

(** Reading the command section always ends, takes nothing beyond the flush
    packet away from the pack (the bytes to be replayed followed by the unread
    rest are the request body), stays within the byte and command bounds, and
    yields only well-formed commands. *)
Theorem parse_prefix (body : string) (maxBytes maxCommands : Z) :
  let '(res, rest) := parseReceivePackCommands body maxBytes maxCommands in
  res <> Err OutOfFuel /\
  forall q, res = Ok q ->
    body = rp_Prefix q +:+ rest /\
    zlen (rp_Prefix q) <= Z.max 0 maxBytes + 4 /\
    Z.of_nat (length (rp_Commands q)) <= Z.max 0 maxCommands /\
    Forall (fun c => wf_command c = true) (rp_Commands q).
Proof. apply parseReceivePackCommands_inv. Qed.

(** ** Theorems: packets *)

Lemma hex_char_ok (d : Z) :
  0 <= d < 16 -> isHexDigit (hex_char d) = true /\ hex_digit_val (hex_char d) = d.
Proof.
  intros H. assert (In d (map Z.of_nat (seq 0 16))) as Hin.
  { apply in_map_iff. exists (Z.to_nat d). rewrite in_seq. lia. }
  simpl in Hin. repeat (destruct Hin as [<-|Hin]; [by vm_compute|]). done.
Qed.

Lemma fmt04x_eq (n : Z) : 0 <= n < 65536 -> fmt04x n = hex_w 4 n.
Proof.
  intros H. unfold fmt04x. f_equal.
  assert (Z.log2 n < 16) as Hl.
  { destruct (Z.eq_dec n 0) as [->|]; [simpl; lia|]. apply Z.log2_lt_pow2; simpl; lia. }
  pose proof (Z.log2_nonneg n) as Hn.
  assert (Z.log2 n / 4 < 4) by (apply Z.div_lt_upper_bound; lia). lia.
Qed.

Lemma hex_w_4 (n : Z) :
  hex_w 4 n = String (hex_char (n / 16 / 16 / 16 mod 16)) (String (hex_char (n / 16 / 16 mod 16))
    (String (hex_char (n / 16 mod 16)) (String (hex_char (n mod 16)) ""))).
Proof. reflexivity. Qed.

Lemma fmt04x_spec (n : Z) :
  0 <= n < 65536 ->
  slen (fmt04x n) = 4%nat /\ str_forall isHexDigit (fmt04x n) = true /\ hex_num 0 (fmt04x n) = n.
Proof.
  intros H. rewrite fmt04x_eq, hex_w_4 by done.
  destruct (hex_char_ok (n / 16 / 16 / 16 mod 16) ltac:(apply Z.mod_pos_bound; lia)) as [A1 A2].
  destruct (hex_char_ok (n / 16 / 16 mod 16) ltac:(apply Z.mod_pos_bound; lia)) as [B1 B2].
  destruct (hex_char_ok (n / 16 mod 16) ltac:(apply Z.mod_pos_bound; lia)) as [C1 C2].
  destruct (hex_char_ok (n mod 16) ltac:(apply Z.mod_pos_bound; lia)) as [D1 D2].
  split; [done|]. cbn [str_forall hex_num]. rewrite A1, B1, C1, D1, A2, B2, C2, D2. split; [done|].
  Z.to_euclidean_division_equations. lia.
Qed.

(** A reader of packets: payloads up to the flush packet, and the rest. *)
Fixpoint read_pkts (fuel : nat) (r : string) : option (list string * string) :=
  match fuel with
  | O => None
  | S fuel' =>
      if (slen r <? 4)%nat || negb (str_forall isHexDigit (str_take 4 r)) then None
      else
        let n := hex_num 0 (str_take 4 r) in
        let r1 := str_drop 4 r in
        if n =? 0 then Some ([], r1)
        else if (n <? 4) || (65520 <? n) || (zlen r1 <? n - 4) then None
        else match read_pkts fuel' (str_drop (Z.to_nat (n - 4)) r1) with
             | Some (ps, rest) => Some (str_take (Z.to_nat (n - 4)) r1 :: ps, rest)
             | None => None
             end
  end.

Definition pkt_fits (s : string) : Prop := zlen s <= receivePackMaxPktPayload.

(** Splitting a packet off a reader. *)
Lemma pktLine_split (s r : string) :
  pkt_fits s ->
  let n := zlen s + 4 in
  (4 <= slen (pktLine s +:+ r))%nat /\ str_forall isHexDigit (str_take 4 (pktLine s +:+ r)) = true /\
  hex_num 0 (str_take 4 (pktLine s +:+ r)) = n /\
  str_take 4 (pktLine s +:+ r) = fmt04x n /\ str_drop 4 (pktLine s +:+ r) = s +:+ r /\ 4 <= n <= 65520.
Proof.
  intros Hs. cbv zeta. unfold pkt_fits, receivePackMaxPktPayload in Hs.
  pose proof (zlen_nonneg s). destruct (fmt04x_spec (zlen s + 4)) as (Hl & Hd & Hn); [lia|].
  unfold pktLine. rewrite <- str_app_assoc.
  assert (str_take 4 (fmt04x (zlen s + 4) +:+ s +:+ r) = fmt04x (zlen s + 4)) as ->
    by (rewrite <- Hl at 1; apply str_take_app).
  assert (str_drop 4 (fmt04x (zlen s + 4) +:+ s +:+ r) = s +:+ r) as ->
    by (rewrite <- Hl at 1; apply str_drop_app).
  rewrite slen_app, Hl. repeat split; auto; lia.
Qed.

Lemma pkt_payload (s r : string) :
  str_take (Z.to_nat (zlen s + 4 - 4)) (s +:+ r) = s /\
  str_drop (Z.to_nat (zlen s + 4 - 4)) (s +:+ r) = r.
Proof.
  replace (Z.to_nat (zlen s + 4 - 4)) with (slen s) by (unfold zlen; lia).
  by rewrite str_take_app, str_drop_app.
Qed.

Lemma read_pkts_concat (fuel : nat) (ps : list string) (r : string) :
  Forall pkt_fits ps -> (length ps < fuel)%nat ->
  read_pkts fuel (concat_str (map pktLine ps) +:+ flush_pkt +:+ r) = Some (ps, r).
Proof.
  intros H. revert fuel. induction H as [|s ps Hs _ IH]; intros [|fuel] Hf; simpl in Hf; try lia.
  - by destruct r.
  - cbn [map concat_str fold_right]. change (fold_right _ "" (map pktLine ps)) with
      (concat_str (map pktLine ps)). rewrite <- str_app_assoc.
    set (r' := concat_str (map pktLine ps) +:+ flush_pkt +:+ r) in *.
    destruct (pktLine_split s r' Hs) as (Hl & Hd & Hn & _ & Hr & Hb). cbv zeta in *.
    cbn [read_pkts]. rewrite Hd, Hn, Hr.
    destruct (slen _ <? 4)%nat eqn:E; [bool_to_prop; lia|]. cbn [orb negb].
    destruct (zlen s + 4 =? 0) eqn:E0; [bool_to_prop; lia|].
    destruct (zlen s + 4 <? 4) eqn:E1; [bool_to_prop; lia|].
    destruct (65520 <? zlen s + 4) eqn:E2; [bool_to_prop; lia|].
    destruct (zlen (s +:+ r') <? zlen s + 4 - 4) eqn:E3.
    { bool_to_prop. rewrite zlen_app in E3. pose proof (zlen_nonneg r'). lia. }
    cbn [orb]. destruct (pkt_payload s r') as [-> ->]. rewrite IH by lia. done.
Qed.

(** ** Theorems: a request parses back to its commands *)

Definition command_head (c : receivePackCommand) : string :=
  cmd_Old c +:+ String " " (cmd_New c +:+ String " " (cmd_Ref c)).

(** The lines of a push as git sends them: capabilities after a NUL on the first. *)
Definition push_lines (c : receivePackCommand) (caps : string) (cs : list receivePackCommand)
  : list string :=
  (command_head c +:+ String NUL caps) :: map command_head cs.

Definition encode_push (c : receivePackCommand) (caps : string) (cs : list receivePackCommand)
  : string := concat_str (map pktLine (push_lines c caps cs)).

(** A command git can send: well formed, the ref free of NUL and line feed. *)
Definition sendable (c : receivePackCommand) : Prop :=
  wf_command c = true /\ ContainsByte (cmd_Ref c) NUL = false /\ ContainsByte (cmd_Ref c) LF = false.

Lemma str_forall_no_byte (f : ascii -> bool) (s : string) (c : ascii) :
  f c = false -> str_forall f s = true -> ContainsByte s c = false.
Proof.
  intros Hc. induction s as [|d s IH]; [done|]. cbn [str_forall]. intros [Hd Hs]%andb_true_iff.
  rewrite ContainsByte_cons, (IH Hs), orb_false_r. apply Ascii.eqb_neq. intros ->. congruence.
Qed.

Lemma hexoid_no_byte (s : string) (c : ascii) :
  isHexOID s = true -> isHexDigit c = false -> ContainsByte s c = false.
Proof. intros [_ H]%andb_true_iff Hc. by apply (str_forall_no_byte isHexDigit). Qed.

Lemma no_trailing_byte (s : string) (c : ascii) :
  ContainsByte s c = false -> TrimSuffix s (String c "") = s.
Proof.
  intros H. unfold TrimSuffix. destruct (HasSuffix s _) eqn:E; [|done].
  apply HasSuffix_spec in E as [t ->]. rewrite ContainsByte_app, ContainsByte_cons in H.
  rewrite Ascii.eqb_refl in H. by rewrite orb_true_r in H.
Qed.

Lemma hexoid_cons (s : string) : isHexOID s = true -> exists c s', s = String c s' /\ isHexDigit c = true.
Proof.
  unfold isHexOID. destruct s as [|c s]; [done|]. cbn [str_forall]. intros H. bool_to_prop. eauto.
Qed.

Lemma no_hex_prefix (c : ascii) (p s t : string) :
  isHexOID s = true -> isHexDigit c = false -> HasPrefix (s +:+ t) (String c p) = false.
Proof.
  intros (d & s' & -> & Hd)%hexoid_cons Hc. rewrite str_app_cons. cbn [HasPrefix].
  destruct (c ==c d) eqn:E; [|done]. bool_to_prop. congruence.
Qed.

Lemma command_head_no_byte (c : receivePackCommand) (b : ascii) :
  wf_command c = true -> ContainsByte (cmd_Ref c) b = false -> isHexDigit b = false ->
  (b ==c " ") = false -> ContainsByte (command_head c) b = false.
Proof.
  unfold wf_command, command_head. intros H Hr Hb Hs. bool_to_prop.
  rewrite !ContainsByte_app, !ContainsByte_cons, !ContainsByte_app, !ContainsByte_cons.
  rewrite !hexoid_no_byte, Hr by done. apply Ascii.eqb_neq in Hs. by rewrite Hs.
Qed.

(** The head of a sendable command parses to it. *)
Lemma parse_head (c : receivePackCommand) (head : string) :
  sendable c -> head = command_head c ->
  (if HasPrefix head "shallow " then LineSkip
   else if (head ==s "push-cert") || HasPrefix head "push-cert" then LineError PushCert
   else match SplitN head " " 3 with
        | [old; new; ref] =>
            if isHexOID old && isHexOID new && (slen old =? slen new)%nat && (ref !=s "")
            then LineCommand (mkCommand old new ref) else LineError MalformedCommand
        | _ => LineError MalformedCommand
        end) = LineCommand c.
Proof.
  intros (Hw & Hn & Hl) ->. pose proof Hw as Hw'. unfold wf_command in Hw'. bool_to_prop.
  unfold command_head. rewrite !no_hex_prefix by done. rewrite orb_false_r.
  destruct (_ ==s "push-cert") eqn:E.
  { bool_to_prop. pose proof (no_hex_prefix "p" "ush-cert" (cmd_Old c)
      (String " " (cmd_New c +:+ String " " (cmd_Ref c))) ltac:(done) eq_refl) as Hp.
    rewrite E in Hp. discriminate. }
  cbn [SplitN]. rewrite Cut_found by (by apply hexoid_no_byte).
  rewrite Cut_found by (by apply hexoid_no_byte). unfold wf_command in Hw. rewrite Hw. by destruct c.
Qed.

Lemma parse_line_first (c : receivePackCommand) (caps : string) :
  sendable c -> ContainsByte caps LF = false ->
  parse_line (command_head c +:+ String NUL caps) = (list_to_set (Fields caps), LineCommand c).
Proof.
  intros Hs Hc. pose proof Hs as (Hw & Hn & Hl). unfold parse_line, newline.
  rewrite no_trailing_byte.
  - rewrite Cut_found by (by apply command_head_no_byte). by rewrite (parse_head c).
  - rewrite ContainsByte_app, ContainsByte_cons, Hc, command_head_no_byte by done. done.
Qed.

Lemma parse_line_next (c : receivePackCommand) :
  sendable c -> parse_line (command_head c) = (∅, LineCommand c).
Proof.
  intros Hs. pose proof Hs as (Hw & Hn & Hl). unfold parse_line, newline.
  rewrite no_trailing_byte by (by apply command_head_no_byte).
  rewrite Cut_not_found by (by apply command_head_no_byte). by rewrite (parse_head c).
Qed.

Lemma parse_loop_pkt fuel mb mc out s r caps c :
  pkt_fits s -> zlen (rp_Prefix out) + zlen (pktLine s) <= mb ->
  Z.of_nat (length (rp_Commands out)) < mc -> parse_line s = (caps, LineCommand c) ->
  parse_loop (S fuel) mb mc out (pktLine s +:+ r) =
  parse_loop fuel mb mc
    (mkReceivePack (rp_Commands out ++ [c]) (rp_Caps out ∪ caps) (rp_Prefix out +:+ pktLine s)) r.
Proof.
  intros Hs Hb Hc Hp. destruct (pktLine_split s r Hs) as (Hl & Hd & Hn & Ht & Hr & Hbd). cbv zeta in *.
  cbn [parse_loop]. rewrite Hd, Hn, Hr, Ht.
  destruct (slen _ <? 4)%nat eqn:E; [bool_to_prop; lia|]. cbn [negb].
  destruct (zlen s + 4 =? 0) eqn:E0; [bool_to_prop; lia|].
  destruct (zlen s + 4 <? 4) eqn:E1; [bool_to_prop; lia|].
  destruct (65520 <? zlen s + 4) eqn:E2; [bool_to_prop; lia|].
  unfold pktLine in Hb. rewrite zlen_app in Hb. rewrite zlen_app.
  destruct (mb <? _) eqn:E3; [bool_to_prop; lia|].
  destruct (zlen (s +:+ r) <? zlen s + 4 - 4) eqn:E4.
  { bool_to_prop. rewrite zlen_app in E4. pose proof (zlen_nonneg r). lia. }
  destruct (pkt_payload s r) as [-> ->]. rewrite Hp.
  destruct (mc <=? _) eqn:E5; [bool_to_prop; lia|].
  unfold pktLine. by rewrite !str_app_assoc.
Qed.

Lemma parse_loop_commands fuel mb mc out cs r :
  (length cs < fuel)%nat -> Forall sendable cs -> Forall pkt_fits (map command_head cs) ->
  zlen (rp_Prefix out) + zlen (concat_str (map pktLine (map command_head cs))) <= mb ->
  Z.of_nat (length (rp_Commands out) + length cs) <= mc ->
  parse_loop fuel mb mc out (concat_str (map pktLine (map command_head cs)) +:+ flush_pkt +:+ r) =
  (Ok (mkReceivePack (rp_Commands out ++ cs) (rp_Caps out)
         (rp_Prefix out +:+ concat_str (map pktLine (map command_head cs)) +:+ flush_pkt)), r).
Proof.
  revert fuel out. induction cs as [|c cs IH]; intros [|fuel] out Hf Hs Hp Hb Hc; simpl in Hf; try lia.
  { destruct out. rewrite app_nil_r. by destruct r. }
  inversion Hs; inversion Hp; subst. cbn [map concat_str fold_right] in *.
  change (fold_right (fun s t => s +:+ t) "" ?l) with (concat_str l) in *.
  rewrite zlen_app in Hb. cbn [length] in Hc.
  pose proof (zlen_nonneg (concat_str (map pktLine (map command_head cs)))).
  rewrite <- str_app_assoc.
  rewrite (parse_loop_pkt fuel mb mc out _ _ ∅ c); [|done|lia|lia|by apply parse_line_next].
  rewrite IH; cbn [rp_Prefix rp_Commands rp_Caps]; [|lia|done|done|rewrite zlen_app; lia|].
  - rewrite <- app_assoc, <- !str_app_assoc, union_empty_r_L. done.
  - rewrite length_app. simpl. lia.
Qed.

(** C38. A push that git sends is read back exactly: the commands in order, the
    capabilities announced after the NUL, the whole section as the prefix, and the
    pack untouched in the reader -- as long as the section and the number of
    commands are within the bounds. *)
Theorem parse_encode_push c caps cs pack mb mc :
  Forall sendable (c :: cs) -> ContainsByte caps LF = false ->
  Forall pkt_fits (push_lines c caps cs) ->
  zlen (encode_push c caps cs) <= mb -> Z.of_nat (S (length cs)) <= mc ->
  parseReceivePackCommands (encode_push c caps cs +:+ flush_pkt +:+ pack) mb mc =
  (Ok (mkReceivePack (c :: cs) (list_to_set (Fields caps)) (encode_push c caps cs +:+ flush_pkt)), pack).
Proof.
  intros Hs Hl Hp Hb Hc. inversion Hs; inversion Hp; subst. unfold parseReceivePackCommands.
  unfold encode_push, push_lines in *. cbn [map concat_str fold_right] in *.
  change (fold_right (fun s t => s +:+ t) "" ?l) with (concat_str l) in *.
  set (t := concat_str (map pktLine (map command_head cs))) in *. rewrite zlen_app in Hb.
  pose proof (zlen_nonneg t) as Ht. rewrite <- str_app_assoc.
  assert (Hlen : (length cs <= slen t)%nat).
  { unfold t. clear. induction cs as [|x cs IH]; [done|]. cbn [map concat_str fold_right length].
    change (fold_right (fun s t => s +:+ t) "" ?l) with (concat_str l).
    rewrite slen_app. unfold pktLine at 1. rewrite slen_app.
    assert (1 <= slen (command_head x))%nat; [|lia].
    unfold command_head. rewrite slen_app. simpl. lia. }
  rewrite (parse_loop_pkt _ mb mc _ _ _ (list_to_set (Fields caps)) c); cbn [rp_Prefix rp_Commands];
    [|done|unfold zlen at 1; simpl; lia|simpl; lia|by apply parse_line_first].
  assert (Hfuel : (length cs < slen (pktLine (command_head c +:+ String NUL caps) +:+
                     t +:+ flush_pkt +:+ pack))%nat)
    by (rewrite !slen_app; change (slen flush_pkt) with 4%nat; lia).
  unfold t in *. rewrite parse_loop_commands; cbn [rp_Prefix rp_Commands rp_Caps app];
    [|done|done|done|by rewrite str_app_nil_l|simpl; lia].
  rewrite str_app_nil_l, <- !str_app_assoc, union_empty_l_L. done.
Qed.

(** ** Theorems: the refusal *)

Lemma ReplaceByte_no_byte (s : string) (c d : ascii) :
  c <> d -> ContainsByte (ReplaceByte s c d) c = false.
Proof.
  intros Hne. induction s as [|x s IH]; [done|]. cbn [ReplaceByte].
  rewrite ContainsByte_cons, IH, orb_false_r. apply Ascii.eqb_neq.
  destruct (x ==c c) eqn:E; bool_to_prop; congruence.
Qed.

Lemma ContainsByte_take (n : nat) (s : string) (c : ascii) :
  ContainsByte s c = false -> ContainsByte (str_take n s) c = false.
Proof.
  intros H. rewrite <- (str_take_drop n s) in H. rewrite ContainsByte_app in H.
  by apply orb_false_iff in H as [? _].
Qed.

Lemma rune_cut_le (s : string) (n : nat) : (rune_cut s n <= n)%nat.
Proof.
  induction n as [|n IH]; [done|]. cbn [rune_cut].
  destruct (String.get (S n) s) as [c|]; [|done]. destruct (RuneStart c); lia.
Qed.

Lemma pkt_fits_take (n : nat) (s : string) : (slen (str_take n s) <= n)%nat.
Proof. rewrite slen_take. lia. Qed.

Lemma receivePackNgLine_pkt_fits (ref reason : string) : pkt_fits (receivePackNgLine ref reason).
Proof.
  unfold receivePackNgLine, pkt_fits.
  set (r := if (1024 <? slen ref)%nat then _ else _).
  assert (slen r <= 1027)%nat as Hr.
  { subst r. destruct (1024 <? slen ref)%nat eqn:E; bool_to_prop; [|lia].
    rewrite slen_app. pose proof (pkt_fits_take 1024 ref). change (slen "...") with 3%nat. lia. }
  set (p := "ng " +:+ r +:+ " duckway: ").
  assert (zlen p <= 1040) as Hp.
  { unfold p, zlen. rewrite !slen_app. simpl. lia. }
  clearbody p. rewrite !zlen_app. change (zlen newline) with 1. unfold receivePackMaxPktPayload.
  destruct (_ <? _) eqn:E; bool_to_prop; [|unfold receivePackMaxPktPayload in *; lia].
  set (k := rune_cut _ _). pose proof (rune_cut_le (ReplaceByte reason LF " ") (Z.to_nat (65516 - zlen p - 1))) as Hk.
  fold k in Hk. pose proof (pkt_fits_take k (ReplaceByte reason LF " ")) as Ht.
  assert (zlen (str_take k (ReplaceByte reason LF " ")) <= 65516 - zlen p - 1); [|lia].
  unfold zlen at 1. lia.
Qed.

(** An ng line fits one packet however long the ref and the reason are, and
    for a ref without a line feed it is a single line whatever the reason holds;
    a ref of at most 1024 bytes is echoed in full. *)
Theorem receivePackNgLine_ok (ref reason : string) :
  zlen (receivePackNgLine ref reason) <= receivePackMaxPktPayload /\
  (ContainsByte ref LF = false ->
   exists l, receivePackNgLine ref reason = l +:+ newline /\ ContainsByte l LF = false) /\
  ((slen ref <= 1024)%nat ->
   HasPrefix (receivePackNgLine ref reason) ("ng " +:+ ref +:+ " duckway: ") = true).
Proof.
  split; [apply receivePackNgLine_pkt_fits|]. unfold receivePackNgLine. split.
  - intros Hl. eexists. split; [apply str_app_assoc|].
    rewrite !ContainsByte_app. apply orb_false_iff. split.
    + apply orb_false_iff. split; [done|]. apply orb_false_iff. split; [|done].
      destruct (1024 <? slen ref)%nat; [|done].
      rewrite ContainsByte_app, ContainsByte_take by done. done.
    + destruct (_ <? _); [apply ContainsByte_take|]; by apply ReplaceByte_no_byte.
  - intros Hs. destruct (1024 <? slen ref)%nat eqn:E; [bool_to_prop; lia|]. apply HasPrefix_app.
Qed.

Lemma side_band_spec (fuel : nat) (maxData : Z) (data : string) :
  (slen data < fuel)%nat -> 0 < maxData <= 65515 ->
  exists chunks, side_band fuel maxData data = Some (concat_str (map pktLine (map (String "001") chunks))) /\
    concat_str chunks = data /\ Forall (fun c => zlen c <= maxData) chunks.
Proof.
  intros Hf Hm. revert data Hf. induction fuel as [|fuel IH]; intros data Hf; [lia|]. cbn [side_band].
  destruct (data ==s "") eqn:E; bool_to_prop.
  { subst. by exists []. }
  set (chunk := if maxData <? zlen data then _ else _).
  assert (chunk +:+ str_drop (slen chunk) data = data /\ zlen chunk <= maxData /\ (0 < slen chunk)%nat)
    as (Hc & Hz & Hp).
  { assert (0 < slen data)%nat as Hd by (destruct data; [done|simpl; lia]).
    subst chunk. destruct (maxData <? zlen data) eqn:El; bool_to_prop.
    - assert (slen (str_take (Z.to_nat maxData) data) = Z.to_nat maxData) as Hk
        by (apply slen_take_le; unfold zlen in El; lia).
      rewrite Hk, str_take_drop. unfold zlen. rewrite Hk. split; [done|lia].
    - rewrite str_drop_ge, str_app_nil_r by lia. auto. }
  destruct (IH (str_drop (slen chunk) data)) as (chunks & -> & Hj & Hb).
  { apply (f_equal slen) in Hc. rewrite slen_app in Hc. lia. }
  exists (chunk :: chunks). split; [|split].
  - cbn [map concat_str fold_right].
    assert (pktLine (String "001" chunk) = fmt04x (zlen chunk + 5) +:+ String "001" chunk) as ->.
    { unfold pktLine. do 2 f_equal. unfold zlen. cbn [slen]. lia. }
    by rewrite <- str_app_assoc, str_app_cons.
  - cbn [concat_str fold_right]. change (fold_right _ "" chunks) with (concat_str chunks).
    by rewrite Hj.
  - by constructor.
Qed.

(** What a git client makes of the body: the report's packets, taken out of
    side-band 1 when it asked for a side band. *)
Definition drop_band (s : string) : option string :=
  match s with String c d => if c ==c "001" then Some d else None | EmptyString => None end.

Definition client_report (caps : gset string) (body : string) : option (list string) :=
  let whole s := match read_pkts (S (slen s)) s with
                 | Some (ps, EmptyString) => Some ps
                 | _ => None
                 end in
  if negb (has_cap caps "side-band-64k") && negb (has_cap caps "side-band") then whole body
  else match whole body with
       | Some ps => match mapM drop_band ps with
                    | Some ds => whole (concat_str ds)
                    | None => None
                    end
       | None => None
       end.

Lemma slen_pkts (ps : list string) : (length ps <= slen (concat_str (map pktLine ps)))%nat.
Proof.
  induction ps as [|p ps IH]; [done|]. cbn [map concat_str fold_right length].
  change (fold_right (fun s t => s +:+ t) "" ?l) with (concat_str l). rewrite slen_app.
  assert (1 <= slen (pktLine p))%nat; [|lia]. unfold pktLine. rewrite slen_app.
  unfold fmt04x. destruct (Nat.max 4 _) as [|w] eqn:E; [lia|]. cbn [hex_w]. rewrite slen_app. simpl. lia.
Qed.

Lemma read_whole (ps : list string) :
  Forall pkt_fits ps ->
  read_pkts (S (slen (concat_str (map pktLine ps) +:+ flush_pkt)))
    (concat_str (map pktLine ps) +:+ flush_pkt) = Some (ps, "").
Proof.
  intros H. pose proof (read_pkts_concat (S (slen (concat_str (map pktLine ps) +:+ flush_pkt))) ps "") as R.
  rewrite !str_app_nil_r in R. apply R; [done|]. rewrite slen_app. pose proof (slen_pkts ps). lia.
Qed.

Lemma ng_lines_fit cmds reasons :
  length reasons = length cmds ->
  exists lines, ng_lines cmds reasons = Some lines /\ Forall pkt_fits lines /\
    lines = zip_with (fun c r => receivePackNgLine (cmd_Ref c) (if r ==s "" then default_ng else r))
              cmds reasons.
Proof.
  revert reasons. induction cmds as [|c cmds IH]; intros [|r reasons] Hl; try discriminate Hl.
  - by exists [].
  - injection Hl as Hl. destruct (IH _ Hl) as (lines & He & Hf & Hz). cbn [ng_lines zip_with].
    rewrite He. eexists. split; [reflexivity|]. split; [|by f_equal].
    constructor; [apply receivePackNgLine_pkt_fits|done].
Qed.

Lemma mapM_drop_band (chunks : list string) : mapM drop_band (map (String "001") chunks) = Some chunks.
Proof. induction chunks as [|c cs IH]; [done|]. cbn [map mapM]. simpl. by rewrite IH. Qed.

(** A refusal reaches the client whole: with one reason per command a body
    is always produced, and a client that undoes the side band it negotiated
    reads "unpack ok" and exactly one ng line per command, in order, each with the
    command's own reason or the default one. *)
Theorem rejection_body_readable (req : receivePackRequest) (reasons : list string) :
  length reasons = length (rp_Commands req) ->
  exists body, receivePackRejectionBody req reasons = Some body /\
    client_report (rp_Caps req) body =
    Some (("unpack ok" +:+ newline) ::
          zip_with (fun c r => receivePackNgLine (cmd_Ref c) (if r ==s "" then default_ng else r))
            (rp_Commands req) reasons).
Proof.
  intros Hl. destruct (ng_lines_fit _ _ Hl) as (lines & He & Hf & <-).
  unfold receivePackRejectionBody, client_report. rewrite He.
  assert (Forall pkt_fits (("unpack ok" +:+ newline) :: lines)) as Hall
    by (constructor; [unfold pkt_fits; vm_compute; discriminate|done]).
  destruct (negb _ && negb _).
  { eexists. split; [reflexivity|]. unfold report_lines. by rewrite read_whole. }
  set (maxData := if has_cap _ "side-band-64k" then 65515 else 995).
  assert (0 < maxData <= 65515) as Hm by (subst maxData; destruct (has_cap _ _); lia).
  destruct (side_band_spec (S (slen (report_lines lines))) maxData (report_lines lines))
    as (chunks & -> & Hj & Hb); [lia|done|].
  eexists. split; [reflexivity|]. rewrite read_whole, mapM_drop_band, Hj.
  - unfold report_lines. by rewrite read_whole.
  - apply Forall_map. eapply Forall_impl; [exact Hb|]. intros s Hs.
    unfold pkt_fits, compose, receivePackMaxPktPayload, zlen in *. cbn [slen]. lia.
Qed.

(** ** Concrete instances *)

Definition oid_a : string := "a94a8fe5ccb19ba61c4c0873d391e987982fbbd3".
Definition oid_0 : string := "0000000000000000000000000000000000000000".
Definition demo_push : receivePackCommand := mkCommand oid_0 oid_a "refs/heads/agent/x".

Lemma parse_encode_push_witness :
  parseReceivePackCommands
    (encode_push demo_push " report-status side-band-64k" [] +:+ flush_pkt +:+ "PACK") 1048576 1000 =
  (Ok (mkReceivePack [demo_push] (list_to_set (Fields " report-status side-band-64k"))
         (encode_push demo_push " report-status side-band-64k" [] +:+ flush_pkt)), "PACK").
Proof.
  apply parse_encode_push; try (vm_compute; reflexivity); try (vm_compute; discriminate).
  - constructor; [|constructor]. split; [|split]; vm_compute; reflexivity.
  - constructor; [|constructor]. vm_compute. discriminate.
Defined.

Definition demo_request : receivePackRequest := mkReceivePack [demo_push] {["side-band"]} "".

Lemma rejection_body_witness :
  exists body, receivePackRejectionBody demo_request ["no"] = Some body /\
    client_report (rp_Caps demo_request) body =
    Some (("unpack ok" +:+ newline) ::
          zip_with (fun c r => receivePackNgLine (cmd_Ref c) (if r ==s "" then default_ng else r))
            (rp_Commands demo_request) ["no"]).
Proof. apply rejection_body_readable. reflexivity. Defined.
