(* ===== verification/RefGuard.v ===== *)
(** * Branch-rule enforcement: [internal/server/handlers/github_ref_guard.go]

    The guard runs after the ACL allowed a GitHub request: it finds the
    repository and the operation behind the request and decides it by the
    repository's branch policy.  A refusal is a value of [refusal] ([None] is the
    empty Go string, "allowed").  The default-branch lookup [def] is the result
    its one call yields; [guardEval] is the evaluator's mutable state. *)

From S2P Require Import Prelude GoStrings GoLib GoJSON BranchRules Permission ReceivePack.
Local Open Scope go_scope.

(** ** Operations *)

Inductive githubRESTOp :=
| opNone | opRefCreate | opRefWrite | opRefOther | opContents | opMerges
| opReleaseCreate | opReleaseUpdate | opPullCreate | opPullUpdate | opPullMerge
| opReview | opReviewEvent | opDispatch.

Definition needsBody (op : githubRESTOp) : bool :=
  match op with
  | opRefCreate | opContents | opMerges | opReleaseCreate | opReleaseUpdate
  | opPullCreate | opPullUpdate | opReview | opReviewEvent | opDispatch => true
  | _ => false
  end.

Inductive requirement := NeedAgent | NeedBase | NeedWorkflows.

Inductive refusal :=
| DefaultUnknown
| BranchNameProblem (problem : string)
| BranchAmbiguous (name prefix : string)
| BranchTooLong
| BranchEmpty
| BranchInvalid
| NotABranch (name : string)
| BranchRole (branch role : string) (what : requirement)
| TagTooLong
| TagInvalid
| TagNotAllowed (tag : string)
| EndpointNotCovered
| RefsUnsupported
| RefPathUnknown
| TagImmutable (ref : string)
| OnlyBranches
| MergeNotPermitted
| ApproveNotPermitted
| BodyNotObject
| FieldMustBeString (field : string)
| FieldMissing (field : string)
| RefNeither (ref : string)
| DispatchOnTag
| RefTooLong
| RefInvalid (ref problem : string)
| RefOutside (ref : string).

(** Reasons a guard carries before any rule is looked at. *)
Inductive guard_deny :=
| DenyNothing | DenyGraphQL | DenyRepositoryID | DenyUnresolved | DenyOverride | DenySmartRead.

Record githubGuard := mkGuard {
  g_repo : string;
  g_policy : GitHubRepoBranchPolicy;
  g_deny : guard_deny;
  g_method : string;
  g_rest : list string;
  g_restOK : bool;
  g_body : string;
  g_receivePack : bool;
  g_rp : option receivePackRequest;
}.

Inductive lookup_error := errDefaultDeferred | LookupFailed | EmptyDefault.

Record guardEval := mkEval {
  ge_cached : string;
  ge_err : option lookup_error;
  ge_have : bool;
}.
Definition freshEval : guardEval := mkEval "" None false.

Definition zero_repo_policy : GitHubRepoBranchPolicy := mkRepoPolicy (mkPolicy [] []) false false.

Section Guard.
Context `{UC : UnicodeCase} `{CJ : ConfigJSON}.

(** ** From the path to the repository *)

(** Owner and repository in front of a smart-HTTP suffix. *)
Definition smartRepo (upstreamPath suffix : string) : option string :=
  let r := ToLower (TrimPrefix (TrimSuffix upstreamPath suffix) "/") in
  match Split r "/" with
  | [o; n] => if (o !=s "") && (n !=s "") then Some r else None
  | _ => None
  end.

(** repo, rest, receivePack, restOK, smartRead. *)
Definition githubRepoAndRest (method upstreamPath : string)
  : string * list string * bool * bool * bool :=
  let post := EqualFold method "POST" in
  let rest_split :=
    if HasPrefix upstreamPath "/repos/" then
      let trimmed := TrimSuffix (TrimPrefix upstreamPath "/repos/") "/" in
      match Split trimmed "/" with
      | o :: r :: rest =>
          (ToLower (o +:+ "/" +:+ r), rest, false,
           forallb (fun p => negb ((p ==s "") || (p ==s ".") || (p ==s ".."))) (o :: r :: rest), false)
      | _ => ("", [], false, false, false)
      end
    else ("", [], false, false, false) in
  if HasSuffix upstreamPath ".git/git-receive-pack" then
    match smartRepo upstreamPath ".git/git-receive-pack" with
    | Some r => if post then (r, [], true, true, false) else (r, [], false, false, false)
    | None => rest_split
    end
  else if HasSuffix upstreamPath ".git/git-upload-pack" then
    match smartRepo upstreamPath ".git/git-upload-pack" with
    | Some r => (r, [], false, post, true)
    | None => rest_split
    end
  else if HasSuffix upstreamPath ".git/info/refs" then
    match smartRepo upstreamPath ".git/info/refs" with
    | Some r => (r, [], false, EqualFold method "GET", true)
    | None => rest_split
    end
  else rest_split.

Definition hasMethodOverrideQuery (rawQuery : string) : bool :=
  if rawQuery ==s "" then false
  else let '(vals, err) := ParseQuery rawQuery in
       if err then Contains (ToLower rawQuery) "_method"
       else existsb (fun kv => EqualFold (fst kv) "_method") vals.

(** [Ok None]: no enforcement needed. *)
Definition newGitHubGuard (cache : policy_cache) (permissionConfig method upstreamPath rawQuery : string)
  : policy_cache * result perm_error (option githubGuard) :=
  if TrimSpace permissionConfig ==s "" then (cache, Ok None)
  else
    let readOnly := EqualFold method "GET" || EqualFold method "HEAD" in
    let lower := ToLower (TrimRightByte upstreamPath "/") in
    let graphql := (lower ==s "/graphql") && negb readOnly in
    let repositories := (lower ==s "/repositories") || HasPrefix lower "/repositories/" in
    let reposPath := (lower ==s "/repos") || HasPrefix lower "/repos/" in
    let override := hasMethodOverrideQuery rawQuery in
    let '(repo, rest, receivePack, restOK, smartRead) := githubRepoAndRest method upstreamPath in
    let unresolved := (repo ==s "") && reposPath && negb readOnly in
    if negb graphql && negb repositories && negb unresolved
       && ((repo ==s "") || (readOnly && negb receivePack && negb override))
    then (cache, Ok None)
    else
      let '(cache', ps) := ParseGitHubBranchPolicies cache permissionConfig in
      let bare d := mkGuard "" zero_repo_policy d "" [] false "" false None in
      (cache',
       match ps with
       | Err e => Err e
       | Ok [] => Ok None
       | Ok policies =>
           if graphql then Ok (Some (bare DenyGraphQL))
           else if repositories then Ok (Some (bare DenyRepositoryID))
           else if unresolved then Ok (Some (bare DenyUnresolved))
           else match pol_get policies repo with
           | None => Ok None
           | Some pol =>
               let on_repo d := mkGuard repo pol d "" [] false "" false None in
               if override then Ok (Some (on_repo DenyOverride))
               else if smartRead then
                 (if restOK then Ok None else Ok (Some (on_repo DenySmartRead)))
               else Ok (Some (mkGuard repo pol DenyNothing (ToUpper method) rest restOK "" receivePack None))
           end
       end).

(** ** Classification of REST requests *)

Definition seg_is (rest : list string) (i : nat) (s : string) : bool :=
  match nth_error rest i with Some x => EqualFold x s | None => false end.

Definition classifyGitHubREST (method : string) (rest : list string) : githubRESTOp :=
  match rest with
  | [] => opNone
  | r0 :: _ =>
      let n := length rest in
      let kind := ToLower r0 in
      if kind ==s "git" then
        if seg_is rest 1 "refs" && (method !=s "GET") && (method !=s "HEAD") then
          if (method ==s "POST") && (n =? 2)%nat then opRefCreate
          else if ((method ==s "PATCH") || (method ==s "DELETE")) && (3 <=? n)%nat then opRefWrite
          else opRefOther
        else opNone
      else if kind ==s "contents" then
        if ((method ==s "PUT") || (method ==s "DELETE")) && (2 <=? n)%nat then opContents else opNone
      else if kind ==s "merges" then
        if (method ==s "POST") && (n =? 1)%nat then opMerges else opNone
      else if kind ==s "releases" then
        if (method ==s "POST") && (n =? 1)%nat then opReleaseCreate
        else if (method ==s "PATCH") && (n =? 2)%nat then opReleaseUpdate else opNone
      else if kind ==s "pulls" then
        if (method ==s "POST") && (n =? 1)%nat then opPullCreate
        else if (method ==s "PATCH") && (n =? 2)%nat then opPullUpdate
        else if (method ==s "PUT") && (n =? 3)%nat && (seg_is rest 2 "merge" || seg_is rest 2 "update-branch")
        then opPullMerge
        else if (method ==s "POST") && (n =? 3)%nat && seg_is rest 2 "reviews" then opReview
        else if (method ==s "POST") && (n =? 5)%nat && seg_is rest 2 "reviews" && seg_is rest 4 "events"
        then opReviewEvent
        else opNone
      else if kind ==s "actions" then
        if (method ==s "POST") && (n =? 4)%nat && seg_is rest 1 "workflows" && seg_is rest 3 "dispatches"
        then opDispatch else opNone
      else opNone
  end.

Definition safeUnclassifiedWrite (method : string) (rest : list string) : bool :=
  let n := length rest in
  let seg i := match nth_error rest i with Some x => ToLower x | None => "" end in
  let post := method ==s "POST" in
  let patch := method ==s "PATCH" in
  let del := method ==s "DELETE" in
  if (n =? 0)%nat then false
  else if seg 0 ==s "issues" then true
  else if seg 0 ==s "pulls" then
    if (seg 2 ==s "merge") || (seg 2 ==s "update-branch") then false
    else (seg 2 !=s "reviews") || (seg 4 !=s "dismissals")
  else if seg 0 ==s "git" then
    post && (n =? 2)%nat && in_seen (seg 1) ["blobs"; "trees"; "commits"; "tags"]
  else if seg 0 ==s "releases" then
    (post && (n =? 3)%nat && (seg 2 ==s "assets") && (seg 1 !=s "assets"))
    || ((patch || del) && (n =? 3)%nat && (seg 1 ==s "assets"))
    || (post && (n =? 2)%nat && (seg 1 ==s "generate-notes"))
    || (del && (n =? 2)%nat && (seg 1 !=s "assets") && (seg 1 !=s "generate-notes"))
  else if seg 0 ==s "actions" then
    if seg 1 ==s "runs" then
      (del && (n =? 3)%nat)
      || (post && (n =? 4)%nat
          && in_seen (seg 3) ["rerun"; "rerun-failed-jobs"; "cancel"; "force-cancel"])
      || (del && (n =? 4)%nat && (seg 3 ==s "logs"))
    else if seg 1 ==s "jobs" then post && (n =? 4)%nat && (seg 3 ==s "rerun")
    else if seg 1 ==s "artifacts" then del && (n =? 3)%nat
    else false
  else false.

Definition needsJSONBody (g : githubGuard) : bool :=
  negb (g_receivePack g) && g_restOK g && needsBody (classifyGitHubREST (g_method g) (g_rest g)).

(** ** Names *)

Definition invalidBranchName (name : string) : option refusal :=
  let prob := GitHubRefNameProblem name false in
  if prob !=s "" then Some (BranchNameProblem prob)
  else match List.find (HasPrefix name) ["heads/"; "tags/"; "remotes/"] with
       | Some p => Some (BranchAmbiguous name p)
       | None => None
       end.

Definition branchCandidates (name : string) : result refusal (list string) :=
  if (MaxGitHubRefNameBytes <? slen name)%nat then Err BranchTooLong
  else if name ==s "" then Err BranchEmpty
  else if ContainsByte name NUL || ContainsByte name LF then Err BranchInvalid
  else if HasPrefix name "refs/heads/" then
    let stripped := TrimPrefix name "refs/heads/" in
    match invalidBranchName stripped with
    | Some bad => Err bad
    | None => Ok [name; stripped]
    end
  else if HasPrefix name "refs/" then Err (NotABranch name)
  else match invalidBranchName name with
       | Some bad => Err bad
       | None => Ok [name]
       end.

Definition ge_requirement (what : requirement) (role : string) (rule : GitHubBranchRule) : bool :=
  match what with
  | NeedAgent => GitHubRoleCanPush role
  | NeedBase => GitHubRoleCanBeBase role
  | NeedWorkflows => br_RunWorkflows rule
  end.

(** ** The evaluator *)

Section Eval.
Variable policy : GitHubRepoBranchPolicy.
Variable def : result lookup_error string.
Variable unknownDefault : bool.
Let bp := rbp_BranchPolicy policy.

Definition defaultBranch (e : guardEval) : guardEval * result refusal string :=
  let e' := if ge_have e then e
            else match def with
                 | Ok d => mkEval d (if d ==s "" then Some EmptyDefault else None) true
                 | Err x => mkEval "" (Some x) true
                 end in
  (e', match ge_err e' with Some _ => Err DefaultUnknown | None => Ok (ge_cached e') end).

(** Rule and role governing one branch. *)
Definition ruleOf (e : guardEval) (branch : string)
  : guardEval * result refusal (GitHubBranchRule * string) :=
  let '(e', d) := if HasDefaultRule bp then defaultBranch e else (e, Ok "") in
  (e', match d with
       | Err r => Err r
       | Ok d => let sel := SelectRule bp branch d in Ok (selected_rule sel, selected_role sel)
       end).

Fixpoint check_candidates (e : guardEval) (what : requirement) (cands : list string)
  : guardEval * option refusal :=
  match cands with
  | [] => (e, None)
  | c :: cands' =>
      if unknownDefault && HasDefaultRule bp then
        let asOther := SelectRule bp c "" in
        let asDef := SelectRule bp c c in
        let passOther := ge_requirement what (selected_role asOther) (selected_rule asOther) in
        let passDef := ge_requirement what (selected_role asDef) (selected_rule asDef) in
        if negb passOther && negb passDef then (e, Some (BranchRole c (selected_role asOther) what))
        else if passOther && passDef then check_candidates e what cands'
        else (mkEval (ge_cached e) (Some errDefaultDeferred) true, Some DefaultUnknown)
      else
        let '(e', rr) := ruleOf e c in
        match rr with
        | Err r => (e', Some r)
        | Ok (rule, role) =>
            if ge_requirement what role rule then check_candidates e' what cands'
            else (e', Some (BranchRole c role what))
        end
  end.

Definition checkBranch (e : guardEval) (name : string) (what : requirement)
  : guardEval * option refusal :=
  match branchCandidates name with
  | Err bad => (e, Some bad)
  | Ok cands => check_candidates e what cands
  end.

Definition requireAgent (e : guardEval) (name : string) := checkBranch e name NeedAgent.
Definition requireBase (e : guardEval) (name : string) := checkBranch e name NeedBase.

Definition requireDefaultAgent (e : guardEval) : guardEval * option refusal :=
  let '(e', d) := defaultBranch e in
  match d with Err r => (e', Some r) | Ok d => requireAgent e' d end.

Definition requireTag (tag0 : string) : option refusal :=
  if (MaxGitHubRefNameBytes <? slen tag0)%nat then Some TagTooLong
  else
    let tag := TrimPrefix tag0 "refs/tags/" in
    if GitHubRefNameProblem tag false !=s "" then Some TagInvalid
    else if negb (TagCreateAllowed bp tag) then Some (TagNotAllowed tag)
    else None.

End Eval.

(** ** JSON fields *)

Definition parseJSONObject (body : string) : option (list (string * jval)) :=
  match UnmarshalMap body with Some (Some m) => Some m | _ => None end.

(** [strField] and the closure around it: [Ok None] is an absent field. *)
Definition strField (m : list (string * jval)) (key : string) : result refusal (option string) :=
  match obj_get m key with
  | None | Some JNull => Ok None
  | Some (JStr s) => Ok (Some s)
  | Some _ => Err (FieldMustBeString key)
  end.

(** ** Decisions *)

Section Decide.
Variable policy : GitHubRepoBranchPolicy.
Variable def : result lookup_error string.
Variable unknownDefault : bool.

(** A field the operation needs. *)
Definition with_field (e : guardEval) (m : list (string * jval)) (key : string)
    (absent : guardEval * option refusal) (present : string -> guardEval * option refusal)
  : guardEval * option refusal :=
  match strField m key with
  | Err r => (e, Some r)
  | Ok None => absent
  | Ok (Some s) => present s
  end.

(** PATCH / DELETE on a ref path. *)
Definition checkRefWrite (e : guardEval) (rest : list string) : guardEval * option refusal :=
  let segs := drop 2 rest in
  let segs := match segs with
              | s :: segs' => if EqualFold s "refs" then segs' else segs
              | [] => []
              end in
  match segs with
  | kind :: ((_ :: _) as name) =>
      if ToLower kind ==s "heads"
      then requireAgent policy def unknownDefault e ("refs/heads/" +:+ Join name "/")
      else if ToLower kind ==s "tags" then (e, Some (TagImmutable ""))
      else (e, Some OnlyBranches)
  | _ => (e, Some RefPathUnknown)
  end.

(** The operations decided by a JSON body. *)
Definition checkBodyOp (e : guardEval) (op : githubRESTOp) (m : list (string * jval))
  : guardEval * option refusal :=
  let missing f := (e, Some (FieldMissing f)) in
  match op with
  | opRefCreate =>
      with_field e m "ref" (missing "ref") (fun ref =>
        if HasPrefix ref "refs/heads/" then requireAgent policy def unknownDefault e ref
        else if HasPrefix ref "refs/tags/" then (e, requireTag policy ref)
        else (e, Some (RefNeither ref)))
  | opContents =>
      with_field e m "branch" (requireDefaultAgent policy def unknownDefault e)
        (requireAgent policy def unknownDefault e)
  | opMerges => with_field e m "base" (missing "base") (requireAgent policy def unknownDefault e)
  | opReleaseCreate => with_field e m "tag_name" (missing "tag_name") (fun t => (e, requireTag policy t))
  | opReleaseUpdate => with_field e m "tag_name" (e, None) (fun t => (e, requireTag policy t))
  | opPullCreate => with_field e m "base" (missing "base") (requireBase policy def unknownDefault e)
  | opPullUpdate => with_field e m "base" (e, None) (requireBase policy def unknownDefault e)
  | opReview | opReviewEvent =>
      with_field e m "event"
        (match op with opReviewEvent => missing "event" | _ => (e, None) end)
        (fun event =>
           if EqualFold (TrimSpace event) "APPROVE" && negb (rbp_PullRequestsApprove policy)
           then (e, Some ApproveNotPermitted) else (e, None))
  | opDispatch =>
      with_field e m "ref" (missing "ref") (fun ref =>
        if HasPrefix ref "refs/tags/" then (e, Some DispatchOnTag)
        else checkBranch policy def unknownDefault e ref NeedWorkflows)
  | _ => (e, None)
  end.

Definition checkREST (e : guardEval) (method : string) (rest : list string) (body : string)
  : guardEval * option refusal :=
  match classifyGitHubREST method rest with
  | opNone =>
      if (method !=s "GET") && (method !=s "HEAD") && negb (safeUnclassifiedWrite method rest)
      then (e, Some EndpointNotCovered) else (e, None)
  | opRefOther => (e, Some RefsUnsupported)
  | opRefWrite => checkRefWrite e rest
  | opPullMerge => (e, if rbp_PullRequestsMerge policy then None else Some MergeNotPermitted)
  | op =>
      let obj := match op with
                 | opReview => if TrimSpace body ==s "" then Some [] else parseJSONObject body
                 | _ => parseJSONObject body
                 end in
      match obj with
      | None => (e, Some BodyNotObject)
      | Some m => checkBodyOp e op m
      end
  end.

Definition checkPushCommand (e : guardEval) (c : receivePackCommand) : guardEval * option refusal :=
  let ref := cmd_Ref c in
  if (MaxGitHubRefNameBytes <? slen ref)%nat then (e, Some RefTooLong)
  else
    let prob := GitHubRefNameProblem ref false in
    if prob !=s "" then (e, Some (RefInvalid ref prob))
    else if HasPrefix ref "refs/heads/" && (slen "refs/heads/" <? slen ref)%nat
    then requireAgent policy def unknownDefault e ref
    else if HasPrefix ref "refs/tags/" && (slen "refs/tags/" <? slen ref)%nat then
      (if isCreate c then (e, requireTag policy ref) else (e, Some (TagImmutable ref)))
    else (e, Some (RefOutside ref)).

Fixpoint checkReceivePack (e : guardEval) (cmds : list receivePackCommand) : list (option refusal) :=
  match cmds with
  | [] => []
  | c :: cmds' => let '(e', r) := checkPushCommand e c in r :: checkReceivePack e' cmds'
  end.

End Decide.

Definition anyRefused (reasons : list (option refusal)) : bool :=
  existsb (fun r => match r with Some _ => true | None => false end) reasons.

Definition evaluateGitHubGuardREST (pol : GitHubRepoBranchPolicy) (def : result lookup_error string)
    (method : string) (rest : list string) (body : string) : option refusal :=
  snd (checkREST pol def false freshEval (ToUpper method) rest body).

(** ** The decision without the default branch *)

Definition deferred (e : guardEval) : bool :=
  match ge_err e with Some errDefaultDeferred => true | _ => false end.

(** The refusals of a push that hold whatever the default branch is. *)
Definition precheck_command (pol : GitHubRepoBranchPolicy) (c : receivePackCommand) : option refusal :=
  let '(e, r) := checkPushCommand pol (Err errDefaultDeferred) true freshEval c in
  match r with
  | None => None
  | Some x => if deferred e then None else Some x
  end.

Inductive precheck_result :=
| Undecided
| RefusedREST (r : refusal)
| RefusedPush (reasons : list (option refusal)).

(** A receive-pack guard always carries the parsed commands here; [None] would be
    a nil dereference. *)
Definition precheck (g : githubGuard) : option precheck_result :=
  if g_receivePack g then
    match g_rp g with
    | None => None
    | Some rp =>
        let reasons := map (precheck_command (g_policy g)) (rp_Commands rp) in
        Some (if anyRefused reasons then RefusedPush reasons else Undecided)
    end
  else
    let '(e, r) := checkREST (g_policy g) (Err errDefaultDeferred) true freshEval
                     (g_method g) (g_rest g) (g_body g) in
    Some match r with
         | Some x => if ge_have e && deferred e then Undecided else RefusedREST x
         | None => Undecided
         end.

End Guard.

(** ** Theorems: what the full check lets through *)

Section GuardTheorems.
Context `{UC : UnicodeCase} `{CJ : ConfigJSON}.

(** The default branch the rules are evaluated with: not needed without an
    [@default] rule, otherwise the successful, non-empty lookup. *)
Definition effective_default (pol : GitHubRepoBranchPolicy) (def : result lookup_error string)
  : option string :=
  if HasDefaultRule (rbp_BranchPolicy pol) then
    match def with Ok d => if d ==s "" then None else Some d | Err _ => None end
  else Some "".

Definition rule_passes (pol : GitHubRepoBranchPolicy) (d : string) (what : requirement) (c : string) : bool :=
  let sel := SelectRule (rbp_BranchPolicy pol) c d in
  ge_requirement what (selected_role sel) (selected_rule sel).

(** Every branch the name may stand for satisfies the requirement. *)
Definition branch_allows (pol : GitHubRepoBranchPolicy) (def : result lookup_error string)
    (what : requirement) (name : string) : Prop :=
  exists d cands, effective_default pol def = Some d /\ branchCandidates name = Ok cands /\
    forallb (rule_passes pol d what) cands = true.

Definition tag_allows (pol : GitHubRepoBranchPolicy) (tag : string) : Prop :=
  TagCreateAllowed (rbp_BranchPolicy pol) (TrimPrefix tag "refs/tags/") = true.

(** The evaluator has not called [def] yet, or remembers its result. *)
Definition eval_inv (def : result lookup_error string) (e : guardEval) : Prop :=
  ge_have e = false \/
  e = match def with
      | Ok d => mkEval d (if d ==s "" then Some EmptyDefault else None) true
      | Err x => mkEval "" (Some x) true
      end.

Lemma eval_inv_fresh def : eval_inv def freshEval.
Proof. by left. Qed.

Lemma defaultBranch_spec def e :
  eval_inv def e ->
  eval_inv def (fst (defaultBranch def e)) /\
  snd (defaultBranch def e) =
    match def with
    | Ok d => if d ==s "" then Err DefaultUnknown else Ok d
    | Err _ => Err DefaultUnknown
    end.
Proof.
  intros H. unfold defaultBranch.
  set (loaded := match def with Ok d => _ | Err x => _ end).
  assert ((if ge_have e then e else loaded) = loaded) as ->.
  { destruct H as [H|H]; [by rewrite H|]. rewrite H. fold loaded. by destruct (ge_have loaded). }
  split; [by right|]. cbn [snd]. unfold loaded. destruct def as [d|x]; [|done].
  cbn [ge_err ge_cached]. by destruct (d ==s "").
Qed.

Lemma ruleOf_spec pol def e c :
  eval_inv def e ->
  eval_inv def (fst (ruleOf pol def e c)) /\
  snd (ruleOf pol def e c) =
    match effective_default pol def with
    | Some d => let sel := SelectRule (rbp_BranchPolicy pol) c d in Ok (selected_rule sel, selected_role sel)
    | None => Err DefaultUnknown
    end.
Proof.
  intros H. unfold ruleOf, effective_default. destruct (HasDefaultRule _); [|by split].
  pose proof (defaultBranch_spec def e H) as [H1 H2].
  destruct (defaultBranch def e) as [e' d]. simpl in *. subst d. split; [done|].
  destruct def as [d|]; [|done]. by destruct (d ==s "").
Qed.

(** With the default branch at hand a branch check is exactly [branch_allows]. *)
Lemma check_candidates_spec pol def e what cands :
  eval_inv def e ->
  eval_inv def (fst (check_candidates pol def false e what cands)) /\
  (snd (check_candidates pol def false e what cands) = None <->
   cands = [] \/ exists d, effective_default pol def = Some d /\
                           forallb (rule_passes pol d what) cands = true).
Proof.
  revert e. induction cands as [|c cands IH]; intros e He; cbn [check_candidates andb].
  { split; [done|]. split; [by left|done]. }
  pose proof (ruleOf_spec pol def e c He) as [H1 H2].
  destruct (ruleOf pol def e c) as [e' rr]. cbn [fst snd] in *. subst rr.
  destruct (effective_default pol def) as [d|] eqn:Ed.
  2:{ split; [done|]. split; [done|]. intros [Hx|(dx & Hx & _)]; done. }
  cbv zeta. cbn [forallb]. unfold rule_passes at 1. cbv zeta.
  destruct (ge_requirement _ _ _) eqn:Er.
  - specialize (IH e' H1) as [I1 I2]. split; [done|]. rewrite I2. split.
    + intros [->|(d' & [= <-] & Hf)]; right; exists d; rewrite Er; done.
    + intros [Hx|(dx & [= <-] & Hf)]; [done|]. right. exists d. split; [done|].
      apply andb_true_iff in Hf as [_ ?]. done.
  - split; [done|]. split; [done|]. intros [Hx|(dx & [= <-] & Hf)]; [done|].
    apply andb_true_iff in Hf as [Hf _]. congruence.
Qed.

Lemma branchCandidates_cons name cands : branchCandidates name = Ok cands -> cands <> [].
Proof.
  unfold branchCandidates. repeat (case_goal; try done); by intros [= <-].
Qed.

Lemma checkBranch_spec pol def e name what :
  eval_inv def e ->
  eval_inv def (fst (checkBranch pol def false e name what)) /\
  (snd (checkBranch pol def false e name what) = None <-> branch_allows pol def what name).
Proof.
  intros He. unfold checkBranch, branch_allows.
  destruct (branchCandidates name) as [cands|bad] eqn:Ec.
  - destruct (check_candidates_spec pol def e what cands He) as [H1 H2]. split; [done|].
    rewrite H2. apply branchCandidates_cons in Ec. split.
    + intros [Hx|(dx & Hd1 & Hd2)]; [done|]. eauto.
    + intros (d & ? & ? & [= <-] & ?). eauto.
  - split; [done|]. split; [done|]. intros (? & ? & _ & ? & _). done.
Qed.

Lemma requireTag_spec pol tag : requireTag pol tag = None -> tag_allows pol tag.
Proof.
  unfold requireTag, tag_allows. destruct (_ <? _)%nat; [done|]. destruct (_ !=s ""); [done|].
  by destruct (TagCreateAllowed _ _).
Qed.

(** ** Pushes *)

(** What an accepted command may be. *)
Definition push_ok (pol : GitHubRepoBranchPolicy) (def : result lookup_error string)
    (c : receivePackCommand) : Prop :=
  (HasPrefix (cmd_Ref c) "refs/heads/" = true /\ branch_allows pol def NeedAgent (cmd_Ref c)) \/
  (HasPrefix (cmd_Ref c) "refs/tags/" = true /\ isCreate c = true /\ tag_allows pol (cmd_Ref c)).

Lemma checkPushCommand_ok pol def e c :
  eval_inv def e ->
  eval_inv def (fst (checkPushCommand pol def false e c)) /\
  (snd (checkPushCommand pol def false e c) = None -> push_ok pol def c).
Proof.
  intros He. unfold checkPushCommand, push_ok. destruct (_ <? slen (cmd_Ref c))%nat; [done|].
  destruct (_ !=s ""); [done|].
  destruct (HasPrefix (cmd_Ref c) "refs/heads/" && _) eqn:E1.
  { destruct (checkBranch_spec pol def e (cmd_Ref c) NeedAgent He) as [H1 H2].
    split; [done|]. intros H. left. bool_to_prop. split; [done|]. by apply H2. }
  destruct (HasPrefix (cmd_Ref c) "refs/tags/" && _) eqn:E2; [|done].
  bool_to_prop. destruct (isCreate c); [|done]. split; [done|].
  intros Ht. right. repeat split; try done. by apply requireTag_spec.
Qed.

Lemma checkReceivePack_ok pol def cmds :
  anyRefused (checkReceivePack pol def false freshEval cmds) = false ->
  Forall (push_ok pol def) cmds.
Proof.
  assert (Hg : forall e, eval_inv def e -> anyRefused (checkReceivePack pol def false e cmds) = false ->
    Forall (push_ok pol def) cmds); [|apply Hg, eval_inv_fresh].
  induction cmds as [|c cmds IH]; intros e He; cbn [checkReceivePack]; [done|].
  destruct (checkPushCommand_ok pol def e c He) as [H1 H2].
  destruct (checkPushCommand pol def false e c) as [e' r]. cbn [fst snd] in *.
  unfold anyRefused. cbn [existsb]. destruct r as [r|]; [done|]. cbn [orb].
  intros H. constructor; [by apply H2|]. by apply (IH e').
Qed.

(** C2. A push is forwarded only if every command in it either targets a branch
    that has the agent role -- under each reading of the ref, with the real default
    branch when the policy has an [@default] rule, and not at all when that branch
    is unknown -- or creates a tag the policy lets the grant create. *)
Theorem push_only_agent_or_new_tag pol def cmds :
  anyRefused (checkReceivePack pol def false freshEval cmds) = false ->
  Forall (push_ok pol def) cmds.
Proof. apply checkReceivePack_ok. Qed.

(** ** REST requests *)

(** The string field [key] of a JSON body. *)
Definition body_field (body key : string) (r : result refusal (option string)) : Prop :=
  exists m, parseJSONObject body = Some m /\ strField m key = r.

(** The path of an accepted ref update: below the two segments of the endpoint, and a
    repeated [refs] segment if there is one, come [heads] and the whole name of a
    branch with the agent role.  No other namespace is accepted. *)
Definition ref_write_ok (pol : GitHubRepoBranchPolicy) (def : result lookup_error string) (rest : list string) : Prop :=
  exists a b dup kind name, rest = a :: b :: dup ++ kind :: name /\
    (dup = [] \/ exists r, dup = [r] /\ EqualFold r "refs" = true) /\
    ToLower kind = "heads" /\ name <> [] /\ branch_allows pol def NeedAgent ("refs/heads/" +:+ Join name "/").

(** What an accepted request may do, per operation. *)
Definition rest_ok (pol : GitHubRepoBranchPolicy) (def : result lookup_error string)
    (method : string) (rest : list string) (body : string) : Prop :=
  match classifyGitHubREST method rest with
  | opNone => method = "GET" \/ method = "HEAD" \/ safeUnclassifiedWrite method rest = true
  | opRefOther => False
  | opRefWrite => ref_write_ok pol def rest
  | opRefCreate =>
      exists ref, body_field body "ref" (Ok (Some ref)) /\
        (HasPrefix ref "refs/heads/" = true /\ branch_allows pol def NeedAgent ref \/
         HasPrefix ref "refs/tags/" = true /\ tag_allows pol ref)
  | opContents =>
      exists b, branch_allows pol def NeedAgent b /\
        (body_field body "branch" (Ok (Some b)) \/ body_field body "branch" (Ok None) /\ def = Ok b)
  | opMerges => exists b, body_field body "base" (Ok (Some b)) /\ branch_allows pol def NeedAgent b
  | opReleaseCreate => exists t, body_field body "tag_name" (Ok (Some t)) /\ tag_allows pol t
  | opReleaseUpdate =>
      body_field body "tag_name" (Ok None) \/
      exists t, body_field body "tag_name" (Ok (Some t)) /\ tag_allows pol t
  | opPullCreate => exists b, body_field body "base" (Ok (Some b)) /\ branch_allows pol def NeedBase b
  | opPullUpdate =>
      body_field body "base" (Ok None) \/
      exists b, body_field body "base" (Ok (Some b)) /\ branch_allows pol def NeedBase b
  | opPullMerge => rbp_PullRequestsMerge pol = true
  | opReview | opReviewEvent =>
      TrimSpace body = "" \/ body_field body "event" (Ok None) \/
      exists ev, body_field body "event" (Ok (Some ev)) /\
        (EqualFold (TrimSpace ev) "APPROVE" = true -> rbp_PullRequestsApprove pol = true)
  | opDispatch =>
      exists ref, body_field body "ref" (Ok (Some ref)) /\ HasPrefix ref "refs/tags/" = false /\
        branch_allows pol def NeedWorkflows ref
  end.

Lemma with_field_none e m key absent present :
  snd (with_field e m key absent present) = None ->
  (strField m key = Ok None /\ snd absent = None) \/
  exists s, strField m key = Ok (Some s) /\ snd (present s) = None.
Proof.
  unfold with_field. destruct (strField m key) as [[s|]|r]; [right; eauto|by left|done].
Qed.

Lemma requireAgent_ok pol def name :
  snd (requireAgent pol def false freshEval name) = None -> branch_allows pol def NeedAgent name.
Proof. intros H. by apply (checkBranch_spec pol def freshEval name NeedAgent (eval_inv_fresh def)). Qed.

Lemma requireBase_ok pol def name :
  snd (requireBase pol def false freshEval name) = None -> branch_allows pol def NeedBase name.
Proof. intros H. by apply (checkBranch_spec pol def freshEval name NeedBase (eval_inv_fresh def)). Qed.

Lemma requireDefaultAgent_ok pol def :
  snd (requireDefaultAgent pol def false freshEval) = None ->
  exists b, def = Ok b /\ branch_allows pol def NeedAgent b.
Proof.
  unfold requireDefaultAgent.
  destruct (defaultBranch_spec def freshEval (eval_inv_fresh def)) as [H1 H2].
  destruct (defaultBranch def freshEval) as [e' d]. cbn [fst snd] in *. subst d.
  destruct def as [d|]; [|done]. destruct (d ==s ""); [done|].
  intros H. exists d. split; [done|]. by apply (checkBranch_spec pol (Ok d) e' d NeedAgent H1).
Qed.

Lemma checkRefWrite_ok pol def rest :
  snd (checkRefWrite pol def false freshEval rest) = None -> ref_write_ok pol def rest.
Proof.
  unfold checkRefWrite. destruct rest as [|a [|b segs]]; [done|done|]. change (drop 2 (a :: b :: segs)) with segs.
  assert (Hs : forall dup l, segs = dup ++ l -> (dup = [] \/ exists r, dup = [r] /\ EqualFold r "refs" = true) ->
    snd (match l with
         | kind :: ((_ :: _) as name) =>
             if ToLower kind ==s "heads"
             then requireAgent pol def false freshEval ("refs/heads/" +:+ Join name "/")
             else if ToLower kind ==s "tags" then (freshEval, Some (TagImmutable ""))
             else (freshEval, Some OnlyBranches)
         | _ => (freshEval, Some RefPathUnknown)
         end) = None -> ref_write_ok pol def (a :: b :: segs)).
  { intros dup l -> Hd. destruct l as [|k [|x xs]]; [done|done|].
    destruct (String.eqb_spec (ToLower k) "heads") as [Hk|_]; [|by destruct (_ ==s "tags")]. intros H.
    exists a, b, dup, k, (x :: xs). split_and!; try done. apply requireAgent_ok; exact H. }
  destruct segs as [|s segs]; [done|]. destruct (EqualFold s "refs") eqn:E.
  - apply (Hs [s] segs); [done|eauto].
  - apply (Hs [] (s :: segs)); [done|by left].
Qed.

(** The operations decided by the body. *)
Lemma checkBodyOp_ok pol def op m method rest body :
  classifyGitHubREST method rest = op ->
  parseJSONObject body = Some m \/ (op = opReview /\ TrimSpace body = "") ->
  needsBody op = true ->
  snd (checkBodyOp pol def false freshEval op m) = None ->
  rest_ok pol def method rest body.
Proof.
  intros Hc Hm Hn H. unfold rest_ok. rewrite Hc.
  assert (Hf : forall k r, (op = opReview -> TrimSpace body <> "") -> strField m k = r -> body_field body k r).
  { intros k r Ho Hk. destruct Hm as [Hm|[-> Hm]]; [by exists m|]. by specialize (Ho eq_refl). }
  destruct op; try discriminate Hn; cbn [checkBodyOp] in H;
    apply with_field_none in H as [[Hk H]|(s & Hk & H)]; cbn [snd] in H; try discriminate H;
    try (apply Hf in Hk; [|done]).
  - destruct (HasPrefix s "refs/heads/") eqn:E1.
    { exists s. split; [done|]. left. split; [done|]. by apply requireAgent_ok. }
    destruct (HasPrefix s "refs/tags/") eqn:E2; [|done].
    exists s. split; [done|]. right. split; [done|]. by apply requireTag_spec.
  - apply requireDefaultAgent_ok in H as (b & -> & H). exists b. auto.
  - apply requireAgent_ok in H. eauto.
  - apply requireAgent_ok in H. eauto.
  - apply requireTag_spec in H. eauto.
  - by left.
  - apply requireTag_spec in H. eauto.
  - apply requireBase_ok in H. eauto.
  - by left.
  - apply requireBase_ok in H. eauto.
  - destruct (TrimSpace body ==s "") eqn:Eb; bool_to_prop; [by left|]. right. left. by apply Hf.
  - destruct (TrimSpace body ==s "") eqn:Eb; bool_to_prop; [by left|]. right. right.
    exists s. split; [by apply Hf|]. intros Ha. rewrite Ha in H. revert H.
    by destruct (rbp_PullRequestsApprove pol).
  - right. right. exists s. split; [done|]. intros Ha. rewrite Ha in H. revert H.
    by destruct (rbp_PullRequestsApprove pol).
  - destruct (HasPrefix s "refs/tags/") eqn:E; [done|]. exists s. split; [done|]. split; [done|].
    by apply (checkBranch_spec pol def freshEval s NeedWorkflows (eval_inv_fresh def)).
Qed.

Lemma evaluateGitHubGuardREST_ok pol def method rest body :
  evaluateGitHubGuardREST pol def method rest body = None ->
  rest_ok pol def (ToUpper method) rest body.
Proof.
  unfold evaluateGitHubGuardREST, checkREST. set (mt := ToUpper method).
  destruct (classifyGitHubREST mt rest) eqn:Ec; intros H;
    try (destruct (parseJSONObject body) as [m|] eqn:Em; [|discriminate H];
         by apply (checkBodyOp_ok pol def _ m _ _ _ Ec (or_introl Em) eq_refl H)).
  - unfold rest_ok. rewrite Ec.
    destruct (safeUnclassifiedWrite mt rest); [by right; right|].
    destruct (mt ==s "GET") eqn:E1; [bool_to_prop; by left|].
    destruct (mt ==s "HEAD") eqn:E2; [bool_to_prop; by right; left|]. discriminate H.
  - unfold rest_ok. rewrite Ec. by apply checkRefWrite_ok.
  - discriminate H.
  - unfold rest_ok. rewrite Ec. revert H. by destruct (rbp_PullRequestsMerge pol).
  - destruct (TrimSpace body ==s "") eqn:Eb; bool_to_prop.
    + apply (checkBodyOp_ok pol def _ [] _ _ _ Ec (or_intror (conj eq_refl Eb)) eq_refl H).
    + destruct (parseJSONObject body) as [m|] eqn:Em; [|discriminate H].
      apply (checkBodyOp_ok pol def _ m _ _ _ Ec (or_introl Em) eq_refl H).
Qed.

(** C3. A REST request under a branch policy is forwarded only if it is a read or
    on the list of writes that move no ref, or if what it changes is allowed: a ref
    is moved or deleted only under heads, and there only a branch with the agent role
    (never a tag or another ref); files are changed only on such branches (the default
    branch when the request names none), tags and releases only on tags the grant may create, pull
    requests only against protected or agent branches, merges and approving reviews
    only with their flag, and dispatches only on branches whose rule runs workflows. *)
Theorem rest_only_covered pol def method rest body :
  evaluateGitHubGuardREST pol def method rest body = None ->
  rest_ok pol def (ToUpper method) rest body.
Proof. apply evaluateGitHubGuardREST_ok. Qed.

(** ** The early decision *)

Lemma SelectRule_two_cases p c d :
  c <> "" -> HasPrefix c "refs/heads/" = false ->
  SelectRule p c d = SelectRule p c "" \/ SelectRule p c d = SelectRule p c c.
Proof.
  intros Hc Hp. unfold SelectRule.
  assert (stripBranchPrefix c = c) as -> by (by apply TrimPrefix_none).
  cbn [String.eqb negb andb]. rewrite EqualFold_refl, andb_true_r.
  apply String.eqb_neq in Hc. rewrite Hc. cbn [negb].
  destruct ((d !=s "") && EqualFold c d); [by right|by left].
Qed.

Lemma branchCandidates_unprefixed name cands :
  HasPrefix name "refs/heads/" = false -> branchCandidates name = Ok cands ->
  name <> "" /\ cands = [name].
Proof.
  intros Hp. unfold branchCandidates. rewrite Hp.
  destruct (_ <? _)%nat; [done|]. destruct (name ==s "") eqn:E; [done|]. bool_to_prop.
  destruct (_ || _); [done|]. destruct (HasPrefix name "refs/"); [done|].
  destruct (invalidBranchName name); [done|]. by intros [= <-].
Qed.

(** For a branch name given without "refs/heads/", the decision taken before
    the default branch is known is right whatever that branch turns out to be: a
    definite refusal is a refusal of the full check for every outcome of the
    lookup, and an acceptance is an acceptance for every default branch. *)
Theorem early_decision_exact pol name what :
  HasPrefix name "refs/heads/" = false ->
  let '(e, r) := checkBranch pol (Err errDefaultDeferred) true freshEval name what in
  match r with
  | Some _ => deferred e = false ->
              forall def, snd (checkBranch pol def false freshEval name what) <> None
  | None => forall d, d <> "" -> snd (checkBranch pol (Ok d) false freshEval name what) = None
  end.
Proof.
  intros Hp.
  assert (Hfull : forall def, snd (checkBranch pol def false freshEval name what) = None <->
            branch_allows pol def what name) by (intros def; apply checkBranch_spec, eval_inv_fresh).
  unfold checkBranch at 1. destruct (branchCandidates name) as [cands|bad] eqn:Ec.
  2:{ intros _ def H%Hfull. destruct H as (? & ? & _ & H & _). congruence. }
  destruct (branchCandidates_unprefixed _ _ Hp Ec) as [Hn ->]. cbn [check_candidates andb].
  unfold branch_allows in Hfull. rewrite Ec in Hfull.
  destruct (HasDefaultRule (rbp_BranchPolicy pol)) eqn:Ed.
  - fold (rule_passes pol "" what name). fold (rule_passes pol name what name).
    assert (Hcase : forall d, rule_passes pol d what name = rule_passes pol "" what name \/
                              rule_passes pol d what name = rule_passes pol name what name).
    { intros d. unfold rule_passes.
      destruct (SelectRule_two_cases (rbp_BranchPolicy pol) name d Hn Hp) as [-> | ->]; auto. }
    destruct (negb _ && negb _) eqn:E1;
      [|destruct (rule_passes pol "" what name && rule_passes pol name what name) eqn:E2].
    + intros _ def (d & cs & _ & [= <-] & Hf)%Hfull. bool_to_prop. cbn [forallb] in Hf.
      rewrite andb_true_r in Hf. destruct (Hcase d); congruence.
    + intros d Hd. apply Hfull. exists d, [name]. unfold effective_default. rewrite Ed.
      apply String.eqb_neq in Hd. rewrite Hd. repeat split. cbn [forallb]. rewrite andb_true_r.
      bool_to_prop. destruct (Hcase d); congruence.
    + discriminate.
  - unfold ruleOf. rewrite Ed. fold (rule_passes pol "" what name).
    destruct (rule_passes pol "" what name) eqn:Er.
    + intros d Hd. apply Hfull. exists "", [name]. unfold effective_default. rewrite Ed.
      repeat split. cbn [forallb]. by rewrite Er.
    + intros _ def (d & cs & He & [= <-] & Hf)%Hfull. unfold effective_default in He. rewrite Ed in He.
      injection He as <-. cbn [forallb] in Hf. by rewrite Er in Hf.
Qed.

(** Without an [@default] rule the default branch plays no part. *)
Lemma check_candidates_no_default pol def1 def2 u1 u2 e1 e2 what cands :
  HasDefaultRule (rbp_BranchPolicy pol) = false ->
  snd (check_candidates pol def1 u1 e1 what cands) = snd (check_candidates pol def2 u2 e2 what cands)
  /\ fst (check_candidates pol def1 u1 e1 what cands) = e1.
Proof.
  intros Hd. revert e1 e2. induction cands as [|c cands IH]; intros e1 e2; [done|].
  cbn [check_candidates]. unfold ruleOf. rewrite Hd, !andb_false_r.
  destruct (ge_requirement _ _ _); [apply IH|done].
Qed.

Lemma checkBranch_no_default pol def u e name what :
  HasDefaultRule (rbp_BranchPolicy pol) = false ->
  snd (checkBranch pol (Err errDefaultDeferred) true freshEval name what) =
  snd (checkBranch pol def u e name what).
Proof.
  intros Hd. unfold checkBranch. destruct (branchCandidates name); [|done].
  by apply check_candidates_no_default.
Qed.

Lemma checkPushCommand_no_default pol def e c :
  HasDefaultRule (rbp_BranchPolicy pol) = false ->
  snd (checkPushCommand pol (Err errDefaultDeferred) true freshEval c) =
  snd (checkPushCommand pol def false e c).
Proof.
  intros Hd. unfold checkPushCommand, requireAgent.
  destruct (_ <? slen (cmd_Ref c))%nat; [done|].
  destruct (GitHubRefNameProblem (cmd_Ref c) false !=s ""); [done|].
  destruct (HasPrefix (cmd_Ref c) "refs/heads/" && _); [by apply checkBranch_no_default|].
  destruct (HasPrefix (cmd_Ref c) "refs/tags/" && _); [|done]. by destruct (isCreate c).
Qed.

Lemma precheck_command_no_default pol def e c x :
  HasDefaultRule (rbp_BranchPolicy pol) = false ->
  precheck_command pol c = Some x -> snd (checkPushCommand pol def false e c) = Some x.
Proof.
  intros Hd. rewrite <- (checkPushCommand_no_default pol def e c Hd). unfold precheck_command.
  destruct (checkPushCommand _ _ _ _ _) as [e' [r|]]; [|done]. by destruct (deferred e'); [|intros [= ->]].
Qed.

(** For a policy without an [@default] rule the early decision on a push never
    refuses what the full check would forward: some command it refuses is refused
    by the full check too, whatever the lookup would return. *)
Theorem push_precheck_sound g rp reasons def :
  g_receivePack g = true -> g_rp g = Some rp ->
  HasDefaultRule (rbp_BranchPolicy (g_policy g)) = false ->
  precheck g = Some (RefusedPush reasons) ->
  anyRefused (checkReceivePack (g_policy g) def false freshEval (rp_Commands rp)) = true.
Proof.
  intros Hr Hrp Hd. unfold precheck. rewrite Hr, Hrp. destruct (anyRefused _) eqn:Ea; [|done].
  intros _. unfold anyRefused in Ea. apply existsb_exists in Ea as (r & Hin & Hr').
  destruct r as [x|]; [|done]. apply in_map_iff in Hin as (c & Hc & Hin).
  generalize freshEval as e. induction (rp_Commands rp) as [|c' cs IH]; intros e; [done|].
  cbn [checkReceivePack]. destruct Hin as [->|Hin].
  - pose proof (precheck_command_no_default _ def e _ _ Hd Hc) as H.
    destruct (checkPushCommand _ _ _ _ _) as [e' r]. cbn [snd] in H. by subst r.
  - destruct (checkPushCommand _ _ _ _ _) as [e' r]. change (match r with Some _ => true | None => false end
      || anyRefused (checkReceivePack (g_policy g) def false e' cs) = true).
    rewrite (IH Hin e'). apply orb_true_r.
Qed.

End GuardTheorems.

(** ** The early decision and the default branch *)

Definition default_agent_policy : GitHubRepoBranchPolicy :=
  mkRepoPolicy (mkPolicy [mkRule "@default" "agent" false] []) false false.

Definition push_to_main : receivePackCommand :=
  mkCommand oid_a "b94a8fe5ccb19ba61c4c0873d391e987982fbbd3" "refs/heads/main".

Definition push_to_main_guard : githubGuard :=
  mkGuard "acme/app" default_agent_policy DenyNothing "POST" [] true "" true
    (Some (mkReceivePack [push_to_main] ∅ "")).

(** With an [@default] rule of role agent, a push to the default branch is
    allowed by the full check but refused by the early one, which therefore ends
    the request: the early check compares the branch with the prefixed ref, so it
    never sees the case in which the ref is the default branch. *)
Theorem default_branch_push_refused (UC : UnicodeCase) :
  checkReceivePack default_agent_policy (Ok "main") false freshEval [push_to_main] = [None] /\
  precheck push_to_main_guard =
    Some (RefusedPush [Some (BranchRole "refs/heads/main" "read" NeedAgent)]).
Proof. split; vm_compute; reflexivity. Qed.

(** ** Coverage of the guard *)

Section Coverage.
Context `{UC : UnicodeCase} `{CJ : ConfigJSON}.

Definition read_only (method : string) : bool := EqualFold method "GET" || EqualFold method "HEAD".

(** C4. No write on a repository with a branch policy goes unguarded: whatever the
    query, if the path resolves to that repository the guard exists; it either
    refuses the request outright or carries the repository's policy and the
    operation's segments, except for a git fetch, which moves no ref. *)
Theorem writes_are_guarded cache config method path query policies repo rest rp rok pol :
  cache_ok cache ->
  GitHubBranchPoliciesFromConfig config = Ok policies ->
  githubRepoAndRest method path = (repo, rest, rp, rok, false) ->
  repo <> "" -> pol_get policies repo = Some pol -> read_only method = false ->
  exists g, snd (newGitHubGuard cache config method path query) = Ok (Some g) /\
    (g_deny g <> DenyNothing \/
     g = mkGuard repo pol DenyNothing (ToUpper method) rest rok "" rp None).
Proof.
  intros Hcache Hpol Hr Hne Hget Hro. unfold newGitHubGuard.
  destruct (TrimSpace config ==s "") eqn:Eb.
  { unfold GitHubBranchPoliciesFromConfig in Hpol. rewrite Eb in Hpol. injection Hpol as <-. done. }
  rewrite Hr. fold (read_only method). rewrite Hro. apply String.eqb_neq in Hne. rewrite Hne.
  cbn [andb orb]. rewrite andb_false_r.
  pose proof (ParseGitHubBranchPolicies_value cache config Hcache) as Hp.
  destruct (ParseGitHubBranchPolicies cache config) as [cache' ps]. cbn [snd] in *. subst ps.
  rewrite Hpol. destruct policies as [|kv policies]; [done|].
  set (lower := ToLower _). destruct ((lower ==s "/graphql") && negb false).
  { eexists. split; [reflexivity|]. by left. }
  destruct ((lower ==s "/repositories") || _). { eexists. split; [reflexivity|]. by left. }
  rewrite Hget. destruct (hasMethodOverrideQuery query).
  { eexists. split; [reflexivity|]. by left. }
  eexists. split; [reflexivity|]. by right.
Qed.

End Coverage.

(** ** Concrete instances *)

Section GuardWitnesses.
#[local] Existing Instance latin_case.

Lemma push_only_agent_witness : Forall (push_ok default_agent_policy (Ok "main")) [push_to_main].
Proof. apply push_only_agent_or_new_tag. vm_compute. reflexivity. Defined.

Lemma rest_only_covered_witness :
  rest_ok default_agent_policy (Ok "main") (ToUpper "put") ["contents"; "f"] "{}".
Proof. apply rest_only_covered. vm_compute. reflexivity. Defined.

Lemma early_decision_witness :
  let '(e, r) := checkBranch default_agent_policy (Err errDefaultDeferred) true freshEval "x" NeedBase in
  match r with
  | Some _ => deferred e = false ->
              forall def, snd (checkBranch default_agent_policy def false freshEval "x" NeedBase) <> None
  | None => forall d, d <> "" ->
              snd (checkBranch default_agent_policy (Ok d) false freshEval "x" NeedBase) = None
  end.
Proof. apply early_decision_exact. reflexivity. Defined.

Definition agent_glob_policy : GitHubRepoBranchPolicy :=
  mkRepoPolicy (mkPolicy [mkRule "agent/*" "agent" false] []) false false.

Definition agent_glob_guard : githubGuard :=
  mkGuard "acme/app" agent_glob_policy DenyNothing "POST" [] true "" true
    (Some (mkReceivePack [push_to_main] ∅ "")).

Lemma push_precheck_sound_witness :
  anyRefused (checkReceivePack agent_glob_policy (Ok "main") false freshEval [push_to_main]) = true.
Proof.
  apply (push_precheck_sound agent_glob_guard (mkReceivePack [push_to_main] ∅ "")
           [Some (BranchRole "refs/heads/main" "read" NeedAgent)] (Ok "main"));
    try reflexivity; vm_compute; reflexivity.
Defined.

Definition guarded_config : PermissionConfig :=
  mkConfig "1" "github"
    [mkPermRule "app" [mkEndpoint "*" "/repos/acme/app/*" true false None] None true []
       [("Acme/app", agent_glob_policy)]].

Definition guarded_json : ConfigJSON.
Proof.
  refine {| decode_header s := if s ==s "{v1}" then Some "1" else None;
            decode_v1 s := if s ==s "{v1}" then Some guarded_config else None;
            decode_v2 s := None |}.
  - intros s. destruct (s ==s "{v1}") eqn:E; [|done]. bool_to_prop. subst. discriminate.
  - intros s c. by destruct (s ==s "{v1}"); [intros [= <-]|].
Defined.
#[local] Existing Instance guarded_json.

Lemma writes_are_guarded_witness :
  exists g, snd (newGitHubGuard ∅ "{v1}" "POST" "/repos/acme/app/merges" "") = Ok (Some g) /\
    (g_deny g <> DenyNothing \/
     g = mkGuard "acme/app" agent_glob_policy DenyNothing (ToUpper "POST") ["merges"] true "" false None).
Proof.
  apply (writes_are_guarded ∅ "{v1}" "POST" "/repos/acme/app/merges" ""
           [("acme/app", agent_glob_policy)]);
    [apply cache_ok_empty|vm_compute; reflexivity|vm_compute; reflexivity|discriminate
    |vm_compute; reflexivity|vm_compute; reflexivity].
Defined.
End GuardWitnesses.
