(* ===== verification/Approvals.v ===== *)
(** * Approvals: [internal/database/queries/approvals.go],
      [internal/server/handlers/approvals.go], the sweeper of
      [services/approval_sweeper.go] and [resolveScopedApproval] of
      [handlers/proxy.go]

    The approvals table is a list of rows in insertion order; a statement is a
    function on it.  Timestamps are seconds ([datetime('now')] has that
    resolution and its text sorts chronologically).  [ORDER BY .. LIMIT 1] keeps
    the first row among equals, an order SQL leaves open and no theorem uses.
    The two partial unique indexes of [migrations.go] allow one pending row per
    token and scope. *)

From S2P Require Import Prelude GoStrings.
Local Open Scope go_scope.
Local Open Scope Z_scope.

Inductive approval_status := Pending | Approved | Rejected | Ignored.
#[export] Instance approval_status_eq_dec : EqDecision approval_status.
Proof. solve_decision. Defined.

Record Approval := mkApproval {
  ap_ID : string;
  ap_PlaceholderID : string;
  ap_Status : approval_status;
  ap_ApprovedAt : option Z;
  ap_ExpiresAt : option Z;
  ap_RequestInfo : option string;
  ap_CreatedAt : Z;
  ap_Scope : string;
}.

Abbreviation approvals := (list Approval).

Inductive db_error :=
| ErrNoRows
| UniqueViolation
| ErrApprovalNotPending
| BadExpiry
| errApprovalContention.

Definition is_status (s : approval_status) (a : Approval) : bool := bool_decide (ap_Status a = s).

(** ** Queries *)

(** [ORDER BY key DESC LIMIT 1]; SQLite sorts NULL below everything. *)
Definition key_lt (a b : option Z) : bool :=
  match a, b with
  | None, Some _ => true
  | Some x, Some y => x <? y
  | _, None => false
  end.
Definition newest (key : Approval -> option Z) (rows : approvals) : result db_error Approval :=
  match fold_left (fun best a => match best with
                                 | None => Some a
                                 | Some b => if key_lt (key b) (key a) then Some a else best
                                 end) rows None with
  | Some a => Ok a
  | None => Err ErrNoRows
  end.

(** [expires_at IS NULL OR expires_at > datetime('now')]. *)
Definition unexpired (now : Z) (a : Approval) : bool :=
  match ap_ExpiresAt a with None => true | Some e => now <? e end.

Definition created_at (a : Approval) : option Z := Some (ap_CreatedAt a).

Definition GetValidApproval (t : approvals) (placeholderID : string) (now : Z) :=
  newest ap_ApprovedAt
    (List.filter (fun a => (ap_PlaceholderID a ==s placeholderID) && (ap_Scope a ==s "")
                           && is_status Approved a && unexpired now a) t).

Definition GetValidScopedApproval (t : approvals) (placeholderID scope : string) (now : Z) :=
  newest ap_ApprovedAt
    (List.filter (fun a => (ap_PlaceholderID a ==s placeholderID) && (ap_Scope a ==s scope)
                           && (ap_Scope a !=s "") && is_status Approved a && unexpired now a) t).

Definition GetPendingScoped (t : approvals) (placeholderID scope : string) :=
  newest created_at
    (List.filter (fun a => (ap_PlaceholderID a ==s placeholderID) && (ap_Scope a ==s scope)
                           && (ap_Scope a !=s "") && is_status Pending a) t).

Definition GetPendingTokenWide (t : approvals) (placeholderID : string) :=
  newest created_at
    (List.filter (fun a => (ap_PlaceholderID a ==s placeholderID) && (ap_Scope a ==s "")
                           && is_status Pending a) t).

Definition GetPending (t : approvals) (placeholderID : string) :=
  newest created_at
    (List.filter (fun a => (ap_PlaceholderID a ==s placeholderID) && is_status Pending a) t).

Definition LatestByPlaceholder (t : approvals) (placeholderID : string) :=
  newest created_at (List.filter (fun a => ap_PlaceholderID a ==s placeholderID) t).

Definition GetByID (t : approvals) (id : string) : result db_error Approval :=
  match List.find (fun a => ap_ID a ==s id) t with Some a => Ok a | None => Err ErrNoRows end.

Definition CountPending (t : approvals) : nat := length (List.filter (is_status Pending) t).

(** ** Inserting *)

(** The unique indexes: primary key, and one pending row per token and scope. *)
Definition insert_row (t : approvals) (a : Approval) : result db_error approvals :=
  if existsb (fun b => ap_ID b ==s ap_ID a) t then Err UniqueViolation
  else if is_status Pending a
          && existsb (fun b => (ap_PlaceholderID b ==s ap_PlaceholderID a)
                               && (ap_Scope b ==s ap_Scope a) && is_status Pending b) t
  then Err UniqueViolation
  else Ok (t ++ [a]).

Definition new_row (id placeholderID : string) (st : approval_status) (info : option string)
    (scope : string) (now : Z) : Approval :=
  mkApproval id placeholderID st None None info now scope.

Definition Create (t : approvals) (id placeholderID : string) (st : approval_status)
    (info : option string) (now : Z) : result db_error approvals :=
  insert_row t (new_row id placeholderID st info "" now).

Definition CreateScoped (t : approvals) (id placeholderID : string) (st : approval_status)
    (info : option string) (scope : string) (now : Z) : result db_error approvals :=
  insert_row t (new_row id placeholderID st info scope now).

(** [CreatePendingApprovalFor], the id and the encoded request info given. *)
Definition CreatePendingApprovalFor (t : approvals) (id placeholderID info scope : string) (now : Z)
  : result db_error approvals :=
  if scope !=s "" then CreateScoped t id placeholderID Pending (Some info) scope now
  else Create t id placeholderID Pending (Some info) now.

(** ** Deciding *)

Definition MaxApprovalMinutes : Z := 60 * 24 * 365.
Definition DefaultApprovalMinutes : Z := 1440.

Definition ClampApprovalMinutes (n : Z) : Z :=
  if n <? 1 then 1 else if MaxApprovalMinutes <? n then MaxApprovalMinutes else n.

(** The column of the token, [None] when the row cannot be read. *)
Definition PlaceholderApprovalMinutes (ttl : option Z) : Z :=
  match ttl with
  | Some n => if n <=? 0 then DefaultApprovalMinutes else n
  | None => DefaultApprovalMinutes
  end.

(** In seconds. *)
Definition ApprovalExpiry (now d : Z) : Z := now + d.

(** [UPDATE .. WHERE id = ? AND status = 'pending'] and [requireOneRow]. *)
Definition update_pending (f : Approval -> Approval) (sel : Approval -> bool) (t : approvals)
  : approvals * nat :=
  (map (fun a => if sel a && is_status Pending a then f a else a) t,
   length (List.filter (fun a => sel a && is_status Pending a) t)).

Definition requireOneRow (r : approvals * nat) : result db_error approvals :=
  if (snd r =? 0)%nat then Err ErrApprovalNotPending else Ok (fst r).

Definition set_approved (now expires : Z) (a : Approval) : Approval :=
  mkApproval (ap_ID a) (ap_PlaceholderID a) Approved (Some now) (Some expires)
    (ap_RequestInfo a) (ap_CreatedAt a) (ap_Scope a).
Definition set_status (s : approval_status) (a : Approval) : Approval :=
  mkApproval (ap_ID a) (ap_PlaceholderID a) s (ap_ApprovedAt a) (ap_ExpiresAt a)
    (ap_RequestInfo a) (ap_CreatedAt a) (ap_Scope a).

(** [None] is an expiry that [time.Parse] does not accept. *)
Definition Approve (t : approvals) (id : string) (expiresAt : option Z) (now : Z)
  : result db_error approvals :=
  match expiresAt with
  | None => Err BadExpiry
  | Some e => requireOneRow (update_pending (set_approved now e) (fun a => ap_ID a ==s id) t)
  end.

Definition Reject (t : approvals) (id : string) : result db_error approvals :=
  requireOneRow (update_pending (set_status Rejected) (fun a => ap_ID a ==s id) t).

Definition MarkExpiredAsIgnored (t : approvals) (ttlMinutes now : Z) : approvals * nat :=
  if ttlMinutes <=? 0 then (t, 0%nat)
  else update_pending (set_status Ignored) (fun a => ap_CreatedAt a <? now - 60 * ttlMinutes) t.

(** The sweeper's timeout: the setting as [strconv.Atoi] reads it. *)
Definition sweeper_ttl (setting : option Z) : Z :=
  match setting with Some n => if n <=? 0 then 60 else n | None => 60 end.

(** ** The admin handlers *)

Inductive http_answer := StatusOK | StatusNotFound | StatusConflict | StatusInternalServerError.

Definition decide_guard (t : approvals) (id : string) (k : Approval -> approvals * http_answer)
  : approvals * http_answer :=
  match GetByID t id with
  | Err _ => (t, StatusNotFound)
  | Ok existing => if negb (is_status Pending existing) then (t, StatusConflict) else k existing
  end.

Definition answer_of (t : approvals) (r : result db_error approvals) : approvals * http_answer :=
  match r with
  | Ok t' => (t', StatusOK)
  | Err ErrApprovalNotPending => (t, StatusConflict)
  | Err _ => (t, StatusInternalServerError)
  end.

(** [ttls]: the approval_ttl_minutes column; [duration]: the request's field, 0
    when absent or unreadable. *)
Definition handleApprove (ttls : string -> option Z) (t : approvals) (id : string) (duration now : Z)
  : approvals * http_answer :=
  decide_guard t id (fun existing =>
    let minutes := if duration <=? 0 then PlaceholderApprovalMinutes (ttls (ap_PlaceholderID existing))
                   else duration in
    answer_of t (Approve t id (Some (ApprovalExpiry now (60 * ClampApprovalMinutes minutes))) now)).

Definition handleReject (t : approvals) (id : string) : approvals * http_answer :=
  decide_guard t id (fun _ => answer_of t (Reject t id)).

(** ** Finding or creating the approval of one request *)

Section Resolve.
(** The store as the operations see it: each may find it changed by others. *)
Context {W : Type}.

Record scopedApprovalOps := mkOps {
  op_pending : W -> W * result db_error string;
  op_valid : W -> W * result db_error string;
  op_create : W -> W * result db_error string;
}.

Record resolution := mkResolution {
  rv_id : string;
  rv_created : bool;
  rv_forward : bool;
}.

Fixpoint resolve_attempts (n : nat) (ops : scopedApprovalOps) (w : W) : W * result db_error resolution :=
  match n with
  | O => (w, Err errApprovalContention)
  | S n' =>
      let '(w1, c) := op_create ops w in
      match c with
      | Ok nid => (w1, Ok (mkResolution nid true false))
      | Err UniqueViolation =>
          let '(w2, p) := op_pending ops w1 in
          match p with
          | Ok pid => (w2, Ok (mkResolution pid false false))
          | Err ErrNoRows =>
              let '(w3, v) := op_valid ops w2 in
              match v with
              | Ok vid => (w3, Ok (mkResolution vid false true))
              | Err ErrNoRows => resolve_attempts n' ops w3
              | Err e => (w3, Err e)
              end
          | Err e => (w2, Err e)
          end
      | Err e => (w1, Err e)
      end
  end.

Definition resolveScopedApproval (ops : scopedApprovalOps) (w : W) : W * result db_error resolution :=
  let '(w1, p) := op_pending ops w in
  match p with
  | Ok pid => (w1, Ok (mkResolution pid false false))
  | Err _ => resolve_attempts 3 ops w1
  end.

End Resolve.
Arguments scopedApprovalOps : clear implicits.

(** ** Histories *)

Inductive action :=
| ACreate (id placeholderID info scope : string) (now : Z)
| AApprove (id : string) (expiresAt : option Z) (now : Z)
| AReject (id : string)
| ASweep (ttlMinutes now : Z).

Definition or_same (t : approvals) (r : result db_error approvals) : approvals :=
  match r with Ok t' => t' | Err _ => t end.

Definition act (t : approvals) (a : action) : approvals :=
  match a with
  | ACreate id ph info scope now => or_same t (CreatePendingApprovalFor t id ph info scope now)
  | AApprove id e now => or_same t (Approve t id e now)
  | AReject id => or_same t (Reject t id)
  | ASweep ttl now => fst (MarkExpiredAsIgnored t ttl now)
  end.

Definition history (t : approvals) (acts : list action) : approvals := fold_left act acts t.

(** ** Theorems: rows only move from pending to decided *)

(** [b] is [a], or the decision on a pending [a]. *)
Definition evolves (a b : Approval) : Prop :=
  b = a \/
  (ap_Status a = Pending /\ ap_Status b <> Pending /\ ap_ID b = ap_ID a /\
   ap_PlaceholderID b = ap_PlaceholderID a /\ ap_Scope b = ap_Scope a /\
   ap_RequestInfo b = ap_RequestInfo a /\ ap_CreatedAt b = ap_CreatedAt a).

Lemma evolves_refl a : evolves a a.
Proof. by left. Qed.

Lemma evolves_trans a b c : evolves a b -> evolves b c -> evolves a c.
Proof.
  intros [->|(Hp & Hn & H)] [->|(Hp' & Hn' & H')]; [by left|by right|by right|congruence].
Qed.

Lemma is_status_true s a : is_status s a = true <-> ap_Status a = s.
Proof. unfold is_status. apply bool_decide_eq_true. Qed.

(** An update of pending rows by a deciding function. *)
Definition decides (f : Approval -> Approval) : Prop :=
  forall a, ap_Status (f a) <> Pending /\ ap_ID (f a) = ap_ID a /\
    ap_PlaceholderID (f a) = ap_PlaceholderID a /\ ap_Scope (f a) = ap_Scope a /\
    ap_RequestInfo (f a) = ap_RequestInfo a /\ ap_CreatedAt (f a) = ap_CreatedAt a.

Lemma set_approved_decides now e : decides (set_approved now e).
Proof. intros a. by repeat split. Qed.
Lemma set_status_decides s : s <> Pending -> decides (set_status s).
Proof. intros H a. by repeat split. Qed.

Lemma update_pending_evolves f sel t :
  decides f -> Forall2 evolves t (fst (update_pending f sel t)).
Proof.
  intros Hf. cbn [update_pending fst]. induction t as [|a t IH]; constructor; [|done].
  destruct (sel a && is_status Pending a) eqn:E; [right|by left].
  bool_to_prop. apply is_status_true in H0. destruct (Hf a) as (? & ? & ? & ? & ? & ?). auto 10.
Qed.

Lemma Forall2_evolves_refl t : Forall2 evolves t t.
Proof. induction t; constructor; auto using evolves_refl. Qed.

(** Every action keeps the rows, evolved, and may append. *)
Lemma act_evolves t a : exists new, exists t', act t a = t' ++ new /\ Forall2 evolves t t'.
Proof.
  assert (Hsame : exists new t', t = t' ++ new /\ Forall2 evolves t t').
  { exists [], t. rewrite app_nil_r. auto using Forall2_evolves_refl. }
  assert (Hins : forall row, exists new t',
    or_same t (insert_row t row) = t' ++ new /\ Forall2 evolves t t').
  { intros row. unfold insert_row. destruct (existsb _ t); [done|]. destruct (_ && _); [done|].
    exists [row], t. auto using Forall2_evolves_refl. }
  assert (Hupd : forall f sel, decides f -> exists new t',
    or_same t (requireOneRow (update_pending f sel t)) = t' ++ new /\ Forall2 evolves t t').
  { intros f sel Hf. unfold requireOneRow. destruct (_ =? _)%nat; [done|].
    exists [], (fst (update_pending f sel t)). rewrite app_nil_r. auto using update_pending_evolves. }
  destruct a as [id ph info scope now|id [e|] now|id|ttl now]; cbn [act]; try done.
  - unfold CreatePendingApprovalFor. destruct (scope !=s ""); apply Hins.
  - apply Hupd, set_approved_decides.
  - by apply Hupd, set_status_decides.
  - unfold MarkExpiredAsIgnored. destruct (ttl <=? 0); [done|].
    eexists [], _. rewrite app_nil_r. split; [reflexivity|]. by apply update_pending_evolves, set_status_decides.
Qed.

Lemma Forall2_evolves_app t1 t2 t' :
  Forall2 evolves (t1 ++ t2) t' -> exists u1 u2, t' = u1 ++ u2 /\ Forall2 evolves t1 u1.
Proof. intros (u1 & u2 & H1 & H2 & ->)%Forall2_app_inv_l. eauto. Qed.

Lemma history_evolves t acts : exists new t', history t acts = t' ++ new /\ Forall2 evolves t t'.
Proof.
  revert t. induction acts as [|a acts IH]; intros t; cbn [history fold_left].
  { exists [], t. rewrite app_nil_r. auto using Forall2_evolves_refl. }
  destruct (act_evolves t a) as (new & t1 & He & H1). rewrite He.
  destruct (IH (t1 ++ new)) as (new2 & t2 & He2 & H2). unfold history in He2. rewrite He2.
  apply Forall2_evolves_app in H2 as (u1 & u2 & -> & H2).
  exists (u2 ++ new2), u1. rewrite app_assoc. split; [done|].
  clear -H1 H2. revert u1 H2. induction H1 as [|a b t t1 Hab _ IH]; intros u1 H2;
    inversion H2; subst; constructor; eauto using evolves_trans.
Qed.

(** Decisions are final: whatever creations, approvals, rejections and sweeps
    follow, in any order, every row stays, and a row that is not pending stays
    exactly as it is; a pending one can only become its own decision. *)
Theorem decisions_are_final t acts :
  exists t' new, history t acts = t' ++ new /\
    Forall2 (fun a b => evolves a b /\ (ap_Status a <> Pending -> b = a)) t t'.
Proof.
  destruct (history_evolves t acts) as (new & t' & He & H). exists t', new. split; [done|].
  eapply Forall2_impl; [exact H|]. intros a b Hab. split; [done|].
  destruct Hab as [?|(? & _)]; done.
Qed.

(** ** Theorems: one pending approval per token and scope *)

Definition slot (a : Approval) : string * string := (ap_PlaceholderID a, ap_Scope a).

(** The unique indexes hold. *)
Record table_wf (t : approvals) : Prop := {
  tw_ids : NoDup (map ap_ID t);
  tw_pending : NoDup (map slot (List.filter (is_status Pending) t));
}.

Lemma map_map_id {A B} (g : A -> B) (f : A -> A) (l : list A) :
  (forall a, g (f a) = g a) -> map g (map f l) = map g l.
Proof. intros H. rewrite map_map. by apply map_ext. Qed.

Lemma update_pending_wf f sel t : decides f -> table_wf t -> table_wf (fst (update_pending f sel t)).
Proof.
  intros Hf [Hi Hp]. cbn [update_pending fst]. split.
  - rewrite map_map_id; [done|]. intros a. destruct (_ && _); [|done]. apply Hf.
  - clear Hi. induction t as [|a t IH]; [done|]. cbn [map List.filter] in *.
    destruct (is_status Pending a) eqn:Ea.
    + cbn [map] in Hp. apply NoDup_cons in Hp as [Hn Hp]. rewrite andb_true_r.
      destruct (sel a).
      * assert (is_status Pending (f a) = false) as ->; [|by apply IH].
        apply not_true_is_false. rewrite is_status_true. apply Hf.
      * rewrite Ea. cbn [map]. apply NoDup_cons. split; [|by apply IH].
        intros Hin. apply Hn. clear -Hin Hf. induction t as [|b t IH]; [done|].
        cbn [map List.filter] in *. destruct (is_status Pending b) eqn:Eb.
        -- rewrite andb_true_r in Hin. destruct (sel b).
           ++ destruct (is_status Pending (f b)) eqn:Ec; [|right; auto].
              apply is_status_true in Ec. by destruct (Hf b).
           ++ rewrite Eb in Hin. cbn [map] in *. apply elem_of_cons in Hin as [->|Hin]; [left|right; auto].
        -- rewrite andb_false_r, Eb in Hin. auto.
    + rewrite andb_false_r, Ea. auto.
Qed.

Lemma insert_row_wf t a t' : table_wf t -> insert_row t a = Ok t' -> table_wf t'.
Proof.
  intros [Hi Hp]. unfold insert_row. destruct (existsb _ t) eqn:E1; [done|].
  destruct (is_status Pending a && _) eqn:E2; [done|]. intros [= <-]. split.
  - rewrite map_app. apply NoDup_app. split; [done|]. split; [|apply NoDup_singleton].
    intros x Hx Hin. apply list_elem_of_singleton in Hin as ->. cbn [map] in *.
    apply list_elem_of_In, in_map_iff in Hx as (b & Hb & Hin).
    assert (existsb (fun b => ap_ID b ==s ap_ID a) t = true); [|congruence].
    apply existsb_exists. exists b. rewrite Hb, String.eqb_refl. done.
  - rewrite List.filter_app. cbn [List.filter]. destruct (is_status Pending a) eqn:Ea.
    2:{ by rewrite app_nil_r. }
    cbn [andb] in E2. rewrite map_app. apply NoDup_app. split; [done|]. split; [|apply NoDup_singleton].
    intros x Hx Hin. apply list_elem_of_singleton in Hin as ->.
    apply list_elem_of_In, in_map_iff in Hx as (b & Hb & Hin). apply filter_In in Hin as [Hin Hs].
    assert (existsb (fun b => (ap_PlaceholderID b ==s ap_PlaceholderID a)
       && (ap_Scope b ==s ap_Scope a) && is_status Pending b) t = true); [|congruence].
    apply existsb_exists. exists b. injection Hb as -> ->. rewrite !String.eqb_refl, Hs. done.
Qed.

Lemma act_wf t a : table_wf t -> table_wf (act t a).
Proof.
  intros Hw.
  assert (Hins : forall row, table_wf (or_same t (insert_row t row))).
  { intros row. destruct (insert_row t row) eqn:E; [|done]. by apply (insert_row_wf t row). }
  assert (Hupd : forall f sel, decides f -> table_wf (or_same t (requireOneRow (update_pending f sel t)))).
  { intros f sel Hf. unfold requireOneRow. destruct (_ =? _)%nat; [done|]. by apply update_pending_wf. }
  destruct a as [id ph info scope now|id [e|] now|id|ttl now]; cbn [act]; try done.
  - unfold CreatePendingApprovalFor. destruct (scope !=s ""); apply Hins.
  - apply Hupd, set_approved_decides.
  - by apply Hupd, set_status_decides.
  - unfold MarkExpiredAsIgnored. destruct (ttl <=? 0); [done|].
    by apply update_pending_wf; [apply set_status_decides|].
Qed.

Lemma history_wf t acts : table_wf t -> table_wf (history t acts).
Proof. revert t. induction acts as [|a acts IH]; intros t H; [done|]. by apply IH, act_wf. Qed.

(** From the empty table on, no history of operations ever leaves two pending
    approvals for the same token and scope, nor two rows with one id. *)
Theorem one_pending_per_scope acts :
  let t := history [] acts in
  NoDup (map ap_ID t) /\ NoDup (map slot (List.filter (is_status Pending) t)).
Proof.
  cbv zeta. destruct (history_wf [] acts) as [? ?]; [split; apply NoDup_nil_2|done].
Qed.

(** ** Theorems: what counts as a valid approval *)

Lemma newest_spec key rows :
  match newest key rows with
  | Ok a => In a rows
  | Err e => rows = [] /\ e = ErrNoRows
  end.
Proof.
  unfold newest.
  assert (H : forall best, match fold_left (fun best a => match best with
                  | None => Some a
                  | Some b => if key_lt (key b) (key a) then Some a else best
                  end) rows best with
            | Some a => In a rows \/ best = Some a
            | None => rows = [] /\ best = None
            end).
  { induction rows as [|r rows IH]; intros best; cbn [fold_left]; [by destruct best; [right|]|].
    specialize (IH (match best with
                    | None => Some r
                    | Some b => if key_lt (key b) (key r) then Some r else best
                    end)).
    destruct (fold_left _ rows _) as [a|].
    - destruct IH as [IH|IH]; [left; by right|]. destruct best as [b|].
      + destruct (key_lt _ _); [injection IH as <-; left; by left|by right].
      + injection IH as <-. left. by left.
    - destruct IH as [_ IH]. destruct best as [b|]; [destruct (key_lt _ _); discriminate|discriminate]. }
  specialize (H None). destruct (fold_left _ rows None); [destruct H as [|H]; done|].
  destruct H as [-> _]. done.
Qed.

Lemma newest_ok key rows : is_Ok (newest key rows) = true <-> rows <> [].
Proof.
  pose proof (newest_spec key rows) as H. destruct (newest key rows); simpl.
  - split; [|done]. intros _ ->. done.
  - destruct H as [-> _]. by split.
Qed.

Lemma filter_nonempty {A} (f : A -> bool) (l : list A) :
  List.filter f l <> [] <-> exists a, In a l /\ f a = true.
Proof.
  split.
  - destruct (List.filter f l) as [|a l'] eqn:E; [done|]. intros _. exists a.
    apply filter_In. rewrite E. by left.
  - intros (a & H) E. apply filter_In in H. rewrite E in H. done.
Qed.

(** An approval that lets requests through at [now]. *)
Definition grants (ph scope : string) (now : Z) (a : Approval) : Prop :=
  slot a = (ph, scope) /\ ap_Status a = Approved /\ unexpired now a = true.

Lemma valid_wide_iff t ph now :
  is_Ok (GetValidApproval t ph now) = true <-> exists a, In a t /\ grants ph "" now a.
Proof.
  unfold GetValidApproval, grants, slot. rewrite newest_ok, filter_nonempty. split.
  - intros (a & Hin & H). bool_to_prop. apply is_status_true in H1. exists a. repeat split; congruence.
  - intros (a & Hin & [= Hph Hsc] & Hs & Hu). exists a. split; [done|]. rewrite Hph, Hsc.
    apply is_status_true in Hs. by rewrite !String.eqb_refl, Hs, Hu.
Qed.

Lemma valid_scoped_iff t ph scope now :
  is_Ok (GetValidScopedApproval t ph scope now) = true <->
  scope <> "" /\ exists a, In a t /\ grants ph scope now a.
Proof.
  unfold GetValidScopedApproval, grants, slot. rewrite newest_ok, filter_nonempty. split.
  - intros (a & Hin & H). bool_to_prop. apply is_status_true in H1. split; [congruence|].
    exists a. repeat split; congruence.
  - intros (Hne & a & Hin & [= Hph Hsc] & Hs & Hu). exists a. split; [done|]. rewrite Hph, Hsc.
    apply is_status_true in Hs. apply String.eqb_neq in Hne. by rewrite !String.eqb_refl, Hne, Hs, Hu.
Qed.

(** A lookup for a token-wide approval succeeds exactly when the table has an
    unexpired approved row of that token with the empty scope, a lookup for a
    request signature exactly when it has one with that very signature: neither
    kind ever stands in for the other. *)
Theorem valid_approval_exact t ph scope now :
  (is_Ok (GetValidApproval t ph now) = true <-> exists a, In a t /\ grants ph "" now a) /\
  (is_Ok (GetValidScopedApproval t ph scope now) = true <->
   scope <> "" /\ exists a, In a t /\ grants ph scope now a).
Proof. split; [apply valid_wide_iff|apply valid_scoped_iff]. Qed.

Lemma ClampApprovalMinutes_bounds n : 1 <= ClampApprovalMinutes n <= MaxApprovalMinutes.
Proof.
  unfold ClampApprovalMinutes, MaxApprovalMinutes.
  destruct (n <? 1) eqn:E1; [lia|]. destruct (_ <? n) eqn:E2; bool_to_prop; lia.
Qed.

(** When an admin approves, the one pending row with that id becomes an
    approval of the same token and scope that starts to let requests through and
    stops after between one minute and one year: the requested minutes, or the
    token's, clamped to that range. *)
Theorem approve_grants_for_clamped_time ttls t id duration now t' :
  handleApprove ttls t id duration now = (t', StatusOK) ->
  exists a m, In a t /\ ap_ID a = id /\ ap_Status a = Pending /\
    m = ClampApprovalMinutes (if duration <=? 0
          then PlaceholderApprovalMinutes (ttls (ap_PlaceholderID a)) else duration) /\
    1 <= m <= MaxApprovalMinutes /\ In (set_approved now (now + 60 * m) a) t' /\
    forall u, unexpired u (set_approved now (now + 60 * m) a) = (u <? now + 60 * m).
Proof.
  unfold handleApprove, decide_guard, GetByID.
  destruct (List.find _ t) as [a|] eqn:Ef; [|done]. apply find_some in Ef as [Hin Hid]. bool_to_prop.
  destruct (is_status Pending a) eqn:Ep; cbn [negb]; [|done].
  set (m := ClampApprovalMinutes _). unfold ApprovalExpiry, Approve, requireOneRow.
  destruct (_ =? _)%nat; [done|]. cbn [answer_of]. intros [= <-]. exists a, m.
  pose proof Ep as Hs. apply is_status_true in Hs.
  repeat (split; [solve [done | apply ClampApprovalMinutes_bounds]|]). split; [|done].
  cbn [update_pending fst]. apply in_map_iff. exists a. rewrite Hid, String.eqb_refl, Ep. done.
Qed.

(** ** Theorems: racing requests *)

(** The table, the clock, and what others do before each of the operations: the
    time, their actions, and the id drawn for a creation. *)
Record world := mkWorld {
  w_table : approvals;
  w_now : Z;
  w_sched : list (Z * list action * string);
}.

Definition advance (w : world) : world * string :=
  match w_sched w with
  | [] => (w, "")
  | (now, acts, id) :: rest => (mkWorld (history (w_table w) acts) now rest, id)
  end.

Definition id_of (r : result db_error Approval) : result db_error string :=
  match r with Ok a => Ok (ap_ID a) | Err e => Err e end.

(** The operations [holdForApproval] builds for one request. *)
Definition hold_ops (ph info scope : string) : scopedApprovalOps world := {|
  op_pending w :=
    let w' := fst (advance w) in
    (w', id_of (if scope ==s "" then GetPendingTokenWide (w_table w') ph
                else GetPendingScoped (w_table w') ph scope));
  op_valid w :=
    let w' := fst (advance w) in
    (w', id_of (if scope ==s "" then GetValidApproval (w_table w') ph (w_now w')
                else GetValidScopedApproval (w_table w') ph scope (w_now w')));
  op_create w :=
    let '(w', id) := advance w in
    match CreatePendingApprovalFor (w_table w') id ph info scope (w_now w') with
    | Ok t => (mkWorld t (w_now w') (w_sched w'), Ok id)
    | Err e => (w', Err e)
    end;
|}.

Lemma advance_wf w : table_wf (w_table w) -> table_wf (w_table (fst (advance w))).
Proof.
  unfold advance. destruct (w_sched w) as [|[[now acts] id] rest]; [done|]. by apply history_wf.
Qed.

(** The row a resolution names. *)
Definition resolved (ph scope : string) (w : world) (v : resolution) : Prop :=
  exists a, In a (w_table w) /\ ap_ID a = rv_id v /\ slot a = (ph, scope) /\
    if rv_forward v then ap_Status a = Approved /\ unexpired (w_now w) a = true
    else ap_Status a = Pending.

Lemma op_pending_spec ph info scope w :
  let '(w', r) := op_pending (hold_ops ph info scope) w in
  (table_wf (w_table w) -> table_wf (w_table w')) /\
  match r with Ok id => resolved ph scope w' (mkResolution id false false) | Err e => e = ErrNoRows end.
Proof.
  cbn [hold_ops op_pending]. split; [apply advance_wf|]. set (w' := fst (advance w)).
  destruct (scope ==s "") eqn:E; bool_to_prop.
  - unfold GetPendingTokenWide. pose proof (newest_spec created_at (List.filter (fun a =>
      (ap_PlaceholderID a ==s ph) && (ap_Scope a ==s "") && is_status Pending a) (w_table w'))) as H.
    destruct (newest _ _) as [a|]; [|tauto]. apply filter_In in H as [Hin H]. bool_to_prop.
    apply is_status_true in H0. exists a. unfold slot. subst. repeat split; congruence.
  - unfold GetPendingScoped. pose proof (newest_spec created_at (List.filter (fun a =>
      (ap_PlaceholderID a ==s ph) && (ap_Scope a ==s scope) && (ap_Scope a !=s "")
      && is_status Pending a) (w_table w'))) as H.
    destruct (newest _ _) as [a|]; [|tauto]. apply filter_In in H as [Hin H]. bool_to_prop.
    apply is_status_true in H0. exists a. unfold slot. repeat split; congruence.
Qed.

Lemma op_valid_spec ph info scope w :
  let '(w', r) := op_valid (hold_ops ph info scope) w in
  (table_wf (w_table w) -> table_wf (w_table w')) /\
  match r with Ok id => resolved ph scope w' (mkResolution id false true) | Err e => e = ErrNoRows end.
Proof.
  cbn [hold_ops op_valid]. split; [apply advance_wf|]. set (w' := fst (advance w)).
  destruct (scope ==s "") eqn:E; bool_to_prop.
  - unfold GetValidApproval. pose proof (newest_spec ap_ApprovedAt (List.filter (fun a =>
      (ap_PlaceholderID a ==s ph) && (ap_Scope a ==s "") && is_status Approved a
      && unexpired (w_now w') a) (w_table w'))) as H.
    destruct (newest _ _) as [a|]; [|tauto]. apply filter_In in H as [Hin H]. bool_to_prop.
    apply is_status_true in H1. exists a. unfold slot. subst. repeat split; congruence.
  - unfold GetValidScopedApproval. pose proof (newest_spec ap_ApprovedAt (List.filter (fun a =>
      (ap_PlaceholderID a ==s ph) && (ap_Scope a ==s scope) && (ap_Scope a !=s "")
      && is_status Approved a && unexpired (w_now w') a) (w_table w'))) as H.
    destruct (newest _ _) as [a|]; [|tauto]. apply filter_In in H as [Hin H]. bool_to_prop.
    apply is_status_true in H1. exists a. unfold slot. repeat split; congruence.
Qed.

Lemma op_create_spec ph info scope w :
  let '(w', r) := op_create (hold_ops ph info scope) w in
  (table_wf (w_table w) -> table_wf (w_table w')) /\
  match r with Ok id => resolved ph scope w' (mkResolution id true false) | Err e => e = UniqueViolation end.
Proof.
  cbn [hold_ops op_create]. pose proof (advance_wf w) as Hw. destruct (advance w) as [w' id].
  cbn [fst] in Hw. unfold CreatePendingApprovalFor, CreateScoped, Create.
  assert (Hrow : (if scope !=s "" then insert_row (w_table w') (new_row id ph Pending (Some info) scope (w_now w'))
                  else insert_row (w_table w') (new_row id ph Pending (Some info) "" (w_now w'))) =
                 insert_row (w_table w') (new_row id ph Pending (Some info) scope (w_now w'))).
  { destruct (scope ==s "") eqn:E; [bool_to_prop; by subst|done]. }
  rewrite Hrow. destruct (insert_row _ _) as [t|e] eqn:Ei.
  - split; [intros H; by eapply insert_row_wf; [apply Hw|]|].
    unfold insert_row in Ei. destruct (existsb _ _); [done|]. destruct (_ && _); [done|].
    injection Ei as <-. eexists. split; [apply in_or_app; right; left; reflexivity|]. done.
  - split; [done|]. unfold insert_row in Ei. destruct (existsb _ _); [congruence|].
    destruct (_ && _); congruence.
Qed.

Lemma resolve_attempts_spec n ph info scope w :
  let '(w', r) := resolve_attempts n (hold_ops ph info scope) w in
  (table_wf (w_table w) -> table_wf (w_table w')) /\
  match r with Ok v => resolved ph scope w' v | Err e => e = errApprovalContention end.
Proof.
  revert w. induction n as [|n IH]; intros w; cbn [resolve_attempts]; [done|].
  pose proof (op_create_spec ph info scope w) as H1.
  destruct (op_create _ w) as [w1 [id|e]]; [done|]. destruct H1 as [W1 ->].
  pose proof (op_pending_spec ph info scope w1) as H2.
  destruct (op_pending _ w1) as [w2 [id|e]]; [by destruct H2; split; auto|]. destruct H2 as [W2 ->].
  pose proof (op_valid_spec ph info scope w2) as H3.
  destruct (op_valid _ w2) as [w3 [id|e]]; [by destruct H3; split; auto|]. destruct H3 as [W3 ->].
  specialize (IH w3). destruct (resolve_attempts n _ w3) as [w4 r]. destruct IH as [W4 ?]. split; auto.
Qed.

Lemma resolve_race_spec ph info scope w :
  table_wf (w_table w) ->
  let '(w', r) := resolveScopedApproval (hold_ops ph info scope) w in
  table_wf (w_table w') /\
  match r with Ok v => resolved ph scope w' v | Err e => e = errApprovalContention end.
Proof.
  intros Hw. unfold resolveScopedApproval. pose proof (op_pending_spec ph info scope w) as H.
  destruct (op_pending _ w) as [w1 [id|e]]; destruct H as [W H]; [by split; auto|].
  pose proof (resolve_attempts_spec 3 ph info scope w1) as H1.
  destruct (resolve_attempts 3 _ w1) as [w2 r]. destruct H1 as [W1 ?]. split; auto.
Qed.

(** C16. However other requests, admins and the sweeper interleave with a request
    that needs approval, its resolution names a row of exactly that token and
    scope: a pending one when the request is held, an approved and unexpired one
    when it is forwarded; a lost insertion race never surfaces as an error, only
    repeated contention does, and the table keeps its unique indexes. *)
Theorem resolve_race_outcome ph info scope w :
  table_wf (w_table w) ->
  let '(w', r) := resolveScopedApproval (hold_ops ph info scope) w in
  table_wf (w_table w') /\
  match r with Ok v => resolved ph scope w' v | Err e => e = errApprovalContention end.
Proof. apply resolve_race_spec. Qed.

(** ** Concrete instances *)

Definition demo_table : approvals := [new_row "a1" "ph" Pending None "rule:x" 100].

Lemma approve_grants_witness :
  exists a m, In a demo_table /\ ap_ID a = "a1" /\ ap_Status a = Pending /\
    m = ClampApprovalMinutes (if 5 <=? 0
          then PlaceholderApprovalMinutes None else 5) /\
    1 <= m <= MaxApprovalMinutes /\
    In (set_approved 200 (200 + 60 * m) a) [set_approved 200 500 (new_row "a1" "ph" Pending None "rule:x" 100)] /\
    forall u, unexpired u (set_approved 200 (200 + 60 * m) a) = (u <? 200 + 60 * m).
Proof.
  apply (approve_grants_for_clamped_time (fun _ => None) demo_table "a1" 5 200). reflexivity.
Defined.

Lemma resolve_race_witness :
  let '(w', r) := resolveScopedApproval (hold_ops "ph" "" "rule:x")
    (mkWorld [] 0 [(1, [], ""); (2, [ACreate "b" "ph" "" "rule:x" 2], "c"); (3, [AApprove "b" (Some 99) 3], "")]) in
  table_wf (w_table w') /\
  match r with Ok v => resolved "ph" "rule:x" w' v | Err e => e = errApprovalContention end.
Proof.
  apply resolve_race_outcome. split; apply NoDup_nil_2.
Defined.
