(* ===== verification/KeyResolver.v ===== *)
(** * From a phantom token to a real key: [internal/server/services/key_resolver.go],
      [internal/database/queries/groups.go] and [resolveProxyKey] of
      [handlers/proxy.go]

    The tables are lists of rows; the services a key or group refers to exist, as
    the foreign keys demand, so the joins with [services] drop no row.  A query
    that leaves a column out of its SELECT leaves the Go field at its zero value,
    and so does [scan_member] here.  AES-GCM decryption is the parameter
    [decrypt]. *)

From S2P Require Import Prelude GoStrings Approvals.
Local Open Scope go_scope.
Local Open Scope Z_scope.

Record PlaceholderKey := mkPlaceholder {
  pk_ID : string;
  pk_Placeholder : string;
  pk_ServiceID : string;
  pk_APIKeyID : option string;
  pk_GroupID : option string;
  pk_ClientID : string;
  pk_PermissionConfig : option string;
  pk_RequiresApproval : bool;
  pk_IsActive : bool;
  pk_UsageCount : Z;
}.

Record APIKey := mkAPIKey {
  k_ID : string;
  k_ServiceID : string;
  k_KeyEncrypted : string;
  k_ACL : string;
  k_RefreshToken : string;
  k_UpstreamProxyURL : string;
  k_IsActive : bool;
  k_UsageCount : Z;
}.

Record APIKeyGroup := mkGroup {
  grp_ID : string;
  grp_Strategy : string;
  grp_LastIndex : Z;
}.

Record APIKeyGroupMember := mkMember {
  gm_GroupID : string;
  gm_APIKeyID : string;
  gm_Priority : Z;
}.

Record database := mkDB {
  db_placeholders : list PlaceholderKey;
  db_keys : list APIKey;
  db_groups : list APIKeyGroup;
  db_members : list APIKeyGroupMember;
  db_approvals : approvals;
}.

Inductive resolve_error :=
| NoRows
| GroupEmpty (groupID : string)
| DecryptKey
| DecryptProxy
| DecryptRefresh
| IndexPanic.

Inductive resolve_refusal :=
| NoRefusal
| UnknownPlaceholder
| NotBoundToClient
| PlaceholderInactive
| ApprovalRequired
| NoKeyAssigned
| APIKeyInactive
| NoPlaceholderForService
| WrongService
| PhantomTokenRequired.

Record ResolveResult := mkResolve {
  rr_RealKey : string;
  rr_RealRefreshToken : string;
  rr_APIKeyID : string;
  rr_GroupID : string;
  rr_ServiceID : string;
  rr_PlaceholderID : string;
  rr_Placeholder : string;
  rr_PermissionConfig : string;
  rr_APIKeyACL : string;
  rr_UpstreamProxyURL : string;
  rr_IsRefreshable : bool;
  rr_Permitted : bool;
  rr_NeedApproval : bool;
  rr_ApprovedWide : bool;
  rr_Error : resolve_refusal;
}.

Definition refuse (e : resolve_refusal) : ResolveResult :=
  mkResolve "" "" "" "" "" "" "" "" "" "" false false false false e.
Definition need_approval (placeholderID : string) : ResolveResult :=
  mkResolve "" "" "" "" "" placeholderID "" "" "" "" false false true false ApprovalRequired.

(** ** Queries *)

Definition find_row {A} (f : A -> bool) (rows : list A) : result resolve_error A :=
  match List.find f rows with Some a => Ok a | None => Err NoRows end.

Definition GetByPlaceholder (db : database) (placeholder : string) :=
  find_row (fun p => (pk_Placeholder p ==s placeholder) && pk_IsActive p) (db_placeholders db).

Definition GetByClientAndService (db : database) (clientID serviceID : string) :=
  find_row (fun p => (pk_ClientID p ==s clientID) && (pk_ServiceID p ==s serviceID) && pk_IsActive p)
    (db_placeholders db).

Definition GetKeyByID (db : database) (id : string) := find_row (fun k => k_ID k ==s id) (db_keys db).
Definition GetGroupByID (db : database) (id : string) := find_row (fun g => grp_ID g ==s id) (db_groups db).

Definition bump_placeholder (id : string) (p : PlaceholderKey) : PlaceholderKey :=
  if pk_ID p ==s id
  then mkPlaceholder (pk_ID p) (pk_Placeholder p) (pk_ServiceID p) (pk_APIKeyID p) (pk_GroupID p)
         (pk_ClientID p) (pk_PermissionConfig p) (pk_RequiresApproval p) (pk_IsActive p)
         (pk_UsageCount p + 1)
  else p.
Definition bump_key (id : string) (k : APIKey) : APIKey :=
  if k_ID k ==s id
  then mkAPIKey (k_ID k) (k_ServiceID k) (k_KeyEncrypted k) (k_ACL k) (k_RefreshToken k)
         (k_UpstreamProxyURL k) (k_IsActive k) (k_UsageCount k + 1)
  else k.

Definition IncrementPlaceholderUsage (db : database) (id : string) : database :=
  mkDB (map (bump_placeholder id) (db_placeholders db)) (db_keys db) (db_groups db) (db_members db)
    (db_approvals db).
Definition IncrementKeyUsage (db : database) (id : string) : database :=
  mkDB (db_placeholders db) (map (bump_key id) (db_keys db)) (db_groups db) (db_members db)
    (db_approvals db).

(** [ORDER BY m.priority ASC]. *)
Fixpoint insert_priority (m : APIKeyGroupMember) (l : list APIKeyGroupMember) : list APIKeyGroupMember :=
  match l with
  | [] => [m]
  | x :: l' => if gm_Priority x <=? gm_Priority m then x :: insert_priority m l' else m :: l
  end.
Definition by_priority (l : list APIKeyGroupMember) : list APIKeyGroupMember :=
  fold_left (fun acc m => insert_priority m acc) l [].

(** The columns [GetMembers] selects: neither acl nor upstream_proxy_url. *)
Definition scan_member (k : APIKey) : APIKey :=
  mkAPIKey (k_ID k) (k_ServiceID k) (k_KeyEncrypted k) "" (k_RefreshToken k) "" (k_IsActive k)
    (k_UsageCount k).

Definition GetMembers (db : database) (groupID : string) : list APIKey :=
  omap (fun m => match List.find (fun k => (k_ID k ==s gm_APIKeyID m) && k_IsActive k) (db_keys db) with
                 | Some k => Some (scan_member k)
                 | None => None
                 end)
    (by_priority (List.filter (fun m => gm_GroupID m ==s groupID) (db_members db))).

(** The write operations of [GroupQueries]. *)
Definition AddMember (db : database) (groupID apiKeyID : string) (priority : Z) : database :=
  let same m := (gm_GroupID m ==s groupID) && (gm_APIKeyID m ==s apiKeyID) in
  mkDB (db_placeholders db) (db_keys db) (db_groups db)
    (if existsb same (db_members db)
     then map (fun m => if same m then mkMember groupID apiKeyID priority else m) (db_members db)
     else db_members db ++ [mkMember groupID apiKeyID priority])
    (db_approvals db).

Definition RemoveMember (db : database) (groupID apiKeyID : string) : database :=
  mkDB (db_placeholders db) (db_keys db) (db_groups db)
    (List.filter (fun m => negb ((gm_GroupID m ==s groupID) && (gm_APIKeyID m ==s apiKeyID))) (db_members db))
    (db_approvals db).

Definition set_groups (db : database) (gs : list APIKeyGroup) : database :=
  mkDB (db_placeholders db) (db_keys db) gs (db_members db) (db_approvals db).

(** [UPDATE .. SET last_index = last_index + 1 .. RETURNING last_index - 1], and
    Go's [%] of the result. *)
Definition IncrementLastIndex (db : database) (groupID : string) (memberCount : Z)
  : database * result resolve_error Z :=
  match List.find (fun g => grp_ID g ==s groupID) (db_groups db) with
  | None => (db, Err NoRows)
  | Some g =>
      (set_groups db (map (fun h => if grp_ID h ==s groupID
                                    then mkGroup (grp_ID h) (grp_Strategy h) (grp_LastIndex h + 1) else h)
                        (db_groups db)),
       Ok (Z.rem (grp_LastIndex g) memberCount))
  end.

(** ** Resolving *)

Section Resolver.
Variable decrypt : string -> option string.

Definition DecryptUpstreamProxyURL (stored0 : string) : option string :=
  let stored := TrimSpace stored0 in
  if stored ==s "" then Some ""
  else if negb (HasPrefix stored "enc:") then Some stored
  else decrypt (TrimPrefix stored "enc:").

Definition least_used (first : APIKey) (members : list APIKey) : APIKey :=
  fold_left (fun sel k => if k_UsageCount k <? k_UsageCount sel then k else sel) members first.

Definition resolveFromGroup (db : database) (groupID : string) : database * result resolve_error APIKey :=
  match GetGroupByID db groupID with
  | Err e => (db, Err e)
  | Ok group =>
      match GetMembers db groupID with
      | [] => (db, Err (GroupEmpty groupID))
      | (first :: _) as members =>
          if grp_Strategy group ==s "round-robin" then
            let '(db', idx) := IncrementLastIndex db groupID (Z.of_nat (length members)) in
            match idx with
            | Err e => (db', Err e)
            | Ok i => (db', if i <? 0 then Err IndexPanic
                            else match members !! Z.to_nat i with
                                 | Some k => Ok k
                                 | None => Err IndexPanic
                                 end)
            end
          else if grp_Strategy group ==s "least-used" then (db, Ok (least_used first members))
          else (db, Ok first)
      end
  end.

(** The part after the key is found. *)
Definition finish (db : database) (ph : PlaceholderKey) (apiKey : APIKey)
  : database * result resolve_error ResolveResult :=
  if negb (k_IsActive apiKey) then (db, Ok (refuse APIKeyInactive))
  else match decrypt (k_KeyEncrypted apiKey) with
  | None => (db, Err DecryptKey)
  | Some realKey =>
      match DecryptUpstreamProxyURL (k_UpstreamProxyURL apiKey) with
      | None => (db, Err DecryptProxy)
      | Some proxy =>
          match (if k_RefreshToken apiKey !=s "" then decrypt (k_RefreshToken apiKey) else Some "") with
          | None => (db, Err DecryptRefresh)
          | Some refresh =>
              (IncrementKeyUsage (IncrementPlaceholderUsage db (pk_ID ph)) (k_ID apiKey),
               Ok (mkResolve realKey refresh (k_ID apiKey) (default "" (pk_GroupID ph)) (pk_ServiceID ph)
                     (pk_ID ph) (pk_Placeholder ph) (default "" (pk_PermissionConfig ph)) (k_ACL apiKey)
                     proxy (k_RefreshToken apiKey !=s "") true false (pk_RequiresApproval ph) NoRefusal))
          end
      end
  end.

Definition Resolve (db : database) (placeholder clientID : string) (now : Z)
  : database * result resolve_error ResolveResult :=
  match GetByPlaceholder db placeholder with
  | Err NoRows => (db, Ok (refuse UnknownPlaceholder))
  | Err e => (db, Err e)
  | Ok ph =>
      if pk_ClientID ph !=s clientID then (db, Ok (refuse NotBoundToClient))
      else if negb (pk_IsActive ph) then (db, Ok (refuse PlaceholderInactive))
      else if pk_RequiresApproval ph && negb (is_Ok (GetValidApproval (db_approvals db) (pk_ID ph) now))
      then (db, Ok (need_approval (pk_ID ph)))
      else match pk_APIKeyID ph, pk_GroupID ph with
      | Some kid, _ =>
          match GetKeyByID db kid with
          | Err e => (db, Err e)
          | Ok apiKey => finish db ph apiKey
          end
      | None, Some gid =>
          let '(db', r) := resolveFromGroup db gid in
          match r with
          | Err e => (db', Err e)
          | Ok apiKey => finish db' ph apiKey
          end
      | None, None => (db, Ok (refuse NoKeyAssigned))
      end
  end.

Definition ResolveForService (db : database) (clientID serviceID : string) (now : Z)
  : database * result resolve_error ResolveResult :=
  match GetByClientAndService db clientID serviceID with
  | Err NoRows => (db, Ok (refuse NoPlaceholderForService))
  | Err e => (db, Err e)
  | Ok ph => Resolve db (pk_Placeholder ph) clientID now
  end.

Definition is_refusal (e : resolve_refusal) : bool := match e with NoRefusal => false | _ => true end.

(** [explicit]: the phantom token in the request's auth header, "" when none. *)
Definition resolveProxyKey (db : database) (explicit clientID serviceID : string)
    (requireExplicit : bool) (now : Z) : database * result resolve_error ResolveResult :=
  if explicit !=s "" then
    let '(db', r) := Resolve db explicit clientID now in
    (db', match r with
          | Err e => Err e
          | Ok res =>
              if negb (is_refusal (rr_Error res)) && (rr_ServiceID res !=s "")
                 && (rr_ServiceID res !=s serviceID)
              then Ok (refuse WrongService) else Ok res
          end)
  else if requireExplicit then (db, Ok (refuse PhantomTokenRequired))
  else ResolveForService db clientID serviceID now.

End Resolver.

(** ** Theorems: what a resolved key is *)

Section ResolverTheorems.
Variable decrypt : string -> option string.

Lemma find_row_ok {A} (f : A -> bool) rows (a : A) : find_row f rows = Ok a -> In a rows /\ f a = true.
Proof.
  unfold find_row. destruct (List.find f rows) eqn:E; [|done]. intros [= <-]. by apply find_some in E.
Qed.

Lemma insert_priority_in m x l : In x (insert_priority m l) <-> x = m \/ In x l.
Proof.
  induction l as [|y l IH]; cbn [insert_priority]; [simpl; intuition congruence|].
  destruct (_ <=? _); simpl; [rewrite IH|]; intuition congruence.
Qed.

Lemma by_priority_in x l : In x (by_priority l) <-> In x l.
Proof.
  unfold by_priority.
  assert (H : forall acc, In x (fold_left (fun acc m => insert_priority m acc) l acc) <-> In x l \/ In x acc).
  { induction l as [|m l IH]; intros acc; simpl; [tauto|]. rewrite IH, insert_priority_in. intuition congruence. }
  rewrite H. simpl. tauto.
Qed.

(** A member row comes from an active key of the group, stripped of the columns
    that are not selected. *)
Lemma GetMembers_in db gid k :
  In k (GetMembers db gid) ->
  exists k0, In k0 (db_keys db) /\ k_IsActive k0 = true /\ k = scan_member k0 /\
    exists m, In m (db_members db) /\ gm_GroupID m = gid /\ gm_APIKeyID m = k_ID k0.
Proof.
  unfold GetMembers. intros (m & Hm & Hin)%list_elem_of_In%list_elem_of_omap.
  apply list_elem_of_In in Hm. rewrite by_priority_in in Hm. apply filter_In in Hm as [Hm Hg].
  destruct (List.find _ (db_keys db)) as [k0|] eqn:E; [|done]. injection Hin as <-.
  apply find_some in E as [Hk E]. bool_to_prop. exists k0. repeat split; auto. exists m. auto.
Qed.

Lemma least_used_in first members :
  least_used first members = first \/ In (least_used first members) members.
Proof.
  unfold least_used. revert first. induction members as [|k ms IH]; intros first; [by left|].
  cbn [fold_left]. destruct (_ <? _).
  - destruct (IH k) as [-> |H]; right; [by left|by right].
  - destruct (IH first) as [-> |H]; [by left|right; by right].
Qed.

Lemma resolveFromGroup_in db gid db' k :
  resolveFromGroup db gid = (db', Ok k) -> In k (GetMembers db gid).
Proof.
  unfold resolveFromGroup. destruct (GetGroupByID db gid) as [g|]; [|done].
  destruct (GetMembers db gid) as [|first ms] eqn:Em; [done|].
  destruct (_ ==s "round-robin").
  - destruct (IncrementLastIndex _ _ _) as [db1 [i|]]; [|done]. destruct (i <? 0); [done|].
    destruct ((first :: ms) !! Z.to_nat i) as [x|] eqn:En; [|done]. intros [= _ <-].
    apply list_elem_of_In. by eapply list_elem_of_lookup_2.
  - pose proof (least_used_in first (first :: ms)) as Hl.
    set (sel := least_used first (first :: ms)) in *. clearbody sel.
    destruct (_ ==s "least-used"); intros [= _ <-]; [|by left]. destruct Hl as [-> |Hl]; [by left|done].
Qed.

Lemma finish_ok db ph k db' r :
  finish decrypt db ph k = (db', Ok r) -> rr_Permitted r = true ->
  k_IsActive k = true /\ decrypt (k_KeyEncrypted k) = Some (rr_RealKey r) /\
  rr_APIKeyID r = k_ID k /\ rr_PlaceholderID r = pk_ID ph /\ rr_ServiceID r = pk_ServiceID ph /\
  rr_PermissionConfig r = default "" (pk_PermissionConfig ph) /\ rr_APIKeyACL r = k_ACL k /\
  DecryptUpstreamProxyURL decrypt (k_UpstreamProxyURL k) = Some (rr_UpstreamProxyURL r) /\
  rr_ApprovedWide r = pk_RequiresApproval ph.
Proof.
  unfold finish. destruct (k_IsActive k); cbn [negb]; [|by intros [= _ <-]].
  destruct (decrypt (k_KeyEncrypted k)); [|done].
  destruct (DecryptUpstreamProxyURL decrypt (k_UpstreamProxyURL k)); [|done].
  destruct (if k_RefreshToken k !=s "" then decrypt (k_RefreshToken k) else Some ""); [|done].
  intros [= _ <-] _. done.
Qed.

(** The key a placeholder stands for, and what the resolver saw of it. *)
Definition key_of (db : database) (ph : PlaceholderKey) (k0 : APIKey) (acl proxy : string) : Prop :=
  (pk_APIKeyID ph = Some (k_ID k0) /\ acl = k_ACL k0 /\ proxy = k_UpstreamProxyURL k0) \/
  (exists gid m, pk_APIKeyID ph = None /\ pk_GroupID ph = Some gid /\ In m (db_members db) /\
     gm_GroupID m = gid /\ gm_APIKeyID m = k_ID k0 /\ acl = "" /\ proxy = "").

Lemma Resolve_permitted db placeholder clientID now db' r :
  Resolve decrypt db placeholder clientID now = (db', Ok r) -> rr_Permitted r = true ->
  exists ph k0 proxy, In ph (db_placeholders db) /\ pk_Placeholder ph = placeholder /\
    pk_ClientID ph = clientID /\ pk_IsActive ph = true /\
    (pk_RequiresApproval ph = true -> exists a, In a (db_approvals db) /\ grants (pk_ID ph) "" now a) /\
    In k0 (db_keys db) /\ k_IsActive k0 = true /\ key_of db ph k0 (rr_APIKeyACL r) proxy /\
    decrypt (k_KeyEncrypted k0) = Some (rr_RealKey r) /\
    DecryptUpstreamProxyURL decrypt proxy = Some (rr_UpstreamProxyURL r) /\
    rr_APIKeyID r = k_ID k0 /\ rr_PlaceholderID r = pk_ID ph /\
    rr_PermissionConfig r = default "" (pk_PermissionConfig ph).
Proof.
  unfold Resolve. destruct (GetByPlaceholder db placeholder) as [ph|e] eqn:Ep.
  2:{ destruct e; intros [= _ <-]; done. }
  apply find_row_ok in Ep as [Hin Hph]. bool_to_prop.
  destruct (pk_ClientID ph !=s clientID) eqn:Ec; [by intros [= _ <-]|].
  assert (pk_IsActive ph = true) as -> by done. cbn [negb]. bool_to_prop.
  destruct (pk_RequiresApproval ph && _) eqn:Ea; [by intros [= _ <-]|].
  assert (Happ : pk_RequiresApproval ph = true -> exists a, In a (db_approvals db) /\ grants (pk_ID ph) "" now a).
  { intros Hr. rewrite Hr in Ea. apply valid_wide_iff. by destruct (is_Ok _). }
  destruct (pk_APIKeyID ph) as [kid|] eqn:Ek.
  - destruct (GetKeyByID db kid) as [k|] eqn:Eg; [|done].
    apply find_row_ok in Eg as [Hk Hid]. bool_to_prop. intros Hf Hperm.
    destruct (finish_ok _ _ _ _ _ Hf Hperm) as (? & ? & ? & ? & ? & ? & Hacl & ? & ?).
    exists ph, k, (k_UpstreamProxyURL k). repeat split; auto. left. rewrite Hacl. by subst.
  - destruct (pk_GroupID ph) as [gid|] eqn:Egr; [|by intros [= _ <-]].
    destruct (resolveFromGroup db gid) as [db1 [k|]] eqn:Er; [|done].
    apply resolveFromGroup_in, GetMembers_in in Er as (k0 & Hk & Hact & -> & m & Hm & Hg & Hid).
    intros Hf Hperm. destruct (finish_ok _ _ _ _ _ Hf Hperm) as (? & ? & ? & ? & ? & ? & Hacl & ? & ?).
    exists ph, k0, "". repeat split; auto. right. exists gid, m. rewrite Hacl. auto 10.
Qed.

(** C15. A real key leaves the resolver only for an active phantom token that is
    bound to the asking client, with a valid token-wide approval when the token
    asks for one, and only an active key that the token is assigned, directly or as
    a member of its group; the grant that goes with it is the token's own. *)
Theorem Resolve_only_assigned_key db placeholder clientID now db' r :
  Resolve decrypt db placeholder clientID now = (db', Ok r) -> rr_Permitted r = true ->
  exists ph k0, In ph (db_placeholders db) /\ pk_Placeholder ph = placeholder /\
    pk_ClientID ph = clientID /\ pk_IsActive ph = true /\
    (pk_RequiresApproval ph = true -> exists a, In a (db_approvals db) /\ grants (pk_ID ph) "" now a) /\
    In k0 (db_keys db) /\ k_IsActive k0 = true /\
    (pk_APIKeyID ph = Some (k_ID k0) \/
     exists gid m, pk_GroupID ph = Some gid /\ In m (db_members db) /\ gm_GroupID m = gid /\
       gm_APIKeyID m = k_ID k0) /\
    decrypt (k_KeyEncrypted k0) = Some (rr_RealKey r) /\
    rr_PermissionConfig r = default "" (pk_PermissionConfig ph).
Proof.
  intros H1 H2. destruct (Resolve_permitted _ _ _ _ _ _ H1 H2)
    as (ph & k0 & proxy & ? & ? & ? & ? & ? & ? & ? & Hk & ? & ? & ? & ? & ?).
  exists ph, k0. repeat split; auto. destruct Hk as [(? & _)|(gid & m & ? & ? & ? & ? & ? & _)]; eauto 10.
Qed.

(** The ACL of an API key is enforced only for tokens assigned to the key
    itself: for every key reached through a key group, the result carries an empty
    key ACL and no upstream proxy, whatever the key's row says, so the key's layer
    of the ACL is skipped and its proxy not used. *)
Theorem group_resolution_drops_key_acl db placeholder clientID now db' r ph :
  Resolve decrypt db placeholder clientID now = (db', Ok r) -> rr_Permitted r = true ->
  GetByPlaceholder db placeholder = Ok ph -> pk_APIKeyID ph = None ->
  rr_APIKeyACL r = "" /\ rr_UpstreamProxyURL r = "".
Proof.
  intros H1 H2 Hph Hn. unfold Resolve in H1. rewrite Hph in H1.
  destruct (pk_ClientID ph !=s clientID); [by injection H1 as _ <-|].
  destruct (negb (pk_IsActive ph)); [by injection H1 as _ <-|].
  destruct (pk_RequiresApproval ph && _); [by injection H1 as _ <-|]. rewrite Hn in H1.
  destruct (pk_GroupID ph) as [gid|]; [|by injection H1 as _ <-].
  destruct (resolveFromGroup db gid) as [db1 [k|]] eqn:Er; [|done].
  apply resolveFromGroup_in, GetMembers_in in Er as (k0 & _ & _ & -> & _).
  destruct (finish_ok _ _ _ _ _ H1 H2) as (_ & _ & _ & _ & _ & _ & Hacl & Hp & _).
  split; [exact Hacl|]. cbn in Hp. by injection Hp as <-.
Qed.

(** ** Theorems: selection in a group *)

(** [n] resolutions in a row. *)
Fixpoint select_many (n : nat) (db : database) (gid : string) : list (result resolve_error APIKey) :=
  match n with
  | O => []
  | S n' => let '(db', r) := resolveFromGroup db gid in r :: select_many n' db' gid
  end.

Definition round_robin_group (db : database) (gid : string) (i : Z) : Prop :=
  exists g, GetGroupByID db gid = Ok g /\ grp_Strategy g = "round-robin" /\ grp_LastIndex g = i.

Lemma find_map_same {A} (p : A -> bool) (f : A -> A) (l : list A) :
  (forall a, p (f a) = p a) -> List.find p (map f l) = option_map f (List.find p l).
Proof. intros H. induction l as [|a l IH]; [done|]. simpl. rewrite H. by destruct (p a). Qed.

Lemma round_robin_step db gid i ms :
  round_robin_group db gid i -> 0 <= i -> GetMembers db gid = ms -> ms <> [] ->
  exists db' k, resolveFromGroup db gid = (db', Ok k) /\
    ms !! Z.to_nat (i mod Z.of_nat (length ms)) = Some k /\
    round_robin_group db' gid (i + 1) /\ GetMembers db' gid = ms.
Proof.
  intros (g & Hg & Hs & Hi) Hpos Hm Hne. unfold resolveFromGroup. rewrite Hg, Hm.
  destruct ms as [|first ms]; [done|]. rewrite Hs. change ("round-robin" ==s "round-robin") with true.
  unfold GetGroupByID, find_row in Hg. unfold IncrementLastIndex.
  destruct (List.find _ (db_groups db)) as [g'|] eqn:Ef; [|done]. injection Hg as ->. rewrite Hi.
  set (l := first :: ms) in *. assert (0 < Z.of_nat (length l)) as Hl by (unfold l; simpl; lia).
  rewrite Z.rem_mod_nonneg by lia. pose proof (Z.mod_pos_bound i (Z.of_nat (length l)) Hl) as Hb.
  destruct (i mod Z.of_nat (length l) <? 0) eqn:E; [bool_to_prop; lia|].
  destruct (l !! Z.to_nat (i mod Z.of_nat (length l))) as [k|] eqn:En.
  2:{ apply lookup_ge_None in En. lia. }
  eexists _, k. split; [reflexivity|]. split; [done|]. split; [|exact Hm].
  eexists (mkGroup (grp_ID g) (grp_Strategy g) (i + 1)). unfold GetGroupByID, find_row.
  cbn [set_groups db_groups]. rewrite find_map_same, Ef.
  - cbn [option_map]. apply find_some in Ef as [_ Hid]. rewrite Hid, Hi. done.
  - intros h. destruct (grp_ID h ==s gid) eqn:Eh; [exact Eh|exact Eh].
Qed.

Lemma round_robin_sequence db gid i ms n :
  round_robin_group db gid i -> 0 <= i -> GetMembers db gid = ms -> ms <> [] ->
  select_many n db gid =
  map (fun j => match ms !! Z.to_nat ((i + Z.of_nat j) mod Z.of_nat (length ms)) with
                | Some k => Ok k
                | None => Err IndexPanic
                end) (seq 0 n).
Proof.
  revert db i. induction n as [|n IH]; intros db i Hg Hi Hm Hne; [done|]. cbn [select_many seq map].
  destruct (round_robin_step db gid i ms Hg Hi Hm Hne) as (db' & k & -> & Hk & Hg' & Hm').
  rewrite Z.add_0_r, Hk. f_equal. rewrite (IH db' (i + 1) Hg' ltac:(lia) Hm' Hne).
  rewrite <- seq_shift, map_map. apply map_ext. intros j.
  replace (i + 1 + Z.of_nat j) with (i + Z.of_nat (S j)) by lia. done.
Qed.

Lemma rotate_index (i : Z) (j n : nat) :
  0 <= i -> (j < n)%nat ->
  Z.to_nat ((i + Z.of_nat j) mod Z.of_nat n) = rotate_nat_add (Z.to_nat i) j n.
Proof.
  intros Hi Hj. unfold rotate_nat_add. rewrite Z2Nat.id by lia. done.
Qed.

(** Round robin is fair: as many resolutions in a row as the group has active
    members use each member exactly once, in the rotation of the priority order
    that starts at the group's counter. *)
Theorem round_robin_fair db gid i ms :
  round_robin_group db gid i -> 0 <= i -> GetMembers db gid = ms -> ms <> [] ->
  select_many (length ms) db gid = map Ok (rotate (Z.to_nat i) ms) /\
  rotate (Z.to_nat i) ms ≡ₚ ms.
Proof.
  intros Hg Hi Hm Hne. rewrite (round_robin_sequence db gid i ms _ Hg Hi Hm Hne). split.
  - apply list_eq. intros j. rewrite !list_lookup_fmap.
    destruct (decide (j < length ms)%nat) as [Hj|Hj].
    + rewrite lookup_seq_lt, lookup_rotate_r by done. cbn. rewrite rotate_index by done.
      destruct (lookup_lt_is_Some_2 ms (rotate_nat_add (Z.to_nat i) j (length ms))) as [k Hk].
      { apply rotate_nat_add_lt. lia. }
      by rewrite Hk.
    + rewrite lookup_seq_ge, (lookup_ge_None_2 (rotate _ _)) by (rewrite ?length_rotate; lia). done.
  - unfold rotate. rewrite Permutation_app_comm. by rewrite take_drop.
Qed.

(** The least-used strategy picks an active member whose use count no other
    member undercuts. *)
Theorem least_used_minimal db gid g db' k :
  GetGroupByID db gid = Ok g -> grp_Strategy g = "least-used" ->
  resolveFromGroup db gid = (db', Ok k) ->
  db' = db /\ In k (GetMembers db gid) /\
  Forall (fun k' => k_UsageCount k <= k_UsageCount k') (GetMembers db gid).
Proof.
  intros Hg Hs H. pose proof (resolveFromGroup_in _ _ _ _ H) as Hin.
  unfold resolveFromGroup in H. rewrite Hg in H.
  destruct (GetMembers db gid) as [|first ms]; [done|].
  rewrite Hs in H. change ("least-used" ==s "round-robin") with false in H.
  change ("least-used" ==s "least-used") with true in H. cbv iota in H.
  assert (k = least_used first (first :: ms) /\ db' = db) as [-> ->] by (split; congruence).
  split; [done|]. split; [done|].
  assert (Hgen : forall l f, k_UsageCount (least_used f l) <= k_UsageCount f /\
            Forall (fun k' => k_UsageCount (least_used f l) <= k_UsageCount k') l).
  { induction l as [|x l IH]; intros f; cbn [least_used fold_left]; [split; [lia|constructor]|].
    change (fold_left _ l ?y) with (least_used y l).
    destruct (k_UsageCount x <? k_UsageCount f) eqn:E; bool_to_prop.
    - destruct (IH x) as [H1 H2]. split; [lia|]. by constructor.
    - destruct (IH f) as [H1 H2]. split; [lia|]. constructor; [lia|done]. }
  apply Hgen.
Qed.

End ResolverTheorems.

(** ** Concrete instances *)

Definition demo_decrypt (s : string) : option string := Some ("clear:" +:+ s).

Definition key_1 : APIKey := mkAPIKey "k1" "s" "e1" "{acl}" "" "http://proxy" true 7.
Definition key_2 : APIKey := mkAPIKey "k2" "s" "e2" "" "" "" true 3.
Definition demo_db : database :=
  mkDB [mkPlaceholder "p1" "dw_direct" "s" (Some "k1") None "c" (Some "{grant}") true true 0;
        mkPlaceholder "p2" "dw_group" "s" None (Some "g") "c" None false true 0;
        mkPlaceholder "p3" "dw_least" "s" None (Some "h") "c" None false true 0]
    [key_1; key_2]
    [mkGroup "g" "round-robin" 0; mkGroup "h" "least-used" 0]
    [mkMember "g" "k2" 5; mkMember "g" "k1" 1; mkMember "h" "k1" 1; mkMember "h" "k2" 2]
    [set_approved 10 100 (new_row "a" "p1" Pending None "" 5)].

Lemma Resolve_only_assigned_witness :
  exists ph k0, In ph (db_placeholders demo_db) /\ pk_Placeholder ph = "dw_direct" /\
    pk_ClientID ph = "c" /\ pk_IsActive ph = true /\
    (pk_RequiresApproval ph = true ->
     exists a, In a (db_approvals demo_db) /\ grants (pk_ID ph) "" 20 a) /\
    In k0 (db_keys demo_db) /\ k_IsActive k0 = true /\
    (pk_APIKeyID ph = Some (k_ID k0) \/
     exists gid m, pk_GroupID ph = Some gid /\ In m (db_members demo_db) /\ gm_GroupID m = gid /\
       gm_APIKeyID m = k_ID k0) /\
    demo_decrypt (k_KeyEncrypted k0) = Some "clear:e1" /\ "{grant}" = default "" (pk_PermissionConfig ph).
Proof.
  eapply (Resolve_only_assigned_key demo_decrypt demo_db "dw_direct" "c" 20 _
    (mkResolve "clear:e1" "" "k1" "" "s" "p1" "dw_direct" "{grant}" "{acl}" "http://proxy" false true
       false true NoRefusal)); vm_compute; reflexivity.
Defined.

Definition group_result : ResolveResult :=
  mkResolve "clear:e1" "" "k1" "g" "s" "p2" "dw_group" "" "" "" false true false false NoRefusal.

Lemma group_resolution_witness :
  rr_APIKeyACL group_result = "" /\ rr_UpstreamProxyURL group_result = "".
Proof.
  eapply (group_resolution_drops_key_acl demo_decrypt demo_db "dw_group" "c" 20 _ group_result
    (mkPlaceholder "p2" "dw_group" "s" None (Some "g") "c" None false true 0));
    try (vm_compute; reflexivity); reflexivity.
Defined.

Lemma round_robin_fair_witness :
  select_many 2 demo_db "g" = map Ok (rotate 0 [scan_member key_1; scan_member key_2]) /\
  rotate 0 [scan_member key_1; scan_member key_2] ≡ₚ [scan_member key_1; scan_member key_2].
Proof.
  apply (round_robin_fair demo_db "g" 0 [scan_member key_1; scan_member key_2]).
  - exists (mkGroup "g" "round-robin" 0). done.
  - lia.
  - vm_compute. reflexivity.
  - discriminate.
Defined.

Lemma least_used_witness :
  demo_db = demo_db /\ In (scan_member key_2) (GetMembers demo_db "h") /\
  Forall (fun k' => k_UsageCount (scan_member key_2) <= k_UsageCount k') (GetMembers demo_db "h").
Proof.
  apply (least_used_minimal demo_db "h" (mkGroup "h" "least-used" 0) demo_db (scan_member key_2));
    vm_compute; reflexivity.
Defined.
