(* ===== verification/ProxyACL.v ===== *)
(** * The proxy's decision on a request: [internal/server/handlers/proxy.go]

    [handle_decision] is the part of [Handle] between key resolution and the upstream
    request: the three ACL layers, the GitHub guard, the approval flow and the
    guard's final check, with the request body read, replayed or streamed as the
    handler does.  The reader holds the bytes of the body not read yet.  HMAC is
    the parameter [hmac]; the notification and logging calls are left out. *)

From S2P Require Import Prelude GoStrings GoLib GoJSON BranchRules Permission ReceivePack RefGuard.
From S2P Require Import Approvals.
Local Open Scope go_scope.

Record proxyACLLayer := mkLayer { layer_name : string; layer_config : string }.

Section Decision.
Context `{UC : UnicodeCase} `{CJ : ConfigJSON}.
Variable hmac : string -> string -> string.   (* key, message; the digest in hex *)

(** ** Methods and paths *)

(** The runes of a method are its bytes: anything outside ASCII is refused. *)
Definition validProxyMethod (m : string) : bool :=
  (m !=s "") && (slen m <=? 32)%nat &&
  forallb (fun c => in_range 65 90 c || in_range 48 57 c || (c =? 45)%N) (runes m).

Definition proxyACLRequest (method upstreamPath rawQuery : string) : string * string :=
  if negb (EqualFold method "GET") || negb (HasSuffix upstreamPath ".git/info/refs")
  then (method, upstreamPath)
  else let '(values, err) := ParseQuery rawQuery in
       if err then (method, upstreamPath)
       else
         let base := TrimSuffix upstreamPath ".git/info/refs" in
         let service := query_get values "service" in
         if service ==s "git-upload-pack" then ("POST", base +:+ ".git/git-upload-pack")
         else if service ==s "git-receive-pack" then ("POST", base +:+ ".git/git-receive-pack")
         else (method, upstreamPath).

Definition requestBodyRequiredForProxyACL (layers : list proxyACLLayer) (method path : string) : bool :=
  existsb (fun l => RequestBodyRequiredForPermission (layer_config l) method path) layers.

(** ** The three layers *)

Inductive layers_outcome :=
| LayerDenied (layer : string) (r : reason)
| LayersPassed (approve : option (string * string)).   (* layer and rule that ask for approval *)

Fixpoint check_layers (rl : rateLimits) (layers : list proxyACLLayer)
    (placeholderID method path body : string) (now : Z) (approve : option (string * string))
  : rateLimits * layers_outcome :=
  match layers with
  | [] => (rl, LayersPassed approve)
  | l :: layers' =>
      if layer_config l ==s "" then check_layers rl layers' placeholderID method path body now approve
      else
        let '(rl', res) := Check rl (layer_config l) placeholderID method path body now in
        if res_NeedsApproval res then
          check_layers rl' layers' placeholderID method path body now
            (match approve with None => Some (layer_name l, res_RuleName res) | _ => approve end)
        else if negb (res_Allowed res) then (rl', LayerDenied (layer_name l) (res_Reason res))
        else check_layers rl' layers' placeholderID method path body now approve
  end.

(** ** Approval scopes *)

(** Each part followed by a NUL byte. *)
Definition hmac_message (parts : list string) : string :=
  fold_right (fun p acc => p +:+ String NUL acc) "" parts.
Definition hmacHex (key : string) (parts : list string) : string := hmac key (hmac_message parts).

Definition ruleApprovalScope (key method path rawQuery body : string) : string :=
  "rule:" +:+ hmacHex key [ToUpper method; path; rawQuery; body].

(** ** The request *)

Record proxy_request := mkRequest {
  q_service : string;
  q_method : string;             (* upper case, valid *)
  q_path : string;               (* upstreamPath *)
  q_rawQuery : string;
  q_contentEncoding : string;
  q_body : string;
  q_appReplay : bool;            (* githubAppCloneBodyMustBeReplayable *)
}.

(** What key resolution and the service row give. *)
Record proxy_grant := mkGrant {
  gr_placeholderID : string;
  gr_serviceACL : string;
  gr_keyACL : string;
  gr_permissionConfig : string;
}.

Record proxy_state := mkState {
  ps_rateLimits : rateLimits;
  ps_policyCache : policy_cache;
  ps_world : world;              (* approvals, and what others do meanwhile *)
}.

Inductive proxy_outcome :=
| BodyTooLarge
| PermissionDenied (layer : string) (r : reason)
| PolicyInvalid (e : perm_error)
| GuardDenied (d : guard_deny)
| PushEncoded
| PushUnreadable (e : rp_error)
| PathUnchecked
| PushRefused (reasons : list (option refusal))
| RequestRefused (r : refusal)
| ApprovalKeyUnavailable
| ApprovalPending (id : string)
| ApprovalContention
| ApprovalNotConfigured (layer : string)
| Forward (approved : bool) (body : string).

Definition maxInspectableRequestBodyBytes : Z := 16 * 1024 * 1024.

(** [io.ReadAll(http.MaxBytesReader(..))]. *)
Definition read_all (reader : string) : option string :=
  if (maxInspectableRequestBodyBytes <? zlen reader)%Z then None else Some reader.

(** The body while the request is processed. *)
Record body_state := mkBody {
  bs_required : bool;            (* bodyRequired: the bytes are in memory *)
  bs_bytes : string;             (* bodyBytes *)
  bs_prefix : option string;     (* ghStreamPrefix *)
  bs_reader : string;            (* r.Body *)
}.

(** What is sent upstream. *)
Definition upstream_body (b : body_state) : string :=
  if bs_required b then bs_bytes b
  else match bs_prefix b with Some p => p +:+ bs_reader b | None => bs_reader b end.

Definition set_body (g : githubGuard) (body : string) : githubGuard :=
  mkGuard (g_repo g) (g_policy g) (g_deny g) (g_method g) (g_rest g) (g_restOK g) body
    (g_receivePack g) (g_rp g).
Definition set_rp (g : githubGuard) (rp : receivePackRequest) : githubGuard :=
  mkGuard (g_repo g) (g_policy g) (g_deny g) (g_method g) (g_rest g) (g_restOK g) (g_body g)
    (g_receivePack g) (Some rp).

(** The switch that reads what the guard needs: the guard and the body, or the
    refusal. *)
Definition prepare_guard (q : proxy_request) (g : githubGuard) (b : body_state)
  : proxy_outcome + githubGuard * body_state :=
  match g_deny g with
  | DenyNothing =>
      if g_receivePack g then
        let enc := ToLower (TrimSpace (q_contentEncoding q)) in
        if (enc !=s "") && (enc !=s "identity") then inl PushEncoded
        else
          let src := if bs_required b then bs_bytes b else bs_reader b in
          match parseReceivePackCommands src receivePackMaxCommandBytes receivePackMaxCommands with
          | (Err e, _) => inl (PushUnreadable e)
          | (Ok rp, rest) =>
              inr (set_rp g rp,
                   if bs_required b then b
                   else mkBody false (bs_bytes b) (Some (rp_Prefix rp)) rest)
          end
      else if negb (g_restOK g) && (g_method g !=s "GET") && (g_method g !=s "HEAD")
      then inl PathUnchecked
      else if needsJSONBody g then
        if bs_required b then inr (set_body g (bs_bytes b), b)
        else match read_all (bs_reader b) with
             | None => inl BodyTooLarge
             | Some bytes => inr (set_body g bytes, mkBody true bytes (bs_prefix b) "")
             end
      else inr (g, b)
  | d => inl (GuardDenied d)
  end.

(** The refusal that does not wait for the default branch. *)
Definition early_refusal (g : githubGuard) : option proxy_outcome :=
  match precheck g with
  | Some (RefusedPush reasons) => Some (PushRefused reasons)
  | Some (RefusedREST r) => Some (RequestRefused r)
  | _ => None
  end.

(** The final check, with the default branch. *)
Definition final_refusal (g : githubGuard) (def : result lookup_error string) : option proxy_outcome :=
  if g_receivePack g then
    let cmds := match g_rp g with Some rp => rp_Commands rp | None => [] end in
    let reasons := checkReceivePack (g_policy g) def false freshEval cmds in
    if anyRefused reasons then Some (PushRefused reasons) else None
  else match evaluateGitHubGuardREST (g_policy g) def (g_method g) (g_rest g) (g_body g) with
       | Some r => Some (RequestRefused r)
       | None => None
       end.

(** The approval flow of a request some rule holds: its outcome, or the body in
    memory when it may go on. *)
Definition hold_for_rule (q : proxy_request) (gr : proxy_grant) (approvalKey : option string)
    (aclMethod aclPath : string) (b : body_state) (w : world)
  : world * (proxy_outcome + body_state) :=
  match (if bs_required b then Some b
         else match read_all (bs_reader b) with
              | Some rest => Some (mkBody true (default "" (bs_prefix b) +:+ rest) None "")
              | None => None
              end) with
  | None => (w, inl BodyTooLarge)
  | Some b' =>
      match approvalKey with
      | None => (w, inl ApprovalKeyUnavailable)
      | Some key =>
          let scope := ruleApprovalScope key aclMethod aclPath (q_rawQuery q) (bs_bytes b') in
          if is_Ok (GetValidScopedApproval (w_table w) (gr_placeholderID gr) scope (w_now w))
          then (w, inr b')
          else
            let '(w', r) := resolveScopedApproval (hold_ops (gr_placeholderID gr) "" scope) w in
            (w', match r with
                 | Ok v => if rv_forward v then inr b' else inl (ApprovalPending (rv_id v))
                 | Err _ => inl ApprovalContention
                 end)
      end
  end.

Definition acl_layers (gr : proxy_grant) : list proxyACLLayer :=
  [mkLayer "service" (gr_serviceACL gr); mkLayer "api_key" (gr_keyACL gr);
   mkLayer "placeholder" (gr_permissionConfig gr)].

(** From the approval flow on. *)
Definition decide_approval (st : proxy_state) (q : proxy_request) (gr : proxy_grant)
    (hasStore : bool) (approvalKey : option string) (aclMethod aclPath : string)
    (approve : option (string * string)) (guard : option githubGuard)
    (def : result lookup_error string) (b : body_state) : proxy_state * proxy_outcome :=
  let finish st' b' approved :=
    (st', match guard with
          | Some g => default (Forward approved (upstream_body b')) (final_refusal g def)
          | None => Forward approved (upstream_body b')
          end) in
  match approve with
  | None => finish st b false
  | Some (layer, _) =>
      if hasStore then
        let '(w, r) := hold_for_rule q gr approvalKey aclMethod aclPath b (ps_world st) in
        let st' := mkState (ps_rateLimits st) (ps_policyCache st) w in
        match r with
        | inl o => (st', o)
        | inr b' => finish st' b' true
        end
      else (st, ApprovalNotConfigured layer)
  end.

(** From the guard on. *)
Definition decide_guarded (st : proxy_state) (q : proxy_request) (gr : proxy_grant)
    (hasStore : bool) (approvalKey : option string) (aclMethod aclPath : string)
    (approve : option (string * string)) (def : result lookup_error string) (b : body_state)
  : proxy_state * proxy_outcome :=
  let go := decide_approval in
  if q_service q ==s "github" then
    let '(cache, gg) := newGitHubGuard (ps_policyCache st) (gr_permissionConfig gr) (q_method q)
                          (q_path q) (q_rawQuery q) in
    let st' := mkState (ps_rateLimits st) cache (ps_world st) in
    match gg with
    | Err e => (st', PolicyInvalid e)
    | Ok None => go st' q gr hasStore approvalKey aclMethod aclPath approve None def b
    | Ok (Some g) =>
        match prepare_guard q g b with
        | inl o => (st', o)
        | inr (g', b') =>
            match early_refusal g' with
            | Some o => (st', o)
            | None => go st' q gr hasStore approvalKey aclMethod aclPath approve (Some g') def b'
            end
        end
    end
  else go st q gr hasStore approvalKey aclMethod aclPath approve None def b.

Definition handle_decision (st : proxy_state) (q : proxy_request) (gr : proxy_grant)
    (hasStore : bool) (approvalKey : option string) (def : result lookup_error string) (now : Z)
  : proxy_state * proxy_outcome :=
  let layers := acl_layers gr in
  let '(aclMethod, aclPath) := proxyACLRequest (q_method q) (q_path q) (q_rawQuery q) in
  let bodyRequired := requestBodyRequiredForProxyACL layers aclMethod aclPath || q_appReplay q in
  match (if bodyRequired
         then option_map (fun bytes => mkBody true bytes None "") (read_all (q_body q))
         else Some (mkBody false "" None (q_body q))) with
  | None => (st, BodyTooLarge)
  | Some b =>
      let '(rl, o) := check_layers (ps_rateLimits st) layers (gr_placeholderID gr) aclMethod aclPath
                        (bs_bytes b) now None in
      let st' := mkState rl (ps_policyCache st) (ps_world st) in
      match o with
      | LayerDenied layer r => (st', PermissionDenied layer r)
      | LayersPassed approve =>
          decide_guarded st' q gr hasStore approvalKey aclMethod aclPath approve def b
      end
  end.

End Decision.

(** ** Theorems: the layers *)

Section DecisionTheorems.
Context `{UC : UnicodeCase} `{CJ : ConfigJSON}.
Variable hmac : string -> string -> string.

(** A layer lets the request pass: it is empty, or its config allows the request or
    holds it for approval; [ok] says which verdicts count. *)
Definition layer_passes (id method path body : string) (now : Z) (ok : PermissionResult -> bool)
    (l : proxyACLLayer) : Prop :=
  layer_config l = "" \/ exists rl, ok (snd (Check rl (layer_config l) id method path body now)) = true.

Lemma check_layers_passed rl layers id method path body now ap rl' ap' :
  check_layers rl layers id method path body now ap = (rl', LayersPassed ap') ->
  Forall (layer_passes id method path body now positive) layers /\
  (ap' = None -> ap = None /\ Forall (layer_passes id method path body now res_Allowed) layers).
Proof.
  revert rl ap. induction layers as [|l layers IH]; intros rl ap; cbn [check_layers].
  { intros [= _ <-]. done. }
  destruct (layer_config l ==s "") eqn:El; bool_to_prop.
  { intros H. apply IH in H as [H1 H2]. split; [by constructor; [left|]|].
    intros Hn. destruct (H2 Hn). split; [done|]. by constructor; [left|]. }
  assert (Hl : forall ok, ok (snd (Check rl (layer_config l) id method path body now)) = true ->
    layer_passes id method path body now ok l) by (intros ok H; right; by exists rl).
  destruct (Check rl (layer_config l) id method path body now) as [rl1 res]. cbn [snd] in Hl.
  destruct (res_NeedsApproval res) eqn:En.
  - intros H. apply IH in H as [H1 H2]. split.
    + constructor; [|done]. apply Hl. unfold positive. by rewrite En, orb_true_r.
    + intros Hn. destruct (H2 Hn) as [Ha _]. by destruct ap.
  - destruct (res_Allowed res) eqn:Ea; cbn [negb]; [|done].
    intros H. apply IH in H as [H1 H2]. split.
    + constructor; [|done]. apply Hl. unfold positive. by rewrite Ea.
    + intros Hn. destruct (H2 Hn). split; [done|]. constructor; [|done]. by apply Hl.
Qed.

(** The body a layer saw stands for the whole body when none of them needs it. *)
Lemma layer_passes_body id method path b1 b2 now ok l :
  RequestBodyRequiredForPermission (layer_config l) method path = false ->
  layer_passes id method path b1 now ok l -> layer_passes id method path b2 now ok l.
Proof.
  intros Hr [H|[rl H]]; [by left|right]. exists rl.
  by rewrite (Check_body_irrelevant rl _ id method path b2 b1 now Hr).
Qed.

Lemma layers_pass_body layers id method path b1 b2 now ok :
  requestBodyRequiredForProxyACL layers method path = false ->
  Forall (layer_passes id method path b1 now ok) layers ->
  Forall (layer_passes id method path b2 now ok) layers.
Proof.
  unfold requestBodyRequiredForProxyACL. intros Hr H. induction H as [|l layers Hl _ IH]; [done|].
  cbn [existsb] in Hr. apply orb_false_iff in Hr as [Hr1 Hr2].
  constructor; [by eapply layer_passes_body|by apply IH].
Qed.

(** ** Theorems: the body *)

(** The state holds the request's body and nothing was taken from it yet. *)
Definition body_start (body : string) (b : body_state) : Prop :=
  bs_prefix b = None /\
  if bs_required b then bs_bytes b = body else bs_reader b = body.

Lemma body_start_whole body b : body_start body b -> upstream_body b = body.
Proof. unfold body_start, upstream_body. destruct (bs_required b); intros [Hp <-]; [done|by rewrite Hp]. Qed.

Lemma read_all_some r s : read_all r = Some s -> s = r.
Proof. unfold read_all. destruct (_ <? _)%Z; congruence. Qed.

(** What the guard was given, and that the body stays whole. *)
Lemma prepare_guard_spec q g b g' b' :
  body_start (q_body q) b -> prepare_guard q g b = inr (g', b') ->
  upstream_body b' = q_body q /\ g_deny g = DenyNothing /\ g_policy g' = g_policy g /\
  g_receivePack g' = g_receivePack g /\ g_method g' = g_method g /\ g_rest g' = g_rest g /\
  (g_receivePack g = true -> exists rp rest, g_rp g' = Some rp /\
     parseReceivePackCommands (q_body q) receivePackMaxCommandBytes receivePackMaxCommands = (Ok rp, rest)) /\
  (g_receivePack g = false -> g_body g' = if needsJSONBody g then q_body q else g_body g).
Proof.
  intros Hb. pose proof (body_start_whole _ _ Hb) as Hw. unfold prepare_guard.
  destruct (g_deny g); try discriminate.
  destruct (g_receivePack g) eqn:Er.
  - destruct (_ && _); [done|].
    assert ((if bs_required b then bs_bytes b else bs_reader b) = q_body q) as ->.
    { destruct Hb as [_ Hb]. by destruct (bs_required b). }
    pose proof (parseReceivePackCommands_inv (q_body q) receivePackMaxCommandBytes receivePackMaxCommands) as Hp.
    destruct (parseReceivePackCommands _ _ _) as [[rp|e] rest]; [|done].
    destruct Hp as [_ Hp]. destruct (Hp rp eq_refl) as [Hs _].
    intros [= <- <-]. cbn. split; [destruct (bs_required b); [done|by cbn]|].
    repeat (split; [done|]). split; [eauto|done].
  - destruct (negb (g_restOK g) && _ && _); [done|]. destruct (needsJSONBody g) eqn:En.
    + destruct Hb as [Hp Hb]. destruct (bs_required b).
      * intros [= <- <-]. cbn. repeat (split; [done|]). by intros _.
      * destruct (read_all _) as [s|] eqn:Ers; [|done]. apply read_all_some in Ers as ->.
        intros [= <- <-]. cbn. repeat (split; [done|]). by intros _.
    + intros [= <- <-]. repeat (split; [done|]). done.
Qed.

(** ** Theorems: approvals *)

Lemma hold_for_rule_spec q gr key m p b w w' b' :
  table_wf (w_table w) -> upstream_body b = q_body q ->
  hold_for_rule hmac q gr key m p b w = (w', inr b') ->
  upstream_body b' = q_body q /\
  exists k a, key = Some k /\ In a (w_table w') /\
    grants (gr_placeholderID gr) (ruleApprovalScope hmac k m p (q_rawQuery q) (q_body q)) (w_now w') a.
Proof.
  intros Hw Hb. unfold hold_for_rule.
  set (mb := if bs_required b then Some b else _).
  assert (Hmb : forall b1, mb = Some b1 -> bs_required b1 = true /\ bs_bytes b1 = q_body q).
  { subst mb. unfold upstream_body in Hb. destruct (bs_required b) eqn:Er.
    - intros b1 [= <-]. done.
    - destruct (read_all _) as [s|] eqn:Ers; [|done]. apply read_all_some in Ers as ->.
      intros b1 [= <-]. cbn. split; [done|]. by destruct (bs_prefix b). }
  destruct mb as [b1|]; [|done]. destruct (Hmb b1 eq_refl) as [Hr Hbytes]. clear Hmb.
  assert (upstream_body b1 = q_body q) as Hu by (unfold upstream_body; by rewrite Hr).
  destruct key as [k|]; [|done]. rewrite Hbytes.
  set (scope := ruleApprovalScope hmac k m p (q_rawQuery q) (q_body q)).
  destruct (is_Ok (GetValidScopedApproval _ _ _ _)) eqn:Ev.
  - intros [= <- <-]. split; [done|]. apply valid_scoped_iff in Ev as (_ & a & ? & ?). eauto.
  - pose proof (resolve_race_spec (gr_placeholderID gr) "" scope w Hw) as Hres.
    destruct (resolveScopedApproval _ w) as [w1 [v|e]]; [|done]. destruct Hres as [_ Hres].
    destruct (rv_forward v) eqn:Ef; [|done]. intros [= <- <-]. split; [done|].
    destruct Hres as (a & Hin & _ & Hslot & Hst). rewrite Ef in Hst. exists k, a. unfold grants. tauto.
Qed.

(** ** Theorems: what is forwarded *)

(** The GitHub guard let the request through: none was needed, or it has no
    standing refusal and its final check passed on the whole body. *)
Definition guard_passed (cache : policy_cache) (q : proxy_request) (gr : proxy_grant)
    (def : result lookup_error string) : Prop :=
  let gg := snd (newGitHubGuard cache (gr_permissionConfig gr) (q_method q) (q_path q) (q_rawQuery q)) in
  gg = Ok None \/
  exists g, gg = Ok (Some g) /\ g_deny g = DenyNothing /\
    (g_receivePack g = true -> exists rp rest,
       parseReceivePackCommands (q_body q) receivePackMaxCommandBytes receivePackMaxCommands = (Ok rp, rest) /\
       Forall (push_ok (g_policy g) def) (rp_Commands rp)) /\
    (g_receivePack g = false ->
       rest_ok (g_policy g) def (ToUpper (g_method g)) (g_rest g)
         (if needsJSONBody g then q_body q else g_body g)).

(** The approval a held request was forwarded on. *)
Definition approval_used (q : proxy_request) (gr : proxy_grant) (key : option string)
    (m p : string) (w : world) : Prop :=
  exists k a, key = Some k /\ In a (w_table w) /\
    grants (gr_placeholderID gr) (ruleApprovalScope hmac k m p (q_rawQuery q) (q_body q)) (w_now w) a.

Lemma final_refusal_push g def rp :
  final_refusal g def = None -> g_receivePack g = true -> g_rp g = Some rp ->
  Forall (push_ok (g_policy g) def) (rp_Commands rp).
Proof.
  unfold final_refusal. intros H Hr Hrp. rewrite Hr, Hrp in H. apply checkReceivePack_ok.
  by destruct (anyRefused _).
Qed.

Lemma final_refusal_rest g def :
  final_refusal g def = None -> g_receivePack g = false ->
  rest_ok (g_policy g) def (ToUpper (g_method g)) (g_rest g) (g_body g).
Proof.
  unfold final_refusal. intros H Hr. rewrite Hr in H. apply evaluateGitHubGuardREST_ok.
  by destruct (evaluateGitHubGuardREST _ _ _ _ _).
Qed.

Lemma final_refusal_forward g def a0 s0 a s :
  default (Forward a0 s0) (final_refusal g def) = Forward a s ->
  final_refusal g def = None /\ a = a0 /\ s = s0.
Proof.
  destruct (final_refusal g def) as [o|] eqn:E; [|by intros [= <- <-]].
  cbn. intros ->. unfold final_refusal in E. destruct (g_receivePack g).
  - by destruct (anyRefused _).
  - by destruct (evaluateGitHubGuardREST _ _ _ _ _).
Qed.

(** The early exits never forward. *)
Lemma hold_for_rule_exit q gr key m p b w w' o a s :
  hold_for_rule hmac q gr key m p b w = (w', inl o) -> o <> Forward a s.
Proof.
  unfold hold_for_rule. destruct (if bs_required b then Some b else _); [|by intros [= _ <-]].
  destruct key; [|by intros [= _ <-]]. destruct (is_Ok _); [done|].
  destruct (resolveScopedApproval _ w) as [w1 [v|e]]; [|by intros [= _ <-]].
  destruct (rv_forward v); [done|by intros [= _ <-]].
Qed.

Lemma prepare_guard_exit q g b o a s : prepare_guard q g b = inl o -> o <> Forward a s.
Proof.
  unfold prepare_guard. destruct (g_deny g); try (by intros [= <-]).
  destruct (g_receivePack g).
  - destruct (_ && _); [by intros [= <-]|].
    destruct (parseReceivePackCommands _ _ _) as [[rp|e] rest]; [done|by intros [= <-]].
  - destruct (_ && _); [by intros [= <-]|]. destruct (needsJSONBody g); [|done].
    destruct (bs_required b); [done|]. destruct (read_all _); [done|by intros [= <-]].
Qed.

Lemma early_refusal_exit g o a s : early_refusal g = Some o -> o <> Forward a s.
Proof. unfold early_refusal. by destruct (precheck g) as [[]|]; [|intros [= <-]..|]. Qed.

Lemma decide_approval_forward st q gr hs key m p ap guard def b st' a s :
  table_wf (w_table (ps_world st)) -> upstream_body b = q_body q ->
  decide_approval hmac st q gr hs key m p ap guard def b = (st', Forward a s) ->
  s = q_body q /\
  (a = true -> approval_used q gr key m p (ps_world st')) /\ (a = false -> ap = None) /\
  match guard with Some g => final_refusal g def = None | None => True end.
Proof.
  intros Hw Hb. unfold decide_approval.
  assert (Hfin : forall st0 b0 a0, upstream_body b0 = q_body q ->
    (st0, match guard with
          | Some g => default (Forward a0 (upstream_body b0)) (final_refusal g def)
          | None => Forward a0 (upstream_body b0)
          end) = (st', Forward a s) ->
    st0 = st' /\ a = a0 /\ s = q_body q /\
    match guard with Some g => final_refusal g def = None | None => True end).
  { intros st0 b0 a0 Hb0. destruct guard as [g|].
    - intros [= <- H]. apply final_refusal_forward in H as (? & -> & ->). by rewrite Hb0.
    - intros [= <- <- <-]. by rewrite Hb0. }
  destruct ap as [[layer rule]|].
  - destruct hs; [|done]. destruct (hold_for_rule _ _ _ _ _ _ _ _) as [w [o|b1]] eqn:Eh.
    { intros [= _ ->]. by apply (hold_for_rule_exit _ _ _ _ _ _ _ _ _ a s) in Eh. }
    apply hold_for_rule_spec in Eh as [Hb1 Hap]; [|done|done].
    intros H. apply Hfin in H as (<- & -> & -> & ?); [|done]. done.
  - intros H. apply Hfin in H as (<- & -> & -> & ?); [|done]. done.
Qed.

Lemma decide_guarded_forward st q gr hs key m p ap def b st' a s :
  table_wf (w_table (ps_world st)) -> body_start (q_body q) b ->
  decide_guarded hmac st q gr hs key m p ap def b = (st', Forward a s) ->
  s = q_body q /\
  (a = true -> approval_used q gr key m p (ps_world st')) /\ (a = false -> ap = None) /\
  (q_service q = "github" -> guard_passed (ps_policyCache st) q gr def).
Proof.
  intros Hw Hb. pose proof (body_start_whole _ _ Hb) as Hu. unfold decide_guarded.
  destruct (q_service q ==s "github") eqn:Es.
  2:{ intros H. apply decide_approval_forward in H as (? & ? & ? & _); [|done|done].
      bool_to_prop. repeat (split; [done|]). intros ?. congruence. }
  unfold guard_passed. destruct (newGitHubGuard _ _ _ _ _) as [cache gg]. cbn [snd].
  destruct gg as [[g|]|e]; [| |done].
  - destruct (prepare_guard q g b) as [o|[g' b']] eqn:Ep.
    { intros [= _ ->]. by apply (prepare_guard_exit _ _ _ _ a s) in Ep. }
    destruct (early_refusal g') as [o|] eqn:Ee.
    { intros [= _ ->]. by apply (early_refusal_exit _ _ a s) in Ee. }
    apply prepare_guard_spec in Ep as (Hu' & Hd & Hpol & Hr & Hm & Hrest & Hpush & Hbody); [|done].
    intros H. apply decide_approval_forward in H as (? & ? & ? & Hf); [|done|done].
    repeat (split; [done|]). intros _. right. exists g. repeat (split; [done|]). split.
    + intros Hrp. destruct (Hpush Hrp) as (rp & rest & Hg & Hparse). exists rp, rest. split; [done|].
      rewrite <- Hpol. apply final_refusal_push; [done|by rewrite Hr|done].
    + intros Hrp. rewrite <- (Hbody Hrp), <- Hpol, <- Hm, <- Hrest.
      apply final_refusal_rest; [done|by rewrite Hr].
  - intros H. apply decide_approval_forward in H as (? & ? & ? & _); [|done|done]. auto.
Qed.

(** C1. What the proxy forwards: exactly the body it was sent; with every
    non-empty ACL layer letting this very request (body included) pass, so that a
    layer can only narrow the others; on an approval that is bound to the request's
    method, path, query and body, unexpired, whenever a layer asks for one; and, for
    GitHub, with the branch rules satisfied. *)
Theorem forward_is_authorised st q gr hasStore key def now st' approved body m p :
  table_wf (w_table (ps_world st)) ->
  proxyACLRequest (q_method q) (q_path q) (q_rawQuery q) = (m, p) ->
  handle_decision hmac st q gr hasStore key def now = (st', Forward approved body) ->
  body = q_body q /\
  Forall (layer_passes (gr_placeholderID gr) m p (q_body q) now positive) (acl_layers gr) /\
  (if approved then approval_used q gr key m p (ps_world st')
   else Forall (layer_passes (gr_placeholderID gr) m p (q_body q) now res_Allowed) (acl_layers gr)) /\
  (q_service q = "github" -> guard_passed (ps_policyCache st) q gr def).
Proof.
  intros Hw Hacl. unfold handle_decision. rewrite Hacl.
  set (layers := acl_layers gr). set (req := requestBodyRequiredForProxyACL layers m p || q_appReplay q).
  set (mb := if req then _ else _).
  assert (Hmb : forall b, mb = Some b -> body_start (q_body q) b /\
    (bs_bytes b = q_body q \/ requestBodyRequiredForProxyACL layers m p = false)).
  { subst mb req. destruct (_ || _) eqn:Er.
    - destruct (read_all _) as [x|] eqn:Ers; [|done]. apply read_all_some in Ers as ->.
      intros b [= <-]. split; [done|by left].
    - apply orb_false_iff in Er as [Er _]. intros b [= <-]. split; [done|by right]. }
  destruct mb as [b|]; [|done]. destruct (Hmb b eq_refl) as [Hb Hbytes]. clear Hmb.
  destruct (check_layers _ _ _ _ _ _ _ _) as [rl o] eqn:Ec. destruct o as [|ap]; [done|].
  apply check_layers_passed in Ec as [H1 H2]. intros H.
  apply decide_guarded_forward in H as (-> & Ha & Hn & Hg); [|done|done]. split; [done|].
  assert (Hlift : forall ok, Forall (layer_passes (gr_placeholderID gr) m p (bs_bytes b) now ok) layers ->
    Forall (layer_passes (gr_placeholderID gr) m p (q_body q) now ok) layers).
  { intros ok HF. destruct Hbytes as [<-|Hreq]; [done|]. by eapply layers_pass_body. }
  split; [by apply Hlift|]. split; [|done].
  destruct approved; [by apply Ha|]. apply Hlift, H2, Hn. done.
Qed.

(** ** Theorems: approval scopes *)

(** The message an approval's keyed hash covers determines the request: two
    requests whose method, path and query hold no NUL byte give the same message
    only if method, path, query and body are all the same. *)
Theorem approval_message_injective m1 p1 q1 b1 m2 p2 q2 b2 :
  Forall (fun s => ContainsByte s NUL = false) [m1; p1; q1; m2; p2; q2] ->
  hmac_message [m1; p1; q1; b1] = hmac_message [m2; p2; q2; b2] ->
  m1 = m2 /\ p1 = p2 /\ q1 = q2 /\ b1 = b2.
Proof.
  intros H. repeat match goal with H : Forall _ (_ :: _) |- _ => inversion H; subst; clear H end.
  unfold hmac_message. cbn [fold_right]. intros He.
  assert (Hcut : forall x1 x2 t1 t2, ContainsByte x1 NUL = false -> ContainsByte x2 NUL = false ->
    x1 +:+ String NUL t1 = x2 +:+ String NUL t2 -> x1 = x2 /\ t1 = t2).
  { intros x1 x2 t1 t2 Hx1 Hx2 Hx. pose proof (Cut_found x1 t1 NUL Hx1) as Hc.
    rewrite Hx, (Cut_found x2 t2 NUL Hx2) in Hc. by injection Hc. }
  apply Hcut in He as [-> He]; [|done|done]. apply Hcut in He as [-> He]; [|done|done].
  apply Hcut in He as [-> He]; [|done|done]. apply str_app_inj_r in He. done.
Qed.

End DecisionTheorems.

(** ** The rate-limit counter of the layers *)

Section SharedCounter.
#[local] Existing Instance latin_case.

Definition limited_config (limit : Z) : PermissionConfig :=
  mkConfig "1" "" [mkPermRule "all" [mkEndpoint "*" "*" true false None]
                     (Some (mkRateLimit limit 0 0)) false [] []].

Definition limited_json : ConfigJSON.
Proof.
  refine {| decode_header s := if (s ==s "{10}") || (s ==s "{4}") then Some "1" else None;
            decode_v1 s := if s ==s "{10}" then Some (limited_config 10)
                           else if s ==s "{4}" then Some (limited_config 4) else None;
            decode_v2 s := None |}.
  - intros s. destruct (s ==s "{10}") eqn:E1; [bool_to_prop; subst; discriminate|].
    destruct (s ==s "{4}") eqn:E2; [bool_to_prop; subst; discriminate|done].
  - intros s c. destruct (s ==s "{10}"); [by intros [= <-]|]. by destruct (s ==s "{4}"); [intros [= <-]|].
Defined.
#[local] Existing Instance limited_json.

(** The verdicts of a run of requests, one second apart. *)
Fixpoint run_layers (rl : rateLimits) (layers : list proxyACLLayer) (n : nat) (now : Z) : list bool :=
  match n with
  | O => []
  | S n' =>
      let '(rl', o) := check_layers rl layers "ph" "GET" "/x" "" now None in
      (match o with LayersPassed _ => true | LayerDenied _ _ => false end)
      :: run_layers rl' layers n' (now + second)%Z
  end.

(** The layers share one counter per token and window, so a request that two
    rate-limited layers check is counted twice: a token limited to four requests a
    minute gets four when only its own layer has a limit, and two as soon as the
    service allows ten. *)
Theorem layers_share_rate_counter :
  run_layers ∅ [mkLayer "placeholder" "{4}"] 5 0 = [true; true; true; true; false] /\
  run_layers ∅ [mkLayer "service" "{10}"; mkLayer "placeholder" "{4}"] 5 0 =
    [true; true; false; false; false].
Proof. split; vm_compute; reflexivity. Qed.

End SharedCounter.

(** ** Concrete instances *)

Section DecisionWitnesses.
#[local] Existing Instance latin_case.
#[local] Existing Instance demo_json.

Definition demo_hmac (key msg : string) : string := key +:+ msg.
Definition read_request : proxy_request :=
  mkRequest "github" "GET" "/repos/acme/app/pulls" "" "" "" false.
Definition demo_grant : proxy_grant := mkGrant "ph" "" "" "{v1}".
Definition demo_state : proxy_state := mkState ∅ ∅ (mkWorld [] 0 []).

Lemma forward_is_authorised_witness :
  let st' := fst (handle_decision demo_hmac demo_state read_request demo_grant true (Some "k")
                    (Err LookupFailed) 0) in
  "" = q_body read_request /\
  Forall (layer_passes "ph" "GET" "/repos/acme/app/pulls" "" 0 positive) (acl_layers demo_grant) /\
  Forall (layer_passes "ph" "GET" "/repos/acme/app/pulls" "" 0 res_Allowed) (acl_layers demo_grant) /\
  ("github" = "github" -> guard_passed ∅ read_request demo_grant (Err LookupFailed)).
Proof.
  intros st'.
  apply (forward_is_authorised demo_hmac demo_state read_request demo_grant true (Some "k")
           (Err LookupFailed) 0 st' false "" "GET" "/repos/acme/app/pulls").
  - split; apply NoDup_nil_2.
  - reflexivity.
  - vm_compute. reflexivity.
Defined.

Lemma approval_message_witness :
  "POST" = "POST" /\ "/a" = "/a" /\ "x=1" = "x=1" /\ "{}" = "{}".
Proof.
  apply (approval_message_injective "POST" "/a" "x=1" "{}" "POST" "/a" "x=1" "{}").
  - repeat constructor.
  - reflexivity.
Defined.

(** A request an approve rule matches is held, and forwarded once approved. *)
Definition held_request : proxy_request :=
  mkRequest "slack" "POST" "/repos/acme/app/pulls" "" "" "{}" false.

Example held_then_forwarded :
  let run st := handle_decision demo_hmac st held_request demo_grant true (Some "k") (Err LookupFailed) 0 in
  let '(st1, o1) := run (mkState ∅ ∅ (mkWorld [] 5 [(5%Z, [], "id0"); (5%Z, [], "id1")])) in
  o1 = ApprovalPending "id1" /\
  snd (run (mkState ∅ ∅ (mkWorld (history (w_table (ps_world st1)) [AApprove "id1" (Some 90%Z) 6%Z]) 7 []))) =
    Forward true "{}".
Proof. vm_compute. split; reflexivity. Qed.
End DecisionWitnesses.
