(* ===== verification/OutputHub.v ===== *)
(** * The replay ring of a terminal session: [internal/ducklion/runtime/output.go]

    Bytes are [ascii]; the ring is a list of [capacity] bytes with a start index
    and a size, offsets are 64-bit unsigned with wrap-around written out.  A
    subscriber's channel keeps every frame ever sent to it and the number the
    reader has taken, so that the queue is what lies between. *)

From S2P Require Import Prelude.
Local Open Scope nat_scope.

Abbreviation bytes := (list ascii).

Record OutputFrame := mkFrame {
  fr_Offset : Z;
  fr_Data : bytes;
  fr_Gap : bool;
}.

Record channel := mkChannel {
  ch_cap : nat;
  ch_sent : list OutputFrame;
  ch_taken : nat;
  ch_closed : bool;
}.

Record OutputHub := mkHub {
  h_capacity : nat;
  h_data : bytes;
  h_start : nat;
  h_size : nat;
  h_startOffset : Z;
  h_endOffset : Z;
  h_nextID : nat;
  h_closed : bool;
  h_subscribers : gmap nat channel;     (* the map of live subscribers *)
  h_gone : gmap nat channel;            (* channels closed and taken out of it *)
}.

Definition maxOutputFrameBytes : nat := Z.to_nat 65536.
Definition defaultCapacity : nat := Z.to_nat 4194304.

Definition NewOutputHub (capacity : Z) : OutputHub :=
  let c := if (capacity <=? 0)%Z then defaultCapacity else Z.to_nat capacity in
  mkHub c (replicate c "000"%char) 0 0 0 0 0 false ∅ ∅.

(** ** The ring *)

(** [copy(data[at:], src)]. *)
Definition copy_at (data : bytes) (at_ : nat) (src : bytes) : bytes :=
  let src' := take (length data - at_) src in
  take at_ data ++ src' ++ drop (at_ + length src') data.

Definition set_ring (h : OutputHub) (data : bytes) (start size : nat) (startOffset : Z) : OutputHub :=
  mkHub (h_capacity h) data start size startOffset (h_endOffset h) (h_nextID h) (h_closed h)
    (h_subscribers h) (h_gone h).

Definition appendLocked (h : OutputHub) (p : bytes) : OutputHub :=
  let cap := h_capacity h in
  if length p =? 0 then h
  else if cap <=? length p then
    let dropped := h_size h + length p - cap in
    set_ring h (copy_at (h_data h) 0 (drop (length p - cap) p)) 0 cap
      (u64 (h_startOffset h + Z.of_nat dropped))
  else
    let overflow := h_size h + length p - cap in      (* 0 when there is room *)
    let start := if 0 <? overflow then (h_start h + overflow) mod cap else h_start h in
    let size := h_size h - overflow in
    let startOffset := if 0 <? overflow then u64 (h_startOffset h + Z.of_nat overflow)
                       else h_startOffset h in
    let end_ := (start + size) mod cap in
    let first := Nat.min (length p) (cap - end_) in
    set_ring h (copy_at (copy_at (h_data h) end_ (take first p)) 0 (drop first p))
      start (size + length p) startOffset.

(** [nil] is the empty slice. *)
Definition copyRangeLocked (h : OutputHub) (from : nat) : bytes :=
  if h_size h <? from then []
  else
    let n := h_size h - from in
    let physical := (h_start h + from) mod h_capacity h in
    let first := Nat.min n (h_capacity h - physical) in
    take first (drop physical (h_data h)) ++ take (n - first) (h_data h).

(** ** Publishing *)

Definition chan_full (c : channel) : bool := ch_cap c <=? length (ch_sent c) - ch_taken c.
Definition chan_send (c : channel) (f : OutputFrame) : channel :=
  mkChannel (ch_cap c) (ch_sent c ++ [f]) (ch_taken c) (ch_closed c).
Definition chan_close (c : channel) : channel :=
  mkChannel (ch_cap c) (ch_sent c) (ch_taken c) true.

(** The select with a default case, for every subscriber: the ones with room get
    the frame, the others are closed and dropped. *)
Definition broadcast (h : OutputHub) (f : OutputFrame) : OutputHub :=
  let full := filter (fun kv => chan_full (snd kv) = true) (h_subscribers h) in
  let room := filter (fun kv => chan_full (snd kv) = false) (h_subscribers h) in
  mkHub (h_capacity h) (h_data h) (h_start h) (h_size h) (h_startOffset h) (h_endOffset h)
    (h_nextID h) (h_closed h) ((fun c => chan_send c f) <$> room)
    ((chan_close <$> full) ∪ h_gone h).

Definition set_end (h : OutputHub) (e : Z) : OutputHub :=
  mkHub (h_capacity h) (h_data h) (h_start h) (h_size h) (h_startOffset h) e
    (h_nextID h) (h_closed h) (h_subscribers h) (h_gone h).

Definition publish_chunk (h : OutputHub) (chunk : bytes) : OutputHub :=
  let frame := mkFrame (h_endOffset h) chunk false in
  broadcast (appendLocked (set_end h (u64 (h_endOffset h + Z.of_nat (length chunk)))) chunk) frame.

(** The chunk loop; [fuel] bounds its rounds. *)
Fixpoint publish_loop (fuel : nat) (h : OutputHub) (data : bytes) : OutputHub :=
  match fuel with
  | 0 => h
  | S fuel' =>
      match data with
      | [] => h
      | _ => publish_loop fuel' (publish_chunk h (take maxOutputFrameBytes data))
               (drop maxOutputFrameBytes data)
      end
  end.

Definition Publish (h : OutputHub) (data : bytes) : OutputHub * OutputFrame :=
  if h_closed h then (h, mkFrame (h_endOffset h) [] false)
  else (publish_loop (length data) h data, mkFrame (h_endOffset h) data false).

(** [None] is [ErrOffsetAhead]. *)
Definition PublishRecovered (h : OutputHub) (offset0 : Z) (data0 : bytes) (gap0 : bool)
  : OutputHub * option OutputFrame :=
  if h_closed h || negb (h_endOffset h =? 0)%Z || negb (h_size h =? 0)%nat
     || (negb (offset0 =? 0)%Z && negb gap0)
  then (h, None)
  else
    let long := h_capacity h <? length data0 in
    let offset := if long then u64 (offset0 + Z.of_nat (length data0 - h_capacity h)) else offset0 in
    let data := if long then drop (length data0 - h_capacity h) data0 else data0 in
    let h1 := mkHub (h_capacity h) (h_data h) (h_start h) (h_size h) offset
                (u64 (offset + Z.of_nat (length data))) (h_nextID h) (h_closed h)
                (h_subscribers h) (h_gone h) in
    (appendLocked h1 data, Some (mkFrame offset data (gap0 || long))).

(** ** Subscribing *)

Inductive sub_error := ErrOutputClosed | ErrOffsetAhead.

Definition Subscribe (h : OutputHub) (offset queue0 : Z)
  : OutputHub * result sub_error (OutputFrame * nat) :=
  let queue := if (queue0 <=? 0)%Z then 16 else Z.to_nat queue0 in
  if h_closed h then (h, Err ErrOutputClosed)
  else if (h_endOffset h <? offset)%Z then (h, Err ErrOffsetAhead)
  else
    let gap := (offset <? h_startOffset h)%Z in
    let start := if gap then h_startOffset h else offset in
    let replay := mkFrame start (copyRangeLocked h (Z.to_nat (start - h_startOffset h))) gap in
    let id := S (h_nextID h) in
    (mkHub (h_capacity h) (h_data h) (h_start h) (h_size h) (h_startOffset h) (h_endOffset h)
       id (h_closed h) (<[id := mkChannel queue [] 0 false]> (h_subscribers h)) (h_gone h),
     Ok (replay, id)).

(** The cancel function of subscription [id]. *)
Definition Cancel (h : OutputHub) (id : nat) : OutputHub :=
  match h_subscribers h !! id with
  | None => h
  | Some c =>
      mkHub (h_capacity h) (h_data h) (h_start h) (h_size h) (h_startOffset h) (h_endOffset h)
        (h_nextID h) (h_closed h) (delete id (h_subscribers h)) (<[id := chan_close c]> (h_gone h))
  end.

(** A reader takes the next frame of its channel. *)
Definition take_one (c : channel) : channel :=
  mkChannel (ch_cap c) (ch_sent c) (Nat.min (S (ch_taken c)) (length (ch_sent c))) (ch_closed c).
Definition Receive (h : OutputHub) (id : nat) : OutputHub :=
  mkHub (h_capacity h) (h_data h) (h_start h) (h_size h) (h_startOffset h) (h_endOffset h)
    (h_nextID h) (h_closed h) (alter take_one id (h_subscribers h)) (alter take_one id (h_gone h)).

Definition Bounds (h : OutputHub) : Z * Z := (h_startOffset h, h_endOffset h).

Definition Snapshot (h : OutputHub) : OutputFrame :=
  mkFrame (h_startOffset h) (copyRangeLocked h 0) (negb (h_startOffset h =? 0)%Z).

Definition Close (h : OutputHub) : OutputHub :=
  if h_closed h then h
  else mkHub (h_capacity h) (h_data h) (h_start h) (h_size h) (h_startOffset h) (h_endOffset h)
         (h_nextID h) true ∅ ((chan_close <$> h_subscribers h) ∪ h_gone h).

(** ** Theorems: the ring holds the last bytes *)

(** The [n] last elements. *)
Definition lastn {A} (n : nat) (l : list A) : list A := drop (length l - n) l.

Record ring_wf (h : OutputHub) : Prop := {
  rw_cap : 0 < h_capacity h;
  rw_len : length (h_data h) = h_capacity h;
  rw_start : h_start h < h_capacity h;
  rw_size : h_size h <= h_capacity h;
}.

Lemma mod_wrap (a b c : nat) : a < c -> b <= c -> (a + b) mod c = if a + b <? c then a + b else a + b - c.
Proof.
  intros Ha Hb. destruct (a + b <? c) eqn:E; bool_to_prop.
  - by apply Nat.mod_small.
  - symmetry. apply Nat.mod_unique with (q := 1); lia.
Qed.

Lemma length_copy_at data at_ src : at_ <= length data -> length (copy_at data at_ src) = length data.
Proof. intros H. unfold copy_at. rewrite !length_app, length_drop, !length_take. lia. Qed.

Lemma copy_at_lookup data at_ src i :
  at_ + length src <= length data ->
  copy_at data at_ src !! i =
  if (at_ <=? i) && (i <? at_ + length src) then src !! (i - at_) else data !! i.
Proof.
  intros H. unfold copy_at. rewrite (take_ge src) by lia.
  destruct (at_ <=? i) eqn:E1; bool_to_prop; cbn [andb].
  - rewrite lookup_app_r by (rewrite length_take; lia). rewrite length_take.
    replace (at_ `min` length data) with at_ by lia.
    destruct (i <? at_ + length src) eqn:E2; bool_to_prop.
    + rewrite lookup_app_l by lia. done.
    + rewrite lookup_app_r, lookup_drop by lia. f_equal. lia.
  - rewrite lookup_app_l by (rewrite length_take; lia). by rewrite lookup_take_lt by lia.
Qed.

(** The byte at logical index [i]. *)
Definition ring_at (h : OutputHub) (i : nat) : option ascii :=
  h_data h !! ((h_start h + i) mod h_capacity h).

Lemma copyRange_lookup h from j :
  ring_wf h -> from <= h_size h ->
  copyRangeLocked h from !! j = if j <? h_size h - from then ring_at h (from + j) else None.
Proof.
  intros [Hc Hl Hs Hz] Hf. unfold copyRangeLocked, ring_at.
  destruct (h_size h <? from) eqn:E; bool_to_prop; [lia|].
  set (cap := h_capacity h) in *. set (n := h_size h - from).
  rewrite Nat.add_assoc, <- (Nat.Div0.add_mod_idemp_l (h_start h + from) j cap).
  assert (Hp : (h_start h + from) mod cap < cap) by (apply Nat.mod_upper_bound; lia).
  set (phys := (h_start h + from) mod cap) in *. clearbody phys.
  set (first := Nat.min n (cap - phys)).
  assert (Hlen : length (take first (drop phys (h_data h))) = first)
    by (rewrite length_take, length_drop; lia).
  destruct (j <? n) eqn:Ej; bool_to_prop.
  - rewrite mod_wrap by lia. destruct (decide (j < first)) as [Hj|Hj].
    + rewrite lookup_app_l, lookup_take_lt, lookup_drop by lia.
      destruct (phys + j <? cap) eqn:E1; bool_to_prop; [done|lia].
    + rewrite lookup_app_r, Hlen, lookup_take_lt by lia.
      destruct (phys + j <? cap) eqn:E1; bool_to_prop; [lia|]. f_equal. lia.
  - apply lookup_ge_None. rewrite length_app, Hlen, length_take. lia.
Qed.

Lemma copyRange_drop h from :
  ring_wf h -> from <= h_size h -> copyRangeLocked h from = drop from (copyRangeLocked h 0).
Proof.
  intros Hw Hf. apply list_eq. intros j. rewrite lookup_drop, !copyRange_lookup by (done || lia).
  rewrite Nat.sub_0_r. cbn [Nat.add].
  destruct (j <? h_size h - from) eqn:E1, (from + j <? h_size h) eqn:E2; bool_to_prop; try done; lia.
Qed.

(** The retained bytes. *)
Definition retained (h : OutputHub) : bytes := copyRangeLocked h 0.

Lemma retained_lookup h j :
  ring_wf h -> retained h !! j = if j <? h_size h then ring_at h j else None.
Proof. intros Hw. unfold retained. rewrite copyRange_lookup, Nat.sub_0_r by (done || lia). done. Qed.

Lemma ring_at_some h j : ring_wf h -> is_Some (ring_at h j).
Proof. intros [Hc Hl Hs Hz]. apply lookup_lt_is_Some_2. rewrite Hl. apply Nat.mod_upper_bound. lia. Qed.

Lemma length_retained h : ring_wf h -> length (retained h) = h_size h.
Proof.
  intros Hw. apply Nat.le_antisymm.
  - apply lookup_ge_None. rewrite retained_lookup by done.
    destruct (h_size h <? h_size h) eqn:E; bool_to_prop; [lia|done].
  - destruct (decide (h_size h <= length (retained h))) as [|Hn]; [done|].
    assert (retained h !! length (retained h) = None) as H by (by apply lookup_ge_None).
    rewrite retained_lookup in H by done. destruct (ring_at_some h (length (retained h)) Hw) as [x Hx].
    destruct (length (retained h) <? h_size h) eqn:E; bool_to_prop; [congruence|lia].
Qed.

(** Writing [p] behind [size] bytes, in two pieces when it wraps around. *)
Definition ring_write (data : bytes) (cap start size : nat) (p : bytes) : bytes :=
  let end_ := (start + size) mod cap in
  let first := Nat.min (length p) (cap - end_) in
  copy_at (copy_at data end_ (take first p)) 0 (drop first p).

Lemma ring_write_spec data cap start size p :
  length data = cap -> start < cap -> size + length p <= cap ->
  length (ring_write data cap start size p) = cap /\
  forall i, i < size + length p ->
    ring_write data cap start size p !! ((start + i) mod cap) =
    if i <? size then data !! ((start + i) mod cap) else p !! (i - size).
Proof.
  intros Hl Hs Hz. unfold ring_write.
  assert (He : (start + size) mod cap < cap) by (apply Nat.mod_upper_bound; lia).
  assert (Hm : (start + size) mod cap = if start + size <? cap then start + size else start + size - cap)
    by (apply mod_wrap; lia).
  set (e := (start + size) mod cap) in *. clearbody e.
  set (first := Nat.min (length p) (cap - e)).
  assert (Hl1 : length (copy_at data e (take first p)) = cap) by (rewrite length_copy_at; lia).
  split; [rewrite length_copy_at; lia|]. intros i Hi.
  rewrite copy_at_lookup, copy_at_lookup by (rewrite ?Hl1, ?length_take, ?length_drop; lia).
  rewrite length_take, length_drop, lookup_drop, Nat.sub_0_r. cbn [Nat.leb andb Nat.add].
  rewrite (mod_wrap start i cap) by lia.
  destruct (start + size <? cap) eqn:E1, (start + i <? cap) eqn:E2, (i <? size) eqn:E3; bool_to_prop;
  repeat match goal with
  | |- context [if ?a <=? ?b then _ else _] => destruct (a <=? b) eqn:?
  | |- context [if (?a <=? ?b) && _ then _ else _] => destruct (a <=? b) eqn:?; cbn [andb]
  | |- context [if ?a <? ?b then _ else _] => destruct (a <? b) eqn:?
  end; bool_to_prop; try lia; try done;
  rewrite ?lookup_take_lt by lia; f_equal; lia.
Qed.

Lemma appendLocked_wf h p : ring_wf h -> ring_wf (appendLocked h p).
Proof.
  intros [Hc Hl Hs Hz]. unfold appendLocked.
  destruct (length p =? 0) eqn:E0; bool_to_prop; [by split|].
  destruct (h_capacity h <=? length p) eqn:E1; bool_to_prop.
  { split; cbn; try lia. rewrite length_copy_at; lia. }
  set (ov := h_size h + length p - h_capacity h).
  set (st := if 0 <? ov then _ else h_start h).
  assert (st < h_capacity h) as Hst by (subst st; destruct (0 <? ov); [apply Nat.mod_upper_bound; lia|done]).
  split; cbn; try lia.
  apply (ring_write_spec (h_data h) (h_capacity h) st (h_size h - ov) p); lia.
Qed.

Lemma appendLocked_size h p :
  ring_wf h -> h_size (appendLocked h p) = Nat.min (h_capacity h) (h_size h + length p).
Proof.
  intros [Hc Hl Hs Hz]. unfold appendLocked. destruct (length p =? 0) eqn:E0; bool_to_prop; [lia|].
  destruct (h_capacity h <=? length p) eqn:E1; bool_to_prop; cbn; lia.
Qed.

Lemma lastn_lookup {A} n (l : list A) i : lastn n l !! i = l !! (length l - n + i).
Proof. unfold lastn. by rewrite lookup_drop. Qed.

(** Appending: the ring keeps the last [capacity] bytes of what it had and what
    came. *)
Lemma appendLocked_retained h p :
  ring_wf h -> retained (appendLocked h p) = lastn (h_capacity h) (retained h ++ p).
Proof.
  intros Hw. apply list_eq. intros i.
  rewrite retained_lookup by (by apply appendLocked_wf). rewrite appendLocked_size by done.
  rewrite lastn_lookup, length_app, length_retained by done.
  pose proof Hw as [Hc Hl Hs Hz]. unfold appendLocked.
  destruct (length p =? 0) eqn:E0; bool_to_prop.
  { destruct p; [|done]. rewrite app_nil_r, Nat.add_0_r, retained_lookup by done.
    replace (h_size h - h_capacity h + i) with i by lia.
    by replace (h_capacity h `min` h_size h) with (h_size h) by lia. }
  destruct (h_capacity h <=? length p) eqn:E1; bool_to_prop.
  { unfold ring_at. cbn [set_ring h_data h_start h_capacity Nat.add]. replace (h_capacity h `min` (h_size h + length p)) with (h_capacity h) by lia.
    destruct (i <? h_capacity h) eqn:E2; bool_to_prop.
    - rewrite Nat.mod_small by done. rewrite copy_at_lookup by (rewrite length_drop; lia).
      rewrite length_drop. cbn [Nat.leb andb]. rewrite Nat.sub_0_r.
      destruct (i <? 0 + (length p - (length p - h_capacity h))) eqn:E3; bool_to_prop; [|lia].
      rewrite lookup_drop, lookup_app_r by (rewrite length_retained; [lia|done]).
      f_equal. rewrite length_retained by done. lia.
    - symmetry. apply lookup_ge_None. rewrite length_app, length_retained by done. lia. }
  set (ov := h_size h + length p - h_capacity h).
  set (st := if 0 <? ov then _ else h_start h).
  assert (st < h_capacity h) as Hst by (subst st; destruct (0 <? ov); [apply Nat.mod_upper_bound; lia|done]).
  destruct (ring_write_spec (h_data h) (h_capacity h) st (h_size h - ov) p) as [_ Hlk]; [done|done|lia|].
  unfold ring_at. cbn [set_ring h_data h_start h_capacity]. unfold ring_write in Hlk. destruct (i <? _) eqn:E2; bool_to_prop.
  2:{ symmetry. apply lookup_ge_None. rewrite length_app, length_retained by done. lia. }
  rewrite Hlk by lia. destruct (i <? h_size h - ov) eqn:E3; bool_to_prop.
  - rewrite lookup_app_l by (rewrite length_retained; [lia|done]).
    rewrite retained_lookup by done. destruct (ov + i <? h_size h) eqn:E4; bool_to_prop; [|lia].
    unfold ring_at. f_equal. subst st. destruct (0 <? ov) eqn:E5; bool_to_prop.
    + rewrite Nat.Div0.add_mod_idemp_l. f_equal. lia.
    + f_equal. lia.
  - rewrite lookup_app_r by (rewrite length_retained; [lia|done]). f_equal.
    rewrite length_retained by done. lia.
Qed.

(** ** Theorems: offsets and the whole stream *)

Lemma lastn_lastn_app {A} n (s p : list A) : lastn n (lastn n s ++ p) = lastn n (s ++ p).
Proof.
  unfold lastn. set (k := length s - n).
  assert (s ++ p = take k s ++ (drop k s ++ p)) as -> by (by rewrite app_assoc, take_drop).
  rewrite (drop_app_ge (take k s)) by (rewrite !length_app, length_take, length_drop; lia).
  f_equal. rewrite !length_app, length_take, length_drop. lia.
Qed.

Lemma to_nat_pos z : (0 < z)%Z -> 0 < Z.to_nat z.
Proof. lia. Qed.

(** The hub after [s] was published from offset [base]: the ring holds the end of
    [s] and the offsets say which part.  The base is 0 unless the hub was seeded by
    [PublishRecovered]. *)
Record tracks (base : Z) (s : bytes) (h : OutputHub) : Prop := {
  tr_base : (0 <= base)%Z;
  tr_wf : ring_wf h;
  tr_ret : retained h = lastn (h_capacity h) s;
  tr_end : h_endOffset h = (base + Z.of_nat (length s))%Z;
  tr_start : h_startOffset h = (base + Z.of_nat (length s - h_capacity h))%Z;
}.

Lemma tracks_size base s h : tracks base s h -> h_size h = Nat.min (h_capacity h) (length s).
Proof.
  intros [_ Hw Hr _ _]. rewrite <- (length_retained h Hw), Hr. unfold lastn. rewrite length_drop. lia.
Qed.

Lemma appendLocked_startOffset h p :
  ring_wf h -> (0 <= h_startOffset h)%Z -> (h_startOffset h + Z.of_nat (h_size h + length p) < 2 ^ 64)%Z ->
  h_startOffset (appendLocked h p) =
  (h_startOffset h + Z.of_nat (h_size h + length p - h_capacity h))%Z.
Proof.
  intros [Hc Hl Hs Hz] H0 Hov. unfold appendLocked.
  destruct (length p =? 0) eqn:E0; bool_to_prop; [lia|].
  destruct (h_capacity h <=? length p) eqn:E1; bool_to_prop; cbn [set_ring h_startOffset].
  { rewrite u64_small; lia. }
  destruct (0 <? _) eqn:E2; bool_to_prop; [rewrite u64_small; lia|lia].
Qed.

Lemma appendLocked_fields h p :
  h_capacity (appendLocked h p) = h_capacity h /\ h_endOffset (appendLocked h p) = h_endOffset h /\
  h_nextID (appendLocked h p) = h_nextID h /\ h_closed (appendLocked h p) = h_closed h /\
  h_subscribers (appendLocked h p) = h_subscribers h /\ h_gone (appendLocked h p) = h_gone h.
Proof.
  unfold appendLocked. destruct (length p =? 0); [done|]. by destruct (_ <=? _).
Qed.

Lemma set_end_tracks_parts h e :
  (ring_wf h -> ring_wf (set_end h e)) /\ retained (set_end h e) = retained h.
Proof. split; [|done]. intros [? ? ? ?]. by split. Qed.

Lemma publish_chunk_tracks base s h p :
  tracks base s h -> (base + Z.of_nat (length s + length p) < 2 ^ 64)%Z -> tracks base (s ++ p) (publish_chunk h p).
Proof.
  intros Ht Hov. pose proof (tracks_size base s h Ht) as Hsz. destruct Ht as [Hb Hw Hr He Hst].
  unfold publish_chunk. set (h1 := set_end h _).
  assert (Hw1 : ring_wf h1) by (by apply set_end_tracks_parts).
  destruct (appendLocked_fields h1 p) as (Hcap & Hend & _).
  pose proof (appendLocked_startOffset h1 p Hw1) as Hso.
  split; cbn [broadcast h_capacity h_endOffset h_startOffset]; [done|..].
  - destruct (appendLocked_wf h1 p Hw1). by split.
  - change (retained (broadcast ?x ?f)) with (retained x). rewrite appendLocked_retained by done.
    change (retained h1) with (retained h). rewrite Hcap. change (h_capacity h1) with (h_capacity h).
    by rewrite Hr, lastn_lastn_app.
  - rewrite Hend. subst h1. cbn [set_end h_endOffset]. rewrite He, u64_small, length_app; lia.
  - rewrite Hcap, Hso; subst h1; cbn [set_end h_startOffset h_size h_capacity];
      rewrite Hst, ?Hsz, ?length_app; lia.
Qed.

Lemma publish_loop_tracks fuel base s h p :
  tracks base s h -> (base + Z.of_nat (length s + length p) < 2 ^ 64)%Z -> length p <= fuel ->
  tracks base (s ++ p) (publish_loop fuel h p).
Proof.
  revert s h p. induction fuel as [|fuel IH]; intros s h p Ht Hov Hf.
  { destruct p; [|simpl in Hf; lia]. by rewrite app_nil_r. }
  cbn [publish_loop]. destruct p as [|c p0]; [by rewrite app_nil_r|]. set (p := c :: p0) in *.
  assert (1 <= maxOutputFrameBytes) as Hm by (by apply to_nat_pos).
  pose proof (take_drop maxOutputFrameBytes p) as Htd.
  assert (Hlen : length (take maxOutputFrameBytes p) + length (drop maxOutputFrameBytes p) = length p)
    by (rewrite <- Htd at 3; by rewrite length_app).
  rewrite <- Htd at 1. rewrite app_assoc. apply IH.
  - apply publish_chunk_tracks; [done|]. lia.
  - rewrite length_app. lia.
  - rewrite length_drop. assert (length p <> 0) by done. lia.
Qed.

Lemma publish_chunk_closed h p : h_closed (publish_chunk h p) = h_closed h.
Proof.
  unfold publish_chunk. cbn [broadcast h_closed]. set (h1 := set_end h _).
  by destruct (appendLocked_fields h1 p) as (_ & _ & _ & -> & _).
Qed.

Lemma publish_loop_closed fuel h p : h_closed (publish_loop fuel h p) = h_closed h.
Proof.
  revert h p. induction fuel as [|fuel IH]; intros h p; [done|]. cbn [publish_loop].
  destruct p as [|c p]; [done|]. by rewrite IH, publish_chunk_closed.
Qed.

Lemma NewOutputHub_tracks capacity : tracks 0 [] (NewOutputHub capacity).
Proof.
  unfold NewOutputHub. set (c := if (capacity <=? 0)%Z then _ else _).
  assert (0 < c) as Hc.
  { subst c. destruct (capacity <=? 0)%Z eqn:E; bool_to_prop; [by apply to_nat_pos|lia]. }
  clearbody c.
  assert (ring_wf (mkHub c (replicate c "000"%char) 0 0 0 0 0 false ∅ ∅)) as Hw
    by (split; cbn; [done|apply length_replicate|done|lia]).
  split; [done|done| |done|done].
  apply list_eq. intros i. rewrite retained_lookup by done. done.
Qed.

(** A seeded hub holds the recovered bytes from their offset on. *)
Lemma PublishRecovered_tracks h offset data gap :
  tracks 0 [] h -> (0 <= offset)%Z -> (offset + Z.of_nat (length data) < 2 ^ 64)%Z ->
  snd (PublishRecovered h offset data gap) <> None -> tracks offset data (fst (PublishRecovered h offset data gap)).
Proof.
  intros Ht Ho Hov. pose proof (tracks_size 0 [] h Ht) as Hsz. destruct Ht as [_ Hw Hr He Hst]. cbn [length] in *.
  unfold PublishRecovered. destruct (_ || _); [done|]. intros _. cbn [fst].
  set (data' := if h_capacity h <? length data then _ else data).
  set (offset' := if h_capacity h <? length data then _ else offset). set (h1 := mkHub _ _ _ _ _ _ _ _ _ _).
  assert (Hd : length data' = Nat.min (h_capacity h) (length data) /\
               data' = lastn (h_capacity h) data /\
               offset' = (offset + Z.of_nat (length data - h_capacity h))%Z).
  { subst data' offset'. unfold lastn. destruct (_ <? _) eqn:E; bool_to_prop.
    - rewrite length_drop, u64_small by lia. split; [lia|done].
    - replace (length data - h_capacity h) with 0 by lia. rewrite drop_0. split; [lia|]. split; [done|lia]. }
  destruct Hd as (Hl & Hd & Hoff). assert (Hw1 : ring_wf h1) by (destruct Hw; by split).
  destruct (appendLocked_fields h1 data') as (Hcap & Hend & _).
  split; [done|by apply appendLocked_wf| | |].
  - rewrite appendLocked_retained, Hcap by done. change (retained h1) with (retained h). rewrite Hr.
    change (h_capacity h1) with (h_capacity h). change (lastn (h_capacity h) []) with (@nil ascii). cbn [app].
    unfold lastn at 1. replace (length data' - h_capacity h) with 0 by lia. by rewrite drop_0.
  - rewrite Hend. subst h1. cbn [h_endOffset]. rewrite Hoff, u64_small by lia. lia.
  - rewrite appendLocked_startOffset, Hcap; [|done|..]; subst h1; cbn [h_startOffset h_size h_capacity]; rewrite Hoff, ?Hl; lia.
Qed.

(** The replay a subscription at [offset] gets. *)
Lemma Subscribe_replay base s h offset queue :
  tracks base s h -> h_closed h = false -> (offset <= base + Z.of_nat (length s))%Z ->
  let oldest := (base + Z.of_nat (length s - h_capacity h))%Z in
  let start := Z.max offset oldest in
  snd (Subscribe h offset queue) =
  Ok (mkFrame start (drop (Z.to_nat (start - base)) s) (offset <? oldest)%Z, S (h_nextID h)).
Proof.
  intros Ht Hcl Ho. cbv zeta. pose proof (tracks_size base s h Ht) as Hsz. destruct Ht as [Hb Hw Hr He Hst].
  unfold Subscribe. rewrite Hcl, He, Hst.
  destruct (base + Z.of_nat (length s) <? offset)%Z eqn:E; bool_to_prop; [lia|]. cbn [snd].
  set (so := (base + Z.of_nat (length s - h_capacity h))%Z).
  assert (Hstart : (if (offset <? so)%Z then so else offset) = Z.max offset so)
    by (destruct (offset <? so)%Z eqn:E1; bool_to_prop; lia).
  rewrite Hstart. do 3 f_equal.
  rewrite copyRange_drop by (done || lia). change (copyRangeLocked h 0) with (retained h).
  rewrite Hr. unfold lastn. rewrite drop_drop. f_equal. lia.
Qed.

(** C30. The hub is a sliding window on the output: whatever is published and
    however it is cut into calls, the snapshot holds exactly the last [capacity]
    bytes at their offset, and a subscriber that names an offset gets exactly the
    output from there on, or from the oldest retained byte with the gap flag when
    its offset was dropped.  (For streams within the 64-bit offset range.) *)
Theorem hub_is_window capacity (datas : list bytes) offset queue :
  let h := fold_left (fun h d => fst (Publish h d)) datas (NewOutputHub capacity) in
  let s := concat datas in
  let start := Z.of_nat (length s - h_capacity h) in
  (Z.of_nat (length s) < 2 ^ 64)%Z -> (0 <= offset <= Z.of_nat (length s))%Z ->
  Snapshot h = mkFrame start (lastn (h_capacity h) s) (negb (start =? 0)%Z) /\
  Bounds h = (start, Z.of_nat (length s)) /\
  exists id, snd (Subscribe h offset queue) =
    Ok (mkFrame (Z.max offset start) (drop (Z.to_nat (Z.max offset start)) s) (offset <? start)%Z, id).
Proof.
  cbv zeta. intros Hov Ho.
  assert (Hgen : forall s0 h0, tracks 0 s0 h0 -> h_closed h0 = false ->
    (Z.of_nat (length (s0 ++ concat datas)) < 2 ^ 64)%Z ->
    tracks 0 (s0 ++ concat datas) (fold_left (fun h d => fst (Publish h d)) datas h0) /\
    h_closed (fold_left (fun h d => fst (Publish h d)) datas h0) = false).
  { clear. induction datas as [|d ds IH]; intros s0 h0 Ht Hc Hov; cbn [fold_left concat] in *.
    { by rewrite app_nil_r. }
    rewrite app_assoc in *. apply IH.
    - unfold Publish. rewrite Hc. cbn [fst]. apply publish_loop_tracks; [done| |lia].
      rewrite !length_app in Hov. lia.
    - unfold Publish. rewrite Hc. cbn [fst]. by rewrite publish_loop_closed.
    - done. }
  destruct (Hgen [] (NewOutputHub capacity) (NewOutputHub_tracks capacity) eq_refl Hov) as [Ht Hc].
  cbn [app] in Ht. set (h := fold_left _ _ _) in *. clearbody h.
  split; [|split].
  - destruct Ht as [_ Hw Hr He Hst]. unfold Snapshot. fold (retained h). by rewrite Hst, Hr.
  - destruct Ht as [_ Hw Hr He Hst]. unfold Bounds. by rewrite Hst, He.
  - eexists. rewrite (Subscribe_replay 0 (concat datas)) by (done || lia). by rewrite Z.sub_0_r.
Qed.

(** ** Theorems: subscribers see the output without holes *)

Inductive hub_op :=
| OpPublish (data : bytes)
| OpSubscribe (offset queue : Z)
| OpCancel (id : nat)
| OpReceive (id : nat)
| OpClose.

Definition hub_step (h : OutputHub) (op : hub_op) : OutputHub :=
  match op with
  | OpPublish d => fst (Publish h d)
  | OpSubscribe o q => fst (Subscribe h o q)
  | OpCancel id => Cancel h id
  | OpReceive id => Receive h id
  | OpClose => Close h
  end.

(** The hub and all the bytes it accepted. *)
Fixpoint hub_run (h : OutputHub) (s : bytes) (ops : list hub_op) : OutputHub * bytes :=
  match ops with
  | [] => (h, s)
  | op :: ops' =>
      hub_run (hub_step h op)
        (s ++ match op with OpPublish d => if h_closed h then [] else d | _ => [] end) ops'
  end.

Fixpoint contiguous (pos : Z) (fs : list OutputFrame) : Prop :=
  match fs with
  | [] => True
  | f :: fs' => fr_Offset f = pos /\ contiguous (pos + Z.of_nat (length (fr_Data f))) fs'
  end.

Definition payload (fs : list OutputFrame) : bytes := concat (map fr_Data fs).

Lemma contiguous_snoc pos fs f :
  contiguous pos (fs ++ [f]) <->
  contiguous pos fs /\ fr_Offset f = (pos + Z.of_nat (length (payload fs)))%Z.
Proof.
  revert pos. induction fs as [|g fs IH]; intros pos; cbn [app contiguous].
  { unfold payload. cbn. rewrite Z.add_0_r. tauto. }
  rewrite IH. unfold payload. cbn [map concat]. rewrite length_app, Nat2Z.inj_add, Z.add_assoc. tauto.
Qed.

Lemma payload_snoc fs f : payload (fs ++ [f]) = payload fs ++ fr_Data f.
Proof. unfold payload. rewrite map_app, concat_app. cbn. by rewrite app_nil_r. Qed.

Lemma broadcast_subscribers h f id :
  h_subscribers (broadcast h f) !! id =
  match h_subscribers h !! id with
  | Some c => if chan_full c then None else Some (chan_send c f)
  | None => None
  end.
Proof.
  cbn [broadcast h_subscribers]. rewrite lookup_fmap, map_lookup_filter.
  destruct (h_subscribers h !! id) as [c|]; [|done]. cbn.
  by destruct (chan_full c) eqn:E; cbn; rewrite ?E.
Qed.

Lemma broadcast_gone h f id :
  h_gone (broadcast h f) !! id =
  match h_subscribers h !! id with
  | Some c => if chan_full c then Some (chan_close c) else h_gone h !! id
  | None => h_gone h !! id
  end.
Proof.
  cbn [broadcast h_gone]. rewrite lookup_union, lookup_fmap, map_lookup_filter.
  destruct (h_subscribers h !! id) as [c|]; cbn; [|by destruct (h_gone h !! id)].
  destruct (chan_full c) eqn:E; cbn; rewrite ?E; by destruct (h_gone h !! id).
Qed.

(** Subscription [id], made when [s0] was out: everything published since has
    been sent to it, in contiguous frames, or it was cut off after some of it. *)
Definition sub_state (base : Z) (id : nat) (s0 s : bytes) (h : OutputHub) : Prop :=
  id <= h_nextID h /\
  ((exists c, h_subscribers h !! id = Some c /\ contiguous (base + Z.of_nat (length s0)) (ch_sent c) /\
      s = s0 ++ payload (ch_sent c)) \/
   (h_subscribers h !! id = None /\ exists c rest, h_gone h !! id = Some c /\ ch_closed c = true /\
      contiguous (base + Z.of_nat (length s0)) (ch_sent c) /\ s = s0 ++ payload (ch_sent c) ++ rest)).

Lemma publish_chunk_sub base id s0 s h p :
  tracks base s h -> sub_state base id s0 s h -> sub_state base id s0 (s ++ p) (publish_chunk h p).
Proof.
  intros Ht [Hid Hsub]. unfold sub_state, publish_chunk.
  set (h1 := set_end h _). destruct (appendLocked_fields h1 p) as (_ & _ & Hn & _ & Hs & Hg).
  rewrite broadcast_subscribers, broadcast_gone. cbn [broadcast h_nextID]. rewrite Hn, Hs, Hg.
  change (h_subscribers h1) with (h_subscribers h). change (h_gone h1) with (h_gone h).
  split; [done|]. destruct Hsub as [(c & Hc & Hcont & ->)|(Hc & c & rest & Hgone & Hcl & Hcont & ->)].
  - rewrite Hc. destruct (chan_full c).
    + right. split; [done|]. exists (chan_close c), p. cbn [chan_close ch_sent ch_closed].
      rewrite <- app_assoc. done.
    + left. eexists. split; [reflexivity|]. cbn [chan_send ch_sent].
      rewrite contiguous_snoc, payload_snoc, app_assoc. cbn [fr_Offset fr_Data].
      split; [|done]. split; [done|]. rewrite (tr_end _ _ _ Ht), length_app. lia.
  - rewrite Hc. right. split; [done|]. exists c, (rest ++ p). by rewrite <- !app_assoc.
Qed.

Lemma publish_loop_sub fuel base id s0 s h p :
  tracks base s h -> (base + Z.of_nat (length s + length p) < 2 ^ 64)%Z -> length p <= fuel ->
  sub_state base id s0 s h -> sub_state base id s0 (s ++ p) (publish_loop fuel h p).
Proof.
  revert s h p. induction fuel as [|fuel IH]; intros s h p Ht Hov Hf Hs.
  { destruct p; [|simpl in Hf; lia]. by rewrite app_nil_r. }
  cbn [publish_loop]. destruct p as [|c p0]; [by rewrite app_nil_r|]. set (p := c :: p0) in *.
  assert (1 <= maxOutputFrameBytes) as Hm by (by apply to_nat_pos).
  pose proof (take_drop maxOutputFrameBytes p) as Htd.
  assert (Hlen : length (take maxOutputFrameBytes p) + length (drop maxOutputFrameBytes p) = length p)
    by (rewrite <- Htd at 3; by rewrite length_app).
  rewrite <- Htd at 1. rewrite app_assoc. apply IH.
  - apply publish_chunk_tracks; [done|]. lia.
  - rewrite length_app. lia.
  - rewrite length_drop. assert (length p <> 0) by done. lia.
  - by apply publish_chunk_sub.
Qed.

(** Changes of the subscriber maps alone. *)
Lemma tracks_subs base s h n cl subs gone :
  tracks base s h ->
  tracks base s (mkHub (h_capacity h) (h_data h) (h_start h) (h_size h) (h_startOffset h) (h_endOffset h)
              n cl subs gone).
Proof. intros [Hb [? ? ? ?] Hr He Hst]. split; [done|by split|exact Hr|done|done]. Qed.

(** What the step adds to the stream. *)
Definition added (h : OutputHub) (op : hub_op) : bytes :=
  match op with OpPublish d => if h_closed h then [] else d | _ => [] end.

Lemma hub_step_tracks base s h op :
  (base + Z.of_nat (length (s ++ added h op)) < 2 ^ 64)%Z -> tracks base s h ->
  tracks base (s ++ added h op) (hub_step h op).
Proof.
  intros Hov Ht. destruct op as [d|o q|i|i|]; cbn [hub_step added] in *; rewrite ?app_nil_r.
  - unfold Publish. destruct (h_closed h); cbn [fst]; [by rewrite app_nil_r|].
    rewrite length_app in Hov. by apply publish_loop_tracks.
  - unfold Subscribe. destruct (h_closed h); [done|]. destruct (_ <? o)%Z; [done|]. by apply tracks_subs.
  - unfold Cancel. destruct (h_subscribers h !! i); [by apply tracks_subs|done].
  - by apply tracks_subs.
  - unfold Close. destruct (h_closed h); [done|by apply tracks_subs].
Qed.

Lemma hub_step_sub base id s0 s h op :
  (base + Z.of_nat (length (s ++ added h op)) < 2 ^ 64)%Z -> tracks base s h -> sub_state base id s0 s h ->
  sub_state base id s0 (s ++ added h op) (hub_step h op).
Proof.
  intros Hov Ht Hs. destruct op as [d|o q|i|i|]; cbn [hub_step added] in *; rewrite ?app_nil_r.
  - unfold Publish. destruct (h_closed h); cbn [fst]; [by rewrite app_nil_r|].
    rewrite length_app in Hov. by apply publish_loop_sub.
  - unfold Subscribe. destruct (h_closed h); [done|]. destruct (_ <? o)%Z; [done|]. cbn [fst].
    destruct Hs as [Hid Hs]. split; cbn [h_nextID h_subscribers h_gone]; [lia|].
    rewrite lookup_insert_ne by lia. done.
  - unfold Cancel. destruct (h_subscribers h !! i) as [ci|] eqn:Ei; [|done]. destruct Hs as [Hid Hs].
    split; cbn [h_nextID h_subscribers h_gone]; [done|]. destruct (decide (i = id)) as [->|Hne].
    + right. rewrite lookup_delete_eq. split; [done|]. exists (chan_close ci), [].
      rewrite lookup_insert_eq, app_nil_r. cbn [chan_close ch_sent ch_closed].
      destruct Hs as [(c & Hc & Hcont & Hsp)|(Hc & _)]; [|congruence].
      rewrite Ei in Hc. injection Hc as <-. done.
    + rewrite lookup_delete_ne, lookup_insert_ne by done. done.
  - destruct Hs as [Hid Hs]. split; cbn [Receive h_nextID h_subscribers h_gone]; [done|].
    rewrite !lookup_alter. case_decide as Hi; [subst i|done].
    destruct Hs as [(c & Hc & Hcont & Hsp)|(Hc & c & rest & Hg & Hcl & Hcont & Hsp)]; rewrite Hc.
    + left. by exists (take_one c).
    + right. split; [done|]. exists (take_one c), rest. by rewrite Hg.
  - unfold Close. destruct (h_closed h); [done|]. destruct Hs as [Hid Hs].
    split; cbn [h_nextID h_subscribers h_gone]; [done|]. right. split; [apply lookup_empty|].
    rewrite lookup_union, lookup_fmap.
    destruct Hs as [(c & Hc & Hcont & Hsp)|(Hc & c & rest & Hg & Hcl & Hcont & Hsp)]; rewrite Hc.
    + exists (chan_close c), []. rewrite app_nil_r. by destruct (h_gone h !! id).
    + exists c, rest. by rewrite Hg.
Qed.

Lemma hub_run_grows ops s h h' s' : hub_run h s ops = (h', s') -> length s <= length s'.
Proof.
  revert s h. induction ops as [|op ops IH]; intros s h; cbn [hub_run]; [by intros [= _ <-]|].
  intros H. apply IH in H. rewrite length_app in H. lia.
Qed.

Lemma hub_run_tracks base ops s h h' s' :
  hub_run h s ops = (h', s') -> (base + Z.of_nat (length s') < 2 ^ 64)%Z -> tracks base s h -> tracks base s' h'.
Proof.
  revert s h. induction ops as [|op ops IH]; intros s h; cbn [hub_run]; [by intros [= <- <-]|].
  intros Hr Hov Ht. pose proof (hub_run_grows _ _ _ _ _ Hr) as Hg.
  apply (IH _ _ Hr Hov). apply (hub_step_tracks base s h op); [|done]. unfold added. lia.
Qed.

Lemma hub_run_sub base id s0 ops s h h' s' :
  hub_run h s ops = (h', s') -> (base + Z.of_nat (length s') < 2 ^ 64)%Z -> tracks base s h ->
  sub_state base id s0 s h -> sub_state base id s0 s' h'.
Proof.
  revert s h. induction ops as [|op ops IH]; intros s h; cbn [hub_run]; [by intros [= <- <-]|].
  intros Hr Hov Ht Hs. pose proof (hub_run_grows _ _ _ _ _ Hr) as Hg.
  assert (base + Z.of_nat (length (s ++ added h op)) < 2 ^ 64)%Z as Hov1 by (unfold added; lia).
  apply (IH _ _ Hr Hov); [by apply (hub_step_tracks base s h op)|by apply (hub_step_sub base id s0 s h op)].
Qed.

Lemma Subscribe_state base s h offset queue h1 replay id :
  tracks base s h -> Subscribe h offset queue = (h1, Ok (replay, id)) ->
  let oldest := (base + Z.of_nat (length s - h_capacity h))%Z in
  tracks base s h1 /\ sub_state base id s s h1 /\ (base <= fr_Offset replay <= base + Z.of_nat (length s))%Z /\
  fr_Data replay = drop (Z.to_nat (fr_Offset replay - base)) s /\
  fr_Offset replay = Z.max offset oldest /\ fr_Gap replay = (offset <? oldest)%Z.
Proof.
  intros Ht Hs oldest.
  assert (h_closed h = false /\ (offset <= base + Z.of_nat (length s))%Z) as [Hcl Hle].
  { unfold Subscribe in Hs. destruct (h_closed h); [done|]. rewrite (tr_end _ _ _ Ht) in Hs.
    destruct (_ <? offset)%Z eqn:E; [done|]. by bool_to_prop. }
  pose proof (Subscribe_replay base s h offset queue Ht Hcl Hle) as Hrep. cbv zeta in Hrep.
  rewrite Hs in Hrep. cbn [snd] in Hrep. injection Hrep as -> ->. cbn [fr_Offset fr_Data fr_Gap].
  assert (h1 = fst (Subscribe h offset queue)) as -> by (by rewrite Hs).
  unfold Subscribe. rewrite Hcl. destruct (h_endOffset h <? offset)%Z eqn:E.
  { rewrite (tr_end _ _ _ Ht) in E. bool_to_prop. lia. }
  cbn [fst]. split; [by apply tracks_subs|]. split; [|split; [subst oldest; lia|done]].
  split; cbn [h_nextID h_subscribers]; [done|]. left. eexists. rewrite lookup_insert_eq.
  split; [reflexivity|]. cbn [ch_sent]. split; [done|]. by rewrite app_nil_r.
Qed.

(** No holes: a subscriber's replay followed by the frames sent to it is
    exactly the output from the replay's offset on, whatever is published,
    received, subscribed or cancelled meanwhile, with each frame at the offset
    where the one before ended; only a subscriber that was closed (because its
    queue was full, on cancel, or with the hub) misses a tail. *)
Theorem subscriber_sees_no_holes capacity ops1 offset queue ops2 h s h1 replay id h2 s2 :
  hub_run (NewOutputHub capacity) [] ops1 = (h, s) -> (0 <= offset)%Z ->
  Subscribe h offset queue = (h1, Ok (replay, id)) ->
  hub_run h1 s ops2 = (h2, s2) -> (Z.of_nat (length s2) < 2 ^ 64)%Z ->
  (exists c, h_subscribers h2 !! id = Some c /\
     contiguous (fr_Offset replay) (replay :: ch_sent c) /\
     fr_Data replay ++ payload (ch_sent c) = drop (Z.to_nat (fr_Offset replay)) s2) \/
  (exists c rest, h_subscribers h2 !! id = None /\ h_gone h2 !! id = Some c /\ ch_closed c = true /\
     contiguous (fr_Offset replay) (replay :: ch_sent c) /\
     fr_Data replay ++ payload (ch_sent c) ++ rest = drop (Z.to_nat (fr_Offset replay)) s2).
Proof.
  intros Hr1 Ho Hsub Hr2 Hov. pose proof (hub_run_grows _ _ _ _ _ Hr2) as Hg.
  assert (Ht : tracks 0 s h) by (apply (hub_run_tracks _ _ _ _ _ _ Hr1); [lia|apply NewOutputHub_tracks]).
  destruct (Subscribe_state _ _ _ _ _ _ _ _ Ht Hsub) as (Ht1 & Hs1 & Hle & Hdata & Hoff & _). rewrite Z.sub_0_r in Hdata.
  pose proof (hub_run_sub 0 id s ops2 s h1 h2 s2 Hr2 Hov Ht1 Hs1) as [_ Hfin].
  assert (Hlen : (fr_Offset replay + Z.of_nat (length (fr_Data replay)) = Z.of_nat (length s))%Z).
  { rewrite Hdata, length_drop. lia. }
  assert (Hdrop : forall t, drop (Z.to_nat (fr_Offset replay)) (s ++ t) = fr_Data replay ++ t).
  { intros t. rewrite drop_app_le by lia. by rewrite Hdata. }
  destruct Hfin as [(c & Hc & Hcont & ->)|(Hc & c & rest & Hgone & Hcl & Hcont & ->)]; [left|right].
  - exists c. rewrite Hdrop. cbn [contiguous]. rewrite Hlen. auto.
  - exists c, rest. rewrite Hdrop. cbn [contiguous]. rewrite Hlen. auto 10.
Qed.

(** ** Concrete instances *)

Definition demo_datas : list bytes := [["a"; "b"; "c"]; ["d"; "e"; "f"]]%char.

Lemma hub_is_window_witness :
  let h := fold_left (fun h d => fst (Publish h d)) demo_datas (NewOutputHub 4) in
  Snapshot h = mkFrame 2 (lastn (h_capacity h) (concat demo_datas)) (negb (2 =? 0)%Z) /\
  Bounds h = (2, 6)%Z /\
  exists id, snd (Subscribe h 1 8) =
    Ok (mkFrame (Z.max 1 2) (drop (Z.to_nat (Z.max 1 2)) (concat demo_datas)) (1 <? 2)%Z, id).
Proof.
  apply (hub_is_window 4 demo_datas 1 8); vm_compute; [reflexivity|split; discriminate].
Defined.

Definition demo_hub : OutputHub := fst (hub_run (NewOutputHub 4) [] [OpPublish ["a"; "b"]%char]).
Definition demo_subscribed : OutputHub := fst (Subscribe demo_hub 1 2).

Lemma subscriber_witness :
  (exists c, h_subscribers (fst (hub_run demo_subscribed ["a"; "b"]%char [OpPublish ["c"]%char])) !! 1 = Some c /\
     contiguous 1 (mkFrame 1 ["b"]%char false :: ch_sent c) /\
     ["b"]%char ++ payload (ch_sent c) = drop (Z.to_nat 1) ["a"; "b"; "c"]%char) \/
  (exists c rest, h_subscribers (fst (hub_run demo_subscribed ["a"; "b"]%char [OpPublish ["c"]%char])) !! 1 = None /\
     h_gone (fst (hub_run demo_subscribed ["a"; "b"]%char [OpPublish ["c"]%char])) !! 1 = Some c /\
     ch_closed c = true /\ contiguous 1 (mkFrame 1 ["b"]%char false :: ch_sent c) /\
     ["b"]%char ++ payload (ch_sent c) ++ rest = drop (Z.to_nat 1) ["a"; "b"; "c"]%char).
Proof.
  apply (subscriber_sees_no_holes 4 [OpPublish ["a"; "b"]%char] 1 2 [OpPublish ["c"]%char]
           demo_hub ["a"; "b"]%char demo_subscribed (mkFrame 1 ["b"]%char false) 1
           (fst (hub_run demo_subscribed ["a"; "b"]%char [OpPublish ["c"]%char])) ["a"; "b"; "c"]%char);
    vm_compute; try reflexivity; discriminate.
Defined.
