(* ===== verification/Registry.v ===== *)
(** * Registration of recovered runtimes: [internal/ducklion/runtime/registry.go]
      and [internal/ducklion/model/recovery.go]

    Each critical section of the registry is one function; a registration runs
    two of them with an unlocked session lookup and signature check between, so
    [rstep] interleaves the sections of many registrations.  The random ids and
    nonces, the lookup of a session's row ([None] where the read fails), and the
    ed25519 verification are arguments.  A connection is a number;
    [r_connsClosed] lists the connections on which the code called [Close].
    [r_inflight], [r_issued] and [r_grants] only record what happened. *)

From S2P Require Import Prelude GoStrings.
Local Open Scope go_scope.
Local Open Scope Z_scope.

Record RuntimeIdentity := mkIdentity {
  ri_SessionID : string;
  ri_Generation : Z;
  ri_LeaseID : string;
}.
#[export] Instance RuntimeIdentity_eq_dec : EqDecision RuntimeIdentity.
Proof. solve_decision. Defined.

Record pendingChallenge := mkChallenge {
  pc_sessionID : string;
  pc_nonce : string;
  pc_generation : Z;
  pc_expires : Z;
}.

(** The columns of a session the registry reads. *)
Record SessionRow := mkSession {
  se_Status : string;
  se_RuntimeGeneration : Z;
  se_RecoveryPublicKey : string;
}.

Record registeredRuntime := mkRuntime {
  rr_identity : RuntimeIdentity;
  rr_conn : N;
}.

Inductive reg_error :=
| ErrRuntimeNotRecovering
| ErrRuntimeRegistered
| ErrChallengeInvalid
| ErrRecoveryProof
| ErrRegistryClosed
| ErrSessionLookup
| ErrRandom.

(** A registration that took its challenge and has not finished. *)
Record inflight := mkInflight {
  if_challengeID : string;
  if_sessionID : string;
  if_generation : Z;
  if_nonce : string;
  if_conn : N;
}.

Record Registry := mkRegistry {
  r_challenges : gmap string pendingChallenge;
  r_live : gmap string registeredRuntime;
  r_closed : bool;
  r_connsClosed : list N;
  r_inflight : list inflight;
  r_issued : list (string * pendingChallenge);
  r_grants : list (string * RuntimeIdentity);
}.

Definition NewRegistry : Registry := mkRegistry ∅ ∅ false [] [] [] [].

Definition second : Z := 1000000000.
Definition publicKeySize : nat := 32.
Definition nonceSize : nat := 32.
Definition signatureSize : nat := 64.

Section Registry.
(** [ed25519.Verify(key, message, signature)]. *)
Variable ed25519_verify : string -> string -> string -> bool.

(** ** The signed message *)

(** [binary.BigEndian.PutUint64] and [PutUint16]: [n] bytes, high byte first. *)
Fixpoint big_endian (n : nat) (v : Z) : string :=
  match n with
  | O => ""
  | S n' => big_endian n' (v / 256) +:+ String (ascii_of_N (Z.to_N (v mod 256))) ""
  end.

Definition recoveryMessage (instanceID sessionID : string) (generation : Z) (nonce : string) (major minor : Z)
  : string :=
  "ducklion-supervisor-recovery-v1" +:+ String "000" (instanceID +:+ String "000"
    (sessionID +:+ big_endian 8 generation +:+ big_endian 2 major +:+ big_endian 2 minor +:+ nonce)).

Definition VerifyRecoveryProof (publicKey instanceID sessionID : string) (generation : Z) (nonce proof : string)
    (major minor : Z) : bool :=
  (slen publicKey =? publicKeySize)%nat && (slen nonce =? nonceSize)%nat
  && (slen proof =? signatureSize)%nat
  && ed25519_verify publicKey (recoveryMessage instanceID sessionID generation nonce major minor) proof.

(** ** The critical sections *)

(** The daemon's own id, fixed when the registry is made. *)
Variable instanceID : string.

(** The first section of [BeginRegistration]. *)
Definition BeginCheck (r : Registry) : result reg_error unit :=
  if r_closed r then Err ErrRegistryClosed else Ok tt.

(** The session lookup, the draw of the nonce and the id, and the second section. *)
Definition BeginIssue (r : Registry) (sessionID : string) (generation : Z)
    (GetSession : string -> option SessionRow) (nonce id : option string) (now : Z)
  : Registry * result reg_error (string * string) :=
  match GetSession sessionID with
  | None => (r, Err ErrSessionLookup)
  | Some session =>
  if (se_Status session !=s "recovering") || negb (se_RuntimeGeneration session =? generation)
     || negb (slen (se_RecoveryPublicKey session) =? publicKeySize)%nat
  then (r, Err ErrRuntimeNotRecovering)
  else match nonce, id with
  | Some nonce, Some id =>
      if r_closed r then (r, Err ErrRegistryClosed)
      else match r_live r !! sessionID with
      | Some _ => (r, Err ErrRuntimeRegistered)
      | None =>
          let ch := mkChallenge sessionID nonce generation (now + 15 * second) in
          let kept := filter (fun kv => ~ (pc_expires (snd kv) < now)) (r_challenges r) in
          (mkRegistry (<[id := ch]> kept) (r_live r) (r_closed r) (r_connsClosed r) (r_inflight r)
             ((id, ch) :: r_issued r) (r_grants r), Ok (id, nonce))
      end
  | _, _ => (r, Err ErrRandom)
  end
  end.

(** [BeginRegistration] run without interference. *)
Definition BeginRegistration (r : Registry) (sessionID : string) (generation : Z)
    (GetSession : string -> option SessionRow) (nonce id : option string) (now : Z)
  : Registry * result reg_error (string * string) :=
  match BeginCheck r with
  | Err e => (r, Err e)
  | Ok _ => BeginIssue r sessionID generation GetSession nonce id now
  end.

(** [conn.Close()], by the deferred function of a failed registration. *)
Definition close_conn (r : Registry) (conn : N) : Registry :=
  mkRegistry (r_challenges r) (r_live r) (r_closed r) (conn :: r_connsClosed r) (r_inflight r)
    (r_issued r) (r_grants r).

(** The first section of [CompleteRegistration]: the challenge is taken out,
    whatever happens next. *)
Definition TakeChallenge (r : Registry) (sessionID : string) (generation : Z) (challengeID : string)
    (conn : option N) (now : Z) : Registry * result reg_error inflight :=
  match conn with
  | None => (r, Err ErrChallengeInvalid)
  | Some conn =>
  let r' := mkRegistry (delete challengeID (r_challenges r)) (r_live r) (r_closed r)
              (r_connsClosed r) (r_inflight r) (r_issued r) (r_grants r) in
  match r_challenges r !! challengeID with
  | None => (close_conn r' conn, Err ErrChallengeInvalid)
  | Some ch =>
      if (pc_sessionID ch !=s sessionID) || negb (pc_generation ch =? generation)
         || (pc_expires ch <? now)
      then (close_conn r' conn, Err ErrChallengeInvalid)
      else match r_live r !! sessionID with
      | Some _ => (close_conn r' conn, Err ErrRuntimeRegistered)
      | None =>
          let a := mkInflight challengeID sessionID generation (pc_nonce ch) conn in
          (mkRegistry (r_challenges r') (r_live r) (r_closed r) (r_connsClosed r)
             (a :: r_inflight r) (r_issued r) (r_grants r), Ok a)
      end
  end
  end.

(** The lookup, the proof, the lease id and the second section of
    [CompleteRegistration]. *)
Definition FinishRegistration (r : Registry) (a : inflight) (GetSession : string -> option SessionRow)
    (proof : string) (major minor : Z) (lease : option string)
  : Registry * result reg_error RuntimeIdentity :=
  let failed e := (close_conn r (if_conn a), Err e) in
  match GetSession (if_sessionID a) with
  | None => failed ErrSessionLookup
  | Some session =>
  if (se_Status session !=s "recovering") || negb (se_RuntimeGeneration session =? if_generation a)
  then failed ErrRuntimeNotRecovering
  else if negb (VerifyRecoveryProof (se_RecoveryPublicKey session) instanceID (if_sessionID a) (if_generation a)
                  (if_nonce a) proof major minor)
  then failed ErrRecoveryProof
  else match lease with
  | None => failed ErrRandom
  | Some leaseID =>
  let identity := mkIdentity (if_sessionID a) (if_generation a) leaseID in
  if r_closed r then failed ErrRegistryClosed
  else match r_live r !! if_sessionID a with
  | Some _ => failed ErrRuntimeRegistered
  | None =>
      (mkRegistry (r_challenges r)
         (<[if_sessionID a := mkRuntime identity (if_conn a)]> (r_live r)) (r_closed r)
         (r_connsClosed r) (r_inflight r) (r_issued r) ((if_challengeID a, identity) :: r_grants r),
       Ok identity)
  end
  end
  end.

(** Drop a registration that has ended. *)
Definition set_inflight (r : Registry) (l : list inflight) : Registry :=
  mkRegistry (r_challenges r) (r_live r) (r_closed r) (r_connsClosed r) l (r_issued r) (r_grants r).

(** [CompleteRegistration] run without interference. *)
Definition CompleteRegistration (r : Registry) (sessionID : string) (generation : Z)
    (challengeID : string) (GetSession : string -> option SessionRow) (proof : string) (major minor : Z)
    (conn : option N) (lease : option string) (now : Z) : Registry * result reg_error RuntimeIdentity :=
  match TakeChallenge r sessionID generation challengeID conn now with
  | (r1, Err e) => (r1, Err e)
  | (r1, Ok a) =>
      let '(r2, res) := FinishRegistration r1 a GetSession proof major minor lease in
      (set_inflight r2 (tail (r_inflight r2)), res)
  end.

Definition Disconnect (r : Registry) (identity : RuntimeIdentity) : Registry :=
  match r_live r !! ri_SessionID identity with
  | Some current =>
      if bool_decide (rr_identity current = identity)
      then mkRegistry (r_challenges r) (delete (ri_SessionID identity) (r_live r)) (r_closed r)
             (r_connsClosed r) (r_inflight r) (r_issued r) (r_grants r)
      else r
  | None => r
  end.

Definition IsCurrent (r : Registry) (identity : RuntimeIdentity) : bool :=
  match r_live r !! ri_SessionID identity with
  | Some current => bool_decide (rr_identity current = identity)
  | None => false
  end.

Definition Current (r : Registry) (sessionID : string) (generation : Z) : option RuntimeIdentity :=
  match r_live r !! sessionID with
  | Some current =>
      if ri_Generation (rr_identity current) =? generation then Some (rr_identity current) else None
  | None => None
  end.

(** The connections are closed after the lock is released, in map order. *)
Definition CloseAll (r : Registry) : Registry :=
  mkRegistry ∅ ∅ true (map (fun kv => rr_conn (snd kv)) (map_to_list (r_live r)) ++ r_connsClosed r)
    (r_inflight r) (r_issued r) (r_grants r).

(** ** Interleavings *)

Definition live_conns (r : Registry) : list N :=
  map (fun kv => rr_conn (snd kv)) (map_to_list (r_live r)).

Definition conns_used (r : Registry) : list N :=
  map if_conn (r_inflight r) ++ live_conns r ++ r_connsClosed r.

(** The table of sessions at each moment; other parts of the daemon change it. *)
Variable sessions : nat -> gmap string SessionRow.

(** A read of the table at moment [m], which may fail. *)
Definition read_at (m : nat) (ok : bool) (sessionID : string) : option SessionRow :=
  if ok then sessions m !! sessionID else None.

(** One critical section of some caller, at moment [n]; the session is read before it,
    at a moment [m].  A challenge id, once drawn, is not drawn again, and a caller
    registers with a connection of its own. *)
Inductive rstep (n : nat) (r : Registry) : Registry -> Prop :=
| step_begin sid gen m ok nonce id now :
    (m <= n)%nat -> (forall i, id = Some i -> ~ In i (map fst (r_issued r))) ->
    rstep n r (fst (BeginIssue r sid gen (read_at m ok) nonce id now))
| step_take sid gen cid conn now :
    (forall c, conn = Some c -> ~ In c (conns_used r)) ->
    rstep n r (fst (TakeChallenge r sid gen cid conn now))
| step_finish l1 a l2 m ok proof major minor lease :
    (m <= n)%nat -> r_inflight r = l1 ++ a :: l2 ->
    rstep n r (set_inflight (fst (FinishRegistration r a (read_at m ok) proof major minor lease)) (l1 ++ l2))
| step_disconnect identity : rstep n r (Disconnect r identity)
| step_close : rstep n r (CloseAll r).

(** What the registry can be at moment [n]; time may pass between two sections. *)
Inductive reachable : nat -> Registry -> Prop :=
| reach_new n : reachable n NewRegistry
| reach_step n r r' k : reachable n r -> rstep n r r' -> (n <= k)%nat -> reachable k r'.

(** ** Theorems *)

(** A grant up to moment [n]: the challenge was issued for that session and generation,
    and some proof over its nonce verified under the key that the table held for that
    very session, which was recovering at that generation. *)
Definition granted (n : nat) (r : Registry) (cid : string) (ident : RuntimeIdentity) : Prop :=
  exists ch m row proof major minor, In (cid, ch) (r_issued r) /\
    pc_sessionID ch = ri_SessionID ident /\ pc_generation ch = ri_Generation ident /\
    (m <= n)%nat /\ sessions m !! ri_SessionID ident = Some row /\
    se_Status row = "recovering" /\ se_RuntimeGeneration row = ri_Generation ident /\
    VerifyRecoveryProof (se_RecoveryPublicKey row) instanceID (ri_SessionID ident) (ri_Generation ident)
      (pc_nonce ch) proof major minor = true.

Definition used_ids (r : Registry) : list string := map if_challengeID (r_inflight r) ++ map fst (r_grants r).

Record reg_inv (n : nat) (r : Registry) : Prop := {
  inv_open : forall id ch, r_challenges r !! id = Some ch ->
             In (id, ch) (r_issued r) /\ ~ In id (used_ids r);
  inv_flight : Forall (fun a => exists ch, In (if_challengeID a, ch) (r_issued r) /\
                 pc_sessionID ch = if_sessionID a /\ pc_generation ch = if_generation a /\
                 pc_nonce ch = if_nonce a) (r_inflight r);
  inv_once : List.NoDup (used_ids r);
  inv_used : forall id, In id (used_ids r) -> In id (map fst (r_issued r));
  inv_grants : Forall (fun g => granted n r (fst g) (snd g)) (r_grants r);
  inv_live : forall sid rt, r_live r !! sid = Some rt ->
             ri_SessionID (rr_identity rt) = sid /\ exists cid, In (cid, rr_identity rt) (r_grants r);
}.

Lemma granted_mono n k r r' cid ident :
  (n <= k)%nat -> (forall x, In x (r_issued r) -> In x (r_issued r')) -> granted n r cid ident -> granted k r' cid ident.
Proof.
  intros Hn H (ch & m & row & p & mj & mn & Hin & H1 & H2 & Hm & Hx). exists ch, m, row, p, mj, mn.
  split; [by apply H|]. do 2 (split; [done|]). split; [lia|done].
Qed.

Lemma inv_later n k r : (n <= k)%nat -> reg_inv n r -> reg_inv k r.
Proof.
  intros Hn [Ho Hf H1 Hu Hg Hl]. split; try done. eapply Forall_impl; [exact Hg|]. intros g. by apply granted_mono.
Qed.

Lemma inv_new n : reg_inv n NewRegistry.
Proof. split; cbn; try done; constructor. Qed.

Lemma inv_begin n r sid gen row nonce id now :
  reg_inv n r -> (forall i, id = Some i -> ~ In i (map fst (r_issued r))) ->
  reg_inv n (fst (BeginIssue r sid gen row nonce id now)).
Proof.
  intros [Ho Hf H1 Hu Hg Hl] Hfresh. unfold BeginIssue.
  destruct (row sid) as [x|]; [|done]. destruct (_ || _ || _); [by split|].
  destruct nonce as [nonce|]; [|by split]. destruct id as [id|]; [|by split].
  specialize (Hfresh _ eq_refl).
  destruct (r_closed r); [by split|]. destruct (r_live r !! sid); [by split|]. cbn [fst].
  split; cbn; try done.
  - intros i ch. rewrite lookup_insert. case_decide as Hi.
    + intros [= <-]. subst i. split; [by left|]. intros Hin. by apply Hfresh, Hu.
    + intros [E _]%map_lookup_filter_Some. destruct (Ho _ _ E). auto.
  - eapply Forall_impl; [exact Hf|]. intros a (ch & ? & ?). exists ch. split; [by right|done].
  - intros i Hi. right. by apply Hu.
  - eapply Forall_impl; [exact Hg|]. intros g. apply granted_mono; [done|]. intros y Hy. by right.
Qed.

(** Closing a connection keeps the invariant. *)
Lemma inv_close_conn n r conn : reg_inv n r -> reg_inv n (close_conn r conn).
Proof. intros [Ho Hf H1 Hu Hg Hl]. by split. Qed.

(** Taking a challenge out keeps the invariant. *)
Lemma inv_delete n r cid :
  reg_inv n r ->
  reg_inv n (mkRegistry (delete cid (r_challenges r)) (r_live r) (r_closed r) (r_connsClosed r)
             (r_inflight r) (r_issued r) (r_grants r)).
Proof.
  intros [Ho Hf H1 Hu Hg Hl]. split; cbn; try done.
  intros i ch Hi. apply lookup_delete_Some in Hi as [_ Hi]. by apply Ho.
Qed.

Lemma inv_take n r sid gen cid conn now : reg_inv n r -> reg_inv n (fst (TakeChallenge r sid gen cid conn now)).
Proof.
  intros Hinv. pose proof (inv_delete n r cid Hinv) as Hdel. unfold TakeChallenge.
  destruct conn as [conn|]; [|done].
  destruct (r_challenges r !! cid) as [ch|] eqn:Ec; [|by apply inv_close_conn].
  destruct (_ || _ || _) eqn:Eb; [by apply inv_close_conn|].
  destruct (r_live r !! sid); [by apply inv_close_conn|]. cbn [fst].
  destruct Hinv as [Ho Hf H1 Hu Hg Hl]. destruct (Ho _ _ Ec) as [Hin Hnot]. bool_to_prop.
  split; cbn; try done.
  - intros i c Hi. apply lookup_delete_Some in Hi as [Hne Hi]. destruct (Ho _ _ Hi) as [? Hn].
    split; [done|]. cbn. intros [->|?]; done.
  - constructor; [|done]. exists ch. repeat split; auto; congruence.
  - by constructor.
  - intros i [<-|Hi]; [|by apply Hu]. apply in_map_iff. by exists (cid, ch).
Qed.

Lemma inv_drop_inflight n r l1 a l2 : reg_inv n r -> r_inflight r = l1 ++ a :: l2 -> reg_inv n (set_inflight r (l1 ++ l2)).
Proof.
  intros [Ho Hf H1 Hu Hg Hl] He. unfold used_ids in *. rewrite He in *. rewrite map_app in *. cbn [map] in *.
  assert (Hsub : forall x, In x ((map if_challengeID l1 ++ map if_challengeID l2) ++ map fst (r_grants r)) ->
    In x ((map if_challengeID l1 ++ if_challengeID a :: map if_challengeID l2) ++ map fst (r_grants r))).
  { intros x. rewrite !in_app_iff. cbn [In]. tauto. }
  split; cbn; try done; unfold used_ids; cbn [r_inflight r_grants set_inflight]; rewrite ?map_app.
  - intros id ch Hi. destruct (Ho _ _ Hi). split; [done|]. intros Hx. by apply H0, Hsub.
  - apply Forall_app in Hf as [? Hf]. inversion Hf; subst. by apply Forall_app.
  - rewrite <- !app_assoc in *. cbn [app] in *. by apply NoDup_remove_1 in H1.
  - intros id Hi. by apply Hu, Hsub.
Qed.

Lemma inv_register n r l1 a l2 m row proof major minor leaseID :
  reg_inv n r -> r_inflight r = l1 ++ a :: l2 -> (m <= n)%nat -> sessions m !! if_sessionID a = Some row ->
  se_Status row = "recovering" -> se_RuntimeGeneration row = if_generation a ->
  VerifyRecoveryProof (se_RecoveryPublicKey row) instanceID (if_sessionID a) (if_generation a) (if_nonce a)
    proof major minor = true ->
  let identity := mkIdentity (if_sessionID a) (if_generation a) leaseID in
  reg_inv n (mkRegistry (r_challenges r)
    (<[if_sessionID a := mkRuntime identity (if_conn a)]> (r_live r)) (r_closed r)
    (r_connsClosed r) (l1 ++ l2) (r_issued r) ((if_challengeID a, identity) :: r_grants r)).
Proof.
  intros Hinv He Hmn Hrow Hst Hgn Hv identity. pose proof (inv_drop_inflight n r l1 a l2 Hinv He) as Hdrop.
  destruct Hinv as [Ho Hf H1 Hu Hg Hl]. destruct Hdrop as [Ho' Hf' H1' Hu' Hg' Hl'].
  unfold used_ids in *. rewrite He in *. cbn [set_inflight r_challenges r_live r_inflight r_issued r_grants] in *.
  rewrite map_app in H1. cbn [map] in H1. rewrite <- app_assoc in H1. cbn [app] in H1.
  apply NoDup_remove in H1 as [Hnd Hni].
  assert (Hfa : exists ch, In (if_challengeID a, ch) (r_issued r) /\ pc_sessionID ch = if_sessionID a /\
    pc_generation ch = if_generation a /\ pc_nonce ch = if_nonce a).
  { apply Forall_app in Hf as [_ Hf]. by inversion Hf. }
  destruct Hfa as (ch & Hin & Hs & Hgen & Hn).
  split; unfold used_ids; cbn [r_challenges r_live r_inflight r_issued r_grants map fst]; try done.
  - intros id c Hi. destruct (Ho _ _ Hi) as [? Hx]. split; [done|]. intros Hy. apply Hx.
    rewrite map_app in *. cbn [map]. rewrite !in_app_iff in *. cbn [In] in *. tauto.
  - apply (Permutation_NoDup (l := if_challengeID a :: (map if_challengeID (l1 ++ l2) ++ map fst (r_grants r)))).
    + apply Permutation_middle.
    + constructor; rewrite map_app, <- app_assoc; done.
  - intros id. rewrite in_app_iff. intros [Hi|[<-|Hi]].
    + apply Hu'. rewrite in_app_iff. by left.
    + apply in_map_iff. by exists (if_challengeID a, ch).
    + apply Hu'. rewrite in_app_iff. by right.
  - constructor; [|done]. cbn [fst snd]. exists ch, m, row, proof, major, minor.
    cbn [ri_SessionID ri_Generation]. rewrite Hn. repeat split; auto; congruence.
  - intros sid rt. rewrite lookup_insert. case_decide as Hi.
    + intros [= <-]. split; [done|]. exists (if_challengeID a). by left.
    + intros Hx. destruct (Hl _ _ Hx) as (? & cid & ?). split; [done|]. exists cid. by right.
Qed.

(** The two ways [FinishRegistration] ends. *)
Lemma FinishRegistration_cases r a row proof major minor lease :
  (exists e, FinishRegistration r a row proof major minor lease = (close_conn r (if_conn a), Err e)) \/
  (exists session leaseID, row (if_sessionID a) = Some session /\ lease = Some leaseID /\
     r_closed r = false /\ r_live r !! if_sessionID a = None /\
     se_Status session = "recovering" /\ se_RuntimeGeneration session = if_generation a /\
     VerifyRecoveryProof (se_RecoveryPublicKey session) instanceID (if_sessionID a) (if_generation a) (if_nonce a)
       proof major minor = true /\
     let identity := mkIdentity (if_sessionID a) (if_generation a) leaseID in
     FinishRegistration r a row proof major minor lease =
       (mkRegistry (r_challenges r) (<[if_sessionID a := mkRuntime identity (if_conn a)]> (r_live r))
          (r_closed r) (r_connsClosed r) (r_inflight r) (r_issued r)
          ((if_challengeID a, identity) :: r_grants r), Ok identity)).
Proof.
  unfold FinishRegistration. destruct (row (if_sessionID a)) as [session|]; [|by left; eexists].
  destruct (_ || _) eqn:E1; [by left; eexists|].
  destruct (VerifyRecoveryProof _ _ _ _ _ _ _ _) eqn:E2; [|by left; eexists]. cbn [negb].
  destruct lease as [leaseID|]; [|by left; eexists].
  destruct (r_closed r) eqn:Ec; [by left; eexists|].
  destruct (r_live r !! if_sessionID a) eqn:E3; [by left; eexists|].
  bool_to_prop. right. exists session, leaseID. repeat split; auto; congruence.
Qed.

Lemma inv_finish n r l1 a l2 m ok proof major minor lease :
  reg_inv n r -> (m <= n)%nat -> r_inflight r = l1 ++ a :: l2 ->
  reg_inv n (set_inflight (fst (FinishRegistration r a (read_at m ok) proof major minor lease)) (l1 ++ l2)).
Proof.
  intros Hinv Hm He.
  destruct (FinishRegistration_cases r a (read_at m ok) proof major minor lease)
    as [[e ->]|(session & leaseID & Hrow & -> & Hc & _ & H1 & H2 & H3 & ->)]; cbn [fst].
  - apply (inv_drop_inflight n (close_conn r (if_conn a)) l1 a l2); [by apply inv_close_conn|done].
  - destruct ok; [|discriminate].
    exact (inv_register n r l1 a l2 m session proof major minor leaseID Hinv He Hm Hrow H1 H2 H3).
Qed.

Lemma inv_disconnect n r identity : reg_inv n r -> reg_inv n (Disconnect r identity).
Proof.
  intros Hinv. unfold Disconnect. destruct (r_live r !! _) as [c|]; [|done].
  case_bool_decide; [|done]. destruct Hinv as [Ho Hf H1 Hu Hg Hl]. split; cbn; try done.
  intros sid ident Hi. apply lookup_delete_Some in Hi as [_ Hi]. by apply Hl.
Qed.

Lemma inv_close n r : reg_inv n r -> reg_inv n (CloseAll r).
Proof. intros [Ho Hf H1 Hu Hg Hl]. split; cbn; try done; intros x y; by rewrite lookup_empty. Qed.

Lemma reachable_inv n r : reachable n r -> reg_inv n r.
Proof.
  induction 1 as [|n r r' k _ IH Hs Hk]; [apply inv_new|]. apply (inv_later n k _ Hk). destruct Hs.
  - by apply inv_begin.
  - by apply inv_take.
  - by apply inv_finish.
  - by apply inv_disconnect.
  - by apply inv_close.
Qed.

(** ** The connections *)

Lemma live_conns_insert r sid rt (m := r_live r) :
  m !! sid = None -> map (fun kv => rr_conn (snd kv)) (map_to_list (<[sid := rt]> m)) ≡ₚ rr_conn rt :: live_conns r.
Proof. intros H. by rewrite (map_to_list_insert m sid rt H). Qed.

Lemma conns_disconnect r identity :
  exists l, conns_used r ≡ₚ l ++ conns_used (Disconnect r identity).
Proof.
  unfold Disconnect. destruct (r_live r !! _) as [c|] eqn:E; [|by exists []].
  case_bool_decide; [|by exists []]. exists [rr_conn c]. unfold conns_used, live_conns.
  cbn [r_inflight r_live r_connsClosed app]. rewrite <- (map_to_list_delete (r_live r) _ c E).
  cbn [map app snd]. symmetry. apply Permutation_middle.
Qed.

Lemma conns_nodup n r : reachable n r -> List.NoDup (conns_used r).
Proof.
  induction 1 as [|n r r' k _ IH Hs _]; [constructor|]. destruct Hs as
    [sid gen m ok nonce id now _ Hf|sid gen cid conn now Hf|l1 a l2 m ok proof major minor lease _ He|identity|].
  - unfold BeginIssue. destruct (read_at m ok sid), nonce, id; cbn; repeat case_match; done.
  - unfold TakeChallenge. destruct conn as [conn|]; [|done]. specialize (Hf _ eq_refl).
    assert (Hn : List.NoDup (conn :: conns_used r)) by by constructor.
    assert (Hp : conn :: conns_used r ≡ₚ map if_conn (r_inflight r) ++ live_conns r ++ conn :: r_connsClosed r).
    { unfold conns_used. by rewrite !Permutation_middle. }
    repeat case_match; first [exact Hn | exact (Permutation_NoDup Hp Hn)].
  - assert (Hp : conns_used r ≡ₚ if_conn a :: map if_conn (l1 ++ l2) ++ live_conns r ++ r_connsClosed r).
    { unfold conns_used. rewrite He, !map_app. cbn [map]. by rewrite <- !app_assoc, Permutation_middle. }
    eapply Permutation_NoDup; [|exact IH]. rewrite Hp.
    destruct (FinishRegistration_cases r a (read_at m ok) proof major minor lease)
      as [[e ->]|(session & leaseID & _ & -> & Hc & Hl & _ & _ & _ & ->)]; unfold conns_used; cbn.
    + by rewrite !Permutation_middle.
    + unfold live_conns at 2. cbn. rewrite (live_conns_insert _ _ _ Hl). cbn. by rewrite Permutation_middle.
  - destruct (conns_disconnect r identity) as [l Hl]. rewrite Hl in IH.
    apply NoDup_app_remove_l in IH. exact IH.
  - exact IH.
Qed.

(** C36. However registrations interleave, and however the table of sessions changes,
    a runtime is live for a session only after a proof verified over the nonce of a
    challenge that was issued for that very session and generation, under the public
    key that the table held for that session while it was recovering at that
    generation; no challenge ever registers two runtimes, and the connection of a live
    runtime is one the registry has not closed. *)
Theorem live_runtime_proved n r :
  reachable n r ->
  (forall sid rt, r_live r !! sid = Some rt ->
     ri_SessionID (rr_identity rt) = sid /\ ~ In (rr_conn rt) (r_connsClosed r) /\
     exists cid, In (cid, rr_identity rt) (r_grants r) /\ granted n r cid (rr_identity rt)) /\
  List.NoDup (map fst (r_grants r)).
Proof.
  intros Hr. pose proof (conns_nodup n r Hr) as Hc. apply reachable_inv in Hr as [Ho Hf H1 Hu Hg Hl]. split.
  - intros sid rt Hi. destruct (Hl _ _ Hi) as (? & cid & Hin). split; [done|]. split.
    + unfold conns_used in Hc. apply NoDup_app_remove_l in Hc. intros Hx.
      apply NoDup_ListNoDup, NoDup_app in Hc as (_ & Hc & _). apply (Hc (rr_conn rt)).
      * apply list_elem_of_In, in_map_iff. exists (sid, rt). split; [done|].
        by apply list_elem_of_In, elem_of_map_to_list.
      * by apply list_elem_of_In.
    + exists cid. split; [done|]. rewrite List.Forall_forall in Hg. by apply (Hg (cid, rr_identity rt)).
  - unfold used_ids in H1. by apply NoDup_app_remove_l in H1.
Qed.

Lemma BeginIssue_ok r sid gen GetSession row nonce id now :
  GetSession sid = Some row -> r_closed r = false -> r_live r !! sid = None ->
  se_Status row = "recovering" -> se_RuntimeGeneration row = gen ->
  slen (se_RecoveryPublicKey row) = publicKeySize ->
  let ch := mkChallenge sid nonce gen (now + 15 * second) in
  BeginIssue r sid gen GetSession (Some nonce) (Some id) now =
    (mkRegistry (<[id := ch]> (filter (fun kv => ~ (pc_expires (snd kv) < now)) (r_challenges r)))
       (r_live r) (r_closed r) (r_connsClosed r) (r_inflight r) ((id, ch) :: r_issued r) (r_grants r),
     Ok (id, nonce)).
Proof.
  intros Hr Hc Hl Hs Hg Hk ch. unfold BeginIssue.
  by rewrite Hr, Hc, Hs, Hg, Hk, Hl, Z.eqb_refl, Nat.eqb_refl.
Qed.

Lemma TakeChallenge_ok r sid gen cid conn now ch :
  r_challenges r !! cid = Some ch -> pc_sessionID ch = sid -> pc_generation ch = gen ->
  now <= pc_expires ch -> r_live r !! sid = None ->
  let a := mkInflight cid sid gen (pc_nonce ch) conn in
  TakeChallenge r sid gen cid (Some conn) now =
    (mkRegistry (delete cid (r_challenges r)) (r_live r) (r_closed r) (r_connsClosed r)
       (a :: r_inflight r) (r_issued r) (r_grants r), Ok a).
Proof.
  intros Hc Hs Hg Ht Hl a. unfold TakeChallenge. rewrite Hc, Hs, Hg, Hl, String.eqb_refl, Z.eqb_refl.
  by replace (pc_expires ch <? now) with false by (symmetry; apply Z.ltb_ge; lia).
Qed.

Lemma FinishRegistration_ok r a GetSession row proof major minor leaseID :
  GetSession (if_sessionID a) = Some row -> r_closed r = false -> r_live r !! if_sessionID a = None ->
  se_Status row = "recovering" -> se_RuntimeGeneration row = if_generation a ->
  VerifyRecoveryProof (se_RecoveryPublicKey row) instanceID (if_sessionID a) (if_generation a)
    (if_nonce a) proof major minor = true ->
  let identity := mkIdentity (if_sessionID a) (if_generation a) leaseID in
  FinishRegistration r a GetSession proof major minor (Some leaseID) =
    (mkRegistry (r_challenges r) (<[if_sessionID a := mkRuntime identity (if_conn a)]> (r_live r))
       (r_closed r) (r_connsClosed r) (r_inflight r) (r_issued r)
       ((if_challengeID a, identity) :: r_grants r), Ok identity).
Proof.
  intros Hr Hc Hl Hs Hg Hv identity. unfold FinishRegistration.
  by rewrite Hr, Hc, Hl, Hs, Hg, Hv, Z.eqb_refl.
Qed.

(** A registration that nobody disturbs succeeds: a recovering session with
    no live runtime gets a challenge, and a proof over it that verifies within
    fifteen seconds makes the runtime the current one, after which the challenge
    is spent and a second registration of the session is refused. *)
Theorem honest_registration_succeeds r sid gen GetSession row nonce id now now' proof major minor conn lease :
  GetSession sid = Some row -> r_closed r = false -> r_live r !! sid = None ->
  se_Status row = "recovering" -> se_RuntimeGeneration row = gen ->
  slen (se_RecoveryPublicKey row) = publicKeySize ->
  VerifyRecoveryProof (se_RecoveryPublicKey row) instanceID sid gen nonce proof major minor = true ->
  now' <= now + 15 * second ->
  let identity := mkIdentity sid gen lease in
  exists r1 r2,
    BeginRegistration r sid gen GetSession (Some nonce) (Some id) now = (r1, Ok (id, nonce)) /\
    CompleteRegistration r1 sid gen id GetSession proof major minor (Some conn) (Some lease) now'
      = (r2, Ok identity) /\
    IsCurrent r2 identity = true /\ Current r2 sid gen = Some identity /\
    r_challenges r2 !! id = None /\ r_connsClosed r2 = r_connsClosed r /\
    snd (BeginRegistration r2 sid gen GetSession (Some nonce) (Some id) now') = Err ErrRuntimeRegistered.
Proof.
  intros Hr Hc Hl Hs Hg Hk Hv Ht identity. unfold BeginRegistration at 1, BeginCheck.
  rewrite Hc, (BeginIssue_ok _ _ _ _ row) by done. eexists _, _. split; [reflexivity|].
  unfold CompleteRegistration. erewrite TakeChallenge_ok; [|apply lookup_insert_eq|done..]. cbn [pc_nonce].
  erewrite (FinishRegistration_ok _ _ _ row) by done. split; [reflexivity|].
  unfold IsCurrent, Current, BeginRegistration, BeginCheck, BeginIssue.
  cbn -[delete insert lookup]. rewrite !lookup_insert_eq, lookup_delete_eq. cbn [rr_identity ri_Generation].
  rewrite Hc, Hr, Hs, Hg, Hk, Z.eqb_refl, bool_decide_true by done. done.
Qed.

End Registry.

(** ** What a proof is about *)

Lemma big_endian_length n v : slen (big_endian n v) = n.
Proof. revert v. induction n as [|n IH]; intros v; [done|]. cbn. rewrite slen_app, IH. cbn. lia. Qed.

Lemma byte_of_Z_inj a b : 0 <= a < 256 -> 0 <= b < 256 -> ascii_of_N (Z.to_N a) = ascii_of_N (Z.to_N b) -> a = b.
Proof.
  intros Ha Hb H. apply (f_equal N_of_ascii) in H. rewrite !N_ascii_embedding in H by lia. lia.
Qed.

Lemma big_endian_inj n v w :
  0 <= v < 256 ^ Z.of_nat n -> 0 <= w < 256 ^ Z.of_nat n -> big_endian n v = big_endian n w -> v = w.
Proof.
  revert v w. induction n as [|n IH]; intros v w Hv Hw H; [cbn in Hv, Hw; lia|].
  rewrite Nat2Z.inj_succ, Z.pow_succ_r in Hv, Hw by lia. cbn [big_endian] in H.
  apply str_app_inj_len in H as [H1 H2]; [|by rewrite !big_endian_length].
  assert (Hq : v / 256 = w / 256).
  { apply IH; [| |exact H1]; split; first [apply Z.div_pos; lia | apply Z.div_lt_upper_bound; lia]. }
  injection H2 as H2'. apply byte_of_Z_inj in H2'; [|by apply Z.mod_pos_bound..].
  rewrite (Z.div_mod v 256), (Z.div_mod w 256) by lia. by rewrite Hq, H2'.
Qed.

(** Two recovery messages are the same bytes only when they are about the same
    daemon, session, generation, nonce and protocol version, so that a signature
    over one of them proves nothing about another: ids of daemons hold no NUL,
    nonces have their fixed size and the integers their width. *)
Theorem recoveryMessage_injective inst sid gen nonce major minor inst' sid' gen' nonce' major' minor' :
  ContainsByte inst "000" = false -> ContainsByte inst' "000" = false ->
  slen nonce = nonceSize -> slen nonce' = nonceSize ->
  0 <= gen < 2 ^ 64 -> 0 <= gen' < 2 ^ 64 ->
  0 <= major < 2 ^ 16 -> 0 <= major' < 2 ^ 16 -> 0 <= minor < 2 ^ 16 -> 0 <= minor' < 2 ^ 16 ->
  recoveryMessage inst sid gen nonce major minor = recoveryMessage inst' sid' gen' nonce' major' minor' ->
  inst = inst' /\ sid = sid' /\ gen = gen' /\ nonce = nonce' /\ major = major' /\ minor = minor'.
Proof.
  intros Hi Hi' Hn Hn' Hg Hg' Hj Hj' Hm Hm' H. unfold recoveryMessage in H.
  apply str_app_inj_l, (str_app_inj_l (String "000" "")) in H.
  pose proof (Cut_found _ (sid +:+ big_endian 8 gen +:+ big_endian 2 major +:+ big_endian 2 minor +:+ nonce) _ Hi) as Hc.
  rewrite H, Cut_found in Hc by done. apply pair_equal_spec in Hc as [[<- Hc]%pair_equal_spec _]. symmetry in Hc.
  assert (Hl : slen sid = slen sid').
  { apply (f_equal slen) in Hc. rewrite !slen_app, !big_endian_length in Hc. lia. }
  apply str_app_inj_len in Hc as [<- Hc]; [|done].
  apply str_app_inj_len in Hc as [H1 Hc]; [|by rewrite !big_endian_length].
  apply str_app_inj_len in Hc as [H2 Hc]; [|by rewrite !big_endian_length].
  apply str_app_inj_len in Hc as [H3 Hc]; [|by rewrite !big_endian_length].
  apply big_endian_inj in H1, H2, H3; [|done..]. done.
Qed.

(** ** Witnesses *)

Definition any_verify (key message signature : string) : bool := true.
Definition bytes32 : string := "0123456789abcdef0123456789abcdef".
Definition bytes64 : string := bytes32 +:+ bytes32.
Definition recovering_row : SessionRow := mkSession "recovering" 3 bytes32.

(** The table holds the key of the session throughout. *)
Definition table : gmap string SessionRow := {[ "s1" := recovering_row ]}.
Definition read_table (sid : string) : option SessionRow := table !! sid.

Definition after_begin : Registry :=
  fst (BeginIssue NewRegistry "s1" 3 read_table (Some bytes32) (Some "c1") 0).
Definition after_take : Registry := fst (TakeChallenge after_begin "s1" 3 "c1" (Some 7%N) second).
Definition after_finish : Registry :=
  set_inflight (fst (FinishRegistration any_verify "duck" after_take
    (mkInflight "c1" "s1" 3 bytes32 7%N) read_table bytes64 1 0 (Some "lease"))) [].

Lemma after_finish_reachable : reachable any_verify "duck" (fun _ => table) 3 after_finish.
Proof.
  apply (reach_step _ _ _ 2 after_take _ 3); [apply (reach_step _ _ _ 1 after_begin _ 2);
    [apply (reach_step _ _ _ 0 NewRegistry _ 1); [apply reach_new| |lia]| |lia]| |lia].
  - apply (step_begin any_verify "duck" (fun _ => table) 0 NewRegistry "s1" 3 0 true (Some bytes32) (Some "c1") 0); [lia|].
    intros i _ H. exact H.
  - apply (step_take any_verify "duck" (fun _ => table) 1 after_begin "s1" 3 "c1" (Some 7%N) second). intros c _ H. exact H.
  - apply (step_finish any_verify "duck" (fun _ => table) 2 after_take [] (mkInflight "c1" "s1" 3 bytes32 7%N) [] 2 true); [lia|].
    vm_compute. reflexivity.
Qed.

Lemma live_runtime_witness :
  exists rt, r_live after_finish !! "s1" = Some rt /\ ~ In (rr_conn rt) (r_connsClosed after_finish).
Proof.
  exists (mkRuntime (mkIdentity "s1" 3 "lease") 7%N). split; [vm_compute; reflexivity|].
  exact (proj1 (proj2 (proj1 (live_runtime_proved any_verify "duck" (fun _ => table) 3 after_finish after_finish_reachable)
    "s1" (mkRuntime (mkIdentity "s1" 3 "lease") 7%N) ltac:(vm_compute; reflexivity)))).
Defined.

Lemma honest_registration_witness :
  exists r1 r2,
    BeginRegistration NewRegistry "s1" 3 read_table (Some bytes32) (Some "c1") 0
      = (r1, Ok ("c1", bytes32)) /\
    CompleteRegistration any_verify "duck" r1 "s1" 3 "c1" read_table bytes64 1 0 (Some 7%N)
      (Some "lease") second = (r2, Ok (mkIdentity "s1" 3 "lease")).
Proof.
  destruct (honest_registration_succeeds any_verify "duck" NewRegistry "s1" 3 read_table recovering_row bytes32 "c1"
    0 second bytes64 1 0 7%N "lease" ltac:(vm_compute; reflexivity) eq_refl ltac:(vm_compute; reflexivity) eq_refl eq_refl eq_refl
    ltac:(vm_compute; reflexivity) ltac:(vm_compute; congruence)) as (r1 & r2 & H1 & H2 & _).
  exists r1, r2. split; [exact H1|exact H2].
Defined.

Lemma recoveryMessage_witness :
  recoveryMessage "d" "s" 1 bytes32 1 0 = recoveryMessage "d" "s" 1 bytes32 1 0 /\ "s" = "s".
Proof.
  split; [reflexivity|].
  exact (proj1 (proj2 (recoveryMessage_injective "d" "s" 1 bytes32 1 0 "d" "s" 1 bytes32 1 0
    eq_refl eq_refl eq_refl eq_refl ltac:(lia) ltac:(lia) ltac:(lia) ltac:(lia) ltac:(lia) ltac:(lia) eq_refl))).
Defined.
