(* ===== verification/ProxyPath.v ===== *)
(** * The path of a proxied request: [internal/server/handlers/proxy.go]

    [route_path] is the first part of [Handle]: from the request URL to the
    service, the path the ACL evaluates and the escaped path sent upstream.  The
    escaping functions of [net/url] are written out.  The service table is the
    argument [lookup], which returns a service's [allow_encoded_slash]. *)

From S2P Require Import Prelude GoStrings GoLib.
Local Open Scope go_scope.

(** ** [net/url] *)

Definition unreserved (c : ascii) : bool :=
  let b := byteN c in
  in_range 48 57 b || in_range 65 90 b || in_range 97 122 b
  || (c ==c "-") || (c ==c "_") || (c ==c ".") || (c ==c "~").

(** [shouldEscape(c, encodePath)]. *)
Definition shouldEscape (c : ascii) : bool :=
  negb (unreserved c || existsb (Ascii.eqb c) ["$"; "&"; "+"; ","; "/"; ":"; ";"; "="; "@"]%char).

Definition upperhex (n : N) : ascii := Nbyte (if (n <? 10)%N then 48 + n else 55 + n)%N.

Fixpoint escape (s : string) : string :=
  match s with
  | EmptyString => ""
  | String c s' =>
      if shouldEscape c
      then String "%" (String (upperhex (byteN c / 16)) (String (upperhex (byteN c mod 16)) (escape s')))
      else String c (escape s')
  end.

(** [url.PathUnescape]. *)
Fixpoint PathUnescape (s : string) : option string :=
  match s with
  | EmptyString => Some ""
  | String c s1 =>
      if c ==c "%" then
        match s1 with
        | String h (String l s2) =>
            match hex_val h, hex_val l, PathUnescape s2 with
            | Some hv, Some lv, Some t => Some (String (Nbyte (hv * 16 + lv)) t)
            | _, _, _ => None
            end
        | _ => None
        end
      else option_map (String c) (PathUnescape s1)
  end.

(** [validEncoded(s, encodePath)]. *)
Definition valid_encoded_char (c : ascii) : bool :=
  existsb (Ascii.eqb c) ["!"; "$"; "&"; "'"; "("; ")"; "*"; "+"; ","; ";"; "="; ":"; "@"; "["; "]"; "%"]%char
  || negb (shouldEscape c).

Record URL := mkURL { u_Path : string; u_RawPath : string }.

Definition EscapedPath (u : URL) : string :=
  if (u_RawPath u !=s "") && str_forall valid_encoded_char (u_RawPath u)
     && bool_decide (PathUnescape (u_RawPath u) = Some (u_Path u))
  then u_RawPath u
  else if u_Path u ==s "*" then "*"
  else escape (u_Path u).

(** ** The handler's functions *)

(** [strings.Join] with a separator of any length. *)
Fixpoint JoinString (ws : list string) (sep : string) : string :=
  match ws with
  | [] => ""
  | [w] => w
  | w :: ws' => w +:+ sep +:+ JoinString ws' sep
  end.

Definition escapedUpstreamPath (decoded : string) : string := EscapedPath (mkURL decoded "").

Inductive path_error :=
| InvalidEscape
| AmbiguousEncoding.

(** One segment of [encodedSlashPath]: its ACL text and its escaped form. *)
Definition encode_segment (seg : string) : result path_error (string * string) :=
  match PathUnescape seg with
  | None => Err InvalidEscape
  | Some dec =>
      let parts := Split dec "/" in
      if (1 <? length parts)%nat && ContainsByte dec "%" then Err AmbiguousEncoding
      else Ok (JoinString parts "%2F",
               JoinString (map (fun p => TrimPrefix (EscapedPath (mkURL ("/" +:+ p) "")) "/") parts) "%2F")
  end.

Fixpoint encode_segments (segs : list string) : result path_error (list string * list string) :=
  match segs with
  | [] => Ok ([], [])
  | seg :: segs' =>
      x <-! encode_segment seg;
      r <-! encode_segments segs';
      Ok (fst x :: fst r, snd x :: snd r)
  end.

Definition encodedSlashPath (rawRest : string) : result path_error (string * string) :=
  r <-! encode_segments (Split rawRest "/");
  Ok (JoinString (fst r) "/", JoinString (snd r) "/").

Section Route.
Context `{UC : UnicodeCase}.

Definition validateProxiedPath (u : URL) : string :=
  if existsb (fun c => (c =? 63) || (c =? 35) || (c <? 32) || (c =? 127))%N (runes (u_Path u))
  then "invalid character in proxied path"
  else if Contains (ToLower (EscapedPath u)) "%5c"
  then "encoded backslash in proxied path is not allowed"
  else "".

Definition hasEncodedSlash (u : URL) : bool := Contains (ToLower (EscapedPath u)) "%2f".

Inductive route :=
| BadRequest (message : string)
| NotFound (message : string)
| ToOpenAIAuth (upstreamPath : string)
| ToCodexRemote (upstreamPath : string)
| Routed (serviceName upstreamServiceName upstreamPath upstreamEscaped : string).

Definition path_error_message (e : path_error) : string :=
  match e with
  | InvalidEscape => "invalid escape in proxied path"
  | AmbiguousEncoding => "ambiguous encoding in proxied path"
  end.

(** The remainder of [r.URL.Path] after the service name. *)
Definition split_service (remainder : string) : string * string :=
  match SplitN remainder "/" 2 with
  | svc :: rest :: _ => (svc, "/" +:+ rest)
  | svc :: _ => (svc, "/")
  | [] => ("", "/")
  end.

Definition raw_rest (rawRest : string) : string :=
  match IndexByte rawRest "/" with
  | Some idx => str_drop idx rawRest
  | None => "/"
  end.

Definition upstream_service (serviceName : string) : string :=
  if serviceName ==s "openai-chatgpt" then "openai"
  else if (serviceName ==s "xai-grok") || (serviceName ==s "xai-api") then "xai"
  else serviceName.

Definition route_path (lookup : string -> option bool) (u : URL) : route :=
  if validateProxiedPath u !=s "" then BadRequest (validateProxiedPath u)
  else if negb (HasPrefix (u_Path u) "/proxy/") then BadRequest "invalid proxy path"
  else
  let '(serviceName, upstreamPath) := split_service (TrimPrefix (u_Path u) "/proxy/") in
  let rawSvc := fst (split_service (TrimPrefix (EscapedPath u) "/proxy/")) in
  let l := ToLower rawSvc in
  if Contains l "%2f" || Contains l "%5c" then BadRequest "encoded slash in service name is not allowed"
  else if hasEncodedSlash u && ((serviceName ==s "openai-auth") || (serviceName ==s "openai-chatgpt"))
  then BadRequest "encoded slash in proxied path is not allowed"
  else if serviceName ==s "openai-auth" then ToOpenAIAuth upstreamPath
  else if (serviceName ==s "openai-chatgpt")
          && HasPrefix upstreamPath "/backend-api/wham/remote/control/"
  then ToCodexRemote upstreamPath
  else match lookup (upstream_service serviceName) with
  | None => NotFound ("unknown service: " +:+ serviceName)
  | Some allowEncodedSlash =>
      if hasEncodedSlash u then
        if negb allowEncodedSlash
        then BadRequest "encoded slash in proxied path is not allowed for this service"
        else if negb (HasPrefix (EscapedPath u) "/proxy/") then BadRequest "invalid proxy path"
        else match encodedSlashPath (raw_rest (TrimPrefix (EscapedPath u) "/proxy/")) with
        | Err e => BadRequest (path_error_message e)
        | Ok (aclPath, esc) => Routed serviceName (upstream_service serviceName) aclPath esc
        end
      else Routed serviceName (upstream_service serviceName) upstreamPath (escapedUpstreamPath upstreamPath)
  end.

End Route.

(** ** Unescaping *)

(** Induction that also gives the hypothesis after a three-byte escape. *)
Lemma str_ind3 (P : string -> Prop) :
  P "" ->
  (forall c s, P s -> (forall h l s', s = String h (String l s') -> P s') -> P (String c s)) ->
  forall s, P s.
Proof.
  intros H0 HS s. remember (slen s) as n eqn:Hn. revert s Hn.
  induction (lt_wf n) as [n _ IH]. intros [|c s] ->; [done|]. apply HS.
  - by apply (IH (slen s)); [cbn; lia|].
  - intros h l s' ->. apply (IH (slen s')); [cbn; lia|done].
Qed.

Lemma hex_byte_roundtrip c :
  hex_val (upperhex (byteN c / 16)) = Some (byteN c / 16)%N /\
  hex_val (upperhex (byteN c mod 16)) = Some (byteN c mod 16)%N.
Proof. by destruct c as [[] [] [] [] [] [] [] []]. Qed.

Lemma shouldEscape_percent c : shouldEscape c = false -> (c ==c "%") = false.
Proof. by destruct c as [[] [] [] [] [] [] [] []]. Qed.

Lemma PathUnescape_escape s : PathUnescape (escape s) = Some s.
Proof.
  induction s as [|c s IH]; [done|]. cbn [escape]. destruct (shouldEscape c) eqn:E; cbn [PathUnescape].
  - destruct (hex_byte_roundtrip c) as [-> ->]. cbn. rewrite IH. do 2 f_equal.
    rewrite N.mul_comm, <- N.div_mod by done. apply ascii_N_embedding.
  - by rewrite (shouldEscape_percent _ E), IH.
Qed.

Lemma PathUnescape_EscapedPath u : PathUnescape (EscapedPath u) = Some (u_Path u).
Proof.
  unfold EscapedPath. destruct (_ && _ && _) eqn:E.
  - bool_to_prop. by apply bool_decide_eq_true in H0.
  - destruct (u_Path u ==s "*") eqn:E2; [|apply PathUnescape_escape]. bool_to_prop. by rewrite E2.
Qed.

Lemma PathUnescape_app s t a :
  PathUnescape s = Some a -> PathUnescape (s +:+ t) = option_map (fun b => a +:+ b) (PathUnescape t).
Proof.
  revert a. induction s as [|c s IH IH3] using str_ind3; intros a Ha.
  - injection Ha as <-. rewrite str_app_nil_l. by destruct (PathUnescape t).
  - rewrite str_app_cons. cbn [PathUnescape] in *. destruct (c ==c "%").
    + destruct s as [|h [|l s]]; [done..|]. rewrite !str_app_cons.
      destruct (hex_val h); [|done]. destruct (hex_val l); [|done].
      destruct (PathUnescape s) as [d|] eqn:Ed; [|done]. injection Ha as <-.
      rewrite (IH3 h l s eq_refl d Ed). by destruct (PathUnescape t).
    + destruct (PathUnescape s) as [d|] eqn:Ed; [|done]. injection Ha as <-.
      rewrite (IH d eq_refl). by destruct (PathUnescape t).
Qed.

(** A literal slash is never part of an escape, so unescaping splits there. *)
Lemma PathUnescape_slash s t :
  PathUnescape (s +:+ String "/" t) =
  match PathUnescape s, PathUnescape t with
  | Some a, Some b => Some (a +:+ String "/" b)
  | _, _ => None
  end.
Proof.
  induction s as [|c s IH IH3] using str_ind3.
  - rewrite str_app_nil_l. cbn. by destruct (PathUnescape t).
  - rewrite str_app_cons. cbn [PathUnescape]. destruct (c ==c "%").
    + destruct s as [|h [|l s]].
      * rewrite str_app_nil_l. by destruct t.
      * rewrite str_app_cons, str_app_nil_l. replace (hex_val "/") with (@None N) by done. by destruct (hex_val h).
      * rewrite !str_app_cons. rewrite (IH3 h l s eq_refl).
        destruct (hex_val h), (hex_val l), (PathUnescape s), (PathUnescape t); done.
    + rewrite IH. destruct (PathUnescape s), (PathUnescape t); done.
Qed.

(** ** The characters of an escaped path *)

(** What [escape] leaves or writes. *)
Definition path_char (c : ascii) : bool := negb (shouldEscape c) || (c ==c "%").
Definition is_ascii (c : ascii) : bool := (byteN c <? 128)%N.

Lemma upperhex_chars c :
  path_char (upperhex (byteN c / 16)) = true /\ path_char (upperhex (byteN c mod 16)) = true /\
  ("/" ==c upperhex (byteN c / 16)) = false /\ ("/" ==c upperhex (byteN c mod 16)) = false.
Proof. by destruct c as [[] [] [] [] [] [] [] []]. Qed.

Lemma escape_chars s : str_forall path_char (escape s) = true.
Proof.
  induction s as [|c s IH]; [done|]. cbn [escape]. destruct (shouldEscape c) eqn:E; cbn [str_forall].
  - destruct (upperhex_chars c) as (-> & -> & _). by rewrite IH.
  - unfold path_char at 1. by rewrite E, IH.
Qed.

Lemma escape_no_slash s : ContainsByte s "/" = false -> ContainsByte (escape s) "/" = false.
Proof.
  induction s as [|c s IH]; [done|]. rewrite ContainsByte_cons. intros H. bool_to_prop.
  cbn [escape]. destruct (shouldEscape c); rewrite !ContainsByte_cons.
  - destruct (upperhex_chars c) as (_ & _ & -> & ->). by rewrite IH.
  - rewrite IH by done. apply Ascii.eqb_neq in H. by rewrite H.
Qed.

Lemma str_forall_impl (f g : ascii -> bool) s :
  (forall c, f c = true -> g c = true) -> str_forall f s = true -> str_forall g s = true.
Proof.
  intros H. induction s as [|c s IH]; [done|]. cbn [str_forall]. intros Hs. bool_to_prop.
  by rewrite H, IH.
Qed.

Lemma EscapedPath_ascii u : str_forall is_ascii (EscapedPath u) = true.
Proof.
  unfold EscapedPath. destruct (_ && _ && _) eqn:E.
  - bool_to_prop. eapply str_forall_impl; [|exact H1]. intros [[] [] [] [] [] [] [] []]; vm_compute; congruence.
  - clear E. destruct (_ ==s _); [reflexivity|]. eapply str_forall_impl; [|apply escape_chars].
    intros [[] [] [] [] [] [] [] []]; vm_compute; congruence.
Qed.

Section Lower.
Context `{UC : UnicodeCase}.

Lemma ToLower_cons c s :
  is_ascii c = true -> ToLower (String c s) = String (Nbyte (rune_lower (byteN c))) (ToLower s).
Proof.
  intros Hc. unfold ToLower, runes. cbn [runes_from DecodeRune]. unfold is_ascii in Hc. rewrite Hc.
  cbn [map EncodeRunes fold_right Nat.sub]. unfold EncodeRune, rune_lower. rewrite Hc.
  by destruct c as [[] [] [] [] [] [] [] []].
Qed.

Lemma hex_val_inv c v :
  hex_val c = Some v -> (v < 16)%N /\ (v = 2%N -> c = "2"%char) /\
  (v = 15%N -> Nbyte (rune_lower (byteN c)) = "f"%char /\ is_ascii c = true).
Proof. destruct c as [[] [] [] [] [] [] [] []]; cbn; intros [= <-]; repeat split; done. Qed.

(** Text without a slash, literal or encoded, does not decode to one. *)
Lemma PathUnescape_no_slash s a :
  str_forall is_ascii s = true -> ContainsByte s "/" = false -> Contains (ToLower s) "%2f" = false ->
  PathUnescape s = Some a -> ContainsByte a "/" = false.
Proof.
  revert a. induction s as [|c s IH IH3] using str_ind3; intros a Hs Hn Hc Ha; [by injection Ha as <-|].
  cbn [str_forall] in Hs. rewrite ContainsByte_cons in Hn. bool_to_prop.
  rewrite ToLower_cons in Hc by done. cbn [Contains] in Hc. apply orb_false_iff in Hc as [Hp Hc].
  cbn [PathUnescape] in Ha. destruct (c ==c "%") eqn:Ec.
  - destruct s as [|h [|l s]]; [done..|]. destruct (hex_val h) as [hv|] eqn:Eh; [|done].
    destruct (hex_val l) as [lv|] eqn:El; [|done]. destruct (PathUnescape s) as [d|] eqn:Ed; [|done].
    injection Ha as <-. cbn [str_forall] in *. rewrite !ContainsByte_cons in *. bool_to_prop. subst c.
    destruct (hex_val_inv _ _ Eh) as (Hh & Hh2 & _), (hex_val_inv _ _ El) as (Hl & _ & Hl2).
    rewrite !ToLower_cons in Hc, Hp by done. cbn [Contains] in Hc.
    apply orb_false_iff in Hc as [_ Hc]. apply orb_false_iff in Hc as [_ Hc].
    rewrite (IH3 h l s eq_refl d) by done. rewrite orb_false_r. apply Ascii.eqb_neq. intros E47.
    apply (f_equal N_of_ascii) in E47. unfold Nbyte in E47. rewrite N_ascii_embedding in E47 by lia.
    change (N_of_ascii "/") with 47%N in E47. assert (hv = 2%N) by lia. assert (lv = 15%N) by lia.
    rewrite (Hh2 ltac:(done)) in Hp. rewrite (proj1 (Hl2 ltac:(done))) in Hp. change (HasPrefix ("%2f" +:+ ToLower s) "%2f" = false) in Hp.
    by rewrite HasPrefix_app in Hp.
  - destruct (PathUnescape s) as [d|] eqn:Ed; [|done]. injection Ha as <-.
    rewrite ContainsByte_cons, (IH d) by done. rewrite orb_false_r. by apply Ascii.eqb_neq.
Qed.

End Lower.

(** ** Segments *)

(** A decoded segment as the ACL sees it. *)
Definition acl_segment (dec : string) : string := JoinString (Split dec "/") "%2F".

Definition unambiguous (dec : string) : Prop := ContainsByte dec "/" = false \/ ContainsByte dec "%" = false.

Lemma JoinString_Join ws c : JoinString ws (String c "") = Join ws c.
Proof. induction ws as [|w [|w' ws] IH]; [done..|]. cbn [JoinString Join] in *. by rewrite IH. Qed.

Lemma JoinString_forall f ws sep :
  str_forall f sep = true -> Forall (fun w => str_forall f w = true) ws ->
  str_forall f (JoinString ws sep) = true.
Proof.
  intros Hs Hw. induction Hw as [|w [|w' ws] H Hw IH]; [done..|]. cbn [JoinString] in *.
  rewrite !str_forall_app, H, Hs. exact IH.
Qed.

Lemma no_slash_forall s : ContainsByte s "/" = false <-> str_forall (fun c => negb ("/" ==c c)) s = true.
Proof. unfold ContainsByte, str_exists. by rewrite negb_false_iff. Qed.

Lemma Split_one s c : ContainsByte s c = true -> (1 < length (Split s c))%nat.
Proof.
  induction s as [|d s IH]; [done|]. rewrite ContainsByte_cons. cbn [Split].
  pose proof (Split_nonempty s c) as Hne. rewrite (Ascii.eqb_sym c d).
  destruct (d ==c c); cbn [orb length]; intros H.
  - destruct (Split s c); [done|]. cbn. lia.
  - specialize (IH H). destruct (Split s c); [done|]. exact IH.
Qed.

Lemma escaped_part p : TrimPrefix (EscapedPath (mkURL ("/" +:+ p) "")) "/" = escape p.
Proof. change (EscapedPath (mkURL ("/" +:+ p) "")) with ("/" +:+ escape p). apply TrimPrefix_app. Qed.

Lemma PathUnescape_parts parts :
  PathUnescape (JoinString (map escape parts) "%2F") = Some (Join parts "/").
Proof.
  induction parts as [|p [|p' parts] IH]; [done|apply PathUnescape_escape|].
  cbn [map JoinString Join] in *. rewrite (PathUnescape_app _ _ p (PathUnescape_escape p)).
  by rewrite (PathUnescape_app "%2F" _ "/" eq_refl), IH.
Qed.

Lemma encode_segment_ok seg acl esc :
  encode_segment seg = Ok (acl, esc) ->
  exists dec, PathUnescape seg = Some dec /\ PathUnescape esc = Some dec /\ acl = acl_segment dec /\
    unambiguous dec /\ ContainsByte acl "/" = false /\ ContainsByte esc "/" = false /\
    str_forall path_char esc = true.
Proof.
  unfold encode_segment. destruct (PathUnescape seg) as [dec|]; [|done].
  destruct (_ && _) eqn:Ea; [done|]. intros [= <- <-].
  rewrite (map_ext _ escape) by apply escaped_part. pose proof (Split_parts_no_sep dec "/") as Hp.
  exists dec. split_and!; [done|by rewrite PathUnescape_parts, Join_Split|done| | | |].
  - unfold unambiguous. destruct (ContainsByte dec "/") eqn:E; [right|by left].
    apply Split_one in E. destruct (ContainsByte dec "%"); [|done].
    rewrite andb_true_r in Ea. bool_to_prop. lia.
  - rewrite no_slash_forall. apply JoinString_forall; [done|].
    eapply Forall_impl; [exact Hp|]. intros w. apply no_slash_forall.
  - rewrite no_slash_forall. apply JoinString_forall; [done|]. apply Forall_map.
    eapply Forall_impl; [exact Hp|]. intros w Hw. by apply no_slash_forall, escape_no_slash.
  - apply JoinString_forall; [done|]. apply Forall_map.
    eapply Forall_impl; [exact Hp|]. intros w _. apply escape_chars.
Qed.

Lemma encode_segments_ok segs acls escs :
  encode_segments segs = Ok (acls, escs) ->
  exists decs, map PathUnescape segs = map Some decs /\ map PathUnescape escs = map Some decs /\
    acls = map acl_segment decs /\ Forall unambiguous decs /\
    Forall (fun a => ContainsByte a "/" = false) acls /\
    Forall (fun e => ContainsByte e "/" = false) escs /\
    Forall (fun e => str_forall path_char e = true) escs.
Proof.
  revert acls escs. induction segs as [|seg segs IH]; intros acls escs; cbn [encode_segments].
  - intros [= <- <-]. exists []. repeat split; constructor.
  - destruct (encode_segment seg) as [[a e]|] eqn:E; [|done]. cbn [rbind].
    destruct (encode_segments segs) as [[la le]|]; [|done]. cbn [rbind fst snd]. intros [= <- <-].
    apply encode_segment_ok in E as (dec & H1 & H2 & H3 & H4 & H5 & H6 & H7).
    destruct (IH la le eq_refl) as (decs & I1 & I2 & I3 & I4 & I5 & I6 & I7).
    exists (dec :: decs). cbn [map]. split_and!; try (by f_equal); by constructor.
Qed.

Lemma PathUnescape_Join segs decs :
  segs <> [] -> map PathUnescape segs = map Some decs ->
  PathUnescape (Join segs "/") = Some (Join decs "/").
Proof.
  revert decs. induction segs as [|s [|s' segs] IH]; intros decs Hne H; [done| |].
  - destruct decs as [|d [|? ?]]; try discriminate H. by injection H as H.
  - destruct decs as [|d [|d' decs]]; [done..|]. cbn [map] in H. injection H as H1 H2 H3.
    change (PathUnescape (s +:+ String "/" (Join (s' :: segs) "/")) = Some (d +:+ String "/" (Join (d' :: decs) "/"))).
    rewrite PathUnescape_slash, H1, (IH (d' :: decs)); [done..|]. cbn [map]. by rewrite H2, H3.
Qed.

(** The escaped path has the segments of the raw one, decoded to the same bytes;
    the ACL path has those segments with a slash inside one kept as [%2F]. *)
Lemma encodedSlashPath_ok raw acl esc :
  encodedSlashPath raw = Ok (acl, esc) ->
  exists decs, map PathUnescape (Split raw "/") = map Some decs /\
    map PathUnescape (Split esc "/") = map Some decs /\ Split acl "/" = map acl_segment decs /\
    Forall unambiguous decs /\ PathUnescape esc = PathUnescape raw /\ str_forall path_char esc = true.
Proof.
  unfold encodedSlashPath. destruct (encode_segments _) as [[acls escs]|] eqn:E; [|done].
  cbn [rbind fst snd]. intros [= <- <-]. rewrite !JoinString_Join.
  apply encode_segments_ok in E as (decs & H1 & H2 & H3 & H4 & H5 & H6 & H7).
  pose proof (Split_nonempty raw "/") as Hne.
  assert (Hd : decs <> []) by (intros ->; by destruct (Split raw "/")).
  assert (He : escs <> []) by (intros ->; by destruct decs).
  exists decs. rewrite !Split_Join by (try done; rewrite H3; by destruct decs).
  split_and!; try done.
  - rewrite (PathUnescape_Join escs decs) by done. rewrite <- (Join_Split raw "/").
    by rewrite (PathUnescape_Join _ decs).
  - rewrite <- JoinString_Join. by apply JoinString_forall.
Qed.

(** ** Service and remainder *)

Section RouteProofs.
Context `{UC : UnicodeCase}.

Lemma split_service_slash svc rest :
  ContainsByte svc "/" = false -> split_service (svc +:+ String "/" rest) = (svc, "/" +:+ rest).
Proof. intros H. unfold split_service. cbn [SplitN]. by rewrite Cut_found. Qed.

Lemma split_service_none svc : ContainsByte svc "/" = false -> split_service svc = (svc, "/").
Proof. intros H. unfold split_service. cbn [SplitN]. by rewrite Cut_not_found. Qed.

(** Splitting the escaped form agrees with splitting the decoded one, as long as
    the service name has no encoded slash. *)
Lemma split_agrees raw dec :
  str_forall is_ascii raw = true -> Contains (ToLower (fst (split_service raw))) "%2f" = false ->
  PathUnescape raw = Some dec -> PathUnescape (raw_rest raw) = Some (snd (split_service dec)).
Proof.
  intros Hasc Hlow Hdec. unfold raw_rest. destruct (ContainsByte raw "/") eqn:E.
  - apply first_byte in E as (a & b & -> & Ha). rewrite split_service_slash in Hlow by done.
    rewrite IndexByte_app, str_drop_app by done. rewrite PathUnescape_slash in Hdec.
    destruct (PathUnescape a) as [da|] eqn:Ea; [|done]. destruct (PathUnescape b) as [db|] eqn:Eb; [|done].
    injection Hdec as <-. rewrite str_forall_app in Hasc. bool_to_prop.
    rewrite split_service_slash by (by apply (PathUnescape_no_slash a)). cbn. by rewrite Eb.
  - rewrite IndexByte_none by done. rewrite split_service_none in Hlow by done.
    rewrite split_service_none; [done|]. by apply (PathUnescape_no_slash raw).
Qed.

Lemma TrimPrefix_HasPrefix s p : HasPrefix s p = true -> s = p +:+ TrimPrefix s p.
Proof. intros [t ->]%HasPrefix_spec. by rewrite TrimPrefix_app. Qed.

(** C5. What the proxy sends upstream is what it checked.  The escaped path decodes
    to the part of the request path after the service name and holds no byte that
    could start a query or a fragment.  Without an encoded slash the ACL path is
    that decoded path; with one, the two have the same segments, an encoded slash
    never separates segments, and it shows as %2F in a segment without other
    percent signs. *)
Theorem forwarded_path_is_checked_path lookup u svc usvc acl esc :
  route_path lookup u = Routed svc usvc acl esc ->
  let rest := snd (split_service (TrimPrefix (u_Path u) "/proxy/")) in
  PathUnescape esc = Some rest /\ str_forall path_char esc = true /\
  if hasEncodedSlash u
  then lookup usvc = Some true /\
       exists decs, map PathUnescape (Split esc "/") = map Some decs /\ Join decs "/" = rest /\
         Split acl "/" = map acl_segment decs /\ Forall unambiguous decs
  else acl = rest.
Proof.
  unfold route_path. destruct (validateProxiedPath u !=s ""); [done|].
  destruct (HasPrefix (u_Path u) "/proxy/") eqn:Hp; [|done]. cbn [negb].
  destruct (split_service (TrimPrefix (u_Path u) "/proxy/")) as [name up] eqn:Esp.
  destruct (_ || _) eqn:El; [done|]. destruct (hasEncodedSlash u && _); [done|].
  destruct (_ ==s _); [done|]. destruct (_ && _); [done|].
  destruct (lookup _) as [allow|] eqn:Elook; [|done]. cbn [snd].
  destruct (hasEncodedSlash u) eqn:Ehe.
  - destruct allow; [|done]. cbn [negb]. destruct (HasPrefix (EscapedPath u) "/proxy/") eqn:Hq; [|done]. cbn [negb].
    destruct (encodedSlashPath _) as [[a e]|] eqn:Ee; [|done]. intros [= <- <- <- <-].
    apply encodedSlashPath_ok in Ee as (decs & H1 & H2 & H3 & H4 & H5 & H6).
    pose proof (PathUnescape_EscapedPath u) as Hu. pose proof (EscapedPath_ascii u) as Ha.
    apply TrimPrefix_HasPrefix in Hq. rewrite Hq in Hu, Ha.
    rewrite (PathUnescape_app "/proxy/" _ "/proxy/" eq_refl) in Hu. rewrite str_forall_app in Ha.
    destruct (PathUnescape (TrimPrefix (EscapedPath u) "/proxy/")) as [dec|] eqn:Ed; [|done].
    injection Hu as Hu. rewrite <- Hu in Esp. rewrite TrimPrefix_app in Esp. bool_to_prop.
    pose proof (split_agrees _ dec ltac:(done) ltac:(done) Ed) as Hs. rewrite Esp in Hs. cbn [snd] in Hs.
    rewrite <- H5 in Hs. split_and!; try done. exists decs. split_and!; try done.
    rewrite <- (Join_Split e "/") in Hs. rewrite (PathUnescape_Join _ decs) in Hs; [|apply Split_nonempty|done].
    by injection Hs.
  - intros [= <- <- <- <-]. split_and!; try done.
    + unfold escapedUpstreamPath. apply (PathUnescape_EscapedPath (mkURL up "")).
    + unfold escapedUpstreamPath, EscapedPath. cbn. destruct (up ==s "*") eqn:E; [|apply escape_chars].
      bool_to_prop. subst up. unfold split_service in Esp. repeat case_match; injection Esp as <- E2; discriminate E2.
Qed.

End RouteProofs.

(** ** Examples *)

(** [URL.setPath]: the URL of a request target. *)
Definition setPath (p : string) : option URL :=
  match PathUnescape p with
  | Some path => Some (mkURL path (if escape path ==s p then "" else p))
  | None => None
  end.

Definition gitlab (name : string) : option bool := if name ==s "gitlab" then Some true else None.

Definition route_target (p : string) : option route :=
  option_map (route_path (UC := latin_case) gitlab) (setPath p).

Example route_plain :
  route_target "/proxy/gitlab/a%20b/c" = Some (Routed "gitlab" "gitlab" "/a b/c" "/a%20b/c").
Proof. vm_compute. reflexivity. Qed.
Example route_encoded :
  route_target "/proxy/gitlab/projects/a%2fb" =
    Some (Routed "gitlab" "gitlab" "/projects/a%2Fb" "/projects/a%2Fb").
Proof. vm_compute. reflexivity. Qed.
Example route_ambiguous :
  route_target "/proxy/gitlab/a%2f%25" = Some (BadRequest "ambiguous encoding in proxied path").
Proof. vm_compute. reflexivity. Qed.
Example route_service :
  route_target "/proxy/git%2Flab/x" = Some (BadRequest "encoded slash in service name is not allowed").
Proof. vm_compute. reflexivity. Qed.

(** The ACL text of an encoded slash is also the ACL text of a literal [%2F]
    (sent as [%252F]) in a segment of its own, so that a rule for the one path
    also matches the other. *)
Lemma encoded_slash_acl_collision :
  route_target "/proxy/gitlab/projects/a%2Fb" =
    Some (Routed "gitlab" "gitlab" "/projects/a%2Fb" "/projects/a%2Fb") /\
  route_target "/proxy/gitlab/projects/a%252Fb" =
    Some (Routed "gitlab" "gitlab" "/projects/a%2Fb" "/projects/a%252Fb").
Proof. split; vm_compute; reflexivity. Qed.

Lemma forwarded_path_witness :
  PathUnescape "/projects/a%2Fb" = Some "/projects/a/b" /\ str_forall path_char "/projects/a%2Fb" = true.
Proof.
  pose proof (@forwarded_path_is_checked_path latin_case gitlab
    (mkURL "/proxy/gitlab/projects/a/b" "/proxy/gitlab/projects/a%2fb") "gitlab" "gitlab"
    "/projects/a%2Fb" "/projects/a%2Fb" ltac:(vm_compute; reflexivity)) as (H1 & H2 & _).
  split; [exact H1|exact H2].
Defined.
