(* ===== verification/DefaultBranch.v ===== *)
(** * The default-branch cache: [internal/server/handlers/github_ref_guard.go]

    [get_locked] is the critical section of [get], [finish_call] the one of the
    goroutine it starts, and [await] the receive on the call's channel.  A call is
    a number.  The fetch itself (an HTTP request) is not modelled: any result may
    come back at any time.  [world] adds to the cache what the theorem talks
    about: the goroutines that run, the callers that wait, and the history. *)

From S2P Require Import Prelude GoStrings.
Local Open Scope go_scope.
Local Open Scope Z_scope.

Record githubDefaultBranchEntry := mkEntry { e_branch : string; e_expires : Z }.

Record githubDefaultBranchCache := mkCache {
  c_entries : gmap string githubDefaultBranchEntry;
  c_calls : gmap string nat;
  c_done : gmap nat (result string string);   (* calls whose channel is closed *)
  c_next : nat;
}.

Definition newGitHubDefaultBranchCache : githubDefaultBranchCache := mkCache ∅ ∅ ∅ 0.

(** Five minutes, in nanoseconds. *)
Definition githubDefaultBranchTTL : Z := 300000000000.

Inductive got :=
| Cached (branch : string)
| Started (call : nat)
| Joined (call : nat).

Definition get_locked (c : githubDefaultBranchCache) (key : string) (now : Z)
  : githubDefaultBranchCache * got :=
  let look (entries : gmap string githubDefaultBranchEntry) :=
    match c_calls c !! key with
    | Some call => (mkCache entries (c_calls c) (c_done c) (c_next c), Joined call)
    | None => (mkCache entries (<[key := c_next c]> (c_calls c)) (c_done c) (S (c_next c)), Started (c_next c))
    end in
  match c_entries c !! key with
  | Some e => if now <? e_expires e then (c, Cached (e_branch e)) else look (delete key (c_entries c))
  | None => look (c_entries c)
  end.

Definition finish_call (c : githubDefaultBranchCache) (call : nat) (key : string)
    (fetched : result string string) (now : Z) : githubDefaultBranchCache :=
  let entries :=
    match fetched with
    | Ok branch =>
        if branch !=s "" then
          <[key := mkEntry branch (now + githubDefaultBranchTTL)]>
            (filter (fun kv => now < e_expires (snd kv)) (c_entries c))
        else c_entries c
    | Err _ => c_entries c
    end in
  mkCache entries (delete key (c_calls c)) (<[call := fetched]> (c_done c)) (c_next c).

Definition await (c : githubDefaultBranchCache) (call : nat) : option (result string string) :=
  c_done c !! call.

Section Key.
Context `{UC : UnicodeCase}.
Variable sha256hex : string -> string.

(** The cache key of [githubDefaultBranchFor]. *)
Definition default_branch_key (credentialID repo : string) : string :=
  sha256hex credentialID +:+ "|" +:+ ToLower repo.

(** Two requests share an entry only when they are about the same credential and
    the same repository up to case. *)
Lemma default_branch_key_inj cred cred' repo repo' :
  (forall s, slen (sha256hex s) = 64%nat) ->
  default_branch_key cred repo = default_branch_key cred' repo' ->
  sha256hex cred = sha256hex cred' /\ ToLower repo = ToLower repo'.
Proof.
  intros Hl H. unfold default_branch_key in H. apply str_app_inj_len in H as [H1 H2]; [|by rewrite !Hl].
  split; [done|]. by apply str_app_inj_l in H2.
Qed.

End Key.

(** ** Interleavings *)

Record world := mkWorld {
  w_cache : githubDefaultBranchCache;
  w_running : list (nat * string);                    (* goroutines: call and key *)
  w_waiting : list (nat * string);                    (* callers in the select *)
  w_fetched : list (string * result string string * Z);  (* finished fetches *)
  w_answers : list (string * result string string * option Z);
    (* answers given; the time for one from the cache *)
}.

Definition new_world : world := mkWorld newGitHubDefaultBranchCache [] [] [] [].

(** [get] up to its select. *)
Definition call_get (w : world) (key : string) (now : Z) : world :=
  let '(c, g) := get_locked (w_cache w) key now in
  match g with
  | Cached b => mkWorld c (w_running w) (w_waiting w) (w_fetched w) ((key, Ok b, Some now) :: w_answers w)
  | Joined i => mkWorld c (w_running w) ((i, key) :: w_waiting w) (w_fetched w) (w_answers w)
  | Started i => mkWorld c ((i, key) :: w_running w) ((i, key) :: w_waiting w) (w_fetched w) (w_answers w)
  end.

Inductive wstep (w : world) : world -> Prop :=
| step_get key now : wstep w (call_get w key now)
| step_fetched l1 i key l2 fetched now :
    w_running w = l1 ++ (i, key) :: l2 ->
    wstep w (mkWorld (finish_call (w_cache w) i key fetched now) (l1 ++ l2) (w_waiting w)
               ((key, fetched, now) :: w_fetched w) (w_answers w))
| step_answer l1 i key l2 res :
    w_waiting w = l1 ++ (i, key) :: l2 -> await (w_cache w) i = Some res ->
    wstep w (mkWorld (w_cache w) (w_running w) (l1 ++ l2) (w_fetched w) ((key, res, None) :: w_answers w))
| step_cancelled l1 i key l2 :
    w_waiting w = l1 ++ (i, key) :: l2 ->
    wstep w (mkWorld (w_cache w) (w_running w) (l1 ++ l2) (w_fetched w) (w_answers w)).

Inductive wreachable : world -> Prop :=
| wreach_new : wreachable new_world
| wreach_step w w' : wreachable w -> wstep w w' -> wreachable w'.

(** ** Theorems *)

(** A cached branch was fetched for that key less than the TTL ago. *)
Definition entry_ok (w : world) (key : string) (e : githubDefaultBranchEntry) : Prop :=
  e_branch e <> "" /\ In (key, Ok (e_branch e), e_expires e - githubDefaultBranchTTL) (w_fetched w).

Definition answer_ok (w : world) (a : string * result string string * option Z) : Prop :=
  let '(key, res, at_) := a in
  match at_ with
  | Some now => exists t, In (key, res, t) (w_fetched w) /\ now < t + githubDefaultBranchTTL /\
                  exists b, res = Ok b /\ b <> ""
  | None => exists t, In (key, res, t) (w_fetched w)
  end.

(** A caller waits on a call of its own key, running or finished. *)
Definition waiter_ok (w : world) (ik : nat * string) : Prop :=
  In ik (w_running w) \/
  exists res t, c_done (w_cache w) !! fst ik = Some res /\ In (snd ik, res, t) (w_fetched w).

Record cache_inv (w : world) : Prop := {
  ci_calls : forall key i, c_calls (w_cache w) !! key = Some i <-> In (i, key) (w_running w);
  ci_next : forall i key, In (i, key) (w_running w) -> (i < c_next (w_cache w))%nat;
  ci_done : forall i res, c_done (w_cache w) !! i = Some res ->
            (i < c_next (w_cache w))%nat /\ ~ In i (map fst (w_running w));
  ci_once : List.NoDup (map fst (w_running w)) /\ List.NoDup (map snd (w_running w));
  ci_entries : forall key e, c_entries (w_cache w) !! key = Some e -> entry_ok w key e;
  ci_waiting : Forall (waiter_ok w) (w_waiting w);
  ci_answers : Forall (answer_ok w) (w_answers w);
}.

Lemma entry_ok_mono w w' key e :
  (forall x, In x (w_fetched w) -> In x (w_fetched w')) -> entry_ok w key e -> entry_ok w' key e.
Proof. intros H [H1 H2]. split; auto. Qed.

Lemma answer_ok_mono w w' a :
  (forall x, In x (w_fetched w) -> In x (w_fetched w')) -> answer_ok w a -> answer_ok w' a.
Proof.
  intros H. destruct a as [[key res] [now|]]; cbn; intros (t & Ht); exists t; [|auto].
  destruct Ht as (? & ? & ?). auto.
Qed.

Lemma waiter_ok_mono w w' ik :
  (In ik (w_running w) -> In ik (w_running w')) -> c_done (w_cache w') = c_done (w_cache w) ->
  w_fetched w' = w_fetched w -> waiter_ok w ik -> waiter_ok w' ik.
Proof.
  intros Hr Hd Hf [H|(res & t & H1 & H2)]; [left; auto|right]. exists res, t. by rewrite Hd, Hf.
Qed.

Lemma cache_inv_new : cache_inv new_world.
Proof. split; cbn; try done; repeat constructor. Qed.

(** The two halves of [get_locked]: an answer from the cache, or a call. *)
Lemma get_locked_cases c key now :
  (exists e, c_entries c !! key = Some e /\ now < e_expires e /\
     get_locked c key now = (c, Cached (e_branch e))) \/
  (exists entries, (forall k e, entries !! k = Some e -> c_entries c !! k = Some e) /\
     ((exists i, c_calls c !! key = Some i /\
         get_locked c key now = (mkCache entries (c_calls c) (c_done c) (c_next c), Joined i)) \/
      (c_calls c !! key = None /\
         get_locked c key now = (mkCache entries (<[key := c_next c]> (c_calls c)) (c_done c) (S (c_next c)),
                                 Started (c_next c))))).
Proof.
  unfold get_locked. destruct (c_entries c !! key) as [e|] eqn:E.
  - destruct (now <? e_expires e) eqn:Et.
    + left. exists e. bool_to_prop. done.
    + right. exists (delete key (c_entries c)). split; [intros k e' H; by apply lookup_delete_Some in H as [_ H]|].
      destruct (c_calls c !! key) as [i|]; [left; by exists i|right; done].
  - right. exists (c_entries c). split; [done|].
    destruct (c_calls c !! key) as [i|]; [left; by exists i|right; done].
Qed.

Lemma cache_inv_started w entries key :
  cache_inv w -> (forall k e, entries !! k = Some e -> c_entries (w_cache w) !! k = Some e) ->
  c_calls (w_cache w) !! key = None ->
  let i := c_next (w_cache w) in
  cache_inv (mkWorld (mkCache entries (<[key := i]> (c_calls (w_cache w))) (c_done (w_cache w)) (S i))
    ((i, key) :: w_running w) ((i, key) :: w_waiting w) (w_fetched w) (w_answers w)).
Proof.
  intros [Hc Hn Hd Ho He Hw Ha] Hent Hnone i. destruct Ho as [Ho1 Ho2]. split; cbn.
  - intros k j. rewrite lookup_insert. case_decide as Hk.
    + subst k. split; [intros [= <-]; by left|]. intros [[= ->]|H]; [done|].
      apply Hc in H. congruence.
    + rewrite Hc. split; [by right|]. intros [[= -> ->]|H]; done.
  - intros j k [[= <- <-]|H]; [lia|]. apply Hn in H. lia.
  - intros j res H. apply Hd in H as [H1 H2]. split; [lia|]. intros [Hj|H]; [subst i; lia|done].
  - split; constructor; try done.
    + intros ((j & k) & Hj & H)%in_map_iff. cbn in Hj. subst j. apply Hn in H. unfold i in H. lia.
    + intros ((j & k) & Hj & H)%in_map_iff. cbn in Hj. subst k. apply Hc in H. congruence.
  - intros k e H. by apply He, Hent.
  - constructor; [left; by left|]. eapply Forall_impl; [exact Hw|]. intros ik.
    apply waiter_ok_mono; [by right|done|done].
  - done.
Qed.

Lemma cache_inv_joined w entries key i :
  cache_inv w -> (forall k e, entries !! k = Some e -> c_entries (w_cache w) !! k = Some e) ->
  c_calls (w_cache w) !! key = Some i ->
  cache_inv (mkWorld (mkCache entries (c_calls (w_cache w)) (c_done (w_cache w)) (c_next (w_cache w)))
    (w_running w) ((i, key) :: w_waiting w) (w_fetched w) (w_answers w)).
Proof.
  intros [Hc Hn Hd Ho He Hw Ha] Hent Hsome. split; cbn; try done.
  - intros k e H. by apply He, Hent.
  - constructor; [left; by apply Hc|done].
Qed.

Lemma cache_inv_get w key now : cache_inv w -> cache_inv (call_get w key now).
Proof.
  intros Hinv. unfold call_get. destruct (get_locked_cases (w_cache w) key now)
    as [(e & He & Ht & ->)|(entries & Hent & [(i & Hi & ->)|[Hi ->]])].
  - pose proof (ci_entries w Hinv key e He) as [Hne Hin]. destruct Hinv. split; cbn; try done.
    constructor; [|done]. cbn. exists (e_expires e - githubDefaultBranchTTL). split; [done|]. split; [lia|].
    by exists (e_branch e).
  - by apply cache_inv_joined.
  - by apply cache_inv_started.
Qed.

Lemma cache_inv_fetched w l1 i key l2 fetched now :
  cache_inv w -> w_running w = l1 ++ (i, key) :: l2 ->
  cache_inv (mkWorld (finish_call (w_cache w) i key fetched now) (l1 ++ l2) (w_waiting w)
    ((key, fetched, now) :: w_fetched w) (w_answers w)).
Proof.
  intros [Hc Hn Hd Ho He Hw Ha] Hr. rewrite Hr in *.
  assert (Hsub : forall x, In x (l1 ++ l2) -> In x (l1 ++ (i, key) :: l2)).
  { intros x. rewrite !in_app_iff. cbn. tauto. }
  destruct Ho as [Ho1 Ho2]. rewrite map_app in Ho1, Ho2. cbn [map fst snd] in Ho1, Ho2.
  pose proof (NoDup_remove _ _ _ Ho1) as [Hi1 Hi2]. pose proof (NoDup_remove _ _ _ Ho2) as [Hk1 Hk2].
  rewrite <- map_app in *. split; cbn [w_cache w_running w_waiting w_fetched w_answers finish_call c_calls c_done c_next c_entries].
  - intros k j. rewrite lookup_delete_Some, Hc, !in_app_iff. cbn [In].
    split; [intros (Hne & [H|[[= -> ->]|H]]); tauto|]. intros H. split; [|tauto].
    intros ->. apply Hk2. apply in_map_iff. exists (j, k). rewrite in_app_iff. done.
  - intros j k H. by apply (Hn j k), Hsub.
  - intros j res. rewrite lookup_insert. case_decide as Hj.
    + subst j. intros _. split; [|done]. apply (Hn i key). rewrite in_app_iff. right. by left.
    + intros [H1 H2]%Hd. split; [done|]. intros H. apply H2.
      apply in_map_iff in H as (x & <- & Hx). by apply in_map, Hsub.
  - done.
  - assert (Hold : forall k e, c_entries (w_cache w) !! k = Some e -> entry_ok (mkWorld (finish_call (w_cache w) i key fetched now) (l1 ++ l2) (w_waiting w)
    ((key, fetched, now) :: w_fetched w) (w_answers w)) k e).
    { intros k e H. eapply entry_ok_mono; [|by apply He]. intros x Hx. by right. }
    intros k e. destruct fetched as [b|]; [|apply Hold]. destruct (b !=s "") eqn:Eb; [|apply Hold].
    rewrite lookup_insert. case_decide as Hk.
    + intros [= <-]. subst k. bool_to_prop. split; [done|]. cbn. left. do 2 f_equal. lia.
    + intros [H _]%map_lookup_filter_Some. by apply Hold.
  - eapply Forall_impl; [exact Hw|]. intros [j k] [H|(res & t & H1 & H2)].
    + rewrite Hr in H. apply in_app_iff in H as [H|[[= -> ->]|H]].
      * left. cbn. rewrite in_app_iff. by left.
      * right. exists fetched, now. cbn. rewrite lookup_insert_eq. split; [done|by left].
      * left. cbn. rewrite in_app_iff. by right.
    + right. exists res, t. cbn in *. split; [|by right]. rewrite lookup_insert_ne; [done|].
      intros ->. apply Hd in H1 as [_ H1]. apply H1. apply in_map_iff. exists (j, key).
      rewrite in_app_iff. split; [done|]. right. by left.
  - eapply Forall_impl; [exact Ha|]. intros a. apply answer_ok_mono. intros x Hx. by right.
Qed.

Lemma cache_inv_drop w l1 x l2 answers :
  cache_inv w -> w_waiting w = l1 ++ x :: l2 -> Forall (answer_ok w) answers ->
  cache_inv (mkWorld (w_cache w) (w_running w) (l1 ++ l2) (w_fetched w) answers).
Proof.
  intros [Hc Hn Hd Ho He Hw Ha] Hr Hans. split; cbn; try done.
  - rewrite Hr in Hw. apply Forall_app in Hw as [H1 H2]. inversion H2; subst. by apply Forall_app.
Qed.

Lemma wreachable_inv w : wreachable w -> cache_inv w.
Proof.
  induction 1 as [|w w' _ IH Hs]; [apply cache_inv_new|].
  destruct Hs as [key now|l1 i key l2 fetched now Hr|l1 i key l2 res Hr Hd|l1 i key l2 Hr].
  - by apply cache_inv_get.
  - by apply cache_inv_fetched.
  - apply (cache_inv_drop w l1 (i, key) l2); [done..|]. constructor; [|apply IH].
    pose proof (ci_waiting w IH) as Hw. rewrite Hr in Hw. apply Forall_app in Hw as [_ Hw].
    inversion Hw as [|? ? [Hx|(res' & t & H1 & H2)] _]; subst.
    + apply (ci_done w IH) in Hd as [_ Hd]. exfalso. apply Hd. apply in_map_iff. by exists (i, key).
    + cbn in *. exists t. unfold await in Hd. congruence.
  - apply (cache_inv_drop w l1 (i, key) l2); [done..|]. apply IH.
Qed.

(** However lookups interleave, every answer a caller gets is what some fetch
    for that very key returned; an answer from the cache is a non-empty branch
    fetched less than five minutes before, so failures are never cached; and no
    two fetches for one key run at the same time. *)
Theorem default_branch_answers_fetched w :
  wreachable w ->
  Forall (answer_ok w) (w_answers w) /\ List.NoDup (map snd (w_running w)).
Proof. intros H%wreachable_inv. split; apply H. Qed.

(** ** Witness *)

Definition demo_world : world :=
  let w1 := call_get new_world "k" 0 in
  let w2 := mkWorld (finish_call (w_cache w1) 0 "k" (Ok "main") 10) [] (w_waiting w1)
              [("k", Ok "main", 10)] (w_answers w1) in
  call_get w2 "k" 20.

Lemma demo_world_reachable : wreachable demo_world.
Proof.
  eapply wreach_step; [eapply wreach_step; [eapply wreach_step; [apply wreach_new|]|]|].
  - apply (step_get new_world "k" 0).
  - apply (step_fetched (call_get new_world "k" 0) [] 0 "k" [] (Ok "main") 10). reflexivity.
  - apply (step_get _ "k" 20).
Qed.

Lemma default_branch_witness :
  w_answers demo_world = [("k", Ok "main", Some 20)] /\ Forall (answer_ok demo_world) (w_answers demo_world).
Proof.
  split; [vm_compute; reflexivity|].
  exact (proj1 (default_branch_answers_fetched demo_world demo_world_reachable)).
Defined.
