(* ===== verification/GoMarshal.v ===== *)
(** * What the program uses of [json.Marshal]

    A [doc] is the tree of a JSON document.  Marshalling a struct builds the tree
    of its fields in order; [json_text] writes it the way [json.Marshal] does, with
    no spaces and with [<], [>] and [&] escaped.  A string that is not valid UTF-8
    does not survive: [utf8_text] is what a reader gets back. *)

From S2P Require Import Prelude GoStrings.
Local Open Scope go_scope.

Inductive doc :=
| DNull
| DStr (s : string)
| DNum (n : Z)
| DBool (b : bool)
| DObj (fields : list (string * doc)).

(** The string a JSON reader gets for a marshalled Go string: every byte that is
    not part of a valid encoding becomes U+FFFD. *)
Definition utf8_text (s : string) : string := EncodeRunes (runes s).

Definition hex_digit (n : N) : ascii :=
  if (n <? 10)%N then Nbyte (48 + n) else Nbyte (87 + n).

(** [\u00XX]. *)
Definition u_escape (r : N) : string :=
  "\u" +:+ String (hex_digit (r / 4096 mod 16)) (String (hex_digit (r / 256 mod 16))
    (String (hex_digit (r / 16 mod 16)) (String (hex_digit (r mod 16)) ""))).

Definition char_text (r : N) : string :=
  if (r =? 34)%N || (r =? 92)%N then String "\" (String (Nbyte r) "")
  else if (r =? 8)%N then "\b"
  else if (r =? 12)%N then "\f"
  else if (r =? 10)%N then "\n"
  else if (r =? 13)%N then "\r"
  else if (r =? 9)%N then "\t"
  else if (r <? 32)%N || (r =? 60)%N || (r =? 62)%N || (r =? 38)%N || (r =? 8232)%N || (r =? 8233)%N
  then u_escape r
  else EncodeRune r.

Fixpoint string_text (skip : nat) (s : string) : string :=
  match s with
  | EmptyString => ""
  | String _ s' =>
      match skip with
      | S k => string_text k s'
      | O => let '(r, w) := DecodeRune s in
             (if (r =? RuneError)%N && (w =? 1)%nat then "\ufffd" else char_text r)
             +:+ string_text (w - 1) s'
      end
  end.

Definition quote (s : string) : string := String "034" (string_text 0 s +:+ String "034" "").

Fixpoint dec_text (fuel : nat) (n : N) : string :=
  match fuel with
  | O => ""
  | S k => (if (n <? 10)%N then "" else dec_text k (n / 10)) +:+ String (Nbyte (48 + n mod 10)) ""
  end.

(** Decimal digits; a 64-bit number has at most twenty. *)
Definition int_text (n : Z) : string :=
  (if (n <? 0)%Z then "-" else "") +:+ dec_text 20 (Z.abs_N n).

Fixpoint json_text (v : doc) : string :=
  match v with
  | DNull => "null"
  | DStr s => quote s
  | DNum n => int_text n
  | DBool b => if b then "true" else "false"
  | DObj fields =>
      let fix members (first : bool) (fs : list (string * doc)) : string :=
        match fs with
        | [] => ""
        | (k, v') :: fs' =>
            (if first then "" else ",") +:+ quote k +:+ ":" +:+ json_text v' +:+ members false fs'
        end in
      "{" +:+ members true fields +:+ "}"
  end.

(** Standard base64 with padding, as a byte slice is marshalled. *)
Definition base64_digit (n : N) : ascii :=
  if (n <? 26)%N then Nbyte (65 + n)
  else if (n <? 52)%N then Nbyte (71 + n)
  else if (n <? 62)%N then Nbyte (n - 4)
  else if (n =? 62)%N then "+" else "/".

Fixpoint base64 (s : string) : string :=
  match s with
  | String a (String b (String c s')) =>
      String (base64_digit (byteN a / 4)) (String (base64_digit ((byteN a mod 4) * 16 + byteN b / 16))
        (String (base64_digit ((byteN b mod 16) * 4 + byteN c / 64)) (String (base64_digit (byteN c mod 64))
          (base64 s'))))
  | String a (String b EmptyString) =>
      String (base64_digit (byteN a / 4)) (String (base64_digit ((byteN a mod 4) * 16 + byteN b / 16))
        (String (base64_digit ((byteN b mod 16) * 4)) "="))
  | String a EmptyString =>
      String (base64_digit (byteN a / 4)) (String (base64_digit ((byteN a mod 4) * 16)) "==")
  | EmptyString => ""
  end.

Example base64_sample : base64 "Duckway!" = "RHVja3dheSE=".
Proof. vm_compute. reflexivity. Qed.

(** The first field named [k] of an object. *)
Fixpoint doc_field (k : string) (fields : list (string * doc)) : option doc :=
  match fields with
  | [] => None
  | (k', v) :: fs => if k' ==s k then Some v else doc_field k fs
  end.

(** A field written only when it is not empty ([omitempty]). *)
Definition omit_str (k s : string) : list (string * doc) :=
  if s ==s "" then [] else [(k, DStr (utf8_text s))].
Definition omit_num (k : string) (n : Z) : list (string * doc) :=
  if (n =? 0)%Z then [] else [(k, DNum n)].

Example text_sample :
  json_text (DObj [("a", DStr "x<y"); ("n", DNum 120); ("b", DBool true)])
  = String "{" (quote "a" +:+ ":" +:+ String "034" ("x\u003cy" +:+ String "034" (","
      +:+ quote "n" +:+ ":120," +:+ quote "b" +:+ ":true}"))).
Proof. vm_compute. reflexivity. Qed.
