(* ===== verification/GoStrconv.v ===== *)
(** * What the program uses of [strconv]: integers in text *)

From S2P Require Import Prelude GoStrings GoMarshal.
Local Open Scope go_scope.
Local Open Scope Z_scope.

Fixpoint parse_digits (acc : Z) (s : string) : option Z :=
  match s with
  | EmptyString => Some acc
  | String c s' =>
      if (48 <=? byteN c)%N && (byteN c <=? 57)%N then parse_digits (acc * 10 + (Z.of_N (byteN c) - 48)) s' else None
  end.

(** [strconv.ParseInt(s, 10, 64)], [None] for any of its errors. *)
Definition ParseInt (s : string) : option Z :=
  let '(negative, digits) :=
    match s with
    | String c s' => if c ==c "-" then (true, s') else if c ==c "+" then (false, s') else (false, s)
    | EmptyString => (false, s)
    end in
  if digits ==s "" then None
  else match parse_digits 0 digits with
       | None => None
       | Some n =>
           let n := if negative then - n else n in
           if (- 2 ^ 63 <=? n) && (n <? 2 ^ 63) then Some n else None
       end.

(** [strconv.ParseUint(s, 10, 64)], [None] for any of its errors. *)
Definition ParseUint (s : string) : option Z :=
  if s ==s "" then None
  else match parse_digits 0 s with
       | None => None
       | Some n => if n <? 2 ^ 64 then Some n else None
       end.

(** [strconv.FormatUint(n, 10)]. *)
Definition FormatUint (n : Z) : string := dec_text 20 (Z.to_N n).

Lemma parse_digits_snoc (acc : Z) (s : string) (d : ascii) :
  parse_digits acc (s +:+ String d "") =
  match parse_digits acc s with
  | Some n => if (48 <=? byteN d)%N && (byteN d <=? 57)%N then Some (n * 10 + (Z.of_N (byteN d) - 48)) else None
  | None => None
  end.
Proof.
  revert acc. induction s as [|c s IH]; intros acc; [done|]. rewrite str_app_cons. cbn [parse_digits].
  by destruct ((48 <=? byteN c)%N && (byteN c <=? 57)%N).
Qed.

Lemma digit_byte (n : N) : (n < 10)%N -> byteN (Nbyte (48 + n)) = (48 + n)%N.
Proof. intros H. unfold byteN, Nbyte. apply N_ascii_embedding. lia. Qed.

Lemma parse_dec_text (fuel : nat) (n : N) : (n < 10 ^ N.of_nat fuel)%N -> parse_digits 0 (dec_text fuel n) = Some (Z.of_N n).
Proof.
  revert n. induction fuel as [|k IH]; intros n Hn; [simpl in *; f_equal; lia|]. cbn [dec_text]. rewrite parse_digits_snoc.
  pose proof (N.mod_lt n 10 ltac:(lia)) as Hm. rewrite digit_byte by done. 
  assert (Hb : (48 <=? 48 + n mod 10)%N && (48 + n mod 10 <=? 57)%N = true) by (clear - Hm; apply andb_true_iff; split; apply N.leb_le; revert Hm; generalize (n mod 10)%N; intros; lia). rewrite Hb.
  pose proof (N.div_mod n 10 ltac:(lia)) as Hd.
  destruct (N.ltb_spec n 10) as [Hlt|Hge].
  - cbn [parse_digits]. f_equal. rewrite N.mod_small by done. lia.
  - rewrite IH; [f_equal; lia|]. apply N.Div0.div_lt_upper_bound. replace (10 * 10 ^ N.of_nat k)%N with (10 ^ N.of_nat (S k))%N by (rewrite Nat2N.inj_succ, N.pow_succ_r'; lia). done.
Qed.

Lemma dec_text_plain (fuel : nat) (n : N) : str_forall (fun c => (48 <=? byteN c)%N && (byteN c <=? 57)%N) (dec_text fuel n) = true.
Proof.
  revert n. induction fuel as [|k IH]; intros n; [done|]. cbn [dec_text]. rewrite str_forall_app. apply andb_true_iff. split.
  - destruct (n <? 10)%N; [done|apply IH].
  - cbn [str_forall]. pose proof (N.mod_lt n 10 ltac:(lia)) as Hm. rewrite digit_byte by done. rewrite andb_true_r.
    revert Hm. generalize (n mod 10)%N. intros m Hm. apply andb_true_iff. split; apply N.leb_le; lia.
Qed.

Lemma dec_text_nonempty (fuel : nat) (n : N) : dec_text (S fuel) n <> "".
Proof. cbn [dec_text]. destruct (if (n <? 10)%N then "" else dec_text fuel (n / 10)); [done|]. rewrite str_app_cons. done. Qed.

Lemma ParseInt_int_text (n : Z) : - 2 ^ 63 <= n < 2 ^ 63 -> ParseInt (int_text n) = Some n.
Proof.
  intros Hn. unfold ParseInt, int_text.
  assert (Hp : parse_digits 0 (dec_text 20 (Z.abs_N n)) = Some (Z.abs n)).
  { rewrite parse_dec_text by lia. f_equal. lia. }
  pose proof (dec_text_plain 20 (Z.abs_N n)) as Hd. pose proof (dec_text_nonempty 19 (Z.abs_N n)) as Hne.
  destruct (dec_text 20 (Z.abs_N n)) as [|c s] eqn:Ht; [done|]. rewrite <- Ht in Hp |- *.
  assert (Hr : (if (- 2 ^ 63 <=? n) && (n <? 2 ^ 63) then Some n else None) = Some n).
  { rewrite (proj2 (Z.leb_le _ _)), (proj2 (Z.ltb_lt _ _)) by lia. done. }
  destruct (Z.ltb_spec n 0) as [Hneg|Hpos].
  - rewrite str_app_cons, str_app_nil_l. cbn [Ascii.eqb Bool.eqb andb]. rewrite Ht at 1. cbn [String.eqb]. rewrite Hp. cbn zeta.
    replace (- Z.abs n) with n by lia. exact Hr.
  - rewrite str_app_nil_l, Ht. cbn [str_forall] in Hd. apply andb_true_iff in Hd as [Hc _].
    assert (Hm : c ==c "-" = false) by (apply Ascii.eqb_neq; intros ->; done).
    assert (Hpl : c ==c "+" = false) by (apply Ascii.eqb_neq; intros ->; done). rewrite Hm, Hpl. cbn [String.eqb]. rewrite <- Ht, Hp. cbn zeta.
    replace (Z.abs n) with n by lia. exact Hr.
Qed.

Lemma ParseUint_FormatUint (n : Z) : 0 <= n < 2 ^ 64 -> ParseUint (FormatUint n) = Some n.
Proof.
  intros Hn. unfold ParseUint, FormatUint. rewrite (proj2 (String.eqb_neq _ _)) by apply dec_text_nonempty.
  rewrite parse_dec_text by lia. rewrite Z2N.id by lia. by rewrite (proj2 (Z.ltb_lt _ _)) by lia.
Qed.
