(* ===== verification/Session.v ===== *)
(** * Ducklion sessions: [internal/ducklion/model/model.go] and [transitions.go]

    A session, its owner, and the pure transitions of ownership.  The Go types for
    kinds, statuses and states are strings with named constants, and so they are
    here.  A pointer that may be nil is an [option].  Error values are
    constructors carrying the arguments of the message.  The Unicode category Cf
    is the parameter [UnicodeFormat]. *)

From S2P Require Import Prelude GoStrings.
Local Open Scope go_scope.

Class UnicodeFormat := { u_Cf : N -> bool }.

(** [unicode.IsControl]: category Cc. *)
Definition IsControl (r : N) : bool := (r <? 32)%N || in_range 127 159 r.

(** [utf8.ValidString]: no byte decodes to an error of width one. *)
Fixpoint valid_utf8_from (skip : nat) (s : string) : bool :=
  match s with
  | EmptyString => true
  | String _ s' =>
      match skip with
      | S k => valid_utf8_from k s'
      | O => let '(r, w) := DecodeRune s in
             negb ((r =? RuneError)%N && (w =? 1)%nat) && valid_utf8_from (w - 1) s'
      end
  end.
Definition ValidString (s : string) : bool := valid_utf8_from 0 s.

Definition crockford : string := "0123456789ABCDEFGHJKMNPQRSTVWXYZ".

Definition KindAgent : string := "agent".
Definition KindShell : string := "shell".
Definition StatusProvisioning : string := "provisioning".
Definition StatusRunning : string := "running".
Definition StatusStopped : string := "stopped".
Definition StatusRecovering : string := "recovering".
Definition StatusDestroying : string := "destroying".
Definition OwnerCC : string := "cc".
Definition OwnerTerminal : string := "terminal".
Definition TaskIdle : string := "idle".
Definition TaskRunning : string := "running".
Definition TaskReplying : string := "replying".
Definition AdapterUnavailable : string := "unavailable".
Definition AdapterHealthy : string := "healthy".
Definition AdapterUnhealthy : string := "unhealthy".
Definition AdapterRecovering : string := "recovering".

Record Owner := mkOwner { o_Kind : string; o_ID : string }.
#[export] Instance Owner_eq_dec : EqDecision Owner.
Proof. solve_decision. Defined.

Inductive session_error :=
| ErrNotOwner
| ErrStaleEpoch
| ErrStaleGeneration
| ErrSessionNotRunning
| ErrAdapterNotHealthy
| ErrTaskActive
| ErrPendingYield
| ErrLifecyclePending
| ErrYieldUnsupported
| SessionIDLength
| SessionIDInvalid (v : string)
| HandleRequired
| HandleControl
| HandleTooLong
| OwnerKindInvalid (k : string)
| OwnerIDInvalid
| KindInvalid (k : string)
| ProjectNameInvalid
| StatusInvalid (s : string)
| TaskStateInvalid (s : string)
| AdapterStateInvalid (s : string)
| GenerationZero
| RecoveryKeyInvalid
| AgentIncomplete
| ShellOverfull.
#[export] Instance session_error_eq_dec : EqDecision session_error.
Proof. solve_decision. Defined.

Record Session := mkSessionRec {
  s_ID : string;
  s_Handle : string;
  s_Kind : string;
  s_AgentType : string;
  s_ProjectName : string;
  s_CWD : string;
  s_Shell : string;
  s_Status : string;
  s_Writer : option Owner;
  s_OwnershipEpoch : Z;
  s_RuntimeGeneration : Z;
  s_TaskState : string;
  s_AdapterState : string;
  s_RecoveryPublicKey : string;
  s_CreatedAtMS : Z;
  s_UpdatedAtMS : Z;
  s_ExitSuccess : option bool;
  s_ExitReason : string;
}.
#[export] Instance Session_eq_dec : EqDecision Session.
Proof. solve_decision. Defined.

Record PendingYield := mkYield {
  y_SessionID : string;
  y_Requester : Owner;
  y_SourceEpoch : Z;
  y_RequestID : string;
  y_CreatedAtMS : Z;
}.

(** ** Assignments to fields *)

Definition set_Handle (h : string) (s : Session) : Session :=
  mkSessionRec (s_ID s) h (s_Kind s) (s_AgentType s) (s_ProjectName s) (s_CWD s) (s_Shell s)
    (s_Status s) (s_Writer s) (s_OwnershipEpoch s) (s_RuntimeGeneration s) (s_TaskState s)
    (s_AdapterState s) (s_RecoveryPublicKey s) (s_CreatedAtMS s) (s_UpdatedAtMS s)
    (s_ExitSuccess s) (s_ExitReason s).
Definition set_Status (v : string) (s : Session) : Session :=
  mkSessionRec (s_ID s) (s_Handle s) (s_Kind s) (s_AgentType s) (s_ProjectName s) (s_CWD s) (s_Shell s)
    v (s_Writer s) (s_OwnershipEpoch s) (s_RuntimeGeneration s) (s_TaskState s)
    (s_AdapterState s) (s_RecoveryPublicKey s) (s_CreatedAtMS s) (s_UpdatedAtMS s)
    (s_ExitSuccess s) (s_ExitReason s).
Definition set_Owner (w : option Owner) (epoch : Z) (s : Session) : Session :=
  mkSessionRec (s_ID s) (s_Handle s) (s_Kind s) (s_AgentType s) (s_ProjectName s) (s_CWD s) (s_Shell s)
    (s_Status s) w epoch (s_RuntimeGeneration s) (s_TaskState s)
    (s_AdapterState s) (s_RecoveryPublicKey s) (s_CreatedAtMS s) (s_UpdatedAtMS s)
    (s_ExitSuccess s) (s_ExitReason s).
Definition set_TaskState (v : string) (s : Session) : Session :=
  mkSessionRec (s_ID s) (s_Handle s) (s_Kind s) (s_AgentType s) (s_ProjectName s) (s_CWD s) (s_Shell s)
    (s_Status s) (s_Writer s) (s_OwnershipEpoch s) (s_RuntimeGeneration s) v
    (s_AdapterState s) (s_RecoveryPublicKey s) (s_CreatedAtMS s) (s_UpdatedAtMS s)
    (s_ExitSuccess s) (s_ExitReason s).
Definition set_AdapterState (v : string) (s : Session) : Session :=
  mkSessionRec (s_ID s) (s_Handle s) (s_Kind s) (s_AgentType s) (s_ProjectName s) (s_CWD s) (s_Shell s)
    (s_Status s) (s_Writer s) (s_OwnershipEpoch s) (s_RuntimeGeneration s) (s_TaskState s)
    v (s_RecoveryPublicKey s) (s_CreatedAtMS s) (s_UpdatedAtMS s) (s_ExitSuccess s) (s_ExitReason s).
Definition set_Runtime (generation : Z) (key : string) (s : Session) : Session :=
  mkSessionRec (s_ID s) (s_Handle s) (s_Kind s) (s_AgentType s) (s_ProjectName s) (s_CWD s) (s_Shell s)
    (s_Status s) (s_Writer s) (s_OwnershipEpoch s) generation (s_TaskState s)
    (s_AdapterState s) key (s_CreatedAtMS s) (s_UpdatedAtMS s) (s_ExitSuccess s) (s_ExitReason s).
Definition set_Exit (success : option bool) (reason : string) (s : Session) : Session :=
  mkSessionRec (s_ID s) (s_Handle s) (s_Kind s) (s_AgentType s) (s_ProjectName s) (s_CWD s) (s_Shell s)
    (s_Status s) (s_Writer s) (s_OwnershipEpoch s) (s_RuntimeGeneration s) (s_TaskState s)
    (s_AdapterState s) (s_RecoveryPublicKey s) (s_CreatedAtMS s) (s_UpdatedAtMS s) success reason.
Definition set_UpdatedAt (now : Z) (s : Session) : Session :=
  mkSessionRec (s_ID s) (s_Handle s) (s_Kind s) (s_AgentType s) (s_ProjectName s) (s_CWD s) (s_Shell s)
    (s_Status s) (s_Writer s) (s_OwnershipEpoch s) (s_RuntimeGeneration s) (s_TaskState s)
    (s_AdapterState s) (s_RecoveryPublicKey s) (s_CreatedAtMS s) now (s_ExitSuccess s) (s_ExitReason s).

Definition writer_is (s : Session) (o : Owner) : bool := bool_decide (s_Writer s = Some o).

Section Model.
Context `{UC : UnicodeCase} `{UF : UnicodeFormat}.

(** ** Validation *)

(** [strings.ContainsRune(crockford, r)]. *)
Definition crockford_rune (r : N) : bool := existsb (N.eqb r) (runes crockford).

Definition ParseSessionID (v0 : string) : result session_error string :=
  let v := ToUpper (TrimSpace v0) in
  if negb (slen v =? 6)%nat then Err SessionIDLength
  else if forallb crockford_rune (runes v) then Ok v else Err (SessionIDInvalid v).

Definition ValidateHandle (v0 : string) : result session_error string :=
  let v := TrimSpace v0 in
  if v ==s "" then Err HandleRequired
  else if existsb IsControl (runes v) then Err HandleControl
  else if (128 <? length (runes v))%nat then Err HandleTooLong
  else Ok v.

Definition ValidateProjectName (v0 : string) : result session_error string :=
  let v := TrimSpace v0 in
  if (1024 <? zlen v)%Z || negb (ValidString v) then Err ProjectNameInvalid
  else if existsb (fun r => IsControl r || u_Cf r) (runes v) then Err ProjectNameInvalid
  else Ok v.

Definition owner_byte (c : ascii) : bool := (c ==c "000") || (c ==c "013") || (c ==c "010").

Definition Owner_Validate (o : Owner) : result session_error unit :=
  if (o_Kind o !=s OwnerCC) && (o_Kind o !=s OwnerTerminal) then Err (OwnerKindInvalid (o_Kind o))
  else if (TrimSpace (o_ID o) ==s "") || str_exists owner_byte (o_ID o) then Err OwnerIDInvalid
  else Ok tt.

Definition among (v : string) (l : list string) : bool := existsb (String.eqb v) l.

Definition Session_Validate (s : Session) : result session_error unit :=
  _ <-! ParseSessionID (s_ID s);
  _ <-! ValidateHandle (s_Handle s);
  if negb (among (s_Kind s) [KindAgent; KindShell]) then Err (KindInvalid (s_Kind s)) else
  _ <-! ValidateProjectName (s_ProjectName s);
  if negb (among (s_Status s) [StatusProvisioning; StatusRunning; StatusStopped; StatusRecovering; StatusDestroying])
  then Err (StatusInvalid (s_Status s))
  else if negb (among (s_TaskState s) [TaskIdle; TaskRunning; TaskReplying])
  then Err (TaskStateInvalid (s_TaskState s))
  else if negb (among (s_AdapterState s) [AdapterUnavailable; AdapterHealthy; AdapterUnhealthy; AdapterRecovering])
  then Err (AdapterStateInvalid (s_AdapterState s))
  else if (s_RuntimeGeneration s =? 0)%Z then Err GenerationZero
  else if negb (slen (s_RecoveryPublicKey s) =? 0)%nat && negb (slen (s_RecoveryPublicKey s) =? 32)%nat
  then Err RecoveryKeyInvalid
  else if s_Kind s ==s KindAgent then
    match s_Writer s with
    | None => Err AgentIncomplete
    | Some w => if TrimSpace (s_AgentType s) ==s "" then Err AgentIncomplete else Owner_Validate w
    end
  else if bool_decide (is_Some (s_Writer s)) || (s_AgentType s !=s "")
          || (s_AdapterState s !=s AdapterUnavailable) || (s_TaskState s !=s TaskIdle)
  then Err ShellOverfull
  else Ok tt.

(** ** Transitions *)

Definition AuthorizeAgentInput (s : Session) (owner : Owner) (epoch generation : Z)
  : result session_error unit :=
  if (s_Kind s !=s KindAgent) || (s_Status s !=s StatusRunning) then Err ErrSessionNotRunning
  else if negb (generation =? s_RuntimeGeneration s)%Z then Err ErrStaleGeneration
  else if negb (epoch =? s_OwnershipEpoch s)%Z then Err ErrStaleEpoch
  else if negb (writer_is s owner) then Err ErrNotOwner
  else Ok tt.

Definition YieldTransferred : string := "transferred".
Definition YieldWaiting : string := "waiting".
Definition YieldUnchanged : string := "unchanged".

(** The decision, the session afterwards and the yield to store. *)
Definition RequestYield (s : Session) (requester : Owner) (wait : bool) (existing : option PendingYield)
  : result session_error (string * Session * option PendingYield) :=
  if s_Kind s !=s KindAgent then Err ErrYieldUnsupported
  else if s_Status s !=s StatusRunning then Err ErrSessionNotRunning
  else
  _ <-! Owner_Validate requester;
  match existing with
  | Some _ => Err ErrPendingYield
  | None =>
      if writer_is s requester then Ok (YieldUnchanged, s, None)
      else if s_AdapterState s !=s AdapterHealthy then Err ErrAdapterNotHealthy
      else if s_TaskState s !=s TaskIdle then
        if negb wait then Err ErrTaskActive
        else Ok (YieldWaiting, s, Some (mkYield (s_ID s) requester (s_OwnershipEpoch s) "" 0))
      else Ok (YieldTransferred, set_Owner (Some requester) (u64 (s_OwnershipEpoch s + 1)) s, None)
  end.

(** Whether the yield was applied, and the session afterwards. *)
Definition ApplyPendingYield (s : Session) (pending : PendingYield)
  : result session_error (bool * Session) :=
  if (s_Kind s !=s KindAgent) || (s_Status s !=s StatusRunning) then Err ErrSessionNotRunning
  else if (y_SessionID pending !=s s_ID s) || negb (y_SourceEpoch pending =? s_OwnershipEpoch s)%Z
  then Err ErrStaleEpoch
  else if (s_AdapterState s !=s AdapterHealthy) || (s_TaskState s !=s TaskIdle) then Ok (false, s)
  else Ok (true, set_Owner (Some (y_Requester pending)) (u64 (s_OwnershipEpoch s + 1)) s).

(** ** What validation means

    [Session_Validate] as a conjunction, independent of the order of its tests. *)
Record ValidSession (s : Session) : Prop := mkValid {
  vs_id : is_Ok (ParseSessionID (s_ID s)) = true;
  vs_handle : is_Ok (ValidateHandle (s_Handle s)) = true;
  vs_project : is_Ok (ValidateProjectName (s_ProjectName s)) = true;
  vs_status : among (s_Status s) [StatusProvisioning; StatusRunning; StatusStopped; StatusRecovering; StatusDestroying] = true;
  vs_task : among (s_TaskState s) [TaskIdle; TaskRunning; TaskReplying] = true;
  vs_adapter : among (s_AdapterState s) [AdapterUnavailable; AdapterHealthy; AdapterUnhealthy; AdapterRecovering] = true;
  vs_generation : s_RuntimeGeneration s <> 0%Z;
  vs_key : slen (s_RecoveryPublicKey s) = 0 \/ slen (s_RecoveryPublicKey s) = 32;
  vs_kind : (s_Kind s = KindAgent /\ TrimSpace (s_AgentType s) <> ""
             /\ exists w, s_Writer s = Some w /\ Owner_Validate w = Ok tt)
         \/ (s_Kind s = KindShell /\ s_Writer s = None /\ s_AgentType s = ""
             /\ s_AdapterState s = AdapterUnavailable /\ s_TaskState s = TaskIdle);
}.

Lemma among_In (v : string) (l : list string) : among v l = true <-> In v l.
Proof.
  unfold among. rewrite existsb_exists. split.
  - intros (x & Hx & He). bool_to_prop. by subst.
  - intros H. exists v. split; [done|apply String.eqb_refl].
Qed.

Lemma Owner_Validate_Ok (o : Owner) (u : unit) : Owner_Validate o = Ok u -> Owner_Validate o = Ok tt.
Proof. by destruct u. Qed.

Lemma Session_Validate_iff (s : Session) : Session_Validate s = Ok tt <-> ValidSession s.
Proof.
  unfold Session_Validate. split.
  - intros H.
    destruct (ParseSessionID (s_ID s)) as [pi|] eqn:Hid; [|discriminate]; cbn [rbind] in H.
    destruct (ValidateHandle (s_Handle s)) as [ph|] eqn:Hh; [|discriminate]; cbn [rbind] in H.
    destruct (negb (among (s_Kind s) _)) eqn:Hk; [discriminate|].
    destruct (ValidateProjectName (s_ProjectName s)) as [pp|] eqn:Hp; [|discriminate]; cbn [rbind] in H.
    destruct (negb (among (s_Status s) _)) eqn:Hs; [discriminate|].
    destruct (negb (among (s_TaskState s) _)) eqn:Ht; [discriminate|].
    destruct (negb (among (s_AdapterState s) _)) eqn:Ha; [discriminate|].
    destruct (s_RuntimeGeneration s =? 0)%Z eqn:Hg; [discriminate|].
    destruct (negb _ && negb _) eqn:Hkey in H; [discriminate|].
    bool_to_prop. apply among_In in Hk.
    split; rewrite ?Hid, ?Hh, ?Hp; try done.
    { destruct Hkey as [Hkey|Hkey]; bool_to_prop; auto. }
    destruct (s_Kind s ==s KindAgent) eqn:Hka; bool_to_prop.
    + left. destruct (s_Writer s) as [w|]; [|discriminate].
      destruct (TrimSpace (s_AgentType s) ==s "") eqn:Hat; [discriminate|]. bool_to_prop. eauto.
    + right. destruct Hk as [Hk|[Hk|[]]]; [by rewrite <-Hk in Hka|].
      destruct (bool_decide _ || _ || _ || _) eqn:Hb in H; [discriminate|].
      bool_to_prop. apply bool_decide_eq_false in H0. rewrite <-eq_None_not_Some in H0. auto 10.
  - intros [Hid Hh Hp Hs Ht Ha Hg Hkey Hk].
    destruct (ParseSessionID (s_ID s)); [|discriminate]. destruct (ValidateHandle (s_Handle s)); [|discriminate].
    destruct (ValidateProjectName (s_ProjectName s)); [|discriminate]. cbn [rbind].
    rewrite Hs, Ht, Ha. apply Z.eqb_neq in Hg. rewrite Hg.
    assert (negb (slen (s_RecoveryPublicKey s) =? 0)%nat && negb (slen (s_RecoveryPublicKey s) =? 32)%nat = false) as ->.
    { destruct Hkey as [->| ->]; reflexivity. }
    destruct Hk as [(-> & Hat & w & -> & Hw)|(-> & -> & -> & -> & ->)].
    + simpl. apply String.eqb_neq in Hat. by rewrite Hat.
    + reflexivity.
Qed.

(** The handle that validation returns is itself valid. *)
Lemma ValidateHandle_idem (h h' : string) : ValidateHandle h = Ok h' -> ValidateHandle h' = Ok h'.
Proof.
  unfold ValidateHandle. intros H. repeat case_hyp H; simplify_eq. rewrite TrimSpace_idem.
  by rewrite Heqb, Heqb0, Heqb1.
Qed.

(** What a yield does to a session, when it is applied. *)
Lemma ApplyPendingYield_Ok (s : Session) (y : PendingYield) (b : bool) (s' : Session) :
  ApplyPendingYield s y = Ok (b, s') ->
  s_Kind s = KindAgent /\ s_Status s = StatusRunning /\ y_SourceEpoch y = s_OwnershipEpoch s
  /\ (b = false /\ s' = s
      \/ b = true /\ s_AdapterState s = AdapterHealthy /\ s_TaskState s = TaskIdle
         /\ s' = set_Owner (Some (y_Requester y)) (u64 (s_OwnershipEpoch s + 1)) s).
Proof.
  unfold ApplyPendingYield. intros H. repeat case_hyp H; try discriminate; bool_to_prop; simplify_eq; auto 10.
Qed.

Lemma RequestYield_Ok (s : Session) (r : Owner) (w : bool) (e : option PendingYield) (dec : string)
    (s' : Session) (y : option PendingYield) :
  RequestYield s r w e = Ok (dec, s', y) ->
  s_Kind s = KindAgent /\ s_Status s = StatusRunning /\ Owner_Validate r = Ok tt /\ e = None
  /\ (dec = YieldUnchanged /\ s' = s /\ y = None /\ s_Writer s = Some r
      \/ dec = YieldWaiting /\ s' = s /\ y = Some (mkYield (s_ID s) r (s_OwnershipEpoch s) "" 0)
         /\ s_Writer s <> Some r /\ s_TaskState s <> TaskIdle
      \/ dec = YieldTransferred /\ s' = set_Owner (Some r) (u64 (s_OwnershipEpoch s + 1)) s /\ y = None
         /\ s_Writer s <> Some r /\ s_AdapterState s = AdapterHealthy /\ s_TaskState s = TaskIdle).
Proof.
  unfold RequestYield, writer_is. intros H.
  destruct (s_Kind s !=s KindAgent) eqn:Hk; [discriminate|].
  destruct (s_Status s !=s StatusRunning) eqn:Hs; [discriminate|].
  destruct (Owner_Validate r) as [[]|] eqn:Hr; [|discriminate]. cbn [rbind] in H.
  destruct e; [discriminate|]. bool_to_prop.
  split_and!; try done.
  case_bool_decide; [simplify_eq; auto|].
  destruct (s_AdapterState s !=s AdapterHealthy) eqn:Ha; [discriminate|].
  destruct (s_TaskState s !=s TaskIdle) eqn:Ht; bool_to_prop.
  - destruct w; [|discriminate]. injection H as <- <- <-. right; left. auto.
  - injection H as <- <- <-. right; right. auto 10.
Qed.

End Model.
