(* ===== verification/SessionDB.v ===== *)
(** * The Ducklion database: [internal/ducklion/store/sqlite.go]

    The tables of schema version 18 with the constraints, foreign keys and
    triggers the migrations declare, and the transactions that run on them.

    A table is a finite map from its primary key to its rows; the audit table and
    the revision journal are lists in the order of their AUTOINCREMENT key.  A
    transaction maps a database to a new one and a value, or to an error, in which
    case it is rolled back ([atomically]).  The store opens one connection, so
    transactions run one after another.  The driver refuses a [uint64] with its
    high bit set ([arg_u64]).  The [created_at_ms] column of the journal is never
    read and is left out.  Readings of the clock are arguments. *)

From S2P Require Import Prelude GoStrings GoMarshal Session.
Local Open Scope go_scope.

(** ** Rows *)

Definition LifecycleEnd : string := "end".
Definition LifecycleDestroy : string := "destroy".
Definition LifecycleRestart : string := "restart".
Definition LifecycleImmediate : string := "immediate".
Definition LifecycleWait : string := "wait".
Definition LifecycleForce : string := "force".
Definition LifecycleWaiting : string := "waiting".
Definition LifecycleStopping : string := "stopping".
Definition LifecycleRuntimeStopped : string := "runtime_stopped".
Definition LifecycleLaunching : string := "launching".
Definition LifecycleCleaning : string := "cleaning".
Definition LifecycleCompleted : string := "completed".

Record PendingLifecycle := mkLifecycle {
  p_SessionID : string;
  p_Operation : string;
  p_Mode : string;
  p_Requester : Owner;
  p_SourceEpoch : Z;
  p_SourceGeneration : Z;
  p_RequestID : string;
  p_Phase : string;
  p_CreatedAtMS : Z;
  p_UpdatedAtMS : Z;
  p_Attempt : Z;
  p_LastError : string;
}.

Record LifecycleOutcome := mkOutcomeRow {
  lo_SessionID : string;
  lo_Operation : string;
  lo_Mode : string;
  lo_Requester : Owner;
  lo_SourceEpoch : Z;
  lo_SourceGeneration : Z;
  lo_RequestID : string;
  lo_CompletedAtMS : Z;
  lo_Failure : string;
}.

Definition ManagedTaskPrepared : string := "prepared".
Definition ManagedTaskRunning : string := "running".
Definition ManagedTaskReplying : string := "replying".
Definition ManagedTaskCompleted : string := "completed".
Definition ManagedTaskFailed : string := "failed".

Record ManagedTask := mkTask {
  t_SessionID : string;
  t_TaskID : string;
  t_PromptDigest : string;
  t_Owner : Owner;
  t_OwnershipEpoch : Z;
  t_RuntimeGeneration : Z;
  t_Status : string;
  t_LastEventSeq : Z;
  t_AckedEventSeq : Z;
  t_OutputStart : Z;
  t_OutputEnd : option Z;
  t_ErrorCategory : string;
  t_CreatedAtMS : Z;
  t_UpdatedAtMS : Z;
}.

Record EventReceipt := mkReceipt { er_Digest : string; er_Kind : string; er_CreatedAtMS : Z }.

Record RetainedShellSession := mkRetained {
  rs_SessionID : string;
  rs_RuntimeGeneration : Z;
  rs_Handle : string;
  rs_ExitedAtMS : Z;
  rs_ExitSuccess : bool;
  rs_ExitReason : string;
}.

Record DiscordBinding := mkBinding {
  b_SessionID : string;
  b_ChannelHandle : string;
  b_ManagementHandle : string;
  b_CreatedAtMS : Z;
}.

Record MutationRow := mkMutation {
  m_Operation : string;
  m_SessionID : string;
  m_Fingerprint : string;
  m_Status : string;
  m_Response : option doc;
  m_CreatedAtMS : Z;
  m_CompletedAtMS : option Z;
}.

Record ActivityRow := mkActivity {
  a_Sequence : Z;
  a_Generation : Z;
  a_Offset : Z;
  a_EventID : Z;
  a_UpdatedAtMS : Z;
}.

Record AuditEvent := mkAudit {
  ae_SessionID : string;
  ae_Principal : string;
  ae_EventType : string;
  ae_OwnershipEpoch : Z;
  ae_RuntimeGeneration : Z;
  ae_OutcomeCode : string;
  ae_CreatedAtMS : Z;
}.

Record SessionRevision := mkRevision {
  rv_Revision : Z;
  rv_SessionID : string;
  rv_Change : string;
  rv_ActivityCategory : string;
  rv_ActivitySequence : Z;
}.

Record HookCallback := mkCallback {
  hc_SessionID : string;
  hc_RuntimeGeneration : Z;
  hc_LastEventID : Z;
  hc_UpdatedAtMS : Z;
}.

Record HookInstallation := mkHook { hi_Epoch : Z; hi_Installed : bool; hi_VerifiedEpoch : Z }.

(** ** The database *)

Record db := mkDB {
  d_sessions : gmap string Session;
  d_yields : gmap string PendingYield;
  d_lifecycles : gmap string PendingLifecycle;
  d_outcomes : gmap (string * string * string) LifecycleOutcome;
  d_tasks : gmap (string * string) ManagedTask;
  d_receipts : gmap (string * string * Z) EventReceipt;
  d_retained : gmap (string * Z) RetainedShellSession;
  d_bindings : gmap string DiscordBinding;
  d_mutations : gmap (string * string) MutationRow;
  d_activity : gmap (string * string) ActivityRow;
  d_audit : list AuditEvent;
  d_journal : list SessionRevision;
  d_sequence : Z;
  d_callbacks : gmap string HookCallback;
  d_hooks : gmap string HookInstallation;
}.

Definition with_sessions (x : gmap string Session) (d : db) : db :=
  mkDB x (d_yields d) (d_lifecycles d) (d_outcomes d) (d_tasks d) (d_receipts d) (d_retained d)
    (d_bindings d) (d_mutations d) (d_activity d) (d_audit d) (d_journal d) (d_sequence d)
    (d_callbacks d) (d_hooks d).
Definition with_yields (x : gmap string PendingYield) (d : db) : db :=
  mkDB (d_sessions d) x (d_lifecycles d) (d_outcomes d) (d_tasks d) (d_receipts d) (d_retained d)
    (d_bindings d) (d_mutations d) (d_activity d) (d_audit d) (d_journal d) (d_sequence d)
    (d_callbacks d) (d_hooks d).
Definition with_lifecycles (x : gmap string PendingLifecycle) (d : db) : db :=
  mkDB (d_sessions d) (d_yields d) x (d_outcomes d) (d_tasks d) (d_receipts d) (d_retained d)
    (d_bindings d) (d_mutations d) (d_activity d) (d_audit d) (d_journal d) (d_sequence d)
    (d_callbacks d) (d_hooks d).
Definition with_outcomes (x : gmap (string * string * string) LifecycleOutcome) (d : db) : db :=
  mkDB (d_sessions d) (d_yields d) (d_lifecycles d) x (d_tasks d) (d_receipts d) (d_retained d)
    (d_bindings d) (d_mutations d) (d_activity d) (d_audit d) (d_journal d) (d_sequence d)
    (d_callbacks d) (d_hooks d).
Definition with_tasks (x : gmap (string * string) ManagedTask) (d : db) : db :=
  mkDB (d_sessions d) (d_yields d) (d_lifecycles d) (d_outcomes d) x (d_receipts d) (d_retained d)
    (d_bindings d) (d_mutations d) (d_activity d) (d_audit d) (d_journal d) (d_sequence d)
    (d_callbacks d) (d_hooks d).
Definition with_receipts (x : gmap (string * string * Z) EventReceipt) (d : db) : db :=
  mkDB (d_sessions d) (d_yields d) (d_lifecycles d) (d_outcomes d) (d_tasks d) x (d_retained d)
    (d_bindings d) (d_mutations d) (d_activity d) (d_audit d) (d_journal d) (d_sequence d)
    (d_callbacks d) (d_hooks d).
Definition with_retained (x : gmap (string * Z) RetainedShellSession) (d : db) : db :=
  mkDB (d_sessions d) (d_yields d) (d_lifecycles d) (d_outcomes d) (d_tasks d) (d_receipts d) x
    (d_bindings d) (d_mutations d) (d_activity d) (d_audit d) (d_journal d) (d_sequence d)
    (d_callbacks d) (d_hooks d).
Definition with_bindings (x : gmap string DiscordBinding) (d : db) : db :=
  mkDB (d_sessions d) (d_yields d) (d_lifecycles d) (d_outcomes d) (d_tasks d) (d_receipts d)
    (d_retained d) x (d_mutations d) (d_activity d) (d_audit d) (d_journal d) (d_sequence d)
    (d_callbacks d) (d_hooks d).
Definition with_mutations (x : gmap (string * string) MutationRow) (d : db) : db :=
  mkDB (d_sessions d) (d_yields d) (d_lifecycles d) (d_outcomes d) (d_tasks d) (d_receipts d)
    (d_retained d) (d_bindings d) x (d_activity d) (d_audit d) (d_journal d) (d_sequence d)
    (d_callbacks d) (d_hooks d).
Definition with_activity (x : gmap (string * string) ActivityRow) (d : db) : db :=
  mkDB (d_sessions d) (d_yields d) (d_lifecycles d) (d_outcomes d) (d_tasks d) (d_receipts d)
    (d_retained d) (d_bindings d) (d_mutations d) x (d_audit d) (d_journal d) (d_sequence d)
    (d_callbacks d) (d_hooks d).
Definition with_audit (x : list AuditEvent) (d : db) : db :=
  mkDB (d_sessions d) (d_yields d) (d_lifecycles d) (d_outcomes d) (d_tasks d) (d_receipts d)
    (d_retained d) (d_bindings d) (d_mutations d) (d_activity d) x (d_journal d) (d_sequence d)
    (d_callbacks d) (d_hooks d).
Definition with_journal (x : list SessionRevision) (d : db) : db :=
  mkDB (d_sessions d) (d_yields d) (d_lifecycles d) (d_outcomes d) (d_tasks d) (d_receipts d)
    (d_retained d) (d_bindings d) (d_mutations d) (d_activity d) (d_audit d) x (d_sequence d)
    (d_callbacks d) (d_hooks d).
Definition with_sequence (x : Z) (d : db) : db :=
  mkDB (d_sessions d) (d_yields d) (d_lifecycles d) (d_outcomes d) (d_tasks d) (d_receipts d)
    (d_retained d) (d_bindings d) (d_mutations d) (d_activity d) (d_audit d) (d_journal d) x
    (d_callbacks d) (d_hooks d).
Definition with_callbacks (x : gmap string HookCallback) (d : db) : db :=
  mkDB (d_sessions d) (d_yields d) (d_lifecycles d) (d_outcomes d) (d_tasks d) (d_receipts d)
    (d_retained d) (d_bindings d) (d_mutations d) (d_activity d) (d_audit d) (d_journal d)
    (d_sequence d) x (d_hooks d).
Definition with_hooks (x : gmap string HookInstallation) (d : db) : db :=
  mkDB (d_sessions d) (d_yields d) (d_lifecycles d) (d_outcomes d) (d_tasks d) (d_receipts d)
    (d_retained d) (d_bindings d) (d_mutations d) (d_activity d) (d_audit d) (d_journal d)
    (d_sequence d) (d_callbacks d) x.

Definition empty_db : db := mkDB ∅ ∅ ∅ ∅ ∅ ∅ ∅ ∅ ∅ ∅ [] [] 0 ∅ ∅.

(** ** Errors and transactions *)

Inductive store_error :=
| ErrNotFound
| ErrIdempotencyConflict
| ErrMutationInProgress
| ErrBindingConflict
| ErrVisibilityRuntimeChanged
| ModelError (e : session_error)
| InvalidPersisted (id : string) (e : session_error)
| Errorf (message : string)
| Constraint (table : string)
| DriverUint64
| HookFailed.
#[export] Instance store_error_eq_dec : EqDecision store_error.
Proof. solve_decision. Defined.

Definition tx (A : Type) : Type := db -> result store_error (db * A).

Definition ret {A : Type} (a : A) : tx A := fun d => Ok (d, a).
Definition fail {A : Type} (e : store_error) : tx A := fun _ => Err e.
Definition tbind {A B : Type} (m : tx A) (k : A -> tx B) : tx B :=
  fun d => match m d with Ok (d', a) => k a d' | Err e => Err e end.
Definition read {A : Type} (f : db -> A) : tx A := fun d => Ok (d, f d).
Definition write (f : db -> db) : tx unit := fun d => Ok (f d, tt).
Definition lift {A : Type} (r : result session_error A) : tx A :=
  match r with Ok a => ret a | Err e => fail (ModelError e) end.
Definition guard (b : bool) (e : store_error) : tx unit := if b then ret tt else fail e.

(** A statement whose error is looked at: its own effects are undone. *)
Definition attempt {A : Type} (m : tx A) : tx (result store_error A) :=
  fun d => match m d with Ok (d', a) => Ok (d', Ok a) | Err e => Ok (d, Err e) end.

Notation "x <-t m ; k" := (tbind m (fun x => k))
  (at level 90, m at level 89, right associativity, only parsing) : go_scope.

(** Begin, run, and commit or roll back. *)
Definition atomically {A : Type} (m : tx A) (d : db) : db * result store_error A :=
  match m d with Ok (d', a) => (d', Ok a) | Err e => (d, Err e) end.

(** A transaction that commits and then reports an error. *)
Definition committing {A : Type} (m : tx (result store_error A)) (d : db) : db * result store_error A :=
  match m d with Ok (d', r) => (d', r) | Err e => (d, Err e) end.

(** A [uint64] argument of a statement. *)
Definition arg_u64 (z : Z) : tx unit := guard (z <? 2 ^ 63)%Z DriverUint64.

(** ** The revision journal and its triggers *)

Definition max_revision (j : list SessionRevision) : option Z := rv_Revision <$> last j.
Definition min_revision (j : list SessionRevision) : option Z := rv_Revision <$> head j.

(** [DELETE FROM session_revision_events WHERE revision <= (SELECT max(revision)-4096 ...)]. *)
Definition prune (j : list SessionRevision) : list SessionRevision :=
  match max_revision j with
  | Some m => List.filter (fun e => negb (rv_Revision e <=? m - 4096)%Z) j
  | None => j
  end.
Definition prune_journal (d : db) : db := with_journal (prune (d_journal d)) d.

Definition add_event (id change category : string) (seq : Z) (d : db) : db :=
  let r := (d_sequence d + 1)%Z in
  with_sequence r (with_journal (d_journal d ++ [mkRevision r id change category seq]) d).

(** The body of the revision triggers. *)
Definition revise (id change : string) (d : db) : db := prune_journal (add_event id change "" 0 d).

(** The condition of the trigger [session_revision_update]. *)
Definition visible_change (s s' : Session) : bool :=
  negb (bool_decide (s_Handle s = s_Handle s' /\ s_Kind s = s_Kind s' /\ s_AgentType s = s_AgentType s'
    /\ s_CWD s = s_CWD s' /\ s_Status s = s_Status s' /\ s_Writer s = s_Writer s'
    /\ s_OwnershipEpoch s = s_OwnershipEpoch s' /\ s_RuntimeGeneration s = s_RuntimeGeneration s'
    /\ s_TaskState s = s_TaskState s' /\ s_AdapterState s = s_AdapterState s'
    /\ s_ExitSuccess s = s_ExitSuccess s' /\ s_ExitReason s = s_ExitReason s')).

(** ** Table [sessions] *)

(** SQLite's [length] of a text. *)
Definition sql_length (s : string) : nat := length (runes s).

(** The CHECK clauses. *)
Definition session_check (s : Session) : bool :=
  (sql_length (s_ID s) =? 6)%nat && among (s_Kind s) [KindAgent; KindShell]
  && among (s_Status s) [StatusProvisioning; StatusRunning; StatusStopped; StatusRecovering; StatusDestroying]
  && match s_Writer s with Some w => among (o_Kind w) [OwnerCC; OwnerTerminal] | None => true end
  && (0 <=? s_OwnershipEpoch s)%Z && (0 <=? s_RuntimeGeneration s)%Z
  && among (s_TaskState s) [TaskIdle; TaskRunning; TaskReplying]
  && among (s_AdapterState s) [AdapterUnavailable; AdapterHealthy; AdapterUnhealthy; AdapterRecovering]
  && ((s_Kind s ==s KindAgent) && (s_AgentType s !=s "") && bool_decide (is_Some (s_Writer s))
      || (s_Kind s ==s KindShell) && (s_AgentType s ==s "") && bool_decide (s_Writer s = None)).

Definition put_session (id : string) (s : Session) (d : db) : db := with_sessions (<[id := s]> (d_sessions d)) d.

Definition insert_session (s : Session) : tx unit :=
  _ <-t arg_u64 (s_OwnershipEpoch s);
  _ <-t arg_u64 (s_RuntimeGeneration s);
  taken <-t read (fun d => d_sessions d !! s_ID s);
  _ <-t guard (bool_decide (taken = None) && session_check s) (Constraint "sessions");
  write (fun d => revise (s_ID s) "invalidate" (put_session (s_ID s) s d)).

(** [UPDATE sessions SET ... WHERE session_id=? AND ...]: the rows affected.  An
    integer column holds 63 bits. *)
Definition update_session (id : string) (cond : Session -> bool) (f : Session -> Session) : tx nat :=
  row <-t read (fun d => d_sessions d !! id);
  match row with
  | None => ret 0
  | Some s =>
      if negb (cond s) then ret 0 else
      _ <-t guard (session_check (f s)) (Constraint "sessions");
      _ <-t guard (s_RuntimeGeneration (f s) <? 2 ^ 63)%Z (Constraint "sessions");
      _ <-t write (put_session id (f s));
      _ <-t write (fun d => if visible_change s (f s) then revise id "invalidate" d else d);
      ret 1
  end.

(** Deleting a session: the foreign keys cascade first (the trigger of the
    binding runs with its row), then the session's own trigger. *)
Definition drop_binding (id : string) (d : db) : db :=
  match d_bindings d !! id with
  | Some _ => revise id "invalidate" (with_bindings (delete id (d_bindings d)) d)
  | None => d
  end.

Definition drop_children (id : string) (d : db) : db :=
  with_yields (delete id (d_yields d))
    (with_lifecycles (delete id (d_lifecycles d))
      (with_tasks (filter (fun kv => kv.1.1 <> id) (d_tasks d))
        (with_receipts (filter (fun kv => kv.1.1.1 <> id) (d_receipts d))
          (with_activity (filter (fun kv => kv.1.1 <> id) (d_activity d))
            (with_sessions (delete id (d_sessions d)) d))))).

Definition drop_session (id : string) (d : db) : db :=
  revise id "delete" (drop_binding id (drop_children id d)).

Definition delete_session (id : string) (cond : Session -> bool) : tx nat :=
  row <-t read (fun d => d_sessions d !! id);
  match row with
  | Some s => if cond s then _ <-t write (drop_session id); ret 1 else ret 0
  | None => ret 0
  end.

(** ** Tables of pending yields and lifecycle operations *)

Definition session_exists (id : string) : tx bool :=
  read (fun d => bool_decide (is_Some (d_sessions d !! id))).

Definition owner_kind_check (k : string) : bool := among k [OwnerCC; OwnerTerminal].

Definition insert_yield (y : PendingYield) : tx unit :=
  _ <-t arg_u64 (y_SourceEpoch y);
  parent <-t session_exists (y_SessionID y);
  taken <-t read (fun d => d_yields d !! y_SessionID y);
  _ <-t guard (parent && bool_decide (taken = None) && owner_kind_check (o_Kind (y_Requester y))
               && (0 <=? y_SourceEpoch y)%Z) (Constraint "pending_yields");
  write (fun d => with_yields (<[y_SessionID y := y]> (d_yields d)) d).

Definition delete_yield (id : string) : tx unit :=
  write (fun d => with_yields (delete id (d_yields d)) d).

Definition lifecycle_check (p : PendingLifecycle) : bool :=
  among (p_Operation p) [LifecycleEnd; LifecycleDestroy; LifecycleRestart]
  && among (p_Mode p) [LifecycleImmediate; LifecycleWait; LifecycleForce]
  && owner_kind_check (o_Kind (p_Requester p)) && (0 <? p_SourceEpoch p)%Z && (0 <? p_SourceGeneration p)%Z
  && among (p_Phase p) [LifecycleWaiting; LifecycleStopping; LifecycleRuntimeStopped; LifecycleLaunching;
       LifecycleCleaning; LifecycleCompleted]
  && (0 <=? p_Attempt p)%Z.

Definition put_lifecycle (p : PendingLifecycle) (d : db) : db :=
  with_lifecycles (<[p_SessionID p := p]> (d_lifecycles d)) d.

Definition insert_lifecycle (p : PendingLifecycle) : tx unit :=
  _ <-t arg_u64 (p_SourceEpoch p);
  _ <-t arg_u64 (p_SourceGeneration p);
  _ <-t arg_u64 (p_Attempt p);
  parent <-t session_exists (p_SessionID p);
  taken <-t read (fun d => d_lifecycles d !! p_SessionID p);
  _ <-t guard (parent && bool_decide (taken = None) && lifecycle_check p) (Constraint "pending_lifecycle_operations");
  write (put_lifecycle p).

(** [UPDATE pending_lifecycle_operations SET phase=?,updated_at_ms=?,attempt=attempt+1,last_error=?]. *)
Definition set_phase (phase : string) (now : Z) (lastError : string) (p : PendingLifecycle) : PendingLifecycle :=
  mkLifecycle (p_SessionID p) (p_Operation p) (p_Mode p) (p_Requester p) (p_SourceEpoch p)
    (p_SourceGeneration p) (p_RequestID p) phase (p_CreatedAtMS p) now (p_Attempt p + 1) lastError.

Definition update_lifecycle (id : string) (cond : PendingLifecycle -> bool)
    (phase : string) (now : Z) (lastError : string) : tx nat :=
  row <-t read (fun d => d_lifecycles d !! id);
  match row with
  | Some p =>
      if cond p then
        _ <-t write (fun d => with_lifecycles (<[id := set_phase phase now lastError p]> (d_lifecycles d)) d);
        ret 1
      else ret 0
  | None => ret 0
  end.

Definition delete_lifecycle (id : string) (cond : PendingLifecycle -> bool) : tx nat :=
  row <-t read (fun d => d_lifecycles d !! id);
  match row with
  | Some p =>
      if cond p then _ <-t write (fun d => with_lifecycles (delete id (d_lifecycles d)) d); ret 1
      else ret 0
  | None => ret 0
  end.

(** ** Tables of outcomes, retained shells, tasks, receipts, bindings, activity *)

Definition outcome_key (o : Owner) (requestID : string) : string * string * string :=
  (o_Kind o, o_ID o, requestID).

(** [INSERT ... ON CONFLICT DO NOTHING]: the rows affected. *)
Definition insert_outcome (p : PendingLifecycle) (now : Z) (failure : string) : tx nat :=
  _ <-t arg_u64 (p_SourceEpoch p);
  _ <-t arg_u64 (p_SourceGeneration p);
  let k := outcome_key (p_Requester p) (p_RequestID p) in
  taken <-t read (fun d => d_outcomes d !! k);
  _ <-t guard (among (p_Operation p) [LifecycleEnd; LifecycleDestroy; LifecycleRestart]
               && among (p_Mode p) [LifecycleImmediate; LifecycleWait; LifecycleForce]
               && owner_kind_check (o_Kind (p_Requester p)) && (0 <? p_SourceEpoch p)%Z
               && (0 <? p_SourceGeneration p)%Z) (Constraint "lifecycle_outcomes");
  match taken with
  | Some _ => ret 0
  | None =>
      _ <-t write (fun d => with_outcomes (<[k := mkOutcomeRow (p_SessionID p) (p_Operation p) (p_Mode p)
             (p_Requester p) (p_SourceEpoch p) (p_SourceGeneration p) (p_RequestID p) now failure]> (d_outcomes d)) d);
      ret 1
  end.

Definition insert_retained (r : RetainedShellSession) : tx unit :=
  _ <-t arg_u64 (rs_RuntimeGeneration r);
  let k := (rs_SessionID r, rs_RuntimeGeneration r) in
  taken <-t read (fun d => d_retained d !! k);
  _ <-t guard (bool_decide (taken = None) && (sql_length (rs_SessionID r) =? 6)%nat
               && (0 <? rs_RuntimeGeneration r)%Z && (0 <? rs_ExitedAtMS r)%Z) (Constraint "retained_shell_sessions");
  write (fun d => with_retained (<[k := r]> (d_retained d)) d).

Definition task_check (t : ManagedTask) : bool :=
  (1 <=? sql_length (t_TaskID t))%nat && (sql_length (t_TaskID t) <=? 128)%nat
  && (slen (t_PromptDigest t) =? 32)%nat && (o_Kind (t_Owner t) ==s OwnerCC)
  && (0 <? t_OwnershipEpoch t)%Z && (0 <? t_RuntimeGeneration t)%Z
  && among (t_Status t) [ManagedTaskPrepared; ManagedTaskRunning; ManagedTaskReplying;
       ManagedTaskCompleted; ManagedTaskFailed]
  && (0 <=? t_LastEventSeq t)%Z && (0 <=? t_OutputStart t)%Z
  && match t_OutputEnd t with Some e => (t_OutputStart t <=? e)%Z | None => true end.

(** The columns the statement does not name take their defaults. *)
Definition insert_task (t : ManagedTask) : tx unit :=
  _ <-t arg_u64 (t_OwnershipEpoch t);
  _ <-t arg_u64 (t_RuntimeGeneration t);
  _ <-t arg_u64 (t_LastEventSeq t);
  _ <-t arg_u64 (t_OutputStart t);
  let row := mkTask (t_SessionID t) (t_TaskID t) (t_PromptDigest t) (t_Owner t) (t_OwnershipEpoch t)
    (t_RuntimeGeneration t) (t_Status t) (t_LastEventSeq t) 0 (t_OutputStart t) None ""
    (t_CreatedAtMS t) (t_UpdatedAtMS t) in
  let k := (t_SessionID t, t_TaskID t) in
  parent <-t session_exists (t_SessionID t);
  taken <-t read (fun d => d_tasks d !! k);
  _ <-t guard (parent && bool_decide (taken = None) && task_check row) (Constraint "managed_tasks");
  write (fun d => with_tasks (<[k := row]> (d_tasks d)) d).

Definition update_task (k : string * string) (cond : ManagedTask -> bool) (f : ManagedTask -> ManagedTask) : tx nat :=
  row <-t read (fun d => d_tasks d !! k);
  match row with
  | Some t =>
      if negb (cond t) then ret 0 else
      _ <-t guard (task_check (f t)) (Constraint "managed_tasks");
      _ <-t write (fun d => with_tasks (<[k := f t]> (d_tasks d)) d);
      ret 1
  | None => ret 0
  end.

Definition insert_receipt (k : string * string * Z) (r : EventReceipt) : tx unit :=
  _ <-t arg_u64 k.2;
  parent <-t read (fun d => d_tasks d !! k.1);
  taken <-t read (fun d => d_receipts d !! k);
  _ <-t guard (bool_decide (is_Some parent) && bool_decide (taken = None) && (0 <? k.2)%Z
               && (slen (er_Digest r) =? 32)%nat) (Constraint "managed_task_event_receipts");
  write (fun d => with_receipts (<[k := r]> (d_receipts d)) d).

Definition binding_by_channel (h : string) (d : db) : option DiscordBinding :=
  snd <$> head (List.filter (fun kv => b_ChannelHandle kv.2 ==s h) (map_to_list (d_bindings d))).

Definition insert_binding (b : DiscordBinding) : tx unit :=
  parent <-t session_exists (b_SessionID b);
  taken <-t read (fun d => d_bindings d !! b_SessionID b);
  channel <-t read (binding_by_channel (b_ChannelHandle b));
  _ <-t guard (parent && bool_decide (taken = None) && negb (bool_decide (is_Some channel)))
      (Constraint "discord_bindings");
  write (fun d => revise (b_SessionID b) "invalidate" (with_bindings (<[b_SessionID b := b]> (d_bindings d)) d)).

Definition delete_binding (id : string) : tx nat :=
  row <-t read (fun d => d_bindings d !! id);
  match row with
  | Some _ => _ <-t write (drop_binding id); ret 1
  | None => ret 0
  end.

Definition NotificationCategories : list string :=
  ["terminal_attention"; "task_completed"; "task_failed"; "task_cancelled"; "task_timeout";
   "approval_required"; "agent_needs_input"; "unexpected_process_exit"].

(** Insert or update of an activity row, whose key is [(session, category)]. *)
Definition put_activity (k : string * string) (a : ActivityRow) : tx unit :=
  parent <-t session_exists k.1;
  _ <-t guard (parent && among k.2 NotificationCategories && (0 <? a_Sequence a)%Z && (0 <=? a_Generation a)%Z
               && (0 <=? a_Offset a)%Z && (0 <=? a_EventID a)%Z) (Constraint "session_activity");
  write (fun d => with_activity (<[k := a]> (d_activity d)) d).

Definition insert_audit (e : AuditEvent) : tx unit :=
  _ <-t arg_u64 (ae_OwnershipEpoch e);
  _ <-t arg_u64 (ae_RuntimeGeneration e);
  write (fun d => with_audit (d_audit d ++ [e]) d).
