(* ===== verification/TxLogic.v ===== *)
(** * Relations preserved by transactions

    [preserves R m]: whenever the transaction [m] succeeds, the database before and
    after are related by [R].  For a preorder [R] this is closed under the
    combinators of [SessionDB], so it has to be shown only for the statements;
    [preserves_tac] does the rest from the hint database [tx]. *)

From S2P Require Import Prelude GoStrings GoMarshal Session SessionDB.

Create HintDb tx.

Definition preserves {A : Type} (R : relation db) (m : tx A) : Prop :=
  forall d d' a, m d = Ok (d', a) -> R d d'.

Lemma tbind_Ok {A B : Type} (m : tx A) (k : A -> tx B) (d d' : db) (b : B) :
  tbind m k d = Ok (d', b) -> exists d1 a, m d = Ok (d1, a) /\ k a d1 = Ok (d', b).
Proof. unfold tbind. destruct (m d) as [[d1 a]|]; [eauto|discriminate]. Qed.

Lemma guard_Ok (b : bool) (e : store_error) (d d' : db) (u : unit) :
  guard b e d = Ok (d', u) -> b = true /\ d' = d.
Proof. unfold guard, ret, fail. destruct b; [|discriminate]. by intros [= <- _]. Qed.

Lemma lift_Ok {A : Type} (r : result session_error A) (d d' : db) (a : A) :
  lift r d = Ok (d', a) -> r = Ok a /\ d' = d.
Proof. unfold lift, ret, fail. destruct r; [|discriminate]. by intros [= <- <-]. Qed.

(** Run a successful transaction backwards, one statement after the other. *)
Ltac tx_inv H :=
  lazymatch type of H with
  | tbind _ _ _ = Ok _ =>
      let d1 := fresh "d" in let a := fresh "a" in let H1 := fresh "Hm" in
      apply tbind_Ok in H; destruct H as (d1 & a & H1 & H); tx_inv H1; tx_inv H
  | guard _ _ _ = Ok _ => let Hb := fresh "Hb" in apply guard_Ok in H; destruct H as [Hb ->]
  | arg_u64 _ _ = Ok _ => let Hb := fresh "Hb" in apply guard_Ok in H; destruct H as [Hb ->]
  | lift _ _ = Ok _ => let Hb := fresh "Hb" in apply lift_Ok in H; destruct H as [Hb ->]
  | read _ _ = Ok _ => injection H as <- <-
  | write _ _ = Ok _ => injection H as <- <-
  | ret _ _ = Ok _ => injection H as <- <-
  | session_exists _ _ = Ok _ => injection H as <- <-
  | fail _ _ = Ok _ => discriminate H
  | _ => idtac
  end.

Section Preserves.
Context (R : relation db) `{!PreOrder R}.

Lemma preserves_ret {A : Type} (a : A) : preserves R (ret a).
Proof. intros d d' a' [= <- _]. reflexivity. Qed.

Lemma preserves_fail {A : Type} (e : store_error) : preserves R (@fail A e).
Proof. intros d d' a' [=]. Qed.

Lemma preserves_bind {A B : Type} (m : tx A) (k : A -> tx B) :
  preserves R m -> (forall a, preserves R (k a)) -> preserves R (tbind m k).
Proof.
  intros Hm Hk d d' b. unfold tbind. destruct (m d) as [[d1 a]|] eqn:E; [|discriminate].
  intros H. etransitivity; [eapply Hm; exact E|eapply Hk; exact H].
Qed.

Lemma preserves_read {A : Type} (f : db -> A) : preserves R (read f).
Proof. intros d d' a [= <- _]. reflexivity. Qed.

Lemma preserves_write (f : db -> db) : (forall d, R d (f d)) -> preserves R (write f).
Proof. intros H d d' a [= <- _]. apply H. Qed.

Lemma preserves_guard (b : bool) (e : store_error) : preserves R (guard b e).
Proof. unfold guard. destruct b; [apply preserves_ret|apply preserves_fail]. Qed.

Lemma preserves_lift {A : Type} (r : result session_error A) : preserves R (lift r).
Proof. unfold lift. destruct r; [apply preserves_ret|apply preserves_fail]. Qed.

Lemma preserves_arg (z : Z) : preserves R (arg_u64 z).
Proof. apply preserves_guard. Qed.

Lemma preserves_exists (id : string) : preserves R (session_exists id).
Proof. apply preserves_read. Qed.

Lemma preserves_attempt {A : Type} (m : tx A) : preserves R m -> preserves R (attempt m).
Proof.
  intros Hm d d' a. unfold attempt. destruct (m d) as [[d1 b]|] eqn:E.
  - intros [= <- _]. eapply Hm; exact E.
  - intros [= <- _]. reflexivity.
Qed.

Lemma preserves_atomically {A : Type} (m : tx A) (d : db) : preserves R m -> R d (fst (atomically m d)).
Proof.
  intros Hm. unfold atomically. destruct (m d) as [[d1 a]|] eqn:E; simpl; [eapply Hm; exact E|reflexivity].
Qed.

Lemma preserves_committing {A : Type} (m : tx (result store_error A)) (d : db) :
  preserves R m -> R d (fst (committing m d)).
Proof.
  intros Hm. unfold committing. destruct (m d) as [[d1 a]|] eqn:E; simpl; [eapply Hm; exact E|reflexivity].
Qed.

End Preserves.

#[export] Hint Resolve preserves_ret preserves_fail preserves_read preserves_guard preserves_lift
  preserves_arg preserves_exists : tx.

(** Descend through binds and case distinctions; statements are closed by hints. *)
Ltac preserves_tac :=
  cbv zeta;
  repeat first
    [ solve [auto 2 with tx nocore typeclass_instances]
    | lazymatch goal with
      | |- preserves _ (tbind _ _) => apply preserves_bind; [exact _| |intros ?]
      | |- preserves _ (attempt _) => apply preserves_attempt; [exact _|]
      end
    | match goal with |- preserves _ (match ?x with _ => _ end) => destruct x end
    | progress cbv beta zeta ].
