(* ===== verification/SessionStore.v ===== *)
(** * The session store of Ducklion: [internal/ducklion/store]

    Every operation of [sessions.go], [lifecycle.go], [retained_shell.go],
    [managed_tasks.go], [activity.go], [session_revisions.go], [bindings.go] and
    [hook_installation.go], and the idempotent mutations of [sqlite.go].

    Operations whose Go name ends in [Tx] are transactions to be composed; the
    others run one transaction on a database and return the database afterwards
    with the result.  [now] is the reading of the clock.  A [beforeCommit]
    callback is an [option] of a test: [None] is nil, [false] an error. *)

From stdpp Require Import sorting.
From S2P Require Import Prelude GoStrings GoMarshal Session SessionDB.
Local Open Scope go_scope.

(** [ORDER BY] with a boolean order. *)
Definition by_bool {A : Type} (le : A -> A -> bool) : relation A := fun a b => le a b = true.
#[export] Instance by_bool_dec {A : Type} (le : A -> A -> bool) (a b : A) : Decision (by_bool le a b).
Proof. unfold by_bool. apply _. Defined.
Definition sort_by {A : Type} (le : A -> A -> bool) (l : list A) : list A := merge_sort (by_bool le) l.

Section Store.
Context `{UC : UnicodeCase} `{UF : UnicodeFormat}.

(** ** Sessions *)

Definition scanSession (row : option Session) : result store_error Session :=
  match row with
  | None => Err ErrNotFound
  | Some s =>
      match Session_Validate s with
      | Ok _ => Ok s
      | Err e => Err (InvalidPersisted (s_ID s) e)
      end
  end.

Definition GetSession (id : string) (d : db) : result store_error Session := scanSession (d_sessions d !! id).

Definition GetSessionTx (id : string) : tx Session :=
  fun d => match GetSession id d with Ok s => Ok (d, s) | Err e => Err e end.

Definition GetPendingYieldTx (id : string) : tx (option PendingYield) := read (fun d => d_yields d !! id).
Definition GetPendingLifecycleTx (id : string) : tx (option PendingLifecycle) :=
  read (fun d => d_lifecycles d !! id).
Definition InsertPendingYieldTx (y : PendingYield) : tx unit := insert_yield y.
Definition DeletePendingYieldTx (id : string) : tx unit := delete_yield id.

Definition InsertSessionTx (s : Session) : tx unit :=
  _ <-t lift (Session_Validate s);
  insert_session s.

(** The assignments of [UPDATE sessions SET status=?,writer_kind=?,...]. *)
Definition assign_session (v s : Session) : Session :=
  set_UpdatedAt (s_UpdatedAtMS v) (set_AdapterState (s_AdapterState v) (set_TaskState (s_TaskState v)
    (set_Runtime (s_RuntimeGeneration v) (s_RecoveryPublicKey v)
      (set_Owner (s_Writer v) (s_OwnershipEpoch v) (set_Status (s_Status v) s))))).

Definition fenced (epoch generation : Z) (s : Session) : bool :=
  (s_OwnershipEpoch s =? epoch)%Z && (s_RuntimeGeneration s =? generation)%Z.

Definition one_row (n : nat) (e : store_error) : tx unit := guard (n =? 1)%nat e.

Definition UpdateSessionTx (s : Session) (expectedEpoch expectedGeneration : Z) : tx unit :=
  _ <-t lift (Session_Validate s);
  _ <-t arg_u64 (s_OwnershipEpoch s);
  _ <-t arg_u64 (s_RuntimeGeneration s);
  _ <-t arg_u64 expectedEpoch;
  _ <-t arg_u64 expectedGeneration;
  n <-t update_session (s_ID s) (fenced expectedEpoch expectedGeneration) (assign_session s);
  one_row n (Errorf "session fencing conflict").

Definition RenameSessionTx (id handle0 : string) (expectedEpoch expectedGeneration now : Z) : tx unit :=
  handle <-t lift (ValidateHandle handle0);
  _ <-t arg_u64 expectedEpoch;
  _ <-t arg_u64 expectedGeneration;
  n <-t update_session id (fenced expectedEpoch expectedGeneration)
          (fun s => set_UpdatedAt now (set_Handle handle s));
  one_row n (Errorf "session fencing conflict").

Definition DeleteStoppedSessionTx (id : string) (expectedEpoch expectedGeneration : Z) : tx unit :=
  _ <-t arg_u64 expectedEpoch;
  _ <-t arg_u64 expectedGeneration;
  n <-t delete_session id (fun s => (s_Status s ==s StatusStopped) && fenced expectedEpoch expectedGeneration s);
  one_row n (Errorf "stopped session fencing conflict").

Definition InsertAuditTx (e : AuditEvent) : tx unit := insert_audit e.

(** [CASE kind WHEN 'agent' THEN ... ELSE 'unavailable' END]. *)
Definition adapter_for (agentState : string) (s : Session) : string :=
  if s_Kind s ==s KindAgent then agentState else AdapterUnavailable.

Definition MarkRuntimeConnected (id : string) (generation now : Z) : db -> db * result store_error unit :=
  atomically (
  _ <-t arg_u64 generation;
  n <-t update_session id
          (fun s => (s_RuntimeGeneration s =? generation)%Z && among (s_Status s) [StatusRecovering; StatusRunning]
             && ((s_Kind s ==s KindAgent) && among (s_AdapterState s) [AdapterRecovering; AdapterHealthy]
                 || (s_Kind s ==s KindShell) && (s_AdapterState s ==s AdapterUnavailable)))
          (fun s => set_UpdatedAt now (set_AdapterState (adapter_for AdapterHealthy s) (set_Status StatusRunning s)));
  one_row n (Errorf "runtime connection fencing conflict")).

Definition MarkRuntimeDisconnected (id : string) (generation now : Z) : db -> db * result store_error unit :=
  atomically (
  _ <-t arg_u64 generation;
  n <-t update_session id
          (fun s => (s_RuntimeGeneration s =? generation)%Z && (s_Status s ==s StatusRunning)
             && ((s_Kind s ==s KindAgent) && (s_AdapterState s ==s AdapterHealthy)
                 || (s_Kind s ==s KindShell) && (s_AdapterState s ==s AdapterUnavailable)))
          (fun s => set_UpdatedAt now (set_AdapterState (adapter_for AdapterRecovering s) (set_Status StatusRecovering s)));
  guard (n <=? 1)%nat (Errorf "runtime disconnection updated multiple sessions")).

(** One statement updates every running session, in the order of the map. *)
Fixpoint recover_sessions (ids : list string) (now : Z) : tx unit :=
  match ids with
  | [] => ret tt
  | id :: ids' =>
      _ <-t update_session id (fun s => s_Status s ==s StatusRunning)
              (fun s => set_UpdatedAt now (set_AdapterState (adapter_for AdapterRecovering s) (set_Status StatusRecovering s)));
      recover_sessions ids' now
  end.

Definition PrepareRuntimeRecovery (now : Z) : db -> db * result store_error unit :=
  atomically (ids <-t read (fun d => (map_to_list (d_sessions d)).*1); recover_sessions ids now).

Definition task_active (t : ManagedTask) : bool :=
  among (t_Status t) [ManagedTaskPrepared; ManagedTaskRunning; ManagedTaskReplying].

Definition set_task_failed (category : string) (now : Z) (t : ManagedTask) : ManagedTask :=
  mkTask (t_SessionID t) (t_TaskID t) (t_PromptDigest t) (t_Owner t) (t_OwnershipEpoch t)
    (t_RuntimeGeneration t) ManagedTaskFailed (t_LastEventSeq t) (t_AckedEventSeq t) (t_OutputStart t)
    (t_OutputEnd t) category (t_CreatedAtMS t) now.

(** [UPDATE managed_tasks SET status='failed',error_category='runtime_exit' ...]. *)
Definition fail_tasks (id : string) (generation now : Z) (d : db) : db :=
  with_tasks ((fun t => if (t_SessionID t ==s id) && (t_RuntimeGeneration t =? generation)%Z && task_active t
                        then set_task_failed "runtime_exit" now t else t) <$> d_tasks d) d.

Definition is_stale_epoch (e : session_error) : bool := bool_decide (e = ErrStaleEpoch).

(** [session.ApplyPendingYield], a stale epoch being tolerated. *)
Definition apply_yield (s : Session) (pending : option PendingYield) : result session_error Session :=
  match pending with
  | None => Ok s
  | Some y =>
      match ApplyPendingYield s y with
      | Ok (_, s') => Ok s'
      | Err e => if is_stale_epoch e then Ok s else Err e
      end
  end.

Definition exited (s : Session) (success : bool) (reason : string) (now : Z) : Session :=
  set_UpdatedAt now (set_Exit (Some success) reason
    (set_AdapterState (adapter_for AdapterUnhealthy s) (set_Status StatusStopped s))).

Definition MarkRuntimeExited (id : string) (generation : Z) (success : bool) (reason0 : string) (now : Z)
  : db -> db * result store_error unit :=
  let reason := str_take 1024 reason0 in
  atomically (
  found <-t attempt (GetSessionTx id);
  match found with
  | Err _ => fail (Errorf "runtime stop fencing conflict")
  | Ok s0 =>
    _ <-t guard ((s_RuntimeGeneration s0 =? generation)%Z && among (s_Status s0) [StatusRunning; StatusRecovering])
            (Errorf "runtime stop fencing conflict");
    pending <-t GetPendingYieldTx id;
    s1 <-t lift (apply_yield (set_TaskState TaskIdle s0) pending);
    let s := exited s1 success reason now in
    _ <-t arg_u64 (s_OwnershipEpoch s);
    _ <-t arg_u64 generation;
    n <-t update_session id
            (fun r => fenced (s_OwnershipEpoch s0) generation r && among (s_Status r) [StatusRunning; StatusRecovering])
            (fun r => set_UpdatedAt now (set_Exit (Some success) reason (set_AdapterState (s_AdapterState s)
               (set_TaskState (s_TaskState s) (set_Owner (s_Writer s) (s_OwnershipEpoch s) (set_Status (s_Status s) r))))));
    _ <-t one_row n (Errorf "runtime stop fencing conflict");
    _ <-t write (fail_tasks id generation now);
    _ <-t (if bool_decide (is_Some pending) then DeletePendingYieldTx id else ret tt);
    lifecycle <-t GetPendingLifecycleTx id;
    match lifecycle with
    | None => ret tt
    | Some p =>
        changed <-t update_lifecycle id
          (fun q => (p_RequestID q ==s p_RequestID p) && (p_SourceGeneration q =? generation)%Z
                    && among (p_Phase q) [LifecycleWaiting; LifecycleStopping]) LifecycleRuntimeStopped now "";
        guard ((changed =? 1)%nat || among (p_Phase p) [LifecycleRuntimeStopped; LifecycleLaunching; LifecycleCleaning])
          (Errorf "lifecycle runtime-exit fencing conflict")
    end
  end).

Definition MarkRuntimeStopped (id : string) (generation now : Z) : db -> db * result store_error unit :=
  MarkRuntimeExited id generation false "runtime launch or stop failed" now.

(** ** Lifecycle operations *)

Definition Outcome_Matches (o : LifecycleOutcome) (p : PendingLifecycle) : bool :=
  (lo_SessionID o ==s p_SessionID p) && (lo_Operation o ==s p_Operation p) && (lo_Mode o ==s p_Mode p)
  && bool_decide (lo_Requester o = p_Requester p) && (lo_SourceEpoch o =? p_SourceEpoch p)%Z
  && (lo_SourceGeneration o =? p_SourceGeneration p)%Z && (lo_RequestID o ==s p_RequestID p).

Definition owner_matches (s : Session) (requester : Owner) : bool :=
  (s_Kind s ==s KindShell) && (o_Kind requester ==s OwnerTerminal) || writer_is s requester.

Definition Lifecycle_Matches (p : PendingLifecycle) (s : Session) : bool :=
  owner_matches s (p_Requester p) && (s_OwnershipEpoch s =? p_SourceEpoch p)%Z
  && (s_RuntimeGeneration s =? p_SourceGeneration p)%Z.

Definition lifecycle_validate (p : PendingLifecycle) : tx unit :=
  _ <-t guard (among (p_Operation p) [LifecycleEnd; LifecycleDestroy; LifecycleRestart])
          (Errorf "invalid lifecycle operation");
  _ <-t guard (among (p_Mode p) [LifecycleImmediate; LifecycleWait; LifecycleForce])
          (Errorf "invalid lifecycle mode");
  guard (is_Ok (Owner_Validate (p_Requester p)) && negb (p_SourceEpoch p =? 0)%Z
         && negb (p_SourceGeneration p =? 0)%Z && (p_RequestID p !=s "")) (Errorf "invalid lifecycle request").

Definition validLifecyclePhase (phase : string) : bool :=
  among phase [LifecycleWaiting; LifecycleStopping; LifecycleRuntimeStopped; LifecycleLaunching;
    LifecycleCleaning; LifecycleCompleted].

(** The same request: every field that identifies it. *)
Definition same_request (p q : PendingLifecycle) : bool :=
  (p_Operation p ==s p_Operation q) && (p_Mode p ==s p_Mode q) && bool_decide (p_Requester p = p_Requester q)
  && (p_SourceEpoch p =? p_SourceEpoch q)%Z && (p_SourceGeneration p =? p_SourceGeneration q)%Z
  && (p_RequestID p ==s p_RequestID q).

Definition reserved (p : PendingLifecycle) (now : Z) : PendingLifecycle :=
  mkLifecycle (p_SessionID p) (p_Operation p) (p_Mode p) (p_Requester p) (p_SourceEpoch p)
    (p_SourceGeneration p) (p_RequestID p) LifecycleWaiting now now (p_Attempt p) (p_LastError p).

(** The session and whether the same request was already reserved. *)
Definition ReserveLifecycle (pending : PendingLifecycle) (now : Z) : db -> db * result store_error (Session * bool) :=
  let id := p_SessionID pending in
  committing (
  _ <-t lifecycle_validate pending;
  s <-t GetSessionTx id;
  existing <-t GetPendingLifecycleTx id;
  match existing with
  | Some e =>
      if negb (Lifecycle_Matches e s) then
        _ <-t delete_lifecycle id (fun _ => true);
        ret (Err (if negb (s_RuntimeGeneration s =? p_SourceGeneration e)%Z then ModelError ErrStaleGeneration
                  else if negb (s_OwnershipEpoch s =? p_SourceEpoch e)%Z then ModelError ErrStaleEpoch
                  else ModelError ErrNotOwner))
      else if same_request e pending then ret (Ok (s, true))
      else fail (ModelError ErrLifecyclePending)
  | None =>
      _ <-t guard (among (s_Kind s) [KindAgent; KindShell]
                   && negb ((p_Operation pending ==s LifecycleEnd) && (s_Status s !=s StatusRunning)))
              (ModelError ErrSessionNotRunning);
      _ <-t guard (s_RuntimeGeneration s =? p_SourceGeneration pending)%Z (ModelError ErrStaleGeneration);
      _ <-t guard (s_OwnershipEpoch s =? p_SourceEpoch pending)%Z (ModelError ErrStaleEpoch);
      _ <-t guard (owner_matches s (p_Requester pending)) (ModelError ErrNotOwner);
      yield <-t GetPendingYieldTx id;
      _ <-t guard (bool_decide (yield = None)) (ModelError ErrPendingYield);
      _ <-t guard (negb ((p_Mode pending ==s LifecycleImmediate) && (s_TaskState s !=s TaskIdle)))
              (ModelError ErrTaskActive);
      _ <-t insert_lifecycle (reserved pending now);
      ret (Ok (s, false))
  end).

Definition GetPendingLifecycle (id : string) (d : db) : option PendingLifecycle := d_lifecycles d !! id.
Definition GetLifecycleOutcome (requester : Owner) (requestID : string) (d : db) : option LifecycleOutcome :=
  d_outcomes d !! outcome_key requester requestID.

Definition CompleteLifecycle (pending : PendingLifecycle) (now : Z) : db -> db * result store_error unit :=
  atomically (
  _ <-t lifecycle_validate pending;
  inserted <-t insert_outcome pending now "";
  _ <-t (if (inserted =? 0)%nat then
           existing <-t read (GetLifecycleOutcome (p_Requester pending) (p_RequestID pending));
           match existing with
           | None => fail (Errorf "sql: no rows in result set")
           | Some o => guard (Outcome_Matches o pending) ErrIdempotencyConflict
           end
         else ret tt);
  _ <-t delete_lifecycle (p_SessionID pending) (fun q => p_RequestID q ==s p_RequestID pending);
  ret tt).

Definition retain (s : Session) (generation now : Z) (success : bool) (reason : string) : tx unit :=
  insert_retained (mkRetained (s_ID s) generation (s_Handle s) now success reason).

Definition FailLifecycleRestart (pending : PendingLifecycle) (failure0 : string) (now : Z)
  : db -> db * result store_error unit :=
  let id := p_SessionID pending in
  let failure := str_take 1024 failure0 in
  atomically (
  _ <-t guard ((p_Operation pending ==s LifecycleRestart) && (TrimSpace failure0 !=s ""))
          (Errorf "invalid failed lifecycle restart");
  current <-t GetPendingLifecycleTx id;
  match current with
  | None => fail (Errorf "restart failure fencing conflict")
  | Some c =>
    _ <-t guard (same_request c pending && among (p_Phase c) [LifecycleLaunching; LifecycleRuntimeStopped])
            (Errorf "restart failure fencing conflict");
    found <-t attempt (GetSessionTx id);
    match found with
    | Err _ =>
        fail (Errorf (if p_Phase c ==s LifecycleRuntimeStopped
                      then "restart preparation failure session fencing conflict"
                      else "restart failure session fencing conflict"))
    | Ok s =>
      _ <-t guard (negb (p_Phase c ==s LifecycleRuntimeStopped)
                   || (s_Kind s ==s KindShell) && (s_Status s ==s StatusStopped))
              (Errorf "restart preparation failure session fencing conflict");
      let expectedGeneration := if p_Phase c ==s LifecycleRuntimeStopped then p_SourceGeneration pending
                                else u64 (p_SourceGeneration pending + 1) in
      _ <-t guard ((s_RuntimeGeneration s =? expectedGeneration)%Z && (s_OwnershipEpoch s =? p_SourceEpoch pending)%Z
                   && among (s_Status s) [StatusRecovering; StatusStopped])
              (Errorf "restart failure session fencing conflict");
      _ <-t (if s_Status s ==s StatusRecovering then
               _ <-t arg_u64 (p_SourceEpoch pending);
               _ <-t arg_u64 (u64 (p_SourceGeneration pending + 1));
               n <-t update_session id
                 (fun r => (s_Status r ==s StatusRecovering) && fenced (p_SourceEpoch pending) (u64 (p_SourceGeneration pending + 1)) r)
                 (fun r => set_UpdatedAt now (set_Exit (Some false) failure
                    (set_AdapterState (adapter_for AdapterUnhealthy s) (set_TaskState TaskIdle (set_Status StatusStopped r)))));
               one_row n (Errorf "restart failure session fencing conflict")
             else ret tt);
      inserted <-t insert_outcome pending now failure;
      _ <-t one_row inserted (Errorf "restart failure receipt conflict");
      _ <-t delete_lifecycle id (fun q => p_RequestID q ==s p_RequestID pending);
      if s_Kind s ==s KindShell then
        _ <-t retain s (p_SourceGeneration pending) now false failure;
        _ <-t (if negb (s_RuntimeGeneration s =? p_SourceGeneration pending)%Z
               then retain s (s_RuntimeGeneration s) now false failure else ret tt);
        _ <-t delete_session (s_ID s) (fun _ => true);
        ret tt
      else ret tt
    end
  end).

Definition BeginLifecycleRestart (pending : PendingLifecycle) (publicKey : string) (now : Z) (d : db)
  : db * result store_error Session :=
  let id := p_SessionID pending in
  let '(d', r) := atomically (
    _ <-t guard ((p_Operation pending ==s LifecycleRestart) && (slen publicKey =? 32)%nat)
            (Errorf "invalid lifecycle restart");
    s <-t GetSessionTx id;
    current <-t GetPendingLifecycleTx id;
    match current with
    | None => fail (Errorf "restart lifecycle fencing conflict")
    | Some c =>
      _ <-t guard ((p_RequestID c ==s p_RequestID pending) && (p_Phase c ==s LifecycleRuntimeStopped)
                   && (s_Status s ==s StatusStopped) && fenced (p_SourceEpoch pending) (p_SourceGeneration pending) s)
              (Errorf "restart lifecycle fencing conflict");
      _ <-t arg_u64 (p_SourceEpoch pending);
      _ <-t arg_u64 (p_SourceGeneration pending);
      n <-t update_session (s_ID s)
              (fun r => (s_Status r ==s StatusStopped) && fenced (p_SourceEpoch pending) (p_SourceGeneration pending) r)
              (fun r => set_UpdatedAt now (set_Exit None "" (set_AdapterState (adapter_for AdapterRecovering s)
                 (set_TaskState TaskIdle (set_Runtime (s_RuntimeGeneration r + 1) publicKey (set_Status StatusRecovering r))))));
      _ <-t one_row n (Errorf "restart session fencing conflict");
      m <-t update_lifecycle id (fun q => (p_RequestID q ==s p_RequestID pending) && (p_Phase q ==s LifecycleRuntimeStopped))
              LifecycleLaunching now "";
      one_row m (Errorf "restart phase fencing conflict")
    end) d in
  match r with
  | Err e => (d', Err e)
  | Ok _ => (d', GetSession id d')
  end.

Definition ListPendingLifecycles (d : db) : list PendingLifecycle :=
  List.filter (fun p => p_Phase p !=s LifecycleCompleted)
    (snd <$> sort_by (fun a b => String.leb a.1 b.1) (map_to_list (d_lifecycles d))).

Definition CompareAndSwapLifecyclePhase (id requestID from to lastError : string) (now : Z)
  : db -> db * result store_error PendingLifecycle :=
  atomically (
  _ <-t guard ((requestID !=s "") && validLifecyclePhase from && validLifecyclePhase to && (slen lastError <=? 1024)%nat)
          (Errorf "invalid lifecycle phase transition");
  n <-t update_lifecycle id (fun q => (p_RequestID q ==s requestID) && (p_Phase q ==s from)) to now lastError;
  _ <-t one_row n ErrNotFound;
  pending <-t GetPendingLifecycleTx id;
  match pending with Some p => ret p | None => fail ErrNotFound end).

Definition CancelWaitingLifecycle (id requestID : string) (requester : Owner) (epoch generation : Z)
  : db -> db * result store_error bool :=
  atomically (
  _ <-t guard ((requestID !=s "") && is_Ok (Owner_Validate requester) && negb (epoch =? 0)%Z && negb (generation =? 0)%Z)
          (Errorf "invalid lifecycle cancellation");
  _ <-t arg_u64 epoch;
  _ <-t arg_u64 generation;
  n <-t delete_lifecycle id (fun q => (p_RequestID q ==s requestID) && bool_decide (p_Requester q = requester)
          && (p_SourceEpoch q =? epoch)%Z && (p_SourceGeneration q =? generation)%Z && (p_Phase q ==s LifecycleWaiting));
  ret (n =? 1)%nat).

Definition DeletePendingLifecycle (id : string) : db -> db * result store_error unit :=
  atomically (_ <-t delete_lifecycle id (fun _ => true); ret tt).

Definition DeletePendingLifecycleRequest (id requestID phase : string) : db -> db * result store_error bool :=
  atomically (
  _ <-t guard ((requestID !=s "") && validLifecyclePhase phase) (Errorf "invalid lifecycle deletion");
  n <-t delete_lifecycle id (fun q => (p_RequestID q ==s requestID) && (p_Phase q ==s phase));
  ret (n =? 1)%nat).

(** ** Retained shells *)

Definition RetireExitedShell (id : string) (generation : Z) (success : bool) (reason0 : string) (now : Z)
  : db -> db * result store_error bool :=
  let reason := str_take 1024 reason0 in
  atomically (
  _ <-t guard (is_Ok (ParseSessionID id) && negb (generation =? 0)%Z) (Errorf "invalid shell runtime identity");
  found <-t attempt (GetSessionTx id);
  match found with
  | Err ErrNotFound =>
      _ <-t arg_u64 generation;
      kept <-t read (fun d => d_retained d !! (id, generation));
      if bool_decide (is_Some kept) then ret true else fail ErrNotFound
  | Err e => fail e
  | Ok s =>
      _ <-t guard ((s_Kind s ==s KindShell) && (s_RuntimeGeneration s =? generation)%Z
                   && among (s_Status s) [StatusRunning; StatusRecovering]) (Errorf "shell runtime exit fencing conflict");
      pending <-t GetPendingLifecycleTx id;
      if bool_decide (is_Some pending) then ret false else
      _ <-t insert_retained (mkRetained id generation (s_Handle s) now success reason);
      n <-t delete_session id (fun r => (s_Kind r ==s KindShell) && (s_RuntimeGeneration r =? generation)%Z
              && among (s_Status r) [StatusRunning; StatusRecovering]);
      _ <-t one_row n (Errorf "shell runtime exit fencing conflict");
      ret true
  end).

Definition CompleteEndedShell (pending : PendingLifecycle) (now : Z) : db -> db * result store_error unit :=
  let id := p_SessionID pending in
  atomically (
  _ <-t lifecycle_validate pending;
  _ <-t guard (p_Operation pending ==s LifecycleEnd) (Errorf "not a shell end lifecycle");
  current <-t GetPendingLifecycleTx id;
  match current with
  | None =>
      outcome <-t read (GetLifecycleOutcome (p_Requester pending) (p_RequestID pending));
      match outcome with
      | None => fail (Errorf "shell end lifecycle fencing conflict")
      | Some o =>
          _ <-t guard (Outcome_Matches o pending && (lo_Failure o ==s "")) ErrIdempotencyConflict;
          kept <-t read (fun d => d_retained d !! (id, p_SourceGeneration pending));
          guard (bool_decide (is_Some kept)) (Errorf "shell end retained identity missing")
      end
  | Some c =>
      _ <-t guard (same_request c pending && (p_Operation c ==s LifecycleEnd) && (p_Phase c ==s LifecycleRuntimeStopped))
              (Errorf "shell end lifecycle fencing conflict");
      s <-t GetSessionTx id;
      match s_ExitSuccess s with
      | None => fail (Errorf "shell end session fencing conflict")
      | Some success =>
          _ <-t guard ((s_Kind s ==s KindShell) && (s_Status s ==s StatusStopped)
                       && fenced (p_SourceEpoch pending) (p_SourceGeneration pending) s)
                  (Errorf "shell end session fencing conflict");
          _ <-t insert_retained (mkRetained id (p_SourceGeneration pending) (s_Handle s) now success (s_ExitReason s));
          inserted <-t insert_outcome pending now "";
          _ <-t one_row inserted ErrIdempotencyConflict;
          m <-t delete_lifecycle id (fun q => (p_Operation q ==s LifecycleEnd) && (p_RequestID q ==s p_RequestID pending)
                  && (p_SourceEpoch q =? p_SourceEpoch pending)%Z && (p_SourceGeneration q =? p_SourceGeneration pending)%Z
                  && (p_Phase q ==s LifecycleRuntimeStopped));
          _ <-t one_row m (Errorf "shell end lifecycle fencing conflict");
          n <-t delete_session id (fun r => (s_Kind r ==s KindShell) && (s_Status r ==s StatusStopped)
                  && fenced (p_SourceEpoch pending) (p_SourceGeneration pending) r);
          one_row n (Errorf "shell end session fencing conflict")
      end
  end).

Definition GetRetainedShellSession (id : string) (generation : Z) (d : db) : result store_error RetainedShellSession :=
  match d_retained d !! (id, generation) with Some r => Ok r | None => Err ErrNotFound end.

Definition retained_before (a b : RetainedShellSession) : bool :=
  (rs_ExitedAtMS b <? rs_ExitedAtMS a)%Z
  || (rs_ExitedAtMS b =? rs_ExitedAtMS a)%Z
     && (String.ltb (rs_SessionID a) (rs_SessionID b)
         || (rs_SessionID a ==s rs_SessionID b) && (rs_RuntimeGeneration b <=? rs_RuntimeGeneration a)%Z).

Definition ListRetainedShellSessions (limit : Z) (d : db) : result store_error (list RetainedShellSession) :=
  if (limit <? 0)%Z || (512 <? limit)%Z then Err (Errorf "retained shell list limit must be 0..512") else
  let rows := sort_by retained_before (snd <$> map_to_list (d_retained d)) in
  Ok (if (0 <? limit)%Z then take (Z.to_nat limit) rows else rows).

Definition DeleteRetainedShellSession (id : string) (generation : Z) : db -> db * result store_error unit :=
  atomically (
  _ <-t arg_u64 generation;
  write (fun d => with_retained (delete (id, generation) (d_retained d)) d)).

End Store.
