(* ===== verification/SessionSpec.v ===== *)
(** * The session machine: an abstract specification of the store

    What the store promises about one session, as a small state machine.  A
    [view] is what the database holds for one session id: its row, its pending
    yield and its pending lifecycle operation.  [live] lists the changes a session can
    go through while it exists, [vtrans] adds creation and removal.  The
    invariant [good] and the facts on ownership and on the lifecycle barrier are
    proved here, on the machine; [SessionRefine] shows that every operation of
    the store is a transition of it. *)

From S2P Require Import Prelude GoStrings GoMarshal Session SessionDB SessionStore.
Local Open Scope go_scope.

Record view := mkView {
  v_session : option Session;
  v_yield : option PendingYield;
  v_lifecycle : option PendingLifecycle;
}.

Definition view_of (d : db) (id : string) : view :=
  mkView (d_sessions d !! id) (d_yields d !! id) (d_lifecycles d !! id).

Definition absent : view := mkView None None None.

(** The columns no operation changes. *)
Definition same_identity (s s' : Session) : Prop :=
  s_ID s = s_ID s' /\ s_Kind s = s_Kind s' /\ s_AgentType s = s_AgentType s' /\ s_ProjectName s = s_ProjectName s'
  /\ s_CWD s = s_CWD s' /\ s_Shell s = s_Shell s' /\ s_CreatedAtMS s = s_CreatedAtMS s'.

Definition same_fence (s s' : Session) : Prop :=
  s_Writer s = s_Writer s' /\ s_OwnershipEpoch s = s_OwnershipEpoch s'
  /\ s_RuntimeGeneration s = s_RuntimeGeneration s'.

(** What identifies a lifecycle operation. *)
Definition same_operation (p q : PendingLifecycle) : Prop :=
  p_SessionID p = p_SessionID q /\ p_Operation p = p_Operation q /\ p_Mode p = p_Mode q
  /\ p_Requester p = p_Requester q /\ p_SourceEpoch p = p_SourceEpoch q
  /\ p_SourceGeneration p = p_SourceGeneration q /\ p_RequestID p = p_RequestID q
  /\ p_CreatedAtMS p = p_CreatedAtMS q.

Section Spec.
Context `{UC : UnicodeCase} `{UF : UnicodeFormat}.

(** A row the store can read back: valid for [Session.Validate], for the CHECK
    clauses and for the width of the integer columns. *)
Record row_ok (id : string) (s : Session) : Prop := mkRowOk {
  ro_id : s_ID s = id;
  ro_valid : ValidSession s;
  ro_check : session_check s = true;
  ro_epoch : (s_OwnershipEpoch s < 2 ^ 63)%Z;
  ro_generation : (s_RuntimeGeneration s < 2 ^ 63)%Z;
}.

(** Entering [running] is the admission of new work. *)
Definition admission (s s' : Session) (y : option PendingYield) (l : option PendingLifecycle) : Prop :=
  s_TaskState s' = TaskRunning -> s_TaskState s = TaskRunning \/ y = None /\ l = None.

Inductive live (id : string) : view -> view -> Prop :=
| l_work (s s' : Session) y l :
    same_identity s s' -> same_fence s s' -> row_ok id s' -> admission s s' y l ->
    live id (mkView (Some s) y l) (mkView (Some s') y l)
| l_wait (s : Session) (y : PendingYield) :
    s_Kind s = KindAgent -> s_Status s = StatusRunning -> s_TaskState s <> TaskIdle ->
    y_SessionID y = id -> y_SourceEpoch y = s_OwnershipEpoch s ->
    Owner_Validate (y_Requester y) = Ok tt -> s_Writer s <> Some (y_Requester y) ->
    live id (mkView (Some s) None None) (mkView (Some s) (Some y) None)
| l_transfer (s s' : Session) (r : Owner) :
    s_Kind s = KindAgent -> s_Status s = StatusRunning -> s_AdapterState s = AdapterHealthy ->
    s_TaskState s = TaskIdle -> s_TaskState s' = TaskIdle -> s_Writer s <> Some r ->
    same_identity s s' -> s_Writer s' = Some r -> s_OwnershipEpoch s' = (s_OwnershipEpoch s + 1)%Z ->
    s_RuntimeGeneration s' = s_RuntimeGeneration s -> row_ok id s' ->
    live id (mkView (Some s) None None) (mkView (Some s') None None)
| l_apply (s s' : Session) (y : PendingYield) l :
    s_Status s = StatusRunning -> s_AdapterState s = AdapterHealthy -> s_TaskState s' = TaskIdle ->
    same_identity s s' -> y_SourceEpoch y = s_OwnershipEpoch s -> s_Writer s' = Some (y_Requester y) ->
    s_OwnershipEpoch s' = (s_OwnershipEpoch s + 1)%Z ->
    s_RuntimeGeneration s' = s_RuntimeGeneration s -> row_ok id s' ->
    live id (mkView (Some s) (Some y) l) (mkView (Some s') None l)
| l_drop (s : Session) (y : PendingYield) l :
    s_AdapterState s <> AdapterHealthy ->
    live id (mkView (Some s) (Some y) l) (mkView (Some s) None l)
| l_phase (s : Session) y (p p' : PendingLifecycle) :
    same_operation p p' ->
    live id (mkView (Some s) y (Some p)) (mkView (Some s) y (Some p'))
| l_restart (s s' : Session) y (p p' : PendingLifecycle) :
    s_Status s = StatusStopped -> p_Phase p = LifecycleRuntimeStopped ->
    s_Status s' = StatusRecovering -> s_TaskState s' = TaskIdle -> p_Phase p' = LifecycleLaunching ->
    same_identity s s' -> s_Writer s' = s_Writer s -> s_OwnershipEpoch s' = s_OwnershipEpoch s ->
    s_RuntimeGeneration s' = (s_RuntimeGeneration s + 1)%Z -> same_operation p p' -> row_ok id s' ->
    live id (mkView (Some s) y (Some p)) (mkView (Some s') y (Some p')).

(** Raising and lowering the lifecycle barrier. *)
Inductive barrier (id : string) : view -> view -> Prop :=
| b_reserve (s : Session) (p : PendingLifecycle) :
    p_SessionID p = id -> owner_matches s (p_Requester p) = true ->
    p_SourceEpoch p = s_OwnershipEpoch s -> p_SourceGeneration p = s_RuntimeGeneration s ->
    p_Phase p = LifecycleWaiting -> (p_Mode p = LifecycleImmediate -> s_TaskState s = TaskIdle) ->
    (p_Operation p = LifecycleEnd -> s_Status s = StatusRunning) ->
    barrier id (mkView (Some s) None None) (mkView (Some s) None (Some p))
| b_release (s : Session) y (p : PendingLifecycle) :
    barrier id (mkView (Some s) y (Some p)) (mkView (Some s) y None).

(** A session leaves the table when it is stopped, or when it is a shell that no
    lifecycle operation is waiting for. *)
Definition removable (v : view) : Prop :=
  exists s, v_session v = Some s
    /\ (s_Status s = StatusStopped \/ s_Kind s = KindShell /\ v_lifecycle v = None).

(** Everything one operation of the store can do to one session. *)
Inductive vtrans (id : string) : view -> view -> Prop :=
| vt_live v v' : rtc (live id) v v' -> vtrans id v v'
| vt_barrier v v1 v' : rtc (live id) v v1 -> barrier id v1 v' -> vtrans id v v'
| vt_create s : row_ok id s -> vtrans id absent (mkView (Some s) None None)
| vt_remove v v' : rtc (live id) v v' -> removable v' -> vtrans id v absent.

(** ** The invariant *)

Record good_yield (id : string) (s : Session) (y : PendingYield) (l : option PendingLifecycle) : Prop := mkGoodYield {
  gy_id : y_SessionID y = id;
  gy_agent : s_Kind s = KindAgent;
  gy_epoch : y_SourceEpoch y = s_OwnershipEpoch s;
  gy_requester : Owner_Validate (y_Requester y) = Ok tt;
  gy_other : s_Writer s <> Some (y_Requester y);
  gy_no_lifecycle : l = None;
}.

Record good_lifecycle (id : string) (s : Session) (p : PendingLifecycle) : Prop := mkGoodLifecycle {
  gl_id : p_SessionID p = id;
  gl_epoch : p_SourceEpoch p = s_OwnershipEpoch s;
  gl_owner : owner_matches s (p_Requester p) = true;
  gl_generation : (p_SourceGeneration p <= s_RuntimeGeneration s)%Z;
}.

Definition good (id : string) (v : view) : Prop :=
  match v_session v with
  | None => v_yield v = None /\ v_lifecycle v = None
  | Some s => row_ok id s
      /\ (forall y, v_yield v = Some y -> good_yield id s y (v_lifecycle v))
      /\ (forall p, v_lifecycle v = Some p -> good_lifecycle id s p)
  end.

Lemma good_absent (id : string) : good id absent.
Proof. done. Qed.

Lemma owner_matches_same (s s' : Session) (o : Owner) :
  s_Kind s = s_Kind s' -> s_Writer s = s_Writer s' -> owner_matches s' o = owner_matches s o.
Proof. intros Hk Hw. unfold owner_matches, writer_is. by rewrite Hk, Hw. Qed.

Lemma good_live (id : string) (v v' : view) : live id v v' -> good id v -> good id v'.
Proof.
  intros Hl. destruct Hl; unfold good; simpl; intros (Hr & Hy & Hp).
  - destruct H as (? & Hk & ?), H0 as (Hw & He & Hg). split_and!; [done| |].
    + intros y' E. destruct (Hy _ E). split; try congruence.
    + intros p' E. destruct (Hp _ E). split; try congruence; try lia. by rewrite (owner_matches_same s s').
  - split_and!; [done| |done]. intros y' [= <-]. by split.
  - split_and!; done.
  - split_and!; [done|done|]. intros p E. destruct (Hy y eq_refl). congruence.
  - split_and!; [done|done|]. intros p E. exact (Hp p E).
  - split_and!; [done| |].
    + intros y' E. destruct (Hy _ E). discriminate.
    + intros q [= <-]. destruct (Hp p eq_refl), H as (? & ? & ? & Hrq & ? & ? & ? & ?). split; try congruence; lia.
  - destruct H4 as (? & Hk & ?). split_and!; [done| |].
    + intros y' E. destruct (Hy _ E). discriminate.
    + intros q [= <-]. destruct (Hp p eq_refl), H8 as (? & ? & ? & Hrq & ? & ? & ? & ?).
      split; try congruence; try lia. by rewrite <-Hrq, (owner_matches_same s s').
Qed.

Lemma good_barrier (id : string) (v v' : view) : barrier id v v' -> good id v -> good id v'.
Proof.
  destruct 1; unfold good; simpl; intros (Hr & Hy & Hp).
  - split_and!; [done|done|]. intros p' [= <-]. split; try done; lia.
  - split_and!; [done| |done]. intros y' E. destruct (Hy _ E). discriminate.
Qed.

Lemma good_lives (id : string) (v v' : view) : rtc (live id) v v' -> good id v -> good id v'.
Proof. induction 1; eauto using good_live. Qed.

Lemma good_vtrans (id : string) (v v' : view) : vtrans id v v' -> good id v -> good id v'.
Proof.
  destruct 1; intros; [eauto using good_lives|eauto using good_lives, good_barrier| |apply good_absent].
  unfold good; simpl. split_and!; done.
Qed.

(** ** Ownership *)

(** [s'] is a later state of the session [s]: both fences only grow, and the
    writer changes only together with the epoch. *)
Record fenced_after (s s' : Session) : Prop := mkFenced {
  fa_identity : same_identity s s';
  fa_epoch : (s_OwnershipEpoch s <= s_OwnershipEpoch s')%Z;
  fa_generation : (s_RuntimeGeneration s <= s_RuntimeGeneration s')%Z;
  fa_writer : s_Writer s <> s_Writer s' -> (s_OwnershipEpoch s < s_OwnershipEpoch s')%Z;
}.

Lemma fenced_refl (s : Session) : fenced_after s s.
Proof. split; try done; unfold same_identity; auto 10. Qed.

Lemma fenced_trans (s1 s2 s3 : Session) : fenced_after s1 s2 -> fenced_after s2 s3 -> fenced_after s1 s3.
Proof.
  intros [Hi He Hg Hw] [Hi' He' Hg' Hw'].
  split; try lia; [unfold same_identity in *; destruct_and!; split_and!; congruence|].
  intros Hne. destruct (decide (s_Writer s1 = s_Writer s2)) as [Heq|Hd].
  - rewrite Heq in Hne. specialize (Hw' Hne). lia.
  - specialize (Hw Hd). lia.
Qed.

Lemma live_fenced (id : string) (v v' : view) (s s' : Session) :
  live id v v' -> v_session v = Some s -> v_session v' = Some s' -> fenced_after s s'.
Proof.
  intros Hl Hs Hs'. destruct Hl; simpl in *; simplify_eq; try apply fenced_refl.
  - destruct H0 as (Hw & He & Hg). split; try done; lia.
  - split; try done; lia.
  - split; try done; lia.
  - split; try done; lia.
Qed.

Lemma live_session (id : string) (v v' : view) :
  live id v v' -> (exists s, v_session v = Some s) /\ exists s', v_session v' = Some s'.
Proof. destruct 1; simpl; eauto. Qed.

Lemma lives_fenced (id : string) (v v' : view) (s s' : Session) :
  rtc (live id) v v' -> v_session v = Some s -> v_session v' = Some s' -> fenced_after s s'.
Proof.
  intros Hl. revert s. induction Hl as [v|v v1 v' H1 _ IH]; intros s Hs Hs'.
  - simplify_eq. apply fenced_refl.
  - destruct (live_session _ _ _ H1) as [_ [s1 Hs1]].
    eauto using fenced_trans, live_fenced.
Qed.

Lemma barrier_session (id : string) (v v' : view) : barrier id v v' -> v_session v = v_session v'.
Proof. by destruct 1. Qed.

Lemma vtrans_fenced (id : string) (v v' : view) (s s' : Session) :
  vtrans id v v' -> v_session v = Some s -> v_session v' = Some s' -> fenced_after s s'.
Proof.
  destruct 1 as [v v' Hl|v v1 v' Hl Hb| |]; simpl; intros; try discriminate; [eauto using lives_fenced|].
  rewrite <-(barrier_session _ _ _ Hb) in *. eauto using lives_fenced.
Qed.

(** ** The lifecycle barrier *)

(** While an operation is pending, the owner and the epoch stand still, no yield
    waits, and no work is admitted. *)
Record held (s s' : Session) (y : option PendingYield) : Prop := mkHeld {
  h_writer : s_Writer s' = s_Writer s;
  h_epoch : s_OwnershipEpoch s' = s_OwnershipEpoch s;
  h_no_yield : y = None;
  h_no_work : s_TaskState s' = TaskRunning -> s_TaskState s = TaskRunning;
}.

Lemma live_held (id : string) (v v' : view) (s s' : Session) (p : PendingLifecycle) :
  good id v -> live id v v' -> v_lifecycle v = Some p -> v_session v = Some s -> v_session v' = Some s' ->
  held s s' (v_yield v').
Proof.
  intros Hg Hl Hp Hs Hs'. unfold good in Hg. rewrite Hs in Hg. destruct Hg as (_ & Hy & _).
  assert (v_yield v = None) as Hny.
  { destruct (v_yield v) eqn:E; [|done]. destruct (Hy _ eq_refl). congruence. }
  destruct Hl; simpl in *; simplify_eq; try (by split).
  - destruct H0 as (Hw & He & _). split; try done.
    intros Ht. destruct (H2 Ht) as [?|[_ ?]]; [done|discriminate].
  - split; try congruence. intros Ht. by rewrite Ht in H2.
Qed.

Lemma live_pending (id : string) (v v' : view) (p : PendingLifecycle) :
  live id v v' -> v_lifecycle v = Some p -> exists p', v_lifecycle v' = Some p'.
Proof. destruct 1; simpl; intros; simplify_eq; eauto. Qed.

Lemma lives_held (id : string) (v v' : view) (s s' : Session) (p : PendingLifecycle) :
  good id v -> rtc (live id) v v' -> v_lifecycle v = Some p -> v_session v = Some s -> v_session v' = Some s' ->
  held s s' (v_yield v').
Proof.
  intros Hg Hl. revert s p Hg. induction Hl as [v|v v1 v' H1 Hr IH]; intros s p Hg Hp Hs Hs'.
  - simplify_eq. unfold good in Hg. rewrite Hs in Hg. destruct Hg as (_ & Hy & _).
    split; try done. destruct (v_yield v) eqn:E; [|done]. destruct (Hy _ eq_refl). congruence.
  - destruct (live_session _ _ _ H1) as [_ [s1 Hs1]], (live_pending _ _ _ _ H1 Hp) as [p1 Hp1].
    destruct (live_held _ _ _ _ _ _ Hg H1 Hp Hs Hs1) as [Hw He Hy Ht].
    destruct (IH s1 p1 (good_live _ _ _ H1 Hg) Hp1 Hs1 Hs') as [Hw' He' Hy' Ht']. split; try congruence. auto.
Qed.

Lemma vtrans_held (id : string) (v v' : view) (s s' : Session) (p : PendingLifecycle) :
  good id v -> vtrans id v v' -> v_lifecycle v = Some p -> v_session v = Some s -> v_session v' = Some s' ->
  held s s' (v_yield v').
Proof.
  intros Hg Ht Hp Hs Hs'. destruct Ht as [v v' Hl|v v1 v' Hl Hb| |]; simpl in *; try discriminate.
  - eauto using lives_held.
  - rewrite <-(barrier_session _ _ _ Hb) in Hs'. pose proof (lives_held _ _ _ _ _ _ Hg Hl Hp Hs Hs') as H.
    by destruct Hb.
Qed.

End Spec.
