(* ===== verification/TaskStore.v ===== *)
(** * Managed tasks, activity, projections, bindings, hooks and idempotent mutations

    The rest of [internal/ducklion/store]: [managed_tasks.go], [activity.go],
    [session_revisions.go], [bindings.go], [hook_installation.go], and
    [RunMutation] and its readers from [sqlite.go]. *)

From stdpp Require Import sorting.
From S2P Require Import Prelude GoStrings GoMarshal Session SessionDB SessionStore.
Local Open Scope go_scope.

Section Tasks.
Context `{UC : UnicodeCase} `{UF : UnicodeFormat}.

(** ** Discord bindings *)

Definition GetBindingBySessionTx (id : string) : tx DiscordBinding :=
  row <-t read (fun d => d_bindings d !! id);
  match row with Some b => ret b | None => fail ErrNotFound end.

Definition GetBindingByChannelTx (h : string) : tx DiscordBinding :=
  row <-t read (binding_by_channel h);
  match row with Some b => ret b | None => fail ErrNotFound end.

Definition InsertBindingTx (b : DiscordBinding) : tx unit :=
  inserted <-t attempt (insert_binding b);
  match inserted with
  | Ok _ => ret tt
  | Err e =>
      own <-t attempt (GetBindingBySessionTx (b_SessionID b));
      match own with
      | Ok x =>
          if (b_ChannelHandle x ==s b_ChannelHandle b) && (b_ManagementHandle x ==s b_ManagementHandle b)
          then ret tt else fail ErrBindingConflict
      | Err _ =>
          other <-t attempt (GetBindingByChannelTx (b_ChannelHandle b));
          match other with
          | Ok x => if b_SessionID x !=s b_SessionID b then fail ErrBindingConflict else fail e
          | Err _ => fail e
          end
      end
  end.

Definition DeleteBindingTx (id : string) : tx unit :=
  n <-t delete_binding id;
  one_row n ErrNotFound.

(** ** Activity *)

Definition category_validate (category : string) : tx unit :=
  guard (among category NotificationCategories) (Errorf "invalid notification category").

(** [ORDER BY source_runtime_generation DESC,last_source_event_id DESC LIMIT 1]. *)
Definition later (a b : Z * Z) : bool := (b.1 <? a.1)%Z || (b.1 =? a.1)%Z && (b.2 <? a.2)%Z.
Definition pick_later (best : option (Z * Z)) (x : Z * Z) : option (Z * Z) :=
  match best with
  | None => Some x
  | Some b => if later x b then Some x else best
  end.
Definition session_events (id : string) (d : db) : list (Z * Z) :=
  map (fun kv => (a_Generation kv.2, a_EventID kv.2))
    (List.filter (fun kv => (kv.1.1 ==s id) && (0 <? a_EventID kv.2)%Z) (map_to_list (d_activity d))).
Definition last_session_event (id : string) (d : db) : option (Z * Z) :=
  fold_left pick_later (session_events id d) None.

Definition verify_hook (source : string) (d : db) : db :=
  with_hooks (alter (fun h => if hi_Installed h then mkHook (hi_Epoch h) true (hi_Epoch h) else h) source (d_hooks d)) d.

Definition put_callback (source : string) (c : HookCallback) : tx unit :=
  _ <-t guard (among source ["codex"; "claude"] && (sql_length (hc_SessionID c) =? 6)%nat
               && (0 <? hc_RuntimeGeneration c)%Z && (0 <? hc_LastEventID c)%Z && (0 <? hc_UpdatedAtMS c)%Z)
          (Constraint "host_hook_callbacks");
  write (fun d => with_callbacks (<[source := c]> (d_callbacks d)) d).

(** The event is not after the last one seen: [g < g'] or [g = g'] and [x <= x']. *)
Definition not_after (g x g' x' : Z) : bool := (g <? g')%Z || (g =? g')%Z && (x <=? x')%Z.

(** [window] in nanoseconds; the sequence and whether it advanced. *)
Definition recordActivityBody (sessionID category : string) (window : Z) (generation offset eventID : Z)
    (source : string) (fenceSource fenceEvent : bool) (now : Z) : tx (Z * bool) :=
  let k := (sessionID, category) in
  _ <-t lift (ParseSessionID sessionID);
  _ <-t category_validate category;
  exists_ <-t session_exists sessionID;
  _ <-t guard exists_ ErrNotFound;
  row <-t read (fun d => d_activity d !! k);
  last <-t read (last_session_event sessionID);
  let sequence := match row with Some a => a_Sequence a | None => 0%Z end in
  let lastGeneration := match row with Some a => a_Generation a | None => 0%Z end in
  if fenceEvent && match last with Some (g, e) => not_after generation eventID g e | None => false end
  then ret (sequence, false) else
  if match row with
     | Some a => fenceSource && not_after generation offset (a_Generation a) (a_Offset a)
                 || fenceEvent && not_after generation eventID (a_Generation a) (a_EventID a)
     | None => false
     end
  then ret (sequence, false) else
  let generationChanged := (fenceSource || fenceEvent) && (lastGeneration <? generation)%Z in
  if match row with
     | Some a => negb generationChanged && (0 <? window)%Z && (now - a_UpdatedAtMS a <? window / 1000000)%Z
     | None => false
     end
  then
    match row with
    | Some a =>
        _ <-t (if fenceSource then
                 _ <-t arg_u64 generation;
                 _ <-t arg_u64 offset;
                 put_activity k (mkActivity (a_Sequence a) generation offset (a_EventID a) (a_UpdatedAtMS a))
               else ret tt);
        ret (sequence, false)
    | None => ret (sequence, false)
    end
  else
    let next := u64 (sequence + 1) in
    _ <-t arg_u64 next;
    _ <-t arg_u64 generation;
    _ <-t arg_u64 offset;
    _ <-t arg_u64 eventID;
    _ <-t put_activity k (mkActivity next generation offset eventID now);
    _ <-t write (add_event sessionID "invalidate" category next);
    _ <-t (if source !=s "" then
             _ <-t write (verify_hook source);
             put_callback source (mkCallback sessionID generation eventID now)
           else ret tt);
    _ <-t write prune_journal;
    ret (next, true).

Definition recordActivity (sessionID category : string) (window : Z) (generation offset eventID : Z)
    (source : string) (fenceSource fenceEvent : bool) (now : Z) : db -> db * result store_error (Z * bool) :=
  atomically (recordActivityBody sessionID category window generation offset eventID source fenceSource fenceEvent now).

Definition RecordActivity (sessionID category : string) (window now : Z) : db -> db * result store_error (Z * bool) :=
  recordActivity sessionID category window 0 0 0 "" false false now.

Definition RecordActivityAtOffset (sessionID category : string) (window generation offset now : Z) (d : db)
  : db * result store_error (Z * bool) :=
  if (generation =? 0)%Z || (offset =? 0)%Z
  then (d, Err (Errorf "activity runtime generation and source offset must be positive"))
  else recordActivity sessionID category window generation offset 0 "" true false now d.

Definition RecordAgentActivityWithSource (sessionID category : string) (generation eventID offset : Z)
    (source : string) (now : Z) (d : db) : db * result store_error (Z * bool) :=
  if (generation =? 0)%Z || (eventID =? 0)%Z
  then (d, Err (Errorf "agent activity runtime generation and event id must be positive"))
  else if (source !=s "") && (source !=s "codex") && (source !=s "claude")
  then (d, Err (Errorf "unsupported agent hook callback source"))
  else recordActivity sessionID category 0 generation offset eventID source false true now d.

Definition LastHookCallback (source : string) (d : db) : result store_error (option HookCallback) :=
  if (source !=s "codex") && (source !=s "claude") then Err (Errorf "unsupported agent hook callback source")
  else Ok (d_callbacks d !! source).

Definition recordActivityTx (sessionID category : string) (now : Z) : tx Z :=
  _ <-t category_validate category;
  row <-t read (fun d => d_activity d !! (sessionID, category));
  let next := match row with Some a => u64 (a_Sequence a + 1) | None => 1%Z end in
  _ <-t arg_u64 next;
  _ <-t put_activity (sessionID, category)
          match row with
          | Some a => mkActivity next (a_Generation a) (a_Offset a) (a_EventID a) now
          | None => mkActivity next 0 0 0 now
          end;
  _ <-t write (add_event sessionID "invalidate" category next);
  _ <-t write prune_journal;
  ret next.

(** ** Hook installations *)

Definition InvalidateHookInstallation (source : string) : db -> db * result store_error unit :=
  atomically (
  _ <-t guard (among source ["codex"; "claude"]) (Constraint "host_hook_installations");
  write (fun d => with_hooks (<[source :=
    match d_hooks d !! source with
    | None => mkHook 1 false 0
    | Some h => mkHook (hi_Epoch h + 1) false 0
    end]> (d_hooks d)) d)).

Definition SetHookInstallation (source : string) (installed : bool) : db -> db * result store_error unit :=
  atomically (
  _ <-t guard (among source ["codex"; "claude"]) (Constraint "host_hook_installations");
  write (fun d => with_hooks (<[source :=
    match d_hooks d !! source with
    | None => mkHook 1 installed 0
    | Some h => mkHook (hi_Epoch h) installed (if installed then hi_VerifiedEpoch h else 0%Z)
    end]> (d_hooks d)) d)).

Definition HookActivation (source : string) (d : db) : string :=
  match d_hooks d !! source with
  | Some h => if hi_Installed h && (hi_VerifiedEpoch h =? hi_Epoch h)%Z then "operational" else "pending"
  | None => "pending"
  end.

(** ** Managed tasks *)

Definition task_id_rune (r : N) : bool :=
  in_range 97 122 r || in_range 65 90 r || in_range 48 57 r
  || existsb (N.eqb r) [46; 95; 45; 58; 47]%N.

Definition ValidTaskID (v : string) : bool :=
  negb (slen v =? 0)%nat && (slen v <=? 128)%nat && forallb task_id_rune (runes v).

Definition getManagedTaskTx (sid tid : string) : tx ManagedTask :=
  row <-t read (fun d => d_tasks d !! (sid, tid));
  match row with Some t => ret t | None => fail ErrNotFound end.

Definition GetManagedTask (sid tid : string) (d : db) : result store_error ManagedTask :=
  match d_tasks d !! (sid, tid) with Some t => Ok t | None => Err ErrNotFound end.

Definition validateManagedTaskTx (task : ManagedTask) : tx unit :=
  let id := t_SessionID task in
  s <-t GetSessionTx id;
  _ <-t lift (AuthorizeAgentInput s (t_Owner task) (t_OwnershipEpoch task) (t_RuntimeGeneration task));
  _ <-t guard (s_AdapterState s ==s AdapterHealthy) (ModelError ErrAdapterNotHealthy);
  binding <-t read (fun d => d_bindings d !! id);
  match binding with
  | None => fail ErrNotFound
  | Some b =>
      _ <-t guard (b_ChannelHandle b ==s o_ID (t_Owner task)) (ModelError ErrNotOwner);
      _ <-t guard (s_TaskState s ==s TaskIdle) (ModelError ErrTaskActive);
      lifecycle <-t GetPendingLifecycleTx id;
      _ <-t guard (bool_decide (lifecycle = None)) (ModelError ErrLifecyclePending);
      pending <-t GetPendingYieldTx id;
      guard (bool_decide (pending = None)) (ModelError ErrPendingYield)
  end.

Definition same_task (a b : ManagedTask) : bool :=
  (t_PromptDigest a ==s t_PromptDigest b) && bool_decide (t_Owner a = t_Owner b)
  && (t_OwnershipEpoch a =? t_OwnershipEpoch b)%Z && (t_RuntimeGeneration a =? t_RuntimeGeneration b)%Z.

Definition prepared (task : ManagedTask) (now : Z) : ManagedTask :=
  mkTask (t_SessionID task) (t_TaskID task) (t_PromptDigest task) (t_Owner task) (t_OwnershipEpoch task)
    (t_RuntimeGeneration task) ManagedTaskPrepared (t_LastEventSeq task) (t_AckedEventSeq task)
    (t_OutputStart task) (t_OutputEnd task) (t_ErrorCategory task)
    (if (t_CreatedAtMS task =? 0)%Z then now else t_CreatedAtMS task) now.

(** The task, and whether it was already there. *)
Definition PrepareManagedTask (task0 : ManagedTask) (now : Z) : db -> db * result store_error (ManagedTask * bool) :=
  let task := prepared task0 now in
  let id := t_SessionID task in
  atomically (
  _ <-t guard ((o_Kind (t_Owner task) ==s OwnerCC) && (o_ID (t_Owner task) !=s "") && ValidTaskID (t_TaskID task)
               && negb (t_OwnershipEpoch task =? 0)%Z && negb (t_RuntimeGeneration task =? 0)%Z)
          (Errorf "invalid managed task metadata");
  found <-t attempt (getManagedTaskTx id (t_TaskID task));
  match found with
  | Ok existing =>
      if same_task existing task then ret (existing, true) else fail ErrIdempotencyConflict
  | Err _ =>
      _ <-t validateManagedTaskTx task;
      _ <-t insert_task task;
      n <-t update_session id
              (fun r => fenced (t_OwnershipEpoch task) (t_RuntimeGeneration task) r && (s_TaskState r ==s TaskIdle))
              (fun r => set_UpdatedAt now (set_TaskState TaskRunning r));
      _ <-t one_row n (ModelError ErrTaskActive);
      ret (task, false)
  end).

Definition ValidateManagedTask (task : ManagedTask) (d : db) : result store_error unit :=
  snd (atomically (
  found <-t attempt (getManagedTaskTx (t_SessionID task) (t_TaskID task));
  match found with
  | Ok existing => guard (same_task existing task) ErrIdempotencyConflict
  | Err _ => validateManagedTaskTx task
  end) d).

Definition FailManagedTask (sid tid category : string) (generation now now' : Z) : db -> db * result store_error unit :=
  atomically (
  _ <-t arg_u64 generation;
  n <-t update_task (sid, tid) (fun t => (t_RuntimeGeneration t =? generation)%Z && (t_Status t ==s ManagedTaskPrepared))
          (set_task_failed category now);
  _ <-t one_row n ErrNotFound;
  m <-t update_session sid (fun r => (s_RuntimeGeneration r =? generation)%Z && (s_TaskState r ==s TaskRunning))
          (fun r => set_UpdatedAt now' (set_TaskState TaskIdle r));
  one_row m ErrNotFound).

Definition set_acked (sequence now : Z) (t : ManagedTask) : ManagedTask :=
  mkTask (t_SessionID t) (t_TaskID t) (t_PromptDigest t) (t_Owner t) (t_OwnershipEpoch t)
    (t_RuntimeGeneration t) (t_Status t) (t_LastEventSeq t)
    (if (t_AckedEventSeq t <? sequence)%Z then sequence else t_AckedEventSeq t) (t_OutputStart t)
    (t_OutputEnd t) (t_ErrorCategory t) (t_CreatedAtMS t) now.

Definition AckManagedTaskEvent (sid tid : string) (sequence : Z) (owner : Owner) (now : Z) (d : db)
  : db * result store_error ManagedTask :=
  let '(d', r) := atomically (
    _ <-t guard (negb (sequence =? 0)%Z && (o_Kind owner ==s OwnerCC) && (o_ID owner !=s ""))
            (Errorf "invalid managed task event acknowledgement");
    _ <-t arg_u64 sequence;
    n <-t update_task (sid, tid) (fun t => bool_decide (t_Owner t = owner) && (sequence <=? t_LastEventSeq t)%Z)
            (set_acked sequence now);
    one_row n ErrNotFound) d in
  match r with
  | Err e => (d', Err e)
  | Ok _ => (d', GetManagedTask sid tid d')
  end.

(** A callback that can refuse the commit. *)
Definition run_hook (beforeCommit : option (Session -> bool)) (s : Session) : tx unit :=
  match beforeCommit with Some f => guard (f s) HookFailed | None => ret tt end.

Definition FinalizeManagedTaskDeliveryWithHook (sid tid : string) (owner : Owner)
    (beforeCommit : option (Session -> bool)) (now : Z) : db -> db * result store_error ManagedTask :=
  atomically (
  found <-t attempt (getManagedTaskTx sid tid);
  match found with
  | Err _ => fail ErrNotFound
  | Ok task =>
    _ <-t guard (bool_decide (t_Owner task = owner) && among (t_Status task) [ManagedTaskCompleted; ManagedTaskFailed]
                 && negb (t_AckedEventSeq task <? t_LastEventSeq task)%Z) ErrNotFound;
    s0 <-t GetSessionTx sid;
    if (s_TaskState s0 ==s TaskIdle) || (s_Status s0 ==s StatusStopped) then ret task else
    _ <-t guard (among (s_TaskState s0) [TaskReplying; TaskRunning]) (ModelError ErrTaskActive);
    pending <-t GetPendingYieldTx sid;
    s1 <-t lift (apply_yield (set_TaskState TaskIdle s0) pending);
    _ <-t (if bool_decide (is_Some pending) then DeletePendingYieldTx sid else ret tt);
    let s := set_UpdatedAt now s1 in
    _ <-t (if negb (s_OwnershipEpoch s =? s_OwnershipEpoch s0)%Z then run_hook beforeCommit s else ret tt);
    _ <-t UpdateSessionTx s (s_OwnershipEpoch s0) (s_RuntimeGeneration s0);
    ret task
  end).

Definition set_task_status (status : string) (now : Z) (t : ManagedTask) : ManagedTask :=
  mkTask (t_SessionID t) (t_TaskID t) (t_PromptDigest t) (t_Owner t) (t_OwnershipEpoch t)
    (t_RuntimeGeneration t) status (t_LastEventSeq t) (t_AckedEventSeq t) (t_OutputStart t)
    (t_OutputEnd t) (t_ErrorCategory t) (t_CreatedAtMS t) now.

Definition MarkManagedTaskRunning (sid tid : string) (generation now : Z) (d : db)
  : db * result store_error ManagedTask :=
  let '(d', r) := atomically (
    _ <-t arg_u64 generation;
    n <-t update_task (sid, tid)
            (fun t => (t_RuntimeGeneration t =? generation)%Z && among (t_Status t) [ManagedTaskPrepared; ManagedTaskRunning])
            (set_task_status ManagedTaskRunning now);
    one_row n ErrNotFound) d in
  match r with
  | Err e => (d', Err e)
  | Ok _ => (d', GetManagedTask sid tid d')
  end.

Record ManagedTaskEvent := mkTaskEvent {
  e_TaskID : string;
  e_Sequence : Z;
  e_Kind : string;
  e_OutputEnd : Z;
  e_ErrorCategory : string;
  e_Digest : string;
  e_NotificationCategory : string;
}.

Definition set_event (status : string) (sequence : Z) (outputEnd : option Z) (category : string) (now : Z)
    (t : ManagedTask) : ManagedTask :=
  mkTask (t_SessionID t) (t_TaskID t) (t_PromptDigest t) (t_Owner t) (t_OwnershipEpoch t)
    (t_RuntimeGeneration t) status sequence (t_AckedEventSeq t) (t_OutputStart t)
    outputEnd category (t_CreatedAtMS t) now.

(** The switch on the kind of the event: the task, the session's task state, and
    whether the event is terminal. *)
Definition event_effect (event : ManagedTaskEvent) (now : Z) (task : ManagedTask) (s : Session)
  : result store_error (ManagedTask * Session * bool) :=
  let seq := e_Sequence event in
  if e_Kind event ==s "progress" then
    Ok (set_event (t_Status task) seq (t_OutputEnd task) (t_ErrorCategory task) now task, s, false)
  else if e_Kind event ==s "replying" then
    Ok (set_event ManagedTaskReplying seq (t_OutputEnd task) (t_ErrorCategory task) now task,
        set_TaskState TaskReplying s, false)
  else if (e_Kind event ==s "completed") || (e_Kind event ==s "failed") then
    if (e_OutputEnd event <? t_OutputStart task)%Z then Err (Errorf "managed task output boundary moved backwards")
    else Ok (set_event (e_Kind event) seq (Some (e_OutputEnd event)) (e_ErrorCategory event) now task,
             set_TaskState TaskReplying s, true)
  else Err (Errorf "invalid managed task event kind").

Definition ApplyManagedTaskEvent (sid : string) (generation : Z) (event : ManagedTaskEvent)
    (beforeCommit : option (Session -> bool)) (now : Z)
  : db -> db * result store_error (ManagedTask * Session) :=
  let k := (sid, e_TaskID event, e_Sequence event) in
  atomically (
  task <-t getManagedTaskTx sid (e_TaskID event);
  _ <-t arg_u64 (e_Sequence event);
  receipt <-t read (fun d => d_receipts d !! k);
  match receipt with
  | Some r =>
      if er_Digest r ==s e_Digest event then s <-t GetSessionTx sid; ret (task, s)
      else fail ErrIdempotencyConflict
  | None =>
      _ <-t guard (t_RuntimeGeneration task =? generation)%Z (ModelError ErrStaleGeneration);
      _ <-t guard (e_Sequence event =? u64 (t_LastEventSeq task + 1))%Z
              (Errorf "managed task event sequence is not contiguous");
      _ <-t guard (among (t_Status task) [ManagedTaskRunning; ManagedTaskReplying]) (ModelError ErrTaskActive);
      s0 <-t GetSessionTx sid;
      match event_effect event now task (set_UpdatedAt now s0) with
      | Err e => fail e
      | Ok (task', s, terminal) =>
          _ <-t (if terminal && negb (s_OwnershipEpoch s =? s_OwnershipEpoch s0)%Z then run_hook beforeCommit s else ret tt);
          _ <-t insert_receipt k (mkReceipt (e_Digest event) (e_Kind event) now);
          _ <-t match t_OutputEnd task' with Some e => arg_u64 e | None => ret tt end;
          _ <-t arg_u64 generation;
          n <-t update_task (sid, t_TaskID task)
                  (fun t => (t_RuntimeGeneration t =? generation)%Z && (t_LastEventSeq t =? e_Sequence event - 1)%Z)
                  (set_event (t_Status task') (t_LastEventSeq task') (t_OutputEnd task') (t_ErrorCategory task') now);
          _ <-t one_row n (Errorf "managed task event fencing conflict");
          _ <-t UpdateSessionTx s (s_OwnershipEpoch s0) generation;
          _ <-t (if e_NotificationCategory event !=s "" then
                   _ <-t recordActivityTx sid (e_NotificationCategory event) now; ret tt
                 else ret tt);
          ret (task', s)
      end
  end).

(** ** Projections *)

Definition InvalidateVisibility (sid : string) (generation : Z) : db -> db * result store_error unit :=
  atomically (
  _ <-t arg_u64 generation;
  row <-t read (fun d => d_sessions d !! sid);
  match row with
  | Some s =>
      _ <-t guard ((s_RuntimeGeneration s =? generation)%Z && (s_Status s ==s StatusRunning)) ErrVisibilityRuntimeChanged;
      _ <-t write (add_event sid "invalidate" "" 0);
      write prune_journal
  | None => fail ErrVisibilityRuntimeChanged
  end).

Definition session_order (a b : Session) : bool :=
  (s_CreatedAtMS a <? s_CreatedAtMS b)%Z
  || (s_CreatedAtMS a =? s_CreatedAtMS b)%Z && String.leb (s_ID a) (s_ID b).

Fixpoint scan_all (rows : list Session) : result store_error (list Session) :=
  match rows with
  | [] => Ok []
  | s :: rows' =>
      v <-! scanSession (Some s);
      vs <-! scan_all rows';
      Ok (v :: vs)
  end.

Definition ListSessions (d : db) : result store_error (list Session) :=
  scan_all (sort_by session_order (snd <$> map_to_list (d_sessions d))).

Record SessionProjection := mkProjection {
  sp_Session : Session;
  sp_ChannelHandle : string;
  sp_ManagementHandle : string;
  sp_ActivitySequences : gmap string Z;
  sp_ActivityUpdatedAtMS : gmap string Z;
}.

(** The entries of one session of the maps [activityForSessionsTx] returns. *)
Definition activity_of (id : string) (f : ActivityRow -> Z) (d : db) : gmap string Z :=
  list_to_map (map (fun kv => (kv.1.2, f kv.2))
    (List.filter (fun kv => kv.1.1 ==s id) (map_to_list (d_activity d)))).

Definition activity_categories_valid (d : db) : bool :=
  forallb (fun kv => among kv.1.2 NotificationCategories) (map_to_list (d_activity d)).

Definition project (d : db) (s : Session) : SessionProjection :=
  let b := d_bindings d !! s_ID s in
  mkProjection s (default "" (b_ChannelHandle <$> b)) (default "" (b_ManagementHandle <$> b))
    (activity_of (s_ID s) a_Sequence d) (activity_of (s_ID s) a_UpdatedAtMS d).

Record SessionRevisionSnapshot := mkSnapshot {
  sn_Revision : Z;
  sn_EarliestRevision : Z;
  sn_Sessions : list SessionProjection;
}.

Definition SessionSnapshot (d : db) : result store_error SessionRevisionSnapshot :=
  sessions <-! ListSessions d;
  if negb (activity_categories_valid d) then Err (Errorf "invalid notification category") else
  Ok (mkSnapshot (default 0%Z (max_revision (d_journal d))) (default 0%Z (min_revision (d_journal d)))
        (map (project d) sessions)).

Definition SessionRevisionsAfter (after : Z) (limit0 : Z) (d : db) : result store_error (list SessionRevision * Z * Z) :=
  let limit := if (limit0 <? 1)%Z || (512 <? limit0)%Z then 256%Z else limit0 in
  if (2 ^ 63 <=? after)%Z then Err DriverUint64 else
  Ok (take (Z.to_nat limit) (List.filter (fun e => (after <? rv_Revision e)%Z) (d_journal d)),
      default 0%Z (min_revision (d_journal d)), default 0%Z (max_revision (d_journal d))).

(** ** Idempotent mutations *)

Record MutationKey := mkKey {
  mk_Principal : string;
  mk_RequestID : string;
  mk_Operation : string;
  mk_SessionID : string;
  mk_Fingerprint : string;
}.

Definition StatusInProgress : string := "in_progress".
Definition StatusCompleted : string := "completed".

Definition mutation_key (key : MutationKey) : string * string := (mk_Principal key, mk_RequestID key).

Definition same_mutation (row : MutationRow) (key : MutationKey) : bool :=
  (m_Operation row ==s mk_Operation key) && (m_SessionID row ==s mk_SessionID key)
  && (m_Fingerprint row ==s mk_Fingerprint key).

(** The response, and whether it was replayed. *)
Definition RunMutation (key : MutationKey) (now : Z) (fn : tx doc) : db -> db * result store_error (doc * bool) :=
  let k := mutation_key key in
  atomically (
  _ <-t guard ((TrimSpace (mk_Principal key) !=s "") && (TrimSpace (mk_RequestID key) !=s "")
               && (TrimSpace (mk_Operation key) !=s ""))
          (Errorf "mutation principal, request id, and operation are required");
  _ <-t guard (slen (mk_Fingerprint key) =? 32)%nat (Constraint "mutation_requests");
  row <-t read (fun d => d_mutations d !! k);
  match row with
  | Some r =>
      _ <-t guard (same_mutation r key) ErrIdempotencyConflict;
      _ <-t guard (m_Status r ==s StatusCompleted) ErrMutationInProgress;
      match m_Response r with
      | Some response => ret (response, true)
      | None => fail (Errorf "unexpected end of JSON input")
      end
  | None =>
      _ <-t write (fun d => with_mutations (<[k := mkMutation (mk_Operation key) (mk_SessionID key)
              (mk_Fingerprint key) StatusInProgress None now None]> (d_mutations d)) d);
      response <-t fn;
      _ <-t write (fun d => with_mutations (alter (fun r => mkMutation (m_Operation r) (m_SessionID r)
              (m_Fingerprint r) StatusCompleted (Some response) (m_CreatedAtMS r) (Some now)) k (d_mutations d)) d);
      ret (response, false)
  end).

Definition ReplayMutation (key : MutationKey) (d : db) : result store_error (option doc) :=
  match d_mutations d !! mutation_key key with
  | None => Ok None
  | Some r =>
      if negb (same_mutation r key) then Err ErrIdempotencyConflict
      else if m_Status r !=s StatusCompleted then Err ErrMutationInProgress
      else Ok (m_Response r)
  end.

Definition ReplayCompletedMutation (principal requestID operation sessionID : string) (d : db)
  : result store_error doc :=
  match d_mutations d !! (principal, requestID) with
  | None => Err ErrNotFound
  | Some r =>
      if negb ((m_Operation r ==s operation) && (m_SessionID r ==s sessionID)) then Err ErrIdempotencyConflict
      else match m_Response r with
           | Some response => if m_Status r ==s StatusCompleted then Ok response else Err ErrMutationInProgress
           | None => Err ErrMutationInProgress
           end
  end.

End Tasks.
