(* ===== verification/SessionService.v ===== *)
(** * The session service of Ducklion: [internal/ducklion/service/service.go]

    Each operation builds the fingerprint of its arguments and runs one idempotent
    mutation on the store.  A refusal by the rules of ownership is an [Outcome]
    with an error and is stored like any other response; an error of the store
    rolls the mutation back.

    [clk 0] is the clock reading of [RunMutation], [clk 1] that of the body and
    [clk 2] that of the audit row.  SHA-256 and the texts that the runtime and SQLite
    give to errors are parameters. *)

From S2P Require Import Prelude GoStrings GoMarshal Session SessionDB SessionStore TaskStore.
Local Open Scope go_scope.

Class ErrorTexts := {
  strconv_Quote : string -> string;
  constraint_text : string -> string;
}.

Module Code.
Definition ErrInvalidArgument : string := "invalid_argument".
Definition ErrNotFound : string := "not_found".
Definition ErrNotOwner : string := "not_owner".
Definition ErrBusy : string := "busy".
Definition ErrTaskActive : string := "task_active".
Definition ErrTaskNotActive : string := "task_not_active".
Definition ErrPendingYield : string := "pending_yield_exists".
Definition ErrStaleEpoch : string := "stale_epoch".
Definition ErrStaleGeneration : string := "stale_generation".
Definition ErrAdapterUnhealthy : string := "adapter_unhealthy".
Definition ErrDraining : string := "draining".
Definition ErrIdempotencyConflict : string := "idempotency_conflict".
End Code.

(** [protocol.Error]. *)
Record ProtocolError := mkProtocolError {
  pe_Code : string;
  pe_Message : string;
  pe_Retryable : bool;
  pe_OwnershipEpoch : option Z;
  pe_RuntimeGeneration : option Z;
}.

Record Outcome := mkOutcome {
  oc_Decision : string;
  oc_SessionID : string;
  oc_Handle : string;
  oc_OwnershipEpoch : Z;
  oc_TaskState : string;
  oc_Writer : option Owner;
  oc_Error : option ProtocolError;
}.

Record BindOutcome := mkBindOutcome { bo_Binding : DiscordBinding; bo_Error : option ProtocolError }.

(** ** Documents *)

Definition owner_doc (o : Owner) : doc :=
  DObj [("kind", DStr (utf8_text (o_Kind o))); ("id", DStr (utf8_text (o_ID o)))].

Definition opt_field {A : Type} (k : string) (f : A -> doc) (x : option A) : list (string * doc) :=
  match x with Some a => [(k, f a)] | None => [] end.

Definition error_doc (e : ProtocolError) : doc :=
  DObj ([("code", DStr (utf8_text (pe_Code e))); ("message", DStr (utf8_text (pe_Message e)));
         ("retryable", DBool (pe_Retryable e))]
        ++ opt_field "ownership_epoch" DNum (pe_OwnershipEpoch e)
        ++ opt_field "runtime_generation" DNum (pe_RuntimeGeneration e)).

Definition outcome_doc (o : Outcome) : doc :=
  DObj (omit_str "decision" (oc_Decision o) ++ omit_str "session_id" (oc_SessionID o)
        ++ omit_str "handle" (oc_Handle o) ++ omit_num "ownership_epoch" (oc_OwnershipEpoch o)
        ++ omit_str "task_state" (oc_TaskState o) ++ opt_field "writer" owner_doc (oc_Writer o)
        ++ opt_field "error" error_doc (oc_Error o)).

Definition binding_doc (b : DiscordBinding) : doc :=
  DObj [("session_id", DStr (utf8_text (b_SessionID b))); ("channel_handle", DStr (utf8_text (b_ChannelHandle b)));
        ("management_handle", DStr (utf8_text (b_ManagementHandle b))); ("created_at_ms", DNum (b_CreatedAtMS b))].

Definition bind_outcome_doc (o : BindOutcome) : doc :=
  DObj (("binding", binding_doc (bo_Binding o)) :: opt_field "error" error_doc (bo_Error o)).

(** Reading a field: absent leaves the zero value, another type is an error. *)
Definition get_str (k : string) (fs : list (string * doc)) : option string :=
  match doc_field k fs with None => Some "" | Some (DStr s) => Some s | Some _ => None end.
Definition get_num (k : string) (fs : list (string * doc)) : option Z :=
  match doc_field k fs with None => Some 0%Z | Some (DNum n) => Some n | Some _ => None end.
Definition get_opt_num (k : string) (fs : list (string * doc)) : option (option Z) :=
  match doc_field k fs with None => Some None | Some (DNum n) => Some (Some n) | Some _ => None end.
Definition get_bool (k : string) (fs : list (string * doc)) : option bool :=
  match doc_field k fs with None => Some false | Some (DBool b) => Some b | Some _ => None end.
Definition get_opt {A : Type} (k : string) (f : doc -> option A) (fs : list (string * doc)) : option (option A) :=
  match doc_field k fs with None => Some None | Some v => a ← f v; Some (Some a) end.

Definition read_owner (v : doc) : option Owner :=
  match v with
  | DObj fs => k ← get_str "kind" fs; i ← get_str "id" fs; Some (mkOwner k i)
  | _ => None
  end.

Definition read_error (v : doc) : option ProtocolError :=
  match v with
  | DObj fs =>
      c ← get_str "code" fs; m ← get_str "message" fs; r ← get_bool "retryable" fs;
      e ← get_opt_num "ownership_epoch" fs; g ← get_opt_num "runtime_generation" fs;
      Some (mkProtocolError c m r e g)
  | _ => None
  end.

Definition read_outcome (v : doc) : option Outcome :=
  match v with
  | DObj fs =>
      dec ← get_str "decision" fs; sid ← get_str "session_id" fs; h ← get_str "handle" fs;
      e ← get_num "ownership_epoch" fs; t ← get_str "task_state" fs;
      w ← get_opt "writer" read_owner fs; err ← get_opt "error" read_error fs;
      Some (mkOutcome dec sid h e t w err)
  | _ => None
  end.

Definition read_binding (v : doc) : option DiscordBinding :=
  match v with
  | DObj fs =>
      s ← get_str "session_id" fs; c ← get_str "channel_handle" fs; m ← get_str "management_handle" fs;
      t ← get_num "created_at_ms" fs; Some (mkBinding s c m t)
  | _ => None
  end.

Definition empty_binding : DiscordBinding := mkBinding "" "" "" 0.

Definition read_bind_outcome (v : doc) : option BindOutcome :=
  match v with
  | DObj fs =>
      b ← get_opt "binding" read_binding fs; err ← get_opt "error" read_error fs;
      Some (mkBindOutcome (default empty_binding b) err)
  | _ => None
  end.

(** [json.Marshal(session)]: the fields have no tags. *)
Definition session_doc (s : Session) : doc :=
  DObj [("ID", DStr (s_ID s)); ("Handle", DStr (s_Handle s)); ("Kind", DStr (s_Kind s));
        ("AgentType", DStr (s_AgentType s)); ("ProjectName", DStr (s_ProjectName s)); ("CWD", DStr (s_CWD s));
        ("Shell", DStr (s_Shell s)); ("Status", DStr (s_Status s));
        ("Writer", match s_Writer s with
                   | Some w => DObj [("kind", DStr (o_Kind w)); ("id", DStr (o_ID w))]
                   | None => DNull
                   end);
        ("OwnershipEpoch", DNum (s_OwnershipEpoch s)); ("RuntimeGeneration", DNum (s_RuntimeGeneration s));
        ("TaskState", DStr (s_TaskState s)); ("AdapterState", DStr (s_AdapterState s));
        ("RecoveryPublicKey", if s_RecoveryPublicKey s ==s "" then DNull else DStr (base64 (s_RecoveryPublicKey s)));
        ("CreatedAtMS", DNum (s_CreatedAtMS s)); ("UpdatedAtMS", DNum (s_UpdatedAtMS s));
        ("ExitSuccess", match s_ExitSuccess s with Some b => DBool b | None => DNull end);
        ("ExitReason", DStr (s_ExitReason s))].

Definition principalFor (o : Owner) : string := o_Kind o +:+ ":" +:+ o_ID o.

Section Service.
Context `{UC : UnicodeCase} `{UF : UnicodeFormat} `{ET : ErrorTexts}.
Variable sha256 : string -> string.

(** ** Errors *)

Definition error_text (e : session_error) : string :=
  match e with
  | ErrNotOwner => "not owner"
  | ErrStaleEpoch => "stale ownership epoch"
  | ErrStaleGeneration => "stale runtime generation"
  | ErrSessionNotRunning => "session is not running"
  | ErrAdapterNotHealthy => "adapter is not healthy"
  | ErrTaskActive => "task is active"
  | ErrPendingYield => "pending yield already exists"
  | ErrLifecyclePending => "session lifecycle operation is pending"
  | ErrYieldUnsupported => "yield is unsupported"
  | SessionIDLength => "session id must contain six Crockford Base32 characters"
  | SessionIDInvalid v => "invalid session id " +:+ strconv_Quote v
  | HandleRequired => "session handle is required"
  | HandleControl => "session handle contains a control character"
  | HandleTooLong => "session handle exceeds 128 Unicode code points"
  | OwnerKindInvalid k => "invalid owner kind " +:+ strconv_Quote k
  | OwnerIDInvalid => "invalid owner id"
  | KindInvalid k => "invalid session kind " +:+ strconv_Quote k
  | ProjectNameInvalid => "invalid project name"
  | StatusInvalid s => "invalid session status " +:+ strconv_Quote s
  | TaskStateInvalid s => "invalid task state " +:+ strconv_Quote s
  | AdapterStateInvalid s => "invalid adapter state " +:+ strconv_Quote s
  | GenerationZero => "runtime generation must be positive"
  | RecoveryKeyInvalid => "invalid recovery public key"
  | AgentIncomplete => "agent session requires agent type and writer"
  | ShellOverfull => "shell session cannot have writer, agent, adapter, or task state"
  end.

Definition store_error_text (e : store_error) : string :=
  match e with
  | ErrNotFound => "not found"
  | ErrIdempotencyConflict => "idempotency conflict"
  | ErrMutationInProgress => "mutation in progress"
  | ErrBindingConflict => "discord binding conflict"
  | ErrVisibilityRuntimeChanged => "session runtime changed before visibility update"
  | ModelError m => error_text m
  | InvalidPersisted id m => "invalid persisted session " +:+ id +:+ ": " +:+ error_text m
  | Errorf t => t
  | Constraint t => constraint_text t
  | DriverUint64 => "uint64 values with high bit set are not supported"
  | HookFailed => ""
  end.

Definition mapError (e : store_error) : string :=
  match e with
  | ModelError ErrNotOwner => Code.ErrNotOwner
  | ModelError ErrStaleEpoch => Code.ErrStaleEpoch
  | ModelError ErrStaleGeneration => Code.ErrStaleGeneration
  | ModelError ErrTaskActive => Code.ErrTaskActive
  | ModelError ErrPendingYield => Code.ErrPendingYield
  | ModelError ErrLifecyclePending => Code.ErrDraining
  | ModelError ErrAdapterNotHealthy => Code.ErrAdapterUnhealthy
  | _ => Code.ErrInvalidArgument
  end.

Definition protocol_error (code message : string) : ProtocolError := mkProtocolError code message false None None.

Definition rejection (code message : string) (s : Session) : Outcome :=
  mkOutcome "" (s_ID s) "" (s_OwnershipEpoch s) "" None
    (Some (mkProtocolError code message false (Some (s_OwnershipEpoch s)) (Some (s_RuntimeGeneration s)))).

Definition audit (principal eventType outcome : string) (s : Session) (now : Z) : tx unit :=
  InsertAuditTx (mkAudit (s_ID s) principal eventType (s_OwnershipEpoch s) (s_RuntimeGeneration s) outcome now).

(** ** Running a mutation *)

Definition Fingerprint (operation sessionID payload : string) : string :=
  sha256 (operation +:+ String "000" (sessionID +:+ String "000" payload)).

Definition mutation (principal requestID operation sessionID : string) (payload : doc) : MutationKey :=
  mkKey principal requestID operation sessionID (Fingerprint operation sessionID (json_text payload)).

(** Run the mutation and read the stored document back. *)
Definition run_and_read {A : Type} (reader : doc -> option A) (key : MutationKey) (now : Z) (fn : tx doc) (d : db)
  : db * result store_error (A * bool) :=
  let '(d', r) := RunMutation key now fn d in
  (d', match r with
       | Err e => Err e
       | Ok (v, replayed) =>
           match reader v with
           | Some a => Ok (a, replayed)
           | None => Err (Errorf "json: cannot unmarshal")
           end
       end).

Definition run_outcome : MutationKey -> Z -> tx doc -> db -> db * result store_error (Outcome * bool) :=
  run_and_read read_outcome.

Definition principal_owner (principal : string) : Owner :=
  mkOwner (if HasPrefix principal "cc:" then OwnerCC else OwnerTerminal)
    (TrimPrefix (TrimPrefix principal "cc:") "terminal:").

Definition reply (o : Outcome) : tx doc := ret (outcome_doc o).

(** The ownership test shared by renaming and destroying. *)
Definition owner_refusal (principal shellMessage : string) (s : Session) : option Outcome :=
  let owner := principal_owner principal in
  if s_Kind s ==s KindShell then
    if o_Kind owner !=s OwnerTerminal then Some (rejection Code.ErrNotOwner shellMessage s) else None
  else if negb (writer_is s owner) then Some (rejection Code.ErrNotOwner "session writer changed" s)
  else None.

(** ** Operations *)

Definition RenameSession (principal requestID sessionID handle0 : string) (expectedEpoch expectedGeneration : Z)
    (clk : nat -> Z) (d : db) : db * result store_error (Outcome * bool) :=
  match ValidateHandle handle0 with
  | Err e => (d, Err (ModelError e))
  | Ok handle =>
    let payload := DObj [("handle", DStr handle); ("ownership_epoch", DNum expectedEpoch);
                         ("runtime_generation", DNum expectedGeneration)] in
    run_outcome (mutation principal requestID "rename_session" sessionID payload) (clk 0) (
      s <-t GetSessionTx sessionID;
      match owner_refusal principal "Discord CC cannot rename shell sessions" s with
      | Some o => reply o
      | None =>
        if negb (s_RuntimeGeneration s =? expectedGeneration)%Z
        then reply (rejection Code.ErrStaleGeneration "runtime generation changed" s)
        else if negb (s_OwnershipEpoch s =? expectedEpoch)%Z
        then reply (rejection Code.ErrStaleEpoch "ownership epoch changed" s)
        else
          _ <-t RenameSessionTx sessionID handle expectedEpoch expectedGeneration (clk 1);
          _ <-t audit principal "rename_session" "ok" (set_Handle handle s) (clk 2);
          reply (mkOutcome "" sessionID handle expectedEpoch "" None None)
      end) d
  end.

Definition UnbindDiscord (principal requestID sessionID : string) (clk : nat -> Z) (d : db)
  : db * result store_error (Outcome * bool) :=
  if negb (HasPrefix principal "cc:") then (d, Err (Errorf "valid CC principal is required")) else
  run_outcome (mutation principal requestID "unbind_discord" sessionID (DObj [("session_id", DStr sessionID)])) (clk 0) (
    b <-t GetBindingBySessionTx sessionID;
    if b_ChannelHandle b !=s TrimPrefix principal "cc:"
    then reply (mkOutcome "" "" "" 0 "" None
                  (Some (protocol_error Code.ErrNotOwner "Discord channel does not own this binding")))
    else
      s <-t GetSessionTx sessionID;
      _ <-t DeleteBindingTx sessionID;
      _ <-t audit principal "unbind_discord" "ok" s (clk 2);
      reply (mkOutcome "" sessionID "" (s_OwnershipEpoch s) "" None None)) d.

Definition DestroyStoppedSession (principal requestID sessionID : string) (expectedEpoch expectedGeneration : Z)
    (clk : nat -> Z) : db -> db * result store_error (Outcome * bool) :=
  let payload := DObj [("ownership_epoch", DNum expectedEpoch); ("runtime_generation", DNum expectedGeneration)] in
  run_outcome (mutation principal requestID "destroy_session" sessionID payload) (clk 0) (
    s <-t GetSessionTx sessionID;
    match owner_refusal principal "Discord CC cannot destroy shell sessions" s with
    | Some o => reply o
    | None =>
      if s_Status s !=s StatusStopped then reply (rejection Code.ErrBusy "session must be stopped before destroy" s)
      else if negb (s_OwnershipEpoch s =? expectedEpoch)%Z
      then reply (rejection Code.ErrStaleEpoch "ownership epoch changed" s)
      else if negb (s_RuntimeGeneration s =? expectedGeneration)%Z
      then reply (rejection Code.ErrStaleGeneration "runtime generation changed" s)
      else
        _ <-t audit principal "destroy_session" "ok" s (clk 2);
        _ <-t DeleteStoppedSessionTx sessionID expectedEpoch expectedGeneration;
        reply (mkOutcome "" sessionID "" expectedEpoch "" None None)
    end).

Definition ReplayDestroyedSession (principal requestID sessionID : string) (d : db) : result store_error Outcome :=
  v <-! ReplayCompletedMutation principal requestID "destroy_session" sessionID d;
  match read_outcome v with
  | None => Err (Errorf "json: cannot unmarshal")
  | Some o =>
      if bool_decide (is_Some (oc_Error o)) || (oc_SessionID o !=s sessionID)
      then Err (Errorf "destroy mutation did not complete successfully") else Ok o
  end.

(** The task and whether it was there, or a protocol error, or an error. *)
Definition AdmitManagedTask (principal : string) (task : ManagedTask) (now : Z) (d : db)
  : db * result store_error (result ProtocolError (ManagedTask * bool)) :=
  if negb ((principal ==s principalFor (t_Owner task)) && (o_Kind (t_Owner task) ==s OwnerCC))
  then (d, Ok (Err (protocol_error Code.ErrNotOwner "task owner does not match authenticated CC")))
  else
  let '(d', r) := PrepareManagedTask task now d in
  (d', match r with
       | Ok v => Ok (Ok v)
       | Err ErrIdempotencyConflict =>
           Ok (Err (protocol_error Code.ErrIdempotencyConflict (store_error_text ErrIdempotencyConflict)))
       | Err ErrNotFound => Ok (Err (protocol_error Code.ErrNotFound "Discord binding or session not found"))
       | Err e => if mapError e !=s Code.ErrInvalidArgument
                  then Ok (Err (protocol_error (mapError e) (store_error_text e))) else Err e
       end).

Definition ValidateTask (task : ManagedTask) (d : db) : option ProtocolError :=
  match ValidateManagedTask task d with
  | Ok _ => None
  | Err e =>
      Some (protocol_error (if bool_decide (e = ErrNotFound) then Code.ErrNotFound else mapError e) (store_error_text e))
  end.

Definition BindDiscord (principal requestID sessionID channelHandle : string) (clk : nat -> Z) (d : db)
  : db * result store_error (BindOutcome * bool) :=
  if negb (HasPrefix principal "cc:") || (TrimSpace channelHandle ==s "") || (128 <? slen channelHandle)%nat
     || str_exists owner_byte channelHandle
  then (d, Err (Errorf "valid CC principal and channel handle are required")) else
  let refuse code message := ret (bind_outcome_doc (mkBindOutcome empty_binding (Some (protocol_error code message)))) in
  run_and_read read_bind_outcome
    (mutation principal requestID "bind_discord" sessionID (DObj [("channel_handle", DStr channelHandle)])) (clk 0) (
    s <-t GetSessionTx sessionID;
    if (s_Kind s !=s KindAgent) || (s_Status s !=s StatusRunning) || (s_AdapterState s !=s AdapterHealthy)
    then refuse Code.ErrAdapterUnhealthy "only a running agent session with a healthy adapter can be bound"
    else
      let b := mkBinding sessionID channelHandle (TrimPrefix principal "cc:") (clk 1) in
      inserted <-t attempt (InsertBindingTx b);
      match inserted with
      | Err ErrBindingConflict => refuse Code.ErrBusy "session or channel is already bound"
      | Err e => fail e
      | Ok _ =>
          _ <-t audit principal "bind_discord" "ok" s (clk 2);
          ret (bind_outcome_doc (mkBindOutcome b None))
      end) d.

Definition CreateSession (principal requestID : string) (s : Session) (clk : nat -> Z) (d : db)
  : db * result store_error (Outcome * bool) :=
  match Session_Validate s with
  | Err e => (d, Err (ModelError e))
  | Ok _ =>
    if (s_Kind s ==s KindAgent)
       && match s_Writer s with Some w => principal !=s principalFor w | None => true end
    then (d, Err (Errorf "initial writer does not match authenticated principal"))
    else if (s_Kind s ==s KindShell) && negb (HasPrefix principal (OwnerTerminal +:+ ":"))
    then (d, Err (Errorf "only a terminal principal may create a shell session"))
    else
    run_outcome (mutation principal requestID "create_session" (s_ID s) (session_doc s)) (clk 0) (
      _ <-t InsertSessionTx s;
      _ <-t audit principal "create_session" "ok" s (clk 2);
      reply (mkOutcome "" (s_ID s) "" (s_OwnershipEpoch s) "" None None)) d
  end.

Definition session_id_doc (id : string) : doc := DObj [("session_id", DStr id)].
Definition read_session_id (v : doc) : option string :=
  match v with DObj fs => get_str "session_id" fs | _ => None end.

(** [CreateSessionIdempotent] of the store, which the daemon creates sessions with:
    the mutation carries no session id, and the stored response is the new id. *)
Definition CreateSessionIdempotent (principal requestID fingerprint : string) (s : Session) (now : Z)
  : db -> db * result store_error (string * bool) :=
  run_and_read read_session_id (mkKey principal requestID "create_session" "" fingerprint) now (
    _ <-t InsertSessionTx s;
    ret (session_id_doc (s_ID s))).

Definition owner_payload (o : Owner) : doc := DObj [("kind", DStr (o_Kind o)); ("id", DStr (o_ID o))].

(** A refusal while a lifecycle operation is pending, or by a task transition. *)
Definition task_refusal (e : ProtocolError) (s : Session) : Outcome :=
  mkOutcome "" (s_ID s) "" (s_OwnershipEpoch s) (s_TaskState s) (s_Writer s)
    (Some (mkProtocolError (pe_Code e) (pe_Message e) (pe_Retryable e)
             (Some (s_OwnershipEpoch s)) (Some (s_RuntimeGeneration s)))).

Definition draining : ProtocolError := protocol_error Code.ErrDraining "a lifecycle drain prevents new work".

Definition RequestYieldBody (principal requestID sessionID : string) (requester : Owner) (wait : bool)
    (expectedEpoch expectedGeneration : Z) (beforeCommit : option (Session -> bool)) (clk : nat -> Z) : tx doc :=
  s <-t GetSessionTx sessionID;
  let refuse o code := _ <-t audit principal "request_yield" code s (clk 2); reply o in
  if negb (s_RuntimeGeneration s =? expectedGeneration)%Z
  then refuse (rejection Code.ErrStaleGeneration "runtime generation changed" s) Code.ErrStaleGeneration
  else if negb (s_OwnershipEpoch s =? expectedEpoch)%Z
  then refuse (rejection Code.ErrStaleEpoch "ownership epoch changed" s) Code.ErrStaleEpoch
  else
  pending <-t GetPendingYieldTx sessionID;
  lifecycle <-t GetPendingLifecycleTx sessionID;
  match lifecycle with
  | Some _ => refuse (task_refusal draining s) Code.ErrDraining
  | None =>
    match RequestYield s requester wait pending with
    | Err e => refuse (rejection (mapError (ModelError e)) (error_text e) s) (mapError (ModelError e))
    | Ok (decision, s', newPending) =>
        s'' <-t match newPending with
                | Some y =>
                    _ <-t InsertPendingYieldTx (mkYield (y_SessionID y) (y_Requester y) (y_SourceEpoch y) requestID (clk 1));
                    ret s'
                | None =>
                    if decision ==s YieldTransferred then
                      let s1 := set_UpdatedAt (clk 1) s' in
                      _ <-t run_hook beforeCommit s1;
                      _ <-t UpdateSessionTx s1 (s_OwnershipEpoch s) (s_RuntimeGeneration s);
                      ret s1
                    else ret s'
                end;
        _ <-t audit principal "request_yield" decision s'' (clk 2);
        reply (mkOutcome decision (s_ID s'') "" (s_OwnershipEpoch s'') "" (s_Writer s'') None)
    end
  end.

Definition RequestYieldWithHook (principal requestID sessionID : string) (requester : Owner) (wait : bool)
    (expectedEpoch expectedGeneration : Z) (beforeCommit : option (Session -> bool)) (clk : nat -> Z) (d : db)
  : db * result store_error (Outcome * bool) :=
  if principal !=s principalFor requester
  then (d, Err (Errorf "yield requester does not match authenticated principal")) else
  let payload := DObj [("requester", owner_payload requester); ("wait", DBool wait);
                       ("ownership_epoch", DNum expectedEpoch); ("runtime_generation", DNum expectedGeneration)] in
  run_outcome (mutation principal requestID "request_yield" sessionID payload) (clk 0)
    (RequestYieldBody principal requestID sessionID requester wait expectedEpoch expectedGeneration beforeCommit clk) d.

(** ** Task transitions *)

(** The session after the transition; on a refusal, the session it left behind. *)
Definition taskTransition : Type := Session -> option PendingYield -> Session * option ProtocolError.

Definition taskBody (principal operation sessionID : string) (transition : taskTransition)
    (beforeCommit : option (Session -> bool)) (clk : nat -> Z) : tx doc :=
  s0 <-t GetSessionTx sessionID;
  pending <-t GetPendingYieldTx sessionID;
  lifecycle <-t GetPendingLifecycleTx sessionID;
  if bool_decide (is_Some lifecycle) && (operation ==s "begin_task") then
    _ <-t audit principal operation (pe_Code draining) s0 (clk 2);
    reply (task_refusal draining s0)
  else
  match transition s0 pending with
  | (s, Some e) =>
      _ <-t audit principal operation (pe_Code e) s (clk 2);
      reply (task_refusal e s)
  | (s1, None) =>
      let s := set_UpdatedAt (clk 1) s1 in
      _ <-t (if negb (s_OwnershipEpoch s =? s_OwnershipEpoch s0)%Z then run_hook beforeCommit s else ret tt);
      _ <-t UpdateSessionTx s (s_OwnershipEpoch s0) (s_RuntimeGeneration s0);
      _ <-t match pending with
            | Some y =>
                if (s_TaskState s ==s TaskIdle)
                   && (negb (s_OwnershipEpoch s =? s_OwnershipEpoch s0)%Z || negb (y_SourceEpoch y =? s_OwnershipEpoch s)%Z)
                then DeletePendingYieldTx sessionID else ret tt
            | None => ret tt
            end;
      _ <-t audit principal operation "ok" s (clk 2);
      reply (mkOutcome "" (s_ID s) "" (s_OwnershipEpoch s) (s_TaskState s) (s_Writer s) None)
  end.

Definition runTaskMutationWithHook (principal requestID operation sessionID : string) (payload : doc)
    (transition : taskTransition) (beforeCommit : option (Session -> bool)) (clk : nat -> Z)
  : db -> db * result store_error (Outcome * bool) :=
  run_outcome (mutation principal requestID operation sessionID payload) (clk 0)
    (taskBody principal operation sessionID transition beforeCommit clk).

Definition model_refusal (e : session_error) : ProtocolError := protocol_error (mapError (ModelError e)) (error_text e).

Definition beginTaskTransition (owner : Owner) (epoch generation : Z) : taskTransition := fun s pending =>
  match AuthorizeAgentInput s owner epoch generation with
  | Err e => (s, Some (model_refusal e))
  | Ok _ =>
      match pending with
      | Some _ => (s, Some (protocol_error Code.ErrDraining "a waiting yield prevents new task admission"))
      | None =>
          if s_TaskState s !=s TaskIdle then (s, Some (protocol_error Code.ErrTaskActive "another task is active"))
          else (set_TaskState TaskRunning s, None)
      end
  end.

Definition task_payload (owner : Owner) (epoch generation : Z) : doc :=
  DObj [("owner", owner_payload owner); ("epoch", DNum epoch); ("generation", DNum generation)].

Definition BeginTask (principal requestID sessionID : string) (owner : Owner) (epoch generation : Z)
    (clk : nat -> Z) (d : db) : db * result store_error (Outcome * bool) :=
  if principal !=s principalFor owner
  then (d, Err (Errorf "task owner does not match authenticated principal")) else
  runTaskMutationWithHook principal requestID "begin_task" sessionID (task_payload owner epoch generation)
    (beginTaskTransition owner epoch generation) None clk d.

(** The guard of the runtime's own mutations. *)
Definition runtimeTransition (generation : Z) (transition : taskTransition) : taskTransition := fun s pending =>
  if negb (s_RuntimeGeneration s =? generation)%Z
  then (s, Some (protocol_error Code.ErrStaleGeneration "runtime generation changed"))
  else transition s pending.

Definition runtimeTaskMutationWithHook (principal requestID operation sessionID : string) (generation : Z)
    (transition : taskTransition) (beforeCommit : option (Session -> bool)) (clk : nat -> Z)
  : db -> db * result store_error (Outcome * bool) :=
  runTaskMutationWithHook principal requestID operation sessionID (DObj [("generation", DNum generation)])
    (runtimeTransition generation transition) beforeCommit clk.

Definition beginReplyTransition : taskTransition := fun s _ =>
  if s_TaskState s !=s TaskRunning then (s, Some (protocol_error Code.ErrTaskNotActive "task is not running"))
  else (set_TaskState TaskReplying s, None).

Definition BeginReply (principal requestID sessionID : string) (generation : Z) (clk : nat -> Z)
  : db -> db * result store_error (Outcome * bool) :=
  runtimeTaskMutationWithHook principal requestID "begin_reply" sessionID generation beginReplyTransition None clk.

Definition completeTransition : taskTransition := fun s pending =>
  if negb (among (s_TaskState s) [TaskReplying; TaskRunning])
  then (s, Some (protocol_error Code.ErrTaskNotActive "task has no active completion"))
  else
  let s1 := set_TaskState TaskIdle s in
  match apply_yield s1 pending with
  | Ok s2 => (s2, None)
  | Err e => (s1, Some (model_refusal e))
  end.

Definition CompleteReplyWithHook (principal requestID sessionID : string) (generation : Z)
    (beforeCommit : option (Session -> bool)) (clk : nat -> Z) : db -> db * result store_error (Outcome * bool) :=
  runtimeTaskMutationWithHook principal requestID "complete_reply" sessionID generation completeTransition beforeCommit clk.

Definition ownerCompleteTransition (owner : Owner) (epoch generation : Z) : taskTransition := fun s pending =>
  match AuthorizeAgentInput s owner epoch generation with
  | Err e => (s, Some (model_refusal e))
  | Ok _ => completeTransition s pending
  end.

Definition CompleteOwnerReplyWithHook (principal requestID sessionID : string) (owner : Owner) (epoch generation : Z)
    (beforeCommit : option (Session -> bool)) (clk : nat -> Z) (d : db) : db * result store_error (Outcome * bool) :=
  if principal !=s principalFor owner
  then (d, Err (Errorf "task owner does not match authenticated principal")) else
  runTaskMutationWithHook principal requestID "complete_reply" sessionID (task_payload owner epoch generation)
    (ownerCompleteTransition owner epoch generation) beforeCommit clk d.

End Service.

(** ** Stored outcomes are read back

    The reader gets the strings as JSON carries them, with invalid bytes replaced. *)

Definition text_owner (o : Owner) : Owner := mkOwner (utf8_text (o_Kind o)) (utf8_text (o_ID o)).
Definition text_error (e : ProtocolError) : ProtocolError :=
  mkProtocolError (utf8_text (pe_Code e)) (utf8_text (pe_Message e)) (pe_Retryable e) (pe_OwnershipEpoch e) (pe_RuntimeGeneration e).
Definition text_outcome (o : Outcome) : Outcome :=
  mkOutcome (utf8_text (oc_Decision o)) (utf8_text (oc_SessionID o)) (utf8_text (oc_Handle o)) (oc_OwnershipEpoch o)
    (utf8_text (oc_TaskState o)) (text_owner <$> oc_Writer o) (text_error <$> oc_Error o).

Lemma omit_str_cases (k v : string) :
  (v = "" /\ omit_str k v = []) \/ omit_str k v = [(k, DStr (utf8_text v))].
Proof. unfold omit_str. destruct (v ==s "") eqn:E; [left|by right]. by apply String.eqb_eq in E. Qed.

Lemma omit_num_cases (k : string) (n : Z) : (n = 0%Z /\ omit_num k n = []) \/ omit_num k n = [(k, DNum n)].
Proof. unfold omit_num. destruct (n =? 0)%Z eqn:E; [left|by right]. by apply Z.eqb_eq in E. Qed.

Lemma read_outcome_doc (o : Outcome) : read_outcome (outcome_doc o) = Some (text_outcome o).
Proof.
  destruct o as [dec sid h e t w err]. unfold outcome_doc, text_outcome. simpl oc_Decision. simpl oc_SessionID.
  simpl oc_Handle. simpl oc_OwnershipEpoch. simpl oc_TaskState. simpl oc_Writer. simpl oc_Error.
  destruct (omit_str_cases "decision" dec) as [[-> ->]| ->], (omit_str_cases "session_id" sid) as [[-> ->]| ->],
    (omit_str_cases "handle" h) as [[-> ->]| ->], (omit_num_cases "ownership_epoch" e) as [[-> ->]| ->],
    (omit_str_cases "task_state" t) as [[-> ->]| ->];
  (destruct w as [w|], err as [[c m r [x|] [y|]]|]; reflexivity).
Qed.
