(* ===== verification/SessionRun.v ===== *)
(** * Operations and executions of the store

    [db_op] lists the operations of the store and of the service with their
    arguments, [run] executes one, and a database is [reachable] when operations
    lead to it from the empty one.  Transactions run one at a time, so any
    interleaving of daemon goroutines is such a sequence.  [Sample] is a concrete
    execution the theorems are applied to. *)

From S2P Require Import Prelude GoStrings GoMarshal Session SessionDB SessionStore TaskStore SessionService.
Local Open Scope go_scope.

Inductive db_op :=
| OpCreateSession (principal request : string) (s : Session) (clk : nat -> Z)
| OpCreateIdempotent (principal request fingerprint : string) (s : Session) (now : Z)
| OpRenameSession (principal request id handle : string) (epoch generation : Z) (clk : nat -> Z)
| OpDestroyStopped (principal request id : string) (epoch generation : Z) (clk : nat -> Z)
| OpBindDiscord (principal request id channel : string) (clk : nat -> Z)
| OpUnbindDiscord (principal request id : string) (clk : nat -> Z)
| OpRequestYield (principal request id : string) (requester : Owner) (wait : bool) (epoch generation : Z)
    (hook : option (Session -> bool)) (clk : nat -> Z)
| OpBeginTask (principal request id : string) (owner : Owner) (epoch generation : Z) (clk : nat -> Z)
| OpBeginReply (principal request id : string) (generation : Z) (clk : nat -> Z)
| OpCompleteReply (principal request id : string) (generation : Z) (hook : option (Session -> bool)) (clk : nat -> Z)
| OpCompleteOwnerReply (principal request id : string) (owner : Owner) (epoch generation : Z)
    (hook : option (Session -> bool)) (clk : nat -> Z)
| OpAdmitTask (principal : string) (task : ManagedTask) (now : Z)
| OpMarkTaskRunning (id task : string) (generation now : Z)
| OpFailTask (id task category : string) (generation now now' : Z)
| OpTaskEvent (id : string) (generation : Z) (event : ManagedTaskEvent) (hook : option (Session -> bool)) (now : Z)
| OpAckEvent (id task : string) (sequence : Z) (owner : Owner) (now : Z)
| OpFinalizeDelivery (id task : string) (owner : Owner) (hook : option (Session -> bool)) (now : Z)
| OpConnected (id : string) (generation now : Z)
| OpDisconnected (id : string) (generation now : Z)
| OpPrepareRecovery (now : Z)
| OpExited (id : string) (generation : Z) (success : bool) (reason : string) (now : Z)
| OpRetireShell (id : string) (generation : Z) (success : bool) (reason : string) (now : Z)
| OpReserve (p : PendingLifecycle) (now : Z)
| OpCompleteLifecycle (p : PendingLifecycle) (now : Z)
| OpFailRestart (p : PendingLifecycle) (failure : string) (now : Z)
| OpBeginRestart (p : PendingLifecycle) (key : string) (now : Z)
| OpPhase (id request from to lastError : string) (now : Z)
| OpCancel (id request : string) (requester : Owner) (epoch generation : Z)
| OpDropLifecycle (id : string)
| OpDropLifecycleRequest (id request phase : string)
| OpCompleteEndedShell (p : PendingLifecycle) (now : Z)
| OpDeleteRetained (id : string) (generation : Z)
| OpActivity (id category : string) (window : Z) (generation offset event : Z) (source : string)
    (fenceSource fenceEvent : bool) (now : Z)
| OpInvalidateVisibility (id : string) (generation : Z)
| OpInvalidateHook (source : string)
| OpSetHook (source : string) (installed : bool).

Section Run.
Context `{UC : UnicodeCase} `{UF : UnicodeFormat} `{ET : ErrorTexts}.
Variable sha256 : string -> string.

Definition run (o : db_op) (d : db) : db :=
  match o with
  | OpCreateSession p r s clk => fst (CreateSession sha256 p r s clk d)
  | OpCreateIdempotent p r f s now => fst (CreateSessionIdempotent p r f s now d)
  | OpRenameSession p r i h e g clk => fst (RenameSession sha256 p r i h e g clk d)
  | OpDestroyStopped p r i e g clk => fst (DestroyStoppedSession sha256 p r i e g clk d)
  | OpBindDiscord p r i c clk => fst (BindDiscord sha256 p r i c clk d)
  | OpUnbindDiscord p r i clk => fst (UnbindDiscord sha256 p r i clk d)
  | OpRequestYield p r i o w e g h clk => fst (RequestYieldWithHook sha256 p r i o w e g h clk d)
  | OpBeginTask p r i o e g clk => fst (BeginTask sha256 p r i o e g clk d)
  | OpBeginReply p r i g clk => fst (BeginReply sha256 p r i g clk d)
  | OpCompleteReply p r i g h clk => fst (CompleteReplyWithHook sha256 p r i g h clk d)
  | OpCompleteOwnerReply p r i o e g h clk => fst (CompleteOwnerReplyWithHook sha256 p r i o e g h clk d)
  | OpAdmitTask p t now => fst (AdmitManagedTask p t now d)
  | OpMarkTaskRunning i t g now => fst (MarkManagedTaskRunning i t g now d)
  | OpFailTask i t c g now now' => fst (FailManagedTask i t c g now now' d)
  | OpTaskEvent i g e h now => fst (ApplyManagedTaskEvent i g e h now d)
  | OpAckEvent i t n o now => fst (AckManagedTaskEvent i t n o now d)
  | OpFinalizeDelivery i t o h now => fst (FinalizeManagedTaskDeliveryWithHook i t o h now d)
  | OpConnected i g now => fst (MarkRuntimeConnected i g now d)
  | OpDisconnected i g now => fst (MarkRuntimeDisconnected i g now d)
  | OpPrepareRecovery now => fst (PrepareRuntimeRecovery now d)
  | OpExited i g s r now => fst (MarkRuntimeExited i g s r now d)
  | OpRetireShell i g s r now => fst (RetireExitedShell i g s r now d)
  | OpReserve p now => fst (ReserveLifecycle p now d)
  | OpCompleteLifecycle p now => fst (CompleteLifecycle p now d)
  | OpFailRestart p f now => fst (FailLifecycleRestart p f now d)
  | OpBeginRestart p k now => fst (BeginLifecycleRestart p k now d)
  | OpPhase i r from to e now => fst (CompareAndSwapLifecyclePhase i r from to e now d)
  | OpCancel i r o e g => fst (CancelWaitingLifecycle i r o e g d)
  | OpDropLifecycle i => fst (DeletePendingLifecycle i d)
  | OpDropLifecycleRequest i r ph => fst (DeletePendingLifecycleRequest i r ph d)
  | OpCompleteEndedShell p now => fst (CompleteEndedShell p now d)
  | OpDeleteRetained i g => fst (DeleteRetainedShellSession i g d)
  | OpActivity i c w g o e src fs fe now => fst (recordActivity i c w g o e src fs fe now d)
  | OpInvalidateVisibility i g => fst (InvalidateVisibility i g d)
  | OpInvalidateHook s => fst (InvalidateHookInstallation s d)
  | OpSetHook s b => fst (SetHookInstallation s b d)
  end.

Fixpoint runs (os : list db_op) (d : db) : db :=
  match os with [] => d | o :: os' => runs os' (run o d) end.

Definition reachable (d : db) : Prop := exists os, d = runs os empty_db.

Lemma runs_app (os os' : list db_op) (d : db) : runs (os ++ os') d = runs os' (runs os d).
Proof. revert d. induction os; simpl; auto. Qed.

Lemma reachable_run (o : db_op) (d : db) : reachable d -> reachable (run o d).
Proof. intros [os ->]. exists (os ++ [o]). by rewrite runs_app. Qed.

(** The session [id] is there before and after every operation. *)
Fixpoint stays (id : string) (os : list db_op) (d : db) : Prop :=
  is_Some (d_sessions d !! id) /\ match os with [] => True | o :: os' => stays id os' (run o d) end.

Lemma stays_end (id : string) (os : list db_op) (d : db) : stays id os d -> is_Some (d_sessions (runs os d) !! id).
Proof. revert d. induction os as [|o os IH]; intros d; simpl; [by intros []|]. intros [_ H]. by apply IH. Qed.

Fixpoint stays_b (id : string) (os : list db_op) (d : db) : bool :=
  bool_decide (is_Some (d_sessions d !! id)) && match os with [] => true | o :: os' => stays_b id os' (run o d) end.

Lemma stays_b_true (id : string) (os : list db_op) (d : db) : stays_b id os d = true -> stays id os d.
Proof.
  revert d. induction os as [|o os IH]; intros d; simpl; intros [H1 H2]%andb_true_iff;
    apply bool_decide_eq_true in H1; auto.
Qed.

End Run.

(** ** A concrete execution *)

Module Sample.

#[export] Instance sample_case : UnicodeCase := latin_case.
#[export] Instance sample_format : UnicodeFormat := {| u_Cf r := (r =? 173)%N |}.
#[export] Instance sample_texts : ErrorTexts := {| strconv_Quote v := v; constraint_text v := v |}.

(** Any function with 32-byte values does; this one keeps the ends of its input. *)
Definition digest (s : string) : string := str_take 32 (s +:+ "................................").
Definition clk (n : nat) : Z := (1000 + Z.of_nat n)%Z.

Definition sid : string := "AB12CD".
Definition alice : Owner := mkOwner OwnerTerminal "alice".
Definition gateway : Owner := mkOwner OwnerCC "chan".
Definition key32 : string := "0123456789abcdef0123456789abcdef".

Definition session : Session :=
  mkSessionRec sid "duck" KindAgent "codex" "" "/work" "" StatusRunning (Some alice) 1 1 TaskIdle AdapterHealthy
    key32 1000 1000 None "".

(** The session after the gateway took it over. *)
Definition session_yielded : Session := set_UpdatedAt 1001 (set_Owner (Some gateway) 2 session).

Definition create : db_op := OpCreateSession "terminal:alice" "r1" session clk.
Definition yield_to_gateway : db_op := OpRequestYield "cc:chan" "r2" sid gateway true 1 1 None clk.
Definition bind : db_op := OpBindDiscord "cc:host" "r3" sid "chan" clk.

Definition end_request : PendingLifecycle :=
  mkLifecycle sid LifecycleEnd LifecycleForce alice 1 1 "end1" LifecycleWaiting 0 0 0 "".
Definition task : ManagedTask :=
  mkTask sid "t1" key32 gateway 2 1 ManagedTaskPrepared 0 0 0 None "" 0 0.
Definition done_event : ManagedTaskEvent := mkTaskEvent "t1" 1 "completed" 10 "" key32 "".

Definition d_created : db := runs digest [create] empty_db.
Definition d_yielded : db := runs digest [create; yield_to_gateway] empty_db.
Definition d_tasked : db :=
  runs digest [create; yield_to_gateway; bind; OpAdmitTask "cc:chan" task 2000; OpMarkTaskRunning sid "t1" 1 2001] empty_db.
Definition d_ending : db := runs digest [create; OpReserve end_request 3000] empty_db.

Lemma created_reachable : reachable digest d_created.
Proof. by eexists. Qed.
Lemma yielded_reachable : reachable digest d_yielded.
Proof. by eexists. Qed.
Lemma tasked_reachable : reachable digest d_tasked.
Proof. by eexists. Qed.
Lemma ending_reachable : reachable digest d_ending.
Proof. by eexists. Qed.
(** A reply under way, a yield waiting for it, and the connection to the runtime lost. *)
Definition d_recovering : db :=
  runs digest [create; OpBeginTask "terminal:alice" "r4" sid alice 1 1 clk; yield_to_gateway; OpDisconnected sid 1 4000]
    empty_db.
Lemma recovering_reachable : reachable digest d_recovering.
Proof. by eexists. Qed.

End Sample.
