(* ===== verification/SessionRefine.v ===== *)
(** * The store implements the session machine

    A small program logic for transactions: [tri id v m Q] says that [m], run on
    a database whose view of [id] is [v], changes no other session and ends with a
    view and a result satisfying [Q], unless it fails.  With a rule for every
    statement of [SessionDB], each operation of the store and of the service is
    shown to be a transition of the machine of [SessionSpec]. *)

From S2P Require Import Prelude GoStrings GoMarshal Session SessionDB TxLogic SessionStore SessionSpec TaskStore SessionService.
Local Open Scope go_scope.

(** ** The logic *)

(** Only the view of [id] changes, to [v]. *)
Definition moves (id : string) (v : view) (d d' : db) : Prop :=
  view_of d' id = v /\ forall id', id' <> id -> view_of d' id' = view_of d id'.

Definition tri {A : Type} (id : string) (v : view) (m : tx A) (Q : view -> A -> Prop) : Prop :=
  forall d, view_of d id = v ->
    match m d with
    | Ok (d', a) => exists v', moves id v' d d' /\ Q v' a
    | Err _ => True
    end.

Lemma moves_refl (id : string) (d : db) : moves id (view_of d id) d d.
Proof. done. Qed.

Lemma moves_trans (id : string) (v v' : view) (d d1 d2 : db) :
  moves id v d d1 -> moves id v' d1 d2 -> moves id v' d d2.
Proof.
  intros [_ H1] [H2 H3]. split; [done|]. intros id' Hne. rewrite H3 by done. auto.
Qed.

Lemma view_eq (d : db) (id : string) (v : view) :
  view_of d id = v <->
  d_sessions d !! id = v_session v /\ d_yields d !! id = v_yield v /\ d_lifecycles d !! id = v_lifecycle v.
Proof.
  destruct v as [s y l]. unfold view_of. simpl. split; [by intros [=]|]. by intros (-> & -> & ->).
Qed.

Section Logic.
Context {A B : Type}.
Implicit Types (id : string) (v : view).

Lemma tri_ret id v (a : A) (Q : view -> A -> Prop) : Q v a -> tri id v (ret a) Q.
Proof. intros HQ d <-. simpl. eauto using moves_refl. Qed.

Lemma tri_fail id v e (Q : view -> A -> Prop) : tri id v (fail e) Q.
Proof. by intros d _. Qed.

Lemma tri_bind id v (m : tx A) (k : A -> tx B) (Q : view -> B -> Prop) :
  tri id v m (fun v' a => tri id v' (k a) Q) -> tri id v (tbind m k) Q.
Proof.
  intros H d Hd. specialize (H d Hd). unfold tbind. destruct (m d) as [[d1 a]|]; [|done].
  destruct H as (v1 & Hm & Hk). specialize (Hk d1 (proj1 Hm)).
  destruct (k a d1) as [[d2 b]|]; [|done]. destruct Hk as (v2 & Hm2 & HQ). eauto using moves_trans.
Qed.

(** A read gives some value; the two tables of the view are read below. *)
Lemma tri_read id v (f : db -> A) (Q : view -> A -> Prop) :
  (forall d, view_of d id = v -> Q v (f d)) -> tri id v (read f) Q.
Proof. intros H d Hd. simpl. exists v. split; [|by apply H]. rewrite <-Hd. apply moves_refl. Qed.

Lemma tri_attempt id v (m : tx A) (Q : view -> result store_error A -> Prop) :
  tri id v m (fun v' a => Q v' (Ok a)) -> (forall e, Q v (Err e)) -> tri id v (attempt m) Q.
Proof.
  intros H He d Hd. specialize (H d Hd). unfold attempt. destruct (m d) as [[d1 a]|e].
  - destruct H as (v' & Hm & HQ). eauto.
  - exists v. split; [rewrite <-Hd; apply moves_refl|apply He].
Qed.

Lemma tri_weaken id v (m : tx A) (Q Q' : view -> A -> Prop) :
  tri id v m Q -> (forall v' a, Q v' a -> Q' v' a) -> tri id v m Q'.
Proof.
  intros H HQ d Hd. specialize (H d Hd). destruct (m d) as [[d1 a]|]; [|done].
  destruct H as (v' & Hm & Hq). eauto.
Qed.

End Logic.

Section Statements.
Implicit Types (id : string) (v : view).

Lemma tri_guard id v (b : bool) e (Q : view -> unit -> Prop) :
  (b = true -> Q v tt) -> tri id v (guard b e) Q.
Proof. intros H. unfold guard. destruct b; [apply tri_ret; auto|apply tri_fail]. Qed.

Lemma tri_lift {A : Type} id v (r : result session_error A) (Q : view -> A -> Prop) :
  (forall a, r = Ok a -> Q v a) -> tri id v (lift r) Q.
Proof. intros H. unfold lift. destruct r; [apply tri_ret; auto|apply tri_fail]. Qed.

(** A write to tables that are not part of the view. *)
Definition outside (g : db -> db) : Prop := forall d id, view_of (g d) id = view_of d id.

Lemma tri_write id v (g : db -> db) (Q : view -> unit -> Prop) :
  outside g -> Q v tt -> tri id v (write g) Q.
Proof.
  intros Hg HQ d Hd. simpl. exists v. split; [|done]. split; [by rewrite Hg|]. intros id' _. apply Hg.
Qed.

Lemma outside_revise id change : outside (revise id change).
Proof. intros d id'. reflexivity. Qed.

Lemma outside_drop_binding id : outside (drop_binding id).
Proof. intros d id'. unfold drop_binding. by destruct (d_bindings d !! id). Qed.

Lemma tri_write_session id v (s : Session) (g : db -> db) (Q : view -> unit -> Prop) :
  outside g -> Q (mkView (Some s) (v_yield v) (v_lifecycle v)) tt ->
  tri id v (write (fun d => g (put_session id s d))) Q.
Proof.
  intros Hg HQ d Hd. simpl. eexists. split; [|exact HQ]. apply view_eq in Hd. destruct Hd as (_ & Hy & Hl).
  split.
  - rewrite Hg. unfold view_of, put_session. simpl. rewrite lookup_insert_eq, Hy, Hl. done.
  - intros id' Hne. rewrite Hg. unfold view_of, put_session. simpl.
    rewrite lookup_insert_ne by congruence. done.
Qed.

Lemma tri_insert_session id v (s : Session) (Q : view -> unit -> Prop) :
  s_ID s = id ->
  (v_session v = None -> session_check s = true -> (s_OwnershipEpoch s < 2 ^ 63)%Z ->
   (s_RuntimeGeneration s < 2 ^ 63)%Z -> Q (mkView (Some s) (v_yield v) (v_lifecycle v)) tt) ->
  tri id v (insert_session s) Q.
Proof.
  intros Hid HQ. unfold insert_session, arg_u64.
  apply tri_bind, tri_guard. intros He. apply tri_bind, tri_guard. intros Hg.
  apply tri_bind, tri_read. intros d Hd. apply view_eq in Hd. destruct Hd as (Hs & _).
  rewrite Hid, Hs. apply tri_bind, tri_guard. intros Hc. bool_to_prop. apply bool_decide_eq_true in H.
  apply tri_write_session; [apply outside_revise|]. auto.
Qed.

Lemma tri_update_session id v (cond : Session -> bool) (f : Session -> Session) (Q : view -> nat -> Prop) :
  Q v 0 ->
  (forall s, v_session v = Some s -> cond s = true -> session_check (f s) = true ->
     (s_RuntimeGeneration (f s) < 2 ^ 63)%Z ->
     Q (mkView (Some (f s)) (v_yield v) (v_lifecycle v)) 1) ->
  tri id v (update_session id cond f) Q.
Proof.
  intros H0 H1. unfold update_session. apply tri_bind, tri_read. intros d Hd.
  apply view_eq in Hd. destruct Hd as (Hs & _). rewrite Hs.
  destruct (v_session v) as [s|] eqn:Hv; [|by apply tri_ret].
  destruct (cond s) eqn:Hc; simpl negb; [|by apply tri_ret]. cbv iota.
  apply tri_bind, tri_guard. intros Hck. apply tri_bind, tri_guard. intros Hgen. bool_to_prop.
  apply tri_bind, (tri_write_session _ _ _ (fun d => d)); [done|].
  apply tri_bind, tri_write; [|apply tri_ret; auto].
  intros d' id'. by destruct (visible_change s (f s)).
Qed.

Lemma tri_delete_session id v (cond : Session -> bool) (Q : view -> nat -> Prop) :
  Q v 0 ->
  (forall s, v_session v = Some s -> cond s = true -> Q absent 1) ->
  tri id v (delete_session id cond) Q.
Proof.
  intros H0 H1. unfold delete_session. apply tri_bind, tri_read. intros d Hd.
  apply view_eq in Hd. destruct Hd as (Hs & _). rewrite Hs.
  destruct (v_session v) as [s|] eqn:Hv; [|by apply tri_ret].
  destruct (cond s) eqn:Hc; [|by apply tri_ret].
  specialize (H1 s eq_refl Hc). apply tri_bind. intros d' Hd'. simpl.
  exists absent. split; [|by apply tri_ret]. unfold drop_session. split.
  - rewrite outside_revise, outside_drop_binding. unfold view_of, drop_children. simpl.
    by rewrite !lookup_delete_eq.
  - intros id' Hne. rewrite outside_revise, outside_drop_binding. unfold view_of, drop_children. simpl.
    by rewrite !lookup_delete_ne by congruence.
Qed.

Lemma tri_insert_yield id v (y : PendingYield) (Q : view -> unit -> Prop) :
  y_SessionID y = id ->
  (v_yield v = None -> Q (mkView (v_session v) (Some y) (v_lifecycle v)) tt) ->
  tri id v (insert_yield y) Q.
Proof.
  intros Hid HQ. unfold insert_yield, arg_u64, session_exists. apply tri_bind, tri_guard. intros He.
  apply tri_bind, tri_read. intros d0 _. apply tri_bind, tri_read. intros d Hd.
  apply view_eq in Hd. destruct Hd as (_ & Hy & _). rewrite Hid, Hy. apply tri_bind, tri_guard. intros Hg.
  bool_to_prop. apply bool_decide_eq_true in H2.
  intros d' Hd'. simpl. eexists. split; [|by apply HQ]. apply view_eq in Hd'. destruct Hd' as (Hs' & Hy' & Hl').
  unfold moves, view_of; split; simpl; [by rewrite lookup_insert_eq, Hs', Hl'|].
  intros id' Hne. by rewrite lookup_insert_ne by congruence.
Qed.

Lemma tri_delete_yield id v (Q : view -> unit -> Prop) :
  Q (mkView (v_session v) None (v_lifecycle v)) tt -> tri id v (delete_yield id) Q.
Proof.
  intros HQ d Hd. simpl. eexists. split; [|exact HQ]. apply view_eq in Hd. destruct Hd as (Hs & Hy & Hl).
  unfold moves, view_of; split; simpl; [by rewrite lookup_delete_eq, Hs, Hl|].
  intros id' Hne. by rewrite lookup_delete_ne by congruence.
Qed.

Lemma tri_write_lifecycle id v (p : PendingLifecycle) (Q : view -> unit -> Prop) :
  Q (mkView (v_session v) (v_yield v) (Some p)) tt ->
  tri id v (write (fun d => with_lifecycles (<[id := p]> (d_lifecycles d)) d)) Q.
Proof.
  intros HQ d Hd. simpl. eexists. split; [|exact HQ]. apply view_eq in Hd. destruct Hd as (Hs & Hy & _).
  unfold moves, view_of; split; simpl; [by rewrite lookup_insert_eq, Hs, Hy|].
  intros id' Hne. by rewrite lookup_insert_ne by congruence.
Qed.

Lemma tri_insert_lifecycle id v (p : PendingLifecycle) (Q : view -> unit -> Prop) :
  p_SessionID p = id ->
  (v_lifecycle v = None -> Q (mkView (v_session v) (v_yield v) (Some p)) tt) ->
  tri id v (insert_lifecycle p) Q.
Proof.
  intros Hid HQ. unfold insert_lifecycle, arg_u64, session_exists.
  do 3 (apply tri_bind, tri_guard; intros _).
  apply tri_bind, tri_read. intros d0 _. apply tri_bind, tri_read. intros d Hd.
  apply view_eq in Hd. destruct Hd as (_ & _ & Hl). rewrite Hid, Hl. apply tri_bind, tri_guard. intros Hg.
  bool_to_prop. apply bool_decide_eq_true in H1. unfold put_lifecycle. rewrite Hid.
  apply tri_write_lifecycle. auto.
Qed.

Lemma tri_update_lifecycle id v cond phase now lastError (Q : view -> nat -> Prop) :
  Q v 0 ->
  (forall p, v_lifecycle v = Some p -> cond p = true ->
     Q (mkView (v_session v) (v_yield v) (Some (set_phase phase now lastError p))) 1) ->
  tri id v (update_lifecycle id cond phase now lastError) Q.
Proof.
  intros H0 H1. unfold update_lifecycle. apply tri_bind, tri_read. intros d Hd.
  apply view_eq in Hd. destruct Hd as (_ & _ & Hl). rewrite Hl.
  destruct (v_lifecycle v) as [p|]; [|by apply tri_ret].
  destruct (cond p) eqn:Hc; [|by apply tri_ret].
  apply tri_bind, tri_write_lifecycle, tri_ret. auto.
Qed.

Lemma tri_delete_lifecycle id v cond (Q : view -> nat -> Prop) :
  Q v 0 ->
  (forall p, v_lifecycle v = Some p -> cond p = true -> Q (mkView (v_session v) (v_yield v) None) 1) ->
  tri id v (delete_lifecycle id cond) Q.
Proof.
  intros H0 H1. unfold delete_lifecycle. apply tri_bind, tri_read. intros d Hd.
  apply view_eq in Hd. destruct Hd as (_ & _ & Hl). rewrite Hl.
  destruct (v_lifecycle v) as [p|]; [|by apply tri_ret].
  destruct (cond p) eqn:Hc; [|by apply tri_ret].
  apply tri_bind. intros d' Hd'. simpl. eexists. split; [|by apply tri_ret, (H1 p)].
  apply view_eq in Hd'. destruct Hd' as (Hs & Hy & _).
  unfold moves, view_of; split; simpl; [by rewrite lookup_delete_eq, Hs, Hy|].
  intros id' Hne. by rewrite lookup_delete_ne by congruence.
Qed.

End Statements.

(** ** Transactions that leave the three tables alone *)

Definition same_views : relation db := fun d d' => forall id, view_of d' id = view_of d id.

#[export] Instance same_views_preorder : PreOrder same_views.
Proof.
  split; [by intros d id|]. intros d1 d2 d3 H1 H2 id. by rewrite H2, H1.
Qed.

Lemma tri_neutral {A : Type} (id : string) (v : view) (m : tx A) (Q : view -> A -> Prop) :
  preserves same_views m -> (forall a, Q v a) -> tri id v m Q.
Proof.
  intros Hm HQ d Hd. destruct (m d) as [[d' a]|] eqn:E; [|done]. pose proof (Hm _ _ _ E) as Hs.
  exists v. split; [|done]. split; [by rewrite Hs|]. intros id' _. apply Hs.
Qed.

Section Neutral.
Context `{UC : UnicodeCase} `{UF : UnicodeFormat}.

Lemma neutral_write (f : db -> db) :
  (forall d, d_sessions (f d) = d_sessions d /\ d_yields (f d) = d_yields d /\ d_lifecycles (f d) = d_lifecycles d) ->
  preserves same_views (write f).
Proof.
  intros H. apply preserves_write. intros d id. unfold view_of. destruct (H d) as (-> & -> & ->). done.
Qed.

Lemma neutral_get (id : string) : preserves same_views (GetSessionTx id).
Proof. intros d d' s H. unfold GetSessionTx in H. case_hyp H; simplify_eq. done. Qed.

Lemma neutral_outcome p now failure : preserves same_views (insert_outcome p now failure).
Proof. unfold insert_outcome. preserves_tac. by apply neutral_write. Qed.

Lemma neutral_retained r : preserves same_views (insert_retained r).
Proof. unfold insert_retained. preserves_tac. by apply neutral_write. Qed.

Lemma neutral_insert_task t : preserves same_views (insert_task t).
Proof. unfold insert_task. preserves_tac. by apply neutral_write. Qed.

Lemma neutral_update_task k cond f : preserves same_views (update_task k cond f).
Proof. unfold update_task. preserves_tac. by apply neutral_write. Qed.

Lemma neutral_receipt k r : preserves same_views (insert_receipt k r).
Proof. unfold insert_receipt. preserves_tac. by apply neutral_write. Qed.

Lemma neutral_binding b : preserves same_views (insert_binding b).
Proof. unfold insert_binding. preserves_tac. by apply neutral_write. Qed.

Lemma neutral_delete_binding id : preserves same_views (delete_binding id).
Proof.
  unfold delete_binding. preserves_tac. apply preserves_write. intros d0 id'. apply outside_drop_binding.
Qed.

Lemma neutral_activity k a : preserves same_views (put_activity k a).
Proof. unfold put_activity. preserves_tac. by apply neutral_write. Qed.

Lemma neutral_audit e : preserves same_views (insert_audit e).
Proof. unfold insert_audit. preserves_tac. by apply neutral_write. Qed.

Lemma neutral_record sid category now : preserves same_views (recordActivityTx sid category now).
Proof.
  unfold recordActivityTx, category_validate. preserves_tac; try apply neutral_activity; by apply neutral_write.
Qed.

Lemma neutral_hook f s : preserves same_views (run_hook f s).
Proof. unfold run_hook. preserves_tac. Qed.

End Neutral.

#[export] Hint Resolve neutral_get neutral_outcome neutral_retained neutral_insert_task neutral_update_task
  neutral_receipt neutral_binding neutral_delete_binding neutral_activity neutral_audit neutral_record
  neutral_hook : tx.

(** ** Rows stay readable *)

Section Rows.
Context `{UC : UnicodeCase} `{UF : UnicodeFormat}.

Lemma row_ok_next (id : string) (s s' : Session) :
  row_ok id s -> same_identity s s' -> session_check s' = true ->
  is_Ok (ValidateHandle (s_Handle s')) = true ->
  s_RuntimeGeneration s' <> 0%Z -> (s_OwnershipEpoch s' < 2 ^ 63)%Z -> (s_RuntimeGeneration s' < 2 ^ 63)%Z ->
  slen (s_RecoveryPublicKey s') = 0 \/ slen (s_RecoveryPublicKey s') = 32 ->
  (s_Kind s = KindAgent -> exists w, s_Writer s' = Some w /\ Owner_Validate w = Ok tt) ->
  (s_Kind s = KindShell -> s_AdapterState s' = AdapterUnavailable /\ s_TaskState s' = TaskIdle) ->
  row_ok id s'.
Proof.
  intros [Hid Hv Hc He Hg] (Ei & Ek & Ea & Ep & Ecwd & Esh & Ecr) Hc' Hh Hg' Heb Hgb Hkey Hag Hsh.
  split; try done; [congruence|].
  assert (Hc2 := Hc'). unfold session_check in Hc2. bool_to_prop.
  destruct Hv as [V1 V2 V3 V4 V5 V6 V7 V8 V9].
  split; [by rewrite <-Ei|done|by rewrite <-Ep|done..|].
  destruct V9 as [(Hk & Hat & _)|(Hk & _ & Hat & _)].
  - left. destruct (Hag Hk) as (w & Hw & Hwv). split_and!; [congruence|congruence|eauto].
  - right. destruct (Hsh Hk) as [Ha Ht]. split_and!; try congruence.
    destruct H0 as [H0|H0]; bool_to_prop; [congruence|].
    match goal with H : bool_decide (s_Writer s' = None) = true |- _ => by apply bool_decide_eq_true in H end.
Qed.

(** An update that keeps the fences and the recovery key. *)
Lemma row_ok_work (id : string) (s s' : Session) :
  row_ok id s -> same_identity s s' -> same_fence s s' -> session_check s' = true ->
  is_Ok (ValidateHandle (s_Handle s')) = true -> s_RecoveryPublicKey s' = s_RecoveryPublicKey s ->
  (s_Kind s = KindShell -> s_AdapterState s' = AdapterUnavailable /\ s_TaskState s' = TaskIdle) ->
  row_ok id s'.
Proof.
  intros Hr Hi (Hw & He & Hg) Hc Hh Hk Hsh. assert (Hr' := Hr). destruct Hr' as [Hid [V1 V2 V3 V4 V5 V6 V7 V8 V9] _ Heb Hgb].
  eapply row_ok_next; eauto; try congruence; try lia.
  intros Hka. destruct V9 as [(_ & _ & w & Hw' & Hv)|(Hks & _)]; [|by rewrite Hka in Hks].
  exists w. split; congruence.
Qed.

Lemma row_shell (id : string) (s : Session) :
  row_ok id s -> s_Kind s = KindShell -> s_AdapterState s = AdapterUnavailable /\ s_TaskState s = TaskIdle.
Proof.
  intros [_ [_ _ _ _ _ _ _ _ [(Hk & _)|(_ & _ & _ & Ha & Ht)]] _ _ _] Hs; [|done].
  rewrite Hk in Hs. discriminate.
Qed.

Lemma row_handle (id : string) (s : Session) : row_ok id s -> is_Ok (ValidateHandle (s_Handle s)) = true.
Proof. by intros [_ [] _ _ _]. Qed.

Lemma row_kind (id : string) (s : Session) : row_ok id s -> s_Kind s = KindAgent \/ s_Kind s = KindShell.
Proof. intros [_ [_ _ _ _ _ _ _ _ [(? & _)|(? & _)]] _ _ _]; auto. Qed.

Lemma same_identity_refl (s : Session) : same_identity s s.
Proof. unfold same_identity. auto 10. Qed.

Lemma adapter_for_shell (a : string) (s : Session) : s_Kind s = KindShell -> adapter_for a s = AdapterUnavailable.
Proof. unfold adapter_for. intros ->. reflexivity. Qed.

(** The epoch of a stored row does not wrap. *)
Lemma u64_succ_epoch (id : string) (s : Session) :
  row_ok id s -> u64 (s_OwnershipEpoch s + 1) = (s_OwnershipEpoch s + 1)%Z.
Proof.
  intros [_ _ Hc He _]. unfold u64. apply Z.mod_small. unfold session_check in Hc. bool_to_prop. lia.
Qed.

(** ** Reading the view *)

Lemma tri_get (id : string) (v : view) (Q : view -> Session -> Prop) :
  (forall s, v_session v = Some s -> Q v s) -> tri id v (GetSessionTx id) Q.
Proof.
  intros H d Hd. unfold GetSessionTx, GetSession, scanSession. assert (Hd' := Hd).
  apply view_eq in Hd. destruct Hd as (Hs & _). rewrite Hs.
  destruct (v_session v) as [s|]; [|done]. destruct (Session_Validate s); [|done].
  exists v. split; [rewrite <-Hd'; apply moves_refl|auto].
Qed.

Lemma tri_get_yield (id : string) (v : view) (Q : view -> option PendingYield -> Prop) :
  Q v (v_yield v) -> tri id v (GetPendingYieldTx id) Q.
Proof. intros H. apply tri_read. intros d Hd. apply view_eq in Hd. destruct Hd as (_ & -> & _). done. Qed.

Lemma tri_get_lifecycle (id : string) (v : view) (Q : view -> option PendingLifecycle -> Prop) :
  Q v (v_lifecycle v) -> tri id v (GetPendingLifecycleTx id) Q.
Proof. intros H. apply tri_read. intros d Hd. apply view_eq in Hd. destruct Hd as (_ & _ & ->). done. Qed.

Lemma tri_update_tx (id : string) (v : view) (s : Session) (epoch generation : Z) (Q : view -> unit -> Prop) :
  s_ID s = id ->
  (forall r, v_session v = Some r -> ValidSession s -> fenced epoch generation r = true ->
     session_check (assign_session s r) = true -> (s_OwnershipEpoch s < 2 ^ 63)%Z ->
     (s_RuntimeGeneration s < 2 ^ 63)%Z ->
     Q (mkView (Some (assign_session s r)) (v_yield v) (v_lifecycle v)) tt) ->
  tri id v (UpdateSessionTx s epoch generation) Q.
Proof.
  intros Hid HQ. unfold UpdateSessionTx, arg_u64, one_row.
  apply tri_bind, tri_lift. intros [] Hv. apply Session_Validate_iff in Hv.
  do 4 (apply tri_bind, tri_guard; intros ?). bool_to_prop. rewrite Hid.
  apply tri_bind, tri_update_session; [by apply tri_guard|].
  intros r Hr Hf Hc Hgen. by apply tri_guard; auto.
Qed.

End Rows.

(** One step of a transaction. *)
Ltac tstep :=
  cbv zeta;
  lazymatch goal with
  | |- tri _ _ (tbind _ _) _ => apply tri_bind
  | |- tri _ _ (ret _) _ => apply tri_ret
  | |- tri _ _ (fail _) _ => apply tri_fail
  | |- tri _ _ (guard _ _) _ => apply tri_guard; intros ?
  | |- tri _ _ (arg_u64 _) _ => apply tri_guard; intros ?
  | |- tri _ _ (one_row _ _) _ => apply tri_guard; intros ?
  | |- tri _ _ (lift _) _ => apply tri_lift; intros ? ?
  | |- tri _ _ (GetSessionTx _) _ => apply tri_get; intros ? ?
  | |- tri _ _ (GetPendingYieldTx _) _ => apply tri_get_yield
  | |- tri _ _ (GetPendingLifecycleTx _) _ => apply tri_get_lifecycle
  | |- tri _ _ (InsertPendingYieldTx _) _ => apply tri_insert_yield; [|intros ?]
  | |- tri _ _ (DeletePendingYieldTx _) _ => apply tri_delete_yield
  | |- tri _ _ (attempt _) _ => apply tri_attempt; [|intros ?]
  | |- tri _ _ (update_session _ _ _) _ => apply tri_update_session; [|intros ? ? ? ? ?]
  | |- tri _ _ (delete_session _ _) _ => apply tri_delete_session; [|intros ? ? ?]
  | |- tri _ _ (insert_lifecycle _) _ => apply tri_insert_lifecycle; [|intros ?]
  | |- tri _ _ (update_lifecycle _ _ _ _ _) _ => apply tri_update_lifecycle; [|intros ? ? ?]
  | |- tri _ _ (delete_lifecycle _ _) _ => apply tri_delete_lifecycle; [|intros ? ? ?]
  | |- tri _ _ (lifecycle_validate _) _ => unfold lifecycle_validate
  | |- tri _ _ (read _) _ => apply tri_read; intros ? ?
  | |- tri _ _ (write _) _ => apply tri_write; [by intros ? ?|]
  | |- tri _ _ _ _ => apply tri_neutral; [solve [auto with tx]|intros ?]
  end; simpl v_session in *; simpl v_yield in *; simpl v_lifecycle in *.

Ltac tsteps := repeat (tstep; try discriminate).
