(* ===== verification/SessionSteps.v ===== *)
(** * Every operation is a transition of the session machine

    One lemma per operation of the store and of the service: run on a database
    whose views are [good], it takes the view of each session to a view that
    [vtrans] allows.  [db_op] collects the operations, [run] executes one, and the
    theorems on reachable databases follow. *)

From S2P Require Import Prelude GoStrings GoMarshal Session SessionDB TxLogic SessionStore SessionSpec TaskStore SessionService SessionRefine.
Local Open Scope go_scope.

Local Arguments str_take : simpl never.
Local Arguments among : simpl never.

Section Steps.
Context `{UC : UnicodeCase} `{UF : UnicodeFormat}.

Definition good_db (d : db) : Prop := forall id, good id (view_of d id).

(** What an operation does to the views. *)
Definition evolves (d d' : db) : Prop := forall id, vtrans id (view_of d id) (view_of d' id).

Lemma vtrans_refl (id : string) (v : view) : vtrans id v v.
Proof. apply vt_live. reflexivity. Qed.

Lemma db_evolves_refl (d : db) : evolves d d.
Proof. intros id. apply vtrans_refl. Qed.

Definition trans {A : Type} (id : string) (m : tx A) : Prop :=
  forall v, good id v -> tri id v m (fun v' _ => vtrans id v v').

Lemma trans_result {A : Type} (id : string) (m : tx A) (d d' : db) (a : A) :
  good_db d -> trans id m -> m d = Ok (d', a) -> evolves d d'.
Proof.
  intros Hg Hm E id'. specialize (Hm _ (Hg id) d eq_refl). rewrite E in Hm. destruct Hm as (v' & [Hv Ho] & Ht).
  destruct (decide (id' = id)) as [->|Hne]; [by rewrite Hv|]. rewrite Ho by done. apply vtrans_refl.
Qed.

Lemma trans_atomically {A : Type} (id : string) (m : tx A) (d : db) :
  good_db d -> trans id m -> evolves d (fst (atomically m d)).
Proof.
  intros Hg Hm. unfold atomically. destruct (m d) as [[d' a]|] eqn:E; simpl; [|apply db_evolves_refl].
  eauto using trans_result.
Qed.

Lemma neutral_atomically {A : Type} (m : tx A) (d : db) :
  preserves same_views m -> evolves d (fst (atomically m d)).
Proof.
  intros Hm id. rewrite (preserves_atomically same_views m d Hm id). apply vtrans_refl.
Qed.

Lemma live_one (id : string) (v v' : view) : live id v v' -> vtrans id v v'.
Proof. intros H. apply vt_live, rtc_once, H. Qed.

(** A change of the row that is only work. *)
Lemma work_trans (id : string) (s s' : Session) y l :
  good id (mkView (Some s) y l) -> same_identity s s' -> same_fence s s' -> session_check s' = true ->
  is_Ok (ValidateHandle (s_Handle s')) = true -> s_RecoveryPublicKey s' = s_RecoveryPublicKey s ->
  (s_Kind s = KindShell -> s_AdapterState s' = AdapterUnavailable /\ s_TaskState s' = TaskIdle) ->
  admission s s' y l ->
  live id (mkView (Some s) y l) (mkView (Some s') y l).
Proof. intros (Hr & _) **. apply l_work; eauto using row_ok_work. Qed.

(** ** Sessions *)

Lemma good_some (id : string) (v : view) (s : Session) : good id v -> v_session v = Some s -> row_ok id s.
Proof. unfold good. intros Hg Hs. rewrite Hs in Hg. apply Hg. Qed.

(** The row after a change of status and adapter only. *)
Lemma status_live (id : string) (v : view) (s : Session) (st ad : string) (now : Z) :
  good id v -> v_session v = Some s ->
  session_check (set_UpdatedAt now (set_AdapterState (adapter_for ad s) (set_Status st s))) = true ->
  live id v (mkView (Some (set_UpdatedAt now (set_AdapterState (adapter_for ad s) (set_Status st s))))
               (v_yield v) (v_lifecycle v)).
Proof.
  destruct v as [vs y l]; simpl. intros Hg -> Hc. pose proof (good_some _ _ _ Hg eq_refl) as Hr.
  apply work_trans; try done.
  - apply (row_handle _ _ Hr).
  - intros Hk. simpl. split; [by apply adapter_for_shell|]. apply (row_shell _ _ Hr Hk).
  - intros Ht. auto.
Qed.

Lemma MarkRuntimeConnected_evolves id g now d : good_db d -> evolves d (fst (MarkRuntimeConnected id g now d)).
Proof.
  intros Hg. apply (trans_atomically id); [done|]. intros v Hv. tsteps.
  apply live_one. by apply status_live.
Qed.

Lemma MarkRuntimeDisconnected_evolves id g now d : good_db d -> evolves d (fst (MarkRuntimeDisconnected id g now d)).
Proof.
  intros Hg. apply (trans_atomically id); [done|]. intros v Hv. tsteps; [apply vtrans_refl|].
  apply live_one. by apply status_live.
Qed.

(** Recovery at start: the statement visits several sessions, each makes at most
    one step. *)
Lemma recover_evolves ids now d d' :
  good_db d -> recover_sessions ids now d = Ok (d', tt) -> good_db d' /\ forall id, rtc (live id) (view_of d id) (view_of d' id).
Proof.
  revert d. induction ids as [|i ids IH]; intros d Hg; simpl.
  - intros [= <-]. split; [done|]. reflexivity.
  - unfold tbind. destruct (update_session _ _ _ d) as [[d1 n]|] eqn:E; [|discriminate]. intros Hr.
    assert (forall id, rtc (live id) (view_of d id) (view_of d1 id)) as H1.
    { assert (T : tri i (view_of d i) (update_session i (fun s => s_Status s ==s StatusRunning)
          (fun s => set_UpdatedAt now (set_AdapterState (adapter_for AdapterRecovering s) (set_Status StatusRecovering s))))
          (fun v' _ => rtc (live i) (view_of d i) v')).
      { apply tri_update_session; [reflexivity|]. intros s Hs _ Hc _.
        apply rtc_once. by apply status_live. }
      specialize (T d eq_refl). rewrite E in T. destruct T as (v' & [Hv Ho] & Hl). intros id.
      destruct (decide (id = i)) as [->|Hne]; [by rewrite Hv|]. rewrite Ho by done. reflexivity. }
    assert (good_db d1) as Hg1 by (intros id; eapply good_lives; eauto).
    destruct (IH d1 Hg1 Hr) as [Hg2 H2]. split; [done|]. intros id. etransitivity; eauto.
Qed.

Lemma PrepareRuntimeRecovery_evolves now d : good_db d -> evolves d (fst (PrepareRuntimeRecovery now d)).
Proof.
  intros Hg. unfold PrepareRuntimeRecovery, atomically, tbind. simpl.
  destruct (recover_sessions _ now d) as [[d' []]|] eqn:E; simpl; [|apply db_evolves_refl].
  intros id. apply vt_live. by eapply recover_evolves.
Qed.

(** Applying the pending yield of a good view: a stale epoch cannot occur. *)
Lemma apply_yield_good (id : string) (s s1 : Session) (y : PendingYield) l :
  row_ok id s -> good_yield id s y l -> apply_yield (set_TaskState TaskIdle s) (Some y) = Ok s1 ->
  s_Status s = StatusRunning
  /\ (s_AdapterState s <> AdapterHealthy /\ s1 = set_TaskState TaskIdle s
      \/ s_AdapterState s = AdapterHealthy
         /\ s1 = set_Owner (Some (y_Requester y)) (s_OwnershipEpoch s + 1) (set_TaskState TaskIdle s)).
Proof.
  intros Hr [Hid Hk He _ _ _] H. unfold apply_yield in H.
  rewrite <-(u64_succ_epoch _ _ Hr). unfold ApplyPendingYield in H. simpl in H.
  rewrite Hk, Hid, (ro_id _ _ Hr), He, !String.eqb_refl, Z.eqb_refl in H. simpl in H.
  destruct (s_Status s ==s StatusRunning) eqn:Hs; simpl in H; [|discriminate]. bool_to_prop. split; [done|].
  destruct (s_AdapterState s ==s AdapterHealthy) eqn:Ha; simpl in H; simplify_eq; bool_to_prop; auto.
Qed.

Lemma outside_fail_tasks id g now : outside (fail_tasks id g now).
Proof. intros d id'. reflexivity. Qed.

Lemma lives_two (id : string) (v1 v2 v3 : view) : live id v1 v2 -> live id v2 v3 -> vtrans id v1 v3.
Proof. intros H1 H2. apply vt_live. eapply rtc_l; [done|by apply rtc_once]. Qed.

Lemma set_phase_same phase now e (p : PendingLifecycle) : same_operation p (set_phase phase now e p).
Proof. unfold same_operation. auto 10. Qed.

(** The rest of [MarkRuntimeExited] once the row is written: the lifecycle moves on. *)
Lemma exit_lifecycle_tri (id : string) (s : Session) y l (g now : Z) (Q : view -> unit -> Prop) :
  Q (mkView (Some s) y l) tt ->
  (forall v', live id (mkView (Some s) y l) v' -> Q v' tt) ->
  tri id (mkView (Some s) y l) (
    lifecycle <-t GetPendingLifecycleTx id;
    match lifecycle with
    | None => ret tt
    | Some p =>
        changed <-t update_lifecycle id
          (fun q => (p_RequestID q ==s p_RequestID p) && (p_SourceGeneration q =? g)%Z
                    && among (p_Phase q) [LifecycleWaiting; LifecycleStopping]) LifecycleRuntimeStopped now "";
        guard ((changed =? 1)%nat || among (p_Phase p) [LifecycleRuntimeStopped; LifecycleLaunching; LifecycleCleaning])
          (Errorf "lifecycle runtime-exit fencing conflict")
    end) Q.
Proof.
  intros H0 H1. tstep. tstep. destruct l as [p|]; tsteps; [done| |done].
  apply H1. simplify_eq. apply l_phase, set_phase_same.
Qed.

(** The row [MarkRuntimeExited] writes, from the row [r] it read and the session
    [s1] after the yield. *)
Definition exit_row (r s1 : Session) (success : bool) (reason : string) (now : Z) : Session :=
  let s := exited s1 success reason now in
  set_UpdatedAt now (set_Exit (Some success) reason (set_AdapterState (s_AdapterState s)
    (set_TaskState (s_TaskState s) (set_Owner (s_Writer s) (s_OwnershipEpoch s) (set_Status (s_Status s) r))))).

Lemma adapter_unhealthy (s : Session) : adapter_for AdapterUnhealthy s <> AdapterHealthy.
Proof. unfold adapter_for. by destruct (s_Kind s ==s KindAgent). Qed.

Lemma exit_lives (id : string) (s s1 : Session) y l (success : bool) (reason : string) (now : Z) :
  good id (mkView (Some s) y l) -> apply_yield (set_TaskState TaskIdle s) y = Ok s1 ->
  session_check (exit_row s s1 success reason now) = true -> (s_OwnershipEpoch s1 < 2 ^ 63)%Z ->
  rtc (live id) (mkView (Some s) y l) (mkView (Some (exit_row s s1 success reason now)) None l).
Proof.
  intros Hg Hap Hc He. destruct Hg as (Hr & Hy & Hl). assert (Hg : good id (mkView (Some s) y l)) by done.
  simpl in *. pose proof (row_handle _ _ Hr) as Hh.
  assert (Hwork : s1 = set_TaskState TaskIdle s ->
    live id (mkView (Some s) y l) (mkView (Some (exit_row s s1 success reason now)) y l)).
  { intros ->. apply work_trans; try done.
    intros Hk. split; [|done]. by apply adapter_for_shell. }
  destruct y as [y|].
  - destruct (apply_yield_good _ _ _ _ _ Hr (Hy y eq_refl) Hap) as (Hst & [(Ha & ->)|(Ha & ->)]).
    + eapply rtc_l; [by apply Hwork|]. apply rtc_once, l_drop. apply adapter_unhealthy.
    + apply rtc_once, l_apply; try done; [by apply (Hy y eq_refl)|].
      refine (row_ok_next _ s _ Hr _ Hc Hh _ He _ _ _ _); try done.
      * apply (ro_valid _ _ Hr).
      * apply Hr.
      * apply (ro_valid _ _ Hr).
      * intros _. exists (y_Requester y). split; [done|]. apply (Hy y eq_refl).
      * intros Hk. destruct (Hy y eq_refl) as [_ Hk' _ _ _ _]. rewrite Hk' in Hk. discriminate.
  - injection Hap as <-. apply rtc_once. by apply Hwork.
Qed.

Lemma MarkRuntimeExited_evolves id g success reason now d :
  good_db d -> evolves d (fst (MarkRuntimeExited id g success reason now d)).
Proof.
  intros Hgd. apply (trans_atomically id); [done|]. intros v Hg. unfold MarkRuntimeExited.
  do 2 tstep; [|by tstep]. tstep. rename H into Hs. destruct v as [vs y l]; simpl in Hs; subst vs.
  pose proof (good_some _ _ _ Hg eq_refl) as Hr.
  tsteps. rename H0 into Hap. simplify_eq.
  apply Z.ltb_lt in H1. pose proof (exit_lives _ _ _ _ _ _ _ _ Hg Hap H5 H1) as Hl.
  change (set_UpdatedAt now _) with (exit_row s0 a success (str_take 1024 reason) now).
  assert (Hfin : tri id (mkView (Some (exit_row s0 a success (str_take 1024 reason) now)) None l)
    _ (fun v' _ => vtrans id (mkView (Some s0) y l) v'))
    by (apply exit_lifecycle_tri; [by apply vt_live|]; intros v' H'; apply vt_live; by eapply rtc_r).
  destruct y as [y|]; simpl.
  - tstep. exact Hfin.
  - apply tri_ret. exact Hfin.
Qed.

(** ** Lifecycle operations *)

Lemma trans_committing {A : Type} (id : string) (m : tx (result store_error A)) (d : db) :
  good_db d -> trans id m -> evolves d (fst (committing m d)).
Proof.
  intros Hg Hm. unfold committing. destruct (m d) as [[d' a]|] eqn:E; simpl; [|apply db_evolves_refl].
  eauto using trans_result.
Qed.

Lemma barrier_one (id : string) (v v' : view) : barrier id v v' -> vtrans id v v'.
Proof. intros H. eapply vt_barrier; [reflexivity|exact H]. Qed.

Lemma release_barrier (id : string) (v : view) (p : PendingLifecycle) :
  good id v -> v_lifecycle v = Some p -> barrier id v (mkView (v_session v) (v_yield v) None).
Proof.
  destruct v as [[s|] y l]; simpl; intros Hg ->; [apply b_release|]. destruct Hg. discriminate.
Qed.

Lemma phase_live (id : string) (v : view) (p : PendingLifecycle) phase now e :
  good id v -> v_lifecycle v = Some p ->
  live id v (mkView (v_session v) (v_yield v) (Some (set_phase phase now e p))).
Proof.
  destruct v as [[s|] y l]; simpl; intros Hg ->; [apply l_phase, set_phase_same|]. destruct Hg. discriminate.
Qed.

Lemma ReserveLifecycle_evolves p now d : good_db d -> evolves d (fst (ReserveLifecycle p now d)).
Proof.
  intros Hgd. apply (trans_committing (p_SessionID p)); [done|]. intros v Hg. tsteps.
  rename s into s0. destruct v as [vs y l]; simpl in *; subst vs.
  destruct l as [e|].
  - destruct (Lifecycle_Matches e s0); simpl.
    + destruct (same_request e p); tsteps. apply vtrans_refl.
    + tsteps; [apply vtrans_refl|]. apply barrier_one, b_release.
  - tsteps; [done|].
    match goal with H : bool_decide (y = None) = true |- _ => apply bool_decide_eq_true in H; subst y end.
    bool_to_prop. repeat match goal with H : _ \/ _ |- _ => destruct H; bool_to_prop end;
      apply barrier_one, b_reserve; simpl; congruence.
Qed.

Lemma CompleteLifecycle_evolves p now d : good_db d -> evolves d (fst (CompleteLifecycle p now d)).
Proof.
  intros Hgd. apply (trans_atomically (p_SessionID p)); [done|]. intros v Hg. tsteps.
  assert (Hfin : forall v', v' = v \/ (exists q, v_lifecycle v = Some q /\ v' = mkView (v_session v) (v_yield v) None) ->
    vtrans (p_SessionID p) v v').
  { intros v' [->|(q & Hq & ->)]; [apply vtrans_refl|]. apply barrier_one. by eapply release_barrier. }
  destruct (a =? 0)%nat; tsteps; eauto. destruct (GetLifecycleOutcome _ _ _); tsteps; eauto.
Qed.

Lemma CompareAndSwap_evolves id rq from to e now d :
  good_db d -> evolves d (fst (CompareAndSwapLifecyclePhase id rq from to e now d)).
Proof.
  intros Hgd. apply (trans_atomically id); [done|]. intros v Hg. tsteps. apply tri_ret. apply live_one.
  by apply phase_live.
Qed.

Lemma release_trans {A : Type} (id : string) (v : view) cond (k : nat -> tx A) :
  good id v -> (forall n, preserves same_views (k n)) ->
  tri id v (tbind (delete_lifecycle id cond) k) (fun v' _ => vtrans id v v').
Proof.
  intros Hg Hk. tstep. tstep; (apply tri_neutral; [apply Hk|intros ?]); [apply vtrans_refl|].
  apply barrier_one. by eapply release_barrier.
Qed.

Lemma CancelWaiting_evolves id rq o e g d :
  good_db d -> evolves d (fst (CancelWaitingLifecycle id rq o e g d)).
Proof.
  intros Hgd. apply (trans_atomically id); [done|]. intros v Hg. do 6 tstep.
  apply release_trans; [done|]. intros n. preserves_tac.
Qed.

Lemma DeletePending_evolves id d : good_db d -> evolves d (fst (DeletePendingLifecycle id d)).
Proof.
  intros Hgd. apply (trans_atomically id); [done|]. intros v Hg. apply release_trans; [done|]. intros n. preserves_tac.
Qed.

Lemma DeletePendingRequest_evolves id rq ph d :
  good_db d -> evolves d (fst (DeletePendingLifecycleRequest id rq ph d)).
Proof.
  intros Hgd. apply (trans_atomically id); [done|]. intros v Hg. do 2 tstep.
  apply release_trans; [done|]. intros n. preserves_tac.
Qed.

Lemma good_lifecycle_yield (id : string) (v : view) (p : PendingLifecycle) :
  good id v -> v_lifecycle v = Some p -> v_yield v = None.
Proof.
  destruct v as [[s|] y l]; simpl; intros Hg ->; [|by destruct Hg].
  destruct Hg as (_ & Hy & _). destruct y as [y|]; [|done]. destruct (Hy y eq_refl). discriminate.
Qed.

Lemma row_generation (id : string) (s : Session) : row_ok id s -> (0 < s_RuntimeGeneration s)%Z.
Proof.
  intros [_ [_ _ _ _ _ _ Hg _ _] Hc _ _]. unfold session_check in Hc. bool_to_prop. lia.
Qed.

Lemma row_agent (id : string) (s : Session) :
  row_ok id s -> s_Kind s = KindAgent -> exists w, s_Writer s = Some w /\ Owner_Validate w = Ok tt.
Proof.
  intros [_ [_ _ _ _ _ _ _ _ [(_ & _ & w & ? & ?)|(Hk & _)]] _ _ _] Ha; [eauto|].
  rewrite Hk in Ha. discriminate.
Qed.

Lemma BeginLifecycleRestart_evolves p key now d :
  good_db d -> evolves d (fst (BeginLifecycleRestart p key now d)).
Proof.
  intros Hgd. unfold BeginLifecycleRestart. cbv zeta.
  match goal with |- context [atomically ?m d] =>
    assert (He : evolves d (fst (atomically m d))); [|destruct (atomically m d) as [d' [|]]; exact He] end.
  apply (trans_atomically (p_SessionID p)); [done|]. intros v Hg. tsteps.
  rename s into s0. destruct v as [vs y l]; simpl in *; subst vs.
  pose proof (good_some _ _ _ Hg eq_refl) as Hr.
  destruct l as [c|]; tsteps. bool_to_prop. rewrite (ro_id _ _ Hr). tsteps. simplify_eq.
  simplify_eq. apply live_one, l_restart; try done.
  refine (row_ok_next _ s _ Hr _ H9 (row_handle _ _ Hr) _ (ro_epoch _ _ Hr) H10 _ _ _); simpl; try done.
  - pose proof (row_generation _ _ Hr). lia.
  - auto.
  - intros Hk. by apply (row_agent _ _ Hr).
  - intros Hk. split; [by apply adapter_for_shell|done].
Qed.

(** A restart that failed for good: the session is stopped, the barrier released,
    and a shell leaves the table. *)
Lemma fail_tail_tri (id : string) (v0 : view) (s s0 : Session) y l (p : PendingLifecycle) now failure :
  rtc (live id) v0 (mkView (Some s) y l) -> v_session v0 <> None -> s_Status s = StatusStopped -> s_ID s0 = id ->
  tri id (mkView (Some s) y l) (
      inserted <-t insert_outcome p now failure;
      _ <-t one_row inserted (Errorf "restart failure receipt conflict");
      _ <-t delete_lifecycle id (fun q => p_RequestID q ==s p_RequestID p);
      if s_Kind s0 ==s KindShell then
        _ <-t retain s0 (p_SourceGeneration p) now false failure;
        _ <-t (if negb (s_RuntimeGeneration s0 =? p_SourceGeneration p)%Z
               then retain s0 (s_RuntimeGeneration s0) now false failure else ret tt);
        _ <-t delete_session (s_ID s0) (fun _ => true);
        ret tt
      else ret tt) (fun v' _ => vtrans id v0 v').
Proof.
  intros Hl Hn Hst Hid. do 4 tstep.
  assert (Hend : forall l', vtrans id v0 (mkView (Some s) y l') ->
    tri id (mkView (Some s) y l') (
      if s_Kind s0 ==s KindShell then
        _ <-t retain s0 (p_SourceGeneration p) now false failure;
        _ <-t (if negb (s_RuntimeGeneration s0 =? p_SourceGeneration p)%Z
               then retain s0 (s_RuntimeGeneration s0) now false failure else ret tt);
        _ <-t delete_session (s_ID s0) (fun _ => true);
        ret tt
      else ret tt) (fun v' _ => vtrans id v0 v')).
  { intros l' Hl'. destruct (s_Kind s0 ==s KindShell); [|by apply tri_ret].
    unfold retain. do 2 tstep. tstep. apply tri_neutral; [preserves_tac|]. intros _. rewrite Hid.
    tsteps; [done|]. eapply vt_remove; [exact Hl|]. exists s. auto. }
  tstep. tstep; [by apply Hend, vt_live|].
  apply Hend. simplify_eq. eapply vt_barrier; [exact Hl|apply b_release].
Qed.

Lemma FailLifecycleRestart_evolves p failure now d :
  good_db d -> evolves d (fst (FailLifecycleRestart p failure now d)).
Proof.
  intros Hgd. apply (trans_atomically (p_SessionID p)); [done|]. intros v Hg. unfold FailLifecycleRestart.
  do 4 tstep. destruct v as [vs y l]; simpl in *. destruct l as [c|]; [|tsteps].
  do 4 tstep; [|tsteps]. tstep. rename s into s0. simpl in *. subst vs.
  pose proof (good_some _ _ _ Hg eq_refl) as Hr. do 5 tstep.
  destruct (s_Status s0 ==s StatusRecovering) eqn:Hst.
  - do 5 tstep. tstep; [by tsteps|]. tstep. simplify_eq.
    eapply fail_tail_tri; [|done|done|apply (ro_id _ _ Hr)].
    apply rtc_once, work_trans; try done; [apply (row_handle _ _ Hr)|].
    intros Hk. split; [by apply adapter_for_shell|done].
  - tstep. eapply fail_tail_tri; [reflexivity|done| |apply (ro_id _ _ Hr)].
    bool_to_prop. match goal with H : among (s_Status s0) _ = true |- _ => apply among_In in H; destruct H as [H|[H|[]]] end;
      congruence.
Qed.

(** ** Retained shells *)

Lemma RetireExitedShell_evolves id g success reason now d :
  good_db d -> evolves d (fst (RetireExitedShell id g success reason now d)).
Proof.
  intros Hgd. apply (trans_atomically id); [done|]. intros v Hg. unfold RetireExitedShell.
  do 4 tstep.
  - tstep. destruct v as [vs y l]; simpl in *; subst vs. tsteps.
    destruct l as [c|]; simpl; tsteps; try apply vtrans_refl.
    eapply vt_remove; [reflexivity|]. simplify_eq. eexists; split; [done|]. bool_to_prop. auto.
  - destruct e; tsteps. destruct (bool_decide _); tsteps. apply vtrans_refl.
Qed.

Lemma CompleteEndedShell_evolves p now d : good_db d -> evolves d (fst (CompleteEndedShell p now d)).
Proof.
  intros Hgd. apply (trans_atomically (p_SessionID p)); [done|]. intros v Hg. unfold CompleteEndedShell.
  tsteps. destruct (v_lifecycle v) as [c|] eqn:Hc; tsteps.
  - destruct (s_ExitSuccess s); tsteps. bool_to_prop.
    eapply vt_remove; [reflexivity|]. eexists. simpl. eauto.
  - destruct (GetLifecycleOutcome _ _ _); tsteps. apply vtrans_refl.
Qed.

(** ** Managed tasks *)

Lemma neutral_get_task sid tid : preserves same_views (getManagedTaskTx sid tid).
Proof. unfold getManagedTaskTx. preserves_tac. Qed.
Hint Resolve neutral_get_task : tx.

Lemma tri_validate_task (id : string) (v : view) (t : ManagedTask) (Q : view -> unit -> Prop) :
  t_SessionID t = id ->
  (forall s, v_session v = Some s -> s_Kind s = KindAgent -> v_yield v = None -> v_lifecycle v = None -> Q v tt) ->
  tri id v (validateManagedTaskTx t) Q.
Proof.
  intros Hid HQ. unfold validateManagedTaskTx. rewrite Hid. tsteps. destruct (d_bindings d !! id); tsteps.
  apply (HQ s H).
  - unfold AuthorizeAgentInput in H0. destruct (s_Kind s !=s KindAgent) eqn:Hk; [discriminate|]. by bool_to_prop.
  - match goal with H : bool_decide (v_yield v = None) = true |- _ => by apply bool_decide_eq_true in H end.
  - match goal with H : bool_decide (v_lifecycle v = None) = true |- _ => by apply bool_decide_eq_true in H end.
Qed.

Lemma PrepareManagedTask_evolves t now d : good_db d -> evolves d (fst (PrepareManagedTask t now d)).
Proof.
  intros Hgd. apply (trans_atomically (t_SessionID t)); [done|]. intros v Hg. unfold PrepareManagedTask.
  do 4 tstep.
  - tstep. destruct (same_task _ _); tsteps. apply vtrans_refl.
  - tstep. apply tri_validate_task; [done|]. intros s Hs Hk Hy Hl. tsteps. simplify_eq.
    pose proof (good_some _ _ _ Hg Hs) as Hr.
    destruct v as [vs y l]; simpl in *; subst.
    apply live_one, work_trans; try done; [apply (row_handle _ _ Hr)| |].
    + intros Hk'. rewrite Hk in Hk'. discriminate.
    + by right.
Qed.

Lemma FailManagedTask_evolves sid tid c g now now' d :
  good_db d -> evolves d (fst (FailManagedTask sid tid c g now now' d)).
Proof.
  intros Hgd. apply (trans_atomically sid); [done|]. intros v Hg. tsteps.
  pose proof (good_some _ _ _ Hg H1) as Hr.
  destruct v as [vs y l]; simpl in *; subst.
  apply live_one, work_trans; try done; [apply (row_handle _ _ Hr)|].
  intros Hk. destruct (row_shell _ _ Hr Hk). done.
Qed.

Lemma AckManagedTaskEvent_evolves sid tid n o now d :
  evolves d (fst (AckManagedTaskEvent sid tid n o now d)).
Proof.
  unfold AckManagedTaskEvent.
  match goal with |- context [atomically ?m d] =>
    assert (He : evolves d (fst (atomically m d))); [|destruct (atomically m d) as [d' [|]]; exact He] end.
  apply neutral_atomically. unfold one_row. preserves_tac.
Qed.

Lemma MarkManagedTaskRunning_evolves sid tid g now d :
  evolves d (fst (MarkManagedTaskRunning sid tid g now d)).
Proof.
  unfold MarkManagedTaskRunning.
  match goal with |- context [atomically ?m d] =>
    assert (He : evolves d (fst (atomically m d))); [|destruct (atomically m d) as [d' [|]]; exact He] end.
  apply neutral_atomically. unfold one_row. preserves_tac.
Qed.


(** What a task operation may do to the session it read: plain work, or the
    transfer of a pending yield. *)
Inductive task_change (s : Session) (y : option PendingYield) (l : option PendingLifecycle) : Session -> Prop :=
| tc_work s1 :
    assign_session s1 s = s1 -> same_identity s s1 -> same_fence s s1 -> admission s s1 y l ->
    task_change s y l s1
| tc_apply y0 :
    y = Some y0 -> s_Status s = StatusRunning -> s_AdapterState s = AdapterHealthy ->
    task_change s y l (set_Owner (Some (y_Requester y0)) (s_OwnershipEpoch s + 1) (set_TaskState TaskIdle s)).

Lemma assign_UpdatedAt (now : Z) (s1 s : Session) :
  assign_session s1 s = s1 -> assign_session (set_UpdatedAt now s1) s = set_UpdatedAt now s1.
Proof.
  intros H. change (assign_session (set_UpdatedAt now s1) s) with (set_UpdatedAt now (assign_session s1 s)).
  by rewrite H.
Qed.

Lemma task_change_assign s y l s1 now :
  task_change s y l s1 -> assign_session (set_UpdatedAt now s1) s = set_UpdatedAt now s1.
Proof. destruct 1; [by apply assign_UpdatedAt|reflexivity]. Qed.

Lemma task_change_id s y l s1 : task_change s y l s1 -> s_ID s1 = s_ID s.
Proof. destruct 1; [|done]. by destruct H0. Qed.

(** The step of the machine, once the row is written and the yield deleted if it
    was applied. *)
Lemma task_change_live (id : string) (s s1 : Session) y l (now : Z) :
  good id (mkView (Some s) y l) -> task_change s y l s1 -> ValidSession (set_UpdatedAt now s1) ->
  session_check (set_UpdatedAt now s1) = true -> (s_OwnershipEpoch s1 < 2 ^ 63)%Z -> (s_RuntimeGeneration s1 < 2 ^ 63)%Z ->
  live id (mkView (Some s) y l)
    (mkView (Some (set_UpdatedAt now s1)) (if decide (s_OwnershipEpoch s1 = s_OwnershipEpoch s) then y else None) l).
Proof.
  intros Hg Hch Hv Hc He Hgen. pose proof (good_some _ _ _ Hg eq_refl) as Hr.
  assert (Hrow : row_ok id (set_UpdatedAt now s1)).
  { split; try done. simpl. by rewrite (task_change_id _ _ _ _ Hch), (ro_id _ _ Hr). }
  destruct Hch as [s1 Ha Hi Hf Had|y0 -> Hst Had].
  - destruct Hf as (Hw & Hep & Hgn). rewrite decide_True by done. by apply l_work.
  - simpl. rewrite decide_False by lia. apply l_apply; try done.
    destruct Hg as (_ & Hy & _). apply (Hy y0 eq_refl).
Qed.

Lemma apply_yield_change (id : string) (s s1 : Session) y l :
  good id (mkView (Some s) y l) -> apply_yield (set_TaskState TaskIdle s) y = Ok s1 -> task_change s y l s1.
Proof.
  intros Hg Hap. pose proof (good_some _ _ _ Hg eq_refl) as Hr. destruct Hg as (_ & Hy & _). simpl in Hy.
  assert (Hwork : task_change s y l (set_TaskState TaskIdle s)) by (by apply tc_work).
  destruct y as [y|]; [|by injection Hap as <-].
  destruct (apply_yield_good _ _ _ _ _ Hr (Hy y eq_refl) Hap) as (Hst & [(_ & ->)|(Ha & ->)]); [done|].
  by apply tc_apply.
Qed.

(** Delivery deletes the yield, whether it was applied or not. *)
Lemma delivery_lives (id : string) (s s1 : Session) y l (now : Z) :
  good id (mkView (Some s) y l) -> apply_yield (set_TaskState TaskIdle s) y = Ok s1 ->
  ValidSession (set_UpdatedAt now s1) -> session_check (set_UpdatedAt now s1) = true ->
  (s_OwnershipEpoch s1 < 2 ^ 63)%Z -> (s_RuntimeGeneration s1 < 2 ^ 63)%Z ->
  rtc (live id) (mkView (Some s) y l) (mkView (Some (set_UpdatedAt now s1)) None l).
Proof.
  intros Hg Hap Hv Hc He Hgen. pose proof (good_some _ _ _ Hg eq_refl) as Hr.
  pose proof (task_change_live _ _ _ _ _ now Hg (apply_yield_change _ _ _ _ _ Hg Hap) Hv Hc He Hgen) as Hl.
  destruct y as [y|]; [|by case_decide; apply rtc_once].
  destruct Hg as (_ & Hy & _).
  destruct (apply_yield_good _ _ _ _ _ Hr (Hy y eq_refl) Hap) as (_ & [(Ha & ->)|(_ & ->)]).
  - rewrite decide_True in Hl by done. eapply rtc_l; [exact Hl|]. by apply rtc_once, l_drop.
  - rewrite decide_False in Hl by (simpl; lia). by apply rtc_once.
Qed.

Lemma FinalizeDelivery_evolves sid tid o hook now d :
  good_db d -> evolves d (fst (FinalizeManagedTaskDeliveryWithHook sid tid o hook now d)).
Proof.
  intros Hgd. apply (trans_atomically sid); [done|]. intros v Hg. unfold FinalizeManagedTaskDeliveryWithHook.
  do 2 tstep; [|tsteps]. tstep. do 4 tstep. destruct v as [vs y l]; simpl in *; subst vs.
  pose proof (good_some _ _ _ Hg eq_refl) as Hr.
  destruct ((s_TaskState s ==s TaskIdle) || _); [tsteps; apply vtrans_refl|].
  do 6 tstep. rename H1 into Hap. pose proof (apply_yield_change _ _ _ _ _ Hg Hap) as Hch.
  assert (Hfin : tri sid (mkView (Some s) None l) (
    _ <-t (if negb (s_OwnershipEpoch (set_UpdatedAt now a0) =? s_OwnershipEpoch s)%Z
           then run_hook hook (set_UpdatedAt now a0) else ret tt);
    _ <-t UpdateSessionTx (set_UpdatedAt now a0) (s_OwnershipEpoch s) (s_RuntimeGeneration s); ret a)
    (fun v' _ => vtrans sid (mkView (Some s) y l) v')).
  { tstep. apply tri_neutral; [preserves_tac|]. intros _. tstep. apply tri_update_tx.
    - simpl. by rewrite (task_change_id _ _ _ _ Hch), (ro_id _ _ Hr).
    - intros r [= <-] Hv _ Hc He Hgen. rewrite (task_change_assign _ _ _ _ now Hch) in *.
      tstep. by apply vt_live, delivery_lives. }
  tstep. destruct y as [y|]; simpl bool_decide; cbv iota; [tstep; exact Hfin|tstep; exact Hfin].
Qed.

Lemma ApplyManagedTaskEvent_evolves sid g e hook now d :
  good_db d -> evolves d (fst (ApplyManagedTaskEvent sid g e hook now d)).
Proof.
  intros Hgd. apply (trans_atomically sid); [done|]. intros v Hg. unfold ApplyManagedTaskEvent. do 6 tstep.
  destruct (d_receipts _ !! _) as [r|].
  { destruct (er_Digest r ==s e_Digest e); tsteps. apply vtrans_refl. }
  tsteps. destruct v as [vs y l]; simpl in *; subst vs. pose proof (good_some _ _ _ Hg eq_refl) as Hr.
  destruct (event_effect e now a (set_UpdatedAt now s)) as [[[t' s'] terminal]|] eqn:Heff; [|tsteps].
  assert (Hch : exists s1, task_change s y l s1 /\ s_OwnershipEpoch s1 = s_OwnershipEpoch s /\ s' = set_UpdatedAt now s1).
  { unfold event_effect in Heff. repeat case_hyp Heff; simplify_eq.
    - exists s. split_and!; [|done|done]. apply tc_work; try done; [by destruct s|]. intros Ht. by left.
    - exists (set_TaskState TaskReplying s). split_and!; [|done|done]. by apply tc_work.
    - exists (set_TaskState TaskReplying s). split_and!; [|done|done]. by apply tc_work. }
  destruct Hch as (s1 & Hch & Hep & ->).
  do 1 tstep. apply tri_neutral; [preserves_tac|]. intros _. do 3 tstep. apply tri_neutral; [preserves_tac|]. intros _.
  do 7 tstep. apply tri_update_tx.
  { simpl. by rewrite (task_change_id _ _ _ _ Hch), (ro_id _ _ Hr). }
  intros r [= <-] Hv _ Hc He Hgen. rewrite (task_change_assign _ _ _ _ now Hch) in *.
  tstep. apply tri_neutral; [preserves_tac|]. intros _. tstep.
  pose proof (task_change_live _ _ _ _ _ now Hg Hch Hv Hc He Hgen) as Hl.
  rewrite decide_True in Hl by done. by apply live_one.
Qed.

(** ** Operations on other tables *)

Lemma neutral_activity_body sid c w g o e src fs fe now :
  preserves same_views (recordActivityBody sid c w g o e src fs fe now).
Proof.
  unfold recordActivityBody, category_validate, put_callback. preserves_tac; by apply neutral_write.
Qed.

Lemma recordActivity_evolves sid c w g o e src fs fe now d :
  evolves d (fst (recordActivity sid c w g o e src fs fe now d)).
Proof. apply neutral_atomically, neutral_activity_body. Qed.

Lemma InvalidateVisibility_evolves sid g d : evolves d (fst (InvalidateVisibility sid g d)).
Proof. apply neutral_atomically. preserves_tac; by apply neutral_write. Qed.

Lemma DeleteRetained_evolves sid g d : evolves d (fst (DeleteRetainedShellSession sid g d)).
Proof. apply neutral_atomically. preserves_tac; by apply neutral_write. Qed.

Lemma InvalidateHook_evolves src d : evolves d (fst (InvalidateHookInstallation src d)).
Proof. apply neutral_atomically. preserves_tac; by apply neutral_write. Qed.

Lemma SetHook_evolves src b d : evolves d (fst (SetHookInstallation src b d)).
Proof. apply neutral_atomically. preserves_tac; by apply neutral_write. Qed.

(** ** The service *)

Lemma RunMutation_evolves (id : string) key now fn d :
  good_db d -> trans id fn -> evolves d (fst (RunMutation key now fn d)).
Proof.
  intros Hgd Hfn. apply (trans_atomically id); [done|]. intros v Hg. tsteps.
  destruct (d_mutations _ !! _) as [r|].
  - tsteps. destruct (m_Response r); tsteps. apply vtrans_refl.
  - tstep. tstep. tstep. eapply tri_weaken; [by apply Hfn|]. intros v' a Ht. by tsteps.
Qed.

Lemma run_and_read_evolves {A : Type} (reader : doc -> option A) (id : string) key now fn d :
  good_db d -> trans id fn -> evolves d (fst (run_and_read reader key now fn d)).
Proof.
  intros Hgd Hfn. unfold run_and_read. pose proof (RunMutation_evolves id key now fn d Hgd Hfn) as H.
  by destruct (RunMutation key now fn d).
Qed.


Context `{ET : ErrorTexts}.
Variable sha256 : string -> string.

Lemma neutral_reply o : preserves same_views (reply o).
Proof. unfold reply. preserves_tac. Qed.

Lemma neutral_service_audit p e o s now : preserves same_views (audit p e o s now).
Proof. unfold audit, InsertAuditTx. preserves_tac. Qed.
Hint Resolve neutral_reply neutral_service_audit : tx.

Lemma tri_rename (id : string) (v : view) handle e g now (Q : view -> unit -> Prop) :
  good id v ->
  (forall v', live id v v' -> Q v' tt) -> tri id v (RenameSessionTx id handle e g now) Q.
Proof.
  intros Hg HQ. unfold RenameSessionTx. tsteps. pose proof (good_some _ _ _ Hg H2) as Hr.
  apply HQ. destruct v as [vs y l]; simpl in *; subst.
  apply work_trans; try done.
  - simpl. by rewrite (ValidateHandle_idem _ _ H).
  - intros Hk. by apply (row_shell _ _ Hr).
  - by left.
Qed.

Lemma RenameSession_evolves p rq id h e g clk d :
  good_db d -> evolves d (fst (RenameSession sha256 p rq id h e g clk d)).
Proof.
  intros Hgd. unfold RenameSession. destruct (ValidateHandle h) as [h'|]; [|apply db_evolves_refl].
  apply (run_and_read_evolves _ id); [done|]. intros v Hg. tsteps.
  destruct (owner_refusal _ _ s); [tsteps; apply vtrans_refl|].
  destruct (negb _); [tsteps; apply vtrans_refl|]. destruct (negb _); [tsteps; apply vtrans_refl|].
  tstep. apply tri_rename; [done|]. intros v' Hl. tsteps. by apply live_one.
Qed.

Lemma neutral_binding_by_session id : preserves same_views (GetBindingBySessionTx id).
Proof. unfold GetBindingBySessionTx. preserves_tac. Qed.

Lemma neutral_binding_by_channel h : preserves same_views (GetBindingByChannelTx h).
Proof. unfold GetBindingByChannelTx. preserves_tac. Qed.

Lemma neutral_delete_binding_tx id : preserves same_views (DeleteBindingTx id).
Proof. unfold DeleteBindingTx, one_row. preserves_tac. Qed.
Hint Resolve neutral_binding_by_session neutral_binding_by_channel neutral_delete_binding_tx : tx.

Lemma neutral_insert_binding_tx b : preserves same_views (InsertBindingTx b).
Proof. unfold InsertBindingTx. preserves_tac. Qed.
Hint Resolve neutral_insert_binding_tx : tx.

Lemma UnbindDiscord_evolves p rq id clk d : good_db d -> evolves d (fst (UnbindDiscord sha256 p rq id clk d)).
Proof.
  intros Hgd. unfold UnbindDiscord. destruct (negb _); [apply db_evolves_refl|].
  apply (run_and_read_evolves _ id); [done|]. intros v Hg. apply tri_neutral; [|intros; apply vtrans_refl].
  preserves_tac.
Qed.

Lemma BindDiscord_evolves p rq id c clk d : good_db d -> evolves d (fst (BindDiscord sha256 p rq id c clk d)).
Proof.
  intros Hgd. unfold BindDiscord. destruct (_ || _); [apply db_evolves_refl|].
  apply (run_and_read_evolves _ id); [done|]. intros v Hg. apply tri_neutral; [|intros; apply vtrans_refl].
  preserves_tac.
Qed.

Lemma DestroyStoppedSession_evolves p rq id e g clk d :
  good_db d -> evolves d (fst (DestroyStoppedSession sha256 p rq id e g clk d)).
Proof.
  intros Hgd. unfold DestroyStoppedSession.
  apply (run_and_read_evolves _ id); [done|]. intros v Hg. tsteps.
  destruct (owner_refusal _ _ s); [tsteps; apply vtrans_refl|].
  do 3 (destruct (negb _); [tsteps; apply vtrans_refl|]).
  unfold DeleteStoppedSessionTx. tsteps. eapply vt_remove; [reflexivity|]. bool_to_prop. eexists. eauto.
Qed.

Lemma AdmitManagedTask_evolves p t now d : good_db d -> evolves d (fst (AdmitManagedTask p t now d)).
Proof.
  intros Hgd. unfold AdmitManagedTask. destruct (negb _); [apply db_evolves_refl|].
  pose proof (PrepareManagedTask_evolves t now d Hgd) as H. by destruct (PrepareManagedTask t now d).
Qed.

Lemma CreateSession_evolves p rq s clk d : good_db d -> evolves d (fst (CreateSession sha256 p rq s clk d)).
Proof.
  intros Hgd. unfold CreateSession. destruct (Session_Validate s) as [[]|] eqn:Hv; [|apply db_evolves_refl].
  do 2 (destruct (_ && _); [apply db_evolves_refl|]).
  apply (run_and_read_evolves _ (s_ID s)); [done|]. intros v Hg. unfold InsertSessionTx. do 3 tstep.
  apply tri_insert_session; [done|]. intros Hn Hc He Hgen. tsteps.
  unfold good in Hg. rewrite Hn in Hg. destruct v as [vs y l]; simpl in *; subst. destruct Hg as [-> ->].
  apply vt_create. split; try done. by apply Session_Validate_iff.
Qed.

Lemma CreateIdempotent_evolves p rq f s now d : good_db d -> evolves d (fst (CreateSessionIdempotent p rq f s now d)).
Proof.
  intros Hgd. apply (run_and_read_evolves _ (s_ID s)); [done|]. intros v Hg. unfold InsertSessionTx.
  destruct (Session_Validate s) as [[]|] eqn:Hv; [|tsteps]. do 3 tstep.
  apply tri_insert_session; [done|]. intros Hn Hc He Hgen. tsteps.
  unfold good in Hg. rewrite Hn in Hg. destruct v as [vs y l]; simpl in *; subst. destruct Hg as [-> ->].
  apply vt_create. split; try done. by apply Session_Validate_iff.
Qed.

Lemma RequestYield_evolves p rq id r w e g hook clk d :
  good_db d -> evolves d (fst (RequestYieldWithHook sha256 p rq id r w e g hook clk d)).
Proof.
  intros Hgd. unfold RequestYieldWithHook. destruct (negb _); [apply db_evolves_refl|].
  apply (run_and_read_evolves _ id); [done|]. intros v Hg. unfold RequestYieldBody. do 2 tstep.
  destruct v as [vs y l]; simpl in *; subst vs. pose proof (good_some _ _ _ Hg eq_refl) as Hr.
  do 2 (destruct (negb _); [tsteps; apply vtrans_refl|]). do 4 tstep.
  destruct l; [tsteps; apply vtrans_refl|].
  destruct (RequestYield s r w y) as [[[dec s'] np]|] eqn:HR; [|tsteps; apply vtrans_refl].
  apply RequestYield_Ok in HR. destruct HR as (Hk & Hst & Ho & -> & [HR|[HR|HR]]).
  - destruct HR as (-> & -> & -> & _). tstep. change (YieldUnchanged ==s YieldTransferred) with false. cbv iota.
    tsteps. apply vtrans_refl.
  - destruct HR as (-> & -> & -> & Hw & Ht). tsteps; [apply (ro_id _ _ Hr)|].
    apply live_one, l_wait; try done. apply (ro_id _ _ Hr).
  - destruct HR as (-> & -> & -> & Hw & Ha & Ht). rewrite (u64_succ_epoch _ _ Hr). tstep.
    change (YieldTransferred ==s YieldTransferred) with true. cbv iota. do 3 tstep.
    apply tri_update_tx; [apply (ro_id _ _ Hr)|]. intros x [= <-] Hv _ Hc He Hgen. tsteps.
    apply live_one, (l_transfer _ _ _ r); try done. split; try done. apply (ro_id _ _ Hr).
Qed.

(** Task operations. *)
Definition changes_task (op : string) (tr : taskTransition) : Prop :=
  forall id s y l s1, good id (mkView (Some s) y l) -> (op = "begin_task" -> l = None) ->
    tr s y = (s1, None) -> task_change s y l s1.

Lemma taskBody_trans p op id tr hook clk : changes_task op tr -> trans id (taskBody p op id tr hook clk).
Proof.
  intros Htr v Hg. unfold taskBody. do 6 tstep.
  destruct v as [vs y l]; simpl in *; subst vs. pose proof (good_some _ _ _ Hg eq_refl) as Hr.
  destruct (bool_decide (is_Some l) && (op ==s "begin_task")) eqn:Hdrain; [tsteps; apply vtrans_refl|].
  assert (Hl : op = "begin_task" -> l = None).
  { intros ->. destruct l; [|done]. discriminate. }
  destruct (tr s y) as [s1 [err|]] eqn:E; [tsteps; apply vtrans_refl|].
  pose proof (Htr id s y l s1 Hg Hl E) as Hch.
  tstep. apply tri_neutral; [preserves_tac|]. intros _. tstep. apply tri_update_tx.
  { simpl. by rewrite (task_change_id _ _ _ _ Hch), (ro_id _ _ Hr). }
  intros x [= <-] Hv _ Hc He Hgen. rewrite (task_change_assign _ _ _ _ _ Hch) in *.
  pose proof (task_change_live _ _ _ _ _ _ Hg Hch Hv Hc He Hgen) as Hlive.
  destruct y as [y|]; [|case_decide; tsteps; by apply live_one].
  destruct Hg as (_ & Hy & _). destruct (Hy y eq_refl) as [_ _ Hye _ _ _]. simpl s_OwnershipEpoch. rewrite Hye.
  destruct Hch as [s1 Ha Hi (Hw & Hep & Hgn) Had|y0 Hy0 Hst Had].
  - rewrite decide_True in Hlive by done. rewrite <-Hep, Z.eqb_refl. simpl. rewrite andb_false_r.
    tsteps. by apply live_one.
  - simpl in Hlive. rewrite decide_False in Hlive by lia. simpl.
    assert ((s_OwnershipEpoch s + 1 =? s_OwnershipEpoch s)%Z = false) as -> by lia. simpl.
    tsteps. by apply live_one.
Qed.

Lemma begin_changes o e g : changes_task "begin_task" (beginTaskTransition o e g).
Proof.
  intros id s y l s1 Hg Hl. unfold beginTaskTransition. destruct (AuthorizeAgentInput s o e g); [|discriminate].
  destruct y; [discriminate|]. destruct (negb _); [discriminate|]. intros [= <-].
  apply tc_work; try done. intros _. right. auto.
Qed.

Lemma reply_changes op : changes_task op beginReplyTransition.
Proof.
  intros id s y l s1 Hg Hl. unfold beginReplyTransition. destruct (negb _); [discriminate|]. intros [= <-].
  by apply tc_work.
Qed.

Lemma complete_changes op : changes_task op completeTransition.
Proof.
  intros id s y l s1 Hg Hl. unfold completeTransition. destruct (negb _); [discriminate|].
  destruct (apply_yield _ y) as [s2|] eqn:E; [|discriminate]. intros [= <-]. by eapply apply_yield_change.
Qed.

Lemma runtime_changes op g tr : changes_task op tr -> changes_task op (runtimeTransition g tr).
Proof.
  intros Htr id s y l s1 Hg Hl. unfold runtimeTransition. destruct (negb _); [discriminate|]. by eapply Htr.
Qed.

Lemma owner_complete_changes op o e g : changes_task op (ownerCompleteTransition o e g).
Proof.
  intros id s y l s1 Hg Hl. unfold ownerCompleteTransition. destruct (AuthorizeAgentInput s o e g); [|discriminate].
  by eapply complete_changes.
Qed.

Lemma runTaskMutation_evolves p rq op id payload tr hook clk d :
  changes_task op tr -> good_db d -> evolves d (fst (runTaskMutationWithHook sha256 p rq op id payload tr hook clk d)).
Proof. intros Htr Hgd. apply (run_and_read_evolves _ id); [done|]. by apply taskBody_trans. Qed.

End Steps.
