(* ===== verification/SessionSafety.v ===== *)
(** * What holds of every database Ducklion can reach

    The theorems on ownership, on the lifecycle barrier and on readable rows, for
    all databases that [SessionRun.runs] leads to from the empty one. *)

From stdpp Require Import sorting.
From S2P Require Import Prelude GoStrings GoMarshal Session SessionDB TxLogic SessionStore SessionSpec TaskStore SessionService SessionRefine SessionSteps SessionRun.
Local Open Scope go_scope.

Section Safety.
Context `{UC : UnicodeCase} `{UF : UnicodeFormat} `{ET : ErrorTexts}.
Variable sha256 : string -> string.

Lemma run_evolves (o : db_op) (d : db) : good_db d -> evolves d (run sha256 o d).
Proof.
  intros Hg. destruct o; unfold run;
    auto using CreateSession_evolves, CreateIdempotent_evolves, RenameSession_evolves, DestroyStoppedSession_evolves, BindDiscord_evolves,
      UnbindDiscord_evolves, RequestYield_evolves, AdmitManagedTask_evolves, MarkManagedTaskRunning_evolves,
      FailManagedTask_evolves, ApplyManagedTaskEvent_evolves, AckManagedTaskEvent_evolves, FinalizeDelivery_evolves,
      MarkRuntimeConnected_evolves, MarkRuntimeDisconnected_evolves, PrepareRuntimeRecovery_evolves,
      MarkRuntimeExited_evolves, RetireExitedShell_evolves, ReserveLifecycle_evolves, CompleteLifecycle_evolves,
      FailLifecycleRestart_evolves, BeginLifecycleRestart_evolves, CompareAndSwap_evolves, CancelWaiting_evolves,
      DeletePending_evolves, DeletePendingRequest_evolves, CompleteEndedShell_evolves, DeleteRetained_evolves,
      recordActivity_evolves, InvalidateVisibility_evolves, InvalidateHook_evolves, SetHook_evolves.
  - unfold BeginTask. destruct (negb _); [apply db_evolves_refl|].
    by apply runTaskMutation_evolves; [apply begin_changes|].
  - apply runTaskMutation_evolves; [apply runtime_changes, reply_changes|done].
  - apply runTaskMutation_evolves; [apply runtime_changes, complete_changes|done].
  - unfold CompleteOwnerReplyWithHook. destruct (negb _); [apply db_evolves_refl|].
    by apply runTaskMutation_evolves; [apply owner_complete_changes|].
Qed.

Lemma good_empty : good_db empty_db.
Proof. intros id. apply good_absent. Qed.

Lemma run_good (o : db_op) (d : db) : good_db d -> good_db (run sha256 o d).
Proof. intros Hg id. eapply good_vtrans; [by apply run_evolves|apply Hg]. Qed.

Lemma runs_good (os : list db_op) (d : db) : good_db d -> good_db (runs sha256 os d).
Proof. revert d. induction os as [|o os IH]; intros d Hg; simpl; auto using run_good. Qed.

Lemma reachable_good (d : db) : reachable sha256 d -> good_db d.
Proof. intros [os ->]. apply runs_good, good_empty. Qed.

(** ** Refinement *)

(** C7. Every operation of the store and of the service, run on a reachable
    database, takes every session by a transition of the abstract session machine
    ([vtrans]): a sequence of [live] changes, raising or lowering the lifecycle
    barrier, creation or removal, with the guards the machine states. *)
Theorem store_refines_machine (d : db) (o : db_op) (id : string) :
  reachable sha256 d -> vtrans id (view_of d id) (view_of (run sha256 o d) id).
Proof. intros Hr. apply run_evolves. by apply reachable_good. Qed.

(** ** Readable rows *)

Lemma GetSession_total (d : db) (id : string) :
  good_db d -> GetSession id d = match d_sessions d !! id with Some s => Ok s | None => Err ErrNotFound end.
Proof.
  intros Hg. unfold GetSession, scanSession. destruct (d_sessions d !! id) as [s|] eqn:E; [|done].
  pose proof (good_some _ _ _ (Hg id) E) as Hr. destruct Hr as [_ Hv _ _ _].
  apply Session_Validate_iff in Hv. by rewrite Hv.
Qed.

Lemma scan_all_valid (l : list Session) : Forall ValidSession l -> scan_all l = Ok l.
Proof.
  induction 1 as [|s l Hs _ IH]; [done|]. simpl. apply Session_Validate_iff in Hs.
  rewrite Hs, IH. done.
Qed.

Lemma ListSessions_total (d : db) :
  good_db d -> exists l, ListSessions d = Ok l /\ l ≡ₚ (snd <$> map_to_list (d_sessions d)).
Proof.
  intros Hg. set (rows := snd <$> map_to_list (d_sessions d)).
  exists (sort_by session_order rows). assert (Hp : sort_by session_order rows ≡ₚ rows) by apply merge_sort_Permutation.
  split; [|done]. apply scan_all_valid. rewrite Hp. apply Forall_fmap, Forall_forall. intros [k s] Hin.
  apply elem_of_map_to_list in Hin. apply (good_some _ _ _ (Hg k) Hin).
Qed.

(** C39. On a reachable sha256 database every stored session can be read back: [GetSession]
    returns exactly the row, [ErrNotFound] when there is none and never an invalid
    persisted session, and [ListSessions] succeeds with all rows. *)
Theorem reachable_rows_readable (d : db) (id : string) :
  reachable sha256 d ->
  GetSession id d = match d_sessions d !! id with Some s => Ok s | None => Err ErrNotFound end
  /\ exists l, ListSessions d = Ok l /\ l ≡ₚ (snd <$> map_to_list (d_sessions d)).
Proof. intros Hr%reachable_good. auto using GetSession_total, ListSessions_total. Qed.

(** ** Ownership *)

Lemma stays_fenced (id : string) (os : list db_op) (d : db) (s s' : Session) :
  good_db d -> stays sha256 id os d -> d_sessions d !! id = Some s -> d_sessions (runs sha256 os d) !! id = Some s' ->
  fenced_after s s'.
Proof.
  revert d s. induction os as [|o os IH]; intros d s Hg Hst Hs Hs'; simpl in *.
  - simplify_eq. apply fenced_refl.
  - destruct Hst as [_ Hst]. assert (is_Some (d_sessions (run sha256 o d) !! id)) as [s1 Hs1] by (destruct os; apply Hst).
    apply (fenced_trans s s1); [|exact (IH _ _ (run_good o d Hg) Hst Hs1 Hs')].
    exact (vtrans_fenced _ _ _ _ _ (run_evolves o d Hg id) Hs Hs1).
Qed.

(** Along any sequence of operations during which a session exists, its
    ownership epoch and runtime generation never decrease, its identity does not
    change, and its writer changes only with a larger epoch. *)
Theorem fences_only_grow (id : string) (os : list db_op) (d : db) (s s' : Session) :
  reachable sha256 d -> stays sha256 id os d -> d_sessions d !! id = Some s -> d_sessions (runs sha256 os d) !! id = Some s' ->
  fenced_after s s'.
Proof. intros Hr. apply stays_fenced. by apply reachable_good. Qed.

Lemma authorised (s : Session) (o : Owner) (e g : Z) (u : unit) :
  AuthorizeAgentInput s o e g = Ok u -> s_Writer s = Some o /\ s_OwnershipEpoch s = e.
Proof.
  unfold AuthorizeAgentInput, writer_is. intros H. repeat case_hyp H; try discriminate. bool_to_prop.
  apply bool_decide_eq_true in Heqb2. done.
Qed.

(** C8. An epoch of a session has one writer: if input with the same epoch is
    authorised for two owners, at two moments between which the session exists, the
    owners are the same.  A message of a former owner can never be accepted. *)
Theorem epoch_has_one_writer (id : string) (os : list db_op) (d : db) (s s' : Session)
    (o o' : Owner) (epoch generation generation' : Z) :
  reachable sha256 d -> stays sha256 id os d ->
  d_sessions d !! id = Some s -> d_sessions (runs sha256 os d) !! id = Some s' ->
  AuthorizeAgentInput s o epoch generation = Ok tt ->
  AuthorizeAgentInput s' o' epoch generation' = Ok tt ->
  o = o'.
Proof.
  intros Hr Hst Hs Hs' Ha Ha'. apply authorised in Ha, Ha'. destruct Ha as [Hw He], Ha' as [Hw' He'].
  destruct (stays_fenced _ _ _ _ _ (reachable_good _ Hr) Hst Hs Hs') as [_ _ _ Hf].
  destruct (decide (o = o')) as [|Hne]; [done|]. assert (s_Writer s <> s_Writer s') as Hd by congruence.
  specialize (Hf Hd). lia.
Qed.

(** ** The lifecycle barrier *)

(** C11. While a lifecycle operation is pending on a session, no operation
    whatsoever transfers ownership, bumps the epoch, leaves a waiting yield or
    admits a task. *)
Theorem lifecycle_barrier (d : db) (o : db_op) (id : string) (p : PendingLifecycle) (s s' : Session) :
  reachable sha256 d -> d_lifecycles d !! id = Some p ->
  d_sessions d !! id = Some s -> d_sessions (run sha256 o d) !! id = Some s' ->
  s_Writer s' = s_Writer s /\ s_OwnershipEpoch s' = s_OwnershipEpoch s
  /\ d_yields (run sha256 o d) !! id = None
  /\ (s_TaskState s' = TaskRunning -> s_TaskState s = TaskRunning).
Proof.
  intros Hr%reachable_good Hp Hs Hs'.
  destruct (vtrans_held _ _ _ _ _ _ (Hr id) (run_evolves o d Hr id) Hp Hs Hs'); auto.
Qed.

(** ** Pending yields *)

(** A pending yield always belongs to the current epoch of an existing agent
    session, is asked for by a valid owner who is not the writer, and never
    coexists with a lifecycle operation; applying it can therefore not meet a stale
    epoch. *)
Theorem pending_yield_current (d : db) (id : string) (y : PendingYield) :
  reachable sha256 d -> d_yields d !! id = Some y ->
  exists s, d_sessions d !! id = Some s /\ s_Kind s = KindAgent
    /\ y_SourceEpoch y = s_OwnershipEpoch s /\ s_Writer s <> Some (y_Requester y)
    /\ Owner_Validate (y_Requester y) = Ok tt
    /\ d_lifecycles d !! id = None
    /\ ApplyPendingYield s y <> Err ErrStaleEpoch.
Proof.
  intros Hr%reachable_good Hy. specialize (Hr id). unfold good, view_of in Hr. simpl in Hr.
  destruct (d_sessions d !! id) as [s|]; [|by destruct Hr; congruence].
  destruct Hr as (Hrow & Hgy & _). destruct (Hgy y Hy) as [Hid Hk He Ho Hw Hl].
  exists s. split_and!; try done. unfold ApplyPendingYield.
  rewrite Hid, (ro_id _ _ Hrow), He, String.eqb_refl, Z.eqb_refl. simpl.
  destruct (_ || _); [done|]. by destruct (_ || _).
Qed.

(** ** An exit that cannot be recorded *)

(** While a session is [recovering] with a yield waiting, the exit of its
    runtime cannot be recorded: the guard of [MarkRuntimeExited] admits the status,
    but the pending yield is refused as for a session that is not running, so the
    operation fails and changes nothing, whatever the report says. *)
Theorem recovering_exit_refused (d : db) (id : string) (s : Session) (y : PendingYield)
    (success : bool) (reason : string) (now : Z) :
  reachable sha256 d -> d_sessions d !! id = Some s -> s_Status s = StatusRecovering -> d_yields d !! id = Some y ->
  MarkRuntimeExited id (s_RuntimeGeneration s) success reason now d = (d, Err (ModelError ErrSessionNotRunning)).
Proof.
  intros Hr%reachable_good Hs Hst Hy. pose proof (GetSession_total d id Hr) as Hget. rewrite Hs in Hget.
  unfold MarkRuntimeExited, atomically, attempt, GetSessionTx, GetPendingYieldTx, tbind, read, guard, ret. cbv zeta beta.
  rewrite Hget. cbv beta iota zeta. rewrite Z.eqb_refl, Hst. change (true && _) with true.
  cbv beta iota zeta. rewrite Hy. unfold apply_yield, ApplyPendingYield. simpl s_Status. rewrite Hst.
  by destruct (s_Kind _ !=s KindAgent).
Qed.

End Safety.

(** ** On a concrete execution *)

Module Witness.
Import Sample.

Lemma store_refines_machine_witness :
  vtrans sid (view_of d_created sid) (view_of (run digest yield_to_gateway d_created) sid).
Proof. apply store_refines_machine. exact created_reachable. Defined.

Lemma reachable_rows_readable_witness : GetSession sid d_created = Ok session.
Proof.
  destruct (reachable_rows_readable digest d_created sid created_reachable) as [H _].
  rewrite H. vm_compute. reflexivity.
Defined.

Lemma fences_only_grow_witness : fenced_after session session_yielded.
Proof.
  apply (fences_only_grow digest sid [yield_to_gateway] d_created).
  - exact created_reachable.
  - apply stays_b_true. vm_compute. reflexivity.
  - vm_compute. reflexivity.
  - vm_compute. reflexivity.
Defined.

Lemma epoch_has_one_writer_witness : gateway = mkOwner OwnerCC "chan".
Proof.
  apply (epoch_has_one_writer digest sid [bind] d_yielded session_yielded session_yielded gateway _ 2 1 1).
  - exact yielded_reachable.
  - apply stays_b_true. vm_compute. reflexivity.
  - vm_compute. reflexivity.
  - vm_compute. reflexivity.
  - vm_compute. reflexivity.
  - vm_compute. reflexivity.
Defined.

Lemma lifecycle_barrier_witness :
  d_yields (run digest yield_to_gateway d_ending) !! sid = None
  /\ (s_Writer <$> d_sessions (run digest yield_to_gateway d_ending) !! sid) = Some (Some alice).
Proof.
  destruct (lifecycle_barrier digest d_ending yield_to_gateway sid (reserved end_request 3000) session session)
    as (_ & _ & Hy & _).
  - exact ending_reachable.
  - vm_compute. reflexivity.
  - vm_compute. reflexivity.
  - vm_compute. reflexivity.
  - split; [exact Hy|vm_compute; reflexivity].
Defined.

Lemma pending_yield_current_witness : d_lifecycles d_recovering !! sid = None.
Proof.
  destruct (pending_yield_current digest d_recovering sid (mkYield sid gateway 1 "r2" 1001)) as (s & _ & _ & _ & _ & _ & H & _).
  - exact recovering_reachable.
  - vm_compute. reflexivity.
  - exact H.
Defined.

Lemma recovering_exit_refused_witness :
  MarkRuntimeExited sid 1 true "" 5000 d_recovering = (d_recovering, Err (ModelError ErrSessionNotRunning)).
Proof.
  apply (recovering_exit_refused digest d_recovering sid
    (set_UpdatedAt 4000 (set_AdapterState AdapterRecovering (set_Status StatusRecovering (set_TaskState TaskRunning session))))
    (mkYield sid gateway 1 "r2" 1001)).
  - exact recovering_reachable.
  - vm_compute. reflexivity.
  - reflexivity.
  - vm_compute. reflexivity.
Defined.

End Witness.
