(* ===== verification/History.v ===== *)
(** * The memory of the store: receipts, mutations and the revision journal

    Three things the store never forgets or rewrites: a recorded mutation, a
    lifecycle outcome, and, up to pruning, the journal of visible changes.  [past]
    relates a database to a later one, and every operation of [SessionSafety]
    preserves it.

    The journal is compared with a log of all events since the beginning, of which
    the table holds the last 4096 ([represents]).  [shown] is what a client sees of
    a session in a snapshot. *)

From stdpp Require Import sorting.
From S2P Require Import Prelude GoStrings GoMarshal Session SessionDB TxLogic SessionStore TaskStore SessionService SessionSpec SessionRefine SessionSteps SessionRun SessionSafety.
Local Open Scope go_scope.

(** ** The journal as a window of a log *)

(** The n-th event of the log has revision n. *)
Definition numbered (start : Z) (l : list SessionRevision) : Prop :=
  forall i e, l !! i = Some e -> rv_Revision e = (start + Z.of_nat i + 1)%Z.

Record represents (d : db) (L : list SessionRevision) : Prop := mkRep {
  rp_numbered : numbered 0 L;
  rp_sequence : d_sequence d = Z.of_nat (length L);
  rp_window : d_journal d = drop (length L - 4096) L;
}.

Lemma numbered_app (start : Z) (l l' : list SessionRevision) :
  numbered start (l ++ l') <-> numbered start l /\ numbered (start + Z.of_nat (length l)) l'.
Proof.
  unfold numbered. split.
  - intros H. split; intros i e Hi.
    + apply H. by apply lookup_app_l_Some.
    + rewrite (H (length l + i) e); [lia|]. rewrite lookup_app_r by lia.
      by replace (length l + i - length l) with i by lia.
  - intros [H1 H2] i e Hi. apply lookup_app_Some in Hi. destruct Hi as [Hi|[Hle Hi]]; [auto|].
    rewrite (H2 _ _ Hi). lia.
Qed.

Lemma numbered_cons (start : Z) (e : SessionRevision) (l : list SessionRevision) :
  numbered start (e :: l) <-> rv_Revision e = (start + 1)%Z /\ numbered (start + 1) l.
Proof.
  change (e :: l) with ([e] ++ l). rewrite numbered_app. simpl.
  replace (start + Z.of_nat 1)%Z with (start + 1)%Z by lia. split; intros [H1 H2]; split; try done.
  - rewrite (H1 0 e eq_refl). lia.
  - intros [|i] x Hx; [|done]. simplify_eq/=. lia.
Qed.

(** Deleting the revisions up to a bound drops the same number of entries. *)
Lemma filter_numbered (start bound : Z) (l : list SessionRevision) :
  numbered start l ->
  List.filter (fun e => negb (rv_Revision e <=? bound)%Z) l = drop (Z.to_nat (bound - start)) l.
Proof.
  revert start. induction l as [|e l IH]; intros start H; [by rewrite drop_nil|].
  apply numbered_cons in H. destruct H as [He Hl]. specialize (IH _ Hl). simpl. rewrite He.
  destruct (Z.leb_spec (start + 1) bound); simpl.
  - rewrite IH. replace (Z.to_nat (bound - start)) with (S (Z.to_nat (bound - (start + 1)))) by lia. done.
  - rewrite IH. replace (Z.to_nat (bound - start)) with 0 by lia.
    by replace (Z.to_nat (bound - (start + 1))) with 0 by lia.
Qed.

Lemma numbered_drop (start : Z) (n : nat) (l : list SessionRevision) :
  n <= length l -> numbered start l -> numbered (start + Z.of_nat n) (drop n l).
Proof.
  intros Hn H. rewrite <-(take_drop n l) in H. apply numbered_app in H. destruct H as [_ H].
  by rewrite length_take_le in H.
Qed.

Lemma last_revision (L : list SessionRevision) (start : Z) :
  numbered start L -> L <> [] -> rv_Revision <$> last L = Some (start + Z.of_nat (length L))%Z.
Proof.
  intros Hn Hne. destruct (last L) as [e|] eqn:E; [|by apply last_None in E]. simpl. f_equal.
  rewrite last_lookup in E. rewrite (Hn _ _ E). destruct L; [done|]. simpl in *. lia.
Qed.

(** Appending an event and pruning. *)
Lemma represents_add (d : db) (L : list SessionRevision) (id change category : string) (seq : Z) :
  represents d L ->
  represents (prune_journal (add_event id change category seq d))
    (L ++ [mkRevision (Z.of_nat (length L) + 1) id change category seq]).
Proof.
  intros [Hn Hs Hw]. set (e := mkRevision _ _ _ _ _).
  assert (Hn' : numbered 0 (L ++ [e])).
  { apply numbered_app. split; [done|]. apply numbered_cons. split; [simpl; lia|by intros ? ?]. }
  split; [done|simpl; rewrite Hs, length_app; simpl; lia|].
  unfold prune_journal, add_event. cbv zeta. simpl. rewrite Hs, Hw. fold e.
  assert (Hd : drop (length L - 4096) L ++ [e] = drop (length L - 4096) (L ++ [e])).
  { rewrite drop_app_le by lia. done. }
  rewrite Hd. pose proof (numbered_drop 0 (length L - 4096) (L ++ [e])) as Hnd.
  rewrite length_app in Hnd. specialize (Hnd ltac:(lia) Hn'). rewrite Z.add_0_l in Hnd.
  unfold prune, max_revision. rewrite (last_revision _ _ Hnd).
  - rewrite length_drop, length_app. rewrite (filter_numbered _ _ _ Hnd), drop_drop. f_equal. simpl. lia.
  - intros Hnil. apply (f_equal length) in Hnil. rewrite length_drop, length_app in Hnil. simpl in Hnil. lia.
Qed.

(** ** What a client sees of a session *)

Definition visible_row (s : Session) :=
  (s_Handle s, s_Kind s, s_AgentType s, s_CWD s, s_Status s, s_Writer s, s_OwnershipEpoch s,
   s_RuntimeGeneration s, s_TaskState s, s_AdapterState s, s_ExitSuccess s, s_ExitReason s).

(** The snapshot of the session is the same in both databases. *)
Record same_shown (d d' : db) (id : string) : Prop := mkShown {
  sh_session : visible_row <$> d_sessions d !! id = visible_row <$> d_sessions d' !! id;
  sh_binding : d_bindings d !! id = d_bindings d' !! id;
  sh_activity : forall c, (fun a => (a_Sequence a, a_UpdatedAtMS a)) <$> d_activity d !! (id, c)
                        = (fun a => (a_Sequence a, a_UpdatedAtMS a)) <$> d_activity d' !! (id, c);
}.

Lemma same_shown_refl (d : db) (id : string) : same_shown d d id.
Proof. done. Qed.

Lemma same_shown_trans (d d1 d2 : db) (id : string) :
  same_shown d d1 id -> same_shown d1 d2 id -> same_shown d d2 id.
Proof. intros [H1 H2 H3] [H4 H5 H6]. split; [congruence|congruence|]. intros c. by rewrite H3. Qed.

Lemma visible_change_false (s s' : Session) : visible_change s s' = false -> visible_row s = visible_row s'.
Proof.
  unfold visible_change. intros H. apply negb_false_iff, bool_decide_eq_true in H. unfold visible_row.
  destruct_and!. congruence.
Qed.

(** The journal grows by events that name every session whose picture changed. *)
Definition journalled (d d' : db) : Prop :=
  forall L, represents d L -> exists evs, represents d' (L ++ evs)
    /\ forall id, same_shown d d' id \/ In id (map rv_SessionID evs).

(** What every statement of a transaction respects. *)
Record hist (d d' : db) : Prop := mkHist {
  hi_mutations : d_mutations d' = d_mutations d;
  hi_outcomes : d_outcomes d ⊆ d_outcomes d';
  hi_journal : journalled d d';
}.

(** What every operation respects. *)
Record past (d d' : db) : Prop := mkPast {
  pa_mutations : d_mutations d ⊆ d_mutations d';
  pa_outcomes : d_outcomes d ⊆ d_outcomes d';
  pa_journal : journalled d d';
}.

Lemma journalled_refl (d : db) : journalled d d.
Proof. intros L HL. exists []. rewrite app_nil_r. auto using same_shown_refl. Qed.

Lemma journalled_trans (d d1 d2 : db) : journalled d d1 -> journalled d1 d2 -> journalled d d2.
Proof.
  intros H1 H2 L HL. destruct (H1 L HL) as (e1 & Hr1 & Hn1). destruct (H2 _ Hr1) as (e2 & Hr2 & Hn2).
  exists (e1 ++ e2). rewrite app_assoc. split; [done|]. intros id. rewrite map_app, in_app_iff.
  destruct (Hn1 id); [|auto]. destruct (Hn2 id); [|auto]. eauto using same_shown_trans.
Qed.

#[export] Instance hist_preorder : PreOrder hist.
Proof.
  split.
  - intros d. split; [done|done|apply journalled_refl].
  - intros d1 d2 d3 [M1 O1 J1] [M2 O2 J2]. split; [congruence|by transitivity (d_outcomes d2)|].
    eauto using journalled_trans.
Qed.

#[export] Instance past_preorder : PreOrder past.
Proof.
  split.
  - intros d. split; [done|done|apply journalled_refl].
  - intros d1 d2 d3 [M1 O1 J1] [M2 O2 J2].
    split; [by transitivity (d_mutations d2)|by transitivity (d_outcomes d2)|]. eauto using journalled_trans.
Qed.

Lemma hist_past (d d' : db) : hist d d' -> past d d'.
Proof. intros [M O J]. split; [by rewrite M|done|done]. Qed.

Lemma represents_ext (d d' : db) (L : list SessionRevision) :
  d_journal d' = d_journal d -> d_sequence d' = d_sequence d -> represents d L -> represents d' L.
Proof. intros Hj Hs [H1 H2 H3]. split; [done|congruence|congruence]. Qed.

(** Changes that no client sees. *)
Lemma journalled_quiet (d d' : db) :
  d_journal d' = d_journal d -> d_sequence d' = d_sequence d -> (forall id, same_shown d d' id) -> journalled d d'.
Proof.
  intros Hj Hs Hsh L HL. exists []. rewrite app_nil_r. split; [by eapply represents_ext|auto].
Qed.

Lemma hist_quiet (d d' : db) :
  d_mutations d' = d_mutations d -> d_outcomes d ⊆ d_outcomes d' -> d_journal d' = d_journal d ->
  d_sequence d' = d_sequence d -> d_sessions d' = d_sessions d -> d_bindings d' = d_bindings d ->
  d_activity d' = d_activity d -> hist d d'.
Proof.
  intros Hm Ho Hj Hs H1 H2 H3. split; [done|done|]. apply journalled_quiet; [done|done|].
  intros id. split; by rewrite ?H1, ?H2, ?H3.
Qed.

(** A change of one session followed by an event that names it. *)
Lemma journalled_event (d d1 d2 : db) (id change category : string) (seq : Z) :
  d_journal d1 = d_journal d -> d_sequence d1 = d_sequence d ->
  d_journal d2 = d_journal (prune_journal (add_event id change category seq d1)) ->
  d_sequence d2 = (d_sequence d1 + 1)%Z ->
  (forall id', id' <> id -> same_shown d d2 id') -> journalled d d2.
Proof.
  intros Hj Hs Hj2 Hs2 Hsh L HL. eexists. split.
  - eapply represents_ext; [exact Hj2|exact Hs2|]. eapply represents_add, represents_ext; eauto.
  - intros id'. simpl. destruct (decide (id' = id)) as [->|Hne]; [auto|]. left. auto.
Qed.

Lemma hist_revise (d d1 : db) (id change : string) :
  d_mutations d1 = d_mutations d -> d_outcomes d1 = d_outcomes d -> d_journal d1 = d_journal d ->
  d_sequence d1 = d_sequence d -> (forall id', id' <> id -> same_shown d d1 id') ->
  hist d (revise id change d1).
Proof.
  intros Hm Ho Hj Hs Hsh. split; [done|by simpl; rewrite Ho|].
  eapply (journalled_event d d1); try done. intros id' Hne. by destruct (Hsh id' Hne).
Qed.

(** ** Statements *)

Lemma hist_write (f : db -> db) :
  (forall d, d_mutations (f d) = d_mutations d /\ d_outcomes (f d) = d_outcomes d /\ d_journal (f d) = d_journal d
     /\ d_sequence (f d) = d_sequence d /\ d_sessions (f d) = d_sessions d /\ d_bindings (f d) = d_bindings d
     /\ d_activity (f d) = d_activity d) ->
  preserves hist (write f).
Proof.
  intros H. apply preserves_write. intros d. destruct (H d) as (H1 & H2 & H3 & H4 & H5 & H6 & H7).
  apply hist_quiet; try done. by rewrite H2.
Qed.

Lemma shown_other (d : db) (id id' : string) (s : Session) :
  id' <> id -> same_shown d (put_session id s d) id'.
Proof. intros Hne. split; simpl; try done. by rewrite lookup_insert_ne by congruence. Qed.

Lemma hist_insert_session s : preserves hist (insert_session s).
Proof.
  unfold insert_session. preserves_tac. apply preserves_write. intros d. apply hist_revise; try done.
  intros id' Hne. by apply shown_other.
Qed.

Lemma hist_insert_yield y : preserves hist (insert_yield y).
Proof. unfold insert_yield. preserves_tac. by apply hist_write. Qed.

Lemma hist_delete_yield id : preserves hist (delete_yield id).
Proof. unfold delete_yield. by apply hist_write. Qed.

Lemma hist_insert_lifecycle p : preserves hist (insert_lifecycle p).
Proof. unfold insert_lifecycle. preserves_tac. by apply hist_write. Qed.

Lemma hist_update_lifecycle id cond ph now e : preserves hist (update_lifecycle id cond ph now e).
Proof. unfold update_lifecycle. preserves_tac. by apply hist_write. Qed.

Lemma hist_delete_lifecycle id cond : preserves hist (delete_lifecycle id cond).
Proof. unfold delete_lifecycle. preserves_tac. by apply hist_write. Qed.

Lemma hist_retained r : preserves hist (insert_retained r).
Proof. unfold insert_retained. preserves_tac. by apply hist_write. Qed.

Lemma hist_insert_task t : preserves hist (insert_task t).
Proof. unfold insert_task. preserves_tac. by apply hist_write. Qed.

Lemma hist_update_task k cond f : preserves hist (update_task k cond f).
Proof. unfold update_task. preserves_tac. by apply hist_write. Qed.

Lemma hist_receipt k r : preserves hist (insert_receipt k r).
Proof. unfold insert_receipt. preserves_tac. by apply hist_write. Qed.

Lemma hist_audit e : preserves hist (insert_audit e).
Proof. unfold insert_audit. preserves_tac. by apply hist_write. Qed.

Lemma hist_outcome p now failure : preserves hist (insert_outcome p now failure).
Proof.
  intros d d' n H. unfold insert_outcome, arg_u64, guard, tbind, read, write, ret, fail in H.
  repeat case_hyp H; simplify_eq; try done. apply hist_quiet; try done.
  simpl. by apply insert_subseteq.
Qed.

(** The update trigger fires exactly when a visible column changes. *)
Lemma hist_update_session id cond f : preserves hist (update_session id cond f).
Proof.
  intros d d' n H. unfold update_session, guard, tbind, read, write, ret, fail in H.
  destruct (d_sessions d !! id) as [s|] eqn:E; [|by simplify_eq].
  destruct (negb (cond s)); [by simplify_eq|]. destruct (session_check (f s)); [|discriminate].
  destruct (_ <? _)%Z; [|discriminate]. injection H as <- _.
  destruct (visible_change s (f s)) eqn:Hv.
  - apply hist_revise; try done. intros id' Hne. by apply shown_other.
  - split; [done|done|]. apply journalled_quiet; [done|done|]. intros id'.
    destruct (decide (id' = id)) as [->|Hne]; [|by apply shown_other].
    split; simpl; try done. rewrite lookup_insert_eq, E. simpl. by rewrite (visible_change_false _ _ Hv).
Qed.

Lemma revise_shown (d : db) (id change id' : string) : same_shown d (revise id change d) id'.
Proof. split; reflexivity. Qed.

Lemma drop_binding_shown (d : db) (id id' : string) : id' <> id -> same_shown d (drop_binding id d) id'.
Proof.
  intros Hne. unfold drop_binding. destruct (d_bindings d !! id); [|done].
  split; simpl; try done. by rewrite lookup_delete_ne by congruence.
Qed.

Lemma hist_drop_binding (d : db) (id : string) : hist d (drop_binding id d).
Proof.
  unfold drop_binding. destruct (d_bindings d !! id) eqn:E; [|reflexivity]. apply hist_revise; try done.
  intros id' Hne. split; simpl; try done. by rewrite lookup_delete_ne by congruence.
Qed.

Lemma hist_delete_binding id : preserves hist (delete_binding id).
Proof. unfold delete_binding. preserves_tac. apply preserves_write. intros d0. apply hist_drop_binding. Qed.

Lemma drop_children_shown (d : db) (id id' : string) : id' <> id -> same_shown d (drop_children id d) id'.
Proof.
  intros Hne. split; simpl; [by rewrite lookup_delete_ne by congruence|done|].
  intros c. f_equal. symmetry. destruct (d_activity d !! (id', c)) as [a|] eqn:E.
  - by apply map_lookup_filter_Some.
  - apply map_lookup_filter_None. by left.
Qed.

Lemma hist_delete_session id cond : preserves hist (delete_session id cond).
Proof.
  unfold delete_session. preserves_tac. apply preserves_write. intros d0. unfold drop_session.
  set (d1 := drop_children id d0). pose proof (hist_drop_binding d1 id) as [M O J].
  split; simpl; [by rewrite M|done|].
  intros L HL. assert (HL1 : represents d1 L) by (by apply (represents_ext d0)).
  destruct (J L HL1) as (evs & Hr & Hn). eexists. rewrite app_assoc. split; [apply represents_add, Hr|].
  intros id'. rewrite map_app, in_app_iff. simpl. destruct (decide (id' = id)) as [->|Hne]; [auto|].
  left. eapply same_shown_trans; [by apply drop_children_shown|].
  eapply same_shown_trans; [by apply drop_binding_shown|apply revise_shown].
Qed.

Lemma hist_binding b : preserves hist (insert_binding b).
Proof.
  unfold insert_binding. preserves_tac. apply preserves_write. intros d0. apply hist_revise; try done.
  intros id' Hne. split; simpl; try done. by rewrite lookup_insert_ne by congruence.
Qed.

(** An activity row changes only together with an event; hooks may be verified
    before the journal is pruned. *)
Lemma hist_activity_event {A : Type} (id c : string) (a : ActivityRow) (n : Z) (hooks : tx unit) (r : A) :
  preserves (fun d d' => d_mutations d' = d_mutations d /\ d_outcomes d' = d_outcomes d /\ d_journal d' = d_journal d
    /\ d_sequence d' = d_sequence d /\ d_sessions d' = d_sessions d /\ d_bindings d' = d_bindings d
    /\ d_activity d' = d_activity d) hooks ->
  preserves hist (
    _ <-t put_activity (id, c) a;
    _ <-t write (add_event id "invalidate" c n);
    _ <-t hooks;
    _ <-t write prune_journal;
    ret r).
Proof.
  intros Hh d d' x H. unfold put_activity in H. tx_inv H.
  destruct (Hh _ _ _ Hm) as (H1 & H2 & H3 & H4 & H5 & H6 & H7). simpl in *.
  split; simpl; [by rewrite H1|by rewrite H2|].
  eapply (journalled_event d d); try done; simpl; [by rewrite H3|].
  intros id' Hne. split; simpl; rewrite ?H5, ?H6, ?H7; try done.
  intros c'. by rewrite lookup_insert_ne by congruence.
Qed.

#[export] Hint Resolve hist_insert_session hist_update_session hist_delete_session hist_insert_yield hist_delete_yield
  hist_insert_lifecycle hist_update_lifecycle hist_delete_lifecycle hist_retained hist_insert_task hist_update_task
  hist_receipt hist_audit hist_outcome hist_binding hist_delete_binding : tx.

Section Operations.
Context `{UC : UnicodeCase} `{UF : UnicodeFormat} `{ET : ErrorTexts}.
Variable sha256 : string -> string.

Lemma hist_get id : preserves hist (GetSessionTx id).
Proof. intros d d' s H. unfold GetSessionTx in H. case_hyp H; simplify_eq. reflexivity. Qed.
Hint Resolve hist_get : tx.

Lemma hist_get_yield id : preserves hist (GetPendingYieldTx id).
Proof. unfold GetPendingYieldTx. preserves_tac. Qed.

Lemma hist_get_lifecycle id : preserves hist (GetPendingLifecycleTx id).
Proof. unfold GetPendingLifecycleTx. preserves_tac. Qed.

Lemma hist_delete_yield_tx id : preserves hist (DeletePendingYieldTx id).
Proof. unfold DeletePendingYieldTx. preserves_tac. Qed.

Lemma hist_insert_yield_tx y : preserves hist (InsertPendingYieldTx y).
Proof. unfold InsertPendingYieldTx. preserves_tac. Qed.

Lemma hist_one_row n e : preserves hist (one_row n e).
Proof. unfold one_row. preserves_tac. Qed.

Lemma hist_validate p : preserves hist (lifecycle_validate p).
Proof. unfold lifecycle_validate. preserves_tac. Qed.

Lemma hist_hook f s : preserves hist (run_hook f s).
Proof. unfold run_hook. preserves_tac. Qed.
Hint Resolve hist_get_yield hist_get_lifecycle hist_delete_yield_tx hist_insert_yield_tx hist_one_row hist_validate
  hist_hook : tx.

Lemma hist_update_tx s e g : preserves hist (UpdateSessionTx s e g).
Proof. unfold UpdateSessionTx. preserves_tac. Qed.

Lemma hist_get_task sid tid : preserves hist (getManagedTaskTx sid tid).
Proof. unfold getManagedTaskTx. preserves_tac. Qed.

Lemma hist_validate_task t : preserves hist (validateManagedTaskTx t).
Proof. unfold validateManagedTaskTx. preserves_tac. Qed.

Lemma hist_category c : preserves hist (category_validate c).
Proof. unfold category_validate. preserves_tac. Qed.
Hint Resolve hist_update_tx hist_get_task hist_validate_task hist_category : tx.

Lemma hist_record sid c now : preserves hist (recordActivityTx sid c now).
Proof.
  unfold recordActivityTx. do 3 (apply preserves_bind; [exact _|solve [auto with tx typeclass_instances]|intros ?]).
  refine (hist_activity_event sid c _ _ (ret tt) _ _). intros d d' u [= <- _]. auto 10.
Qed.
Hint Resolve hist_record : tx.

Lemma hist_put_activity sid c (a : ActivityRow) g o :
  (forall d d' u, d_activity d !! (sid, c) = Some a ->
   put_activity (sid, c) (mkActivity (a_Sequence a) g o (a_EventID a) (a_UpdatedAtMS a)) d = Ok (d', u) -> hist d d').
Proof.
  intros d d' u E H. unfold put_activity in H. tx_inv H. split; [done|done|].
  apply journalled_quiet; [done|done|]. intros id. split; simpl; try done. intros c'.
  destruct (decide ((id, c') = (sid, c))) as [Heq|Hne]; [|by rewrite lookup_insert_ne by congruence].
  rewrite Heq, lookup_insert_eq, E. done.
Qed.

Lemma hist_activity_body sid c w g o e src fs fe now :
  preserves hist (recordActivityBody sid c w g o e src fs fe now).
Proof.
  intros d d' r H. unfold recordActivityBody, category_validate in H. cbv zeta in H. tx_inv H.
  case_match; [by tx_inv H|]. case_match; [by tx_inv H|]. case_match.
  - destruct (d_activity d !! (sid, c)) as [row|] eqn:E; [|by tx_inv H].
    destruct fs; tx_inv H; [|reflexivity]. by eapply hist_put_activity.
  - do 4 (apply tbind_Ok in H; destruct H as (? & ? & ?Hm & H); apply guard_Ok in Hm; destruct Hm as [? ->]).
    eapply hist_activity_event in H; [exact H|].
    destruct (src !=s ""); [|intros ? ? ? [= <- _]; auto 10].
    intros d1 d2 u Hk. unfold put_callback in Hk. tx_inv Hk. auto 10.
Qed.

(** ** Every operation respects the past *)

Lemma past_atomically {A : Type} (m : tx A) (d : db) : preserves hist m -> past d (fst (atomically m d)).
Proof. intros H. apply hist_past. by apply (preserves_atomically hist). Qed.

Lemma RunMutation_past key now fn d : preserves hist fn -> past d (fst (RunMutation key now fn d)).
Proof.
  intros Hfn. unfold RunMutation, atomically.
  match goal with |- context [match ?m d with _ => _ end] => destruct (m d) as [[d' r]|] eqn:H end; simpl; [|reflexivity].
  tx_inv H. destruct (d_mutations d !! mutation_key key) as [r'|] eqn:E.
  - tx_inv H. destruct (m_Response r'); by tx_inv H.
  - tx_inv H. destruct (Hfn _ _ _ Hm) as [HM HO HJ]. simpl in *. split; simpl; [| done|].
    + rewrite HM. simpl. intros k. destruct (decide (k = mutation_key key)) as [->|Hne].
      * rewrite E. simpl. by case_match.
      * rewrite lookup_alter_ne, lookup_insert_ne by done. by destruct (d_mutations d !! k).
    + intros L HL. destruct (HJ L) as (evs & Hr & Hn); [by apply (represents_ext d)|].
      exists evs. split; [by eapply represents_ext; [..|exact Hr]|]. intros id. destruct (Hn id) as [[]|]; auto. left. by split.
Qed.

Lemma run_and_read_past {A : Type} (reader : doc -> option A) key now fn d :
  preserves hist fn -> past d (fst (run_and_read reader key now fn d)).
Proof.
  intros H. unfold run_and_read. pose proof (RunMutation_past key now fn d H) as Hp.
  by destruct (RunMutation key now fn d).
Qed.

Lemma hist_reply o : preserves hist (reply o).
Proof. unfold reply. preserves_tac. Qed.

Lemma hist_service_audit p e o s now : preserves hist (audit p e o s now).
Proof. unfold audit, InsertAuditTx. preserves_tac. Qed.

Lemma hist_recover ids now : preserves hist (recover_sessions ids now).
Proof. induction ids; simpl; preserves_tac. Qed.
Hint Resolve hist_reply hist_service_audit hist_recover : tx.

Lemma hist_task_body p op id tr hook clk : preserves hist (taskBody p op id tr hook clk).
Proof. unfold taskBody. preserves_tac. Qed.

Lemma hist_yield_body p rq id r w e g hook clk : preserves hist (RequestYieldBody p rq id r w e g hook clk).
Proof. unfold RequestYieldBody. preserves_tac. Qed.
Hint Resolve hist_task_body hist_yield_body : tx.

Lemma hist_insert_session_tx s : preserves hist (InsertSessionTx s).
Proof. unfold InsertSessionTx. preserves_tac. Qed.
Lemma hist_rename id h e g now : preserves hist (RenameSessionTx id h e g now).
Proof. unfold RenameSessionTx. preserves_tac. Qed.
Lemma hist_delete_stopped id e g : preserves hist (DeleteStoppedSessionTx id e g).
Proof. unfold DeleteStoppedSessionTx. preserves_tac. Qed.
Lemma hist_by_session id : preserves hist (GetBindingBySessionTx id).
Proof. unfold GetBindingBySessionTx. preserves_tac. Qed.
Lemma hist_by_channel h : preserves hist (GetBindingByChannelTx h).
Proof. unfold GetBindingByChannelTx. preserves_tac. Qed.
Lemma hist_delete_binding_tx id : preserves hist (DeleteBindingTx id).
Proof. unfold DeleteBindingTx. preserves_tac. Qed.
Lemma hist_retain s g now b r : preserves hist (retain s g now b r).
Proof. unfold retain. preserves_tac. Qed.
Hint Resolve hist_insert_session_tx hist_rename hist_delete_stopped hist_by_session hist_by_channel
  hist_delete_binding_tx hist_retain : tx.
Lemma hist_insert_binding_tx b : preserves hist (InsertBindingTx b).
Proof. unfold InsertBindingTx. preserves_tac. Qed.
Hint Resolve hist_insert_binding_tx : tx.

Lemma hist_fail_tasks id g now : preserves hist (write (fail_tasks id g now)).
Proof. by apply hist_write. Qed.
Hint Resolve hist_fail_tasks : tx.

Lemma hist_visibility sid : preserves hist (_ <-t write (add_event sid "invalidate" "" 0); write prune_journal).
Proof.
  intros d d' u H. tx_inv H. change (prune_journal (add_event sid "invalidate" "" 0 d)) with (revise sid "invalidate" d).
  by apply hist_revise.
Qed.

Hint Resolve hist_visibility : tx.

Lemma past_committing {A : Type} (m : tx (result store_error A)) (d : db) :
  preserves hist m -> past d (fst (committing m d)).
Proof. intros H. apply hist_past. by apply (preserves_committing hist). Qed.

(** The operations whose result is read after the commit. *)
Lemma past_then {A B : Type} (m : tx A) (k : db -> A -> result store_error B) (d : db) :
  preserves hist m ->
  past d (fst (let '(d', r) := atomically m d in match r with Err e => (d', Err e) | Ok a => (d', k d' a) end)).
Proof.
  intros H. pose proof (past_atomically m d H) as Hp. by destruct (atomically m d) as [d' [a|e]].
Qed.

(** Service operations refuse some arguments before the mutation. *)
Ltac service_past :=
  repeat match goal with |- past _ (fst (if ?b then _ else _)) => destruct b; [reflexivity|] end;
  apply run_and_read_past; preserves_tac.

Lemma service_ops_past (o : db_op) (d : db) :
  match o with
  | OpCreateSession _ _ _ _ | OpCreateIdempotent _ _ _ _ _ | OpRenameSession _ _ _ _ _ _ _ | OpDestroyStopped _ _ _ _ _ _
  | OpBindDiscord _ _ _ _ _ | OpUnbindDiscord _ _ _ _ | OpRequestYield _ _ _ _ _ _ _ _ _
  | OpBeginTask _ _ _ _ _ _ _ | OpBeginReply _ _ _ _ _ | OpCompleteReply _ _ _ _ _ _
  | OpCompleteOwnerReply _ _ _ _ _ _ _ _ => past d (run sha256 o d)
  | _ => True
  end.
Proof.
  destruct o; try exact I; unfold run.
  - unfold CreateSession. destruct (Session_Validate s); [|reflexivity]. service_past.
  - unfold CreateSessionIdempotent. service_past.
  - unfold RenameSession. destruct (ValidateHandle handle); [|reflexivity]. service_past.
  - unfold DestroyStoppedSession. service_past.
  - unfold BindDiscord. service_past.
  - unfold UnbindDiscord. service_past.
  - unfold RequestYieldWithHook. service_past.
  - unfold BeginTask, runTaskMutationWithHook. service_past.
  - unfold BeginReply, runtimeTaskMutationWithHook, runTaskMutationWithHook. service_past.
  - unfold CompleteReplyWithHook, runtimeTaskMutationWithHook, runTaskMutationWithHook. service_past.
  - unfold CompleteOwnerReplyWithHook, runTaskMutationWithHook. service_past.
Qed.

Lemma task_ops_past (o : db_op) (d : db) :
  match o with
  | OpAdmitTask _ _ _ | OpMarkTaskRunning _ _ _ _ | OpFailTask _ _ _ _ _ _ | OpTaskEvent _ _ _ _ _
  | OpAckEvent _ _ _ _ _ | OpFinalizeDelivery _ _ _ _ _ => past d (run sha256 o d)
  | _ => True
  end.
Proof.
  destruct o; try exact I; unfold run.
  - unfold AdmitManagedTask. destruct (negb _); [reflexivity|].
    assert (H : past d (fst (PrepareManagedTask task now d))) by (apply past_atomically; preserves_tac).
    by destruct (PrepareManagedTask task now d).
  - apply (past_then _ (fun d' _ => GetManagedTask id task d')). preserves_tac.
  - apply past_atomically. preserves_tac.
  - apply past_atomically. preserves_tac.
  - apply (past_then _ (fun d' _ => GetManagedTask id task d')). preserves_tac.
  - apply past_atomically. preserves_tac.
Qed.

Lemma run_past (o : db_op) (d : db) : past d (run sha256 o d).
Proof.
  pose proof (service_ops_past o d) as Hs. pose proof (task_ops_past o d) as Ht.
  destruct o; try exact Hs; try exact Ht; clear Hs Ht; unfold run;
    try (apply past_atomically; preserves_tac; by apply hist_write).
  - apply past_committing. preserves_tac.
  - apply (past_then _ (fun d' _ => GetSession (p_SessionID p) d')). preserves_tac.
  - apply past_atomically, hist_activity_body.
Qed.

Lemma runs_past (os : list db_op) (d : db) : past d (runs sha256 os d).
Proof.
  revert d. induction os as [|o os IH]; intros d; simpl; [reflexivity|].
  etransitivity; [apply run_past|apply IH].
Qed.

Lemma represents_empty : represents empty_db [].
Proof. split; [by intros ? ?|done|done]. Qed.

Lemma reachable_represents (d : db) : reachable sha256 d -> exists L, represents d L.
Proof.
  intros [os ->]. destruct (runs_past os empty_db) as [_ _ HJ]. destruct (HJ [] represents_empty) as (evs & Hr & _). eauto.
Qed.

(** ** Receipts *)

(** A request the store accepts: validated, with fences of the width of the columns. *)
Record lifecycle_ok (p : PendingLifecycle) : Prop := mkLifecycleOk {
  lk_operation : among (p_Operation p) [LifecycleEnd; LifecycleDestroy; LifecycleRestart] = true;
  lk_mode : among (p_Mode p) [LifecycleImmediate; LifecycleWait; LifecycleForce] = true;
  lk_requester : Owner_Validate (p_Requester p) = Ok tt;
  lk_request : p_RequestID p <> "";
  lk_epoch : (0 < p_SourceEpoch p < 2 ^ 63)%Z;
  lk_generation : (0 < p_SourceGeneration p < 2 ^ 63)%Z;
}.

Lemma lifecycle_ok_validate (p : PendingLifecycle) (d : db) : lifecycle_ok p -> lifecycle_validate p d = Ok (d, tt).
Proof.
  intros [H1 H2 H3 H4 H5 H6]. unfold lifecycle_validate, guard, tbind, ret. rewrite H1, H2, H3. simpl.
  apply String.eqb_neq in H4. rewrite H4.
  by rewrite (proj2 (Z.eqb_neq (p_SourceEpoch p) 0)), (proj2 (Z.eqb_neq (p_SourceGeneration p) 0)) by lia.
Qed.

Lemma Owner_Validate_kind (o : Owner) : Owner_Validate o = Ok tt -> owner_kind_check (o_Kind o) = true.
Proof.
  unfold Owner_Validate. destruct (_ && _) eqn:E; [discriminate|]. intros _. apply among_In. simpl.
  apply andb_false_iff in E. destruct E as [E|E]; bool_to_prop; auto.
Qed.

(** Inserting a receipt: nothing happens when there is one. *)
Lemma insert_outcome_ok (p : PendingLifecycle) (now : Z) (failure : string) (d : db) :
  lifecycle_ok p ->
  insert_outcome p now failure d =
  match GetLifecycleOutcome (p_Requester p) (p_RequestID p) d with
  | Some _ => Ok (d, 0)
  | None => Ok (with_outcomes (<[outcome_key (p_Requester p) (p_RequestID p) :=
      mkOutcomeRow (p_SessionID p) (p_Operation p) (p_Mode p) (p_Requester p) (p_SourceEpoch p)
        (p_SourceGeneration p) (p_RequestID p) now failure]> (d_outcomes d)) d, 1)
  end.
Proof.
  intros [H1 H2 H3 H4 H5 H6]. unfold insert_outcome, arg_u64, guard, tbind, read, write, ret.
  rewrite (proj2 (Z.ltb_lt _ _) (proj2 H5)), (proj2 (Z.ltb_lt _ _) (proj2 H6)), H1, H2, (Owner_Validate_kind _ H3).
  rewrite (proj2 (Z.ltb_lt 0 (p_SourceEpoch p)) (proj1 H5)), (proj2 (Z.ltb_lt 0 (p_SourceGeneration p)) (proj1 H6)).
  unfold GetLifecycleOutcome. simpl. by destruct (d_outcomes d !! _).
Qed.

Lemma delete_lifecycle_outcomes id cond d :
  exists d' n, delete_lifecycle id cond d = Ok (d', n) /\ d_outcomes d' = d_outcomes d.
Proof.
  unfold delete_lifecycle, tbind, read, write, ret. destruct (d_lifecycles d !! id) as [q|]; [|eauto].
  destruct (cond q); eauto.
Qed.

(** Completing a request again, with its receipt in place. *)
Lemma CompleteLifecycle_again (p : PendingLifecycle) (now : Z) (d : db) (o : LifecycleOutcome) :
  lifecycle_ok p -> GetLifecycleOutcome (p_Requester p) (p_RequestID p) d = Some o ->
  snd (CompleteLifecycle p now d) = (if Outcome_Matches o p then Ok tt else Err ErrIdempotencyConflict).
Proof.
  intros Hp Ho. unfold CompleteLifecycle, atomically, tbind.
  rewrite (lifecycle_ok_validate _ _ Hp), (insert_outcome_ok _ _ _ _ Hp), Ho. simpl. rewrite Ho.
  unfold guard, ret, fail. destruct (Outcome_Matches o p); [|done].
  destruct (delete_lifecycle_outcomes (p_SessionID p) (fun q => p_RequestID q ==s p_RequestID p) d) as (d' & n & -> & _).
  done.
Qed.

Lemma Outcome_Matches_self (p : PendingLifecycle) (now : Z) (f : string) :
  Outcome_Matches (mkOutcomeRow (p_SessionID p) (p_Operation p) (p_Mode p) (p_Requester p) (p_SourceEpoch p)
    (p_SourceGeneration p) (p_RequestID p) now f) p = true.
Proof.
  unfold Outcome_Matches. simpl. rewrite !String.eqb_refl, !Z.eqb_refl, bool_decide_eq_true_2 by done. done.
Qed.

Lemma CompleteLifecycle_receipt (p : PendingLifecycle) (now : Z) (d : db) :
  lifecycle_ok p -> snd (CompleteLifecycle p now d) = Ok tt ->
  exists o, GetLifecycleOutcome (p_Requester p) (p_RequestID p) (fst (CompleteLifecycle p now d)) = Some o
    /\ Outcome_Matches o p = true.
Proof.
  intros Hp Hok. destruct (GetLifecycleOutcome (p_Requester p) (p_RequestID p) d) as [o|] eqn:Ho.
  - rewrite (CompleteLifecycle_again _ _ _ _ Hp Ho) in Hok. exists o. split; [|by destruct (Outcome_Matches o p)].
    assert (Hpast : past d (fst (CompleteLifecycle p now d))) by apply (run_past (OpCompleteLifecycle p now)).
    destruct Hpast as [_ HO _]. by eapply lookup_weaken.
  - unfold CompleteLifecycle, atomically, tbind.
    rewrite (lifecycle_ok_validate _ _ Hp), (insert_outcome_ok _ _ _ _ Hp), Ho. simpl.
    match goal with |- context [delete_lifecycle ?i ?c ?d1] => destruct (delete_lifecycle_outcomes i c d1) as (d' & n & -> & Hd') end.
    unfold GetLifecycleOutcome. simpl. rewrite Hd'. simpl. rewrite lookup_insert_eq.
    eexists. split; [done|]. apply Outcome_Matches_self.
Qed.

(** Completing a lifecycle operation leaves a receipt that matches it; no later
    operation changes or removes the receipt, completing the same request again
    succeeds, and completing another one under its identity is an idempotency
    conflict. *)
Theorem lifecycle_receipt_final (p : PendingLifecycle) (now : Z) (d : db) :
  lifecycle_ok p -> snd (CompleteLifecycle p now d) = Ok tt ->
  exists o, Outcome_Matches o p = true /\
    forall os q now', lifecycle_ok q -> p_Requester q = p_Requester p -> p_RequestID q = p_RequestID p ->
      let d' := runs sha256 os (fst (CompleteLifecycle p now d)) in
      GetLifecycleOutcome (p_Requester p) (p_RequestID p) d' = Some o
      /\ snd (CompleteLifecycle q now' d') = if Outcome_Matches o q then Ok tt else Err ErrIdempotencyConflict.
Proof.
  intros Hp Hok. destruct (CompleteLifecycle_receipt p now d Hp Hok) as (o & Ho & Hm). exists o. split; [done|].
  intros os q now' Hq Hr Hid d'. assert (GetLifecycleOutcome (p_Requester p) (p_RequestID p) d' = Some o) as Ho'.
  { destruct (runs_past os (fst (CompleteLifecycle p now d))) as [_ HO _]. by eapply lookup_weaken. }
  split; [done|]. apply CompleteLifecycle_again; [done|]. by rewrite Hr, Hid.
Qed.

(** ** Idempotent mutations *)

(** A mutation body does not write the table of mutations. *)
Definition keeps_mutations (fn : tx doc) : Prop :=
  forall d d' v, fn d = Ok (d', v) -> d_mutations d' = d_mutations d.

Definition key_ok (key : MutationKey) : bool :=
  (TrimSpace (mk_Principal key) !=s "") && (TrimSpace (mk_RequestID key) !=s "")
  && (TrimSpace (mk_Operation key) !=s "") && (slen (mk_Fingerprint key) =? 32)%nat.

Lemma RunMutation_ok (key : MutationKey) (now : Z) (fn : tx doc) (d d' : db) (v : doc) :
  keeps_mutations fn -> RunMutation key now fn d = (d', Ok (v, false)) ->
  d_mutations d' !! mutation_key key = Some (mkMutation (mk_Operation key) (mk_SessionID key) (mk_Fingerprint key)
    StatusCompleted (Some v) now (Some now)).
Proof.
  intros Hfn. unfold RunMutation, atomically.
  match goal with |- context [match ?m d with _ => _ end] => destruct (m d) as [[d1 r]|] eqn:H end; [|discriminate].
  intros [= -> ->]. tx_inv H. destruct (d_mutations d !! mutation_key key) as [r'|] eqn:E.
  - tx_inv H. destruct (m_Response r'); tx_inv H. discriminate.
  - tx_inv H. simpl. rewrite lookup_alter_eq, (Hfn _ _ _ Hm). simpl. by rewrite lookup_insert_eq.
Qed.

(** A second request under the key of a recorded one. *)
Lemma RunMutation_again (key : MutationKey) (now : Z) (fn : tx doc) (d : db) (r : MutationRow) (v : doc) :
  key_ok key = true -> d_mutations d !! mutation_key key = Some r ->
  m_Status r = StatusCompleted -> m_Response r = Some v ->
  RunMutation key now fn d = (d, if same_mutation r key then Ok (v, true) else Err ErrIdempotencyConflict).
Proof.
  intros Hk Hr Hs Hv. unfold key_ok in Hk. apply andb_true_iff in Hk. destruct Hk as [Hk1 Hk2].
  unfold RunMutation, atomically, guard, tbind, read, ret, fail. rewrite Hk1, Hk2, Hr.
  destruct (same_mutation r key); [|done]. rewrite Hs, Hv. done.
Qed.

Lemma mutation_once (key : MutationKey) (now : Z) (fn : tx doc) (d d1 : db) (v : doc) :
  keeps_mutations fn -> RunMutation key now fn d = (d1, Ok (v, false)) ->
  forall os key' now' fn', key_ok key' = true -> mutation_key key' = mutation_key key ->
    let d2 := runs sha256 os d1 in
    RunMutation key' now' fn' d2 =
    (d2, if (mk_Operation key ==s mk_Operation key') && (mk_SessionID key ==s mk_SessionID key')
            && (mk_Fingerprint key ==s mk_Fingerprint key')
         then Ok (v, true) else Err ErrIdempotencyConflict).
Proof.
  intros Hfn Hrun os key' now' fn' Hk Hkey d2. pose proof (RunMutation_ok _ _ _ _ _ _ Hfn Hrun) as Hrow.
  destruct (runs_past os d1) as [HM _ _]. eapply lookup_weaken in Hrow; [|exact HM]. rewrite <-Hkey in Hrow.
  exact (RunMutation_again key' now' fn' d2 _ v Hk Hrow eq_refl eq_refl).
Qed.

(** C12. A mutation is executed at most once.  After a successful one, whatever
    operations follow, the same request is answered from the record with the same
    response and without running anything, and a request that reuses the principal
    and request id for something else is refused as an idempotency conflict; in
    both cases the database does not change. *)
Theorem mutation_at_most_once (key : MutationKey) (now : Z) (fn : tx doc) (d d1 : db) (v : doc) :
  keeps_mutations fn -> RunMutation key now fn d = (d1, Ok (v, false)) ->
  forall os key' now' fn', key_ok key' = true -> mutation_key key' = mutation_key key ->
    let d2 := runs sha256 os d1 in
    RunMutation key' now' fn' d2 =
    (d2, if (mk_Operation key ==s mk_Operation key') && (mk_SessionID key ==s mk_SessionID key')
            && (mk_Fingerprint key ==s mk_Fingerprint key')
         then Ok (v, true) else Err ErrIdempotencyConflict).
Proof. apply mutation_once. Qed.

(** The key of a mutation that succeeded was accepted. *)
Lemma RunMutation_key_ok (key : MutationKey) (now : Z) (fn : tx doc) (d d' : db) (x : doc * bool) :
  RunMutation key now fn d = (d', Ok x) -> key_ok key = true.
Proof.
  unfold RunMutation, atomically, key_ok, tbind, guard, ret, fail.
  destruct (_ && _ && _); [|discriminate]. by destruct (slen _ =? 32)%nat.
Qed.

Lemma run_and_read_again {A : Type} (reader : doc -> option A) key now fn (d d1 : db) (a : A) :
  preserves hist fn -> run_and_read reader key now fn d = (d1, Ok (a, false)) ->
  forall os now' fn', let d2 := runs sha256 os d1 in run_and_read reader key now' fn' d2 = (d2, Ok (a, true)).
Proof.
  intros Hfn. unfold run_and_read. destruct (RunMutation key now fn d) as [dx [[v b]|x]] eqn:E; [|discriminate].
  destruct (reader v) as [a'|] eqn:Ev; [|discriminate].
  intros [= -> -> ->] os now' fn'.
  assert (Hk : keeps_mutations fn) by (intros ? ? ? H; apply (hi_mutations _ _ (Hfn _ _ _ H))).
  pose proof (mutation_once _ _ _ _ _ _ Hk E os key now' fn' (RunMutation_key_ok _ _ _ _ _ _ E) eq_refl) as H.
  cbv zeta in H. rewrite !String.eqb_refl in H. rewrite H. simpl. by rewrite Ev.
Qed.

(** A request to take a session over is executed at most once: when it has been
    answered, then whatever operations follow, at whatever time, sending the same
    request again returns the same outcome marked as replayed and changes nothing, so
    the epoch is bumped at most once per request. *)
Theorem yield_request_replayed (principal requestID id : string) (requester : Owner) (wait : bool) (epoch generation : Z)
    hook clk (d d1 : db) (o : Outcome) :
  RequestYieldWithHook sha256 principal requestID id requester wait epoch generation hook clk d = (d1, Ok (o, false)) ->
  forall os hook' clk', let d2 := runs sha256 os d1 in
    RequestYieldWithHook sha256 principal requestID id requester wait epoch generation hook' clk' d2 = (d2, Ok (o, true)).
Proof.
  unfold RequestYieldWithHook. destruct (_ !=s _); [discriminate|]. intros H os hook' clk'.
  eapply run_and_read_again; [|exact H]. apply hist_yield_body.
Qed.

(** ** The record of a destruction *)

(** A destruction of the session [id] on record: a completed request to destroy this
    session whose stored answer is a success.  A stored refusal is not one. *)
Definition destroy_recorded (d : db) (principal request id : string) : Prop :=
  exists r v o, d_mutations d !! (principal, request) = Some r
    /\ m_Operation r = "destroy_session" /\ m_SessionID r = id /\ m_Status r = StatusCompleted
    /\ m_Response r = Some v /\ read_outcome v = Some o /\ oc_Error o = None.

(** A successful mutation is on record, completed, with its answer. *)
Lemma RunMutation_record (key : MutationKey) (now : Z) (fn : tx doc) (d d' : db) (v : doc) (b : bool) :
  keeps_mutations fn -> RunMutation key now fn d = (d', Ok (v, b)) ->
  exists r, d_mutations d' !! mutation_key key = Some r /\ same_mutation r key = true
    /\ m_Status r = StatusCompleted /\ m_Response r = Some v.
Proof.
  intros Hfn. destruct b.
  - unfold RunMutation, atomically.
    match goal with |- context [match ?m d with _ => _ end] => destruct (m d) as [[d1 r]|] eqn:H end; [|discriminate].
    intros [= -> ->]. tx_inv H. destruct (d_mutations d !! mutation_key key) as [r'|] eqn:E; [|by tx_inv H].
    tx_inv H. destruct (m_Response r') eqn:Hv; tx_inv H. exists r'. split_and!; try done; try (by apply String.eqb_eq).
  - intros H. apply RunMutation_ok in H; [|done]. eexists. split; [exact H|]. unfold same_mutation. simpl.
    by rewrite !String.eqb_refl.
Qed.

(** Destroying: a success is on record. *)
Lemma Destroy_recorded (principal request id : string) (epoch generation : Z) clk (d d' : db) (o : Outcome) (b : bool) :
  DestroyStoppedSession sha256 principal request id epoch generation clk d = (d', Ok (o, b)) -> oc_Error o = None ->
  destroy_recorded d' principal request id.
Proof.
  intros H He. unfold DestroyStoppedSession, run_outcome, run_and_read in H. cbv zeta in H.
  match type of H with context [RunMutation _ _ ?b d] => set (fn := b) in H end.
  destruct (RunMutation _ _ _ d) as [d1 [[v b1]|x]] eqn:Hrun; [|discriminate].
  destruct (read_outcome v) as [o1|] eqn:Hv; [|discriminate]. injection H as -> -> ->.
  apply RunMutation_record in Hrun.
  - destruct Hrun as (r & Hr & Hs & Hc & Hresp). exists r, v, o. unfold same_mutation in Hs.
    apply andb_true_iff in Hs as [[H1 H2]%andb_true_iff _]. simpl in H1, H2.
    apply String.eqb_eq in H1, H2. by split_and!.
  - assert (Hp : preserves hist fn); [unfold fn; preserves_tac|]. intros ? ? ? Hfn. apply (hi_mutations _ _ (Hp _ _ _ Hfn)).
Qed.

Lemma Replay_recorded (principal request id : string) (d : db) :
  is_Ok (ReplayDestroyedSession principal request id d) = true -> destroy_recorded d principal request id.
Proof.
  unfold ReplayDestroyedSession, ReplayCompletedMutation. destruct (d_mutations d !! (principal, request)) as [r|] eqn:Hr; [|done].
  destruct (m_Operation r ==s "destroy_session") eqn:H1; [|done]. destruct (m_SessionID r ==s id) eqn:H2; [|done]. simpl.
  destruct (m_Response r) as [v|] eqn:Hv; [|done]. destruct (m_Status r ==s StatusCompleted) eqn:H3; [|done]. simpl.
  destruct (read_outcome v) as [o|] eqn:Ho; [|done]. destruct (oc_Error o) eqn:He; [done|].
  intros _. apply String.eqb_eq in H1, H2, H3. exists r, v, o. by split_and!.
Qed.

End Operations.

(** ** On a concrete execution *)

Module HistoryWitness.
Import Sample.

Definition end_completed : db := fst (CompleteLifecycle end_request 3100 d_ending).

Lemma lifecycle_receipt_final_witness :
  snd (CompleteLifecycle end_request 3200 (runs digest [create; bind] end_completed)) = Ok tt.
Proof.
  assert (Hok : lifecycle_ok end_request) by (by split; vm_compute).
  destruct (lifecycle_receipt_final digest end_request 3100 d_ending) as (o & Hm & H).
  - exact Hok.
  - vm_compute. reflexivity.
  - destruct (H [create; bind] end_request 3200%Z Hok eq_refl eq_refl) as [_ Hq]. rewrite Hm in Hq. exact Hq.
Defined.

Definition note_key : MutationKey := mkKey "terminal:alice" "n1" "note" sid key32.
Definition note : tx doc := reply (mkOutcome "" sid "" 1 "" None None).

Lemma mutation_at_most_once_witness :
  snd (RunMutation (mkKey "terminal:alice" "n1" "other" sid key32) 6000 note
         (runs digest [yield_to_gateway] (fst (RunMutation note_key 5000 note d_created)))) = Err ErrIdempotencyConflict.
Proof.
  rewrite (mutation_at_most_once digest note_key 5000 note d_created
    (fst (RunMutation note_key 5000 note d_created)) (outcome_doc (mkOutcome "" sid "" 1 "" None None))).
  - vm_compute. reflexivity.
  - intros d d' v [= <- _]. reflexivity.
  - vm_compute. reflexivity.
  - vm_compute. reflexivity.
  - vm_compute. reflexivity.
Defined.

Lemma yield_request_replayed_witness :
  snd (RequestYieldWithHook digest "cc:chan" "r2" sid gateway true 1 1 None clk (runs digest [bind] d_yielded))
  = Ok (mkOutcome "transferred" sid "" 2 "" (Some gateway) None, true).
Proof.
  rewrite (yield_request_replayed digest "cc:chan" "r2" sid gateway true 1 1 None clk d_created d_yielded
    (mkOutcome "transferred" sid "" 2 "" (Some gateway) None)).
  - reflexivity.
  - vm_compute. reflexivity.
Defined.

End HistoryWitness.
