(* ===== verification/SessionStream.v ===== *)
(** * The session event stream: [streamSessionSubscription] of [daemon/server.go]

    A subscriber gets a snapshot and then, every 100 ms, the revisions of the
    journal after its cursor, until the connection breaks or the journal no longer
    reaches back to the cursor.  [streaming] interleaves the rounds of one
    subscription with any operations on the store. *)

From S2P Require Import Prelude GoStrings GoMarshal Session SessionDB TxLogic SessionStore TaskStore SessionService SessionSpec SessionRun SessionSafety History.
Local Open Scope go_scope.

(** The loop over the revisions of one round: the events written, the cursor, and
    whether a gap ended the stream. *)
Fixpoint send_revisions (cursor : Z) (revisions : list SessionRevision)
  : list SessionRevision * Z * option string :=
  match revisions with
  | [] => ([], cursor, None)
  | r :: rs =>
      if negb (rv_Revision r =? u64 (cursor + 1))%Z then ([], cursor, Some "journal_gap")
      else let '(sent, c, e) := send_revisions (rv_Revision r) rs in (r :: sent, c, e)
  end.

(** One round: the events written, the cursor after it, and the reason if the
    stream ends. *)
Definition stream_round (cursor : Z) (d : db) : list SessionRevision * Z * option string :=
  match SessionRevisionsAfter cursor 256 d with
  | Err _ => ([], cursor, Some "journal_error")
  | Ok (revisions, earliest, latest) =>
      if (0 <? earliest)%Z && (u64 (cursor + 1) <? earliest)%Z && (cursor <? latest)%Z
      then ([], cursor, Some "journal_gap")
      else send_revisions cursor revisions
  end.

Section Stream.
Context `{UC : UnicodeCase} `{UF : UnicodeFormat} `{ET : ErrorTexts}.
Variable sha256 : string -> string.

(** A subscription started on [d0]: the database now, the cursor, and the events
    sent. *)
Inductive streaming (d0 : db) (snap : SessionRevisionSnapshot) : db -> Z -> list SessionRevision -> Prop :=
| st_start : SessionSnapshot d0 = Ok snap -> streaming d0 snap d0 (sn_Revision snap) []
| st_ops d c sent os : streaming d0 snap d c sent -> streaming d0 snap (runs sha256 os d) c sent
| st_round d c sent revs c' :
    streaming d0 snap d c sent -> stream_round c d = (revs, c', None) ->
    streaming d0 snap d c' (sent ++ revs).

(** ** Reading the window *)

Lemma represents_max (d : db) (L : list SessionRevision) :
  represents d L -> default 0%Z (max_revision (d_journal d)) = Z.of_nat (length L).
Proof.
  intros [Hn Hs Hw]. unfold max_revision. rewrite Hw. destruct L as [|e L]; [done|].
  rewrite (last_revision _ (Z.of_nat (length (e :: L) - 4096))).
  - simpl default. rewrite length_drop. simpl length. lia.
  - pose proof (numbered_drop 0 (length (e :: L) - 4096) (e :: L) ltac:(lia) Hn) as H. by rewrite Z.add_0_l in H.
  - intros H. apply (f_equal length) in H. rewrite length_drop in H. simpl in H. lia.
Qed.

Lemma represents_min (d : db) (L : list SessionRevision) :
  represents d L -> L <> [] -> default 0%Z (min_revision (d_journal d)) = (Z.of_nat (length L - 4096) + 1)%Z.
Proof.
  intros [Hn Hs Hw] Hne. unfold min_revision. rewrite Hw.
  pose proof (numbered_drop 0 (length L - 4096) L ltac:(lia) Hn) as H. rewrite Z.add_0_l in H.
  destruct (drop (length L - 4096) L) as [|e l] eqn:E.
  - apply (f_equal length) in E. rewrite length_drop in E. destruct L; [done|]. simpl in E. lia.
  - simpl. apply numbered_cons in H. apply H.
Qed.

(** The events after a cursor the window still reaches. *)
Lemma represents_after (d : db) (L : list SessionRevision) (c : nat) :
  represents d L -> length L - 4096 <= c <= length L ->
  List.filter (fun e => (Z.of_nat c <? rv_Revision e)%Z) (d_journal d) = drop c L.
Proof.
  intros [Hn Hs Hw] Hc. rewrite Hw.
  pose proof (numbered_drop 0 (length L - 4096) L ltac:(lia) Hn) as H. rewrite Z.add_0_l in H.
  rewrite (filter_ext (fun e => (Z.of_nat c <? rv_Revision e)%Z) (fun e => negb (rv_Revision e <=? Z.of_nat c)%Z)).
  - rewrite (filter_numbered _ _ _ H), drop_drop. f_equal. lia.
  - intros e. by rewrite Z.leb_antisym, negb_involutive.
Qed.

Lemma send_numbered (c : Z) (l : list SessionRevision) :
  (0 <= c)%Z -> (c + Z.of_nat (length l) < 2 ^ 63)%Z -> numbered c l ->
  send_revisions c l = (l, (c + Z.of_nat (length l))%Z, None).
Proof.
  revert c. induction l as [|r l IH]; intros c Hc Hb Hn; simpl.
  - by rewrite Z.add_0_r.
  - apply numbered_cons in Hn. destruct Hn as [Hr Hl]. simpl in Hb.
    assert (u64 (c + 1) = (c + 1)%Z) as Hu by (unfold u64; apply Z.mod_small; lia).
    rewrite Hr, Hu, Z.eqb_refl. simpl. rewrite IH; [|lia|lia|done].
    by replace (c + Z.of_nat (S (length l)))%Z with (c + 1 + Z.of_nat (length l))%Z by lia.
Qed.

(** What a round sends: at most 256 events, the next ones of the log. *)
Lemma stream_round_spec (d : db) (L : list SessionRevision) (c : nat) :
  represents d L -> c <= length L -> (Z.of_nat (length L) < 2 ^ 63 - 1)%Z ->
  stream_round (Z.of_nat c) d =
  if decide (length L - 4096 <= c)
  then (take 256 (drop c L), (Z.of_nat c + Z.of_nat (Nat.min 256 (length L - c)))%Z, None)
  else ([], Z.of_nat c, Some "journal_gap").
Proof.
  intros Hr Hc Hb. unfold stream_round, SessionRevisionsAfter. simpl negb.
  assert ((2 ^ 63 <=? Z.of_nat c)%Z = false) as -> by (apply Z.leb_gt; lia).
  assert (u64 (Z.of_nat c + 1) = (Z.of_nat c + 1)%Z) as -> by (unfold u64; apply Z.mod_small; lia).
  cbn [orb Z.ltb Z.compare Pos.compare Pos.compare_cont]. rewrite (represents_max _ _ Hr).
  destruct L as [|e L].
  { simpl in Hc. destruct Hr as [_ _ Hw]. simpl in Hw. rewrite Hw. simpl. assert (c = 0) as -> by lia. done. }
  set (Lf := e :: L) in *. assert (Lf <> []) as Hne by done. rewrite (represents_min _ _ Hr Hne).
  case_decide as Hd.
  - assert ((Z.of_nat c + 1 <? Z.of_nat (length Lf - 4096) + 1)%Z = false) as -> by (apply Z.ltb_ge; lia).
    rewrite andb_false_r. simpl andb. cbv iota. rewrite (represents_after d Lf c Hr (conj Hd Hc)).
    change (Z.to_nat 256) with 256. rewrite send_numbered.
    + rewrite length_take, length_drop. done.
    + lia.
    + rewrite length_take, length_drop. lia.
    + pose proof (numbered_drop 0 c Lf Hc (rp_numbered _ _ Hr)) as H. rewrite Z.add_0_l in H.
      rewrite <-(take_drop 256 (drop c Lf)) in H. apply numbered_app in H. apply H.
  - assert ((Z.of_nat c + 1 <? Z.of_nat (length Lf - 4096) + 1)%Z = true) as -> by (apply Z.ltb_lt; lia).
    assert ((Z.of_nat c <? Z.of_nat (length Lf))%Z = true) as -> by (apply Z.ltb_lt; lia).
    assert ((0 <? Z.of_nat (length Lf - 4096) + 1)%Z = true) as -> by (apply Z.ltb_lt; lia). done.
Qed.

(** ** The stream *)

Lemma streaming_represents (d0 d : db) (snap : SessionRevisionSnapshot) (c : Z) (sent L0 : list SessionRevision) :
  represents d0 L0 -> streaming d0 snap d c sent -> exists L, represents d L.
Proof.
  intros Hr Hst. induction Hst as [Hsnap|d c sent os Hst [L HL]|]; [eauto| |done].
  destruct (runs_past sha256 os d) as [_ _ HJ]. destruct (HJ L HL) as (evs & H & _). eauto.
Qed.

(** The log behind a running subscription: what was sent is its next part. *)
Lemma streaming_log (d0 d : db) (snap : SessionRevisionSnapshot) (c : Z) (sent L0 : list SessionRevision) :
  represents d0 L0 -> streaming d0 snap d c sent -> (d_sequence d < 2 ^ 63 - 1)%Z ->
  exists rest, represents d (L0 ++ sent ++ rest) /\ c = Z.of_nat (length L0 + length sent)
    /\ sn_Revision snap = Z.of_nat (length L0)
    /\ forall id, same_shown d0 d id \/ In id (map rv_SessionID (sent ++ rest)).
Proof.
  intros Hr Hst. induction Hst as [Hsnap|d c sent os Hst IH|d c sent revs c' Hst IH Hround]; intros Hb.
  - exists []. rewrite !app_nil_r. unfold SessionSnapshot in Hsnap.
    destruct (ListSessions d0); [|discriminate]. simpl in Hsnap. case_hyp Hsnap; [discriminate|]. injection Hsnap as <-.
    simpl. rewrite (represents_max _ _ Hr), Nat.add_0_r. auto using same_shown_refl.
  - destruct (runs_past sha256 os d) as [_ _ HJ].
    destruct (streaming_represents _ _ _ _ _ _ Hr Hst) as [L HL]. destruct (HJ L HL) as (evs & HL' & _).
    destruct IH as (rest & HR & Hc & Hs & Hn).
    { rewrite (rp_sequence _ _ HL). rewrite (rp_sequence _ _ HL'), length_app in Hb. lia. }
    destruct (HJ _ HR) as (evs' & HR' & Hn'). exists (rest ++ evs').
    rewrite <- !app_assoc in HR'. split_and!; [done|done|done|].
    intros id. rewrite app_assoc, map_app, in_app_iff. destruct (Hn id); [|auto]. destruct (Hn' id); [|auto].
    left. eauto using same_shown_trans.
  - destruct (IH Hb) as (rest & HR & Hc & Hs & Hn). set (L := L0 ++ sent ++ rest) in *.
    assert (Hlen : length L = length L0 + length sent + length rest) by (unfold L; rewrite !length_app; lia).
    rewrite (rp_sequence _ _ HR) in Hb. rewrite Hc in Hround.
    rewrite (stream_round_spec d L _ HR) in Hround by lia.
    case_decide; [|discriminate].
    pose proof (f_equal (fun x => fst (fst x)) Hround) as Hrevs. pose proof (f_equal (fun x => snd (fst x)) Hround) as Hc'.
    cbn [fst snd] in Hrevs, Hc'. subst revs c'. clear Hround.
    assert (drop (length L0 + length sent) L = rest) as ->.
    { unfold L. rewrite app_assoc, <-length_app. apply drop_app_length. }
    exists (drop 256 rest). rewrite <- !app_assoc, take_drop. rewrite length_app, length_take.
    split_and!; [done|lia|done|]. done.
Qed.

(** C27. A subscriber that starts from a snapshot gets the events of the journal in
    order, without a hole and without a duplicate, whatever operations run between
    the rounds; and once its cursor has caught up, every session that looks different
    from the snapshot has been named by an event.  As long as it is at most 4096
    events behind, a round never ends the stream and sends the next events, up to
    256. *)
Theorem session_stream_complete (d0 d : db) (snap : SessionRevisionSnapshot) (c : Z) (sent : list SessionRevision) :
  reachable sha256 d0 -> streaming d0 snap d c sent -> (d_sequence d < 2 ^ 63 - 1)%Z ->
  numbered (sn_Revision snap) sent /\ c = (sn_Revision snap + Z.of_nat (length sent))%Z
  /\ (c = d_sequence d -> forall id, same_shown d0 d id \/ In id (map rv_SessionID sent))
  /\ ((d_sequence d - c <= 4096)%Z ->
      exists revs, stream_round c d = (revs, (c + Z.of_nat (length revs))%Z, None)
        /\ length revs = Nat.min 256 (Z.to_nat (d_sequence d - c))).
Proof.
  intros Hreach Hst Hb. destruct (reachable_represents sha256 d0 Hreach) as [L0 Hr].
  destruct (streaming_log _ _ _ _ _ _ Hr Hst Hb) as (rest & HR & Hc & Hs & Hn).
  pose proof (rp_numbered _ _ HR) as Hnum. apply numbered_app in Hnum. destruct Hnum as [_ Hnum].
  apply numbered_app in Hnum. destruct Hnum as [Hnum _].
  assert (Hlen : length (L0 ++ sent ++ rest) = length L0 + length sent + length rest) by (rewrite !length_app; lia).
  pose proof (rp_sequence _ _ HR) as Hseq.
  split_and!.
  - by rewrite Hs, <-(Z.add_0_l (Z.of_nat _)).
  - rewrite Hs, Hc. lia.
  - intros Heq id. assert (rest = []) as ->; [|by rewrite app_nil_r in Hn].
    destruct rest; [done|]. simpl in *. lia.
  - intros Hlag. rewrite Hc, (stream_round_spec d _ _ HR) by lia. rewrite decide_True by lia.
    eexists. split; [|].
    + rewrite length_take, length_drop. done.
    + rewrite length_take, length_drop. lia.
Qed.

End Stream.

(** ** On a concrete execution *)

Module StreamWitness.
Import Sample.

(** One session in the snapshot; it is taken over and bound, then one round. *)
Definition d_after : db := runs digest [yield_to_gateway; bind] d_created.
Definition snapshot : SessionRevisionSnapshot := mkSnapshot 1 1 (map (project d_created) [session]).
Definition round : list SessionRevision := fst (fst (stream_round 1 d_after)).

Lemma session_stream_complete_witness :
  length round = 2 /\ numbered 1 round.
Proof.
  split; [vm_compute; reflexivity|].
  destruct (session_stream_complete digest d_created d_after snapshot 3 round) as (H & _).
  - exact created_reachable.
  - apply (st_round digest d_created snapshot d_after 1 [] round 3).
    + unfold d_after. apply st_ops. apply (st_start digest d_created snapshot). vm_compute. reflexivity.
    + vm_compute. reflexivity.
  - vm_compute. reflexivity.
  - exact H.
Defined.

End StreamWitness.
