(* ===== verification/TaskSafety.v ===== *)
(** * Managed tasks: events are applied once, results are final

    [kept] relates a database to a later one with respect to the tasks and event
    receipts of the sessions that are still there: receipts stay, sequence numbers
    only grow, and a finished task keeps its result.  Every operation preserves it,
    and with it an event of a task is applied at most once. *)

From S2P Require Import Prelude GoStrings GoMarshal Session SessionDB TxLogic SessionStore SessionSpec TaskStore SessionService SessionRefine SessionSteps SessionRun SessionSafety.
Local Open Scope go_scope.

Definition terminal (t : ManagedTask) : Prop :=
  t_Status t = ManagedTaskCompleted \/ t_Status t = ManagedTaskFailed.

(** [t'] is a later state of the task [t]. *)
Record task_after (t t' : ManagedTask) : Prop := mkTaskAfter {
  ta_same : t_SessionID t' = t_SessionID t /\ t_TaskID t' = t_TaskID t /\ t_PromptDigest t' = t_PromptDigest t
            /\ t_Owner t' = t_Owner t /\ t_OwnershipEpoch t' = t_OwnershipEpoch t
            /\ t_RuntimeGeneration t' = t_RuntimeGeneration t /\ t_OutputStart t' = t_OutputStart t;
  ta_sequence : (t_LastEventSeq t <= t_LastEventSeq t')%Z;
  ta_acked : (t_AckedEventSeq t <= t_AckedEventSeq t')%Z;
  ta_terminal : terminal t -> t_Status t' = t_Status t /\ t_OutputEnd t' = t_OutputEnd t
                /\ t_ErrorCategory t' = t_ErrorCategory t /\ t_LastEventSeq t' = t_LastEventSeq t;
}.

(** Task rows are stored under their own key. *)
Definition keyed (d : db) : Prop :=
  forall k t, d_tasks d !! k = Some t -> (t_SessionID t, t_TaskID t) = k.

Record kept (d d' : db) : Prop := mkKept {
  kp_keyed : keyed d -> keyed d';
  kp_sessions : forall id, is_Some (d_sessions d' !! id) -> is_Some (d_sessions d !! id);
  kp_tasks : forall k t, d_tasks d !! k = Some t ->
    d_sessions d' !! k.1 = None \/ exists t', d_tasks d' !! k = Some t' /\ task_after t t';
  kp_receipts : forall k r, d_receipts d !! k = Some r ->
    d_sessions d' !! k.1.1 = None \/ d_receipts d' !! k = Some r;
}.

Lemma task_after_refl (t : ManagedTask) : task_after t t.
Proof. split; try lia; auto 10. Qed.

Lemma task_after_trans (t1 t2 t3 : ManagedTask) : task_after t1 t2 -> task_after t2 t3 -> task_after t1 t3.
Proof.
  intros [S1 Q1 A1 T1] [S2 Q2 A2 T2]. split; try lia.
  - destruct_and!. split_and!; congruence.
  - intros H. destruct (T1 H) as (E1 & E2 & E3 & E4). assert (terminal t2) as H2 by (unfold terminal in *; congruence).
    destruct (T2 H2) as (F1 & F2 & F3 & F4). split_and!; congruence.
Qed.

#[export] Instance kept_preorder : PreOrder kept.
Proof.
  split.
  - intros d. split; eauto using task_after_refl.
  - intros d1 d2 d3 [K1 S1 T1 R1] [K2 S2 T2 R2]. split; [auto|auto| |].
    + intros k t Ht. destruct (T1 k t Ht) as [Hn|(t' & Ht' & Ha)].
      * left. destruct (d_sessions d3 !! k.1) eqn:E; [|done]. destruct (S2 k.1) as [x Hx]; [eauto|]. congruence.
      * destruct (T2 k t' Ht') as [Hn|(t'' & Ht'' & Ha')]; [auto|]. right. eauto using task_after_trans.
    + intros k r Hr. destruct (R1 k r Hr) as [Hn|Hr']; [|by apply R2].
      left. destruct (d_sessions d3 !! k.1.1) eqn:E; [|done]. destruct (S2 k.1.1) as [x Hx]; [eauto|]. congruence.
Qed.

(** ** Statements *)

Lemma kept_same (d d' : db) :
  d_sessions d' = d_sessions d -> d_tasks d' = d_tasks d -> d_receipts d' = d_receipts d -> kept d d'.
Proof. intros H1 H2 H3. split; unfold keyed; rewrite ?H1, ?H2, ?H3; eauto using task_after_refl. Qed.

Lemma kept_write (f : db -> db) :
  (forall d, d_sessions (f d) = d_sessions d /\ d_tasks (f d) = d_tasks d /\ d_receipts (f d) = d_receipts d) ->
  preserves kept (write f).
Proof. intros H. apply preserves_write. intros d. by apply kept_same; destruct (H d) as (? & ? & ?). Qed.

Lemma kept_insert_yield y : preserves kept (insert_yield y).
Proof. unfold insert_yield. preserves_tac. by apply kept_write. Qed.
Lemma kept_delete_yield id : preserves kept (delete_yield id).
Proof. by apply kept_write. Qed.
Lemma kept_insert_lifecycle p : preserves kept (insert_lifecycle p).
Proof. unfold insert_lifecycle. preserves_tac. by apply kept_write. Qed.
Lemma kept_update_lifecycle id cond ph now e : preserves kept (update_lifecycle id cond ph now e).
Proof. unfold update_lifecycle. preserves_tac. by apply kept_write. Qed.
Lemma kept_delete_lifecycle id cond : preserves kept (delete_lifecycle id cond).
Proof. unfold delete_lifecycle. preserves_tac. by apply kept_write. Qed.
Lemma kept_outcome p now f : preserves kept (insert_outcome p now f).
Proof. unfold insert_outcome. preserves_tac. by apply kept_write. Qed.
Lemma kept_retained r : preserves kept (insert_retained r).
Proof. unfold insert_retained. preserves_tac. by apply kept_write. Qed.
Lemma kept_audit e : preserves kept (insert_audit e).
Proof. unfold insert_audit. preserves_tac. by apply kept_write. Qed.
Lemma kept_activity k a : preserves kept (put_activity k a).
Proof. unfold put_activity. preserves_tac. by apply kept_write. Qed.
Lemma kept_binding b : preserves kept (insert_binding b).
Proof. unfold insert_binding. preserves_tac. by apply kept_write. Qed.
Lemma kept_delete_binding id : preserves kept (delete_binding id).
Proof.
  unfold delete_binding. preserves_tac. apply preserves_write. intros d0. apply kept_same; unfold drop_binding;
    by destruct (d_bindings d0 !! id).
Qed.

Lemma kept_update_session id cond f : preserves kept (update_session id cond f).
Proof.
  intros d d' n H. unfold update_session in H. tx_inv H. destruct (d_sessions d !! id) as [s|] eqn:E; [|by tx_inv H].
  destruct (negb (cond s)); [by tx_inv H|]. tx_inv H.
  assert (kept d (put_session id (f s) d)) as Hk.
  { split; simpl; eauto using task_after_refl. intros i [x Hx].
    destruct (decide (i = id)) as [->|Hne]; [eauto|]. rewrite lookup_insert_ne in Hx by done. eauto. }
  destruct (visible_change s (f s)); [|done]. etransitivity; [exact Hk|]. by apply kept_same.
Qed.

Lemma kept_delete_session id cond : preserves kept (delete_session id cond).
Proof.
  unfold delete_session. preserves_tac. apply preserves_write. intros d0.
  transitivity (drop_children id d0); [|apply kept_same; unfold drop_session, drop_binding; by destruct (d_bindings _ !! id)].
  split; simpl.
  - intros Hk k t Ht. apply map_lookup_filter_Some in Ht. apply Hk, Ht.
  - intros i [x Hx]. apply lookup_delete_Some in Hx. destruct Hx. eauto.
  - intros k t Ht. destruct (decide (k.1 = id)) as [->|Hne]; [left; by rewrite lookup_delete_eq|].
    right. exists t. split; [|apply task_after_refl]. by apply map_lookup_filter_Some.
  - intros k r Hr. destruct (decide (k.1.1 = id)) as [->|Hne]; [left; by rewrite lookup_delete_eq|].
    right. by apply map_lookup_filter_Some.
Qed.

Lemma kept_insert_task t : preserves kept (insert_task t).
Proof.
  intros d d' u H. unfold insert_task in H. cbv zeta in H. tx_inv H. apply andb_true_iff in Hb3. destruct Hb3 as [Hb3 _].
  apply andb_true_iff in Hb3. destruct Hb3 as [_ Hn%bool_decide_eq_true].
  split; simpl; eauto.
  - intros Hk k x Hx. simpl in Hx. apply lookup_insert_Some in Hx. destruct Hx as [[<- <-]|[_ Hx]]; [done|]. by apply Hk.
  - intros k x Hx. right. exists x. split; [|apply task_after_refl]. by rewrite lookup_insert_ne by congruence.
Qed.

Lemma kept_put_task (d : db) k t t' :
  d_tasks d !! k = Some t -> task_after t t' -> kept d (with_tasks (<[k := t']> (d_tasks d)) d).
Proof.
  intros E Ha. split; simpl; eauto.
  - intros Hk k' x Hx. simpl in Hx. apply lookup_insert_Some in Hx. destruct Hx as [[<- <-]|[_ Hx]]; [|by apply Hk].
    destruct (ta_same _ _ Ha) as (-> & -> & _). by apply Hk.
  - intros k' x Hx. right. destruct (decide (k' = k)) as [->|Hne].
    + rewrite lookup_insert_eq. simplify_eq. eauto.
    + rewrite lookup_insert_ne by done. eauto using task_after_refl.
Qed.

Lemma kept_update_task k cond f :
  (forall t, cond t = true -> task_after t (f t)) -> preserves kept (update_task k cond f).
Proof.
  intros Hf d d' n H. unfold update_task in H. tx_inv H. destruct (d_tasks d !! k) as [t|] eqn:E; [|by tx_inv H].
  destruct (cond t) eqn:Hc; simpl in H; [|by tx_inv H]. tx_inv H. apply Hf in Hc.
  by eapply kept_put_task.
Qed.

Lemma kept_receipt k r : preserves kept (insert_receipt k r).
Proof.
  intros d d' u H. unfold insert_receipt in H. tx_inv H. apply andb_true_iff in Hb0. destruct Hb0 as [Hb0 _].
  apply andb_true_iff in Hb0. destruct Hb0 as [Hb0 _]. apply andb_true_iff in Hb0. destruct Hb0 as [_ Hn%bool_decide_eq_true].
  split; simpl; eauto using task_after_refl. intros k' x Hx. right. by rewrite lookup_insert_ne by congruence.
Qed.

Lemma kept_fail_tasks id g now : preserves kept (write (fail_tasks id g now)).
Proof.
  apply preserves_write. intros d. split; simpl; eauto.
  - intros Hk k t Ht. simpl in Ht. rewrite lookup_fmap in Ht. destruct (d_tasks d !! k) as [t0|] eqn:E; [|discriminate].
    simpl in Ht. injection Ht as <-. case_match; exact (Hk k t0 E).
  - intros k t Ht. right. rewrite lookup_fmap, Ht. simpl.
    eexists. split; [done|]. case_match eqn:E; [|apply task_after_refl].
    apply andb_true_iff in E. destruct E as [_ Ha].
    split; simpl; try lia; [auto 10|]. intros [Ht'|Ht']; unfold task_active in Ha; rewrite Ht' in Ha; discriminate.
Qed.

#[export] Hint Resolve kept_insert_yield kept_delete_yield kept_insert_lifecycle kept_update_lifecycle
  kept_delete_lifecycle kept_outcome kept_retained kept_audit kept_activity kept_binding kept_delete_binding
  kept_update_session kept_delete_session kept_insert_task kept_receipt kept_fail_tasks : tx.

(** ** Operations *)

(** The tasks and receipts of a session that exists before and after. *)
Definition op_kept (d d' : db) : Prop :=
  forall id, is_Some (d_sessions d !! id) -> is_Some (d_sessions d' !! id) ->
    (forall tid t, d_tasks d !! (id, tid) = Some t -> exists t', d_tasks d' !! (id, tid) = Some t' /\ task_after t t')
    /\ (forall tid n r, d_receipts d !! (id, tid, n) = Some r -> d_receipts d' !! (id, tid, n) = Some r).

Lemma kept_op (d d' : db) : kept d d' -> op_kept d d'.
Proof.
  intros [_ _ T R] id _ [s Hs]. split.
  - intros tid t Ht. destruct (T _ t Ht) as [Hn|H]; [simpl in Hn; congruence|done].
  - intros tid n r Hr. destruct (R _ r Hr) as [Hn|H]; [simpl in Hn; congruence|done].
Qed.

(** What one operation does to tasks and receipts; a session may appear. *)
Definition carried (d d' : db) : Prop := keyed d -> keyed d' /\ op_kept d d'.

Lemma kept_carried (d d' : db) : kept d d' -> carried d d'.
Proof. intros H Hk. split; [by apply (kp_keyed _ _ H)|by apply kept_op]. Qed.

Lemma carried_refl (d : db) : carried d d.
Proof. apply kept_carried. reflexivity. Qed.

Definition same_tasks : relation db := fun d d' => d_tasks d' = d_tasks d /\ d_receipts d' = d_receipts d.
#[export] Instance same_tasks_preorder : PreOrder same_tasks.
Proof. split; [done|]. intros d1 d2 d3 [] []. split; congruence. Qed.

Lemma same_carried (d d' : db) : same_tasks d d' -> carried d d'.
Proof. intros [Ht Hr]. unfold carried, keyed, op_kept. rewrite Ht, Hr. eauto 6 using task_after_refl. Qed.

Section Operations.
Context `{UC : UnicodeCase} `{UF : UnicodeFormat} `{ET : ErrorTexts}.
Variable sha256 : string -> string.

Lemma kept_get id : preserves kept (GetSessionTx id).
Proof. intros d d' s H. unfold GetSessionTx in H. case_hyp H; simplify_eq. reflexivity. Qed.
Lemma kept_get_yield id : preserves kept (GetPendingYieldTx id).
Proof. apply preserves_read; exact _. Qed.
Lemma kept_get_lifecycle id : preserves kept (GetPendingLifecycleTx id).
Proof. apply preserves_read; exact _. Qed.
Lemma kept_delete_yield_tx id : preserves kept (DeletePendingYieldTx id).
Proof. apply kept_delete_yield. Qed.
Lemma kept_insert_yield_tx y : preserves kept (InsertPendingYieldTx y).
Proof. apply kept_insert_yield. Qed.
Lemma kept_one_row n e : preserves kept (one_row n e).
Proof. apply preserves_guard; exact _. Qed.
Lemma kept_hook f s : preserves kept (run_hook f s).
Proof. unfold run_hook. preserves_tac. Qed.
Lemma kept_reply o : preserves kept (reply o).
Proof. apply preserves_ret; exact _. Qed.
Lemma kept_service_audit p e o s now : preserves kept (audit p e o s now).
Proof. apply kept_audit. Qed.
Hint Resolve kept_get kept_get_yield kept_get_lifecycle kept_delete_yield_tx kept_insert_yield_tx kept_one_row
  kept_hook kept_reply kept_service_audit : tx.

Lemma kept_update_tx s e g : preserves kept (UpdateSessionTx s e g).
Proof. unfold UpdateSessionTx. preserves_tac. Qed.
Lemma kept_validate p : preserves kept (lifecycle_validate p).
Proof. unfold lifecycle_validate. preserves_tac. Qed.
Lemma kept_get_task sid tid : preserves kept (getManagedTaskTx sid tid).
Proof. unfold getManagedTaskTx. preserves_tac. Qed.
Lemma kept_validate_task t : preserves kept (validateManagedTaskTx t).
Proof. unfold validateManagedTaskTx. preserves_tac. Qed.
Lemma kept_record sid c now : preserves kept (recordActivityTx sid c now).
Proof. unfold recordActivityTx, category_validate. preserves_tac; by apply kept_write. Qed.
Lemma kept_retain s g now b r : preserves kept (retain s g now b r).
Proof. apply kept_retained. Qed.
Lemma kept_recover ids now : preserves kept (recover_sessions ids now).
Proof. induction ids; simpl; preserves_tac. Qed.
Lemma kept_rename id h e g now : preserves kept (RenameSessionTx id h e g now).
Proof. unfold RenameSessionTx. preserves_tac. Qed.
Lemma kept_delete_stopped id e g : preserves kept (DeleteStoppedSessionTx id e g).
Proof. unfold DeleteStoppedSessionTx. preserves_tac. Qed.
Lemma kept_by_session id : preserves kept (GetBindingBySessionTx id).
Proof. unfold GetBindingBySessionTx. preserves_tac. Qed.
Lemma kept_by_channel h : preserves kept (GetBindingByChannelTx h).
Proof. unfold GetBindingByChannelTx. preserves_tac. Qed.
Lemma kept_delete_binding_tx id : preserves kept (DeleteBindingTx id).
Proof. unfold DeleteBindingTx. preserves_tac. Qed.
Hint Resolve kept_update_tx kept_validate kept_get_task kept_validate_task kept_record kept_retain kept_recover
  kept_rename kept_delete_stopped kept_by_session kept_by_channel kept_delete_binding_tx : tx.
Lemma kept_insert_binding_tx b : preserves kept (InsertBindingTx b).
Proof. unfold InsertBindingTx. preserves_tac. Qed.
Lemma kept_task_body p op id tr hook clk : preserves kept (taskBody p op id tr hook clk).
Proof. unfold taskBody. preserves_tac. Qed.
Lemma kept_yield_body p rq id r w e g hook clk : preserves kept (RequestYieldBody p rq id r w e g hook clk).
Proof. unfold RequestYieldBody. preserves_tac. Qed.
Hint Resolve kept_insert_binding_tx kept_task_body kept_yield_body : tx.

Lemma kept_mutation (R : relation db) `{!PreOrder R} key now fn d :
  (forall x d0, R d0 (with_mutations x d0)) -> preserves R fn -> R d (fst (RunMutation key now fn d)).
Proof.
  intros Hw Hfn. unfold RunMutation. apply (preserves_atomically R). preserves_tac; apply preserves_write; auto.
Qed.

Lemma run_and_read_rel {A : Type} (R : relation db) `{!PreOrder R} (reader : doc -> option A) key now fn d :
  (forall x d0, R d0 (with_mutations x d0)) -> preserves R fn -> R d (fst (run_and_read reader key now fn d)).
Proof.
  intros Hw Hfn. unfold run_and_read. pose proof (kept_mutation R key now fn d Hw Hfn) as H.
  by destruct (RunMutation key now fn d).
Qed.

(** Service operations refuse some arguments before the mutation. *)
Ltac service_kept :=
  apply kept_carried;
  repeat match goal with |- kept _ (fst (if ?b then _ else _)) => destruct b; [reflexivity|] end;
  apply (run_and_read_rel kept); [by intros; apply kept_same|preserves_tac].

Lemma service_ops_kept (o : db_op) (d : db) :
  match o with
  | OpCreateSession _ _ _ _ | OpCreateIdempotent _ _ _ _ _ | OpRenameSession _ _ _ _ _ _ _ | OpDestroyStopped _ _ _ _ _ _
  | OpBindDiscord _ _ _ _ _ | OpUnbindDiscord _ _ _ _ | OpRequestYield _ _ _ _ _ _ _ _ _
  | OpBeginTask _ _ _ _ _ _ _ | OpBeginReply _ _ _ _ _ | OpCompleteReply _ _ _ _ _ _
  | OpCompleteOwnerReply _ _ _ _ _ _ _ _ => carried d (run sha256 o d)
  | _ => True
  end.
Proof.
  destruct o; try exact I; unfold run.
  - unfold CreateSession. destruct (Session_Validate s); [|apply carried_refl].
    do 2 (destruct (_ && _); [apply carried_refl|]).
    apply same_carried, (run_and_read_rel same_tasks); [done|].
    unfold InsertSessionTx, insert_session, audit, InsertAuditTx, insert_audit, reply.
    preserves_tac; by apply preserves_write.
  - apply same_carried, (run_and_read_rel same_tasks); [done|].
    unfold InsertSessionTx, insert_session. preserves_tac; by apply preserves_write.
  - unfold RenameSession. destruct (ValidateHandle handle); [|apply carried_refl]. service_kept.
  - unfold DestroyStoppedSession. service_kept.
  - unfold BindDiscord. service_kept.
  - unfold UnbindDiscord. service_kept.
  - unfold RequestYieldWithHook. service_kept.
  - unfold BeginTask, runTaskMutationWithHook. service_kept.
  - unfold BeginReply, runtimeTaskMutationWithHook, runTaskMutationWithHook. service_kept.
  - unfold CompleteReplyWithHook, runtimeTaskMutationWithHook, runTaskMutationWithHook. service_kept.
  - unfold CompleteOwnerReplyWithHook, runTaskMutationWithHook. service_kept.
Qed.

Lemma not_terminal (t : ManagedTask) (l : list string) :
  among (t_Status t) l = true -> ~ In ManagedTaskCompleted l -> ~ In ManagedTaskFailed l -> ~ terminal t.
Proof. intros Ha Hc Hf Ht. apply among_In in Ha. destruct Ht as [Ht|Ht]; rewrite Ht in Ha; auto. Qed.

(** Changing the status of a task that is not finished. *)
Lemma status_after (t : ManagedTask) (st c : string) (now : Z) :
  ~ terminal t ->
  task_after t (set_task_status st now t) /\ task_after t (set_task_failed c now t).
Proof. intros H. split; (split; simpl; [auto 10|lia|lia|done]). Qed.

Lemma acked_after (t : ManagedTask) (n now : Z) : task_after t (set_acked n now t).
Proof.
  split; simpl; [auto 10|lia| |done]. destruct (Z.ltb_spec (t_AckedEventSeq t) n); lia.
Qed.

Lemma hook_same (b : bool) hook s (d d' : db) u : (if b then run_hook hook s else ret tt) d = Ok (d', u) -> d' = d.
Proof.
  unfold run_hook, guard, ret, fail. destruct b; [destruct hook as [f|]; [destruct (f s)|]|]; by intros [=].
Qed.

Lemma effect_sequence e now t s t' s' b :
  event_effect e now t s = Ok (t', s', b) -> t_LastEventSeq t' = e_Sequence e.
Proof. unfold event_effect. intros H. repeat case_hyp H; simplify_eq; done. Qed.

Lemma kept_optional_arg (o : option Z) : preserves kept (match o with Some e => arg_u64 e | None => ret tt end).
Proof. preserves_tac. Qed.

(** What a fresh event does, with the row it found. *)
Lemma event_fresh (sid : string) (g : Z) (e : ManagedTaskEvent) hook now (d d' : db) (task' : ManagedTask) (s : Session) :
  keyed d -> ApplyManagedTaskEvent sid g e hook now d = (d', Ok (task', s)) ->
  d_receipts d !! (sid, e_TaskID e, e_Sequence e) = None ->
  exists task, d_tasks d !! (sid, e_TaskID e) = Some task
    /\ t_LastEventSeq task = (e_Sequence e - 1)%Z /\ t_LastEventSeq task' = e_Sequence e
    /\ ~ terminal task /\ kept d d' /\ d_sessions d !! sid <> None
    /\ exists d1, d_receipts d1 !! (sid, e_TaskID e, e_Sequence e) = Some (mkReceipt (e_Digest e) (e_Kind e) now)
      /\ kept d1 d'.
Proof.
  intros Hkey. unfold ApplyManagedTaskEvent, atomically.
  match goal with |- context [match ?m d with _ => _ end] => destruct (m d) as [[d1 r]|] eqn:H end; [|discriminate].
  intros [= -> ->] Hn. apply tbind_Ok in H. destruct H as (d0 & task & Hget & H).
  unfold getManagedTaskTx in Hget. tx_inv Hget. destruct (d_tasks d !! (sid, e_TaskID e)) as [t|] eqn:Et; [|by tx_inv Hget].
  tx_inv Hget. tx_inv H. rewrite Hn in H.
  assert (Htid : t_TaskID t = e_TaskID e) by (by apply Hkey in Et; injection Et).
  do 3 (apply tbind_Ok in H; destruct H as (? & ? & ?Hm & H); apply guard_Ok in Hm; destruct Hm as [?Hc ->]).
  apply tbind_Ok in H. destruct H as (d0 & s0 & Hget & H).
  assert (d0 = d /\ d_sessions d !! sid <> None) as [-> Hsess].
  { unfold GetSessionTx, GetSession, scanSession in Hget. destruct (d_sessions d !! sid); [|discriminate].
    destruct (Session_Validate _); [|discriminate]. by injection Hget as <- _. }
  destruct (event_effect e now t (set_UpdatedAt now s0)) as [[[te se] term]|] eqn:Heff; [|discriminate].
  apply tbind_Ok in H. destruct H as (d0 & ? & Hh & H). apply hook_same in Hh. subst d0.
  apply tbind_Ok in H. destruct H as (dr & ? & Hrec & H). pose proof (kept_receipt _ _ _ _ _ Hrec) as Kr.
  assert (d_tasks dr = d_tasks d /\ d_receipts dr !! (sid, e_TaskID e, e_Sequence e)
            = Some (mkReceipt (e_Digest e) (e_Kind e) now)) as [Htasks Hreceipt].
  { unfold insert_receipt in Hrec. tx_inv Hrec. simpl. by rewrite lookup_insert_eq. }
  apply tbind_Ok in H. destruct H as (d0 & ? & Ho & H).
  assert (d0 = dr) as -> by (destruct (t_OutputEnd te); [apply guard_Ok in Ho; by destruct Ho|by injection Ho]).
  apply tbind_Ok in H. destruct H as (d0 & ? & Ha & H). apply guard_Ok in Ha. destruct Ha as [_ ->].
  apply tbind_Ok in H. destruct H as (du & n & Hu & H).
  apply tbind_Ok in H. destruct H as (d0 & ? & Ha & H). apply guard_Ok in Ha. destruct Ha as [Hn1 ->].
  assert (Hrest : kept du d' /\ t_LastEventSeq task' = e_Sequence e).
  { apply tbind_Ok in H. destruct H as (dv & ? & Hv & H). apply kept_update_tx in Hv.
    apply tbind_Ok in H. destruct H as (dw & ? & Hw & H). injection H as <- <- <-.
    split; [|by eapply effect_sequence]. etransitivity; [exact Hv|].
    match type of Hw with ?m dv = _ => assert (Hm : preserves kept m) by preserves_tac end. by eapply Hm. }
  destruct Hrest as [Kv Hseq].
  unfold update_task in Hu. tx_inv Hu. rewrite Htid, Htasks, Et in Hu.
  destruct (negb _) eqn:Hcond in Hu; [tx_inv Hu; discriminate|]. tx_inv Hu. bool_to_prop.
  assert (Hnt : ~ terminal t).
  { apply (not_terminal t [ManagedTaskRunning; ManagedTaskReplying]); [done|simpl|simpl]; intros [[=]|[[=]|[]]]. }
  assert (Ku : kept dr (with_tasks (<[(sid, e_TaskID e) := set_event (t_Status te) (t_LastEventSeq te)
      (t_OutputEnd te) (t_ErrorCategory te) now t]> (d_tasks dr)) dr)).
  { apply (kept_put_task dr _ t); [by rewrite Htasks|]. pose proof (effect_sequence _ _ _ _ _ _ _ Heff).
    split; simpl; [auto 10|lia|lia|done]. }
  assert (kept dr d') as Kd by (etransitivity; [exact Ku|exact Kv]).
  exists t. split_and!; try done; [by transitivity dr|]. exists dr. done.
Qed.

(** An event with a receipt changes nothing. *)
Lemma event_replay (sid : string) (g : Z) (e : ManagedTaskEvent) hook now (d : db) (r : EventReceipt) :
  d_receipts d !! (sid, e_TaskID e, e_Sequence e) = Some r ->
  ApplyManagedTaskEvent sid g e hook now d =
  (d, match d_tasks d !! (sid, e_TaskID e) with
      | None => Err ErrNotFound
      | Some t =>
          if (2 ^ 63 <=? e_Sequence e)%Z then Err DriverUint64
          else if er_Digest r ==s e_Digest e
          then match GetSession sid d with Ok s => Ok (t, s) | Err x => Err x end
          else Err ErrIdempotencyConflict
      end).
Proof.
  intros Hr. unfold ApplyManagedTaskEvent, atomically, getManagedTaskTx, arg_u64, tbind, read. cbv beta iota zeta.
  destruct (d_tasks d !! _) as [t|]; [|done]. unfold ret at 1. cbv beta iota zeta. rewrite Z.ltb_antisym.
  destruct (2 ^ 63 <=? e_Sequence e)%Z; [done|]. simpl negb. unfold guard, ret at 1. cbv beta iota zeta. rewrite Hr.
  destruct (er_Digest r ==s e_Digest e); [|done]. unfold GetSessionTx. by destruct (GetSession sid d).
Qed.

Lemma atomically_Err {A : Type} (m : tx A) (d d' : db) (x : store_error) : atomically m d = (d', Err x) -> d' = d.
Proof. unfold atomically. destruct (m d) as [[? ?]|]; by intros [=]. Qed.

Lemma event_carried (sid : string) (g : Z) (e : ManagedTaskEvent) hook now (d : db) :
  carried d (fst (ApplyManagedTaskEvent sid g e hook now d)).
Proof.
  intros Hk. destruct (d_receipts d !! (sid, e_TaskID e, e_Sequence e)) as [r|] eqn:Er.
  - rewrite (event_replay _ _ _ _ _ _ _ Er). by apply carried_refl.
  - destruct (ApplyManagedTaskEvent sid g e hook now d) as [d' [[t s]|x]] eqn:E.
    + destruct (event_fresh _ _ _ _ _ _ _ _ _ Hk E Er) as (? & _ & _ & _ & _ & Hkp & _).
      by apply (kept_carried _ _ Hkp).
    + apply atomically_Err in E as ->. by apply carried_refl.
Qed.

Lemma carried_atomically {A : Type} (m : tx A) (d : db) : preserves kept m -> carried d (fst (atomically m d)).
Proof. intros H. apply kept_carried. by apply (preserves_atomically kept). Qed.

Lemma carried_then {A B : Type} (m : tx A) (k : db -> A -> result store_error B) (d : db) :
  preserves kept m ->
  carried d (fst (let '(d', r) := atomically m d in match r with Err e => (d', Err e) | Ok a => (d', k d' a) end)).
Proof.
  intros H. apply (carried_atomically m d) in H. by destruct (atomically m d) as [d' [a|e]].
Qed.

Lemma task_ops_carried (o : db_op) (d : db) :
  match o with
  | OpAdmitTask _ _ _ | OpMarkTaskRunning _ _ _ _ | OpFailTask _ _ _ _ _ _ | OpTaskEvent _ _ _ _ _
  | OpAckEvent _ _ _ _ _ | OpFinalizeDelivery _ _ _ _ _ => carried d (run sha256 o d)
  | _ => True
  end.
Proof.
  destruct o; try exact I; unfold run.
  - unfold AdmitManagedTask. destruct (negb _); [apply carried_refl|].
    assert (H : carried d (fst (PrepareManagedTask task now d))) by (apply carried_atomically; preserves_tac).
    by destruct (PrepareManagedTask task now d).
  - apply (carried_then _ (fun d' _ => GetManagedTask id task d')). preserves_tac. apply kept_update_task.
    intros t Ht. apply andb_true_iff in Ht. destruct Ht as [_ Ht].
    apply (status_after t _ "" now), (not_terminal t _ Ht); simpl; intros [[=]|[[=]|[]]].
  - apply carried_atomically. preserves_tac. apply kept_update_task.
    intros t Ht. apply andb_true_iff in Ht. destruct Ht as [_ Ht%String.eqb_eq].
    apply (status_after t "" category now). unfold terminal. rewrite Ht. intros [[=]|[=]].
  - apply event_carried.
  - apply (carried_then _ (fun d' _ => GetManagedTask id task d')). preserves_tac. apply kept_update_task.
    intros t _. apply acked_after.
  - apply carried_atomically. preserves_tac.
Qed.

Lemma run_carried (o : db_op) (d : db) : carried d (run sha256 o d).
Proof.
  pose proof (service_ops_kept o d) as Hs. pose proof (task_ops_carried o d) as Ht.
  destruct o; try exact Hs; try exact Ht; clear Hs Ht; unfold run;
    try (apply carried_atomically; preserves_tac; by apply kept_write).
  - apply kept_carried. apply (preserves_committing kept). preserves_tac.
  - apply (carried_then _ (fun d' _ => GetSession (p_SessionID p) d')). preserves_tac.
  - apply carried_atomically. unfold recordActivityBody, category_validate, put_callback. preserves_tac; by apply kept_write.
Qed.

Lemma runs_keyed (os : list db_op) (d : db) : keyed d -> keyed (runs sha256 os d).
Proof. revert d. induction os as [|o os IH]; intros d Hk; simpl; [done|]. by apply IH, run_carried. Qed.

Lemma reachable_keyed (d : db) : reachable sha256 d -> keyed d.
Proof. intros [os ->]. by apply runs_keyed. Qed.

(** Over any operations during which the session exists. *)
Lemma stays_kept (id : string) (os : list db_op) (d : db) :
  keyed d -> stays sha256 id os d ->
  (forall tid t, d_tasks d !! (id, tid) = Some t ->
     exists t', d_tasks (runs sha256 os d) !! (id, tid) = Some t' /\ task_after t t')
  /\ (forall tid n r, d_receipts d !! (id, tid, n) = Some r -> d_receipts (runs sha256 os d) !! (id, tid, n) = Some r).
Proof.
  revert d. induction os as [|o os IH]; intros d Hk Hst; simpl in *; [eauto using task_after_refl|].
  destruct Hst as [Hs Hst]. destruct (run_carried o d Hk) as [Hk' Hl].
  destruct (Hl id Hs) as [HT HR]; [by destruct os; apply Hst|]. destruct (IH _ Hk' Hst) as [IT IR].
  split; [|eauto]. intros tid t Ht. destruct (HT tid t Ht) as (t1 & Ht1 & Ha).
  destruct (IT tid t1 Ht1) as (t2 & Ht2 & Ha'). eauto using task_after_trans.
Qed.

(** ** Events *)

(** The receipt an accepted event leaves. *)
Lemma event_receipt (sid : string) (g : Z) (e : ManagedTaskEvent) hook now (d d1 : db) (t : ManagedTask) (s : Session) :
  keyed d -> ApplyManagedTaskEvent sid g e hook now d = (d1, Ok (t, s)) -> is_Some (d_sessions d1 !! sid) ->
  (e_Sequence e < 2 ^ 63)%Z
  /\ exists r, d_receipts d1 !! (sid, e_TaskID e, e_Sequence e) = Some r /\ er_Digest r = e_Digest e
     /\ exists t1, d_tasks d1 !! (sid, e_TaskID e) = Some t1.
Proof.
  intros Hk E Hs. destruct (d_receipts d !! (sid, e_TaskID e, e_Sequence e)) as [r|] eqn:Er.
  - rewrite (event_replay _ _ _ _ _ _ _ Er) in E. repeat case_hyp E; try discriminate. simplify_eq.
    bool_to_prop. split; [lia|]. exists r. eauto.
  - destruct (event_fresh _ _ _ _ _ _ _ _ _ Hk E Er) as (t0 & Ht0 & _ & _ & _ & Hkp & _ & dr & Hr & Hkr).
    destruct (kp_tasks _ _ Hkp _ _ Ht0) as [Hn|(t1 & Ht1 & _)]; [simpl in Hn; rewrite Hn in Hs; by destruct Hs|].
    destruct (kp_receipts _ _ Hkr _ _ Hr) as [Hn|Hr1]; [simpl in Hn; rewrite Hn in Hs; by destruct Hs|].
    split; [|by eauto 6]. unfold ApplyManagedTaskEvent, atomically in E.
    match type of E with match ?m d with _ => _ end = _ => destruct (m d) as [[? ?]|] eqn:Hm; [|discriminate] end.
    apply tbind_Ok in Hm. destruct Hm as (? & ? & _ & Hm). apply tbind_Ok in Hm. destruct Hm as (? & ? & Ha & _).
    apply guard_Ok in Ha. destruct Ha as [Ha _]. by apply Z.ltb_lt.
Qed.

(** C13. A managed-task event is applied at most once.  Once an event has been
    accepted, then after any further operations, as long as its session exists, an
    event with the same task and sequence number changes nothing at all: the caller
    gets the current task and session back when the digest is the one recorded, and
    an idempotency conflict otherwise. *)
Theorem task_event_once (sid : string) (g : Z) (e : ManagedTaskEvent) hook now (d d1 : db) (t : ManagedTask) (s : Session)
    (os : list db_op) :
  reachable sha256 d -> ApplyManagedTaskEvent sid g e hook now d = (d1, Ok (t, s)) -> stays sha256 sid os d1 ->
  let d2 := runs sha256 os d1 in
  exists t2 s2, d_tasks d2 !! (sid, e_TaskID e) = Some t2 /\ d_sessions d2 !! sid = Some s2
    /\ forall g' e' hook' now', e_TaskID e' = e_TaskID e -> e_Sequence e' = e_Sequence e ->
         ApplyManagedTaskEvent sid g' e' hook' now' d2 =
         (d2, if e_Digest e ==s e_Digest e' then Ok (t2, s2) else Err ErrIdempotencyConflict).
Proof.
  intros Hr E Hst d2.
  assert (Hd1 : d1 = run sha256 (OpTaskEvent sid g e hook now) d) by (simpl; by rewrite E).
  assert (Hk1 : keyed d1) by (rewrite Hd1; by apply run_carried, reachable_keyed).
  assert (Hg2 : good_db d2) by (apply runs_good; rewrite Hd1; by apply run_good, (reachable_good sha256)).
  destruct (event_receipt _ _ _ _ _ _ _ _ _ (reachable_keyed _ Hr) E) as (Hseq & r & Hrec & Hdig & t1 & Ht1);
    [by destruct os; apply Hst|].
  destruct (stays_kept _ _ _ Hk1 Hst) as [HT HR]. destruct (HT _ _ Ht1) as (t2 & Ht2 & _).
  assert (is_Some (d_sessions d2 !! sid)) as [s2 Hs2] by by apply stays_end.
  exists t2, s2. split_and!; try done. intros g' e' hook' now' Htid Hn. apply HR in Hrec.
  rewrite (event_replay _ _ _ _ _ _ r) by (by rewrite Htid, Hn). fold d2 in Ht2. rewrite Htid, Ht2, Hn.
  rewrite (proj2 (Z.leb_gt _ _) Hseq), Hdig, (GetSession_total d2 sid Hg2), Hs2. done.
Qed.

(** The result of a managed task is final: once a task is completed or failed,
    then after any further operations, as long as its session exists, its status,
    output boundary, error category and last sequence number are the same, and every
    event that was not accepted before is refused without any change. *)
Theorem task_result_final (sid tid : string) (d : db) (t : ManagedTask) (os : list db_op) :
  reachable sha256 d -> d_tasks d !! (sid, tid) = Some t -> terminal t -> stays sha256 sid os d ->
  let d2 := runs sha256 os d in
  exists t2, d_tasks d2 !! (sid, tid) = Some t2
    /\ t_Status t2 = t_Status t /\ t_OutputEnd t2 = t_OutputEnd t /\ t_ErrorCategory t2 = t_ErrorCategory t
    /\ t_LastEventSeq t2 = t_LastEventSeq t
    /\ forall g e hook now, e_TaskID e = tid -> d_receipts d2 !! (sid, tid, e_Sequence e) = None ->
         exists x, ApplyManagedTaskEvent sid g e hook now d2 = (d2, Err x).
Proof.
  intros Hr Ht Hterm Hst d2. pose proof (reachable_keyed _ Hr) as Hk.
  destruct (stays_kept _ _ _ Hk Hst) as [HT _]. destruct (HT _ _ Ht) as (t2 & Ht2 & Ha).
  destruct (ta_terminal _ _ Ha Hterm) as (E1 & E2 & E3 & E4).
  exists t2. split_and!; try done. intros g e hook now Htid Hn.
  destruct (ApplyManagedTaskEvent sid g e hook now d2) as [d3 [[t3 s3]|x]] eqn:E.
  - subst tid. destruct (event_fresh _ _ _ _ _ _ _ _ _ (runs_keyed os d Hk) E Hn) as (t0 & Ht0 & _ & _ & Hnt & _).
    exfalso. apply Hnt. rewrite Ht2 in Ht0. injection Ht0 as <-. unfold terminal in *. by rewrite E1.
  - exists x. by rewrite (atomically_Err _ _ _ _ E).
Qed.

End Operations.

(** ** On a concrete execution *)

Module TaskWitness.
Import Sample.

Definition d_done : db := run digest (OpTaskEvent sid 1 done_event None 2002) d_tasked.
Lemma done_reachable : reachable digest d_done.
Proof. apply reachable_run, tasked_reachable. Qed.

Definition done_task : ManagedTask :=
  mkTask sid "t1" key32 gateway 2 1 ManagedTaskCompleted 1 0 0 (Some 10%Z) "" 2000 2002.
Definition ack : db_op := OpAckEvent sid "t1" 1 gateway 2003.

Lemma task_event_once_witness :
  snd (ApplyManagedTaskEvent sid 1 (mkTaskEvent "t1" 1 "failed" 10 "" "other" "") None 9000 (runs digest [ack] d_done))
  = Err ErrIdempotencyConflict.
Proof.
  destruct (task_event_once digest sid 1 done_event None 2002 d_tasked d_done done_task
    (set_UpdatedAt 2002 (set_TaskState TaskReplying session_yielded)) [ack]) as (t2 & s2 & _ & _ & H).
  - exact tasked_reachable.
  - vm_compute. reflexivity.
  - apply stays_b_true. vm_compute. reflexivity.
  - rewrite H by reflexivity. reflexivity.
Defined.

Lemma task_result_final_witness :
  exists t2, d_tasks (runs digest [ack] d_done) !! (sid, "t1") = Some t2 /\ t_Status t2 = ManagedTaskCompleted.
Proof.
  destruct (task_result_final digest sid "t1" d_done done_task [ack]) as (t2 & Ht & Hs & _).
  - exact done_reachable.
  - vm_compute. reflexivity.
  - left. reflexivity.
  - apply stays_b_true. vm_compute. reflexivity.
  - exists t2. split; [exact Ht|exact Hs].
Defined.

End TaskWitness.
