(* ===== verification/Lifecycle.v ===== *)
(** * The lifecycle coordinator of the daemon: [daemon/session_lifecycle.go]

    A client asks to end, destroy or restart a session; the request is reserved in
    the store, and a worker drives it phase by phase: it stops the runtime, then
    records the end, launches a replacement or removes the session and its files.
    What the worker asks of the world outside the store (the supervisor, the
    launcher, the file system) is an [effect], and the answers are the arguments in
    [world].  [w_between] lists the operations of other goroutines that run between
    two accesses of the worker to the store, so a run of the worker is one under any
    interleaving. *)

From S2P Require Import Prelude GoStrings GoMarshal Session SessionDB TxLogic SessionStore TaskStore SessionService SessionRun SessionSpec SessionRefine SessionSteps SessionSafety History.
Local Open Scope go_scope.

(** ** Requests *)

Definition RoleDucklord : string := "ducklord".
Definition RoleDuckwayCC : string := "duckway_cc".

Definition lifecycleOwner (role principal : string) : Owner :=
  mkOwner (if role ==s RoleDuckwayCC then OwnerCC else OwnerTerminal) principal.

Record SessionLifecycleRequest := mkLifecycleRequest { lr_Operation : string; lr_Mode : string }.

Definition LifecycleRequest_Validate (r : SessionLifecycleRequest) : bool :=
  among (lr_Operation r) [LifecycleEnd; LifecycleDestroy; LifecycleRestart]
  && among (lr_Mode r) [LifecycleImmediate; LifecycleWait; LifecycleForce].

Definition lifecycleStoreRequest (sessionID requestID : string) (owner : Owner) (epoch generation : Z)
    (r : SessionLifecycleRequest) : PendingLifecycle :=
  mkLifecycle sessionID
    (if lr_Operation r ==s LifecycleDestroy then LifecycleDestroy
     else if lr_Operation r ==s LifecycleRestart then LifecycleRestart else LifecycleEnd)
    (if lr_Mode r ==s LifecycleWait then LifecycleWait
     else if lr_Mode r ==s LifecycleForce then LifecycleForce else LifecycleImmediate)
    owner epoch generation requestID "" 0 0 0 "".

Definition SessionLifecycleExecuting : string := "executing".

Definition lifecycleProtocolState (phase : string) : string :=
  if phase ==s LifecycleWaiting then LifecycleWaiting
  else if phase ==s LifecycleCompleted then LifecycleCompleted
  else SessionLifecycleExecuting.

Record SessionLifecycleResult := mkLifecycleResult {
  lres_SessionID : string;
  lres_Operation : string;
  lres_Mode : string;
  lres_State : string;
  lres_OwnershipEpoch : Z;
  lres_RuntimeGeneration : Z;
}.

Definition lifecycleResult (p : PendingLifecycle) : SessionLifecycleResult :=
  mkLifecycleResult (p_SessionID p)
    (if p_Operation p ==s LifecycleDestroy then LifecycleDestroy
     else if p_Operation p ==s LifecycleRestart then LifecycleRestart else LifecycleEnd)
    (if p_Mode p ==s LifecycleWait then LifecycleWait
     else if p_Mode p ==s LifecycleForce then LifecycleForce else LifecycleImmediate)
    (lifecycleProtocolState (p_Phase p)) (p_SourceEpoch p)
    (if (p_Operation p ==s LifecycleRestart) && (p_Phase p ==s LifecycleCompleted)
     then u64 (p_SourceGeneration p + 1) else p_SourceGeneration p).

Definition set_Phase (phase : string) (p : PendingLifecycle) : PendingLifecycle :=
  mkLifecycle (p_SessionID p) (p_Operation p) (p_Mode p) (p_Requester p) (p_SourceEpoch p)
    (p_SourceGeneration p) (p_RequestID p) phase (p_CreatedAtMS p) (p_UpdatedAtMS p) (p_Attempt p) (p_LastError p).

(** ** Effects and answers *)

Inductive effect :=
| AgentCancel (session request : string) (epoch generation : Z)
| Terminate (session request : string) (epoch generation : Z)
| Launch (session : string)
| CleanFiles (session : string).

(** The answers of one run of the worker: an error message or success.  The error of
    [prepareLifecycleRestart] says whether it is [errInvalidRetainedRestartState]. *)
Record world := mkWorld {
  w_cancel : option string;
  w_terminate : option string;
  w_prepare : string + bool * string;
  w_launch : option string;
  w_clean : option string;
  w_now : nat -> Z;
  w_between : nat -> list db_op;
}.

(** A [protocol.Request]; [None] for a body that does not decode strictly. *)
Record lifecycle_request := mkRequest {
  rq_ID : string;
  rq_InstanceID : string;
  rq_SessionID : string;
  rq_OwnershipEpoch : option Z;
  rq_RuntimeGeneration : option Z;
  rq_Body : option SessionLifecycleRequest;
}.

Inductive route_response :=
| RouteError (e : ProtocolError)
| RouteResult (r : SessionLifecycleResult)
| RouteStarted (r : SessionLifecycleResult).

Definition ErrInternal : string := "internal".
Definition invalid_request : ProtocolError :=
  mkProtocolError Code.ErrInvalidArgument "valid lifecycle request and session fences are required" false None None.

(** The effects so far, each with the database the worker last saw. *)
Definition trace : Type := list (db * effect).

Section Coordinator.
Context `{UC : UnicodeCase} `{UF : UnicodeFormat} `{ET : ErrorTexts}.
Variable sha256 : string -> string.

(** ** The worker *)

Section Worker.
Variable w : world.

Definition between (n : nat) (d : db) : db := runs sha256 (w_between w n) d.

Definition swap (id : string) (p : PendingLifecycle) (from to lastError : string) (n : nat) (d : db) : db :=
  fst (CompareAndSwapLifecyclePhase id (p_RequestID p) from to lastError (w_now w n) d).

(** Whether the operation has to wait. *)
Definition must_wait (p : PendingLifecycle) (s : Session) : bool :=
  negb (Lifecycle_Matches p s) || (p_Mode p !=s LifecycleForce) && (s_TaskState s !=s TaskIdle).

Definition driveWaiting (id : string) (p : PendingLifecycle) (d : db) : db * trace :=
  let d1 := between 0 d in
  match GetSession id d1 with
  | Err _ => (d1, [])
  | Ok s =>
      if must_wait p s then (d1, []) else
      let d2 := between 1 d1 in
      match GetSession id d2 with
      | Err _ => (d2, [])
      | Ok s' =>
          if must_wait p s' then (d2, []) else
          (swap id p LifecycleWaiting LifecycleStopping "" 0 (between 2 d2), [])
      end
  end.

Definition driveStopping (id : string) (p : PendingLifecycle) (d : db) : db * trace :=
  let d1 := between 0 d in
  match GetSession id d1 with
  | Err _ => (d1, [])
  | Ok s =>
      if s_Status s ==s StatusStopped
      then (swap id p LifecycleStopping LifecycleRuntimeStopped "" 0 (between 1 d1), [])
      else
      let failed message := match message with
        | Some m => swap id p LifecycleStopping LifecycleStopping m 0 (between 1 d1)
        | None => between 1 d1
        end in
      if (p_Mode p ==s LifecycleForce) && (s_TaskState s !=s TaskIdle)
      then (failed (w_cancel w), [(d1, AgentCancel id (p_RequestID p +:+ "/cancel") (p_SourceEpoch p) (p_SourceGeneration p))])
      else (failed (w_terminate w), [(d1, Terminate id (p_RequestID p) (p_SourceEpoch p) (p_SourceGeneration p))])
  end.

Definition failRestart (p : PendingLifecycle) (failure : string) (n : nat) (d : db) : db :=
  fst (FailLifecycleRestart p failure (w_now w n) d).

Definition driveRestart (id : string) (p : PendingLifecycle) (d : db) : db * trace :=
  let d1 := between 0 d in
  match GetSession id d1 with
  | Err _ => (d1, [])
  | Ok s =>
      let d2 := between 1 d1 in
      match w_prepare w with
      | inr (invalid, message) =>
          if (s_Kind s ==s KindShell) && invalid
          then (failRestart p ("could not prepare replacement runtime: " +:+ message) 0 d2, [])
          else (swap id p LifecycleRuntimeStopped LifecycleRuntimeStopped message 0 d2, [])
      | inl publicKey =>
          match BeginLifecycleRestart p publicKey (w_now w 0) d2 with
          | (d3, Err _) => (d3, [])
          | (d3, Ok _) =>
              (match w_launch w with
               | None => between 2 d3
               | Some e => failRestart p ("could not launch replacement runtime: " +:+ e) 1 (between 2 d3)
               end, [(d3, Launch id)])
          end
      end
  end.

Definition driveRuntimeStopped (id : string) (p : PendingLifecycle) (d : db) : db * trace :=
  if p_Operation p ==s LifecycleEnd then
    let d1 := between 0 d in
    match GetSession id d1 with
    | Err _ => (d1, [])
    | Ok s =>
        let d2 := between 1 d1 in
        if s_Kind s ==s KindShell then (fst (CompleteEndedShell p (w_now w 0) d2), [])
        else (fst (CompleteLifecycle p (w_now w 0) d2), [])
    end
  else if p_Operation p ==s LifecycleRestart then driveRestart id p d
  else (swap id p LifecycleRuntimeStopped LifecycleCleaning "" 0 (between 0 d), []).

Definition driveLaunching (id : string) (p : PendingLifecycle) (d : db) : db * trace :=
  let d1 := between 0 d in
  match GetSession id d1 with
  | Err _ => (d1, [])
  | Ok s =>
      let d2 := between 1 d1 in
      if s_Status s ==s StatusRunning then (fst (CompleteLifecycle p (w_now w 0) d2), [])
      else if (s_Status s ==s StatusStopped) && (s_RuntimeGeneration s =? u64 (p_SourceGeneration p + 1))%Z
      then (failRestart p (if s_ExitReason s ==s "" then "replacement runtime exited before registration"
                           else s_ExitReason s) 0 d2, [])
      else if (s_Status s !=s StatusRecovering) || (w_now w 1 - p_UpdatedAtMS p <? 1000)%Z then (d2, [])
      else (swap id p LifecycleLaunching LifecycleLaunching (default "" (w_launch w)) 0 d2, [(d1, Launch id)])
  end.

Definition driveCleaning (id : string) (p : PendingLifecycle) (d : db) : db * trace :=
  let principal := principalFor (p_Requester p) in
  let d1 := between 0 d in
  let clean (d' : db) : db * trace :=
    (match w_clean w with
     | None => fst (CompleteLifecycle p (w_now w 4) (between 3 d'))
     | Some _ => between 3 d'
     end, [(d', CleanFiles id)]) in
  match DestroyStoppedSession sha256 principal (p_RequestID p) id (p_SourceEpoch p) (p_SourceGeneration p) (w_now w) d1 with
  | (d2, Err e) =>
      let d3 := between 1 d2 in
      match ReplayDestroyedSession principal (p_RequestID p) id d3 with
      | Err _ => (swap id p LifecycleCleaning LifecycleCleaning (store_error_text e) 4 (between 2 d3), [])
      | Ok _ => clean d3
      end
  | (d2, Ok (outcome, _)) =>
      match oc_Error outcome with
      | Some e => (swap id p LifecycleCleaning LifecycleCleaning (pe_Message e) 4 (between 2 d2), [])
      | None => clean d2
      end
  end.

(** One run of the worker of a session. *)
Definition driveLifecycle (id : string) (d : db) : db * trace :=
  match GetPendingLifecycle id d with
  | None => (d, [])
  | Some p =>
      if p_Phase p ==s LifecycleWaiting then driveWaiting id p d
      else if p_Phase p ==s LifecycleStopping then driveStopping id p d
      else if p_Phase p ==s LifecycleRuntimeStopped then driveRuntimeStopped id p d
      else if p_Phase p ==s LifecycleLaunching then driveLaunching id p d
      else if p_Phase p ==s LifecycleCleaning then driveCleaning id p d
      else (d, [])
  end.

(** ** The request handler *)

Definition serviceMapError (e : store_error) : string :=
  match e with
  | ModelError ErrNotOwner => Code.ErrNotOwner
  | ModelError ErrStaleEpoch => Code.ErrStaleEpoch
  | ModelError ErrStaleGeneration => Code.ErrStaleGeneration
  | ModelError ErrTaskActive => Code.ErrTaskActive
  | ModelError ErrLifecyclePending => Code.ErrDraining
  | ModelError ErrPendingYield => Code.ErrPendingYield
  | ModelError ErrAdapterNotHealthy | ModelError ErrSessionNotRunning | ModelError ErrYieldUnsupported =>
      Code.ErrAdapterUnhealthy
  | _ => ErrInternal
  end.

(** The errors of the handler: a code, a message, whether to retry, and a fence. *)
Definition retryable (code message : string) : ProtocolError := mkProtocolError code message true None None.

Definition authorizeLifecycleControl (instance : string) (rq : lifecycle_request) (role principal operation : string) (d : db)
  : result ProtocolError (Session * Owner) :=
  match ParseSessionID (rq_SessionID rq), rq_OwnershipEpoch rq, rq_RuntimeGeneration rq with
  | Ok id, Some epoch, Some generation =>
      if rq_InstanceID rq !=s instance
      then Err (protocol_error Code.ErrInvalidArgument "session identity and fences are required") else
      match GetSession id d with
      | Err _ => Err (protocol_error Code.ErrNotFound "session not found")
      | Ok s =>
          let owner := lifecycleOwner role principal in
          if (s_Kind s ==s KindShell) && (role !=s RoleDucklord)
          then Err (protocol_error Code.ErrNotOwner "Discord CC cannot manage shell sessions")
          else if (s_Kind s !=s KindShell) && negb (writer_is s owner)
          then Err (protocol_error Code.ErrNotOwner "session is owned by another writer")
          else if negb (s_RuntimeGeneration s =? generation)%Z
          then Err (mkProtocolError Code.ErrStaleGeneration "runtime generation changed" false None (Some (s_RuntimeGeneration s)))
          else if negb (s_OwnershipEpoch s =? epoch)%Z
          then Err (mkProtocolError Code.ErrStaleEpoch "ownership epoch changed" false (Some (s_OwnershipEpoch s)) None)
          else if (operation ==s LifecycleRestart) && negb (among (s_Status s) [StatusRunning; StatusStopped])
          then Err (retryable Code.ErrBusy "session cannot restart from its current state")
          else if (operation ==s LifecycleEnd) && (s_Status s !=s StatusRunning)
          then Err (protocol_error Code.ErrBusy "session is not running")
          else Ok (s, owner)
      end
  | _, _, _ => Err (protocol_error Code.ErrInvalidArgument "session identity and fences are required")
  end.

(** The branch of a session that is gone: a destroy whose mutation is on record. *)
Definition replayDestroy (rq : lifecycle_request) (id : string) (owner : Owner) (candidate : PendingLifecycle)
    (body : SessionLifecycleRequest) (refusal : ProtocolError) (d : db) : db * trace * route_response :=
  match ReplayDestroyedSession (principalFor owner) (rq_ID rq) id d with
  | Err _ => (d, [], RouteError refusal)
  | Ok _ =>
      match w_clean w with
      | Some e => (d, [(d, CleanFiles id)], RouteError (retryable ErrInternal e))
      | None =>
          match CompleteLifecycle (set_Phase LifecycleCompleted candidate) (w_now w 0) (between 4 d) with
          | (d', Err e) => (d', [(d, CleanFiles id)], RouteError (retryable ErrInternal (store_error_text e)))
          | (d', Ok _) =>
              (d', [(d, CleanFiles id)],
               RouteResult (mkLifecycleResult id (lr_Operation body) (lr_Mode body) LifecycleCompleted
                 (p_SourceEpoch candidate) (p_SourceGeneration candidate)))
          end
      end
  end.

(** The database, the effects and the answer; [RouteStarted] also starts a worker. *)
Definition routeSessionLifecycle (instance : string) (rq : lifecycle_request) (role principal : string) (d : db)
  : db * trace * route_response :=
  match ParseSessionID (rq_SessionID rq), rq_OwnershipEpoch rq, rq_RuntimeGeneration rq, rq_Body rq with
  | Ok id, Some epoch, Some generation, Some body =>
    if (rq_InstanceID rq !=s instance) || negb (LifecycleRequest_Validate body) then (d, [], RouteError invalid_request) else
    let owner := lifecycleOwner role principal in
    let candidate := lifecycleStoreRequest id (rq_ID rq) owner epoch generation body in
    let d0 := between 0 d in
    match GetLifecycleOutcome owner (rq_ID rq) d0 with
    | Some o =>
        (d0, [],
         if negb (Outcome_Matches o candidate)
         then RouteError (protocol_error Code.ErrIdempotencyConflict "request id belongs to a different lifecycle operation")
         else if lo_Failure o !=s "" then RouteError (protocol_error ErrInternal (lo_Failure o))
         else RouteResult (lifecycleResult (set_Phase LifecycleCompleted candidate)))
    | None =>
      let d1 := between 1 d0 in
      match GetPendingLifecycle id d1 with
      | Some existing =>
          (d1, [],
           if negb (same_request existing candidate)
           then RouteError (protocol_error Code.ErrIdempotencyConflict "a different lifecycle request already owns this session")
           else RouteResult (lifecycleResult existing))
      | None =>
        let d2 := between 2 d1 in
        match authorizeLifecycleControl instance rq role principal (lr_Operation body) d2 with
        | Err e =>
            if (lr_Operation body ==s LifecycleDestroy) && (pe_Code e ==s Code.ErrNotFound)
            then replayDestroy rq id owner candidate body e (between 3 d2)
            else (d2, [], RouteError e)
        | Ok (s, authorizedOwner) =>
            if (s_Kind s ==s KindShell) && (lr_Mode body !=s LifecycleImmediate)
            then (d2, [], RouteError (protocol_error Code.ErrInvalidArgument
                   "shell lifecycle operations are immediate and do not accept wait or force modes"))
            else
            let pending := lifecycleStoreRequest (s_ID s) (rq_ID rq) authorizedOwner (s_OwnershipEpoch s) (s_RuntimeGeneration s) body in
            match ReserveLifecycle pending (w_now w 0) (between 3 d2) with
            | (d3, Err e) =>
                (d3, [], RouteError (mkProtocolError (serviceMapError e) (store_error_text e)
                                       (serviceMapError e ==s ErrInternal) None None))
            | (d3, Ok _) => (d3, [], RouteStarted (lifecycleResult (set_Phase LifecycleWaiting pending)))
            end
        end
      end
    end
  | _, _, _, _ => (d, [], RouteError invalid_request)
  end.

End Worker.

(** ** What the worker asks for, under any interleaving *)

Lemma runs_reachable (os : list db_op) (d : db) : reachable sha256 d -> reachable sha256 (runs sha256 os d).
Proof. intros [os' ->]. exists (os' ++ os). by rewrite runs_app. Qed.

Lemma between_reachable (w : world) (n : nat) (d : db) : reachable sha256 d -> reachable sha256 (between w n d).
Proof. apply runs_reachable. Qed.

(** What has to hold of an effect of a pass that starts on [d], in the database the
    worker saw last. *)
Definition effect_ok (w : world) (id : string) (d : db) (x : db * effect) : Prop :=
  let d' := fst x in
  reachable sha256 d' /\ exists p, d_lifecycles d !! id = Some p /\
  match snd x with
  | AgentCancel i request epoch generation =>
      i = id /\ request = p_RequestID p +:+ "/cancel" /\ p_Phase p = LifecycleStopping /\ p_Mode p = LifecycleForce
        /\ epoch = p_SourceEpoch p /\ generation = p_SourceGeneration p
        /\ exists s, d_sessions d' !! id = Some s /\ s_Status s <> StatusStopped /\ s_TaskState s <> TaskIdle
  | Terminate i request epoch generation =>
      i = id /\ request = p_RequestID p /\ p_Phase p = LifecycleStopping
        /\ epoch = p_SourceEpoch p /\ generation = p_SourceGeneration p
        /\ exists s, d_sessions d' !! id = Some s /\ s_Status s <> StatusStopped
          /\ (p_Mode p = LifecycleForce -> s_TaskState s = TaskIdle)
  | Launch i =>
      i = id /\ (p_Phase p = LifecycleRuntimeStopped /\ p_Operation p = LifecycleRestart \/ p_Phase p = LifecycleLaunching)
        /\ exists s, d_sessions d' !! id = Some s /\ s_Status s = StatusRecovering
  | CleanFiles i =>
      i = id /\ p_Phase p = LifecycleCleaning
        /\ let principal := principalFor (p_Requester p) in
           let d1 := between w 0 d in
           destroy_recorded d' principal (p_RequestID p) id
           /\ (d_mutations d1 !! (principal, p_RequestID p) = None ->
               is_Ok (snd (DestroyStoppedSession sha256 principal (p_RequestID p) id (p_SourceEpoch p) (p_SourceGeneration p)
                             (w_now w) d1)) = true ->
               d_sessions d' !! id = None)
  end.

Lemma get_row (d : db) (id : string) (s : Session) :
  reachable sha256 d -> GetSession id d = Ok s -> d_sessions d !! id = Some s.
Proof.
  intros Hr. rewrite (GetSession_total d id (reachable_good _ _ Hr)). destruct (d_sessions d !! id); [by intros [= ->]|discriminate].
Qed.

Lemma update_session_row (id : string) cond f (d d' : db) :
  update_session id cond f d = Ok (d', 1) ->
  exists s, d_sessions d !! id = Some s /\ d_sessions d' !! id = Some (f s).
Proof.
  unfold update_session. intros H. tx_inv H. destruct (d_sessions d !! id) as [s|] eqn:Hs; [|discriminate].
  destruct (negb (cond s)); [discriminate|]. apply tbind_Ok in H. destruct H as (? & ? & Hg & H). apply guard_Ok in Hg. destruct Hg as [_ ->].
  apply tbind_Ok in H. destruct H as (? & ? & Hg & H). apply guard_Ok in Hg. destruct Hg as [_ ->].
  injection H as <-. exists s. split; [done|]. destruct (visible_change s (f s)); simpl; by rewrite lookup_insert_eq.
Qed.

Lemma update_lifecycle_sessions id cond phase now e (d d' : db) (n : nat) :
  update_lifecycle id cond phase now e d = Ok (d', n) -> d_sessions d' = d_sessions d.
Proof.
  unfold update_lifecycle, tbind, read, write, ret. destruct (d_lifecycles d !! id) as [q|]; [destruct (cond q)|]; by intros [= <- _].
Qed.

Lemma destroy_body_gone principal message (id : string) (epoch generation now : Z) (d d' : db) (v : doc) (o : Outcome) :
  (s <-t GetSessionTx id;
   match owner_refusal principal message s with
   | Some o => reply o
   | None =>
     if s_Status s !=s StatusStopped then reply (rejection Code.ErrBusy "session must be stopped before destroy" s)
     else if negb (s_OwnershipEpoch s =? epoch)%Z then reply (rejection Code.ErrStaleEpoch "ownership epoch changed" s)
     else if negb (s_RuntimeGeneration s =? generation)%Z
     then reply (rejection Code.ErrStaleGeneration "runtime generation changed" s)
     else
       _ <-t audit principal "destroy_session" "ok" s now;
       _ <-t DeleteStoppedSessionTx id epoch generation;
       reply (mkOutcome "" id "" epoch "" None None)
   end) d = Ok (d', v) ->
  read_outcome v = Some o -> oc_Error o = None -> d_sessions d' !! id = None.
Proof.
  intros H Hv He. apply tbind_Ok in H. destruct H as (d1 & s & _ & H).
  assert (Href : forall code m d1, reply (rejection code m s) d1 = Ok (d', v) -> False).
  { intros code m d2 [= _ <-]. rewrite read_outcome_doc in Hv. injection Hv as <-. discriminate. }
  destruct (owner_refusal principal message s) as [r|] eqn:Hr.
  - unfold owner_refusal in Hr. repeat case_match; try discriminate; injection Hr as <-; by apply Href in H.
  - do 3 (match type of H with (if ?b then _ else _) _ = _ => destruct b; [by apply Href in H|] end).
    apply tbind_Ok in H. destruct H as (d2 & ? & _ & H). apply tbind_Ok in H. destruct H as (d3 & ? & Hd & H).
    injection H as <- _. unfold DeleteStoppedSessionTx in Hd.
    do 2 (apply tbind_Ok in Hd; destruct Hd as (? & ? & Hg & Hd); apply guard_Ok in Hg; destruct Hg as [_ ->]).
    apply tbind_Ok in Hd. destruct Hd as (d4 & n & Hx & Hd). apply guard_Ok in Hd. destruct Hd as [Hn ->].
    unfold delete_session, tbind, read, write, ret in Hx. destruct (d_sessions d2 !! id) as [q|]; [destruct (_ && _)|];
      injection Hx as <- <-; try discriminate.
    unfold drop_session, drop_binding, drop_children. simpl. destruct (d_bindings d2 !! id); simpl; by rewrite lookup_delete_eq.
Qed.

Lemma BeginLifecycleRestart_row (p : PendingLifecycle) (key : string) (now : Z) (d d' : db) (s : Session) :
  reachable sha256 d -> BeginLifecycleRestart p key now d = (d', Ok s) ->
  d_sessions d' !! p_SessionID p = Some s /\ s_Status s = StatusRecovering.
Proof.
  intros Hr H. assert (Hr' : reachable sha256 d').
  { replace d' with (run sha256 (OpBeginRestart p key now) d) by (simpl; by rewrite H). by apply reachable_run. }
  unfold BeginLifecycleRestart, atomically in H. cbv zeta in H.
  match type of H with context [match ?m d with _ => _ end] => destruct (m d) as [[d1 u]|] eqn:Hm; [|discriminate] end.
  injection H as -> Hget. apply get_row in Hget; [|done]. split; [done|].
  apply tbind_Ok in Hm. destruct Hm as (d1 & ? & Hg & Hm). apply guard_Ok in Hg. destruct Hg as [_ ->].
  apply tbind_Ok in Hm. destruct Hm as (d1 & s0 & Hs0 & Hm). unfold GetSessionTx in Hs0.
  destruct (GetSession (p_SessionID p) d) as [s1|] eqn:Hs1; [|discriminate]. injection Hs0 as <- <-.
  apply get_row in Hs1; [|done]. pose proof (good_some _ _ _ (reachable_good _ _ Hr (p_SessionID p)) Hs1) as Hrow.
  apply tbind_Ok in Hm. destruct Hm as (d1 & c & Hc & Hm). injection Hc as <- <-.
  destruct (d_lifecycles d !! p_SessionID p) as [c|]; [|discriminate].
  do 3 (apply tbind_Ok in Hm; destruct Hm as (? & ? & Hc & Hm); apply guard_Ok in Hc; destruct Hc as [_ ->]).
  apply tbind_Ok in Hm. destruct Hm as (d1 & n & Hu & Hm).
  apply tbind_Ok in Hm. destruct Hm as (? & ? & Hc & Hm). apply guard_Ok in Hc. destruct Hc as [Hn%Nat.eqb_eq ->]. subst n.
  apply tbind_Ok in Hm. destruct Hm as (d2 & m & Hl & Hm). apply guard_Ok in Hm. destruct Hm as [_ ->].
  apply update_session_row in Hu. destruct Hu as (s2 & _ & Hs2). apply update_lifecycle_sessions in Hl.
  rewrite Hl, (ro_id _ _ Hrow) in *. rewrite Hs2 in Hget. injection Hget as <-. reflexivity.
Qed.

(** Destroying: a fresh success leaves no session, and a replay has a record. *)
Lemma Destroy_gone (principal request id : string) (epoch generation : Z) clk (d d' : db) (o : Outcome) (b : bool) :
  DestroyStoppedSession sha256 principal request id epoch generation clk d = (d', Ok (o, b)) -> oc_Error o = None ->
  d_sessions d' !! id = None \/ d_mutations d !! (principal, request) <> None.
Proof.
  intros H He. destruct (d_mutations d !! (principal, request)) as [r|] eqn:Hm; [by right|left].
  unfold DestroyStoppedSession, run_outcome, run_and_read in H. cbv zeta in H.
  destruct (RunMutation _ _ _ d) as [d1 [[v b1]|x]] eqn:Hrun; [|discriminate].
  destruct (read_outcome v) as [o1|] eqn:Hv; [|discriminate]. injection H as -> -> ->.
  unfold RunMutation, atomically in Hrun.
  match type of Hrun with match ?m d with _ => _ end = _ => destruct (m d) as [[d1 r]|] eqn:Hr; [|discriminate] end.
  injection Hrun as -> ->.
  do 2 (apply tbind_Ok in Hr; destruct Hr as (? & ? & Hg & Hr); apply guard_Ok in Hg; destruct Hg as [_ ->]).
  apply tbind_Ok in Hr. destruct Hr as (? & ? & Hg & Hr). injection Hg as <- <-.
  unfold mutation_key in Hr. simpl in Hr. rewrite Hm in Hr.
  apply tbind_Ok in Hr. destruct Hr as (d1 & ? & Hg & Hr). injection Hg as <- _.
  apply tbind_Ok in Hr. destruct Hr as (d2 & v2 & Hfn & Hr).
  apply tbind_Ok in Hr. destruct Hr as (? & ? & Hg & Hr). injection Hg as <- _. injection Hr as <- <- _. simpl.
  eapply destroy_body_gone; [exact Hfn|exact Hv|exact He].
Qed.

(** Every step of the worker is an operation of the store. *)
Lemma reach_op (o : db_op) (d d' : db) : run sha256 o d = d' -> reachable sha256 d -> reachable sha256 d'.
Proof. intros <-. apply reachable_run. Qed.

Lemma reach_swap w id p from to e n d : reachable sha256 d -> reachable sha256 (swap w id p from to e n d).
Proof. by apply (reach_op (OpPhase id (p_RequestID p) from to e (w_now w n))). Qed.
Lemma reach_fail w p f n d : reachable sha256 d -> reachable sha256 (failRestart w p f n d).
Proof. by apply (reach_op (OpFailRestart p f (w_now w n))). Qed.
Lemma reach_complete p now d : reachable sha256 d -> reachable sha256 (fst (CompleteLifecycle p now d)).
Proof. by apply (reach_op (OpCompleteLifecycle p now)). Qed.
Lemma reach_shell p now d : reachable sha256 d -> reachable sha256 (fst (CompleteEndedShell p now d)).
Proof. by apply (reach_op (OpCompleteEndedShell p now)). Qed.
Lemma reach_begin p key now d d' r : BeginLifecycleRestart p key now d = (d', r) -> reachable sha256 d -> reachable sha256 d'.
Proof. intros H. apply (reach_op (OpBeginRestart p key now)). simpl. by rewrite H. Qed.
Lemma reach_destroy q i id e g clk d d' r :
  DestroyStoppedSession sha256 q i id e g clk d = (d', r) -> reachable sha256 d -> reachable sha256 d'.
Proof. intros H. apply (reach_op (OpDestroyStopped q i id e g clk)). simpl. by rewrite H. Qed.
Hint Resolve reach_swap reach_fail reach_complete reach_shell reach_begin reach_destroy between_reachable : core.

Lemma drive_reachable (w : world) (id : string) (d : db) :
  reachable sha256 d -> reachable sha256 (fst (driveLifecycle w id d)).
Proof.
  intros Hr. unfold driveLifecycle, driveWaiting, driveStopping, driveRuntimeStopped, driveRestart, driveLaunching, driveCleaning.
  cbv zeta. repeat (case_match; simpl; eauto 6).
Qed.

Lemma get_row_between w n d id s :
  reachable sha256 d -> GetSession id (between w n d) = Ok s -> d_sessions (between w n d) !! id = Some s.
Proof. intros Hr. apply get_row. auto. Qed.

Lemma pending_id (d : db) (id : string) (p : PendingLifecycle) :
  reachable sha256 d -> d_lifecycles d !! id = Some p -> p_SessionID p = id.
Proof.
  intros Hr Hp. pose proof (reachable_good _ _ Hr id) as Hg. unfold good, view_of in Hg. simpl in Hg.
  destruct (d_sessions d !! id) as [s|]; [|by destruct Hg; congruence]. destruct Hg as (_ & _ & Hl). by destruct (Hl p Hp).
Qed.

(** One lemma for each phase that asks something of the world. *)
Lemma stopping_effects_ok (w : world) (id : string) (p : PendingLifecycle) (d : db) :
  reachable sha256 d -> d_lifecycles d !! id = Some p -> p_Phase p = LifecycleStopping ->
  Forall (effect_ok w id d) (snd (driveStopping w id p d)).
Proof.
  intros Hr Hp H2. unfold driveStopping. cbv zeta. destruct (GetSession id (between w 0 d)) as [s|] eqn:Hs; [|constructor].
  apply get_row_between in Hs; [|done]. destruct (String.eqb_spec (s_Status s) StatusStopped) as [|Hst]; [constructor|].
  destruct (String.eqb_spec (p_Mode p) LifecycleForce) as [Hm|Hm];
    [destruct (String.eqb_spec (s_TaskState s) TaskIdle) as [Ht|Ht]|]; simpl; (constructor; [|constructor]);
    (split; [simpl; auto|]); exists p; simpl; split_and!; try done; exists s; split_and!; done.
Qed.

Lemma restart_effects_ok (w : world) (id : string) (p : PendingLifecycle) (d : db) :
  reachable sha256 d -> d_lifecycles d !! id = Some p -> p_Phase p = LifecycleRuntimeStopped ->
  Forall (effect_ok w id d) (snd (driveRuntimeStopped w id p d)).
Proof.
  intros Hr Hp H3. pose proof (pending_id _ _ _ Hr Hp) as Hid. unfold driveRuntimeStopped. cbv zeta.
  destruct (p_Operation p ==s LifecycleEnd); [repeat (case_match; simpl; try constructor)|].
  destruct (String.eqb_spec (p_Operation p) LifecycleRestart) as [Ho|]; [|constructor]. unfold driveRestart. cbv zeta.
  destruct (GetSession id (between w 0 d)) as [s|]; [|constructor]. destruct (w_prepare w) as [key|[inv m]]; [|by case_match].
  destruct (BeginLifecycleRestart p key (w_now w 0) (between w 1 (between w 0 d))) as [d3 [s3|]] eqn:Hb; [|constructor].
  constructor; [|constructor]. pose proof (reach_begin _ _ _ _ _ _ Hb) as Hr3.
  apply BeginLifecycleRestart_row in Hb; [|auto]. rewrite Hid in Hb. split; [simpl; auto|]. exists p. simpl. eauto 8.
Qed.

Lemma launching_effects_ok (w : world) (id : string) (p : PendingLifecycle) (d : db) :
  reachable sha256 d -> d_lifecycles d !! id = Some p -> p_Phase p = LifecycleLaunching ->
  Forall (effect_ok w id d) (snd (driveLaunching w id p d)).
Proof.
  intros Hr Hp H4. unfold driveLaunching. cbv zeta. destruct (GetSession id (between w 0 d)) as [s|] eqn:Hs; [|constructor].
  apply get_row_between in Hs; [|done]. destruct (s_Status s ==s StatusRunning); [constructor|].
  destruct (_ && _); [constructor|]. destruct (s_Status s !=s StatusRecovering) eqn:Hst; [constructor|]. simpl.
  case_match; [constructor|]. constructor; [|constructor]. apply negb_false_iff, String.eqb_eq in Hst.
  split; [simpl; auto|]. exists p. simpl. eauto 8.
Qed.

Lemma cleaning_effects_ok (w : world) (id : string) (p : PendingLifecycle) (d : db) :
  reachable sha256 d -> d_lifecycles d !! id = Some p -> p_Phase p = LifecycleCleaning ->
  Forall (effect_ok w id d) (snd (driveCleaning w id p d)).
Proof.
  intros Hr Hp H5. unfold driveCleaning. cbv zeta.
  destruct (DestroyStoppedSession sha256 _ _ _ _ _ _ (between w 0 d)) as [d2 [[o b]|e]] eqn:Hd;
    pose proof (reach_destroy _ _ _ _ _ _ _ _ _ Hd) as Hr2.
  - destruct (oc_Error o) eqn:He; [constructor|]. constructor; [|constructor]. split; [simpl; auto|]. exists p. simpl.
    split_and!; try done; [by eapply Destroy_recorded|]. intros Hn _. by destruct (Destroy_gone _ _ _ _ _ _ _ _ _ _ Hd He).
  - destruct (ReplayDestroyedSession _ _ _ _) eqn:Hrep; [|constructor]. constructor; [|constructor].
    split; [simpl; auto|]. exists p. simpl. split_and!; try done; [|by rewrite Hd]. apply Replay_recorded. by rewrite Hrep.
Qed.

Lemma drive_effects_ok (w : world) (id : string) (d : db) :
  reachable sha256 d -> Forall (effect_ok w id d) (snd (driveLifecycle w id d)).
Proof.
  intros Hr. unfold driveLifecycle, GetPendingLifecycle. destruct (d_lifecycles d !! id) as [p|] eqn:Hp; [|constructor].
  destruct (String.eqb_spec (p_Phase p) LifecycleWaiting) as [H|_].
  { unfold driveWaiting. cbv zeta. repeat (case_match; simpl; try constructor). }
  destruct (String.eqb_spec (p_Phase p) LifecycleStopping); [by apply stopping_effects_ok|].
  destruct (String.eqb_spec (p_Phase p) LifecycleRuntimeStopped); [by apply restart_effects_ok|].
  destruct (String.eqb_spec (p_Phase p) LifecycleLaunching); [by apply launching_effects_ok|].
  destruct (String.eqb_spec (p_Phase p) LifecycleCleaning); [by apply cleaning_effects_ok|constructor].
Qed.

(** C10. Whatever other goroutines do to the store between its steps, the lifecycle
    worker stops a runtime only for an operation in phase [stopping], under the request
    id and with the fences of that operation and while the session is not stopped, and
    cancels a task only for a forced one; launches a runtime only for a session that is
    recovering, for a restart whose old runtime has stopped or an operation in phase
    [launching]; and removes the files of a session only when its destruction by that
    operation is on record as completed successfully.  When that destruction was
    carried out in this very pass, the session is gone.  The database stays
    reachable. *)
Theorem drive_effects_safe (w : world) (id : string) (d : db) :
  reachable sha256 d ->
  reachable sha256 (fst (driveLifecycle w id d)) /\ Forall (effect_ok w id d) (snd (driveLifecycle w id d)).
Proof. auto using drive_reachable, drive_effects_ok. Qed.

(** ** Answers to requests *)

(** A request that passes the first check of the handler, and what it asks for. *)
Record well_formed (instance role principal : string) (rq : lifecycle_request) (id : string) (body : SessionLifecycleRequest)
    (candidate : PendingLifecycle) : Prop := mkWellFormed {
  wf_id : ParseSessionID (rq_SessionID rq) = Ok id;
  wf_instance : rq_InstanceID rq = instance;
  wf_body : rq_Body rq = Some body;
  wf_valid : LifecycleRequest_Validate body = true;
  wf_candidate : exists epoch generation, rq_OwnershipEpoch rq = Some epoch /\ rq_RuntimeGeneration rq = Some generation
    /\ candidate = lifecycleStoreRequest id (rq_ID rq) (lifecycleOwner role principal) epoch generation body;
}.

(** Once a lifecycle request has its receipt, its answer is fixed: after any
    operations, and under any interleaving, sending it again changes nothing, asks
    nothing of the world and gets the completed result, or the failure on record; a
    different request under the same id is refused as an idempotency conflict. *)
Theorem lifecycle_answer_fixed (instance role principal : string) (rq : lifecycle_request) (id : string)
    (body : SessionLifecycleRequest) (candidate : PendingLifecycle) (d : db) (o : LifecycleOutcome) :
  well_formed instance role principal rq id body candidate ->
  GetLifecycleOutcome (lifecycleOwner role principal) (rq_ID rq) d = Some o ->
  forall os w, let d2 := runs sha256 os d in
    routeSessionLifecycle w instance rq role principal d2 =
    (between w 0 d2, [],
     if negb (Outcome_Matches o candidate)
     then RouteError (protocol_error Code.ErrIdempotencyConflict "request id belongs to a different lifecycle operation")
     else if lo_Failure o !=s "" then RouteError (protocol_error ErrInternal (lo_Failure o))
     else RouteResult (lifecycleResult (set_Phase LifecycleCompleted candidate))).
Proof.
  intros [Hid Hin Hb Hv (epoch & generation & He & Hg & Hc)] Ho os w d2.
  assert (Ho' : GetLifecycleOutcome (lifecycleOwner role principal) (rq_ID rq) (between w 0 d2) = Some o).
  { destruct (runs_past sha256 (os ++ w_between w 0) d) as [_ HO _]. rewrite runs_app in HO. by eapply lookup_weaken. }
  unfold routeSessionLifecycle. rewrite Hid, He, Hg, Hb, Hin, String.eqb_refl, Hv. simpl orb. cbv iota zeta.
  by rewrite Ho', Hc.
Qed.

End Coordinator.

(** ** On a concrete execution *)

Module LifecycleWitness.
Import Sample.

(** A world in which the supervisor obeys and, after the first read, another
    goroutine renames the session. *)
Definition busy_world : world :=
  mkWorld None None (inl key32) None None clk
    (fun n => match n with 0 => [OpRenameSession "terminal:alice" "r9" sid "other" 1 1 clk] | _ => [] end).

Definition d_stopping : db := run digest (OpPhase sid "end1" LifecycleWaiting LifecycleStopping "" 3001) d_ending.

Lemma drive_effects_safe_witness :
  map snd (snd (driveLifecycle digest busy_world sid d_stopping)) = [Terminate sid "end1" 1 1]
  /\ Forall (effect_ok digest busy_world sid d_stopping) (snd (driveLifecycle digest busy_world sid d_stopping)).
Proof.
  split; [vm_compute; reflexivity|].
  apply (drive_effects_safe digest busy_world sid d_stopping). apply reachable_run, ending_reachable.
Defined.

Definition end_body : SessionLifecycleRequest := mkLifecycleRequest LifecycleEnd LifecycleForce.
Definition end_rq : lifecycle_request := mkRequest "end1" "inst" sid (Some 1%Z) (Some 1%Z) (Some end_body).
Definition d_ended : db := fst (CompleteLifecycle end_request 3100 d_ending).

Lemma lifecycle_answer_fixed_witness :
  snd (routeSessionLifecycle digest busy_world "inst" end_rq RoleDucklord "alice" (runs digest [create] d_ended))
  = RouteResult (mkLifecycleResult sid LifecycleEnd LifecycleForce LifecycleCompleted 1 1).
Proof.
  rewrite (lifecycle_answer_fixed digest "inst" RoleDucklord "alice" end_rq sid end_body
    (lifecycleStoreRequest sid "end1" alice 1 1 end_body) d_ended
    (mkOutcomeRow sid LifecycleEnd LifecycleForce alice 1 1 "end1" 3100 "")).
  - vm_compute. reflexivity.
  - split; try (vm_compute; reflexivity). exists 1%Z, 1%Z. split_and!; reflexivity.
  - vm_compute. reflexivity.
Defined.

End LifecycleWitness.
