(* ===== verification/LifecycleProgress.v ===== *)
(** * Lifecycle operations complete

    The store operations on the success path, as equations on the tables they touch,
    and from them: a reserved end, destroy or restart is carried through by the
    coordinator, with the runtime stopped, launched and cleaned up in between. *)

From S2P Require Import Prelude GoStrings GoMarshal Session SessionDB TxLogic SessionStore TaskStore SessionService SessionRun SessionSpec SessionRefine SessionSteps SessionSafety History Lifecycle.
Local Open Scope go_scope.
Local Arguments str_take : simpl never.
Local Arguments among : simpl never.

(** The tables a step on a session and its lifecycle leaves alone. *)
Record same_records (d d' : db) : Prop := mkSameRecords {
  sr_outcomes : d_outcomes d' = d_outcomes d;
  sr_retained : d_retained d' = d_retained d;
  sr_mutations : d_mutations d' = d_mutations d;
}.

#[export] Instance same_records_preorder : PreOrder same_records.
Proof. split; [done|]. intros d1 d2 d3 [] []. split; congruence. Qed.

(** ** Running a transaction forwards *)

Lemma run_bind {A B : Type} (m : tx A) (k : A -> tx B) (d d1 : db) (a : A) r :
  m d = Ok (d1, a) -> k a d1 = r -> tbind m k d = r.
Proof. unfold tbind. by intros ->. Qed.

Lemma run_guard (b : bool) (e : store_error) (d : db) : b = true -> guard b e d = Ok (d, tt).
Proof. by intros ->. Qed.

Lemma run_arg (z : Z) (d : db) : (z < 2 ^ 63)%Z -> arg_u64 z d = Ok (d, tt).
Proof. intros H. apply run_guard. by apply Z.ltb_lt. Qed.

Lemma run_atomically {A : Type} (m : tx A) (d d' : db) (a : A) : m d = Ok (d', a) -> atomically m d = (d', Ok a).
Proof. unfold atomically. by intros ->. Qed.

Lemma run_attempt {A : Type} (m : tx A) (d d' : db) (a : A) : m d = Ok (d', a) -> attempt m d = Ok (d', Ok a).
Proof. unfold attempt. by intros ->. Qed.

(** One statement: reads, writes and returns compute; the rest is left to the caller. *)
Ltac tx_run :=
  cbv beta iota;
  lazymatch goal with
  | |- tbind _ _ _ = _ =>
      eapply run_bind;
      [ lazymatch goal with
        | |- read _ _ = _ => reflexivity
        | |- write _ _ = _ => reflexivity
        | |- ret _ _ = _ => reflexivity
        | |- GetPendingYieldTx _ _ = _ => reflexivity
        | |- GetPendingLifecycleTx _ _ = _ => reflexivity
        | |- session_exists _ _ = _ => reflexivity
        | |- one_row _ _ _ = _ => apply run_guard
        | |- guard _ _ _ = _ => apply run_guard
        | |- arg_u64 _ _ = _ => apply run_arg
        | |- _ => idtac
        end
      | cbv beta iota ]
  end.

(** ** Statements that succeed *)

Lemma update_session_ok (d : db) (id : string) (s : Session) (cond : Session -> bool) (f : Session -> Session) :
  d_sessions d !! id = Some s -> cond s = true -> session_check (f s) = true -> (s_RuntimeGeneration (f s) < 2 ^ 63)%Z ->
  exists d', update_session id cond f d = Ok (d', 1) /\ d_sessions d' !! id = Some (f s)
    /\ d_lifecycles d' = d_lifecycles d /\ d_yields d' = d_yields d /\ same_records d d'.
Proof.
  intros Hs Hc Hk Hg. unfold update_session, tbind, read, write, ret, guard. rewrite Hs, Hc, Hk. simpl negb.
  rewrite (proj2 (Z.ltb_lt _ _) Hg). eexists. split; [reflexivity|].
  destruct (visible_change s (f s)); simpl; rewrite lookup_insert_eq; done.
Qed.

Lemma update_lifecycle_ok (d : db) (id : string) (p : PendingLifecycle) cond phase now e :
  d_lifecycles d !! id = Some p -> cond p = true ->
  update_lifecycle id cond phase now e d
  = Ok (with_lifecycles (<[id := set_phase phase now e p]> (d_lifecycles d)) d, 1).
Proof. intros Hp Hc. unfold update_lifecycle, tbind, read, write, ret. by rewrite Hp, Hc. Qed.

Lemma delete_lifecycle_ok (d : db) (id : string) (p : PendingLifecycle) cond :
  d_lifecycles d !! id = Some p -> cond p = true ->
  delete_lifecycle id cond d = Ok (with_lifecycles (delete id (d_lifecycles d)) d, 1).
Proof. intros Hp Hc. unfold delete_lifecycle, tbind, read, write, ret. by rewrite Hp, Hc. Qed.

Lemma delete_session_ok (d : db) (id : string) (s : Session) cond :
  d_sessions d !! id = Some s -> cond s = true ->
  exists d', delete_session id cond d = Ok (d', 1) /\ d_sessions d' !! id = None /\ d_lifecycles d' !! id = None
    /\ same_records d d'.
Proof.
  intros Hs Hc. unfold delete_session, tbind, read, write, ret. rewrite Hs, Hc. eexists. split; [reflexivity|].
  unfold drop_session, drop_binding, drop_children. simpl.
  destruct (d_bindings d !! id); simpl; rewrite !lookup_delete_eq; done.
Qed.

Section Progress.
Context `{UC : UnicodeCase} `{UF : UnicodeFormat} `{ET : ErrorTexts}.

(** The CHECK clauses of a row whose identity and owner do not change. *)
Lemma check_next (id : string) (s s' : Session) :
  row_ok id s -> s_ID s' = s_ID s -> s_Kind s' = s_Kind s -> s_AgentType s' = s_AgentType s -> s_Writer s' = s_Writer s ->
  s_OwnershipEpoch s' = s_OwnershipEpoch s -> (0 <= s_RuntimeGeneration s')%Z ->
  among (s_Status s') [StatusProvisioning; StatusRunning; StatusStopped; StatusRecovering; StatusDestroying] = true ->
  among (s_TaskState s') [TaskIdle; TaskRunning; TaskReplying] = true ->
  among (s_AdapterState s') [AdapterUnavailable; AdapterHealthy; AdapterUnhealthy; AdapterRecovering] = true ->
  session_check s' = true.
Proof.
  intros [_ _ Hc _ _] Hi Hk Ha Hw He Hg H1 H2 H3. unfold session_check in *. rewrite Hi, Hk, Ha, Hw, He, H1, H2, H3.
  apply Z.leb_le in Hg. rewrite Hg. repeat (apply andb_true_iff in Hc; destruct Hc as [Hc ?]).
  repeat match goal with H : _ = true |- _ => rewrite H; clear H end. done.
Qed.

Lemma row_id_length (id : string) (s : Session) : row_ok id s -> (sql_length id =? 6)%nat = true.
Proof. intros [<- _ Hc _ _]. unfold session_check in Hc. bool_to_prop. by apply Nat.eqb_eq. Qed.

Lemma row_generation_nonneg (id : string) (s : Session) : row_ok id s -> (0 <= s_RuntimeGeneration s)%Z.
Proof. intros [_ _ Hc _ _]. unfold session_check in Hc. bool_to_prop. lia. Qed.

(** A session with a pending lifecycle operation, in a database where all is well. *)
Record pending_at (d : db) (id : string) (s : Session) (p : PendingLifecycle) : Prop := mkPendingAt {
  pt_good : good_db d;
  pt_session : d_sessions d !! id = Some s;
  pt_lifecycle : d_lifecycles d !! id = Some p;
}.

Lemma pending_row d id s p : pending_at d id s p -> row_ok id s.
Proof. intros [Hg Hs _]. exact (good_some _ _ _ (Hg id) Hs). Qed.

Lemma pending_fences d id s p : pending_at d id s p -> good_lifecycle id s p /\ d_yields d !! id = None.
Proof.
  intros [Hg Hs Hp]. specialize (Hg id). unfold good, view_of in Hg. simpl in Hg. rewrite Hs in Hg.
  destruct Hg as (_ & Hy & Hl). split; [by apply Hl|]. destruct (d_yields d !! id) as [y|]; [|done].
  destruct (Hy y eq_refl). congruence.
Qed.

Lemma pending_get d id s p : pending_at d id s p -> GetSession id d = Ok s.
Proof. intros [Hg Hs _]. by rewrite (GetSession_total d id Hg), Hs. Qed.

(** ** Operations that succeed *)

Lemma CompareAndSwap_ok (d : db) (id : string) (p : PendingLifecycle) (from to e : string) (now : Z) :
  d_lifecycles d !! id = Some p -> p_RequestID p <> "" -> p_Phase p = from ->
  validLifecyclePhase from = true -> validLifecyclePhase to = true -> slen e <= 1024 ->
  fst (CompareAndSwapLifecyclePhase id (p_RequestID p) from to e now d)
  = with_lifecycles (<[id := set_phase to now e p]> (d_lifecycles d)) d.
Proof.
  intros Hp Hr Hph Hf Ht He. unfold CompareAndSwapLifecyclePhase, atomically, tbind, guard, GetPendingLifecycleTx, read, ret.
  apply String.eqb_neq in Hr. rewrite Hr, Hf, Ht, (proj2 (Nat.leb_le _ _) He). simpl.
  rewrite (update_lifecycle_ok d id p) by (done || by rewrite String.eqb_refl, Hph, String.eqb_refl).
  simpl. by rewrite lookup_insert_eq.
Qed.

Lemma pending_swap (sha256 : string -> string) d id s p from to e now :
  pending_at d id s p -> p_RequestID p <> "" -> p_Phase p = from ->
  validLifecyclePhase from = true -> validLifecyclePhase to = true -> slen e <= 1024 ->
  let d' := fst (CompareAndSwapLifecyclePhase id (p_RequestID p) from to e now d) in
  pending_at d' id s (set_phase to now e p) /\ same_records d d'.
Proof.
  intros [Hg Hs Hp] Hr Hph Hf Ht He d'.
  assert (good_db d') by exact (run_good sha256 (OpPhase id (p_RequestID p) from to e now) d Hg).
  unfold d' in *. rewrite (CompareAndSwap_ok d id p) in * by done. simpl. split; [|done].
  split; [done|done|]. simpl. by rewrite lookup_insert_eq.
Qed.

Definition stopped_row (success : bool) (reason : string) (now : Z) (s : Session) : Session :=
  set_UpdatedAt now (set_Exit (Some success) (str_take 1024 reason) (set_AdapterState (adapter_for AdapterUnhealthy s)
    (set_TaskState TaskIdle (set_Owner (s_Writer s) (s_OwnershipEpoch s) (set_Status StatusStopped s))))).

Lemma adapter_for_valid (a : string) (s : Session) :
  among a [AdapterUnavailable; AdapterHealthy; AdapterUnhealthy; AdapterRecovering] = true ->
  among (adapter_for a s) [AdapterUnavailable; AdapterHealthy; AdapterUnhealthy; AdapterRecovering] = true.
Proof. unfold adapter_for. by destruct (s_Kind s ==s KindAgent). Qed.

Lemma MarkRuntimeExited_ok (sha256 : string -> string) d id s p success reason now :
  pending_at d id s p -> among (s_Status s) [StatusRunning; StatusRecovering] = true ->
  p_SourceGeneration p = s_RuntimeGeneration s -> among (p_Phase p) [LifecycleWaiting; LifecycleStopping] = true ->
  exists d', MarkRuntimeExited id (s_RuntimeGeneration s) success reason now d = (d', Ok tt)
  /\ pending_at d' id (stopped_row success reason now s) (set_phase LifecycleRuntimeStopped now "" p)
  /\ same_records d d'.
Proof.
  intros Hat Hst Hgen Hph. pose proof (pending_row _ _ _ _ Hat) as Hrow. pose proof (pending_get _ _ _ _ Hat) as Hget.
  destruct (pending_fences _ _ _ _ Hat) as [_ Hy]. destruct Hat as [Hg Hs Hp].
  pose proof (run_good sha256 (OpExited id (s_RuntimeGeneration s) success reason now) d Hg) as Hgood. simpl in Hgood.
  destruct (update_session_ok d id s
    (fun r0 => fenced (s_OwnershipEpoch s) (s_RuntimeGeneration s) r0 && among (s_Status r0) [StatusRunning; StatusRecovering])
    (fun r0 => set_UpdatedAt now (set_Exit (Some success) (str_take 1024 reason) (set_AdapterState (adapter_for AdapterUnhealthy s)
       (set_TaskState TaskIdle (set_Owner (s_Writer s) (s_OwnershipEpoch s) (set_Status StatusStopped r0)))))) Hs)
    as (d1 & Hu & Hs1 & Hl1 & Hy1 & Hr1).
  - unfold fenced. by rewrite Hst, !Z.eqb_refl.
  - apply (check_next id s); try done; [|by apply adapter_for_valid].
    exact (row_generation_nonneg id s Hrow).
  - simpl. apply Hrow.
  - set (d2 := fail_tasks id (s_RuntimeGeneration s) now d1).
    assert (Hp2 : d_lifecycles d2 !! id = Some p) by (simpl; by rewrite Hl1).
    assert (Hr : MarkRuntimeExited id (s_RuntimeGeneration s) success reason now d
               = (with_lifecycles (<[id := set_phase LifecycleRuntimeStopped now "" p]> (d_lifecycles d2)) d2, Ok tt)).
    { unfold MarkRuntimeExited. apply run_atomically. cbv zeta.
      tx_run. { apply run_attempt. unfold GetSessionTx. by rewrite Hget. }
      tx_run; [by rewrite Z.eqb_refl, Hst|]. tx_run. rewrite Hy. simpl apply_yield. tx_run; [done|].
      tx_run; [apply Hrow|]. tx_run; [apply Hrow|]. tx_run; [exact Hu|]. tx_run; [done|]. tx_run. tx_run; [done|].
      tx_run. fold d2. rewrite Hp2. tx_run.
      { apply (update_lifecycle_ok _ id p); [exact Hp2|]. by rewrite String.eqb_refl, Hgen, Z.eqb_refl, Hph. }
      by apply run_guard. }
    rewrite Hr in *. eexists. split; [done|]. split.
    + split; [done| |]; simpl; [done|]. by rewrite lookup_insert_eq.
    + destruct Hr1. split; done.
Qed.

(** The receipt of a completed operation. *)
Definition receipt (p : PendingLifecycle) (now : Z) (failure : string) : LifecycleOutcome :=
  mkOutcomeRow (p_SessionID p) (p_Operation p) (p_Mode p) (p_Requester p) (p_SourceEpoch p)
    (p_SourceGeneration p) (p_RequestID p) now failure.

Lemma CompleteLifecycle_ok (d : db) (p : PendingLifecycle) (now : Z) :
  lifecycle_ok p -> GetLifecycleOutcome (p_Requester p) (p_RequestID p) d = None ->
  (forall q, d_lifecycles d !! p_SessionID p = Some q -> p_RequestID q = p_RequestID p) ->
  exists d', CompleteLifecycle p now d = (d', Ok tt) /\ d_sessions d' = d_sessions d
    /\ d_lifecycles d' !! p_SessionID p = None
    /\ GetLifecycleOutcome (p_Requester p) (p_RequestID p) d' = Some (receipt p now "").
Proof.
  intros Hp Ho Hq.
  set (d1 := with_outcomes (<[outcome_key (p_Requester p) (p_RequestID p) := receipt p now ""]> (d_outcomes d)) d).
  assert (exists d2 n, delete_lifecycle (p_SessionID p) (fun q => p_RequestID q ==s p_RequestID p) d1 = Ok (d2, n)
          /\ d_sessions d2 = d_sessions d /\ d_lifecycles d2 !! p_SessionID p = None /\ d_outcomes d2 = d_outcomes d1)
    as (d2 & n & Hd & Hs & Hl & Hout).
  { destruct (d_lifecycles d !! p_SessionID p) as [q|] eqn:E.
    - rewrite (delete_lifecycle_ok d1 _ q); [|exact E|apply String.eqb_eq; auto].
      do 2 eexists. split; [done|]. simpl. by rewrite lookup_delete_eq.
    - unfold delete_lifecycle, tbind, read. simpl. rewrite E. by do 2 eexists. }
  exists d2. split.
  - unfold CompleteLifecycle. apply run_atomically. tx_run; [by apply lifecycle_ok_validate|].
    tx_run; [by rewrite (insert_outcome_ok _ _ _ _ Hp), Ho|]. tx_run; [reflexivity|]. tx_run; [exact Hd|]. reflexivity.
  - unfold GetLifecycleOutcome. rewrite Hout. simpl. by rewrite lookup_insert_eq.
Qed.

Lemma CompleteEndedShell_ok d id s p now success :
  pending_at d id s p -> lifecycle_ok p -> p_Operation p = LifecycleEnd -> p_Phase p = LifecycleRuntimeStopped ->
  s_Kind s = KindShell -> s_Status s = StatusStopped -> s_ExitSuccess s = Some success ->
  s_RuntimeGeneration s = p_SourceGeneration p ->
  GetLifecycleOutcome (p_Requester p) (p_RequestID p) d = None ->
  d_retained d !! (id, p_SourceGeneration p) = None -> (0 < now)%Z ->
  exists d', CompleteEndedShell p now d = (d', Ok tt)
    /\ d_sessions d' !! id = None /\ d_lifecycles d' !! id = None
    /\ GetLifecycleOutcome (p_Requester p) (p_RequestID p) d' = Some (receipt p now "")
    /\ d_retained d' !! (id, p_SourceGeneration p)
       = Some (mkRetained id (p_SourceGeneration p) (s_Handle s) now success (s_ExitReason s)).
Proof.
  intros Hat Hp Hop Hph Hk Hst Hex Hgen Ho Hret Hnow. pose proof (pending_row _ _ _ _ Hat) as Hrow.
  pose proof (pending_get _ _ _ _ Hat) as Hget. destruct (pending_fences _ _ _ _ Hat) as [[Hid He _ _] _].
  destruct Hat as [Hg Hs Hl]. subst id. set (id := p_SessionID p) in *.
  set (r := mkRetained id (p_SourceGeneration p) (s_Handle s) now success (s_ExitReason s)).
  set (d1 := with_retained (<[(id, p_SourceGeneration p) := r]> (d_retained d)) d).
  set (d2 := with_outcomes (<[outcome_key (p_Requester p) (p_RequestID p) := receipt p now ""]> (d_outcomes d1)) d1).
  set (d3 := with_lifecycles (delete id (d_lifecycles d2)) d2).
  destruct (delete_session_ok d3 id s (fun r0 => (s_Kind r0 ==s KindShell) && (s_Status r0 ==s StatusStopped)
    && fenced (p_SourceEpoch p) (p_SourceGeneration p) r0)) as (d4 & Hd & Hs4 & Hl4 & [Ho4 Hr4 _]); [exact Hs| |].
  { unfold fenced. by rewrite Hk, Hst, Hgen, He, !Z.eqb_refl. }
  exists d4. split_and!; try done.
  - unfold CompleteEndedShell. apply run_atomically. cbv zeta. tx_run; [by apply lifecycle_ok_validate|].
    tx_run; [by rewrite Hop|]. tx_run. fold id. rewrite Hl. tx_run.
    { unfold same_request. rewrite !String.eqb_refl, !Z.eqb_refl, Hop, Hph, bool_decide_eq_true_2; done. }
    tx_run; [unfold GetSessionTx; by rewrite Hget|]. rewrite Hex. tx_run.
    { unfold fenced. by rewrite Hk, Hst, Hgen, He, !Z.eqb_refl. }
    tx_run.
    { unfold insert_retained. tx_run; [apply Hp|]. tx_run. tx_run; [|reflexivity]. simpl. rewrite Hret. simpl.
      destruct Hp as [_ _ _ _ _ [Hpg _]]. apply Z.ltb_lt in Hpg, Hnow. rewrite Hpg, Hnow, !andb_true_r.
      by apply (row_id_length _ s). }
    tx_run.
    { rewrite (insert_outcome_ok _ _ _ _ Hp).
      match goal with |- context [GetLifecycleOutcome ?o ?q ?x] =>
        replace (GetLifecycleOutcome o q x) with (@None LifecycleOutcome) by (symmetry; exact Ho) end.
      reflexivity. }
    tx_run; [done|]. tx_run.
    { apply (delete_lifecycle_ok d2 id p); [exact Hl|]. by rewrite Hop, Hph, !String.eqb_refl, !Z.eqb_refl. }
    tx_run; [done|]. tx_run; [exact Hd|]. by apply run_guard.
  - unfold GetLifecycleOutcome. rewrite Ho4. simpl. by rewrite lookup_insert_eq.
  - rewrite Hr4. simpl. by rewrite lookup_insert_eq.
Qed.

Definition relaunched_row (publicKey : string) (now : Z) (s : Session) : Session :=
  set_UpdatedAt now (set_Exit None "" (set_AdapterState (adapter_for AdapterRecovering s)
    (set_TaskState TaskIdle (set_Runtime (s_RuntimeGeneration s + 1) publicKey (set_Status StatusRecovering s))))).

Lemma BeginLifecycleRestart_ok (sha256 : string -> string) d id s p publicKey now :
  pending_at d id s p -> p_Operation p = LifecycleRestart -> p_Phase p = LifecycleRuntimeStopped ->
  slen publicKey = 32 -> s_Status s = StatusStopped -> s_RuntimeGeneration s = p_SourceGeneration p ->
  (p_SourceGeneration p + 1 < 2 ^ 63)%Z ->
  exists d', BeginLifecycleRestart p publicKey now d = (d', Ok (relaunched_row publicKey now s))
    /\ pending_at d' id (relaunched_row publicKey now s) (set_phase LifecycleLaunching now "" p)
    /\ same_records d d'.
Proof.
  intros Hat Hop Hph Hkey Hst Hgen Hmax. pose proof (pending_row _ _ _ _ Hat) as Hrow.
  pose proof (pending_get _ _ _ _ Hat) as Hget. destruct (pending_fences _ _ _ _ Hat) as [[Hid He _ _] _].
  destruct Hat as [Hg Hs Hl]. pose proof (row_generation_nonneg _ _ Hrow) as Hpos.
  pose proof (run_good sha256 (OpBeginRestart p publicKey now) d Hg) as Hgood. simpl in Hgood.
  destruct (update_session_ok d (s_ID s) s
    (fun r => (s_Status r ==s StatusStopped) && fenced (p_SourceEpoch p) (p_SourceGeneration p) r)
    (fun r => set_UpdatedAt now (set_Exit None "" (set_AdapterState (adapter_for AdapterRecovering s)
       (set_TaskState TaskIdle (set_Runtime (s_RuntimeGeneration r + 1) publicKey (set_Status StatusRecovering r))))))
    ) as (d1 & Hu & Hs1 & Hl1 & Hy1 & Hr1).
  - by rewrite (ro_id _ _ Hrow).
  - unfold fenced. by rewrite Hst, Hgen, He, !Z.eqb_refl.
  - apply (check_next id s); try done; [simpl; lia|by apply adapter_for_valid].
  - simpl. lia.
  - rewrite (ro_id _ _ Hrow) in Hs1.
    set (d2 := with_lifecycles (<[id := set_phase LifecycleLaunching now "" p]> (d_lifecycles d1)) d1).
    assert (Hr : BeginLifecycleRestart p publicKey now d = (d2, GetSession id d2)).
    { unfold BeginLifecycleRestart. cbv zeta. rewrite Hid. erewrite run_atomically; [reflexivity|].
      tx_run; [by rewrite Hop, Hkey|]. tx_run; [unfold GetSessionTx; by rewrite Hget|]. tx_run. rewrite Hl. tx_run.
      { unfold fenced. by rewrite String.eqb_refl, Hph, Hst, Hgen, He, !Z.eqb_refl. }
      tx_run; [rewrite He; apply Hrow|]. tx_run; [lia|]. tx_run; [exact Hu|]. tx_run; [done|]. tx_run.
      { apply (update_lifecycle_ok d1 id p); [by rewrite Hl1|]. by rewrite String.eqb_refl, Hph. }
      by apply run_guard. }
    rewrite Hr in *. simpl in Hgood.
    assert (Hs2 : d_sessions d2 !! id = Some (relaunched_row publicKey now s)) by exact Hs1.
    rewrite (GetSession_total d2 id Hgood), Hs2. eexists. split; [done|]. split.
    + split; [done|done|]. simpl. by rewrite lookup_insert_eq.
    + destruct Hr1. by split.
Qed.

Definition connected_row (now : Z) (s : Session) : Session :=
  set_UpdatedAt now (set_AdapterState (adapter_for AdapterHealthy s) (set_Status StatusRunning s)).

Lemma MarkRuntimeConnected_ok (sha256 : string -> string) d id s p now :
  pending_at d id s p -> s_Status s = StatusRecovering -> s_AdapterState s = adapter_for AdapterRecovering s ->
  exists d', MarkRuntimeConnected id (s_RuntimeGeneration s) now d = (d', Ok tt)
    /\ pending_at d' id (connected_row now s) p /\ same_records d d'.
Proof.
  intros Hat Hst Ha. pose proof (pending_row _ _ _ _ Hat) as Hrow. destruct Hat as [Hg Hs Hl].
  pose proof (run_good sha256 (OpConnected id (s_RuntimeGeneration s) now) d Hg) as Hgood. simpl in Hgood.
  destruct (update_session_ok d id s
    (fun r => (s_RuntimeGeneration r =? s_RuntimeGeneration s)%Z && among (s_Status r) [StatusRecovering; StatusRunning]
       && ((s_Kind r ==s KindAgent) && among (s_AdapterState r) [AdapterRecovering; AdapterHealthy]
           || (s_Kind r ==s KindShell) && (s_AdapterState r ==s AdapterUnavailable)))
    (fun r => set_UpdatedAt now (set_AdapterState (adapter_for AdapterHealthy r) (set_Status StatusRunning r))) Hs)
    as (d1 & Hu & Hs1 & Hl1 & _ & Hr1).
  - rewrite Z.eqb_refl, Hst, Ha. unfold adapter_for. destruct (row_kind _ _ Hrow) as [->| ->]; done.
  - apply (check_next id s); try done; [exact (row_generation_nonneg id s Hrow)|apply Hrow|by apply adapter_for_valid].
  - simpl. apply Hrow.
  - assert (Hr : MarkRuntimeConnected id (s_RuntimeGeneration s) now d = (d1, Ok tt)).
    { unfold MarkRuntimeConnected. apply run_atomically. tx_run; [apply Hrow|]. tx_run; [exact Hu|]. by apply run_guard. }
    rewrite Hr in *. eexists. split; [done|]. split; [|done]. split; [done|done|]. by rewrite Hl1.
Qed.

Lemma RunMutation_fresh (key : MutationKey) (now : Z) (fn : tx doc) (d d' : db) (v : doc) :
  key_ok key = true -> d_mutations d !! mutation_key key = None ->
  fn (with_mutations (<[mutation_key key := mkMutation (mk_Operation key) (mk_SessionID key)
        (mk_Fingerprint key) StatusInProgress None now None]> (d_mutations d)) d) = Ok (d', v) ->
  RunMutation key now fn d =
  (with_mutations (alter (fun r => mkMutation (m_Operation r) (m_SessionID r) (m_Fingerprint r) StatusCompleted
     (Some v) (m_CreatedAtMS r) (Some now)) (mutation_key key) (d_mutations d')) d', Ok (v, false)).
Proof.
  intros Hkey Hm Hfn. unfold key_ok in Hkey. apply andb_true_iff in Hkey. destruct Hkey as [Hk1 Hk2].
  unfold RunMutation. apply run_atomically. tx_run; [exact Hk1|]. tx_run; [exact Hk2|]. tx_run. rewrite Hm.
  tx_run. tx_run; [exact Hfn|]. tx_run. reflexivity.
Qed.

(** The requester of a pending operation passes the ownership test of the service,
    as long as the service can read the owner back from the principal. *)
Lemma owner_refusal_none d id s p message :
  pending_at d id s p -> principal_owner (principalFor (p_Requester p)) = p_Requester p ->
  owner_refusal (principalFor (p_Requester p)) message s = None.
Proof.
  intros Hat Hpo. pose proof (pending_row _ _ _ _ Hat) as Hrow. destruct (pending_fences _ _ _ _ Hat) as [[_ _ Ho _] _].
  unfold owner_refusal. rewrite Hpo. unfold owner_matches in Ho.
  destruct (s_Kind s ==s KindShell) eqn:Hk; simpl in Ho.
  - apply String.eqb_eq in Hk. destruct Hrow as [_ [_ _ _ _ _ _ _ _ [(Ha & _)|(_ & Hw & _)]] _ _ _]; [by rewrite Ha in Hk|].
    unfold writer_is in Ho. rewrite Hw, orb_false_r in Ho. by rewrite Ho.
  - by rewrite Ho.
Qed.

Lemma DestroyStopped_ok (sha256 : string -> string) d id s p clk :
  pending_at d id s p -> s_Status s = StatusStopped -> s_RuntimeGeneration s = p_SourceGeneration p ->
  principal_owner (principalFor (p_Requester p)) = p_Requester p ->
  let principal := principalFor (p_Requester p) in
  let payload := DObj [("ownership_epoch", DNum (p_SourceEpoch p)); ("runtime_generation", DNum (p_SourceGeneration p))] in
  key_ok (mutation sha256 principal (p_RequestID p) "destroy_session" id payload) = true ->
  d_mutations d !! (principal, p_RequestID p) = None ->
  exists d' o, DestroyStoppedSession sha256 principal (p_RequestID p) id (p_SourceEpoch p) (p_SourceGeneration p) clk d = (d', Ok (o, false))
    /\ oc_Error o = None /\ d_sessions d' !! id = None /\ d_lifecycles d' !! id = None /\ d_outcomes d' = d_outcomes d.
Proof.
  intros Hat Hst Hgen Hpo principal payload Hkey Hmut. pose proof (pending_row _ _ _ _ Hat) as Hrow.
  pose proof (owner_refusal_none _ _ _ _ "Discord CC cannot destroy shell sessions" Hat Hpo) as Href.
  destruct (pending_fences _ _ _ _ Hat) as [[Hid He _ _] _].
  set (key := mutation sha256 principal (p_RequestID p) "destroy_session" id payload).
  set (d1 := with_mutations (<[mutation_key key := mkMutation (mk_Operation key) (mk_SessionID key)
              (mk_Fingerprint key) StatusInProgress None (clk 0) None]> (d_mutations d)) d).
  set (d2 := with_audit (d_audit d1 ++ [mkAudit (s_ID s) principal "destroy_session" (s_OwnershipEpoch s)
               (s_RuntimeGeneration s) "ok" (clk 2)]) d1).
  destruct (delete_session_ok d2 id s (fun r => (s_Status r ==s StatusStopped) && fenced (p_SourceEpoch p) (p_SourceGeneration p) r))
    as (d3 & Hd & Hs3 & Hl3 & [Ho3 _ _]); [apply Hat|unfold fenced; by rewrite Hst, Hgen, He, !Z.eqb_refl|].
  assert (Hfn : forall fn v, fn d1 = Ok (d3, v) -> exists d', RunMutation key (clk 0) fn d = (d', Ok (v, false))
    /\ d_sessions d' !! id = None /\ d_lifecycles d' !! id = None /\ d_outcomes d' = d_outcomes d).
  { intros fn v Hv. rewrite (RunMutation_fresh key (clk 0) fn d d3 v Hkey Hmut Hv). eexists. split; [reflexivity|]. done. }
  unfold DestroyStoppedSession, run_outcome, run_and_read. cbv zeta. fold payload key.
  match goal with |- context [RunMutation key (clk 0) ?fn d] =>
    destruct (Hfn fn (outcome_doc (mkOutcome "" id "" (p_SourceEpoch p) "" None None))) as (d' & Hrun & Hs & Hl & Ho) end.
  2: { rewrite Hrun, read_outcome_doc. eexists _, _. split; [reflexivity|]. done. }
  tx_run.
  { unfold GetSessionTx. replace (GetSession id d1) with (GetSession id d) by done. by rewrite (pending_get _ _ _ _ Hat). }
  fold principal in Href. cbv beta iota. rewrite Href, Hst, He, Hgen, !Z.eqb_refl, String.eqb_refl.
  change (negb true) with false. tx_run.
  { unfold audit, InsertAuditTx, insert_audit. tx_run; [apply Hrow|]. tx_run; [apply Hrow|]. reflexivity. }
  tx_run; [|reflexivity]. unfold DeleteStoppedSessionTx. tx_run; [apply Hrow|]. tx_run; [rewrite <-Hgen; apply Hrow|].
  tx_run; [rewrite He in Hd; exact Hd|]. by apply run_guard.
Qed.

(** ** Passes of the coordinator *)

(** A pass in which nothing else touches the store and the world does as asked. *)
Record calm (w : world) : Prop := mkCalm {
  cm_between : forall n, w_between w n = [];
  cm_terminate : w_terminate w = None;
  cm_prepare : exists publicKey, w_prepare w = inl publicKey /\ slen publicKey = 32;
  cm_launch : w_launch w = None;
  cm_clean : w_clean w = None;
  cm_now : forall n, (0 < w_now w n)%Z;
}.

Section Passes.
Variable sha256 : string -> string.

Lemma calm_between (w : world) (n : nat) (d : db) : calm w -> between sha256 w n d = d.
Proof. intros Hw. unfold between. by rewrite (cm_between _ Hw). Qed.

(** The effects of a pass. *)
Definition effects (t : trace) : list effect := map snd t.

Lemma pending_matches d id s p :
  pending_at d id s p -> s_RuntimeGeneration s = p_SourceGeneration p -> Lifecycle_Matches p s = true.
Proof.
  intros Hat Hgen. destruct (pending_fences _ _ _ _ Hat) as [[_ He Ho _] _]. unfold Lifecycle_Matches.
  by rewrite Ho, He, Hgen, !Z.eqb_refl.
Qed.

Lemma drive_waiting w d id s p :
  calm w -> pending_at d id s p -> p_Phase p = LifecycleWaiting -> p_RequestID p <> "" ->
  s_RuntimeGeneration s = p_SourceGeneration p -> s_TaskState s = TaskIdle ->
  exists d' n, driveLifecycle sha256 w id d = (d', []) /\ pending_at d' id s (set_phase LifecycleStopping n "" p)
    /\ same_records d d'.
Proof.
  intros Hw Hat Hph Hr Hgen Ht.
  destruct (pending_swap sha256 d id s p LifecycleWaiting LifecycleStopping "" (w_now w 0) Hat Hr Hph) as [Hat' Hsame];
    [done|done|simpl; lia|].
  eexists _, (w_now w 0). split; [|split; [exact Hat'|exact Hsame]].
  unfold driveLifecycle, GetPendingLifecycle. rewrite (pt_lifecycle _ _ _ _ Hat), Hph. simpl (_ ==s _). cbv iota.
  unfold driveWaiting. cbv zeta. rewrite !(calm_between w) by done. rewrite (pending_get _ _ _ _ Hat).
  unfold must_wait. rewrite (pending_matches _ _ _ _ Hat Hgen), Ht. simpl negb. rewrite andb_false_r.
  reflexivity.
Qed.

Lemma drive_terminate w d id s p :
  calm w -> pending_at d id s p -> p_Phase p = LifecycleStopping ->
  s_Status s <> StatusStopped -> s_TaskState s = TaskIdle ->
  driveLifecycle sha256 w id d = (d, [(d, Terminate id (p_RequestID p) (p_SourceEpoch p) (p_SourceGeneration p))]).
Proof.
  intros Hw Hat Hph Hst Ht. unfold driveLifecycle, GetPendingLifecycle. rewrite (pt_lifecycle _ _ _ _ Hat), Hph.
  simpl (_ ==s _). cbv iota. unfold driveStopping. cbv zeta. rewrite !(calm_between w) by done.
  rewrite (pending_get _ _ _ _ Hat), Ht, (cm_terminate _ Hw). apply String.eqb_neq in Hst. rewrite Hst.
  simpl (TaskIdle !=s TaskIdle). by rewrite andb_false_r.
Qed.

(** The first three events of every operation on a running session: the coordinator
    leaves [waiting], asks the runtime to stop, and the runtime's exit is recorded. *)
Lemma stop_runtime w1 w2 d id s p success reason now :
  calm w1 -> calm w2 -> pending_at d id s p -> p_Phase p = LifecycleWaiting -> p_RequestID p <> "" ->
  s_RuntimeGeneration s = p_SourceGeneration p -> s_TaskState s = TaskIdle -> s_Status s = StatusRunning ->
  exists d1 d3 n, driveLifecycle sha256 w1 id d = (d1, [])
    /\ (exists t, driveLifecycle sha256 w2 id d1 = (d1, t)
        /\ effects t = [Terminate id (p_RequestID p) (p_SourceEpoch p) (p_SourceGeneration p)])
    /\ MarkRuntimeExited id (p_SourceGeneration p) success reason now d1 = (d3, Ok tt)
    /\ pending_at d3 id (stopped_row success reason now s)
         (set_phase LifecycleRuntimeStopped now "" (set_phase LifecycleStopping n "" p))
    /\ same_records d d3.
Proof.
  intros Hw1 Hw2 Hat Hph Hr Hgen Ht Hst.
  destruct (drive_waiting w1 d id s p) as (d1 & n & Hd1 & Hat1 & Hs1); try done.
  destruct (MarkRuntimeExited_ok sha256 d1 id s _ success reason now Hat1) as (d3 & Hx & Hat3 & Hs3);
    [by rewrite Hst|by simpl|done|].
  exists d1, d3, n. split; [done|]. split.
  - eexists. split; [apply (drive_terminate w2 d1 id s _ Hw2 Hat1); try done; by rewrite Hst|done].
  - rewrite <-Hgen. split; [done|]. split; [done|]. by transitivity d1.
Qed.

(** A pass on a stopped runtime, by operation. *)
Lemma drive_stopped w id d p :
  d_lifecycles d !! id = Some p -> p_Phase p = LifecycleRuntimeStopped ->
  driveLifecycle sha256 w id d = driveRuntimeStopped sha256 w id p d.
Proof. intros Hp Hph. unfold driveLifecycle, GetPendingLifecycle. by rewrite Hp, Hph. Qed.

Lemma drive_end_agent w d id s p :
  calm w -> pending_at d id s p -> lifecycle_ok p -> p_Phase p = LifecycleRuntimeStopped -> p_Operation p = LifecycleEnd ->
  s_Kind s = KindAgent -> GetLifecycleOutcome (p_Requester p) (p_RequestID p) d = None ->
  exists d' n, driveLifecycle sha256 w id d = (d', []) /\ d_sessions d' !! id = Some s /\ d_lifecycles d' !! id = None
    /\ GetLifecycleOutcome (p_Requester p) (p_RequestID p) d' = Some (receipt p n "").
Proof.
  intros Hw Hat Hp Hph Hop Hk Ho. destruct (pending_fences _ _ _ _ Hat) as [[Hid _ _ _] _].
  destruct (CompleteLifecycle_ok d p (w_now w 0) Hp Ho) as (d' & Hc & Hs' & Hl' & Ho').
  { intros q Hq. rewrite Hid, (pt_lifecycle _ _ _ _ Hat) in Hq. by simplify_eq. }
  exists d', (w_now w 0). rewrite (drive_stopped w id d p) by (done || apply Hat). unfold driveRuntimeStopped. cbv zeta.
  rewrite Hop, !(calm_between w), (pending_get _ _ _ _ Hat), Hk, Hc by done. rewrite Hs', <-Hid. split_and!; try done.
  rewrite Hid. apply Hat.
Qed.

Lemma drive_end_shell w d id s p success :
  calm w -> pending_at d id s p -> lifecycle_ok p -> p_Phase p = LifecycleRuntimeStopped -> p_Operation p = LifecycleEnd ->
  s_Kind s = KindShell -> s_Status s = StatusStopped -> s_ExitSuccess s = Some success ->
  s_RuntimeGeneration s = p_SourceGeneration p ->
  GetLifecycleOutcome (p_Requester p) (p_RequestID p) d = None -> d_retained d !! (id, p_SourceGeneration p) = None ->
  exists d' n, driveLifecycle sha256 w id d = (d', []) /\ d_sessions d' !! id = None /\ d_lifecycles d' !! id = None
    /\ GetLifecycleOutcome (p_Requester p) (p_RequestID p) d' = Some (receipt p n "")
    /\ d_retained d' !! (id, p_SourceGeneration p)
       = Some (mkRetained id (p_SourceGeneration p) (s_Handle s) n success (s_ExitReason s)).
Proof.
  intros Hw Hat Hp Hph Hop Hk Hst Hx Hgen Ho Hret.
  destruct (CompleteEndedShell_ok d id s p (w_now w 0) success) as (d' & Hc & H); try done; [apply (cm_now _ Hw)|].
  exists d', (w_now w 0). rewrite (drive_stopped w id d p) by (done || apply Hat). unfold driveRuntimeStopped. cbv zeta.
  by rewrite Hop, !(calm_between w), (pending_get _ _ _ _ Hat), Hk, Hc by done.
Qed.

Lemma drive_restart w d id s p :
  calm w -> pending_at d id s p -> p_Phase p = LifecycleRuntimeStopped -> p_Operation p = LifecycleRestart ->
  s_Status s = StatusStopped -> s_RuntimeGeneration s = p_SourceGeneration p -> (p_SourceGeneration p + 1 < 2 ^ 63)%Z ->
  exists d' t n key, driveLifecycle sha256 w id d = (d', t) /\ effects t = [Launch id]
    /\ pending_at d' id (relaunched_row key n s) (set_phase LifecycleLaunching n "" p) /\ same_records d d'.
Proof.
  intros Hw Hat Hph Hop Hst Hgen Hmax. destruct (cm_prepare _ Hw) as (key & Hkey & Hlen).
  destruct (BeginLifecycleRestart_ok sha256 d id s p key (w_now w 0)) as (d' & Hb & Hat' & Hs'); try done.
  exists d', [(d', Launch id)], (w_now w 0), key. rewrite (drive_stopped w id d p) by (done || apply Hat).
  unfold driveRuntimeStopped. rewrite Hop. change (LifecycleRestart ==s LifecycleEnd) with false.
  change (LifecycleRestart ==s LifecycleRestart) with true. cbv iota. unfold driveRestart. cbv zeta.
  rewrite !(calm_between w), (pending_get _ _ _ _ Hat), Hkey, Hb, (cm_launch _ Hw), (calm_between w) by done. done.
Qed.

Lemma drive_launched w d id s p :
  calm w -> pending_at d id s p -> lifecycle_ok p -> p_Phase p = LifecycleLaunching -> s_Status s = StatusRunning ->
  GetLifecycleOutcome (p_Requester p) (p_RequestID p) d = None ->
  exists d' n, driveLifecycle sha256 w id d = (d', []) /\ d_sessions d' !! id = Some s /\ d_lifecycles d' !! id = None
    /\ GetLifecycleOutcome (p_Requester p) (p_RequestID p) d' = Some (receipt p n "").
Proof.
  intros Hw Hat Hp Hph Hst Ho. destruct (pending_fences _ _ _ _ Hat) as [[Hid _ _ _] _].
  destruct (CompleteLifecycle_ok d p (w_now w 0) Hp Ho) as (d' & Hc & Hs' & Hl' & Ho').
  { intros q Hq. rewrite Hid, (pt_lifecycle _ _ _ _ Hat) in Hq. by simplify_eq. }
  exists d', (w_now w 0). unfold driveLifecycle, GetPendingLifecycle. rewrite (pt_lifecycle _ _ _ _ Hat), Hph.
  simpl (_ ==s _). cbv iota. unfold driveLaunching. cbv zeta. rewrite !(calm_between w), (pending_get _ _ _ _ Hat), Hst, Hc by done.
  rewrite Hs', <-Hid. split_and!; try done. rewrite Hid. apply Hat.
Qed.

Lemma drive_clean w d id s p :
  calm w -> pending_at d id s p -> p_Phase p = LifecycleRuntimeStopped -> p_Operation p = LifecycleDestroy ->
  p_RequestID p <> "" ->
  exists d' n, driveLifecycle sha256 w id d = (d', []) /\ pending_at d' id s (set_phase LifecycleCleaning n "" p)
    /\ same_records d d'.
Proof.
  intros Hw Hat Hph Hop Hr.
  destruct (pending_swap sha256 d id s p LifecycleRuntimeStopped LifecycleCleaning "" (w_now w 0) Hat Hr Hph) as [Hat' Hsame];
    [done|done|simpl; lia|].
  eexists _, (w_now w 0). split; [|split; [exact Hat'|exact Hsame]]. rewrite (drive_stopped w id d p) by (done || apply Hat).
  unfold driveRuntimeStopped. by rewrite Hop, (calm_between w).
Qed.

Lemma drive_destroy w d id s p :
  calm w -> pending_at d id s p -> lifecycle_ok p -> p_Phase p = LifecycleCleaning ->
  s_Status s = StatusStopped -> s_RuntimeGeneration s = p_SourceGeneration p ->
  principal_owner (principalFor (p_Requester p)) = p_Requester p ->
  key_ok (mutation sha256 (principalFor (p_Requester p)) (p_RequestID p) "destroy_session" id
    (DObj [("ownership_epoch", DNum (p_SourceEpoch p)); ("runtime_generation", DNum (p_SourceGeneration p))])) = true ->
  d_mutations d !! (principalFor (p_Requester p), p_RequestID p) = None ->
  GetLifecycleOutcome (p_Requester p) (p_RequestID p) d = None ->
  exists d' t n, driveLifecycle sha256 w id d = (d', t) /\ effects t = [CleanFiles id]
    /\ d_sessions d' !! id = None /\ d_lifecycles d' !! id = None
    /\ GetLifecycleOutcome (p_Requester p) (p_RequestID p) d' = Some (receipt p n "").
Proof.
  intros Hw Hat Hp Hph Hst Hgen Hpo Hkey Hm Ho. destruct (pending_fences _ _ _ _ Hat) as [[Hid _ _ _] _].
  destruct (DestroyStopped_ok sha256 d id s p (w_now w) Hat Hst Hgen Hpo Hkey Hm) as (d1 & o & Hd & Herr & Hs1 & Hl1 & Ho1).
  destruct (CompleteLifecycle_ok d1 p (w_now w 4) Hp) as (d' & Hc & Hs' & Hl' & Ho').
  { unfold GetLifecycleOutcome in *. by rewrite Ho1. }
  { intros q Hq. rewrite Hid, Hl1 in Hq. discriminate. }
  exists d', [(d1, CleanFiles id)], (w_now w 4). unfold driveLifecycle, GetPendingLifecycle.
  rewrite (pt_lifecycle _ _ _ _ Hat), Hph. simpl (_ ==s _). cbv iota. unfold driveCleaning. cbv zeta.
  rewrite !(calm_between w), Hd, Herr, (cm_clean _ Hw), (calm_between w), Hc by done. rewrite Hid in Hl'. rewrite Hs'. done.
Qed.

(** ** Reservations *)

Lemma lifecycle_validate_ok (p : PendingLifecycle) (d d' : db) (u : unit) :
  lifecycle_validate p d = Ok (d', u) -> d' = d
  /\ among (p_Operation p) [LifecycleEnd; LifecycleDestroy; LifecycleRestart] = true
  /\ among (p_Mode p) [LifecycleImmediate; LifecycleWait; LifecycleForce] = true
  /\ Owner_Validate (p_Requester p) = Ok tt /\ p_RequestID p <> "".
Proof.
  unfold lifecycle_validate. intros H. tx_inv H. bool_to_prop.
  destruct (Owner_Validate (p_Requester p)) as [[]|]; [|discriminate]. done.
Qed.

(** A successful reservation: the same request was there, or it is there now. *)
Lemma Reserve_cases d d0 p s now b :
  good_db d -> ReserveLifecycle p now d = (d0, Ok (s, b)) ->
  d_sessions d !! p_SessionID p = Some s
  /\ ((b = true /\ d0 = d /\ exists e, d_lifecycles d !! p_SessionID p = Some e /\ same_request e p = true)
      \/ (b = false /\ d0 = put_lifecycle (reserved p now) d /\ lifecycle_ok p
          /\ s_RuntimeGeneration s = p_SourceGeneration p
          /\ (p_Operation p = LifecycleEnd -> s_Status s = StatusRunning))).
Proof.
  intros Hg H. unfold ReserveLifecycle, committing in H. cbv zeta in H.
  match type of H with match ?m d with _ => _ end = _ => destruct (m d) as [[d1 r]|] eqn:Hm; [|discriminate] end.
  injection H as -> Hres. subst r. apply tbind_Ok in Hm. destruct Hm as (d1 & u & Hv & Hm).
  apply lifecycle_validate_ok in Hv. destruct Hv as (-> & H1 & H2 & H3 & H4).
  apply tbind_Ok in Hm. destruct Hm as (d1 & s0 & Hget & Hm).
  unfold GetSessionTx in Hget. rewrite (GetSession_total d _ Hg) in Hget.
  destruct (d_sessions d !! p_SessionID p) as [s1|] eqn:Hs; [|discriminate]. injection Hget as <- <-.
  apply tbind_Ok in Hm. destruct Hm as (d1 & e & He & Hm). injection He as <- <-.
  destruct (d_lifecycles d !! p_SessionID p) as [e|] eqn:Hl.
  - destruct (negb (Lifecycle_Matches e s1)).
    { apply tbind_Ok in Hm. destruct Hm as (? & ? & _ & Hm). by injection Hm. }
    destruct (same_request e p) eqn:Hsame; [|discriminate]. injection Hm as <- <- <-.
    split; [done|]. left. split_and!; try done. by exists e.
  - do 4 (apply tbind_Ok in Hm; destruct Hm as (? & ? & Hb & Hm); apply guard_Ok in Hb; destruct Hb as [?Hc ->]).
    apply tbind_Ok in Hm. destruct Hm as (? & y & Hb & Hm). injection Hb as <- <-.
    do 2 (apply tbind_Ok in Hm; destruct Hm as (? & ? & Hb & Hm); apply guard_Ok in Hb; destruct Hb as [?Hc ->]).
    apply tbind_Ok in Hm. destruct Hm as (d2 & u2 & Hi & Hm). injection Hm as -> -> <-.
    unfold insert_lifecycle in Hi. tx_inv Hi. simpl in *. bool_to_prop. unfold lifecycle_check in H0. simpl in H0. bool_to_prop.
    split; [done|]. right. split_and!; try done. intros Hop. destruct H7 as [H7|H7]; bool_to_prop; [congruence|done].
Qed.

Lemma Reserve_good d d0 p now r : good_db d -> ReserveLifecycle p now d = (d0, r) -> good_db d0.
Proof. intros Hg H. replace d0 with (run sha256 (OpReserve p now) d) by (simpl; by rewrite H). by apply run_good. Qed.

Lemma Reserve_pending d d0 p s now :
  good_db d -> ReserveLifecycle p now d = (d0, Ok (s, false)) ->
  lifecycle_ok p /\ pending_at d0 (p_SessionID p) s (reserved p now) /\ same_records d d0
  /\ s_RuntimeGeneration s = p_SourceGeneration p
  /\ (p_Operation p = LifecycleEnd -> s_Status s = StatusRunning).
Proof.
  intros Hg H. pose proof (Reserve_good _ _ _ _ _ Hg H) as Hg0.
  destruct (Reserve_cases _ _ _ _ _ _ Hg H) as (Hs & [(Hb & _)|(_ & -> & Hp & Hgen & Hst)]); [discriminate|].
  split_and!; try done. split; [done|done|]. simpl. by rewrite lookup_insert_eq.
Qed.

Lemma Reserve_row d d0 p s now b :
  good_db d -> ReserveLifecycle p now d = (d0, Ok (s, b)) ->
  exists q, pending_at d0 (p_SessionID p) s q /\ p_Requester q = p_Requester p /\ p_RequestID q = p_RequestID p
    /\ p_SourceEpoch q = p_SourceEpoch p /\ p_SourceGeneration q = p_SourceGeneration p.
Proof.
  intros Hg H. destruct (Reserve_cases _ _ _ _ _ _ Hg H) as (Hs & [(-> & -> & e & He & Hsame)|(-> & _)]).
  - unfold same_request in Hsame. bool_to_prop. exists e. split_and!; try done.
    match goal with H : bool_decide (_ = _) = true |- _ => by apply bool_decide_eq_true in H end.
  - destruct (Reserve_pending _ _ _ _ _ Hg H) as (_ & Hat & _). by exists (reserved p now).
Qed.

Lemma phase_lifecycle_ok p ph n e : lifecycle_ok p -> lifecycle_ok (set_phase ph n e p).
Proof. by intros []. Qed.

Lemma reserved_lifecycle_ok p now : lifecycle_ok p -> lifecycle_ok (reserved p now).
Proof. by intros []. Qed.

(** ** The operations complete *)

(** Ending a running session completes.  After the reservation, two passes of
    the coordinator ask the runtime to stop, the exit of the runtime is recorded
    whatever it reports, and the next pass leaves the receipt of the request; the
    lifecycle row is gone, an agent session stays as a stopped session with the same
    owner and epoch, and a shell session is replaced by its retained record. *)
Theorem end_completes w1 w2 w4 d d0 p s now success reason now3 :
  reachable sha256 d -> ReserveLifecycle p now d = (d0, Ok (s, false)) ->
  p_Operation p = LifecycleEnd -> s_TaskState s = TaskIdle ->
  GetLifecycleOutcome (p_Requester p) (p_RequestID p) d = None ->
  d_retained d !! (p_SessionID p, p_SourceGeneration p) = None ->
  calm w1 -> calm w2 -> calm w4 ->
  let id := p_SessionID p in
  exists d1 t2 d3 d4 n,
    driveLifecycle sha256 w1 id d0 = (d1, [])
    /\ driveLifecycle sha256 w2 id d1 = (d1, t2)
    /\ effects t2 = [Terminate id (p_RequestID p) (p_SourceEpoch p) (p_SourceGeneration p)]
    /\ MarkRuntimeExited id (p_SourceGeneration p) success reason now3 d1 = (d3, Ok tt)
    /\ driveLifecycle sha256 w4 id d3 = (d4, [])
    /\ GetLifecycleOutcome (p_Requester p) (p_RequestID p) d4 = Some (receipt p n "")
    /\ GetPendingLifecycle id d4 = None
    /\ if s_Kind s ==s KindAgent then d_sessions d4 !! id = Some (stopped_row success reason now3 s)
       else d_sessions d4 !! id = None
            /\ GetRetainedShellSession id (p_SourceGeneration p) d4
               = Ok (mkRetained id (p_SourceGeneration p) (s_Handle s) n success (str_take 1024 reason)).
Proof.
  intros Hd Hres Hop Ht Ho Hret Hw1 Hw2 Hw4 id.
  destruct (Reserve_pending _ _ _ _ _ (reachable_good _ _ Hd) Hres) as (Hp & Hat & [So Sr Sm] & Hgen & Hst).
  destruct (stop_runtime w1 w2 d0 id s (reserved p now) success reason now3) as (d1 & d3 & n & H1 & (t2 & H2 & E2) & H3 & Hat3 & [So3 Sr3 Sm3]);
    try done; [apply Hp|by apply Hst|].
  assert (Ho3 : GetLifecycleOutcome (p_Requester p) (p_RequestID p) d3 = None) by (unfold GetLifecycleOutcome in *; by rewrite So3, So).
  set (p3 := set_phase _ _ _ _) in Hat3.
  assert (Hp3 : lifecycle_ok p3) by (by do 2 apply phase_lifecycle_ok; apply reserved_lifecycle_ok).
  destruct (row_kind _ _ (pending_row _ _ _ _ Hat)) as [Hk|Hk].
  - destruct (drive_end_agent w4 d3 id _ p3 Hw4 Hat3) as (d4 & n4 & H4 & Hs4 & Hl4 & Ho4); try done.
    exists d1, t2, d3, d4, n4. rewrite Hk. split_and!; done.
  - destruct (drive_end_shell w4 d3 id _ p3 success Hw4 Hat3) as (d4 & n4 & H4 & Hs4 & Hl4 & Ho4 & Hr4); try done.
    { simpl. by rewrite Sr3, Sr. }
    exists d1, t2, d3, d4, n4. rewrite Hk. split_and!; try done. split; [done|].
    unfold GetRetainedShellSession. simpl in Hr4. by rewrite Hr4.
Qed.

(** C35. Restarting a running session completes when nothing goes wrong: the session's
    task is idle, the request has no receipt yet, and in the four passes of the worker no
    other goroutine touches the store and the supervisor, the preparation and the launch
    succeed ([calm]); the old runtime exits and the new one registers, at a generation
    below 2^63.  After the runtime has stopped, one
    pass launches the replacement with the next generation, and once that runtime
    has registered the next pass leaves the receipt; the session is running again
    with the same owner and epoch. *)
Theorem restart_completes w1 w2 w4 w6 d d0 p s now success reason now3 now5 :
  reachable sha256 d -> ReserveLifecycle p now d = (d0, Ok (s, false)) ->
  p_Operation p = LifecycleRestart -> s_TaskState s = TaskIdle -> s_Status s = StatusRunning ->
  (p_SourceGeneration p + 1 < 2 ^ 63)%Z ->
  GetLifecycleOutcome (p_Requester p) (p_RequestID p) d = None ->
  calm w1 -> calm w2 -> calm w4 -> calm w6 ->
  let id := p_SessionID p in
  exists d1 t2 d3 d4 t4 d5 d6 n s6,
    driveLifecycle sha256 w1 id d0 = (d1, [])
    /\ driveLifecycle sha256 w2 id d1 = (d1, t2)
    /\ effects t2 = [Terminate id (p_RequestID p) (p_SourceEpoch p) (p_SourceGeneration p)]
    /\ MarkRuntimeExited id (p_SourceGeneration p) success reason now3 d1 = (d3, Ok tt)
    /\ driveLifecycle sha256 w4 id d3 = (d4, t4) /\ effects t4 = [Launch id]
    /\ MarkRuntimeConnected id (p_SourceGeneration p + 1) now5 d4 = (d5, Ok tt)
    /\ driveLifecycle sha256 w6 id d5 = (d6, [])
    /\ GetLifecycleOutcome (p_Requester p) (p_RequestID p) d6 = Some (receipt p n "")
    /\ GetPendingLifecycle id d6 = None
    /\ d_sessions d6 !! id = Some s6 /\ s_Status s6 = StatusRunning
    /\ s_RuntimeGeneration s6 = (p_SourceGeneration p + 1)%Z
    /\ s_Writer s6 = s_Writer s /\ s_OwnershipEpoch s6 = s_OwnershipEpoch s.
Proof.
  intros Hd Hres Hop Ht Hst Hmax Ho Hw1 Hw2 Hw4 Hw6 id.
  destruct (Reserve_pending _ _ _ _ _ (reachable_good _ _ Hd) Hres) as (Hp & Hat & [So Sr Sm] & Hgen & _).
  destruct (stop_runtime w1 w2 d0 id s (reserved p now) success reason now3) as (d1 & d3 & n & H1 & (t2 & H2 & E2) & H3 & Hat3 & [So3 Sr3 Sm3]);
    try done; [apply Hp|].
  set (p3 := set_phase _ _ _ _) in Hat3.
  assert (Hp3 : lifecycle_ok p3) by (by do 2 apply phase_lifecycle_ok; apply reserved_lifecycle_ok).
  destruct (drive_restart w4 d3 id _ p3 Hw4 Hat3) as (d4 & t4 & n4 & key & H4 & E4 & Hat4 & [So4 Sr4 Sm4]); try done.
  destruct (MarkRuntimeConnected_ok sha256 d4 id _ _ now5 Hat4) as (d5 & H5 & Hat5 & [So5 Sr5 Sm5]); [done|done|].
  destruct (drive_launched w6 d5 id _ _ Hw6 Hat5) as (d6 & n6 & H6 & Hs6 & Hl6 & Ho6); [by apply phase_lifecycle_ok|done|done| |].
  { unfold GetLifecycleOutcome in *. simpl. by rewrite So5, So4, So3, So. }
  do 9 eexists. split_and!; try done; [simpl in H5; by rewrite Hgen in H5|simpl; by rewrite Hgen].
Qed.

(** Destroying a running session completes.  After the runtime has stopped, two
    passes delete the session with everything that belongs to it, then its files,
    and leave the receipt; the files are removed only after the session is gone. *)
Theorem destroy_completes w1 w2 w4 w5 d d0 p s now success reason now3 :
  reachable sha256 d -> ReserveLifecycle p now d = (d0, Ok (s, false)) ->
  p_Operation p = LifecycleDestroy -> s_TaskState s = TaskIdle -> s_Status s = StatusRunning ->
  GetLifecycleOutcome (p_Requester p) (p_RequestID p) d = None ->
  d_mutations d !! (principalFor (p_Requester p), p_RequestID p) = None ->
  principal_owner (principalFor (p_Requester p)) = p_Requester p ->
  key_ok (mutation sha256 (principalFor (p_Requester p)) (p_RequestID p) "destroy_session" (p_SessionID p)
    (DObj [("ownership_epoch", DNum (p_SourceEpoch p)); ("runtime_generation", DNum (p_SourceGeneration p))])) = true ->
  calm w1 -> calm w2 -> calm w4 -> calm w5 ->
  let id := p_SessionID p in
  exists d1 t2 d3 d4 d5 t5 n,
    driveLifecycle sha256 w1 id d0 = (d1, [])
    /\ driveLifecycle sha256 w2 id d1 = (d1, t2)
    /\ effects t2 = [Terminate id (p_RequestID p) (p_SourceEpoch p) (p_SourceGeneration p)]
    /\ MarkRuntimeExited id (p_SourceGeneration p) success reason now3 d1 = (d3, Ok tt)
    /\ driveLifecycle sha256 w4 id d3 = (d4, [])
    /\ driveLifecycle sha256 w5 id d4 = (d5, t5) /\ effects t5 = [CleanFiles id]
    /\ GetLifecycleOutcome (p_Requester p) (p_RequestID p) d5 = Some (receipt p n "")
    /\ d_sessions d5 !! id = None /\ GetPendingLifecycle id d5 = None.
Proof.
  intros Hd Hres Hop Ht Hst Ho Hm Hpo Hkey Hw1 Hw2 Hw4 Hw5 id.
  destruct (Reserve_pending _ _ _ _ _ (reachable_good _ _ Hd) Hres) as (Hp & Hat & [So Sr Sm] & Hgen & _).
  destruct (stop_runtime w1 w2 d0 id s (reserved p now) success reason now3) as (d1 & d3 & n & H1 & (t2 & H2 & E2) & H3 & Hat3 & [So3 Sr3 Sm3]);
    try done; [apply Hp|].
  set (p3 := set_phase _ _ _ _) in Hat3.
  assert (Hp3 : lifecycle_ok p3) by (by do 2 apply phase_lifecycle_ok; apply reserved_lifecycle_ok).
  destruct (drive_clean w4 d3 id _ p3 Hw4 Hat3) as (d4 & n4 & H4 & Hat4 & [So4 Sr4 Sm4]); [done|done|apply Hp|].
  destruct (drive_destroy w5 d4 id _ _ Hw5 Hat4) as (d5 & t5 & n5 & H5 & E5 & Hs5 & Hl5 & Ho5); try done.
  { by apply phase_lifecycle_ok. }
  { simpl. by rewrite Sm4, Sm3, Sm. }
  { unfold GetLifecycleOutcome in *. simpl. by rewrite So4, So3, So. }
  do 7 eexists. split_and!; done.
Qed.

(** ** Who may start an operation *)

Lemma authorised_lifecycle instance rq role principal op d s owner :
  authorizeLifecycleControl instance rq role principal op d = Ok (s, owner) ->
  exists id, ParseSessionID (rq_SessionID rq) = Ok id /\ GetSession id d = Ok s /\ owner = lifecycleOwner role principal
    /\ rq_OwnershipEpoch rq = Some (s_OwnershipEpoch s) /\ rq_RuntimeGeneration rq = Some (s_RuntimeGeneration s).
Proof.
  unfold authorizeLifecycleControl. intros H. repeat case_hyp H; try discriminate. simplify_eq. bool_to_prop.
  eexists. split_and!; try done; congruence.
Qed.

(** A lifecycle operation is started only by the owner of the session (for a shell,
    by a terminal) and with its current fences: whatever other goroutines do meanwhile,
    when the handler answers that the operation has started, the operation is on record
    with the requester, the request id and the fences of the request, and the session
    of that moment belongs to the requester, at the epoch and generation the request
    names. *)
Theorem lifecycle_started_by_owner w instance rq role principal d d' t r :
  reachable sha256 d -> routeSessionLifecycle sha256 w instance rq role principal d = (d', t, RouteStarted r) ->
  t = [] /\ exists id s p, ParseSessionID (rq_SessionID rq) = Ok id
    /\ d_sessions d' !! id = Some s /\ d_lifecycles d' !! id = Some p
    /\ p_Requester p = lifecycleOwner role principal /\ p_RequestID p = rq_ID rq
    /\ owner_matches s (lifecycleOwner role principal) = true
    /\ rq_OwnershipEpoch rq = Some (s_OwnershipEpoch s) /\ rq_RuntimeGeneration rq = Some (p_SourceGeneration p).
Proof.
  intros Hr H. unfold routeSessionLifecycle in H.
  destruct (ParseSessionID (rq_SessionID rq)) as [id|] eqn:Hid; [|discriminate].
  destruct (rq_OwnershipEpoch rq) as [epoch|] eqn:He; [|discriminate].
  destruct (rq_RuntimeGeneration rq) as [generation|] eqn:Hg; [|discriminate].
  destruct (rq_Body rq) as [body|]; [|discriminate]. cbv zeta in H.
  destruct (_ || _); [discriminate|]. set (d0 := between sha256 w 0 d) in *.
  destruct (GetLifecycleOutcome _ _ d0); [by repeat case_hyp H|]. set (d1 := between sha256 w 1 d0) in *.
  destruct (GetPendingLifecycle id d1); [by repeat case_hyp H|]. set (d2 := between sha256 w 2 d1) in *.
  destruct (authorizeLifecycleControl instance rq role principal (lr_Operation body) d2) as [[s owner]|e] eqn:Ha.
  2: { destruct (_ && _); [|discriminate]. unfold replayDestroy in H. by repeat case_hyp H. }
  destruct (authorised_lifecycle _ _ _ _ _ _ _ _ Ha) as (id' & Hid' & Hget & -> & Hep & Hgn). rewrite Hid in Hid'. injection Hid' as <-.
  destruct (_ && _); [discriminate|].
  assert (Hr3 : reachable sha256 (between sha256 w 3 d2)) by (unfold d2, d1, d0; auto 6 using between_reachable).
  destruct (ReserveLifecycle _ _ (between sha256 w 3 d2)) as [d3 [[s3 b]|]] eqn:Hres; [|discriminate].
  injection H as <- <- _. split; [done|].
  destruct (Reserve_row _ _ _ _ _ _ (reachable_good _ _ Hr3) Hres) as (q & Hat & Hq1 & Hq2 & Hq3 & Hq4).
  assert (Hr2 : reachable sha256 d2) by (unfold d2, d1, d0; auto 6 using between_reachable).
  simpl in Hat. apply (get_row sha256) in Hget; [|done].
  rewrite (ro_id _ _ (good_some _ _ _ (reachable_good _ _ Hr2 id) Hget)) in Hat.
  destruct (pending_fences _ _ _ _ Hat) as [[_ Hqe Hqo _] _]. simpl in *.
  exists id, s3, q. split_and!; try done; try apply Hat; [by rewrite <-Hq1|congruence|congruence].
Qed.

End Passes.

End Progress.

(** ** On a concrete execution *)

Module ProgressWitness.
Import Sample.

Definition still : world := mkWorld None None (inl key32) None None clk (fun _ => []).
Lemma still_calm : calm still.
Proof. split; try done; [by exists key32|]. intros n. unfold still, w_now, clk. lia. Qed.

Definition request (operation : string) : PendingLifecycle :=
  mkLifecycle sid operation LifecycleImmediate alice 1 1 "q1" "" 0 0 0 "".
Definition asked (operation : string) : db := fst (ReserveLifecycle (request operation) 3000 d_created).

Lemma end_completes_witness :
  exists d4 n, GetLifecycleOutcome alice "q1" d4 = Some (receipt (request LifecycleEnd) n "")
    /\ d_sessions d4 !! sid = Some (stopped_row true "done" 3500 session).
Proof.
  destruct (end_completes digest still still still d_created (asked LifecycleEnd) (request LifecycleEnd) session 3000 true "done" 3500)
    as (_ & _ & _ & d4 & n & _ & _ & _ & _ & _ & Ho & _ & Hs).
  - exact created_reachable.
  - vm_compute. reflexivity.
  - reflexivity.
  - reflexivity.
  - vm_compute. reflexivity.
  - vm_compute. reflexivity.
  - exact still_calm.
  - exact still_calm.
  - exact still_calm.
  - exists d4, n. split; [exact Ho|exact Hs].
Defined.

Lemma restart_completes_witness :
  exists d6 s6, d_sessions d6 !! sid = Some s6 /\ s_Status s6 = StatusRunning /\ s_RuntimeGeneration s6 = 2%Z.
Proof.
  destruct (restart_completes digest still still still still d_created (asked LifecycleRestart) (request LifecycleRestart)
    session 3000 true "" 3500 3600) as (_ & _ & _ & _ & _ & _ & d6 & _ & s6 & _ & _ & _ & _ & _ & _ & _ & _ & _ & _ & Hs & Hst & Hg & _).
  - exact created_reachable.
  - vm_compute. reflexivity.
  - reflexivity.
  - reflexivity.
  - reflexivity.
  - vm_compute. reflexivity.
  - vm_compute. reflexivity.
  - exact still_calm.
  - exact still_calm.
  - exact still_calm.
  - exact still_calm.
  - exists d6, s6. split; [exact Hs|]. split; [exact Hst|exact Hg].
Defined.

Lemma destroy_completes_witness :
  exists d5 n, d_sessions d5 !! sid = None /\ GetLifecycleOutcome alice "q1" d5 = Some (receipt (request LifecycleDestroy) n "").
Proof.
  destruct (destroy_completes digest still still still still d_created (asked LifecycleDestroy) (request LifecycleDestroy)
    session 3000 true "" 3500) as (_ & _ & _ & _ & d5 & _ & n & _ & _ & _ & _ & _ & _ & _ & Ho & Hs & _).
  - exact created_reachable.
  - vm_compute. reflexivity.
  - reflexivity.
  - reflexivity.
  - reflexivity.
  - vm_compute. reflexivity.
  - vm_compute. reflexivity.
  - vm_compute. reflexivity.
  - vm_compute. reflexivity.
  - exact still_calm.
  - exact still_calm.
  - exact still_calm.
  - exact still_calm.
  - exists d5, n. split; [exact Hs|exact Ho].
Defined.

Definition started_rq : lifecycle_request :=
  mkRequest "q1" "inst" sid (Some 1%Z) (Some 1%Z) (Some (mkLifecycleRequest LifecycleEnd LifecycleImmediate)).

Definition started : db * trace * route_response :=
  routeSessionLifecycle digest still "inst" started_rq RoleDucklord "alice" d_created.

Lemma lifecycle_started_by_owner_witness :
  exists s, owner_matches s alice = true /\ Some 1%Z = Some (s_OwnershipEpoch s).
Proof.
  destruct (lifecycle_started_by_owner digest still "inst" started_rq RoleDucklord "alice" d_created (fst (fst started)) []
    (mkLifecycleResult sid LifecycleEnd LifecycleImmediate LifecycleWaiting 1 1)) as (_ & id & s & p & _ & _ & _ & _ & _ & Ho & He & _).
  - exact created_reachable.
  - vm_compute. reflexivity.
  - exists s. split; [exact Ho|exact He].
Defined.

(** The service cannot read an owner back whose channel starts with [terminal:], so
    the destroy of its stopped session is refused. *)
Example terminal_prefixed_channel :
  principal_owner (principalFor (mkOwner OwnerCC "terminal:x")) = mkOwner OwnerCC "x".
Proof. vm_compute. reflexivity. Qed.

End ProgressWitness.
