(* ===== verification/InputPump.v ===== *)
(** * Terminal input: [runtime/input.go] and the input gate of [supervisor/session.go]

    Input for a session goes through a pump: [Submit] reserves a frame at the gate,
    puts it on a queue and waits; one worker goroutine takes the frames, validates
    them again and writes them to the PTY.  The gate is the class [InputGate], and
    the supervisor's session is its instance.

    [pump] is the state of one pump with all its goroutines: each call of [Submit]
    and the worker have a program point, and [act] is one atomic step of one of them.
    A channel operation, a load or store of [closed] and a critical section of the
    gate are one step each.  The fields [p_live], [p_completed], [p_accepted] and
    [p_pty] are history. *)

From S2P Require Import Prelude Session.
Local Open Scope nat_scope.

Record InputFrame := mkInput {
  if_Sequence : Z;
  if_Principal : string;
  if_Owner : Owner;
  if_OwnershipEpoch : Z;
  if_RuntimeGeneration : Z;
  if_Data : string;
}.

(** The errors a [Submit] can return. *)
Inductive input_error :=
| ErrInputPumpClosed
| ContextError (e : string)
| SupervisorClosed
| InputStaleGeneration
| InputStaleEpoch
| ErrInputIndeterminate
| ErrInputSequence
| WriteError (e : string)
| ErrShortWrite
| PartialWriteError (written : nat) (e : string).

(** ** The gate *)

Class InputGate (G : Type) := {
  gate_op : Type;
  gate_run : gate_op -> G -> G;
  ReserveInput : InputFrame -> G -> G * option input_error;
  ValidateInput : InputFrame -> G -> option input_error;
  CompleteInput : InputFrame -> option input_error -> G -> G;
}.

(** What the pump needs of a gate: it counts the frames that are reserved and not
    completed, and while there are any, what was current at their reservation stays so. *)
Class InputGateLaws (G : Type) `{InputGate G} := {
  outstanding : G -> nat;
  current : InputFrame -> G -> Prop;
  reserve_ok : forall f g g', ReserveInput f g = (g', None) ->
    outstanding g' = S (outstanding g) /\ current f g' /\ forall f', current f' g -> current f' g';
  reserve_refused : forall f g g' e, ReserveInput f g = (g', Some e) -> g' = g;
  reserve_error : forall f g g' e, ReserveInput f g = (g', Some e) ->
    match e with PartialWriteError _ _ | ErrShortWrite => False | _ => True end;
  validate_error : forall f g e, ValidateInput f g = Some e ->
    match e with PartialWriteError _ _ | ErrShortWrite => False | _ => True end;
  complete_count : forall f r g, outstanding (CompleteInput f r g) = pred (outstanding g);
  complete_current : forall f r g f', current f' g -> current f' (CompleteInput f r g);
  gate_count : forall o g, outstanding (gate_run o g) = outstanding g;
  gate_current : forall o g f, outstanding g <> 0 -> current f g -> current f (gate_run o g);
}.

(** ** Program points *)

(** A call of [Submit]: before it loads [closed], before its [select], before the
    [CompleteInput] of a failed attempt, waiting for its result, and returned. *)
Inductive submit_pc :=
| SReserved
| SSelecting
| SAborting (e : input_error)
| SWaiting
| SReturned (r : option input_error).

(** The worker; [draining] after it has seen [done]. *)
Inductive worker_pc :=
| WIdle
| WGot (i : nat)
| WValidating (i : nat)
| WWriting (i : nat) (rest : string) (written : nat)
| WDone (i : nat) (r : option input_error) (draining : bool)
| WSending (i : nat) (r : option input_error) (draining : bool)
| WDraining
| WExited.

Record pump (G : Type) := mkPump {
  p_gate : G;
  p_closed : bool;
  p_done : bool;
  p_cap : nat;
  p_queue : list nat;
  p_worker : worker_pc;
  p_submits : gmap nat (InputFrame * submit_pc);
  p_results : gmap nat (option input_error);   (* the result channels *)
  p_live : gset nat;
  p_completed : list nat;
  p_accepted : list nat;
  p_pty : list (nat * string);
  p_answers : gmap nat (nat * option string);   (* the last answer of the writer to each request *)
}.
Arguments mkPump {G}.
Arguments p_gate {G}. Arguments p_closed {G}. Arguments p_done {G}. Arguments p_cap {G}.
Arguments p_queue {G}. Arguments p_worker {G}. Arguments p_submits {G}. Arguments p_results {G}.
Arguments p_live {G}. Arguments p_completed {G}. Arguments p_accepted {G}. Arguments p_pty {G}. Arguments p_answers {G}.

Definition NewInputPump {G} (gate : G) (queueSize : Z) : pump G :=
  mkPump gate false false (if (queueSize <=? 0)%Z then 64 else Z.to_nat queueSize) [] WIdle ∅ ∅ ∅ [] [] [] ∅.

Inductive action (O : Type) :=
| ASubmit (i : nat) (frame : InputFrame)
| ALoad (i : nat)
| ASend (i : nat)
| ASeeDone (i : nat)
| AContext (i : nat) (e : string)
| AAbort (i : nat)
| AReceive (i : nat)
| ACloseFlag
| ACloseDone
| AGate (o : O)
| WTake
| WSeeDone
| WLoad
| WValidate
| WWrite (n : nat) (err : option string)
| WFinish
| WComplete
| WReply
| WExit.
Arguments ASubmit {O}. Arguments ALoad {O}. Arguments ASend {O}. Arguments ASeeDone {O}.
Arguments AContext {O}. Arguments AAbort {O}. Arguments AReceive {O}. Arguments ACloseFlag {O}.
Arguments ACloseDone {O}. Arguments AGate {O}. Arguments WTake {O}. Arguments WSeeDone {O}. Arguments WLoad {O}.
Arguments WValidate {O}. Arguments WWrite {O}. Arguments WFinish {O}. Arguments WComplete {O}.
Arguments WReply {O}. Arguments WExit {O}.

(** ** One step *)

Section Pump.
Context {G : Type} `{GI : InputGate G} `{GL : !InputGateLaws G}.
Implicit Types w : pump G.

Definition set_submit (i : nat) (f : InputFrame) (pc : submit_pc) w : pump G :=
  mkPump (p_gate w) (p_closed w) (p_done w) (p_cap w) (p_queue w) (p_worker w) (<[i := (f, pc)]> (p_submits w))
    (p_results w) (p_live w) (p_completed w) (p_accepted w) (p_pty w) (p_answers w).
Definition set_worker (pc : worker_pc) w : pump G :=
  mkPump (p_gate w) (p_closed w) (p_done w) (p_cap w) (p_queue w) pc (p_submits w)
    (p_results w) (p_live w) (p_completed w) (p_accepted w) (p_pty w) (p_answers w).
Definition set_gate (g : G) w : pump G :=
  mkPump g (p_closed w) (p_done w) (p_cap w) (p_queue w) (p_worker w) (p_submits w)
    (p_results w) (p_live w) (p_completed w) (p_accepted w) (p_pty w) (p_answers w).

Definition Reserve (i : nat) (f : InputFrame) (g : G) w : pump G :=
  mkPump g (p_closed w) (p_done w) (p_cap w) (p_queue w) (p_worker w) (<[i := (f, SReserved)]> (p_submits w))
    (p_results w) ({[i]} ∪ p_live w) (p_completed w) (p_accepted w) (p_pty w) (p_answers w).
Definition Complete (i : nat) (f : InputFrame) (r : option input_error) w : pump G :=
  mkPump (CompleteInput f r (p_gate w)) (p_closed w) (p_done w) (p_cap w) (p_queue w) (p_worker w) (p_submits w)
    (p_results w) (p_live w ∖ {[i]}) (p_completed w ++ [i]) (p_accepted w) (p_pty w) (p_answers w).

(** What [Submit] does, up to its reservation. *)
Definition Submit (i : nat) (f : InputFrame) w : option (pump G) :=
  match p_submits w !! i with
  | Some _ => None
  | None =>
      if slen (if_Data f) =? 0 then Some (set_submit i f (SReturned None) w) else
      match ReserveInput f (p_gate w) with
      | (g, Some e) => Some (set_submit i f (SReturned (Some e)) (set_gate g w))
      | (g, None) => Some (Reserve i f g w)
      end
  end.

(** The rest of [Submit], from program point [pc]. *)
Definition submit_step (a : action gate_op) (i : nat) (f : InputFrame) (pc : submit_pc) w : option (pump G) :=
  match pc, a with
  | SReserved, ALoad _ =>
      Some (set_submit i f (if p_closed w then SAborting ErrInputPumpClosed else SSelecting) w)
  | SSelecting, ASend _ =>
      if length (p_queue w) <? p_cap w then
        Some (mkPump (p_gate w) (p_closed w) (p_done w) (p_cap w) (p_queue w ++ [i]) (p_worker w)
                (<[i := (f, SWaiting)]> (p_submits w)) (p_results w) (p_live w) (p_completed w)
                (p_accepted w ++ [i]) (p_pty w) (p_answers w))
      else None
  | SSelecting, ASeeDone _ => if p_done w then Some (set_submit i f (SAborting ErrInputPumpClosed) w) else None
  | SSelecting, AContext _ e => Some (set_submit i f (SAborting (ContextError e)) w)
  | SAborting e, AAbort _ => Some (set_submit i f (SReturned (Some e)) (Complete i f (Some e) w))
  | SWaiting, AReceive _ =>
      match p_results w !! i with
      | Some r =>
          Some (mkPump (p_gate w) (p_closed w) (p_done w) (p_cap w) (p_queue w) (p_worker w)
                  (<[i := (f, SReturned r)]> (p_submits w)) (delete i (p_results w)) (p_live w) (p_completed w)
                  (p_accepted w) (p_pty w) (p_answers w))
      | None => None
      end
  | _, _ => None
  end.

(** The worker takes the first request. *)
Definition take_request (draining : bool) w : option (pump G) :=
  match p_queue w with
  | [] => None
  | i :: q =>
      Some (mkPump (p_gate w) (p_closed w) (p_done w) (p_cap w) q
              (if draining then WDone i (Some ErrInputPumpClosed) true else WGot i) (p_submits w)
              (p_results w) (p_live w) (p_completed w) (p_accepted w) (p_pty w) (p_answers w))
  end.

(** One call of [Write] in the loop of [writeFull]: the writer takes [n] bytes. *)
Definition writeFull_step (i : nat) (rest : string) (written n : nat) (err : option string) : worker_pc :=
  let written' := written + n in
  match err with
  | Some e => WDone i (Some (if written' =? 0 then WriteError e else PartialWriteError written' e)) false
  | None => if n =? 0 then WDone i (Some ErrShortWrite) false else WWriting i (str_drop n rest) written'
  end.

Definition log_write (i : nat) (chunk : string) (answer : nat * option string) w : pump G :=
  mkPump (p_gate w) (p_closed w) (p_done w) (p_cap w) (p_queue w) (p_worker w) (p_submits w)
    (p_results w) (p_live w) (p_completed w) (p_accepted w)
    (if slen chunk =? 0 then p_pty w else p_pty w ++ [(i, chunk)]) (<[i := answer]> (p_answers w)).

Definition reply (i : nat) (r : option input_error) (draining : bool) w : pump G :=
  mkPump (p_gate w) (p_closed w) (p_done w) (p_cap w) (p_queue w) (if draining then WDraining else WIdle)
    (p_submits w) (<[i := r]> (p_results w)) (p_live w) (p_completed w) (p_accepted w) (p_pty w) (p_answers w).

Definition run_step (a : action gate_op) w : option (pump G) :=
  match p_worker w, a with
  | WIdle, WTake => take_request false w
  | WIdle, WSeeDone => if p_done w then Some (set_worker WDraining w) else None
  | WGot i, WLoad =>
      Some (set_worker (if p_closed w then WDone i (Some ErrInputPumpClosed) false else WValidating i) w)
  | WValidating i, WValidate =>
      match p_submits w !! i with
      | Some (f, _) =>
          Some (set_worker (match ValidateInput f (p_gate w) with
                            | Some e => WDone i (Some e) false
                            | None => WWriting i (if_Data f) 0
                            end) w)
      | None => None
      end
  | WWriting i rest written, WWrite n err =>
      if (slen rest =? 0) || (slen rest <? n) then None
      else Some (set_worker (writeFull_step i rest written n err) (log_write i (str_take n rest) (n, err) w))
  | WWriting i rest written, WFinish => if slen rest =? 0 then Some (set_worker (WDone i None false) w) else None
  | WDone i r draining, WComplete =>
      match p_submits w !! i with
      | Some (f, _) => Some (set_worker (WSending i r draining) (Complete i f r w))
      | None => None
      end
  | WSending i r draining, WReply => Some (reply i r draining w)
  | WDraining, WTake => take_request true w
  | WDraining, WExit => match p_queue w with [] => Some (set_worker WExited w) | _ => None end
  | _, _ => None
  end.

Definition act (a : action gate_op) w : option (pump G) :=
  match a with
  | ASubmit i f => Submit i f w
  | ALoad i | ASend i | ASeeDone i | AContext i _ | AAbort i | AReceive i =>
      match p_submits w !! i with Some (f, pc) => submit_step a i f pc w | None => None end
  | ACloseFlag =>
      if p_closed w then None
      else Some (mkPump (p_gate w) true (p_done w) (p_cap w) (p_queue w) (p_worker w) (p_submits w)
                   (p_results w) (p_live w) (p_completed w) (p_accepted w) (p_pty w) (p_answers w))
  | ACloseDone =>
      if p_closed w && negb (p_done w)
      then Some (mkPump (p_gate w) (p_closed w) true (p_cap w) (p_queue w) (p_worker w) (p_submits w)
                   (p_results w) (p_live w) (p_completed w) (p_accepted w) (p_pty w) (p_answers w))
      else None
  | AGate o => Some (set_gate (gate_run o (p_gate w)) w)
  | _ => run_step a w
  end.

Fixpoint acts (l : list (action gate_op)) w : option (pump G) :=
  match l with
  | [] => Some w
  | a :: l' => match act a w with Some w' => acts l' w' | None => None end
  end.

Definition started (w : pump G) : Prop := exists gate size l, outstanding gate = 0 /\ acts l (NewInputPump gate size) = Some w.

(** ** Where a request is *)

Fixpoint occ (i : nat) (l : list nat) : nat :=
  match l with [] => 0 | j :: l' => (if decide (i = j) then 1 else 0) + occ i l' end.

Lemma occ_app (i : nat) (l l' : list nat) : occ i (l ++ l') = occ i l + occ i l'.
Proof. induction l as [|j l IH]; simpl; [done|]. rewrite IH. lia. Qed.

Fixpoint bytes_of (i : nat) (log : list (nat * string)) : string :=
  match log with [] => "" | (j, c) :: log' => (if decide (i = j) then c else "") +:+ bytes_of i log' end.

Lemma bytes_of_app (i : nat) (l l' : list (nat * string)) : bytes_of i (l ++ l') = bytes_of i l +:+ bytes_of i l'.
Proof. induction l as [|[j c] l IH]; simpl; [done|]. by rewrite IH, str_app_assoc. Qed.

Definition worker_at (pc : worker_pc) : option nat :=
  match pc with
  | WGot i | WValidating i | WWriting i _ _ | WDone i _ _ | WSending i _ _ => Some i
  | _ => None
  end.

(** What the result of a [Submit] says about the bytes of its frame on the PTY, and
    about the last answer of the writer.  [ErrShortWrite] is only ever the report of a
    writer that took nothing and gave no error. *)
Definition outcome (r : option input_error) (f : InputFrame) (written : string) (answer : option (nat * option string)) : Prop :=
  match r with
  | None => written = if_Data f
  | Some (PartialWriteError n e) =>
      0 < n <= slen (if_Data f) /\ written = str_take n (if_Data f) /\ exists k, answer = Some (k, Some e)
  | Some ErrShortWrite => answer = Some (0, None) /\ exists n, n < slen (if_Data f) /\ written = str_take n (if_Data f)
  | Some (WriteError e) => written = "" /\ (answer = None \/ answer = Some (0, Some e))
  | Some _ => written = ""
  end.

(** The part of the state that is about one request. *)
Record view := mkView {
  v_submit : option (InputFrame * submit_pc);
  v_queued : nat;
  v_worker : option worker_pc;
  v_result : option (option input_error);
  v_live : bool;
  v_done : nat;
  v_bytes : string;
  v_answer : option (nat * option string);
  v_accepted : nat;
}.

Definition working (i : nat) (pc : worker_pc) : option worker_pc :=
  if bool_decide (worker_at pc = Some i) then Some pc else None.

Definition view_of w (i : nat) : view :=
  mkView (p_submits w !! i) (occ i (p_queue w)) (working i (p_worker w)) (p_results w !! i)
    (bool_decide (i ∈ p_live w)) (occ i (p_completed w)) (bytes_of i (p_pty w)) (p_answers w !! i) (occ i (p_accepted w)).

Definition early (e : input_error) : Prop := match e with ErrInputPumpClosed | ContextError _ => True | _ => False end.

Inductive good_worker (f : InputFrame) : worker_pc -> bool -> nat -> string -> option (nat * option string) -> Prop :=
| GW_got i : good_worker f (WGot i) true 0 "" None
| GW_validating i : good_worker f (WValidating i) true 0 "" None
| GW_writing i rest b ans : b +:+ rest = if_Data f -> good_worker f (WWriting i rest (slen b)) true 0 b ans
| GW_done i r draining b ans : outcome r f b ans -> good_worker f (WDone i r draining) true 0 b ans
| GW_sending i r draining b ans : outcome r f b ans -> good_worker f (WSending i r draining) false 1 b ans.

Inductive good_view : view -> Prop :=
| GV_absent : good_view (mkView None 0 None None false 0 "" None 0)
| GV_refused f r : outcome r f "" None -> good_view (mkView (Some (f, SReturned r)) 0 None None false 0 "" None 0)
| GV_reserved f : good_view (mkView (Some (f, SReserved)) 0 None None true 0 "" None 0)
| GV_selecting f : good_view (mkView (Some (f, SSelecting)) 0 None None true 0 "" None 0)
| GV_aborting f e : early e -> good_view (mkView (Some (f, SAborting e)) 0 None None true 0 "" None 0)
| GV_queued f : good_view (mkView (Some (f, SWaiting)) 1 None None true 0 "" None 1)
| GV_worker f pc live done b ans : good_worker f pc live done b ans ->
    good_view (mkView (Some (f, SWaiting)) 0 (Some pc) None live done b ans 1)
| GV_answered f r b ans : outcome r f b ans -> good_view (mkView (Some (f, SWaiting)) 0 None (Some r) false 1 b ans 1)
| GV_returned f r b ans a : outcome r f b ans -> a <= 1 ->
    good_view (mkView (Some (f, SReturned r)) 0 None None false 1 b ans a).

Definition good w : Prop := forall i, good_view (view_of w i).

(** The reading of a [good] state at one request. *)
Lemma good_at w i : good w -> good_view (view_of w i).
Proof. intros Hw. apply Hw. Qed.

Lemma working_none i j pc : worker_at pc = Some i -> i <> j -> working j pc = None.
Proof. intros H Hij. unfold working. rewrite H. rewrite bool_decide_eq_false_2; [done|]. congruence. Qed.
Lemma working_some i pc : worker_at pc = Some i -> working i pc = Some pc.
Proof. intros H. unfold working. by rewrite bool_decide_eq_true_2. Qed.
Lemma working_away i pc : worker_at pc = None -> working i pc = None.
Proof. intros H. unfold working. by rewrite H. Qed.

End Pump.

(** The equations of the case a request is in. *)
Ltac look Hw i :=
  let Hv := fresh "Hv" in let v := fresh "v" in let Ev := fresh "Ev" in
  pose proof (Hw i) as Hv; remember (view_of _ i) as v eqn:Ev in Hv; destruct Hv; symmetry in Ev; unfold view_of in Ev;
  injection Ev as ? ? ? ? ? ? ? ? ?.

Section Steps.
Context {G : Type} `{GI : InputGate G} `{GL : !InputGateLaws G}.
Implicit Types w : pump G.

(** ** Every step keeps the state good *)

Lemma good_update w w' i :
  good w -> (forall j, j <> i -> view_of w' j = view_of w j) -> good_view (view_of w' i) -> good w'.
Proof. intros Hw Hf Hi j. destruct (decide (j = i)) as [->|Hj]; [done|]. rewrite Hf by done. apply Hw. Qed.

Lemma occ_other i j : j <> i -> occ j [i] = 0.
Proof. intros Hj. simpl. by rewrite decide_False. Qed.
Lemma occ_self i : occ i [i] = 1.
Proof. simpl. by rewrite decide_True. Qed.
Lemma live_add (i j : nat) (l : gset nat) : j <> i -> bool_decide (j ∈ {[i]} ∪ l) = bool_decide (j ∈ l).
Proof. intros Hj. apply bool_decide_ext. set_solver. Qed.
Lemma live_remove (i j : nat) (l : gset nat) : j <> i -> bool_decide (j ∈ l ∖ {[i]}) = bool_decide (j ∈ l).
Proof. intros Hj. apply bool_decide_ext. set_solver. Qed.
Lemma bytes_other i j c : j <> i -> bytes_of j [(i, c)] = "".
Proof. intros Hj. simpl. by rewrite decide_False. Qed.
Lemma bytes_self i c : bytes_of i [(i, c)] = c.
Proof. simpl. rewrite decide_True by done. apply str_app_nil_r. Qed.

(** The view of another request is the same. *)
Ltac frame :=
  let j := fresh "j" in let Hj := fresh "Hj" in
  intros j Hj; unfold view_of, set_submit, set_worker, set_gate, Reserve, Complete, reply, log_write; simpl;
  rewrite ?lookup_insert_ne, ?lookup_delete_ne, ?occ_app, ?occ_other, ?live_add, ?live_remove by congruence;
  rewrite ?Nat.add_0_r; try reflexivity.

(** The view of the request itself, from the equations. *)
Ltac here :=
  unfold view_of, set_submit, set_worker, set_gate, Reserve, Complete, reply; simpl;
  rewrite ?lookup_insert_eq, ?lookup_delete_eq, ?occ_app, ?occ_self;
  repeat match goal with E : _ = _ |- _ => progress rewrite E end; simpl.

Lemma live_in (i : nat) (l : gset nat) : bool_decide (i ∈ {[i]} ∪ l) = true.
Proof. apply bool_decide_eq_true_2. set_solver. Qed.
Lemma live_out (i : nat) (l : gset nat) : bool_decide (i ∈ l ∖ {[i]}) = false.
Proof. apply bool_decide_eq_false_2. set_solver. Qed.

Lemma reserve_outcome f g g' e : ReserveInput f g = (g', Some e) -> outcome (Some e) f "" None.
Proof. intros He. apply reserve_error in He. destruct e; simpl; auto; done. Qed.
Lemma validate_outcome f g e : ValidateInput f g = Some e -> outcome (Some e) f "" None.
Proof. intros He. apply validate_error in He. destruct e; simpl; auto; done. Qed.
Lemma early_outcome e f : early e -> outcome (Some e) f "" None.
Proof. by destruct e. Qed.

Lemma good_Submit w w' i f : good w -> Submit i f w = Some w' -> good w'.
Proof.
  intros Hw H. unfold Submit in H. destruct (p_submits w !! i) eqn:Hi; [discriminate|].
  look Hw i; try congruence. destruct (slen (if_Data f) =? 0) eqn:Hd.
  { injection H as <-. apply (good_update w _ i Hw); [frame|]. here. constructor.
    apply Nat.eqb_eq, slen_0_inv in Hd. simpl. by rewrite Hd. }
  destruct (ReserveInput f (p_gate w)) as [g [e|]] eqn:Hr; injection H as <-; (apply (good_update w _ i Hw); [frame|]); here.
  - constructor. by eapply reserve_outcome.
  - rewrite live_in. constructor.
Qed.

Lemma good_submit_step a w w' i f pc :
  good w -> p_submits w !! i = Some (f, pc) -> submit_step a i f pc w = Some w' -> good w'.
Proof.
  intros Hw Hi H. look Hw i; try congruence; rewrite Hi in *; simplify_eq; destruct a; try discriminate; simpl in H;
    repeat case_hyp H; try discriminate; simplify_eq; (apply (good_update w _ i Hw); [frame|]); here;
    rewrite ?live_in, ?live_out; constructor; first [done|lia|by apply early_outcome].
Qed.

Ltac back :=
  repeat match goal with E : _ = bool_decide _ |- _ => rewrite <- E | E : _ = occ _ _ |- _ => rewrite <- E end.

(** The worker. *)
Lemma good_take draining w w' :
  good w -> worker_at (p_worker w) = None -> take_request draining w = Some w' -> good w'.
Proof.
  intros Hw Hk H. unfold take_request in H. destruct (p_queue w) as [|i q] eqn:Hq; [discriminate|]. injection H as <-.
  apply (good_update w _ i Hw).
  - intros j Hj. unfold view_of. simpl. rewrite Hq. simpl. rewrite decide_False by done. simpl.
    rewrite (working_away _ (p_worker w)) by done. by rewrite (working_none i) by (by destruct draining).
  - look Hw i; rewrite Hq in *; simpl in *; rewrite decide_True in * by done; try lia. simplify_eq.
    here. replace (occ i q) with 0 by lia. rewrite working_some by (by destruct draining). constructor. destruct draining; constructor. done.
Qed.

(** A step of the worker at request [i], which only changes what it does there. *)
Lemma good_worker_step w w' i pc :
  good w -> p_worker w = pc -> worker_at pc = Some i -> worker_at (p_worker w') = Some i ->
  p_submits w' = p_submits w -> p_queue w' = p_queue w -> p_results w' = p_results w -> p_accepted w' = p_accepted w ->
  (forall j, j <> i -> bool_decide (j ∈ p_live w') = bool_decide (j ∈ p_live w)) ->
  (forall j, j <> i -> occ j (p_completed w') = occ j (p_completed w)) ->
  (forall j, j <> i -> bytes_of j (p_pty w') = bytes_of j (p_pty w)) ->
  (forall j, j <> i -> p_answers w' !! j = p_answers w !! j) ->
  (forall f, good_worker f pc (bool_decide (i ∈ p_live w)) (occ i (p_completed w)) (bytes_of i (p_pty w)) (p_answers w !! i) ->
     p_submits w !! i = Some (f, SWaiting) ->
     good_worker f (p_worker w') (bool_decide (i ∈ p_live w')) (occ i (p_completed w')) (bytes_of i (p_pty w')) (p_answers w' !! i)) ->
  good w'.
Proof.
  intros Hw Hpc Hat Hat' Hs Hq Hr Ha Hl Hc Hb Hn Hi. apply (good_update w _ i Hw).
  - intros j Hj. unfold view_of. rewrite Hs, Hq, Hr, Ha, Hl, Hc, Hb, Hn, Hpc, !(working_none i) by done. done.
  - look Hw i; rewrite Hpc, (working_some i) in * by done; try discriminate. simplify_eq.
    unfold view_of. rewrite Hs, Hq, Hr, Ha, (working_some i) by done.
    repeat match goal with E : _ = _ |- _ => progress rewrite E end. constructor. apply Hi; [|done].
    match goal with G : good_worker _ _ _ _ _ _ |- _ => exact G end.
Qed.


Lemma writing_step i rest b n err f :
  b +:+ rest = if_Data f -> slen rest <> 0 -> n <= slen rest ->
  good_worker f (writeFull_step i rest (slen b) n err) true 0 (b +:+ str_take n rest) (Some (n, err)).
Proof.
  intros Hb Hr Hn. assert (Hlen : slen (b +:+ str_take n rest) = slen b + n) by (rewrite slen_app, slen_take; lia).
  assert (Hpre : b +:+ str_take n rest = str_take (slen b + n) (if_Data f)).
  { rewrite <- Hlen, <- Hb. replace (b +:+ rest) with ((b +:+ str_take n rest) +:+ str_drop n rest); [by rewrite str_take_app|].
    by rewrite <- str_app_assoc, str_take_drop. }
  assert (Hd : slen b + n <= slen (if_Data f)) by (rewrite <- Hb, slen_app; lia).
  unfold writeFull_step. destruct err as [e|]; [|destruct (n =? 0) eqn:Hz].
  - constructor. destruct (slen b + n =? 0) eqn:Hz; simpl.
    + apply Nat.eqb_eq in Hz. split; [apply slen_0_inv; lia|]. right. by replace n with 0 by lia.
    + apply Nat.eqb_neq in Hz. split; [lia|]. eauto.
  - apply Nat.eqb_eq in Hz. subst n. constructor. simpl. split; [done|]. exists (slen b + 0). split; [|done].
    rewrite <- Hb, slen_app. lia.
  - rewrite <- Hlen. constructor. by rewrite <- str_app_assoc, str_take_drop.
Qed.

Lemma bytes_log i w c ans :
  bytes_of i (p_pty (log_write i c ans w)) = bytes_of i (p_pty w) +:+ c.
Proof.
  unfold log_write. simpl. destruct (slen c =? 0) eqn:Hc.
  - apply Nat.eqb_eq, slen_0_inv in Hc. by rewrite Hc, str_app_nil_r.
  - by rewrite bytes_of_app, bytes_self.
Qed.
Lemma bytes_log_other i j w c ans : j <> i -> bytes_of j (p_pty (log_write i c ans w)) = bytes_of j (p_pty w).
Proof.
  intros Hj. unfold log_write. simpl. destruct (slen c =? 0); [done|]. by rewrite bytes_of_app, bytes_other, str_app_nil_r.
Qed.

Lemma writeFull_at i rest written n err : worker_at (writeFull_step i rest written n err) = Some i.
Proof. unfold writeFull_step. by repeat case_match. Qed.

Lemma good_run_step a w w' : good w -> run_step a w = Some w' -> good w'.
Proof.
  intros Hw H. unfold run_step in H. destruct (p_worker w) as [|i|i|i rest wr|i r dr|i r dr| |] eqn:Hpc; destruct a; try discriminate.
  - eapply good_take; [exact Hw|by rewrite Hpc|exact H].
  - destruct (p_done w); [|discriminate]. injection H as <-. intros j. pose proof (Hw j) as Hv. unfold view_of in *. simpl.
    by rewrite Hpc in Hv.
  - injection H as <-. eapply (good_worker_step w _ i _ Hw Hpc); simpl; try done; [by destruct (p_closed w)|].
    intros f Hg _. inversion Hg. destruct (p_closed w); by constructor.
  - destruct (p_submits w !! i) as [[f pc]|] eqn:Hi; [|discriminate]. injection H as <-.
    eapply (good_worker_step w _ i _ Hw Hpc); simpl; try done; [by destruct (ValidateInput f (p_gate w))|].
    intros f' Hg Hs. rewrite Hi in Hs. simplify_eq. inversion Hg.
    destruct (ValidateInput f' (p_gate w)) eqn:Hval; [constructor; by eapply validate_outcome|]. by constructor 3 with (b := "").
  - destruct (_ || _) eqn:Hb; [discriminate|]. injection H as <-. apply orb_false_iff in Hb. destruct Hb as [Hz Hn].
    eapply (good_worker_step w _ i _ Hw Hpc); try done; [apply writeFull_at|intros j Hj; by apply bytes_log_other|intros j Hj; by apply lookup_insert_ne|].
    intros f Hg Hs. inversion Hg; subst. change (p_pty (set_worker _ _)) with (p_pty (log_write i (str_take n rest) (n, err) w)). rewrite bytes_log. simpl.
    rewrite lookup_insert_eq. back. apply Nat.ltb_ge in Hn. apply Nat.eqb_neq in Hz. apply writing_step; done.
  - destruct (slen rest =? 0) eqn:Hz; [|discriminate]. injection H as <-. apply Nat.eqb_eq, slen_0_inv in Hz. subst rest.
    eapply (good_worker_step w _ i _ Hw Hpc); simpl; try done. intros f Hg Hs. inversion Hg; subst.
    constructor. simpl. match goal with E : _ = if_Data f |- _ => by rewrite str_app_nil_r in E end.
  - destruct (p_submits w !! i) as [[f pc]|] eqn:Hi; [|discriminate]. injection H as <-.
    eapply (good_worker_step w _ i _ Hw Hpc); simpl; try done.
    + intros j Hj. by apply live_remove.
    + intros j Hj. rewrite occ_app, occ_other by done. lia.
    + intros f' Hg Hs. rewrite Hi in Hs. simplify_eq. inversion Hg as [| | |? ? ? ? ? Ho|]; subst. rewrite live_out, occ_app, occ_self.
      replace (occ i (p_completed w)) with 0 by congruence. by constructor.
  - injection H as <-. apply (good_update w _ i Hw).
    + intros j Hj. unfold view_of. simpl. rewrite lookup_insert_ne by congruence. rewrite Hpc, (working_none i j (WSending i r dr)) by done.
      by rewrite working_away by (by destruct dr).
    + look Hw i; rewrite Hpc, (working_some i) in * by done; try discriminate. simplify_eq.
      match goal with K : good_worker _ _ _ _ _ _ |- _ => inversion K; subst end.
      here. rewrite working_away by (by destruct dr). back. by constructor.
  - eapply good_take; [exact Hw|by rewrite Hpc|exact H].
  - destruct (p_queue w) eqn:Hq; [|discriminate]. injection H as <-. intros j. pose proof (Hw j) as Hv. unfold view_of in *.
    simpl. by rewrite Hpc in Hv.
Qed.

Lemma good_act a w w' : good w -> act a w = Some w' -> good w'.
Proof.
  intros Hw H. destruct a; simpl in H; try (by eapply good_run_step); [by eapply good_Submit| | | | | | |..];
    try (destruct (p_submits w !! i) as [[f pc]|] eqn:Hi; [|discriminate]; by eapply good_submit_step);
    repeat case_hyp H; try discriminate; injection H as <-; exact Hw.
Qed.

Lemma good_acts l w w' : good w -> acts l w = Some w' -> good w'.
Proof.
  revert w. induction l as [|a l IH]; simpl; intros w Hw H; [by injection H as <-|].
  destruct (act a w) as [w1|] eqn:Ha; [|discriminate]. eapply IH; [by eapply good_act|exact H].
Qed.

Lemma good_new (gate : G) size : good (NewInputPump gate size).
Proof. intros i. unfold view_of. simpl. rewrite !lookup_empty. constructor. Qed.

Lemma good_started w : started w -> good w.
Proof. intros (g & n & l & _ & H). eapply good_acts; [apply good_new|exact H]. Qed.

(** ** The gate and the requests in flight *)

(** The gate counts exactly the requests in flight, and what was current for one at
    its reservation still is. *)
Record gated w : Prop := mkGated {
  gated_count : outstanding (p_gate w) = size (p_live w);
  gated_current : forall i f pc, i ∈ p_live w -> p_submits w !! i = Some (f, pc) -> current f (p_gate w);
}.

Lemma not_live_absent w i : good w -> p_submits w !! i = None -> i ∉ p_live w.
Proof. intros Hw Hi. look Hw i; try congruence. by apply bool_decide_eq_false in H3. Qed.

(** Steps that leave the gate and the set of requests in flight alone. *)
Lemma gated_same w w' :
  gated w -> p_gate w' = p_gate w -> p_live w' = p_live w ->
  (forall i f pc, i ∈ p_live w -> p_submits w' !! i = Some (f, pc) -> exists pc', p_submits w !! i = Some (f, pc')) -> gated w'.
Proof.
  intros [Hc Hcur] Hg Hl Hs. split; rewrite Hg, ?Hl; [done|]. intros i f pc Hi Hf.
  destruct (Hs i f pc Hi Hf) as [pc' Hpc']. by eapply Hcur.
Qed.

Lemma submits_insert_same w i f pc pc' j g q :
  p_submits w !! i = Some (f, pc) -> <[i := (f, pc')]> (p_submits w) !! j = Some (g, q) -> exists q', p_submits w !! j = Some (g, q').
Proof.
  intros Hi H. destruct (decide (j = i)) as [->|Hj]; [|rewrite lookup_insert_ne in H by congruence; eauto].
  rewrite lookup_insert_eq in H. simplify_eq. eauto.
Qed.

(** Completing a request in flight. *)
Lemma gated_complete w i f r pc :
  gated w -> p_submits w !! i = Some (f, pc) -> i ∈ p_live w -> gated (Complete i f r w).
Proof.
  intros [Hc Hcur] Hi Hl. split; simpl.
  - rewrite complete_count, Hc. rewrite size_difference by set_solver. rewrite size_singleton. lia.
  - intros j g pc' Hj Hg. apply complete_current. eapply Hcur; [|exact Hg]. set_solver.
Qed.

Lemma gated_reserve w i f g :
  gated w -> good w -> p_submits w !! i = None -> ReserveInput f (p_gate w) = (g, None) -> gated (Reserve i f g w).
Proof.
  intros [Hc Hcur] Hw Hi Hr. apply reserve_ok in Hr. destruct Hr as (Hn & Hf & Hk).
  pose proof (not_live_absent _ _ Hw Hi) as Hl. split; simpl.
  - rewrite Hn, Hc, size_union, size_singleton by set_solver. done.
  - intros j h pc Hj Hh. destruct (decide (j = i)) as [->|Hji].
    + rewrite lookup_insert_eq in Hh. by simplify_eq.
    + rewrite lookup_insert_ne in Hh by congruence. apply Hk. eapply Hcur; [|exact Hh]. set_solver.
Qed.

Lemma gated_submit w i f r g :
  gated w -> p_submits w !! i = None -> good w -> g = p_gate w -> gated (set_submit i f (SReturned r) (set_gate g w)).
Proof.
  intros [Hc Hcur] Hi Hw ->. pose proof (not_live_absent _ _ Hw Hi) as Hl. split; simpl; [done|].
  intros j h pc Hj Hh. destruct (decide (j = i)) as [->|Hji]; [done|]. rewrite lookup_insert_ne in Hh by congruence. by eapply Hcur.
Qed.

Lemma gated_insert w i f pc pc' : gated w -> p_submits w !! i = Some (f, pc) -> gated (set_submit i f pc' w).
Proof. intros Hg Hi. eapply gated_same; [exact Hg|done|done|]. intros j h q _. by apply (submits_insert_same w i f pc). Qed.

Lemma aborting_live w i f e : good w -> p_submits w !! i = Some (f, SAborting e) -> i ∈ p_live w.
Proof. intros Hw Hi. look Hw i; try congruence. by eapply bool_decide_eq_true. Qed.
Lemma done_live w i f r dr pc : good w -> p_worker w = WDone i r dr -> p_submits w !! i = Some (f, pc) -> i ∈ p_live w.
Proof.
  intros Hw Hk Hi. look Hw i; rewrite Hk, (working_some i) in * by done; try discriminate. simplify_eq.
  match goal with K : good_worker _ _ _ _ _ _ |- _ => inversion K; subst end. by eapply bool_decide_eq_true.
Qed.

Lemma gated_step a w w' : good w -> gated w -> act a w = Some w' -> gated w'.
Proof.
  intros Hw Hg H. destruct a; simpl in H.
  1: { unfold Submit in H. destruct (p_submits w !! i) eqn:Hi; [discriminate|]. destruct (_ =? 0).
       { injection H as <-. apply (gated_submit w i frame None (p_gate w)); done. }
       destruct (ReserveInput frame (p_gate w)) as [g [e|]] eqn:Hr; injection H as <-; [|by apply gated_reserve].
       apply gated_submit; try done. by apply reserve_refused in Hr. }
  all: try (destruct (p_submits w !! i) as [[f pc]|] eqn:Hi; [|discriminate]; destruct pc; simpl in H; try discriminate;
            repeat case_hyp H; try discriminate; injection H as <-;
            first [by eapply gated_insert
                  |eapply gated_insert; [by eapply gated_complete; [done|done|eapply aborting_live]|exact Hi]
                  |eapply gated_same; [exact Hg|done|done|]; intros j h q _; by eapply submits_insert_same]).
  all: try (unfold run_step in H; repeat case_hyp H; try discriminate; simplify_eq).
  all: unfold take_request in *; repeat case_match; simplify_eq; try (by destruct Hg; split).
  all: try (destruct Hg as [Hc Hcur]; split; simpl; [by rewrite gate_count|]; intros i f pc Hi Hf; apply gate_current; [|by eapply Hcur];
            rewrite Hc; intros Hz; apply size_empty_inv in Hz; set_solver).
  match goal with Hk : p_worker w = WDone ?i ?r ?d, Hi : p_submits w !! ?i = Some (?f, ?pc) |- _ =>
    destruct (gated_complete w i f r pc Hg) as [Hc Hcur]; [done|by eapply done_live|]; split; [exact Hc|exact Hcur] end.
Qed.

(** ** The stream of bytes on the PTY *)

Fixpoint stream (log : list (nat * string)) : string :=
  match log with [] => "" | (_, c) :: log' => c +:+ stream log' end.
Fixpoint in_turn (b : nat -> string) (o : list nat) : string :=
  match o with [] => "" | i :: o' => b i +:+ in_turn b o' end.

Lemma stream_app l l' : stream (l ++ l') = stream l +:+ stream l'.
Proof. induction l as [|[i c] l IH]; simpl; [done|]. by rewrite IH, str_app_assoc. Qed.
Lemma in_turn_app b o o' : in_turn b (o ++ o') = in_turn b o +:+ in_turn b o'.
Proof. induction o as [|i o IH]; simpl; [done|]. by rewrite IH, str_app_assoc. Qed.
Lemma in_turn_ext b b' o : (forall i, i ∈ o -> b i = b' i) -> in_turn b o = in_turn b' o.
Proof. induction o as [|i o IH]; simpl; intros H; [done|]. rewrite H by set_solver. rewrite IH; [done|]. set_solver. Qed.

Lemma occ_zero i l : occ i l = 0 <-> i ∉ l.
Proof. induction l as [|j l IH]; simpl; [set_solver|]. case_decide; set_solver. Qed.
Lemma occ_NoDup l : (forall i, occ i l <= 1) -> NoDup l.
Proof.
  induction l as [|j l IH]; simpl; intros H; constructor.
  - apply occ_zero. specialize (H j). rewrite decide_True in H by done. lia.
  - apply IH. intros i. specialize (H i). lia.
Qed.

Lemma accepted_NoDup w : good w -> NoDup (p_accepted w).
Proof. intros Hw. apply occ_NoDup. intros i. look Hw i; lia. Qed.

(** The frames written so far, in the order of the queue: [past] is the part of the
    accepted requests the worker has taken. *)
Record streamed w (past o : list nat) : Prop := mkStreamed {
  st_past : p_accepted w = past ++ p_queue w;
  st_bytes : stream (p_pty w) = in_turn (fun i => bytes_of i (p_pty w)) o;
  st_sub : o `sublist_of` past;
  st_all : forall i, bytes_of i (p_pty w) <> "" -> i ∈ o;
  st_worker : forall i, worker_at (p_worker w) = Some i ->
    exists past', past = past' ++ [i] /\ (o `sublist_of` past' \/ exists o', o = o' ++ [i] /\ o' `sublist_of` past');
}.

(** Steps that write nothing and take nothing from the queue. *)
Lemma streamed_same w w' past o :
  streamed w past o -> p_pty w' = p_pty w ->
  (exists new, p_accepted w' = p_accepted w ++ new /\ p_queue w' = p_queue w ++ new) ->
  (worker_at (p_worker w') = worker_at (p_worker w) \/ worker_at (p_worker w') = None) -> streamed w' past o.
Proof.
  intros [H1 H2 H3 H4 H5] Hp (new & Ha & Hq) Hk. split; rewrite ?Hp; try done.
  - by rewrite Ha, Hq, H1, app_assoc.
  - intros i Hi. apply H5. destruct Hk as [<-|Hk]; [done|]. by rewrite Hk in Hi.
Qed.

Lemma streamed_take draining w w' past o :
  streamed w past o -> worker_at (p_worker w) = None -> take_request draining w = Some w' -> exists past', streamed w' past' o.
Proof.
  intros [H1 H2 H3 H4 H5] Hk H. unfold take_request in H. destruct (p_queue w) as [|i q] eqn:Hq; [discriminate|]. injection H as <-.
  exists (past ++ [i]). split; simpl; try done.
  - by rewrite H1, <- app_assoc.
  - by apply sublist_inserts_r.
  - intros j Hj. assert (j = i) as -> by (destruct draining; simpl in Hj; congruence). eauto.
Qed.

Lemma streamed_write w past o i rest written n err :
  good w -> streamed w past o -> p_worker w = WWriting i rest written ->
  exists o', streamed (set_worker (writeFull_step i rest written n err) (log_write i (str_take n rest) (n, err) w)) past o'.
Proof.
  intros Hw [H1 H2 H3 H4 H5] Hk. destruct (H5 i) as (past' & -> & Hcase); [by rewrite Hk|].
  set (c := str_take n rest). destruct (slen c =? 0) eqn:Hc.
  { exists o. unfold log_write. split; simpl; rewrite ?Hc; try done. intros j Hj. rewrite writeFull_at in Hj. simplify_eq. eauto. }
  assert (Hnd : i ∉ past').
  { pose proof (accepted_NoDup _ Hw) as Hn. rewrite H1, <- app_assoc in Hn. apply NoDup_app in Hn. intros Hi.
    destruct Hn as (_ & Hn & _). apply (Hn i Hi). set_solver. }
  assert (Hother : forall o', o' `sublist_of` past' ->
    in_turn (fun j => bytes_of j (p_pty w ++ [(i, c)])) o' = in_turn (fun j => bytes_of j (p_pty w)) o').
  { intros o' Ho. apply in_turn_ext. intros j Hj. rewrite bytes_of_app, bytes_other, str_app_nil_r; [done|]. intros ->.
    apply Hnd. by eapply elem_of_sublist. }
  assert (Hself : bytes_of i (p_pty w ++ [(i, c)]) = bytes_of i (p_pty w) +:+ c) by (by rewrite bytes_of_app, bytes_self).
  assert (Hall : forall j (o' : list nat), (forall k, bytes_of k (p_pty w) <> "" -> k ∈ o') -> i ∈ o' -> bytes_of j (p_pty w ++ [(i, c)]) <> "" -> j ∈ o').
  { intros j o' Ho Hi Hj. destruct (decide (j = i)) as [->|Hji]; [done|]. apply Ho.
    by rewrite bytes_of_app, bytes_other, str_app_nil_r in Hj. }
  destruct Hcase as [Ho|(o' & -> & Ho)].
  - assert (Hz : bytes_of i (p_pty w) = "").
    { destruct (decide (bytes_of i (p_pty w) = "")) as [Hz|Hz]; [done|]. apply H4 in Hz. destruct Hnd. by eapply elem_of_sublist. }
    exists (o ++ [i]). unfold log_write. split; simpl; rewrite ?Hc; try done.
    + rewrite stream_app, in_turn_app, Hother, H2 by done. simpl. by rewrite Hself, Hz, !str_app_nil_r.
    + by apply sublist_app.
    + intros j. apply Hall; set_solver.
    + intros j Hj. rewrite writeFull_at in Hj. simplify_eq. exists past'. split; [done|]. right. eauto.
  - exists (o' ++ [i]). unfold log_write. split; simpl; rewrite ?Hc; try done.
    + rewrite in_turn_app in H2. simpl in H2. rewrite str_app_nil_r in H2.
      rewrite stream_app, in_turn_app, Hother, H2 by done. simpl. by rewrite Hself, !str_app_nil_r, str_app_assoc.
    + intros j. apply Hall; set_solver.
    + intros j Hj. rewrite writeFull_at in Hj. simplify_eq. eauto 6.
Qed.

Lemma streamed_act a w w' past o :
  good w -> streamed w past o -> act a w = Some w' -> exists past' o', streamed w' past' o'.
Proof.
  intros Hw Hs H.
  assert (Hsame : p_pty w' = p_pty w -> (exists new, p_accepted w' = p_accepted w ++ new /\ p_queue w' = p_queue w ++ new) ->
    (worker_at (p_worker w') = worker_at (p_worker w) \/ worker_at (p_worker w') = None) -> exists past' o', streamed w' past' o').
  { intros. exists past, o. by eapply streamed_same. }
  assert (Hq0 : exists new : list nat, p_accepted w = p_accepted w ++ new /\ p_queue w = p_queue w ++ new).
  { exists []. by rewrite !app_nil_r. }
  destruct a; simpl in H.
  1: { unfold Submit in H. repeat case_hyp H; try discriminate; injection H as <-; apply Hsame; simpl; auto. }
  all: try (destruct (p_submits w !! i) as [[f pc]|]; [|discriminate]; destruct pc; simpl in H; try discriminate;
            repeat case_hyp H; try discriminate; injection H as <-; apply Hsame; simpl; eauto).
  all: try (unfold run_step in H; destruct (p_worker w) eqn:Hk; try discriminate).
  all: try (destruct (streamed_take _ _ _ _ _ Hs ltac:(by rewrite Hk) H) as [p' ?]; eauto).
  all: try (repeat case_hyp H; try discriminate; simplify_eq; apply Hsame; simpl; rewrite ?Hk; repeat case_match; simpl; eauto; fail).
  - destruct (_ || _); [discriminate|]. injection H as <-. destruct (streamed_write w past o i rest written n err) as [o' ?]; eauto.
  - case_match; [|discriminate]. injection H as <-. apply Hsame; simpl; [done| |by left]. exists []. by rewrite !app_nil_r.
Qed.

End Steps.
