(* ===== verification/InputSafety.v ===== *)
(** * What the input pump guarantees

    The outcome a [Submit] reports, the order of the bytes on the PTY, the epoch at
    which they are written, and that accepted input is answered; with the gate of
    [supervisor/session.go] as the instance of [InputGate]. *)

From S2P Require Import Prelude Session InputPump.
Local Open Scope nat_scope.

Section Pump.
Context {G : Type} `{GI : InputGate G} `{GL : !InputGateLaws G}.
Implicit Types w : pump G.

Lemma started_inv w : started w -> good w /\ gated w /\ exists past o, streamed w past o.
Proof.
  intros (g & n & l & Hg & H).
  assert (Hinv : forall l w, good w /\ gated w /\ (exists past o, streamed w past o) ->
    forall w', acts l w = Some w' -> good w' /\ gated w' /\ exists past o, streamed w' past o).
  { clear. induction l as [|a l IH]; simpl; intros w (Hw & Hg & past & o & Hs) w' H; [injection H as <-; eauto|].
    destruct (act a w) as [w1|] eqn:Ha; [|discriminate]. apply (IH w1); [|done].
    split_and!; [by eapply good_act|by eapply gated_step|by eapply streamed_act]. }
  apply (Hinv l _) in H; [done|]. split; [apply good_new|]. split.
  - split; simpl; [done|]. set_solver.
  - exists [], []. split; try done.
Qed.

(** C21. The result of a [Submit] says exactly what reached the PTY: on success all
    the bytes of its frame; on a partial write the reported number of them, at least one,
    with the error the writer gave last; on any other refusal none.  The one exception is
    a writer that takes no byte and gives no error, which its contract forbids: only then
    is the result [ErrShortWrite], and some bytes before it may have been written.  The
    reservation is released, at most once.  The bytes on the PTY are those of the accepted
    frames in the order of acceptance, each frame in one piece. *)
Theorem submit_outcome_definitive w :
  started w ->
  (forall i f r, p_submits w !! i = Some (f, SReturned r) ->
     outcome r f (bytes_of i (p_pty w)) (p_answers w !! i) /\ i ∉ p_live w /\ occ i (p_completed w) <= 1)
  /\ exists o, o `sublist_of` p_accepted w /\ NoDup o /\ stream (p_pty w) = in_turn (fun i => bytes_of i (p_pty w)) o.
Proof.
  intros H. apply started_inv in H. destruct H as (Hw & _ & past & o & [H1 H2 H3 _ _]). split.
  - intros i f r Hi. pose proof (good_at _ i Hw) as Hv. unfold view_of in Hv. rewrite Hi in Hv.
    inversion Hv as [| f' r' Ho| | | | | | |f' r' b ans a Ho Ha]; subst; (split_and!; [done| |lia]); by eapply bool_decide_eq_false.
  - assert (Ho : o `sublist_of` p_accepted w) by (rewrite H1; by apply sublist_inserts_r).
    exists o. split_and!; try done. by eapply sublist_NoDup; [apply (accepted_NoDup w)|].
Qed.

(** ** Accepted input is answered *)

Definition of_worker (a : action gate_op) : bool :=
  match a with
  | WTake | WSeeDone | WLoad | WValidate | WWrite _ _ | WFinish | WComplete | WReply | WExit => true
  | _ => false
  end.

Definition data_len w (i : nat) : nat := match p_submits w !! i with Some (f, _) => slen (if_Data f) | None => 0 end.

(** A bound on the steps the worker can take on its own. *)
Definition worker_cost w : nat :=
  match p_worker w with
  | WExited => 0
  | WDraining => 1
  | WIdle => 2
  | WSending _ _ dr => if dr then 2 else 3
  | WDone _ _ dr => if dr then 3 else 4
  | WWriting _ rest _ => 5 + slen rest
  | WValidating i => 6 + data_len w i
  | WGot i => 7 + data_len w i
  end.
Fixpoint queue_cost w (q : list nat) : nat :=
  match q with [] => 0 | i :: q' => 10 + data_len w i + queue_cost w q' end.
Definition cost w : nat := worker_cost w + queue_cost w (p_queue w).

Lemma queue_cost_same w w' q : p_submits w' = p_submits w -> queue_cost w' q = queue_cost w q.
Proof. intros Hs. induction q as [|i q IH]; simpl; [done|]. unfold data_len. by rewrite IH, Hs. Qed.

Lemma worker_keeps_submits a w w' : of_worker a = true -> act a w = Some w' -> p_submits w' = p_submits w.
Proof.
  intros Ha H. destruct a; try discriminate; simpl in H; unfold run_step in H; repeat case_hyp H; try discriminate;
    unfold take_request in *; repeat case_match; by simplify_eq.
Qed.

Lemma worker_step_cost a w w' : of_worker a = true -> act a w = Some w' -> cost w' < cost w.
Proof.
  intros Ha H. pose proof (worker_keeps_submits _ _ _ Ha H) as Hs. unfold cost. rewrite (queue_cost_same w w') by done.
  unfold worker_cost, data_len. rewrite Hs. clear Hs.
  destruct a; try discriminate; simpl in H; unfold run_step in H; destruct (p_worker w) eqn:Hk; try discriminate;
    unfold take_request in H; repeat case_hyp H; try discriminate; simplify_eq; simpl; unfold data_len;
    repeat match goal with E : p_submits w !! _ = _ |- _ => rewrite E end; repeat case_match; simpl; try lia.
  all: unfold writeFull_step in *; repeat case_match; simplify_eq; bool_to_prop; rewrite ?slen_drop; try lia.
  match goal with E : p_queue w = [] |- _ => rewrite E; simpl; lia end.
Qed.

(** Requests are in the queue only while the worker is there. *)
Lemma worker_waits w : good w -> (forall a, of_worker a = true -> act a w = None) ->
  (p_worker w = WExited \/ p_worker w = WIdle /\ p_queue w = []).
Proof.
  intros Hw H. destruct (p_worker w) as [|i|i|i rest wr|i r dr|i r dr| |] eqn:Hk; auto.
  - right. split; [done|]. specialize (H WTake eq_refl). simpl in H. unfold run_step, take_request in H. rewrite Hk in H. by case_match.
  - specialize (H WLoad eq_refl). simpl in H. unfold run_step in H. by rewrite Hk in H.
  - specialize (H WValidate eq_refl). simpl in H. unfold run_step in H. rewrite Hk in H.
    look Hw i; rewrite Hk, (working_some i) in * by done; try discriminate.
    match goal with E : p_submits w !! i = Some _ |- _ => by rewrite E in H end.
  - specialize (H WFinish eq_refl) as H1. specialize (H (WWrite 0 None) eq_refl). simpl in H, H1. unfold run_step in H, H1. rewrite Hk in H, H1.
    destruct (slen rest =? 0); [discriminate|]. simpl in H. by destruct (slen rest <? 0).
  - specialize (H WComplete eq_refl). simpl in H. unfold run_step in H. rewrite Hk in H.
    look Hw i; rewrite Hk, (working_some i) in * by done; try discriminate.
    match goal with E : p_submits w !! i = Some _ |- _ => by rewrite E in H end.
  - specialize (H WReply eq_refl). simpl in H. unfold run_step in H. by rewrite Hk in H.
  - exfalso. specialize (H WTake eq_refl) as H1. specialize (H WExit eq_refl). simpl in H, H1. unfold run_step, take_request in H, H1.
    rewrite Hk in H, H1. by destruct (p_queue w).
Qed.

Lemma writeFull_exits i rest written n err : writeFull_step i rest written n err = WExited -> False.
Proof. unfold writeFull_step. by repeat case_match. Qed.

(** While only the worker runs, it stops with an empty queue. *)
Definition tended w : Prop := p_worker w = WExited -> p_queue w = [].

Lemma worker_tended a w w' : of_worker a = true -> act a w = Some w' -> tended w -> tended w'.
Proof.
  intros Ha H Ht. unfold tended in *. destruct a; try discriminate; simpl in H; unfold run_step in H; destruct (p_worker w) eqn:Hk; try discriminate;
    unfold take_request in H; repeat case_hyp H; try discriminate; simplify_eq; simpl; repeat case_match; try discriminate; auto.
  all: by intros ?%writeFull_exits.
Qed.

(** C34. Accepted input is answered.  Unless the worker has already left, the worker on
    its own takes at most [cost] steps, whatever the writer answers, and when
    it can take no more, every [Submit] that waits has its result. *)
Theorem accepted_input_answered w l w' :
  started w -> p_worker w <> WExited -> Forall (fun a => of_worker a = true) l -> acts l w = Some w' ->
  length l <= cost w
  /\ ((forall a, of_worker a = true -> act a w' = None) ->
      forall i f, p_submits w' !! i = Some (f, SWaiting) -> p_results w' !! i <> None).
Proof.
  intros Hst Hx Hl H. apply started_inv in Hst. destruct Hst as (Hw & _ & _).
  assert (Ht : tended w) by (intros ?; done). clear Hx. revert w Hw Ht H.
  induction Hl as [|a l Ha Hl IH]; simpl; intros w Hw Ht H.
  - injection H as <-. split; [lia|]. intros Hstop i f Hi Hr.
    assert (Hq : worker_at (p_worker w) = None /\ p_queue w = []).
    { destruct (worker_waits w Hw Hstop) as [Hk|[Hk Hq]]; rewrite Hk; [|done]. split; [done|]. by apply Ht. }
    destruct Hq as [Hk Hq]. look Hw i; rewrite ?(working_away i), ?Hq in * by done; simpl in *; congruence.
  - destruct (act a w) as [w1|] eqn:Ha1; [|discriminate]. destruct (IH w1) as [Hn Hr]; try done.
    + by eapply good_act.
    + by eapply worker_tended.
    + split; [|done]. pose proof (worker_step_cost _ _ _ Ha Ha1). lia.
Qed.

End Pump.

(** ** The supervisor's gate: [inputGate] of [supervisor/session.go] *)

(** The fields of [Session] the gate uses.  [pending] is an [int] that starts at 0 and
    is decremented only when positive. *)
Record supervisor := mkSupervisor {
  g_generation : Z;
  g_epoch : Z;
  g_pending : nat;
  g_lastSequence : Z;
  g_inputIndeterminate : bool;
  g_closed : bool;
}.

Inductive ownership_error := OwnClosed | OwnStaleGeneration | OwnPendingInput.

Definition UpdateOwnership (epoch generation : Z) (s : supervisor) : result ownership_error supervisor :=
  if g_closed s then Err OwnClosed
  else if negb (generation =? g_generation s)%Z then Err OwnStaleGeneration
  else if negb (g_pending s =? 0) then Err OwnPendingInput
  else Ok (mkSupervisor (g_generation s) epoch (g_pending s) (g_lastSequence s) (g_inputIndeterminate s) (g_closed s)).

(** What the rest of the supervisor does to these fields: an ownership update, the end of
    the session in [Wait], and the time-out of [CommitAgentTask]. *)
Inductive supervisor_op :=
| OpUpdateOwnership (epoch generation : Z)
| OpClose
| OpIndeterminate.

Definition supervisor_run (o : supervisor_op) (s : supervisor) : supervisor :=
  match o with
  | OpUpdateOwnership e g => match UpdateOwnership e g s with Ok s' => s' | Err _ => s end
  | OpClose => mkSupervisor (g_generation s) (g_epoch s) (g_pending s) (g_lastSequence s) (g_inputIndeterminate s) true
  | OpIndeterminate => mkSupervisor (g_generation s) (g_epoch s) (g_pending s) (g_lastSequence s) true (g_closed s)
  end.

Definition supervisor_reserve (f : InputFrame) (s : supervisor) : supervisor * option input_error :=
  if g_closed s then (s, Some SupervisorClosed)
  else if negb (if_RuntimeGeneration f =? g_generation s)%Z then (s, Some InputStaleGeneration)
  else if negb (if_OwnershipEpoch f =? g_epoch s)%Z then (s, Some InputStaleEpoch)
  else if g_inputIndeterminate s then (s, Some ErrInputIndeterminate)
  else if (if_Sequence f =? 0)%Z || negb (if_Sequence f =? u64 (g_lastSequence s + 1))%Z then (s, Some ErrInputSequence)
  else (mkSupervisor (g_generation s) (g_epoch s) (S (g_pending s)) (if_Sequence f) (g_inputIndeterminate s) (g_closed s), None).

Definition supervisor_validate (f : InputFrame) (s : supervisor) : option input_error :=
  if g_closed s then Some SupervisorClosed
  else if negb (if_RuntimeGeneration f =? g_generation s)%Z then Some InputStaleGeneration
  else if negb (if_OwnershipEpoch f =? g_epoch s)%Z then Some InputStaleEpoch
  else None.

Definition supervisor_complete (f : InputFrame) (r : option input_error) (s : supervisor) : supervisor :=
  mkSupervisor (g_generation s) (g_epoch s) (if 0 <? g_pending s then g_pending s - 1 else g_pending s) (g_lastSequence s)
    (match r with Some (PartialWriteError _ _) => true | _ => g_inputIndeterminate s end) (g_closed s).

#[export] Instance supervisor_gate : InputGate supervisor := {
  gate_op := supervisor_op;
  gate_run := supervisor_run;
  ReserveInput := supervisor_reserve;
  ValidateInput := supervisor_validate;
  CompleteInput := supervisor_complete;
}.

Definition fences_match (f : InputFrame) (s : supervisor) : Prop :=
  if_RuntimeGeneration f = g_generation s /\ if_OwnershipEpoch f = g_epoch s.

Lemma supervisor_reserved f s s' : supervisor_reserve f s = (s', None) ->
  g_pending s' = S (g_pending s) /\ fences_match f s' /\ forall f', fences_match f' s -> fences_match f' s'.
Proof.
  unfold supervisor_reserve. intros H. repeat case_hyp H; simplify_eq. bool_to_prop. split_and!; [done|by split|].
  intros f' [? ?]. by split.
Qed.

Lemma UpdateOwnership_pending e g s : g_pending s <> 0 -> forall s', UpdateOwnership e g s <> Ok s'.
Proof. intros Hp s'. unfold UpdateOwnership. destruct (g_pending s); [done|]. by repeat case_match. Qed.

#[export] Program Instance supervisor_laws : InputGateLaws supervisor := {
  outstanding := g_pending;
  current := fences_match;
}.
Next Obligation. exact supervisor_reserved. Qed.
Next Obligation. intros f g g' e H. simpl in H. unfold supervisor_reserve in H. by repeat case_hyp H; simplify_eq. Qed.
Next Obligation. intros f g g' e H. simpl in H. unfold supervisor_reserve in H. by repeat case_hyp H; simplify_eq. Qed.
Next Obligation. intros f g e H. simpl in H. unfold supervisor_validate in H. by repeat case_hyp H; simplify_eq. Qed.
Next Obligation. intros f r g. simpl. destruct (g_pending g); simpl; lia. Qed.
Next Obligation. intros f r g f' [? ?]. by split. Qed.
Next Obligation.
  intros o g. destruct o; simpl; try done. unfold UpdateOwnership. by repeat case_match; simplify_eq.
Qed.
Next Obligation.
  intros o g f Hp [? ?]. destruct o; simpl; try (by split). case_match eqn:Hu; [|by split].
  by apply (UpdateOwnership_pending epoch generation) in Hu.
Qed.

(** C9. Input reaches the PTY only at the ownership epoch it was sent for: from its
    reservation until it is completed, and so whenever the worker writes it, the
    session has the epoch and the runtime generation of the frame; and an ownership
    update succeeds only when no frame is reserved or being written.  The count of
    pending input is the number of such frames. *)
Theorem input_written_at_epoch (w : pump supervisor) :
  started w ->
  g_pending (p_gate w) = size (p_live w)
  /\ (forall i f pc, i ∈ p_live w -> p_submits w !! i = Some (f, pc) ->
        if_OwnershipEpoch f = g_epoch (p_gate w) /\ if_RuntimeGeneration f = g_generation (p_gate w))
  /\ (forall i rest written, p_worker w = WWriting i rest written -> i ∈ p_live w)
  /\ (forall epoch generation s, UpdateOwnership epoch generation (p_gate w) = Ok s ->
        p_live w = ∅ /\ forall i rest written, p_worker w <> WWriting i rest written).
Proof.
  intros H. apply started_inv in H. destruct H as (Hw & [Hc Hcur] & _).
  assert (Hwr : forall i rest written, p_worker w = WWriting i rest written -> i ∈ p_live w).
  { intros i rest written Hk. look Hw i; rewrite Hk, (working_some i) in * by done; try discriminate. simplify_eq.
    match goal with K : good_worker _ _ _ _ _ _ |- _ => inversion K; subst end. by eapply bool_decide_eq_true. }
  split_and!; [exact Hc| |exact Hwr|].
  - intros i f pc Hi Hf. by destruct (Hcur i f pc Hi Hf).
  - intros e g s Hu. assert (He : p_live w ≡ ∅).
    { apply size_empty_inv. rewrite <- Hc. simpl. destruct (decide (g_pending (p_gate w) = 0)) as [Hz|Hz]; [done|].
      by apply (UpdateOwnership_pending e g) in Hu. }
    split; [by apply leibniz_equiv|]. intros i rest written Hk. apply Hwr in Hk. set_solver.
Qed.

(** ** A [Submit] that races with [Close] *)

(** A request in the queue of a worker that has left stays there. *)
Definition abandoned {G} (w : pump G) (i : nat) (f : InputFrame) : Prop :=
  p_worker w = WExited /\ p_submits w !! i = Some (f, SWaiting) /\ p_results w !! i = None /\ i ∈ p_live w.

Lemma abandoned_act {G} `{InputGate G} `{!InputGateLaws G} (a : action gate_op) (w w' : pump G) i f :
  abandoned w i f -> act a w = Some w' -> abandoned w' i f.
Proof.
  intros (Hk & Hi & Hr & Hl) H1. unfold abandoned. destruct a; simpl in H1; try (unfold run_step in H1; by rewrite Hk in H1).
  1: { unfold Submit in H1. destruct (decide (i0 = i)) as [->|Hj]; [by rewrite Hi in H1|].
       repeat case_hyp H1; try discriminate; simplify_eq; simpl; rewrite ?lookup_insert_ne by done; set_solver. }
  all: try (destruct (decide (i0 = i)) as [->|Hj];
            [rewrite Hi in H1; simpl in H1; rewrite ?Hr in H1; discriminate
            |destruct (p_submits w !! i0) as [[f' pc]|] eqn:Hi0; [|discriminate]; destruct pc; simpl in H1; try discriminate;
             repeat case_hyp H1; try discriminate; simplify_eq; simpl;
             rewrite ?lookup_insert_ne, ?lookup_delete_ne by done; set_solver]).
  all: repeat case_hyp H1; try discriminate; simplify_eq; simpl; done.
Qed.

Lemma abandoned_acts {G} `{InputGate G} `{!InputGateLaws G} l (w w' : pump G) i f :
  abandoned w i f -> acts l w = Some w' -> abandoned w' i f.
Proof.
  revert w. induction l as [|a l IH]; simpl; intros w Hw H1; [by injection H1 as <-|].
  destruct (act a w) as [w1|] eqn:Ha; [|discriminate]. eapply IH; [by eapply abandoned_act|done].
Qed.

Module InputSample.

Definition gate0 : supervisor := mkSupervisor 1 1 0 0 false false.
Definition frame (n : Z) (data : string) : InputFrame := mkInput n "alice" (mkOwner OwnerTerminal "alice") 1 1 data.
Definition new : pump supervisor := NewInputPump gate0 4.

Definition run_acts (l : list (action supervisor_op)) : pump supervisor := default new (acts l new).

(** [Submit] has loaded [closed]; then the pump is closed and its worker leaves; then
    [Submit] sends to the queue. *)
Definition race : list (action supervisor_op) :=
  [ASubmit 0 (frame 1 "ls"); ALoad 0; ACloseFlag; ACloseDone; WSeeDone; WExit; ASend 0].

(** Two frames, the first written in two pieces, the second only in part. *)
Definition typed : list (action supervisor_op) :=
  [ASubmit 0 (frame 1 "ls -l"); ALoad 0; ASubmit 1 (frame 2 "pwd"); ALoad 1; ASend 0; ASend 1;
   WTake; WLoad; WValidate; WWrite 2 None; WWrite 3 None; WFinish; WComplete; WReply; AReceive 0;
   WTake; WLoad; WValidate; WWrite 1 (Some "EIO")].

End InputSample.

(** A [Submit] that races with [Close] can wait for ever with its reservation held:
    there is an execution in which its request is put on the queue after the
    worker has drained the queue and left, and nothing that happens later answers it. *)
Theorem submit_can_hang :
  exists (w : pump supervisor) i f, started w /\ p_submits w !! i = Some (f, SWaiting)
    /\ forall l w', acts l w = Some w' -> p_submits w' !! i = Some (f, SWaiting) /\ i ∈ p_live w'.
Proof.
  exists (InputSample.run_acts InputSample.race), 0, (InputSample.frame 1 "ls").
  assert (Ha : abandoned (InputSample.run_acts InputSample.race) 0 (InputSample.frame 1 "ls")).
  { split_and!; vm_compute; reflexivity. }
  split_and!; [|apply Ha|].
  - exists InputSample.gate0, 4%Z, InputSample.race. split; vm_compute; reflexivity.
  - intros l w' H. by destruct (abandoned_acts l _ _ _ _ Ha H) as (_ & ? & _ & ?).
Qed.

Module InputWitness.
Import InputSample.

Lemma typed_started l : acts l new = Some (run_acts l) -> started (run_acts l).
Proof. intros H. exists gate0, 4%Z, l. split; [reflexivity|exact H]. Qed.

(** The second frame gets its answer. *)
Definition answered : list (action supervisor_op) := typed ++ [WComplete; WReply; AReceive 1].

Lemma submit_outcome_definitive_witness :
  p_submits (run_acts answered) !! 1 = Some (frame 2 "pwd", SReturned (Some (PartialWriteError 1 "EIO")))
  /\ outcome (Some (PartialWriteError 1 "EIO")) (frame 2 "pwd") (bytes_of 1 (p_pty (run_acts answered)))
       (p_answers (run_acts answered) !! 1)
  /\ outcome None (frame 1 "ls -l") (bytes_of 0 (p_pty (run_acts answered))) (p_answers (run_acts answered) !! 0).
Proof.
  split; [vm_compute; reflexivity|].
  split; apply (submit_outcome_definitive (run_acts answered)); try apply typed_started; vm_compute; reflexivity.
Defined.

Lemma accepted_input_answered_witness :
  length [WComplete; WReply : action supervisor_op] <= cost (run_acts typed).
Proof.
  apply (accepted_input_answered (run_acts typed) [WComplete; WReply] (run_acts (typed ++ [WComplete; WReply]))).
  - apply typed_started. vm_compute. reflexivity.
  - vm_compute. discriminate.
  - repeat constructor.
  - vm_compute. reflexivity.
Defined.

Lemma input_written_at_epoch_witness :
  g_pending (p_gate (run_acts typed)) = size (p_live (run_acts typed)).
Proof. apply (input_written_at_epoch (run_acts typed)). apply typed_started. vm_compute. reflexivity. Defined.

End InputWitness.
