(* ===== verification/AgentTasks.v ===== *)
(** * Managed agent tasks in the supervisor: [supervisor/session.go]

    The supervisor prepares and commits the prompts of managed tasks and keeps the
    events of the agent until their delivery is acknowledged.  [agents] holds the
    fields of [Session] these operations use.  Each critical section is a function;
    [CommitAgentTask], which holds [agentMu] while it waits for its prompt to be
    written, is its two halves, and an operation of [agent_op] is enabled only when
    the locks it takes are free. *)

From S2P Require Import Prelude GoStrings GoMarshal Session SessionDB TaskStore SessionRun.
Local Open Scope go_scope.
Local Open Scope Z_scope.
Local Arguments str_take : simpl never.

Record SupervisorAgentEvent := mkAgentEvent {
  ae_TaskID : string;
  ae_Sequence : Z;
  ae_Kind : string;
  ae_Summary : string;
  ae_Response : string;
  ae_OutputEnd : Z;
}.
#[export] Instance SupervisorAgentEvent_eq : EqDecision SupervisorAgentEvent.
Proof. solve_decision. Defined.

Record preparedAgentTask := mkPreparedTask { pt_digest : string; pt_prompt : string; pt_owner : Owner }.

Record agents := mkAgents {
  a_generation : Z;
  a_epoch : Z;
  a_closed : bool;
  a_prepared : gmap string preparedAgentTask;
  a_committed : gmap string string;
  a_active : string;
  a_events : gmap string (list SupervisorAgentEvent);
  a_acks : gmap string Z;
  a_terminal : gmap string Z;
  a_bytes : Z;
  a_count : Z;
  a_ackOrder : list string;
  a_committing : option (string * string);    (* [CommitAgentTask] holds [agentMu] *)
}.

Definition maxRetainedAgentEvents : Z := 128.
Definition maxRetainedAgentBytes : Z := 524288.
Definition maxAgentAckTombstones : nat := Z.to_nat 1024.
Definition MaxAgentPromptBytes : Z := 1048576.

Inductive agent_error :=
| InvalidAgentEvent
| AgentCapacity
| AgentNotContiguous
| AgentMustStartAtOne
| AgentEventUnavailable
| InvalidAgentTask
| AgentClosed
| AgentStaleGeneration
| AgentStaleEpoch
| AgentTaskActive
| AgentNotPrepared
| AgentInput (e : string).

(** A Go map read: zero for a key that is absent. *)
Definition at0 (m : gmap string Z) (k : string) : Z := default 0 (m !! k).
Definition events_of (s : agents) (t : string) : list SupervisorAgentEvent := default [] (a_events s !! t).

Definition event_bytes (e : SupervisorAgentEvent) : Z := zlen (ae_Summary e) + zlen (ae_Response e).
Definition terminal_kind (k : string) : bool := (k ==s "completed") || (k ==s "failed").

(** Append an event: the maps and the counters, and for a terminal event the fence and
    the active task. *)
Definition append_event (e : SupervisorAgentEvent) (terminal : bool) (s : agents) : agents :=
  let t := ae_TaskID e in
  mkAgents (a_generation s) (a_epoch s) (a_closed s) (a_prepared s) (a_committed s)
    (if terminal && (a_active s ==s t) then "" else a_active s)
    (<[t := events_of s t ++ [e]]> (a_events s)) (a_acks s)
    (if terminal then <[t := ae_Sequence e]> (a_terminal s) else a_terminal s)
    (a_bytes s + event_bytes e) (a_count s + 1) (a_ackOrder s) (a_committing s).

(** [out] is the end of the output, when the session has an output hub. *)
Definition with_output_end (out : option Z) (e : SupervisorAgentEvent) : SupervisorAgentEvent :=
  match out with
  | Some end_ =>
      if terminal_kind (ae_Kind e) && (ae_OutputEnd e =? 0)
      then mkAgentEvent (ae_TaskID e) (ae_Sequence e) (ae_Kind e) (ae_Summary e) (ae_Response e) end_ else e
  | None => e
  end.

Definition QueueAgentEvent (out : option Z) (event : SupervisorAgentEvent) (s : agents) : agents * option agent_error :=
  if negb (ValidTaskID (ae_TaskID event)) || (ae_Sequence event =? 0) then (s, Some InvalidAgentEvent) else
  let e := with_output_end out event in
  let t := ae_TaskID e in
  if negb (at0 (a_terminal s) t =? 0) then (s, None) else
  if ae_Sequence e <=? at0 (a_acks s) t then (s, None) else
  let events := events_of s t in
  if (maxRetainedAgentEvents <=? a_count s) || (maxRetainedAgentBytes <? a_bytes s + event_bytes e + zlen t + 64)
  then (s, Some AgentCapacity) else
  match last events with
  | Some l =>
      if ae_Sequence e <=? ae_Sequence l
      then (s, if bool_decide (e = l) then None else Some AgentNotContiguous)
      else if negb (ae_Sequence e =? u64 (ae_Sequence l + 1)) then (s, Some AgentNotContiguous)
      else (append_event e (terminal_kind (ae_Kind e)) s, None)
  | None =>
      if negb (ae_Sequence e =? 1) then (s, Some AgentMustStartAtOne)
      else (append_event e (terminal_kind (ae_Kind e)) s, None)
  end.

Definition nextEventSequence (s : agents) (t : string) : Z :=
  u64 (Z.of_nat (length (events_of s t)) + at0 (a_acks s) t + 1).

Definition FailActiveAgentTask (out : option Z) (summary : string) (s : agents) : agents * bool :=
  if a_active s ==s "" then (s, false) else
  match QueueAgentEvent out (mkAgentEvent (a_active s) (nextEventSequence s (a_active s)) "failed" (str_take 500 summary) "" 0) s with
  | (s', None) => (s', true)
  | (s', Some _) => (s', false)
  end.

Definition CancelActiveAgentTask (summary : string) (s : agents) : agents * (string * bool) :=
  let t := a_active s in
  if t ==s "" then (s, ("", false)) else
  let summary := str_take 500 summary in
  if (maxRetainedAgentEvents <=? a_count s) || (maxRetainedAgentBytes <? a_bytes s + zlen summary + zlen t + 64)
  then (s, (t, false))
  else (append_event (mkAgentEvent t (nextEventSequence s t) "failed" summary "" 0) true s, (t, true)).

(** The acknowledged prefix, and what stays. *)
Fixpoint cut_events (sequence : Z) (l : list SupervisorAgentEvent) : list SupervisorAgentEvent * list SupervisorAgentEvent :=
  match l with
  | e :: l' => if ae_Sequence e <=? sequence then let '(a, b) := cut_events sequence l' in (e :: a, b) else ([], l)
  | [] => ([], [])
  end.

Fixpoint evict (order : list string) (acks : gmap string Z) : list string * gmap string Z :=
  match order with
  | t :: order' => if (maxAgentAckTombstones <? length order)%nat then evict order' (delete t acks) else (order, acks)
  | [] => (order, acks)
  end.

Definition bytes_sum (l : list SupervisorAgentEvent) : Z := foldr (fun e n => event_bytes e + n) 0 l.

Definition AckAgentEvent (t : string) (sequence : Z) (s : agents) : agents * option agent_error :=
  let events := events_of s t in
  if sequence <=? at0 (a_acks s) t then (s, None) else
  match last events with
  | None => (s, Some AgentEventUnavailable)
  | Some l =>
      if ae_Sequence l <? sequence then (s, Some AgentEventUnavailable) else
      let '(acked, rest) := cut_events sequence events in
      let order := match a_acks s !! t with None => a_ackOrder s ++ [t] | Some _ => a_ackOrder s end in
      let '(order', acks') := evict order (<[t := sequence]> (a_acks s)) in
      let finished := match last acked with Some e => terminal_kind (ae_Kind e) | None => false end in
      (mkAgents (a_generation s) (a_epoch s) (a_closed s) (a_prepared s)
         (if finished then delete t (a_committed s) else a_committed s) (a_active s)
         (match rest with [] => delete t (a_events s) | _ => <[t := rest]> (a_events s) end) acks' (a_terminal s)
         (a_bytes s - bytes_sum acked) (a_count s - Z.of_nat (length acked)) order' (a_committing s), None)
  end.

Section Tasks.
Context `{UC : UnicodeCase}.
Variable sha256 : string -> string.

Definition with_tasks (prepared : gmap string preparedAgentTask) (committed : gmap string string) (active : string)
    (committing : option (string * string)) (s : agents) : agents :=
  mkAgents (a_generation s) (a_epoch s) (a_closed s) prepared committed active (a_events s) (a_acks s) (a_terminal s)
    (a_bytes s) (a_count s) (a_ackOrder s) committing.

Definition PrepareAgentTask (t digest prompt : string) (owner : Owner) (epoch generation : Z) (s : agents)
  : agents * option agent_error :=
  if negb (ValidTaskID t) || (slen prompt =? 0)%nat || (MaxAgentPromptBytes <? zlen prompt) || (sha256 prompt !=s digest)
     || negb (is_Ok (Owner_Validate owner)) || (o_Kind owner !=s OwnerCC)
  then (s, Some InvalidAgentTask)
  else if a_closed s then (s, Some AgentClosed)
  else if negb (generation =? a_generation s) then (s, Some AgentStaleGeneration)
  else if negb (epoch =? a_epoch s) then (s, Some AgentStaleEpoch)
  else match a_committed s !! t with
  | Some committed => (s, if committed !=s digest then Some AgentTaskActive else None)
  | None =>
      match a_prepared s !! t with
      | Some p => (s, if (pt_digest p !=s digest) || negb (bool_decide (pt_owner p = owner)) then Some AgentTaskActive else None)
      | None =>
          if negb (size (a_prepared s) =? 0)%nat then (s, Some AgentTaskActive)
          else (with_tasks (<[t := mkPreparedTask digest prompt owner]> (a_prepared s)) (a_committed s) (a_active s)
                  (a_committing s) s, None)
      end
  end.

Definition AgentTaskStatus (t digest : string) (s : agents) : result agent_error string :=
  match a_committed s !! t with
  | Some committed => if committed !=s digest then Err AgentTaskActive else Ok "committed"
  | None =>
      match a_prepared s !! t with
      | Some p => if pt_digest p !=s digest then Err AgentTaskActive else Ok "prepared"
      | None => Ok "absent"
      end
  end.

(** The bytes of a prepared prompt as they are typed: bracketed paste and a return. *)
Definition paste (prompt : string) : string :=
  String "027" ("[200~" +:+ prompt +:+ String "027" ("[201~" +:+ String "013" "")).

(** The first half of [CommitAgentTask]: an answer, or the bytes to submit. *)
Definition CommitBegin (t digest : string) (owner : Owner) (s : agents) : agents * (option agent_error + string) :=
  match a_committed s !! t with
  | Some committed => (s, inl (if committed !=s digest then Some AgentTaskActive else None))
  | None =>
      match a_prepared s !! t with
      | Some p =>
          if (pt_digest p !=s digest) || negb (bool_decide (pt_owner p = owner)) then (s, inl (Some AgentNotPrepared))
          else (with_tasks (a_prepared s) (a_committed s) t (Some (t, digest)) s, inr (paste (pt_prompt p)))
      | None => (s, inl (Some AgentNotPrepared))
      end
  end.

(** The second half, with the result of the write. *)
Definition CommitEnd (written : option string) (s : agents) : agents * option agent_error :=
  match a_committing s with
  | None => (s, None)
  | Some (t, digest) =>
      match written with
      | Some e => (with_tasks (a_prepared s) (a_committed s) (if a_active s ==s t then "" else a_active s) None s, Some (AgentInput e))
      | None => (with_tasks (delete t (a_prepared s)) (<[t := digest]> (a_committed s)) (a_active s) None s, None)
      end
  end.

Definition AbortAgentTask (t : string) (s : agents) : agents :=
  with_tasks (delete t (a_prepared s)) (a_committed s) (a_active s) (a_committing s) s.

(** ** Hooks of the agent *)

Inductive hook_result :=
| HookActivity (category : string)            (* marked as an activity of the session *)
| HookQueued (e : option agent_error)
| HookInvalid.

Definition advisory_category (kind : string) : option string :=
  if kind ==s "completed" then Some "task_completed"
  else if kind ==s "failed" then Some "task_failed"
  else if kind ==s "approval_required" then Some "approval_required"
  else if kind ==s "agent_needs_input" then Some "agent_needs_input"
  else None.

Definition ClearActive (t : string) (s : agents) : agents :=
  with_tasks (a_prepared s) (a_committed s) (if a_active s ==s t then "" else a_active s) (a_committing s) s.

Definition acceptAgentHookWithSource (shellFirst : bool) (out : option Z) (event : SupervisorAgentEvent) (s : agents)
  : agents * hook_result :=
  let t := a_active s in
  let kind := ae_Kind event in
  if shellFirst || (t ==s "") || (kind ==s "approval_required") || (kind ==s "agent_needs_input")
  then (s, match advisory_category kind with Some c => HookActivity c | None => HookInvalid end)
  else
    let sequence := if ae_Sequence event =? 0 then nextEventSequence s t else ae_Sequence event in
    match QueueAgentEvent out (mkAgentEvent t sequence kind (ae_Summary event) (ae_Response event) (ae_OutputEnd event)) s with
    | (s', Some e) => (s', HookQueued (Some e))
    | (s', None) => ((if terminal_kind kind then ClearActive t s' else s'), HookQueued None)
    end.

(** ** Executions *)

Inductive agent_op :=
| OQueue (out : option Z) (e : SupervisorAgentEvent)
| OAck (t : string) (sequence : Z)
| OCancel (summary : string)
| OClear (t : string)
| OPrepare (t digest prompt : string) (owner : Owner) (epoch generation : Z)
| OCommitBegin (t digest : string) (owner : Owner)
| OCommitEnd (written : option string)
| OAbort (t : string)
| OOwnership (epoch : Z)
| OClose.

Definition agent_run (o : agent_op) (s : agents) : agents :=
  let free := bool_decide (a_committing s = None) in
  match o with
  | OQueue out e => if free then fst (QueueAgentEvent out e s) else s
  | OAck t n => if free then fst (AckAgentEvent t n s) else s
  | OCancel summary => if free then fst (CancelActiveAgentTask summary s) else s
  | OClear t => ClearActive t s
  | OPrepare t digest prompt owner epoch generation => fst (PrepareAgentTask t digest prompt owner epoch generation s)
  | OCommitBegin t digest owner => if free then fst (CommitBegin t digest owner s) else s
  | OCommitEnd written => fst (CommitEnd written s)
  | OAbort t => AbortAgentTask t s
  | OOwnership epoch =>
      mkAgents (a_generation s) epoch (a_closed s) (a_prepared s) (a_committed s) (a_active s) (a_events s) (a_acks s)
        (a_terminal s) (a_bytes s) (a_count s) (a_ackOrder s) (a_committing s)
  | OClose =>
      mkAgents (a_generation s) (a_epoch s) true (a_prepared s) (a_committed s) (a_active s) (a_events s) (a_acks s)
        (a_terminal s) (a_bytes s) (a_count s) (a_ackOrder s) (a_committing s)
  end.

Definition agent_runs (os : list agent_op) (s : agents) : agents := fold_left (fun s o => agent_run o s) os s.

(** A new session. *)
Definition new_agents (epoch generation : Z) : agents :=
  mkAgents generation epoch false ∅ ∅ "" ∅ ∅ ∅ 0 0 [] None.

(** ** What is retained *)

Definition sum_map (f : list SupervisorAgentEvent -> Z) (m : gmap string (list SupervisorAgentEvent)) : Z :=
  map_fold (fun _ l n => f l + n) 0 m.

Lemma sum_map_insert f m k l : m !! k = None -> sum_map f (<[k := l]> m) = f l + sum_map f m.
Proof. intros Hk. unfold sum_map. rewrite map_fold_insert_L; [done|intros; lia|done]. Qed.

Lemma sum_map_delete f m k l : m !! k = Some l -> sum_map f (delete k m) = sum_map f m - f l.
Proof.
  intros Hk. rewrite <- (insert_delete_id m k l Hk) at 2. rewrite sum_map_insert by (by rewrite lookup_delete_eq). lia.
Qed.

(** Replacing the list of one key. *)
Lemma sum_map_replace f m k l : f [] = 0 -> sum_map f (<[k := l]> m) = sum_map f m - f (default [] (m !! k)) + f l.
Proof.
  intros Hf. rewrite <- insert_delete_eq, sum_map_insert by (by rewrite lookup_delete_eq).
  destruct (m !! k) as [l0|] eqn:Hk; simpl.
  - rewrite (sum_map_delete f m k l0 Hk). lia.
  - rewrite delete_id by done. lia.
Qed.
Lemma sum_map_remove f m k : f [] = 0 -> sum_map f (delete k m) = sum_map f m - f (default [] (m !! k)).
Proof.
  intros Hf. destruct (m !! k) as [l0|] eqn:Hk; simpl; [by apply sum_map_delete|]. rewrite delete_id by done. lia.
Qed.

Lemma sum_map_nonneg f m : (forall l, 0 <= f l) -> 0 <= sum_map f m.
Proof.
  intros Hf. unfold sum_map. apply (map_fold_weak_ind (fun n _ => 0 <= n)); [lia|]. intros i x m' r _ Hr. specialize (Hf x). lia.
Qed.

Definition lenZ (l : list SupervisorAgentEvent) : Z := Z.of_nat (length l).

Lemma bytes_sum_app l l' : bytes_sum (l ++ l') = bytes_sum l + bytes_sum l'.
Proof. induction l as [|e l IH]; simpl; [done|]. fold (bytes_sum (l ++ l')). fold (bytes_sum l). rewrite IH. lia. Qed.
Lemma event_bytes_nonneg e : 0 <= event_bytes e.
Proof. unfold event_bytes. pose proof (zlen_nonneg (ae_Summary e)). pose proof (zlen_nonneg (ae_Response e)). lia. Qed.
Lemma bytes_sum_nonneg l : 0 <= bytes_sum l.
Proof. induction l as [|e l IH]; simpl; [done|]. fold (bytes_sum l). pose proof (event_bytes_nonneg e). lia. Qed.

Lemma cut_events_app n l : fst (cut_events n l) ++ snd (cut_events n l) = l.
Proof. induction l as [|e l IH]; simpl; [done|]. destruct (_ <=? _); [|done]. destruct (cut_events n l). simpl in *. by f_equal. Qed.

(** The counters are exact and within their limits. *)
Record counted (s : agents) : Prop := mkCounted {
  c_count : a_count s = sum_map lenZ (a_events s);
  c_bytes : a_bytes s = sum_map bytes_sum (a_events s);
  c_count_max : a_count s <= maxRetainedAgentEvents;
  c_bytes_max : a_bytes s <= maxRetainedAgentBytes;
}.

Lemma counted_append e terminal s :
  counted s -> a_count s < maxRetainedAgentEvents -> a_bytes s + event_bytes e <= maxRetainedAgentBytes ->
  counted (append_event e terminal s).
Proof.
  intros [Hc Hb Hcm Hbm] H1 H2. split; simpl; try lia; rewrite sum_map_replace by done; unfold events_of.
  - unfold lenZ at 3. rewrite length_app. simpl. unfold lenZ at 2. lia.
  - rewrite bytes_sum_app. simpl. lia.
Qed.

Lemma with_output_bytes out e : event_bytes (with_output_end out e) = event_bytes e.
Proof. unfold with_output_end. by repeat case_match. Qed.

Lemma QueueAgentEvent_cases out event s s' r :
  QueueAgentEvent out event s = (s', r) ->
  s' = s \/
  let e := with_output_end out event in
  s' = append_event e (terminal_kind (ae_Kind e)) s /\ r = None
  /\ at0 (a_terminal s) (ae_TaskID e) = 0 /\ at0 (a_acks s) (ae_TaskID e) < ae_Sequence e
  /\ a_count s < maxRetainedAgentEvents /\ a_bytes s + event_bytes e + zlen (ae_TaskID e) + 64 <= maxRetainedAgentBytes
  /\ ae_Sequence e = match last (events_of s (ae_TaskID e)) with Some l => u64 (ae_Sequence l + 1) | None => 1 end
  /\ (forall l, last (events_of s (ae_TaskID e)) = Some l -> ae_Sequence l < ae_Sequence e).
Proof.
  unfold QueueAgentEvent. intros H. repeat case_hyp H; simplify_eq; auto; right; cbv zeta; bool_to_prop;
    split_and!; try done; try lia; intros l' Hl'; simplify_eq; lia.
Qed.

Lemma counted_run o s : counted s -> counted (agent_run o s).
Proof.
  intros Hs. assert (H1 : forall P C A M, counted (with_tasks P C A M s)) by (by destruct Hs).
  destruct o; simpl; try (by destruct Hs).
  - case_bool_decide; [|done]. destruct (QueueAgentEvent out e s) as [s' r] eqn:Hq. simpl.
    apply QueueAgentEvent_cases in Hq. destruct Hq as [->|(-> & _ & _ & _ & Hc & Hb & _)]; [done|].
    pose proof (zlen_nonneg (ae_TaskID (with_output_end out e))). apply counted_append; [done|done|lia].
  - case_bool_decide; [|done]. unfold AckAgentEvent. destruct (_ <=? _); [done|]. destruct (last (events_of s t)); [|done].
    destruct (_ <? _); [done|]. pose proof (cut_events_app sequence (events_of s t)) as Hcut.
    destruct (cut_events sequence (events_of s t)) as [acked rest]. simpl in Hcut.
    destruct (evict _ _) as [order acks]. simpl. destruct Hs as [Hc Hb Hcm Hbm].
    pose proof (bytes_sum_nonneg acked). unfold events_of in Hcut.
    assert (Hlen : lenZ (default [] (a_events s !! t)) = lenZ acked + lenZ rest) by (rewrite <- Hcut; unfold lenZ; rewrite length_app; lia).
    assert (Hbs : bytes_sum (default [] (a_events s !! t)) = bytes_sum acked + bytes_sum rest) by (by rewrite <- Hcut, bytes_sum_app).
    assert (forall f, f [] = 0 -> f (default [] (a_events s !! t)) = f acked + f rest ->
      sum_map f (match rest with [] => delete t (a_events s) | _ => <[t := rest]> (a_events s) end) = sum_map f (a_events s) - f acked) as Hsum.
    { intros f Hf Hsplit. destruct rest; [rewrite sum_map_remove by done|rewrite sum_map_replace by done]; lia. }
    split; simpl; try rewrite Hsum by done; unfold lenZ in *; lia.
  - case_bool_decide; [|done]. unfold CancelActiveAgentTask. cbv zeta. destruct (_ ==s _); [done|]. destruct (_ || _) eqn:Hfull; [done|].
    bool_to_prop. simpl. pose proof (zlen_nonneg (a_active s)). apply counted_append; [done|done|].
    unfold event_bytes. cbn [ae_Summary ae_Response]. change (zlen "") with 0. lia.
  - unfold PrepareAgentTask. repeat case_match; simpl; auto.
  - case_bool_decide; [|done]. unfold CommitBegin. repeat case_match; simpl; auto.
  - unfold CommitEnd. repeat case_match; simpl; auto.
Qed.

(** ** The sequences of the retained events *)

Fixpoint run_from (a : Z) (l : list SupervisorAgentEvent) : Prop :=
  match l with [] => True | e :: l' => ae_Sequence e = a /\ run_from (a + 1) l' end.

Lemma run_from_app a l l' : run_from a (l ++ l') <-> run_from a l /\ run_from (a + lenZ l) l'.
Proof.
  revert a. induction l as [|e l IH]; intros a; simpl.
  - replace (a + lenZ []) with a by (unfold lenZ; simpl; lia). tauto.
  - rewrite IH. replace (a + 1 + lenZ l) with (a + lenZ (e :: l)) by (unfold lenZ; simpl; lia). tauto.
Qed.

Lemma run_from_last a l e : run_from a l -> last l = Some e -> ae_Sequence e = a + lenZ l - 1.
Proof.
  intros H Hl. apply last_Some in Hl. destruct Hl as [l' ->]. apply run_from_app in H. destruct H as [_ [H _]].
  unfold lenZ in *. rewrite length_app. simpl. lia.
Qed.

Lemma cut_events_run n a l : run_from (a + 1) l -> a <= n <= a + lenZ l ->
  run_from (n + 1) (snd (cut_events n l)) /\ lenZ (snd (cut_events n l)) = a + lenZ l - n.
Proof.
  revert a. induction l as [|e l IH]; intros a H Hn; simpl.
  - unfold lenZ in *. simpl in *. split; [done|lia].
  - destruct H as [He Hl]. destruct (ae_Sequence e <=? n) eqn:Hle.
    + destruct (cut_events n l) as [x y] eqn:Hc. simpl. destruct (IH (a + 1)) as [H1 H2].
      { by replace (a + 1 + 1) with (a + 1 + 1) by lia. }
      { apply Z.leb_le in Hle. unfold lenZ in *. simpl in *. lia. }
      simpl in *. split; [done|]. unfold lenZ in *. simpl. lia.
    + apply Z.leb_gt in Hle. assert (n = a) as -> by lia. simpl. split; [done|]. lia.
Qed.

(** While no tombstone has been evicted, after at most [n] operations. *)
Record contiguous (n : Z) (s : agents) : Prop := mkContiguous {
  k_acks : forall t, 0 <= at0 (a_acks s) t <= n;
  k_events : forall t l, a_events s !! t = Some l ->
    l <> [] /\ Forall (fun e => ae_TaskID e = t) l /\ run_from (at0 (a_acks s) t + 1) l
    /\ at0 (a_acks s) t + lenZ l <= n;
}.

Lemma contiguous_weaken n n' s : n <= n' -> contiguous n s -> contiguous n' s.
Proof.
  intros Hn [Ha He]. split; intros t; [specialize (Ha t); lia|]. intros l Hl. destruct (He t l Hl) as (? & ? & ? & ?).
  split_and!; try done. lia.
Qed.

(** The next sequence number of a task. *)
Lemma contiguous_next n s t : contiguous n s -> n + 1 < 2 ^ 64 ->
  nextEventSequence s t = at0 (a_acks s) t + lenZ (events_of s t) + 1
  /\ run_from (at0 (a_acks s) t + 1) (events_of s t) /\ at0 (a_acks s) t + lenZ (events_of s t) <= n.
Proof.
  intros [Ha He] Hn. specialize (Ha t). unfold nextEventSequence, events_of. destruct (a_events s !! t) as [l|] eqn:Hl; simpl.
  - destruct (He t l Hl) as (_ & _ & Hr & Hm). fold (lenZ l). unfold u64. rewrite Z.mod_small by (unfold lenZ in *; lia).
    split_and!; [lia|done|lia].
  - unfold u64. rewrite Z.mod_small by lia. unfold lenZ. simpl. split_and!; [lia|done|lia].
Qed.

Lemma contiguous_append n s e terminal :
  contiguous n s -> n + 1 < 2 ^ 64 -> ae_Sequence e = at0 (a_acks s) (ae_TaskID e) + lenZ (events_of s (ae_TaskID e)) + 1 ->
  contiguous (n + 1) (append_event e terminal s).
Proof.
  intros Hk Hn Hs. destruct (contiguous_next n s (ae_TaskID e) Hk Hn) as (_ & Hr & Hm).
  pose proof Hk as [Ha He]. split; simpl.
  - intros t. specialize (Ha t). lia.
  - intros t l Hl. destruct (decide (t = ae_TaskID e)) as [->|Ht].
    + rewrite lookup_insert_eq in Hl. injection Hl as <-. split_and!.
      * by destruct (events_of s (ae_TaskID e)).
      * apply Forall_app. split; [|by repeat constructor]. unfold events_of. destruct (a_events s !! ae_TaskID e) as [l|] eqn:Hl; [|constructor].
        by destruct (He _ _ Hl) as (_ & ? & _).
      * apply run_from_app. split; [done|]. simpl. split; [lia|done].
      * unfold lenZ in *. rewrite length_app. simpl. lia.
    + rewrite lookup_insert_ne in Hl by congruence. destruct (He t l Hl) as (? & ? & ? & ?). split_and!; try done. lia.
Qed.

Lemma evict_short order acks : (length order <= maxAgentAckTombstones)%nat -> evict order acks = (order, acks).
Proof. destruct order as [|t o]; simpl; [done|]. intros H. destruct (Nat.ltb_spec maxAgentAckTombstones (S (length o))); [lia|done]. Qed.

Lemma evict_length order acks : (length order <= maxAgentAckTombstones)%nat \/ length (fst (evict order acks)) = maxAgentAckTombstones.
Proof.
  revert acks. induction order as [|t o IH]; intros acks; simpl; [left; lia|].
  destruct (Nat.ltb_spec maxAgentAckTombstones (S (length o))); [|left; lia]. right.
  destruct (IH (delete t acks)) as [H1|H1]; [|done]. rewrite evict_short by done. simpl. lia.
Qed.

Lemma contiguous_ack n s t m :
  contiguous n s -> n + 1 < 2 ^ 64 -> (length (a_ackOrder s) < maxAgentAckTombstones)%nat ->
  contiguous n (fst (AckAgentEvent t m s)).
Proof.
  intros Hk Hn Ho. unfold AckAgentEvent. destruct (m <=? at0 (a_acks s) t) eqn:Hm; [done|]. apply Z.leb_gt in Hm.
  destruct (contiguous_next n s t Hk Hn) as (_ & Hr & Hlen). destruct (last (events_of s t)) as [e|] eqn:Hl; [|done].
  pose proof (run_from_last _ _ _ Hr Hl) as He. destruct (ae_Sequence e <? m) eqn:Hem; [done|]. apply Z.ltb_ge in Hem.
  destruct (cut_events_run m (at0 (a_acks s) t) (events_of s t)) as [Hrun Hlrest]; [done|lia|].
  pose proof (cut_events_app m (events_of s t)) as Happ. destruct (cut_events m (events_of s t)) as [acked rest]. simpl in *.
  rewrite evict_short by (case_match; [|rewrite length_app; simpl]; lia). simpl. destruct Hk as [Ha Hev]. pose proof (Ha t) as Hat.
  assert (Hat0 : forall t', at0 (<[t := m]> (a_acks s)) t' = if decide (t' = t) then m else at0 (a_acks s) t').
  { intros t'. unfold at0. case_decide; [subst; by rewrite lookup_insert_eq|by rewrite lookup_insert_ne by congruence]. }
  split; simpl; intros t'; rewrite Hat0; [specialize (Ha t'); case_decide; lia|].
  intros l Hl'. case_decide as Ht'.
  - subst t'. destruct rest as [|e0 rest]; [by rewrite lookup_delete_eq in Hl'|]. rewrite lookup_insert_eq in Hl'. injection Hl' as <-.
    split_and!; try done; [|lia]. unfold events_of in Happ. destruct (a_events s !! t) as [l0|] eqn:Hl0; simpl in Happ; [|by destruct acked].
    destruct (Hev t l0 Hl0) as (_ & Hf & _). rewrite <- Happ in Hf. apply Forall_app in Hf. apply Hf.
  - apply Hev. destruct rest; [by rewrite lookup_delete_ne in Hl' by congruence|by rewrite lookup_insert_ne in Hl' by congruence].
Qed.

Lemma with_output_id out e : ae_TaskID (with_output_end out e) = ae_TaskID e /\ ae_Sequence (with_output_end out e) = ae_Sequence e.
Proof. unfold with_output_end. by repeat case_match. Qed.

Lemma contiguous_run n o s :
  contiguous n s -> n + 1 < 2 ^ 64 -> (length (a_ackOrder (agent_run o s)) < maxAgentAckTombstones)%nat ->
  (length (a_ackOrder s) <= length (a_ackOrder (agent_run o s)))%nat -> contiguous (n + 1) (agent_run o s).
Proof.
  intros Hk Hn Ho Hmono. assert (Hw : contiguous (n + 1) s) by (eapply contiguous_weaken; [|done]; lia).
  assert (H1 : forall P C A M, contiguous (n + 1) (with_tasks P C A M s)) by (by destruct Hw).
  destruct o; simpl in *; try (by destruct Hw).
  - case_bool_decide; [|done]. destruct (QueueAgentEvent out e s) as [s' r] eqn:Hq. simpl in *.
    apply QueueAgentEvent_cases in Hq. destruct Hq as [->|(-> & _ & _ & Hack & _ & _ & Hseq & _)]; [done|].
    apply contiguous_append; try done. set (t := ae_TaskID _) in *. destruct (contiguous_next n s t Hk Hn) as (_ & Hr & Hlen).
    rewrite Hseq. destruct (last (events_of s t)) as [l|] eqn:Hl.
    + pose proof (run_from_last _ _ _ Hr Hl) as Hls. destruct Hk as [Ha _]. specialize (Ha t).
      assert (0 <= lenZ (events_of s t)) by (unfold lenZ; lia). unfold u64. rewrite Z.mod_small by lia. lia.
    + rewrite Hseq in Hack. apply last_None in Hl. rewrite Hl. unfold lenZ. simpl. destruct Hk as [Ha _]. specialize (Ha t).
    lia.
  - case_bool_decide; [|done]. apply (contiguous_weaken n); [lia|]. apply contiguous_ack; [done|done|].
    match type of Hmono with (?a <= ?b)%nat => apply (Nat.le_lt_trans a b); done end.
  - case_bool_decide; [|done]. unfold CancelActiveAgentTask. cbv zeta. repeat (case_match; [done|]). simpl. apply contiguous_append; try done.
    simpl. by destruct (contiguous_next n s (a_active s) Hk Hn) as (? & _).
  - unfold PrepareAgentTask. repeat case_match; simpl; auto.
  - case_bool_decide; [|done]. unfold CommitBegin. repeat case_match; simpl; auto.
  - unfold CommitEnd. repeat case_match; simpl; auto.
Qed.

(** The list of tombstones only grows, up to its limit. *)
Lemma order_run o s : (length (a_ackOrder s) <= maxAgentAckTombstones)%nat ->
  (length (a_ackOrder s) <= length (a_ackOrder (agent_run o s)) <= maxAgentAckTombstones)%nat.
Proof.
  intros Hs. destruct o; simpl; try lia.
  - case_bool_decide; [|lia]. destruct (QueueAgentEvent out e s) as [s' r] eqn:Hq. simpl.
    apply QueueAgentEvent_cases in Hq. destruct Hq as [->|(-> & _)]; simpl; lia.
  - case_bool_decide; [|lia]. unfold AckAgentEvent. destruct (_ <=? _); [simpl; lia|]. destruct (last _); [|simpl; lia].
    destruct (_ <? _); [simpl; lia|]. destruct (cut_events _ _) as [x y].
    set (order := match a_acks s !! t with None => _ | Some _ => _ end). set (acks := <[t := sequence]> (a_acks s)).
    assert (Hl : (length (a_ackOrder s) <= length order <= S (length (a_ackOrder s)))%nat) by (unfold order; case_match; rewrite ?length_app; simpl; lia).
    destruct (evict_length order acks) as [Hshort|Hlong]; [rewrite evict_short by done; simpl; lia|].
    destruct (evict order acks) as [o' a']. simpl in *. lia.
  - case_bool_decide; [|lia]. unfold CancelActiveAgentTask. cbv zeta. repeat case_match; simpl; lia.
  - unfold PrepareAgentTask. repeat case_match; simpl; lia.
  - case_bool_decide; [|lia]. unfold CommitBegin. repeat case_match; simpl; lia.
  - unfold CommitEnd. repeat case_match; simpl; lia.
Qed.

Lemma agent_runs_snoc os o s : agent_runs (os ++ [o]) s = agent_run o (agent_runs os s).
Proof. unfold agent_runs. by rewrite fold_left_app. Qed.

(** The events the supervisor keeps for delivery are bounded and, per task, without
    holes: whatever is queued, acknowledged, cancelled, prepared and committed in
    whatever order, the counters are exactly the number and the bytes of the retained
    events and stay within 128 events and 512 KiB; and as long as no tombstone was
    evicted, the retained events of a task belong to it and have the sequence
    numbers that follow the last acknowledged one. *)
Theorem agent_events_retained (os : list agent_op) (epoch generation : Z) :
  let s := agent_runs os (new_agents epoch generation) in
  a_count s = sum_map lenZ (a_events s) /\ a_count s <= maxRetainedAgentEvents
  /\ a_bytes s = sum_map bytes_sum (a_events s) /\ a_bytes s <= maxRetainedAgentBytes
  /\ (Z.of_nat (length os) + 1 < 2 ^ 64 -> (length (a_ackOrder s) < maxAgentAckTombstones)%nat ->
      forall t l, a_events s !! t = Some l ->
        l <> [] /\ Forall (fun e => ae_TaskID e = t) l /\ run_from (at0 (a_acks s) t + 1) l).
Proof.
  assert (H : let s := agent_runs os (new_agents epoch generation) in
    counted s /\ (length (a_ackOrder s) <= maxAgentAckTombstones)%nat
    /\ (Z.of_nat (length os) + 1 < 2 ^ 64 -> (length (a_ackOrder s) < maxAgentAckTombstones)%nat -> contiguous (Z.of_nat (length os)) s)).
  { induction os as [|o os IH] using rev_ind.
    - simpl. split_and!; [by split; vm_compute| |].
      + apply Nat.le_0_l.
      + intros _ _. split; simpl; [intros t; unfold at0; rewrite lookup_empty; simpl; lia|]. intros t l Hl. by rewrite lookup_empty in Hl.
    - rewrite agent_runs_snoc. cbv zeta in *. destruct IH as (Hc & Ho & Hk). destruct (order_run o _ Ho) as [Hm1 Hm2].
      split_and!; [by apply counted_run|done|]. rewrite length_app. simpl. intros Hn Hlt.
      replace (Z.of_nat (length os + 1)) with (Z.of_nat (length os) + 1) by lia. apply contiguous_run; try done; [apply Hk|]; lia. }
  cbv zeta in *. destruct H as ([H1 H2 H3 H4] & _ & Hk). split_and!; try done.
  intros Hn Ho t l Hl. destruct (Hk Hn Ho) as [_ He]. destruct (He t l Hl) as (? & ? & ? & _). done.
Qed.

(** ** The fence behind a terminal event *)

Definition prepares (t : string) (o : agent_op) : bool :=
  match o with OPrepare t' _ _ _ _ _ => t' ==s t | _ => false end.

Record fenced_task (t : string) (n : Z) (s0 s : agents) : Prop := mkFenced {
  f_terminal : at0 (a_terminal s) t = n;
  f_active : a_active s <> t;
  f_prepared : a_prepared s !! t = None;
  f_suffix : exists l, events_of s0 t = l ++ events_of s t;
}.

Lemma fenced_append t n s0 s e terminal :
  fenced_task t n s0 s -> ae_TaskID e <> t -> t <> "" -> fenced_task t n s0 (append_event e terminal s).
Proof.
  intros [H1 H2 H3 H4] He Ht. split; simpl; try done.
  - unfold at0 in *. case_match; [|done]. by rewrite lookup_insert_ne.
  - by case_match.
  - unfold events_of in *. simpl. by rewrite lookup_insert_ne.
Qed.

Lemma fenced_tasks t n s0 s P C A M :
  fenced_task t n s0 s -> A <> t -> P !! t = None -> fenced_task t n s0 (with_tasks P C A M s).
Proof. intros [H1 H2 H3 H4] HA HP. by split. Qed.

Lemma fenced_run t n s0 o s : n <> 0 -> t <> "" -> prepares t o = false -> fenced_task t n s0 s -> fenced_task t n s0 (agent_run o s).
Proof.
  intros Hn Ht Ho Hs. pose proof Hs as [H1 H2 H3 H4]. destruct o; simpl; try (by split).
  - case_bool_decide; [|done]. destruct (QueueAgentEvent out e s) as [s' r] eqn:Hq. simpl.
    apply QueueAgentEvent_cases in Hq. destruct Hq as [->|(-> & _ & Hz & _)]; [done|].
    apply fenced_append; try done. intros He. rewrite He in Hz. congruence.
  - case_bool_decide; [|done]. unfold AckAgentEvent. destruct (_ <=? _); [done|]. destruct (last _); [|done].
    destruct (_ <? _); [done|]. pose proof (cut_events_app sequence (events_of s t0)) as Happ.
    destruct (cut_events _ _) as [acked rest]. destruct (evict _ _) as [order acks]. simpl in *. split; simpl; try done.
    destruct H4 as [l Hl]. unfold events_of in *. simpl. destruct (decide (t0 = t)) as [->|Ht0].
    + exists (l ++ acked). rewrite Hl, <- app_assoc. f_equal. rewrite <- Happ. f_equal.
      destruct rest; [by rewrite lookup_delete_eq|by rewrite lookup_insert_eq].
    + exists l. rewrite Hl. destruct rest; [by rewrite lookup_delete_ne|by rewrite lookup_insert_ne].
  - case_bool_decide; [|done]. unfold CancelActiveAgentTask. cbv zeta. repeat (case_match; [done|]). simpl. by apply fenced_append.
  - apply fenced_tasks; try done. by case_match.
  - unfold PrepareAgentTask. repeat case_match; simpl; try done. apply fenced_tasks; try done. simpl in Ho.
    rewrite lookup_insert_ne; [done|]. by apply String.eqb_neq in Ho.
  - case_bool_decide; [|done]. unfold CommitBegin. repeat case_match; simpl; try done. apply fenced_tasks; try done. congruence.
  - unfold CommitEnd. destruct (a_committing s) as [[t1 d1]|]; [|done]. destruct written; simpl; apply fenced_tasks; try done; [by case_match|].
    destruct (decide (t1 = t)) as [->|Ht1]; [by rewrite lookup_delete_eq|by rewrite lookup_delete_ne].
  - apply fenced_tasks; try done. destruct (decide (t0 = t)) as [->|Ht0]; [by rewrite lookup_delete_eq|by rewrite lookup_delete_ne].
Qed.

(** A task has one terminal result: once its completion, failure or cancellation is
    recorded, no later operation adds an event to it, until it is prepared
    again; its retained events only get acknowledged, from the front. *)
Theorem terminal_event_is_last (t : string) (s : agents) (os : list agent_op) :
  at0 (a_terminal s) t <> 0 -> t <> "" -> a_active s <> t -> a_prepared s !! t = None ->
  Forall (fun o => prepares t o = false) os ->
  let s' := agent_runs os s in
  at0 (a_terminal s') t = at0 (a_terminal s) t /\ exists l, events_of s t = l ++ events_of s' t.
Proof.
  intros Hn Ht Ha Hp Hos. cbv zeta. assert (Hf : fenced_task t (at0 (a_terminal s) t) s (agent_runs os s)).
  { induction os as [|o os IH] using rev_ind; [split; try done; by exists []|].
    rewrite agent_runs_snoc. apply Forall_app in Hos. destruct Hos as [Hos Ho]. inversion Ho; subst. apply fenced_run; auto. }
  destruct Hf. auto.
Qed.

(** ** A task whose events are all acknowledged *)

(** After every event of a running task has been acknowledged, no further event
    of it is accepted: whatever its sequence number, queueing it changes nothing,
    and the completion and the failure of the task are refused because their number
    is not one. *)
Theorem acked_task_reports_nothing (s : agents) (t : string) (out : option Z) :
  events_of s t = [] -> 0 < at0 (a_acks s) t < 2 ^ 64 - 1 ->
  (forall e, ae_TaskID e = t -> fst (QueueAgentEvent out e s) = s)
  /\ (a_active s = t -> t <> "" -> at0 (a_terminal s) t = 0 ->
      forall summary, snd (FailActiveAgentTask out summary s) = false).
Proof.
  intros He Ha.
  assert (Hq : forall e, ae_TaskID e = t -> QueueAgentEvent out e s = (s, snd (QueueAgentEvent out e s))).
  { intros e Het. destruct (QueueAgentEvent out e s) as [s' r] eqn:Hq. apply QueueAgentEvent_cases in Hq. simpl.
    destruct Hq as [->|(_ & _ & _ & H1 & _ & _ & H2 & _)]; [done|]. destruct (with_output_id out e) as [Hid _].
    rewrite Hid, Het in *. rewrite He in H2. simpl in H2. lia. }
  split; [intros e Het; by rewrite Hq|]. intros Hact Ht Hz summary. unfold FailActiveAgentTask.
  destruct (a_active s ==s "") eqn:H0; [done|]. rewrite Hact.
  assert (Hn : nextEventSequence s t = at0 (a_acks s) t + 1) by (unfold nextEventSequence, u64; rewrite He; simpl; rewrite Z.mod_small; lia).
  rewrite Hn. unfold QueueAgentEvent. set (e := mkAgentEvent _ _ _ _ _ _). destruct (with_output_id out e) as [Hi Hs].
  rewrite Hi, Hs. simpl (ae_TaskID e). simpl (ae_Sequence e). rewrite Hz, He.
  destruct (_ || _); [done|]. simpl. destruct (Z.leb_spec (at0 (a_acks s) t + 1) (at0 (a_acks s) t)); [lia|].
  destruct (_ || _); [done|]. simpl. destruct (Z.eqb_spec (at0 (a_acks s) t + 1) 1); [lia|done].
Qed.

End Tasks.

(** ** On a concrete execution *)

Module AgentWitness.
Import Sample.

Definition task_prompt : string := "fix the bug".
Definition running : list agent_op :=
  [OPrepare "task-1" (digest task_prompt) task_prompt gateway 1 1; OCommitBegin "task-1" (digest task_prompt) gateway; OCommitEnd None].
Definition progress : SupervisorAgentEvent := mkAgentEvent "task-1" 1 "progress" "working" "" 0.
Definition completed : SupervisorAgentEvent := mkAgentEvent "" 0 "completed" "" "done" 0.
Definition acked : agents := agent_runs digest (running ++ [OQueue None progress; OAck "task-1" 1]) (new_agents 1 1).

Lemma acked_task_reports_nothing_witness :
  a_active acked = "task-1" /\ snd (FailActiveAgentTask None "gone" acked) = false
  /\ snd (acceptAgentHookWithSource false None completed acked) = HookQueued (Some AgentMustStartAtOne).
Proof.
  destruct (acked_task_reports_nothing acked "task-1" None) as [_ H]; [vm_compute; reflexivity|vm_compute; split; reflexivity|].
  split_and!; [vm_compute; reflexivity| |vm_compute; reflexivity].
  apply H; [vm_compute; reflexivity|discriminate|vm_compute; reflexivity].
Defined.

Definition finishing : list agent_op :=
  running ++ [OQueue None progress; OQueue None (mkAgentEvent "task-1" 2 "completed" "" "done" 7)].
Definition finished : agents := agent_runs digest finishing (new_agents 1 1).

Lemma terminal_event_is_last_witness :
  exists l, events_of finished "task-1" = l ++ events_of (agent_runs digest [OAck "task-1" 1; OCancel "stop"] finished) "task-1".
Proof.
  apply (terminal_event_is_last digest "task-1" finished [OAck "task-1" 1; OCancel "stop"]).
  - vm_compute. discriminate.
  - discriminate.
  - vm_compute. discriminate.
  - vm_compute. reflexivity.
  - repeat constructor.
Defined.

Lemma agent_events_retained_witness :
  let s := agent_runs digest finishing (new_agents 1 1) in
  exists l, a_events s !! "task-1" = Some l /\ run_from (at0 (a_acks s) "task-1" + 1) l.
Proof.
  intros s. destruct (agent_events_retained digest finishing 1 1) as (_ & _ & _ & _ & H). fold s in H.
  destruct (a_events s !! "task-1") as [l|] eqn:Hl; [|vm_compute in Hl; discriminate].
  exists l. split; [reflexivity|].
  assert (Hn : (length (a_ackOrder s) < maxAgentAckTombstones)%nat) by (apply Nat.ltb_lt; vm_compute; reflexivity).
  assert (Hz : Z.of_nat (length finishing) + 1 < 2 ^ 64) by (vm_compute; reflexivity).
  destruct (H Hz Hn _ l Hl) as (_ & _ & Hr). exact Hr.
Defined.

End AgentWitness.
