(* ===== verification/Attention.v ===== *)
(** * Terminal output that asks for attention, and terminal queries

    [runtime/attention.go]: the detector of bells and notification sequences in the
    output of a terminal; [supervisor/terminal_queries.go]: the parser that answers
    the queries a program sends to its terminal; and the activities of
    [supervisor/session.go] that wait to be reported.  Both parsers see the output
    in chunks and keep their state between them. *)

From S2P Require Import Prelude GoStrings GoMarshal.
Local Open Scope go_scope.
Local Open Scope nat_scope.

Definition BEL : ascii := "007".
Definition ESC : ascii := "027".
Definition backslash : ascii := "092".

(** ** The detector *)

Definition maxAttentionSequenceBytes : nat := Z.to_nat 4096.

Inductive attentionParseState :=
| attentionText
| attentionEscape
| attentionOSC
| attentionOSCEscape
| attentionDiscardOSC
| attentionDiscardOSCEscape.

Record AttentionDetector := mkDetector {
  ad_state : attentionParseState;
  ad_payload : string;
  ad_offset : Z;
}.

Definition new_detector : AttentionDetector := mkDetector attentionText "" 0.

Definition set_state (st : attentionParseState) (d : AttentionDetector) : AttentionDetector :=
  mkDetector st (ad_payload d) (ad_offset d).
Definition reset (d : AttentionDetector) : AttentionDetector := mkDetector attentionText "" (ad_offset d).

Definition appendPayload (b : ascii) (d : AttentionDetector) : AttentionDetector :=
  if maxAttentionSequenceBytes <=? slen (ad_payload d) then mkDetector attentionDiscardOSC "" (ad_offset d)
  else mkDetector (ad_state d) (ad_payload d +:+ String b "") (ad_offset d).

Definition allowlistedAttentionOSC (payload : string) : bool :=
  let '(command, body, found) := Cut payload ";" in
  found &&
  (if command ==s "9" then negb (body ==s "4") && negb (HasPrefix body "4;")
   else (command ==s "99") || (command ==s "777")).

(** One byte: the new state, and whether a notification ends here. *)
Definition feed_byte (b : ascii) (d0 : AttentionDetector) : AttentionDetector * bool :=
  let d := mkDetector (ad_state d0) (ad_payload d0) (u64 (ad_offset d0 + 1)) in
  match ad_state d with
  | attentionText =>
      if b ==c BEL then (d, true) else if b ==c ESC then (set_state attentionEscape d, false) else (d, false)
  | attentionEscape =>
      if b ==c "]" then (mkDetector attentionOSC "" (ad_offset d), false)
      else if b ==c ESC then (set_state attentionEscape d, false)
      else (set_state attentionText d, b ==c BEL)
  | attentionOSC =>
      if b ==c BEL then (reset d, allowlistedAttentionOSC (ad_payload d))
      else if b ==c ESC then (set_state attentionOSCEscape d, false)
      else (appendPayload b d, false)
  | attentionOSCEscape =>
      if (b ==c backslash) || (b ==c BEL) then (reset d, allowlistedAttentionOSC (ad_payload d))
      else
        let d' := appendPayload b (appendPayload ESC d) in
        (match ad_state d' with attentionText => d' | _ => set_state attentionOSC d' end, false)
  | attentionDiscardOSC =>
      if b ==c BEL then (reset d, false) else if b ==c ESC then (set_state attentionDiscardOSCEscape d, false) else (d, false)
  | attentionDiscardOSCEscape =>
      if (b ==c backslash) || (b ==c BEL) then (reset d, false)
      else if b ==c ESC then (d, false) else (set_state attentionDiscardOSC d, false)
  end.

Fixpoint FeedOffsets (data : string) (d : AttentionDetector) : AttentionDetector * list Z :=
  match data with
  | "" => (d, [])
  | String b data' =>
      let '(d1, hit) := feed_byte b d in
      let '(d2, offsets) := FeedOffsets data' d1 in
      (d2, if hit then ad_offset d1 :: offsets else offsets)
  end.

(** ** The query parser *)

Definition maxTerminalQueryBytes : nat := 64.
Definition maxTerminalQueryReplies : nat := 32.

(** The states 0 to 4. *)
Inductive query_state := QGround | QEsc | QCSI | QOSC | QOSCEsc.
Record terminalQueryParser := mkQuery { q_state : query_state; q_data : string }.

Definition terminalCSIReply (params : string) (final : ascii) (size : Z) : string :=
  if (final ==c "c") && ((params ==s "") || (params ==s "0")) then String ESC "[?6c"
  else if (final ==c "c") && ((params ==s ">") || (params ==s ">0")) then String ESC "[>0;0;0c"
  else if (final ==c "n") && (params ==s "5") then String ESC "[0n"
  else if (final ==c "n") && (params ==s "6") then String ESC "[1;1R"
  else if (final ==c "t") && (params ==s "18") then
    String ESC ("[8;" +:+ int_text (Z.shiftr size 16) +:+ ";" +:+ int_text (Z.land size 65535) +:+ "t")
  else if (final ==c "q") && (params ==s ">") then String ESC ("P>|duckway 0" +:+ String ESC (String backslash ""))
  else if (final ==c "u") && (params ==s "?") then String ESC "[?0u"
  else "".

Definition terminalOSCReply (params : string) : string :=
  if params ==s "10;?" then String ESC ("]10;rgb:ffff/ffff/ffff" +:+ String ESC (String backslash ""))
  else if params ==s "11;?" then String ESC ("]11;rgb:0000/0000/0000" +:+ String ESC (String backslash ""))
  else "".

Definition ground : terminalQueryParser := mkQuery QGround "".

Definition add_reply (reply : string) (replies : list string) : list string :=
  if negb (slen reply =? 0) && (length replies <? maxTerminalQueryReplies) then replies ++ [reply] else replies.

Definition query_byte (b : ascii) (size : Z) (p : terminalQueryParser) (replies : list string)
  : terminalQueryParser * list string :=
  match q_state p with
  | QGround => (if b ==c ESC then mkQuery QEsc (q_data p) else p, replies)
  | QEsc =>
      (if b ==c "[" then mkQuery QCSI "" else if b ==c "]" then mkQuery QOSC ""
       else if b ==c ESC then p else mkQuery QGround (q_data p), replies)
  | QCSI =>
      if in_range 64 126 (byteN b) then (ground, add_reply (terminalCSIReply (q_data p) b size) replies)
      else if in_range 32 63 (byteN b) && (slen (q_data p) <? maxTerminalQueryBytes)
      then (mkQuery QCSI (q_data p +:+ String b ""), replies) else (ground, replies)
  | QOSC =>
      if b ==c BEL then (ground, add_reply (terminalOSCReply (q_data p)) replies)
      else if b ==c ESC then (mkQuery QOSCEsc (q_data p), replies)
      else if (byteN b <? 32)%N || (maxTerminalQueryBytes <=? slen (q_data p)) then (ground, replies)
      else (mkQuery QOSC (q_data p +:+ String b ""), replies)
  | QOSCEsc =>
      if b ==c backslash then (ground, add_reply (terminalOSCReply (q_data p)) replies)
      else if b ==c ESC then (mkQuery QEsc "", replies) else (ground, replies)
  end.

Fixpoint query_loop (chunk : string) (size : Z) (p : terminalQueryParser) (replies : list string)
  : terminalQueryParser * list string :=
  match chunk with
  | "" => (p, replies)
  | String b chunk' => let '(p1, r1) := query_byte b size p replies in query_loop chunk' size p1 r1
  end.

Definition Feed (chunk : string) (size : Z) (p : terminalQueryParser) : terminalQueryParser * list string :=
  query_loop chunk size p [].

(** ** The detector on a stream of tokens *)

Local Opaque maxAttentionSequenceBytes.

Lemma FeedOffsets_app (a b : string) (d : AttentionDetector) :
  FeedOffsets (a +:+ b) d =
  let '(d1, o1) := FeedOffsets a d in let '(d2, o2) := FeedOffsets b d1 in (d2, o1 ++ o2).
Proof.
  revert d. induction a as [|c a IH]; intros d; [rewrite str_app_nil_l; simpl; by destruct (FeedOffsets b d)|].
  rewrite str_app_cons. simpl.
  destruct (feed_byte c d) as [d1 hit]. rewrite IH. destruct (FeedOffsets a d1) as [d2 o2]. destruct (FeedOffsets b d2) as [d3 o3].
  by destruct hit.
Qed.

(** The output in the chunks it was read in. *)
Fixpoint feed_chunks (chunks : list string) (d : AttentionDetector) : AttentionDetector * list Z :=
  match chunks with
  | [] => (d, [])
  | c :: cs => let '(d1, o1) := FeedOffsets c d in let '(d2, o2) := feed_chunks cs d1 in (d2, o1 ++ o2)
  end.

Lemma feed_chunks_concat (chunks : list string) (d : AttentionDetector) :
  feed_chunks chunks d = FeedOffsets (concat_str chunks) d.
Proof.
  revert d. induction chunks as [|c cs IH]; intros d; simpl; [done|]. rewrite FeedOffsets_app.
  destruct (FeedOffsets c d) as [d1 o1]. by rewrite IH.
Qed.

(** A reference reading of terminal output: plain bytes, bells, two-byte escapes and
    operating-system commands. *)
Inductive token :=
| Plain (c : ascii)
| Bell
| Escaped (c : ascii)
| Command (payload : string) (st : bool).     (* ended by [ESC \] or by a bell *)

Definition plain (c : ascii) : bool := negb (c ==c BEL) && negb (c ==c ESC).

Definition well_formed_token (t : token) : bool :=
  match t with
  | Plain c => plain c
  | Bell => true
  | Escaped c => negb (c ==c "]") && negb (c ==c ESC)
  | Command payload _ => str_forall plain payload
  end.

Definition token_bytes (t : token) : string :=
  match t with
  | Plain c => String c ""
  | Bell => String BEL ""
  | Escaped c => String ESC (String c "")
  | Command payload st => String ESC (String "]" (payload +:+ (if st then String ESC (String backslash "") else String BEL "")))
  end.

Definition asks_attention (t : token) : bool :=
  match t with
  | Plain _ => false
  | Bell => true
  | Escaped c => c ==c BEL
  | Command payload _ => (slen payload <=? maxAttentionSequenceBytes) && allowlistedAttentionOSC payload
  end.

(** The offset behind each token that asks for attention. *)
Fixpoint attention_offsets (o : Z) (ts : list token) : list Z :=
  match ts with
  | [] => []
  | t :: ts' =>
      let o' := (o + zlen (token_bytes t))%Z in
      (if asks_attention t then [o'] else []) ++ attention_offsets o' ts'
  end.

Lemma u64_next (o n : Z) : (0 <= o)%Z -> (o + n < 2 ^ 64)%Z -> (1 <= n)%Z -> u64 (o + 1) = (o + 1)%Z.
Proof. intros. unfold u64. apply Z.mod_small. lia. Qed.

(** Inside a command. *)
Definition in_command (payload : string) (o : Z) : AttentionDetector :=
  if slen payload <=? maxAttentionSequenceBytes then mkDetector attentionOSC payload o else mkDetector attentionDiscardOSC "" o.

Lemma feed_plain_command (c : ascii) (payload : string) (o : Z) :
  plain c = true -> (0 <= o)%Z -> (o + 1 < 2 ^ 64)%Z ->
  feed_byte c (in_command payload o) = (in_command (payload +:+ String c "") (o + 1), false).
Proof.
  intros Hc Ho Hm. unfold plain in Hc. apply andb_true_iff in Hc. destruct Hc as [H1 H2].
  apply negb_true_iff in H1, H2. unfold in_command, feed_byte, appendPayload. rewrite slen_app. simpl (slen (String c "")).
  destruct (Nat.leb_spec (slen payload) maxAttentionSequenceBytes); simpl; rewrite H1, H2, (u64_next o 1) by lia.
  - destruct (Nat.leb_spec maxAttentionSequenceBytes (slen payload)), (Nat.leb_spec (slen payload + 1) maxAttentionSequenceBytes); try lia; done.
  - destruct (Nat.leb_spec (slen payload + 1) maxAttentionSequenceBytes); [lia|done].
Qed.

Lemma feed_payload (p payload : string) (o : Z) :
  str_forall plain p = true -> (0 <= o)%Z -> (o + zlen p < 2 ^ 64)%Z ->
  FeedOffsets p (in_command payload o) = (in_command (payload +:+ p) (o + zlen p), []).
Proof.
  revert payload o. induction p as [|c p IH]; intros payload o Hp Ho Hm; simpl.
  - change (zlen "") with 0%Z. by rewrite str_app_nil_r, Z.add_0_r.
  - simpl in Hp. apply andb_true_iff in Hp. destruct Hp as [Hc Hp].
    assert (Hz : zlen (String c p) = (zlen p + 1)%Z) by (unfold zlen; simpl; lia). rewrite Hz in *.
    pose proof (zlen_nonneg p). rewrite feed_plain_command by (done || lia). rewrite IH by (done || lia).
    rewrite <- str_app_assoc. simpl. f_equal. f_equal. lia.
Qed.

(** The end of a command. *)
Lemma feed_end (payload : string) (o : Z) (st : bool) :
  let term := if st then String ESC (String backslash "") else String BEL "" in
  (0 <= o)%Z -> (o + zlen term < 2 ^ 64)%Z ->
  FeedOffsets term (in_command payload o) =
  (mkDetector attentionText "" (o + zlen term),
   if (slen payload <=? maxAttentionSequenceBytes) && allowlistedAttentionOSC payload then [(o + zlen term)%Z] else []).
Proof.
  intros term Ho Hm. assert (Ht : (1 <= zlen term)%Z) by (unfold term; destruct st; unfold zlen; simpl; lia).
  assert (H1 : u64 (o + 1) = (o + 1)%Z) by (apply (u64_next o (zlen term)); lia).
  assert (H2 : st = true -> u64 (o + 1 + 1) = (o + 2)%Z).
  { intros ->. unfold u64, zlen in *. simpl in Hm. rewrite Z.mod_small; lia. }
  unfold in_command. destruct (slen payload <=? maxAttentionSequenceBytes); destruct st; simpl; unfold feed_byte; simpl;
    unfold reset, set_state; simpl; rewrite ?H1, ?H2 by done; unfold zlen; simpl; destruct (allowlistedAttentionOSC payload); done.
Qed.

Lemma feed_open (s p : string) (o : Z) :
  (0 <= o)%Z -> (o + 2 < 2 ^ 64)%Z ->
  FeedOffsets (String ESC (String "]" s)) (mkDetector attentionText p o) = FeedOffsets s (in_command "" (o + 2)).
Proof.
  intros Ho Hm. assert (H1 : u64 (o + 1) = (o + 1)%Z) by (apply (u64_next o 2); lia).
  assert (H2 : u64 (o + 1 + 1) = (o + 2)%Z) by (unfold u64; rewrite Z.mod_small; lia).
  cbn [FeedOffsets]. unfold feed_byte. simpl. rewrite H1, H2. unfold in_command. simpl. by destruct (FeedOffsets s _).
Qed.

Lemma feed_token (t : token) (p : string) (o : Z) :
  well_formed_token t = true -> (0 <= o)%Z -> (o + zlen (token_bytes t) < 2 ^ 64)%Z ->
  exists p', FeedOffsets (token_bytes t) (mkDetector attentionText p o)
    = (mkDetector attentionText p' (o + zlen (token_bytes t)), attention_offsets o [t]).
Proof.
  intros Hw Ho Hm. destruct t as [c| |c|payload st]; cbn [well_formed_token token_bytes asks_attention attention_offsets] in *.
  - unfold plain in Hw. apply andb_true_iff in Hw. destruct Hw as [H1 H2]. apply negb_true_iff in H1, H2.
    unfold zlen in *. simpl in *. exists p. unfold feed_byte. simpl. rewrite H1, H2, (u64_next o 1) by lia. done.
  - unfold zlen in *. simpl in *. exists p. unfold feed_byte. simpl. by rewrite (u64_next o 1) by lia.
  - apply andb_true_iff in Hw. destruct Hw as [H1 H2]. apply negb_true_iff in H1, H2. unfold zlen in *. simpl in *.
    exists p. unfold feed_byte. simpl. rewrite H1, H2. simpl. rewrite (u64_next o 2) by lia. rewrite (u64_next (o + 1) 1) by lia.
    replace (o + 1 + 1)%Z with (o + 2)%Z by lia. by destruct (c ==c BEL).
  - exists "". set (term := if st then _ else _) in *.
    assert (Hlen : zlen (String ESC (String "]" (payload +:+ term))) = (2 + zlen payload + zlen term)%Z)
      by (unfold zlen; simpl; rewrite slen_app; lia).
    assert (Ht : (1 <= zlen term <= 2)%Z) by (unfold term; destruct st; unfold zlen; simpl; lia).
    rewrite Hlen in *. pose proof (zlen_nonneg payload). rewrite feed_open by lia.
    rewrite FeedOffsets_app, feed_payload by (done || lia). rewrite str_app_nil_l.
    pose proof (feed_end payload (o + 2 + zlen payload) st) as He. cbv zeta in He. fold term in He. rewrite He by lia. clear He.
    rewrite app_nil_r. replace (o + 2 + zlen payload + zlen term)%Z with (o + (2 + zlen payload + zlen term))%Z by lia. done.
Qed.

(** Read in any chunks, output made of plain bytes, bells, escapes and
    operating-system commands raises exactly the notifications of its tokens: a
    bell, and a command of at most 4096 bytes that is on the list, each at the offset
    behind it. *)
Theorem attention_chunked_spec (ts : list token) (chunks : list string) :
  forallb well_formed_token ts = true ->
  concat_str chunks = concat_str (map token_bytes ts) -> (zlen (concat_str chunks) < 2 ^ 64)%Z ->
  snd (feed_chunks chunks new_detector) = attention_offsets 0 ts.
Proof.
  intros Hw Hc Hm. rewrite feed_chunks_concat, Hc. rewrite Hc in Hm. clear Hc chunks.
  cut (forall p o, (0 <= o)%Z -> (o + zlen (concat_str (map token_bytes ts)) < 2 ^ 64)%Z ->
    exists p' o', FeedOffsets (concat_str (map token_bytes ts)) (mkDetector attentionText p o) = (mkDetector attentionText p' o', attention_offsets o ts)).
  { intros H. destruct (H "" 0%Z) as (p' & o' & Hf); [lia|lia|]. unfold new_detector. by rewrite Hf. }
  clear Hm. induction ts as [|t ts IH]; intros p o Ho Hm; simpl; [eauto|].
  simpl in Hw, Hm. apply andb_true_iff in Hw. destruct Hw as [Ht Hw]. rewrite zlen_app in Hm.
  pose proof (zlen_nonneg (concat_str (map token_bytes ts))). pose proof (zlen_nonneg (token_bytes t)).
  rewrite FeedOffsets_app. destruct (feed_token t p o) as [p1 Hf]; [done|done|lia|]. rewrite Hf.
  destruct (IH Hw p1 (o + zlen (token_bytes t))%Z) as (p2 & o2 & Hr); [lia|lia|]. rewrite Hr.
  exists p2, o2. f_equal. simpl. by rewrite app_nil_r.
Qed.

(** What the detector holds of the terminal's bytes is bounded. *)
Lemma append_bounded (b : ascii) (d : AttentionDetector) :
  slen (ad_payload (appendPayload b d)) <= maxAttentionSequenceBytes.
Proof.
  unfold appendPayload. destruct (Nat.leb_spec maxAttentionSequenceBytes (slen (ad_payload d))); cbn [ad_payload]; [apply Nat.le_0_l|].
  rewrite slen_app. change (slen (String b "")) with 1. lia.
Qed.

Lemma feed_byte_bounded (M : nat) (b : ascii) (d : AttentionDetector) :
  (forall b d, slen (ad_payload (appendPayload b d)) <= M) -> slen (ad_payload d) <= M -> slen (ad_payload (fst (feed_byte b d))) <= M.
Proof.
  intros HM Hd. unfold feed_byte. cbv zeta. set (d' := mkDetector (ad_state d) (ad_payload d) (u64 (ad_offset d + 1))).
  assert (Hp : ad_payload d' = ad_payload d) by done. clearbody d'.
  pose proof (HM b d') as H1. pose proof (HM b (appendPayload ESC d')) as H2.
  revert H1 H2. generalize (appendPayload b d') (appendPayload b (appendPayload ESC d')). clear HM. intros d1 d2 H1 H2.
  destruct (ad_state d'); repeat case_match; cbn [fst set_state reset ad_payload]; rewrite ?Hp; first [assumption|apply Nat.le_0_l].
Qed.

Lemma detector_bounded (data : string) (d : AttentionDetector) :
  slen (ad_payload d) <= maxAttentionSequenceBytes -> slen (ad_payload (fst (FeedOffsets data d))) <= maxAttentionSequenceBytes.
Proof.
  generalize append_bounded. generalize maxAttentionSequenceBytes at 1 2 3. intros M HM. revert d.
  induction data as [|b data IH]; intros d Hd; simpl; [done|]. pose proof (feed_byte_bounded M b d HM Hd) as Hb.
  destruct (feed_byte b d) as [d1 hit]. simpl in Hb. specialize (IH d1 Hb). by destruct (FeedOffsets data d1).
Qed.

(** ** An over-long command is not always dropped *)

(** A command longer than 4096 bytes is meant to be dropped, and is when it has no
    escape in it (it asks for no attention in [attention_chunked_spec]); but if an
    escape byte is the one that makes it too long, the detector reads on as if
    a new command had begun: any text after it that looks like a notification
    raises one. *)
Theorem oversized_command_notifies (payload body : string) (p : string) (o : Z) :
  str_forall plain payload = true -> slen payload = maxAttentionSequenceBytes ->
  str_forall plain body = true -> slen body < maxAttentionSequenceBytes -> allowlistedAttentionOSC ("9" +:+ body) = true ->
  (0 <= o)%Z -> (o + 8192 + 8 < 2 ^ 64)%Z ->
  let data := String ESC (String "]" (payload +:+ String ESC (String "9" (body +:+ String BEL "")))) in
  snd (FeedOffsets data (mkDetector attentionText p o)) = [(o + zlen data)%Z].
Proof.
  intros Hp Hl Hb Hbl Ha Ho Hm data.
  assert (Hmax : Z.of_nat maxAttentionSequenceBytes = 4096%Z) by (vm_compute; reflexivity).
  assert (Hzp : zlen payload = 4096%Z) by (unfold zlen; lia).
  assert (Hzb : (0 <= zlen body < 4096)%Z) by (unfold zlen; lia).
  assert (Hz : zlen data = (2 + 4096 + 2 + zlen body + 1)%Z) by (unfold data, zlen in *; simpl; rewrite slen_app; simpl; rewrite slen_app; simpl; lia).
  rewrite Hz. unfold data. rewrite feed_open, FeedOffsets_app, feed_payload by (done || lia). rewrite str_app_nil_l, Hzp.
  unfold in_command at 1. rewrite Hl, Nat.leb_refl. set (o1 := (o + 2 + 4096)%Z).
  assert (H1 : u64 (o1 + 1) = (o1 + 1)%Z) by (unfold u64, o1; rewrite Z.mod_small; lia).
  assert (H2 : u64 (o1 + 1 + 1) = (o1 + 2)%Z) by (unfold u64, o1; rewrite Z.mod_small; lia).
  assert (Hstep : FeedOffsets (String ESC (String "9" (body +:+ String BEL ""))) (mkDetector attentionOSC payload o1)
    = FeedOffsets (body +:+ String BEL "") (in_command "9" (o1 + 2))).
  { cbn [FeedOffsets]. unfold feed_byte. simpl. rewrite H1, H2. unfold appendPayload. simpl. rewrite Hl, Nat.leb_refl.
    unfold in_command. simpl. destruct (Nat.leb_spec maxAttentionSequenceBytes 0) as [Hx|Hx]; [lia|]. simpl.
    destruct (Nat.leb_spec 1 maxAttentionSequenceBytes); [|lia]. unfold set_state. simpl. by destruct (FeedOffsets _ _). }
  rewrite Hstep, FeedOffsets_app, feed_payload by (done || (unfold o1; lia)).
  pose proof (feed_end ("9" +:+ body) (o1 + 2 + zlen body) false) as He. cbv zeta in He. rewrite He.
  - rewrite Ha. change (slen ("9" +:+ body)) with (S (slen body)). destruct (Nat.leb_spec (S (slen body)) maxAttentionSequenceBytes); [|lia].
    simpl. f_equal. unfold o1. change (zlen (String BEL "")) with 1%Z. lia.
  - unfold o1. lia.
  - change (zlen (String BEL "")) with 1%Z. unfold o1. lia.
Qed.

(** ** Replies to terminal queries *)

(** All that can be sent back: the answers depend on the window size only. *)
Definition fixed_replies (size : Z) : list string :=
  [String ESC "[?6c"; String ESC "[>0;0;0c"; String ESC "[0n"; String ESC "[1;1R";
   String ESC ("[8;" +:+ int_text (Z.shiftr size 16) +:+ ";" +:+ int_text (Z.land size 65535) +:+ "t");
   String ESC ("P>|duckway 0" +:+ String ESC (String backslash "")); String ESC "[?0u";
   String ESC ("]10;rgb:ffff/ffff/ffff" +:+ String ESC (String backslash ""));
   String ESC ("]11;rgb:0000/0000/0000" +:+ String ESC (String backslash ""))].

Lemma csi_reply_fixed (params : string) (final : ascii) (size : Z) :
  terminalCSIReply params final size = "" \/ terminalCSIReply params final size ∈ fixed_replies size.
Proof. unfold terminalCSIReply, fixed_replies. repeat case_match; auto; right; rewrite !elem_of_cons; tauto. Qed.
Lemma osc_reply_fixed (params : string) (size : Z) :
  terminalOSCReply params = "" \/ terminalOSCReply params ∈ fixed_replies size.
Proof. unfold terminalOSCReply, fixed_replies. repeat case_match; auto; right; rewrite !elem_of_cons; tauto. Qed.

Record replies_ok (size : Z) (x : terminalQueryParser * list string) : Prop := mkRepliesOk {
  ro_data : slen (q_data (fst x)) <= maxTerminalQueryBytes;
  ro_count : length (snd x) <= maxTerminalQueryReplies;
  ro_fixed : Forall (fun r => r ∈ fixed_replies size) (snd x);
}.

Lemma add_reply_ok (size : Z) (r : string) (p : terminalQueryParser) (replies : list string) :
  (r = "" \/ r ∈ fixed_replies size) -> replies_ok size (p, replies) -> replies_ok size (ground, add_reply r replies).
Proof.
  intros Hr [H1 H2 H3]. simpl in *. unfold add_reply. destruct (negb (slen r =? 0) && _) eqn:Hc.
  - apply andb_true_iff in Hc. destruct Hc as [Hc1 Hc2]. apply Nat.ltb_lt in Hc2. destruct Hr as [->|Hr]; [done|].
    split; simpl; [lia|rewrite length_app; simpl; lia|]. apply Forall_app. auto.
  - split; simpl; [lia|done|done].
Qed.

Lemma query_byte_ok (b : ascii) (size : Z) (p : terminalQueryParser) (replies : list string) :
  replies_ok size (p, replies) -> replies_ok size (query_byte b size p replies).
Proof.
  intros H. pose proof H as [H1 H2 H3]. simpl in *. unfold query_byte.
  assert (Hg : forall st data, slen data <= maxTerminalQueryBytes -> replies_ok size (mkQuery st data, replies)) by (by intros; split).
  destruct (q_state p); repeat case_match; try (apply Hg; simpl; lia); try done;
    try (by eapply add_reply_ok; [apply csi_reply_fixed|]); try (by eapply add_reply_ok; [apply osc_reply_fixed|]); try (apply Hg; done);
    bool_to_prop; apply Hg; rewrite slen_app; simpl; try lia.
Qed.

(** Whatever a program prints, and however its output is cut into chunks, every reply
    the supervisor types into its terminal is one of nine fixed answers, none of
    which contains bytes of the program; at most 32 of them answer one chunk, and at
    most 64 bytes of a query are kept. *)
Theorem terminal_replies_fixed (chunks : list (string * Z)) (p : terminalQueryParser) :
  slen (q_data p) <= maxTerminalQueryBytes ->
  let last_state := fold_left (fun p c => fst (Feed (fst c) (snd c) p)) chunks p in
  slen (q_data last_state) <= maxTerminalQueryBytes
  /\ forall chunk size, let replies := snd (Feed chunk size last_state) in
     length replies <= maxTerminalQueryReplies /\ Forall (fun r => r ∈ fixed_replies size) replies.
Proof.
  assert (Hfeed : forall chunk size p, slen (q_data p) <= maxTerminalQueryBytes -> replies_ok size (Feed chunk size p)).
  { intros chunk size q Hq. unfold Feed. assert (H0 : replies_ok size (q, [])) by (split; simpl; [done|lia|constructor]).
    revert q H0 Hq. generalize (@nil string). induction chunk as [|b chunk IH]; intros replies q H0 Hq; simpl; [done|].
    pose proof (query_byte_ok b size q replies H0) as H1. destruct (query_byte b size q replies) as [q1 r1]. apply IH; [done|]. apply H1. }
  intros Hp last_state. assert (Hl : slen (q_data last_state) <= maxTerminalQueryBytes).
  { unfold last_state. clear last_state. revert p Hp. induction chunks as [|[c n] cs IH]; intros p Hp; simpl; [done|].
    apply IH. apply (Hfeed c n p Hp). }
  split; [done|]. intros chunk size. destruct (Hfeed chunk size last_state Hl). auto.
Qed.

(** ** Activities waiting to be reported *)

Record pendingAgentActivity := mkActivity {
  pa_category : string;
  pa_offset : Z;
  pa_eventID : Z;
  pa_source : string;
}.

Record activity_state := mkActivities {
  y_activities : list pendingAgentActivity;
  y_nextActivityID : Z;
  y_pending : gmap string Z;
  y_acked : gmap string Z;
}.

Definition maxPendingAgentActivities : nat := 128.
Definition NotificationTerminalAttention : string := "terminal_attention".
Definition NotificationTaskCompleted : string := "task_completed".
Definition NotificationTaskFailed : string := "task_failed".

(** [offset] is the end of the output. *)
Definition markActivityAtCurrentOutputSource (category source : string) (offset : Z) (s : activity_state) : activity_state * bool :=
  if maxPendingAgentActivities <=? length (y_activities s) then (s, false)
  else
    let id := u64 (y_nextActivityID s + 1) in
    (mkActivities (y_activities s ++ [mkActivity category offset id source]) id (y_pending s) (y_acked s), true).

(** The part of [capture] that follows the detector. *)
Definition noteAttention (offsets : list Z) (s : activity_state) : activity_state :=
  match last offsets with
  | Some o => mkActivities (y_activities s) (y_nextActivityID s) (<[NotificationTerminalAttention := o]> (y_pending s)) (y_acked s)
  | None => s
  end.

Definition lookup0 (m : gmap string Z) (k : string) : Z := default 0%Z (m !! k).

Fixpoint first_pending (categories : list string) (s : activity_state) : option (string * Z) :=
  match categories with
  | [] => None
  | c :: cs => let offset := lookup0 (y_pending s) c in
      if (lookup0 (y_acked s) c <? offset)%Z then Some (c, offset) else first_pending cs s
  end.

Definition PendingActivityWithSource (s : activity_state) : option pendingAgentActivity :=
  match y_activities s with
  | a :: _ => Some a
  | [] => match first_pending [NotificationTaskFailed; NotificationTaskCompleted; NotificationTerminalAttention] s with
          | Some (c, o) => Some (mkActivity c o 0 "")
          | None => None
          end
  end.

Definition AckActivity (category : string) (offset eventID : Z) (s : activity_state) : activity_state :=
  if negb (eventID =? 0)%Z then
    match y_activities s with
    | a :: rest =>
        if (pa_eventID a =? eventID)%Z && (pa_category a ==s category)
        then mkActivities rest (y_nextActivityID s) (y_pending s) (y_acked s) else s
    | [] => s
    end
  else if (lookup0 (y_acked s) category <? offset)%Z
  then mkActivities (y_activities s) (y_nextActivityID s) (y_pending s) (<[category := offset]> (y_acked s))
  else s.

(** The activities of the agent are numbered without gaps, the last one with the
    counter, and at most 128 wait. *)
Record activities_ok (s : activity_state) : Prop := mkActivitiesOk {
  ao_ids : map pa_eventID (y_activities s) =
    map (fun k => (y_nextActivityID s - Z.of_nat (length (y_activities s)) + Z.of_nat k)%Z) (seq 1 (length (y_activities s)));
  ao_max : length (y_activities s) <= maxPendingAgentActivities;
  ao_next : (Z.of_nat (length (y_activities s)) <= y_nextActivityID s)%Z;
}.

Lemma mark_ok category source offset s :
  activities_ok s -> (y_nextActivityID s + 1 < 2 ^ 64)%Z ->
  activities_ok (fst (markActivityAtCurrentOutputSource category source offset s)).
Proof.
  intros [H1 H2 H3] Hn. unfold markActivityAtCurrentOutputSource. destruct (Nat.leb_spec maxPendingAgentActivities (length (y_activities s))); [done|].
  assert (Hid : u64 (y_nextActivityID s + 1) = (y_nextActivityID s + 1)%Z) by (unfold u64; rewrite Z.mod_small; lia).
  split; simpl; rewrite ?Hid, length_app; simpl; [|lia|lia].
  rewrite map_app, H1, seq_app, map_app. simpl. f_equal; [|f_equal; lia].
  apply map_ext. intros k. lia.
Qed.

Lemma ack_ok category offset eventID s : activities_ok s -> activities_ok (AckActivity category offset eventID s).
Proof.
  intros [H1 H2 H3]. unfold AckActivity. destruct (negb _); [|by case_match].
  destruct (y_activities s) as [|a rest] eqn:Ha; [by split; rewrite ?Ha|]. case_match; [|by split; rewrite ?Ha].
  split; simpl in *; [|lia|lia]. injection H1 as _ H1. rewrite H1. rewrite <- seq_shift, map_map. apply map_ext. intros k. lia.
Qed.

(** Reporting an activity removes it once it is acknowledged and nothing else: the
    activities that wait have distinct ids, the one reported is the oldest, and only
    its own acknowledgement takes it from the queue, leaving the others in order. *)
Theorem activity_acked_once (s : activity_state) (a : pendingAgentActivity) :
  activities_ok s -> y_activities s <> [] -> PendingActivityWithSource s = Some a ->
  NoDup (map pa_eventID (y_activities s))
  /\ y_activities s = a :: y_activities (AckActivity (pa_category a) (pa_offset a) (pa_eventID a) s)
  /\ forall category offset id, id <> 0%Z -> (id, category) <> (pa_eventID a, pa_category a) ->
       AckActivity category offset id s = s.
Proof.
  intros [H1 H2 H3] Hne Hp. unfold PendingActivityWithSource in Hp. unfold AckActivity.
  destruct (y_activities s) as [|b rest] eqn:Hb; [done|]. injection Hp as ->. split_and!.
  - rewrite H1. apply NoDup_fmap_2_strong; [intros x y _ _; lia|apply NoDup_seq].
  - simpl in H1. injection H1 as Hid _. simpl in H3.
    assert (Hnz : (pa_eventID a =? 0)%Z = false) by (apply Z.eqb_neq; lia). rewrite Hnz, Z.eqb_refl, String.eqb_refl. done.
  - intros c o id Hid Hpair. apply Z.eqb_neq in Hid. rewrite Hid. simpl.
    destruct (_ && _) eqn:He; [|done]. apply andb_true_iff in He. destruct He as [He1 He2].
    apply Z.eqb_eq in He1. apply String.eqb_eq in He2. congruence.
Qed.

Module AttentionWitness.

(** A bell, a notification and a progress report, cut in the middle of the notification. *)
Definition tokens : list token := [Plain "a"; Bell; Command "777;notify;done" true; Command "9;4;1;50" false].
Definition output : string := concat_str (map token_bytes tokens).

Lemma attention_chunked_spec_witness :
  snd (feed_chunks [str_take 9 output; str_drop 9 output] new_detector) = [2%Z; 21%Z].
Proof.
  rewrite (attention_chunked_spec tokens); [vm_compute; reflexivity|vm_compute; reflexivity|vm_compute; reflexivity|vm_compute; reflexivity].
Defined.

Fixpoint letters (n : nat) : string := match n with 0 => "" | S n' => String "a" (letters n') end.

Lemma oversized_command_notifies_witness :
  let data := String ESC (String "]" (letters maxAttentionSequenceBytes +:+ String ESC (String "9" (";hi" +:+ String BEL "")))) in
  snd (FeedOffsets data new_detector) = [(0 + zlen data)%Z].
Proof.
  apply (oversized_command_notifies (letters maxAttentionSequenceBytes) ";hi" "" 0).
  - vm_compute. reflexivity.
  - vm_compute. reflexivity.
  - vm_compute. reflexivity.
  - apply Nat.ltb_lt. vm_compute. reflexivity.
  - vm_compute. reflexivity.
  - apply Z.le_refl.
  - vm_compute. reflexivity.
Defined.

(** A status query cut in two, and one with a parameter nobody answers. *)
Definition query : string := String ESC "[5n" +:+ String ESC "[77n" +:+ String ESC "[".

Lemma terminal_replies_fixed_witness :
  snd (Feed "18t" 1572944 (fst (Feed query 1572944 ground))) = [String ESC "[8;24;80t"]
  /\ Forall (fun r => r ∈ fixed_replies 1572944) (snd (Feed "18t" 1572944 (fst (Feed query 1572944 ground)))).
Proof.
  split; [vm_compute; reflexivity|]. apply (terminal_replies_fixed [(query, 1572944%Z)] ground). simpl. lia.
Defined.

Definition waiting : activity_state :=
  fst (markActivityAtCurrentOutputSource NotificationTaskCompleted "hook" 7
    (fst (markActivityAtCurrentOutputSource NotificationTaskFailed "hook" 5 (mkActivities [] 0 ∅ ∅)))).

Lemma activity_acked_once_witness :
  y_activities waiting = mkActivity NotificationTaskFailed 5 1 "hook" :: y_activities (AckActivity NotificationTaskFailed 5 1 waiting).
Proof.
  apply (activity_acked_once waiting (mkActivity NotificationTaskFailed 5 1 "hook")).
  - apply mark_ok; [apply mark_ok|]; [|reflexivity|vm_compute; reflexivity]. split; [reflexivity|apply Nat.le_0_l|vm_compute; discriminate].
  - vm_compute. discriminate.
  - vm_compute. reflexivity.
Defined.

End AttentionWitness.
