(* ===== verification/Framing.v ===== *)
(** * The wire: [bridge/framing.go] and [protocol/protocol.go]

    A frame is a 32-bit length and a JSON document.  The reader is the list of chunks
    its [Read] calls return, the writer a function from the number of the call to its
    answer.  JSON is the class [FrameValue]: an encoder and a decoder that
    inverts it. *)

From S2P Require Import Prelude GoStrings Session Registry.
Local Open Scope go_scope.
Local Open Scope nat_scope.
Local Arguments among : simpl never.

(** ** Writing *)

(** The answer of a [Write] call on [n] remaining bytes; by the contract of
    [io.Writer] it reports between 0 and [n] of them. *)
Definition writer := nat -> nat * option string.

Inductive io_error :=
| EOF
| ErrUnexpectedEOF
| ErrShortFrameWrite
| WriterError (e : string)
| EmptyFrame
| ErrFrameTooLarge
| DecodeFrame
| EncodeFrame.

(** What is left of a write: the calls made, the bytes taken, and how it ended. *)
Record write_result := mkWrite { wr_calls : nat; wr_bytes : string; wr_error : option io_error }.

(** [None] when the fuel runs out. *)
Fixpoint writeFull (fuel : nat) (w : writer) (calls : nat) (data : string) : option write_result :=
  if slen data =? 0 then Some (mkWrite calls "" None) else
  match fuel with
  | O => None
  | S fuel' =>
      let '(n0, err) := w calls in
      let n := Nat.min n0 (slen data) in
      match err with
      | Some e => Some (mkWrite (S calls) (str_take n data) (Some (WriterError e)))
      | None =>
          if n =? 0 then Some (mkWrite (S calls) "" (Some ErrShortFrameWrite)) else
          match writeFull fuel' w (S calls) (str_drop n data) with
          | Some r => Some (mkWrite (wr_calls r) (str_take n data +:+ wr_bytes r) (wr_error r))
          | None => None
          end
      end
  end.

(** ** Reading *)

(** [io.ReadFull] of [n] bytes; [got] says whether some were read before. *)
Fixpoint readFull (n : nat) (got : bool) (chunks : list string) : result io_error string * list string :=
  match n with
  | O => (Ok "", chunks)
  | S _ =>
      match chunks with
      | [] => (Err (if got then ErrUnexpectedEOF else EOF), [])
      | c :: cs =>
          if n <=? slen c then (Ok (str_take n c), str_drop n c :: cs)
          else match readFull (n - slen c) (got || negb (slen c =? 0)) cs with
               | (Ok s, rest) => (Ok (c +:+ s), rest)
               | (Err e, rest) => (Err e, rest)
               end
      end
  end.

(** [binary.BigEndian.Uint32]. *)
Fixpoint be_value (acc : Z) (s : string) : Z :=
  match s with "" => acc | String c s' => be_value (acc * 256 + Z.of_N (N_of_ascii c)) s' end.

Definition DefaultMaxFrame : Z := 1048576.

(** Values as the program encodes them, with the law the protocol relies on. *)
Class FrameValue (V : Type) := {
  marshal : V -> option string;
  unmarshal : string -> option V;
}.
Class FrameValueLaws (V : Type) `{FrameValue V} := {
  unmarshal_marshal : forall v s, marshal v = Some s -> unmarshal s = Some v;
}.

Section Codec.
Context {V : Type} `{FV : FrameValue V}.

Definition NewCodec (maxFrame : Z) : Z := if (maxFrame =? 0)%Z then DefaultMaxFrame else maxFrame.

Definition Codec_Read (maxFrame : Z) (chunks : list string) : result io_error V * list string :=
  match readFull 4 false chunks with
  | (Err e, rest) => (Err e, rest)
  | (Ok header, rest) =>
      let size := be_value 0 header in
      if (size =? 0)%Z then (Err EmptyFrame, rest)
      else if (maxFrame <? size)%Z then (Err ErrFrameTooLarge, rest)
      else match readFull (Z.to_nat size) false rest with
           | (Err e, rest') => (Err e, rest')
           | (Ok payload, rest') =>
               (match unmarshal payload with Some v => Ok v | None => Err DecodeFrame end, rest')
           end
  end.

(** The bytes written and the error. *)
Definition Codec_Write (maxFrame : Z) (w : writer) (v : V) : option write_result :=
  match marshal v with
  | None => Some (mkWrite 0 "" (Some EncodeFrame))
  | Some payload =>
      if (slen payload =? 0) || (maxFrame <? zlen payload)%Z then Some (mkWrite 0 "" (Some ErrFrameTooLarge)) else
      let header := big_endian 4 (zlen payload) in
      match writeFull (slen header) w 0 header with
      | None => None
      | Some r =>
          match wr_error r with
          | Some _ => Some r
          | None =>
              match writeFull (slen payload) w (wr_calls r) payload with
              | None => None
              | Some r' => Some (mkWrite (wr_calls r') (wr_bytes r +:+ wr_bytes r') (wr_error r'))
              end
          end
      end
  end.

End Codec.

(** ** Handshake and validation: [protocol/protocol.go] *)

Record Handshake := mkHandshake {
  hs_Major : Z;
  hs_Minor : Z;
  hs_Role : string;
  hs_Principal : string;
  hs_OwnerID : string;
  hs_ProcessID : string;
  hs_ConnectionID : string;
  hs_ConnectionRole : string;
  hs_Capabilities : list string;
}.

Inductive negotiate_error := NegativeVersion | Incompatible | InvalidRole | PrincipalRequired.

Definition peer_roles : list string :=
  ["ducklord"; "duckway_cc"; "supervisor"; "supervisor_control"; "supervisor_activity"].

Section Protocol.
Context `{UC : UnicodeCase}.

Definition Negotiate (local remote : Handshake) : result negotiate_error Handshake :=
  if (hs_Major local <? 0)%Z || (hs_Minor local <? 0)%Z || (hs_Major remote <? 0)%Z || (hs_Minor remote <? 0)%Z
  then Err NegativeVersion
  else if negb (hs_Major local =? hs_Major remote)%Z then Err Incompatible
  else if negb (among (hs_Role remote) peer_roles) then Err InvalidRole
  else if TrimSpace (hs_Principal remote) ==s "" then Err PrincipalRequired
  else Ok (mkHandshake (hs_Major local)
         (if (hs_Minor remote <? hs_Minor local)%Z then hs_Minor remote else hs_Minor local)
         (hs_Role remote) (hs_Principal remote) (hs_OwnerID remote) (hs_ProcessID remote) (hs_ConnectionID remote)
         (hs_ConnectionRole remote) (List.filter (fun c => among c (hs_Capabilities local)) (hs_Capabilities remote))).

Definition Request_Validate (id type : string) : bool :=
  negb ((TrimSpace id ==s "") || (128 <? slen id)) && negb ((TrimSpace type ==s "") || (128 <? slen type)).

End Protocol.

Definition principal_rune (r : N) : bool :=
  in_range 97 122 r || in_range 65 90 r || in_range 48 57 r || existsb (N.eqb r) [46; 95; 45]%N.

Definition ValidDucklordPrincipal (name : string) : bool :=
  negb ((slen name =? 0) || (64 <? slen name)) && forallb principal_rune (runes name).

(** ** The write loop ends *)

Lemma writeFull_total (w : writer) (fuel calls : nat) (data : string) :
  slen data <= fuel ->
  exists r, writeFull fuel w calls data = Some r /\ wr_calls r <= calls + slen data
    /\ (exists rest, data = wr_bytes r +:+ rest) /\ (wr_error r = None -> wr_bytes r = data).
Proof.
  revert calls data. induction fuel as [|fuel IH]; intros calls data Hf.
  { assert (slen data = 0) as Hz by lia. apply slen_0_inv in Hz. subst. eexists. split_and!; [reflexivity|simpl; lia|by exists ""|done]. }
  simpl. destruct (slen data =? 0) eqn:Hz.
  { apply Nat.eqb_eq, slen_0_inv in Hz. subst. eexists. split_and!; [reflexivity|simpl; lia|by exists ""|done]. }
  apply Nat.eqb_neq in Hz. destruct (w calls) as [n0 err]. set (n := Nat.min n0 (slen data)).
  assert (Hn : n <= slen data) by (unfold n; lia). destruct err as [e|].
  { eexists. split_and!; [reflexivity|simpl; lia| |done]. exists (str_drop n data). simpl. by rewrite str_take_drop. }
  destruct (n =? 0) eqn:Hn0; [eexists; split_and!; [reflexivity|simpl; lia|by exists data|done]|]. apply Nat.eqb_neq in Hn0.
  destruct (IH (S calls) (str_drop n data)) as (r & Hr & Hc & (rest & Hrest) & Hok); [rewrite slen_drop; lia|].
  rewrite Hr. eexists. split_and!; [reflexivity|simpl; rewrite slen_drop in Hc; lia| |].
  - exists rest. simpl. rewrite <- str_app_assoc, <- Hrest. by rewrite str_take_drop.
  - simpl. intros He. rewrite (Hok He). apply str_take_drop.
Qed.

Definition frame (payload : string) : string := big_endian 4 (zlen payload) +:+ payload.

Section Stream.
Context {V : Type} `{FV : FrameValue V}.

(** Writing a value always ends: whatever the writer answers, the loop stops after
    at most one call for each byte, what went out is a prefix of the frame, and without
    an error it is the whole frame.  A value that is refused writes nothing. *)
Theorem write_ends (maxFrame : Z) (w : writer) (v : V) :
  exists r, Codec_Write maxFrame w v = Some r
    /\ match marshal v with
       | None => wr_error r = Some EncodeFrame /\ wr_bytes r = ""
       | Some payload =>
           wr_calls r <= 4 + slen payload
           /\ (exists rest, frame payload = wr_bytes r +:+ rest)
           /\ (wr_error r = None -> wr_bytes r = frame payload /\ (0 < zlen payload <= maxFrame)%Z)
           /\ (slen payload = 0 \/ (maxFrame < zlen payload)%Z -> wr_error r = Some ErrFrameTooLarge /\ wr_bytes r = "")
       end.
Proof.
  unfold Codec_Write. destruct (marshal v) as [payload|]; [|eexists; split; [reflexivity|done]].
  destruct ((slen payload =? 0) || (maxFrame <? zlen payload)%Z) eqn:Hsz.
  { eexists. split; [reflexivity|]. simpl. split_and!; [lia|by exists (frame payload)|done|done]. }
  bool_to_prop. pose proof (big_endian_length 4 (zlen payload)) as Hl. set (h := big_endian 4 (zlen payload)) in *.
  destruct (writeFull_total w (slen h) 0 h) as (r & Hr & Hc & (rest & Hrest) & Hok); [lia|]. rewrite Hr.
  assert (Hpos : (0 < zlen payload)%Z) by (unfold zlen; lia).
  destruct (wr_error r) as [e|] eqn:He.
  { exists r. split; [done|]. rewrite He. split_and!; [lia| |done|intros [?|?]; lia]. exists (rest +:+ payload). unfold frame.
    fold h. by rewrite Hrest at 1; rewrite <- str_app_assoc. }
  destruct (writeFull_total w (slen payload) (wr_calls r) payload) as (r' & Hr' & Hc' & (rest' & Hrest') & Hok'); [lia|]. rewrite Hr'.
  specialize (Hok eq_refl). eexists. split; [reflexivity|]. simpl. unfold frame. fold h. rewrite Hok. split_and!.
  - lia.
  - exists rest'. by rewrite <- str_app_assoc, <- Hrest'.
  - intros He'. rewrite (Hok' He'). split; [done|lia].
  - intros [?|?]; lia.
Qed.

(** ** Reading the stream *)

Lemma readFull_spec (n : nat) (got : bool) (chunks : list string) :
  if n <=? slen (concat_str chunks)
  then exists rest, readFull n got chunks = (Ok (str_take n (concat_str chunks)), rest) /\ concat_str rest = str_drop n (concat_str chunks)
  else readFull n got chunks = (Err (if got || negb (slen (concat_str chunks) =? 0) then ErrUnexpectedEOF else EOF), []).
Proof.
  revert n got. induction chunks as [|c cs IH]; intros n got; simpl.
  - destruct n; simpl; [by exists []|]. by rewrite orb_false_r.
  - rewrite slen_app. destruct n as [|n]; [by exists (c :: cs)|]. cbn [readFull]. set (m := S n).
    destruct (m <=? slen c) eqn:Hm.
    + apply Nat.leb_le in Hm. destruct (Nat.leb_spec m (slen c + slen (concat_str cs))); [|lia].
      exists (str_drop m c :: cs). cbn [concat_str]. by rewrite str_take_app_le, str_drop_app_le by lia.
    + apply Nat.leb_gt in Hm. specialize (IH (m - slen c) (got || negb (slen c =? 0))).
      destruct (Nat.leb_spec (m - slen c) (slen (concat_str cs))), (Nat.leb_spec m (slen c + slen (concat_str cs))); try lia.
      * destruct IH as (rest & -> & Hrest). exists rest. by rewrite str_take_app_ge, str_drop_app_ge by lia.
      * rewrite IH. destruct got; simpl; [done|]. destruct (slen c) eqn:Hc; simpl; [done|]. done.
Qed.

Lemma be_value_snoc (acc : Z) (s : string) (c : ascii) :
  be_value acc (s +:+ String c "") = (be_value acc s * 256 + Z.of_N (N_of_ascii c))%Z.
Proof. revert acc. induction s as [|d s IH]; intros acc; [done|]. rewrite str_app_cons. simpl. apply IH. Qed.

Lemma be_value_big_endian (n : nat) (v : Z) : (0 <= v < 256 ^ Z.of_nat n)%Z -> be_value 0 (big_endian n v) = v.
Proof.
  revert v. induction n as [|n IH]; intros v Hv; [simpl in *; lia|].
  rewrite Nat2Z.inj_succ, Z.pow_succ_r in Hv by lia. cbn [big_endian]. rewrite be_value_snoc, IH.
  - rewrite N_ascii_embedding by (pose proof (Z.mod_pos_bound v 256); lia). rewrite Z2N.id by (apply Z.mod_pos_bound; lia).
    pose proof (Z.div_mod v 256). lia.
  - pose proof (Z.div_lt_upper_bound v 256 (256 ^ Z.of_nat n)). pose proof (Z.div_pos v 256). lia.
Qed.

(** Reading one frame of a stream, in any chunks. *)
Lemma read_frame (maxFrame : Z) (payload rest : string) (chunks : list string) :
  (0 < zlen payload <= maxFrame)%Z -> (maxFrame < 2 ^ 32)%Z -> concat_str chunks = frame payload +:+ rest ->
  exists chunks', concat_str chunks' = rest
    /\ Codec_Read maxFrame chunks = (match unmarshal payload with Some v => Ok v | None => Err DecodeFrame end, chunks').
Proof.
  intros Hp Hmax Hc. unfold Codec_Read. pose proof (big_endian_length 4 (zlen payload)) as Hl.
  assert (Hbe : be_value 0 (big_endian 4 (zlen payload)) = zlen payload) by (apply be_value_big_endian; lia).
  unfold frame in Hc. set (h := big_endian 4 (zlen payload)) in *. rewrite <- str_app_assoc in Hc.
  pose proof (readFull_spec 4 false chunks) as H1. rewrite Hc, slen_app in H1.
  destruct (Nat.leb_spec 4 (slen h + slen (payload +:+ rest))); [|lia]. destruct H1 as (chunks1 & Hr1 & Hc1). rewrite Hr1.
  rewrite <- Hl in Hc1 |- *. rewrite str_take_app. rewrite str_drop_app in Hc1. rewrite Hbe.
  destruct (Z.eqb_spec (zlen payload) 0); [lia|]. destruct (Z.ltb_spec maxFrame (zlen payload)); [lia|].
  assert (Hn : Z.to_nat (zlen payload) = slen payload) by (unfold zlen; lia). rewrite Hn.
  pose proof (readFull_spec (slen payload) false chunks1) as H2. rewrite Hc1, slen_app in H2.
  destruct (Nat.leb_spec (slen payload) (slen payload + slen rest)); [|lia]. destruct H2 as (chunks2 & Hr2 & Hc2). rewrite Hr2.
  exists chunks2. rewrite str_drop_app in Hc2. by rewrite str_take_app.
Qed.

Fixpoint read_values (maxFrame : Z) (n : nat) (chunks : list string) : list V * list string :=
  match n with
  | O => ([], chunks)
  | S n' =>
      match Codec_Read maxFrame chunks with
      | (Ok v, chunks') => let '(vs, rest) := read_values maxFrame n' chunks' in (v :: vs, rest)
      | (Err _, chunks') => ([], chunks')
      end
  end.

Context `{FL : !FrameValueLaws V}.

(** What a successful write put on the stream. *)
Definition written (maxFrame : Z) (v : V) (bytes : string) : Prop :=
  exists w calls, Codec_Write maxFrame w v = Some (mkWrite calls bytes None).

Lemma written_frame (maxFrame : Z) (v : V) (bytes : string) :
  written maxFrame v bytes ->
  exists payload, marshal v = Some payload /\ bytes = frame payload /\ (0 < zlen payload <= maxFrame)%Z.
Proof.
  intros (w & calls & H). destruct (write_ends maxFrame w v) as (r & Hr & Hspec). rewrite H in Hr. injection Hr as <-.
  destruct (marshal v) as [payload|]; [|by destruct Hspec]. destruct Hspec as (_ & _ & Hok & _). simpl in Hok.
  destruct (Hok eq_refl) as [-> Hb]. eauto.
Qed.

Lemma read_written (maxFrame : Z) (vs : list V) (bs : list string) (chunks : list string) :
  (maxFrame < 2 ^ 32)%Z -> Forall2 (written maxFrame) vs bs -> forall tail, concat_str chunks = concat_str bs +:+ tail ->
  exists rest, read_values maxFrame (length vs) chunks = (vs, rest) /\ concat_str rest = tail.
Proof.
  intros Hmax H. revert chunks. induction H as [|v b vs bs Hv Hvs IH]; intros chunks tail Hc; simpl.
  - exists chunks. by rewrite str_app_nil_l in Hc.
  - destruct (written_frame _ _ _ Hv) as (payload & Hm & -> & Hp). simpl in Hc. rewrite <- str_app_assoc in Hc.
    destruct (read_frame maxFrame payload _ chunks Hp Hmax Hc) as (chunks' & Hc' & ->). rewrite (unmarshal_marshal _ _ Hm).
    destruct (IH chunks' tail Hc') as (rest & -> & Hrest). eauto.
Qed.

(** What one side writes the other reads: the values of any number of successful writes,
    however the stream is cut into chunks, come out in order and unchanged, and the
    next read reports the end of the stream. *)
Theorem frames_roundtrip (maxFrame : Z) (vs : list V) (bs chunks : list string) :
  (maxFrame < 2 ^ 32)%Z -> Forall2 (written maxFrame) vs bs -> concat_str chunks = concat_str bs ->
  exists rest, read_values maxFrame (length vs) chunks = (vs, rest) /\ Codec_Read (V := V) maxFrame rest = (Err EOF, []).
Proof.
  intros Hmax H Hc. destruct (read_written maxFrame vs bs chunks Hmax H "") as (rest & Hr & Hrest); [by rewrite str_app_nil_r|].
  exists rest. split; [done|]. unfold Codec_Read. pose proof (readFull_spec 4 false rest) as H4. rewrite Hrest in H4. simpl in H4.
  by rewrite H4.
Qed.

(** A stream that breaks off inside a frame gives the values before it and then an
    error, never a value; the error is the plain end of the stream only when
    nothing or exactly the length of the frame was received. *)
Theorem truncated_frame_refused (maxFrame : Z) (vs : list V) (bs chunks : list string) (v : V) (b : string) (k : nat) :
  (maxFrame < 2 ^ 32)%Z -> Forall2 (written maxFrame) vs bs -> written maxFrame v b -> k < slen b ->
  concat_str chunks = concat_str bs +:+ str_take k b ->
  exists rest, read_values maxFrame (length vs) chunks = (vs, rest)
    /\ Codec_Read (V := V) maxFrame rest = (Err (if (k =? 0) || (k =? 4) then EOF else ErrUnexpectedEOF), []).
Proof.
  intros Hmax H Hv Hk Hc. destruct (read_written maxFrame vs bs chunks Hmax H _ Hc) as (rest & Hr & Hrest).
  exists rest. split; [done|]. destruct (written_frame _ _ _ Hv) as (payload & Hm & -> & Hp). unfold frame in *.
  pose proof (big_endian_length 4 (zlen payload)) as Hl.
  assert (Hbe : be_value 0 (big_endian 4 (zlen payload)) = zlen payload) by (apply be_value_big_endian; lia).
  set (h := big_endian 4 (zlen payload)) in *. rewrite slen_app in Hk. unfold Codec_Read.
  pose proof (readFull_spec 4 false rest) as H4. rewrite Hrest, slen_take, slen_app in H4.
  replace (Nat.min k (slen h + slen payload)) with k in H4 by lia.
  destruct (Nat.leb_spec 4 k) as [Hk4|Hk4].
  - destruct H4 as (rest1 & Hr1 & Hc1). rewrite Hr1. rewrite str_take_app_ge in Hc1 |- * by lia.
    rewrite <- Hl in Hc1 |- *. rewrite str_take_app. rewrite str_drop_app in Hc1. rewrite Hl, Hbe.
    destruct (Z.eqb_spec (zlen payload) 0); [lia|]. destruct (Z.ltb_spec maxFrame (zlen payload)); [lia|].
    pose proof (readFull_spec (Z.to_nat (zlen payload)) false rest1) as H5. rewrite Hc1, slen_take in H5.
    assert (Hn : Z.to_nat (zlen payload) = slen payload) by (unfold zlen; lia). rewrite Hn in *.
    destruct (Nat.leb_spec (slen payload) (Nat.min (k - slen h) (slen payload))); [lia|]. rewrite H5.
    destruct (Nat.eqb_spec k 4) as [->|Hk5]; simpl.
    + by replace (Nat.min (4 - slen h) (slen payload)) with 0 by lia.
    + destruct (Nat.eqb_spec k 0); [lia|]. destruct (Nat.min (k - 4) (slen payload)) eqn:Hx; [lia|done].
  - rewrite H4. destruct (Nat.eqb_spec k 4); [lia|]. rewrite orb_false_r. by destruct (k =? 0).
Qed.

End Stream.

(** ** The handshake *)

Section Handshakes.
Context `{UC : UnicodeCase}.

(** A negotiated handshake is one both sides can honour: same major version, the
    smaller minor version, exactly the peer's capabilities that are offered locally, and a
    known role with a principal; negotiating it again changes nothing. *)
Theorem negotiated_supported (local remote h : Handshake) :
  Negotiate local remote = Ok h ->
  hs_Major h = hs_Major local /\ hs_Major h = hs_Major remote
  /\ hs_Minor h = Z.min (hs_Minor local) (hs_Minor remote) /\ (0 <= hs_Minor h)%Z
  /\ (forall c, c ∈ hs_Capabilities h <-> c ∈ hs_Capabilities local /\ c ∈ hs_Capabilities remote)
  /\ hs_Role h ∈ peer_roles /\ TrimSpace (hs_Principal h) <> "" /\ Negotiate local h = Ok h.
Proof.
  assert (Hamong : forall c l, among c l = true <-> c ∈ l).
  { intros c l. unfold among. rewrite existsb_exists, list_elem_of_In. split.
    - intros (x & Hx & He). apply String.eqb_eq in He. by subst.
    - intros Hx. exists c. by rewrite String.eqb_refl. }
  unfold Negotiate. intros H. repeat case_hyp H; try discriminate; injection H as <-; simpl; bool_to_prop.
  all: split_and!; try done; try lia.
  all: try (intros c; rewrite !list_elem_of_In, filter_In, <- list_elem_of_In, Hamong; rewrite !list_elem_of_In; tauto).
  all: try (by apply Hamong).
  all: repeat case_match; try congruence; bool_to_prop; try congruence; try lia; do 2 f_equal; try lia.
  all: apply forallb_filter_id; rewrite forallb_forall; intros c Hc; apply filter_In in Hc; tauto.
Qed.

End Handshakes.

Module FramingWitness.

(** Booleans, as JSON writes them. *)
#[export] Instance bool_value : FrameValue bool := {
  marshal b := Some (if b : bool then "true" else "false");
  unmarshal s := if s ==s "true" then Some true else if s ==s "false" then Some false else None;
}.
#[export] Instance bool_laws : FrameValueLaws bool.
Proof. constructor. intros [] s [= <-]; reflexivity. Qed.

(** A writer that takes three bytes at a time. *)
Definition slow : writer := fun _ => (3, None).
Definition sent (b : bool) : string := match Codec_Write 64 slow b with Some r => wr_bytes r | None => "" end.

Lemma sent_written (b : bool) : written 64 b (sent b).
Proof. destruct b; exists slow; eexists; vm_compute; reflexivity. Qed.

Lemma frames_roundtrip_witness :
  exists rest, read_values 64 2 [str_take 5 (sent true); str_drop 5 (sent true) +:+ sent false] = ([true; false], rest)
    /\ Codec_Read (V := bool) 64 rest = (Err EOF, []).
Proof.
  apply (frames_roundtrip 64 [true; false] [sent true; sent false]).
  - reflexivity.
  - repeat constructor; apply sent_written.
  - vm_compute. reflexivity.
Defined.

Lemma truncated_frame_refused_witness :
  exists rest, read_values 64 1 [sent true +:+ str_take 6 (sent false)] = ([true], rest)
    /\ Codec_Read (V := bool) 64 rest = (Err ErrUnexpectedEOF, []).
Proof.
  apply (truncated_frame_refused 64 [true] [sent true] _ false (sent false) 6).
  - reflexivity.
  - repeat constructor; apply sent_written.
  - apply sent_written.
  - apply Nat.ltb_lt. vm_compute. reflexivity.
  - vm_compute. reflexivity.
Defined.

#[export] Instance wire_case : UnicodeCase := latin_case.

Definition daemon : Handshake := mkHandshake 1 1 "ducklord" "daemon" "" "" "" "" ["yield"; "retained"].
Definition laptop : Handshake := mkHandshake 1 0 "ducklord" "laptop" "o" "p" "c" "control" ["unknown"; "yield"].

Lemma negotiated_supported_witness :
  Negotiate daemon laptop = Ok (mkHandshake 1 0 "ducklord" "laptop" "o" "p" "c" "control" ["yield"])
  /\ Z.min 1 0 = 0%Z.
Proof.
  split; [vm_compute; reflexivity|].
  symmetry. apply (negotiated_supported daemon laptop (mkHandshake 1 0 "ducklord" "laptop" "o" "p" "c" "control" ["yield"])).
  vm_compute. reflexivity.
Defined.

End FramingWitness.
