(* ===== verification/Layout.v ===== *)
(** * Project layout of Ducklord: [internal/ducklord/project_layout.go]

    Projects of tabs of split panes, as local views of remote sessions.  A nil
    pane is [NoPane]; a method that mutates a project or a pane through a pointer is
    an update of the first element the pointer was taken to.  [uuid.Parse] followed
    by [String] is the parameter [uuid_Parse], and the [n]-th text returned by
    [uuid.NewString] is [NewString n]: the operations thread the number of texts
    drawn so far.  Time plays no role.  [Validate] and the operations are
    executable; their theorems are in [LayoutSafety]. *)

From S2P Require Import Prelude GoStrings Session.
Local Open Scope go_scope.

Definition DefaultProjectID : string := "default".
Definition SplitHorizontal : string := "horizontal".
Definition SplitVertical : string := "vertical".
Definition PlaceNewTab : string := "new_tab".
Definition PlaceHorizontal : string := "horizontal".
Definition PlaceVertical : string := "vertical".
Definition maxGroupNameRunes : nat := 64.

Record SessionIdentity := mkIdentity { si_InstanceID : string; si_SessionID : string }.

#[export] Instance SessionIdentity_eq : EqDecision SessionIdentity.
Proof. solve_decision. Defined.

#[export] Instance SessionIdentity_countable : Countable SessionIdentity.
Proof.
  refine (inj_countable' (fun i => (si_InstanceID i, si_SessionID i)) (fun x => mkIdentity x.1 x.2) _). by intros [].
Defined.

Inductive SessionPane :=
| NoPane
| mkPane (ID : string) (session : option SessionIdentity) (note : bool) (direction : string) (first second : SessionPane).

#[export] Instance SessionPane_eq : EqDecision SessionPane.
Proof. solve_decision. Defined.

Record TerminalTab := mkTab { tab_ID : string; tab_Name : string; tab_Root : SessionPane }.

(** [Hosts] is nil for a project that is not restricted. *)
Record LocalProject := mkProject {
  pr_ID : string;
  pr_Name : string;
  pr_Tabs : list TerminalTab;
  pr_Hosts : option (list string) }.

Record ProjectLayout := mkLayout {
  Projects : list LocalProject;
  SuppressedDefaultSessions : list SessionIdentity }.

(** A layout and the number of identifiers drawn so far. *)
Record desk := mkDesk { issued : nat; layout : ProjectLayout }.

Inductive layout_error :=
| InvalidProjectName
| InvalidTabName
| ProjectNotFound
| TabNotFound
| DefaultNotRenamed
| DefaultNotMoved
| DefaultNotRemoved
| InvalidInstance
| InvalidSession
| AlreadyPlaced
| ClassifiedSession
| SplitTarget
| InvalidPlacement
| NoPaneInProject
| SplitContainer
| PaneGone
| SourceGone
| OntoItself
| DefaultNotFirst
| InvalidProject
| InvalidHost
| NotesNotRoot
| DuplicateNotes
| InvalidTab
| InvalidPane
| InvalidLeaf
| InvalidSplit
| ClassifiedInDefault
| InvalidSuppressed.

Class UUIDs := {
  uuid_Parse : string -> option string;
  NewString : nat -> string }.

Section Identity.
Context `{UC : UnicodeCase} `{UF : UnicodeFormat} `{UU : UUIDs}.

Definition ParseInstanceID (v : string) : option string := uuid_Parse (TrimSpace v).

Definition identity_validate (i : SessionIdentity) : result layout_error unit :=
  if bool_decide (ParseInstanceID (si_InstanceID i) = Some (si_InstanceID i)) then
    match ParseSessionID (si_SessionID i) with
    | Ok id => if id ==s si_SessionID i then Ok tt else Err InvalidSession
    | Err _ => Err InvalidSession
    end
  else Err InvalidInstance.

Definition validateCustomGroupName (name : string) : bool :=
  (name ==s TrimSpace name) && ValidString name
  && negb (existsb (fun r => IsControl r || u_Cf r) (runes name))
  && (1 <=? length (runes name))%nat && (length (runes name) <=? maxGroupNameRunes)%nat.

Definition canonicalLayoutUUID (id : string) : bool := bool_decide (uuid_Parse id = Some id).

End Identity.

Definition identifier_rune (r : N) : bool :=
  in_range 97 122 r || in_range 65 90 r || in_range 48 57 r || (r =? 95)%N || (r =? 45)%N.

Definition SafeIdentifier (s : string) : bool :=
  (s !=s "") && (slen s <=? 64)%nat && forallb identifier_rune (runes s).

(** ** Panes *)

Definition is_pane (p : SessionPane) : bool := match p with NoPane => false | _ => true end.
Definition pane_ID (p : SessionPane) : string := match p with NoPane => "" | mkPane id _ _ _ _ _ => id end.
Definition pane_Session (p : SessionPane) : option SessionIdentity :=
  match p with NoPane => None | mkPane _ s _ _ _ _ => s end.
Definition pane_Note (p : SessionPane) : bool := match p with NoPane => false | mkPane _ _ n _ _ _ => n end.

Fixpoint clone (p : SessionPane) : SessionPane :=
  match p with
  | NoPane => NoPane
  | mkPane id s n d f g => mkPane id s n d (clone f) (clone g)
  end.

Fixpoint sessions (p : SessionPane) : list SessionIdentity :=
  match p with
  | NoPane => []
  | mkPane _ (Some s) _ _ _ _ => [s]
  | mkPane _ None _ _ f g => sessions f ++ sessions g
  end.

Fixpoint findSession (s : SessionIdentity) (p : SessionPane) : SessionPane :=
  match p with
  | NoPane => NoPane
  | mkPane _ s' _ _ f g =>
      if bool_decide (s' = Some s) then p
      else if is_pane (findSession s f) then findSession s f else findSession s g
  end.

Fixpoint findPane (id : string) (p : SessionPane) : SessionPane :=
  match p with
  | NoPane => NoPane
  | mkPane id' _ _ _ f g =>
      if id' ==s id then p
      else if is_pane (findPane id f) then findPane id f else findPane id g
  end.

(** Assigning through the pointer [findPane] returned. *)
Fixpoint set_pane (id : string) (h : SessionPane -> SessionPane) (p : SessionPane) : SessionPane :=
  match p with
  | NoPane => NoPane
  | mkPane id' s n d f g =>
      if id' ==s id then h p
      else if is_pane (findPane id f) then mkPane id' s n d (set_pane id h f) g
      else mkPane id' s n d f (set_pane id h g)
  end.

Fixpoint removeSessionNode (s : SessionIdentity) (node : SessionPane) : SessionPane * bool :=
  match node with
  | NoPane => (NoPane, false)
  | mkPane _ (Some s') _ _ _ _ => if bool_decide (s' = s) then (NoPane, true) else (node, false)
  | mkPane id None n d f g =>
      let '(f', removed) := removeSessionNode s f in
      let '(g', removed) := if removed then (g, true) else removeSessionNode s g in
      let node := mkPane id None n d f' g' in
      if negb removed then (node, false)
      else if negb (is_pane f') then (g', true)
      else if negb (is_pane g') then (f', true)
      else (node, true)
  end.

Fixpoint countNotePanes (p : SessionPane) : nat :=
  match p with
  | NoPane => 0
  | mkPane _ _ n _ f g => if n then 1 else countNotePanes f + countNotePanes g
  end.

Definition leaf_pane (id : string) (s : SessionIdentity) : SessionPane := mkPane id (Some s) false "" NoPane NoPane.

(** The split that [Place] writes over its target: the old target and the new leaf. *)
Definition split_pane (split leaf : string) (s : SessionIdentity) (direction : string) (target : SessionPane) : SessionPane :=
  mkPane split None (pane_Note target) direction target (leaf_pane leaf s).

(** ** Projects *)

Definition set_tabs (tabs : list TerminalTab) (p : LocalProject) : LocalProject :=
  mkProject (pr_ID p) (pr_Name p) tabs (pr_Hosts p).
Definition set_project_name (name : string) (p : LocalProject) : LocalProject :=
  mkProject (pr_ID p) name (pr_Tabs p) (pr_Hosts p).
Definition set_root (root : SessionPane) (t : TerminalTab) : TerminalTab := mkTab (tab_ID t) (tab_Name t) root.
Definition set_tab_name (name : string) (t : TerminalTab) : TerminalTab := mkTab (tab_ID t) name (tab_Root t).
Definition set_projects (ps : list LocalProject) (l : ProjectLayout) : ProjectLayout :=
  mkLayout ps (SuppressedDefaultSessions l).
Definition set_suppressed (ss : list SessionIdentity) (l : ProjectLayout) : ProjectLayout := mkLayout (Projects l) ss.

Definition hasSession (s : SessionIdentity) (p : LocalProject) : bool :=
  existsb (fun t => is_pane (findSession s (tab_Root t))) (pr_Tabs p).

Definition addTab (leaf tab : string) (s : SessionIdentity) (p : LocalProject) : LocalProject :=
  set_tabs (pr_Tabs p ++ [mkTab tab "" (leaf_pane leaf s)]) p.

(** The first element a test holds for, and its update in place. *)
Fixpoint update_first {A} (test : A -> bool) (h : A -> A) (l : list A) : list A :=
  match l with
  | [] => []
  | a :: l' => if test a then h a :: l' else a :: update_first test h l'
  end.

Fixpoint remove_from_tabs (s : SessionIdentity) (tabs : list TerminalTab) : list TerminalTab * bool :=
  match tabs with
  | [] => ([], false)
  | t :: rest =>
      let '(root, removed) := removeSessionNode s (tab_Root t) in
      if removed then ((if is_pane root then set_root root t :: rest else rest), true)
      else let '(rest', removed) := remove_from_tabs s rest in (t :: rest', removed)
  end.

(** The last index a test holds at: the loops of [MoveProject] and [MoveTab] do not
    stop at the first match. *)
Fixpoint last_index {A} (test : A -> bool) (i : nat) (l : list A) : option nat :=
  match l with
  | [] => None
  | a :: l' =>
      match last_index test (S i) l' with
      | Some j => Some j
      | None => if test a then Some i else None
      end
  end.

(** Take the element at [from] out and put it back beside [target], not before [low]. *)
Definition reorder {A} (low from target : nat) (before : bool) (l : list A) : list A :=
  match l !! from with
  | None => l
  | Some moved =>
      let rest := take from l ++ drop (S from) l in
      let target := if (from <? target)%nat then (target - 1)%nat else target in
      let target := if before then target else S target in
      let target := if (target <? low)%nat then low else target in
      let target := if (length rest <? target)%nat then length rest else target in
      take target rest ++ moved :: drop target rest
  end.

Section Layout.
Context `{UC : UnicodeCase} `{UF : UnicodeFormat} `{UU : UUIDs}.
Implicit Types (l : ProjectLayout) (w : desk).

Definition Clone l : ProjectLayout :=
  mkLayout
    (map (fun p => mkProject (pr_ID p) (pr_Name p)
            (map (fun t => mkTab (tab_ID t) (tab_Name t) (clone (tab_Root t))) (pr_Tabs p)) (pr_Hosts p)) (Projects l))
    (SuppressedDefaultSessions l).

Definition NewProjectLayout : ProjectLayout :=
  mkLayout [mkProject DefaultProjectID "Default Project" [] None] [].

Definition Project l (id : string) : option LocalProject := List.find (fun p => pr_ID p ==s id) (Projects l).

Definition update_project (id : string) (h : LocalProject -> LocalProject) l : ProjectLayout :=
  set_projects (update_first (fun p => pr_ID p ==s id) h (Projects l)) l.

Definition with_layout (h : ProjectLayout -> ProjectLayout) w : desk := mkDesk (issued w) (h (layout w)).

Definition AddProject (name : string) w : desk * result layout_error string :=
  if negb (validateCustomGroupName name) then (w, Err InvalidProjectName)
  else
    let id := NewString (issued w) in
    (mkDesk (S (issued w)) (set_projects (Projects (layout w) ++ [mkProject id name [] None]) (layout w)), Ok id).

Definition RenameTab (projectID tabID name : string) l : ProjectLayout * option layout_error :=
  if (name !=s "") && negb (validateCustomGroupName name) then (l, Some InvalidTabName)
  else
    match Project l projectID with
    | None => (l, Some ProjectNotFound)
    | Some p =>
        if existsb (fun t => tab_ID t ==s tabID) (pr_Tabs p) then
          (update_project projectID
             (fun p => set_tabs (update_first (fun t => tab_ID t ==s tabID) (set_tab_name name) (pr_Tabs p)) p) l, None)
        else (l, Some TabNotFound)
    end.

Definition RenameProject (projectID name : string) l : ProjectLayout * option layout_error :=
  if projectID ==s DefaultProjectID then (l, Some DefaultNotRenamed)
  else if negb (validateCustomGroupName name) then (l, Some InvalidProjectName)
  else
    match Project l projectID with
    | None => (l, Some ProjectNotFound)
    | Some _ => (update_project projectID (set_project_name name) l, None)
    end.

Definition MoveProject (projectID targetID : string) (before : bool) l : ProjectLayout * option layout_error :=
  if projectID ==s DefaultProjectID then (l, Some DefaultNotMoved)
  else
    match last_index (fun p => pr_ID p ==s projectID) 0 (Projects l), last_index (fun p => pr_ID p ==s targetID) 0 (Projects l) with
    | Some from, Some target =>
        if (from =? target)%nat then (l, None)
        else (set_projects (reorder 1 from target before (Projects l)) l, None)
    | _, _ => (l, Some ProjectNotFound)
    end.

Definition MoveTab (projectID tabID targetID : string) (before : bool) l : ProjectLayout * option layout_error :=
  match Project l projectID with
  | None => (l, Some ProjectNotFound)
  | Some p =>
      match last_index (fun t => tab_ID t ==s tabID) 0 (pr_Tabs p), last_index (fun t => tab_ID t ==s targetID) 0 (pr_Tabs p) with
      | Some from, Some target =>
          if (from =? target)%nat then (l, None)
          else (update_project projectID (fun p => set_tabs (reorder 0 from target before (pr_Tabs p)) p) l, None)
      | _, _ => (l, Some TabNotFound)
      end
  end.

(** ** Queries *)

Definition defaultSuppressed (s : SessionIdentity) l : bool := bool_decide (s ∈ SuppressedDefaultSessions l).

Definition hasMembership (projectID : string) (s : SessionIdentity) l : bool :=
  match Project l projectID with
  | None => false
  | Some p => hasSession s p || (projectID ==s DefaultProjectID) && defaultSuppressed s l
  end.

Definition ProjectsFor (s : SessionIdentity) l : list string :=
  map pr_ID (List.filter (fun p => hasMembership (pr_ID p) s l) (Projects l)).

(** The loops that skip the sessions already seen. *)
Fixpoint dedup (seen : gset SessionIdentity) (ss : list SessionIdentity) : list SessionIdentity :=
  match ss with
  | [] => []
  | s :: rest => if bool_decide (s ∈ seen) then dedup seen rest else s :: dedup ({[s]} ∪ seen) rest
  end.

Definition project_sessions (p : LocalProject) : list SessionIdentity :=
  List.flat_map (fun t => sessions (tab_Root t)) (pr_Tabs p).

Definition SessionsForProject (projectID : string) l : list SessionIdentity :=
  match Project l projectID with None => [] | Some p => dedup ∅ (project_sessions p) end.

Definition SessionsForInstance (instanceID : string) l : list SessionIdentity :=
  dedup ∅ (List.filter (fun s => si_InstanceID s ==s instanceID)
             (List.flat_map project_sessions (Projects l) ++ SuppressedDefaultSessions l)).

Definition TabSessions (projectID tabID : string) l : list SessionIdentity :=
  match Project l projectID with
  | None => []
  | Some p => match List.find (fun t => tab_ID t ==s tabID) (pr_Tabs p) with None => [] | Some t => sessions (tab_Root t) end
  end.

Fixpoint first_session_pane (tabs : list TerminalTab) : option (string * string) :=
  match tabs with
  | [] => None
  | t :: rest =>
      match List.find (fun s => is_pane (findSession s (tab_Root t))) (sessions (tab_Root t)) with
      | Some s => Some (tab_ID t, pane_ID (findSession s (tab_Root t)))
      | None => first_session_pane rest
      end
  end.

Definition FirstSessionPane (projectID : string) l : option (string * string) :=
  match Project l projectID with None => None | Some p => first_session_pane (pr_Tabs p) end.

Definition PaneTabID (projectID paneID : string) l : option string :=
  match Project l projectID with
  | None => None
  | Some p => tab_ID <$> List.find (fun t => is_pane (findPane paneID (tab_Root t))) (pr_Tabs p)
  end.

Fixpoint pane_session (paneID : string) (tabs : list TerminalTab) : option SessionIdentity :=
  match tabs with
  | [] => None
  | t :: rest => match pane_Session (findPane paneID (tab_Root t)) with Some s => Some s | None => pane_session paneID rest end
  end.

Definition PaneSession (projectID paneID : string) l : option SessionIdentity :=
  match Project l projectID with None => None | Some p => pane_session paneID (pr_Tabs p) end.

Definition HasPane (projectID paneID : string) l : bool :=
  match Project l projectID with
  | None => false
  | Some p => (paneID !=s "") && existsb (fun t => is_pane (findPane paneID (tab_Root t))) (pr_Tabs p)
  end.

Definition NavigateProject (s : SessionIdentity) (currentID lastID : string) l : string :=
  if hasMembership currentID s l then currentID
  else if hasMembership lastID s l then lastID
  else match ProjectsFor s l with id :: _ => id | [] => "" end.

Definition NotePane (projectID : string) l : option (string * string) :=
  match Project l projectID with
  | None => None
  | Some p => (fun t => (tab_ID t, pane_ID (tab_Root t))) <$> List.find (fun t => pane_Note (tab_Root t)) (pr_Tabs p)
  end.

Definition IsNotePane (projectID paneID : string) l : bool :=
  match NotePane projectID l with None => false | Some (_, id) => id ==s paneID end.

(** ** Changes *)

Fixpoint remove_first (s : SessionIdentity) (ss : list SessionIdentity) : list SessionIdentity :=
  match ss with
  | [] => []
  | s' :: rest => if bool_decide (s' = s) then rest else s' :: remove_first s rest
  end.

Definition clearDefaultSuppression (s : SessionIdentity) l : ProjectLayout :=
  set_suppressed (remove_first s (SuppressedDefaultSessions l)) l.

Definition removeSessionFromProject (projectID : string) (s : SessionIdentity) l : ProjectLayout * bool :=
  match Project l projectID with
  | None => (l, false)
  | Some p =>
      (update_project projectID (fun p => set_tabs (fst (remove_from_tabs s (pr_Tabs p))) p) l,
       snd (remove_from_tabs s (pr_Tabs p)))
  end.

Definition PlaceNote (projectID : string) w : desk * result layout_error string :=
  let l := layout w in
  match Project l projectID with
  | None => (w, Err ProjectNotFound)
  | Some _ =>
      match NotePane projectID l with
      | Some (_, paneID) => (w, Ok paneID)
      | None =>
          let leaf := NewString (issued w) in
          let tab := NewString (S (issued w)) in
          (mkDesk (S (S (issued w)))
             (update_project projectID
                (fun p => set_tabs (pr_Tabs p ++ [mkTab tab "Notes" (mkPane leaf None true "" NoPane NoPane)]) p) l), Ok leaf)
      end
  end.

(** The pane [Place] splits: the first one with the identifier, over the tabs in order. *)
Definition split_target (paneID : string) (p : LocalProject) : SessionPane :=
  match List.find (fun t => is_pane (findPane paneID (tab_Root t))) (pr_Tabs p) with
  | None => NoPane
  | Some t => findPane paneID (tab_Root t)
  end.

Definition split_tabs (paneID : string) (h : SessionPane -> SessionPane) (p : LocalProject) : LocalProject :=
  set_tabs (update_first (fun t => is_pane (findPane paneID (tab_Root t)))
              (fun t => set_root (set_pane paneID h (tab_Root t)) t) (pr_Tabs p)) p.

(** Writing the new view: the part of [Place] under its switch. *)
Definition put_view (p : LocalProject) (s : SessionIdentity) (placement targetPaneID : string) w
  : result layout_error (desk * string) :=
  let one := NewString (issued w) in
  let two := NewString (S (issued w)) in
  let done h := Ok (mkDesk (S (S (issued w))) (update_project (pr_ID p) h (layout w)), one) in
  if placement ==s PlaceNewTab then done (addTab one two s)
  else if (placement ==s PlaceHorizontal) || (placement ==s PlaceVertical) then
    match pane_Session (split_target targetPaneID p) with
    | None => Err SplitTarget
    | Some _ =>
        let direction := if placement ==s PlaceHorizontal then SplitHorizontal else SplitVertical in
        done (split_tabs targetPaneID (split_pane two one s direction))
    end
  else Err InvalidPlacement.

Definition Place (projectID : string) (s : SessionIdentity) (placement targetPaneID : string) w
  : desk * result layout_error string :=
  let l := layout w in
  match identity_validate s with
  | Err e => (w, Err e)
  | Ok _ =>
      match Project l projectID with
      | None => (w, Err ProjectNotFound)
      | Some p =>
          if hasSession s p then (w, Err AlreadyPlaced)
          else if (projectID ==s DefaultProjectID)
               && existsb (fun q => (pr_ID q !=s DefaultProjectID) && hasSession s q) (Projects l)
          then (w, Err ClassifiedSession)
          else
            match put_view p s placement targetPaneID w with
            | Err e => (w, Err e)
            | Ok (w', paneID) =>
                let l' := layout w' in
                let l' := if projectID !=s DefaultProjectID then fst (removeSessionFromProject DefaultProjectID s l') else l' in
                (mkDesk (issued w') (clearDefaultSuppression s l'), Ok paneID)
            end
      end
  end.

Definition RestoreDefaultPane (s : SessionIdentity) w : desk * result layout_error bool :=
  if negb (defaultSuppressed s (layout w)) then (w, Ok false)
  else
    let '(w', r) := Place DefaultProjectID s PlaceNewTab "" w in
    (w', match r with Ok _ => Ok true | Err e => Err e end).

Definition ensureDefault (s : SessionIdentity) w : desk :=
  let l := layout w in
  if defaultSuppressed s l then w
  else if existsb (fun q => (pr_ID q !=s DefaultProjectID) && hasSession s q) (Projects l) then w
  else
    match Project l DefaultProjectID with
    | Some p =>
        if hasSession s p then w
        else mkDesk (S (S (issued w)))
               (update_project DefaultProjectID (addTab (NewString (issued w)) (NewString (S (issued w))) s) l)
    | None => w
    end.

Fixpoint remove_project (id : string) (ps : list LocalProject) : list LocalProject :=
  match ps with
  | [] => []
  | p :: rest => if pr_ID p ==s id then rest else p :: remove_project id rest
  end.

Definition RemoveProject (projectID : string) w : desk * option layout_error :=
  if projectID ==s DefaultProjectID then (w, Some DefaultNotRemoved)
  else
    match Project (layout w) projectID with
    | None => (w, Some ProjectNotFound)
    | Some removed =>
        (fold_left (fun w s => ensureDefault s w) (project_sessions removed)
           (with_layout (fun l => set_projects (remove_project projectID (Projects l)) l) w), None)
    end.

Definition Detach (projectID : string) (s : SessionIdentity) w : desk * option layout_error :=
  let '(l', removed) := removeSessionFromProject projectID s (layout w) in
  let w' := mkDesk (issued w) l' in
  if negb removed then (w', Some NoPaneInProject)
  else if projectID ==s DefaultProjectID then
    (with_layout (fun l => set_suppressed (SuppressedDefaultSessions l ++ [s]) l) w', None)
  else (ensureDefault s w', None).

Definition DetachPane (projectID paneID : string) w : desk * result layout_error SessionIdentity :=
  match Project (layout w) projectID with
  | None => (w, Err ProjectNotFound)
  | Some p =>
      match List.find (fun t => is_pane (findPane paneID (tab_Root t))) (pr_Tabs p) with
      | None => (w, Err PaneGone)
      | Some t =>
          match pane_Session (findPane paneID (tab_Root t)) with
          | None => (w, Err SplitContainer)
          | Some s => let '(w', e) := Detach projectID s w in (w', match e with None => Ok s | Some e => Err e end)
          end
      end
  end.

Definition Discover (s : SessionIdentity) w : desk * option layout_error :=
  match identity_validate s with
  | Err e => (w, Some e)
  | Ok _ => (ensureDefault s w, None)
  end.

Definition Destroy (s : SessionIdentity) l : ProjectLayout :=
  fold_left (fun l id => fst (removeSessionFromProject id s l)) (map pr_ID (Projects l)) (clearDefaultSuppression s l).

(** ** Validation *)

Definition fail_if (b : bool) (e : layout_error) : result layout_error unit := if b then Err e else Ok tt.

Fixpoint pane_validate (p : SessionPane) (paneIDs : gset string) (seen : gset SessionIdentity)
  : result layout_error (gset string * gset SessionIdentity) :=
  match p with
  | NoPane => Err InvalidPane
  | mkPane id s n d f g =>
      _ <-! fail_if (negb (canonicalLayoutUUID id) || bool_decide (id ∈ paneIDs)) InvalidPane;
      let paneIDs := {[id]} ∪ paneIDs in
      match s with
      | Some s =>
          _ <-! fail_if n InvalidLeaf;
          _ <-! fail_if ((d !=s "") || is_pane f || is_pane g || bool_decide (s ∈ seen)) InvalidLeaf;
          _ <-! identity_validate s;
          Ok (paneIDs, {[s]} ∪ seen)
      | None =>
          if n then
            _ <-! fail_if ((d !=s "") || is_pane f || is_pane g) InvalidLeaf;
            Ok (paneIDs, seen)
          else
            _ <-! fail_if ((d !=s SplitHorizontal) && (d !=s SplitVertical) || negb (is_pane f) || negb (is_pane g)) InvalidSplit;
            x <-! pane_validate f paneIDs seen;
            pane_validate g (fst x) (snd x)
      end
  end.

Fixpoint hosts_validate (hosts : list string) (seen : gset string) : result layout_error unit :=
  match hosts with
  | [] => Ok tt
  | h :: rest =>
      _ <-! fail_if (negb (SafeIdentifier h) || bool_decide (h ∈ seen)) InvalidHost;
      hosts_validate rest ({[h]} ∪ seen)
  end.

(** The maps shared by all projects, and the ones of the current project. *)
Record checked := mkChecked { c_tabs : gset string; c_panes : gset string; c_seen : gset SessionIdentity; c_notes : nat }.

Fixpoint tabs_validate (tabs : list TerminalTab) (c : checked) : result layout_error checked :=
  match tabs with
  | [] => Ok c
  | t :: rest =>
      _ <-! fail_if (is_pane (tab_Root t) && (0 <? countNotePanes (tab_Root t))%nat && negb (pane_Note (tab_Root t))) NotesNotRoot;
      let notes := (c_notes c + countNotePanes (tab_Root t))%nat in
      _ <-! fail_if (1 <? notes)%nat DuplicateNotes;
      _ <-! fail_if ((tab_Name t !=s "") && negb (validateCustomGroupName (tab_Name t))) InvalidTabName;
      _ <-! fail_if (negb (canonicalLayoutUUID (tab_ID t)) || bool_decide (tab_ID t ∈ c_tabs c) || negb (is_pane (tab_Root t))) InvalidTab;
      x <-! pane_validate (tab_Root t) (c_panes c) (c_seen c);
      tabs_validate rest (mkChecked ({[tab_ID t]} ∪ c_tabs c) (fst x) (snd x) notes)
  end.

Record totals := mkTotals {
  t_projects : gset string;
  t_tabs : gset string;
  t_panes : gset string;
  t_custom : gset SessionIdentity;
  t_default : gset SessionIdentity }.

Fixpoint projects_validate (ps : list LocalProject) (t : totals) : result layout_error totals :=
  match ps with
  | [] => Ok t
  | p :: rest =>
      _ <-! fail_if (bool_decide (pr_ID p ∈ t_projects t) || negb (validateCustomGroupName (pr_Name p))
                     || (pr_ID p !=s DefaultProjectID) && negb (canonicalLayoutUUID (pr_ID p))) InvalidProject;
      _ <-! hosts_validate (default [] (pr_Hosts p)) ∅;
      c <-! tabs_validate (pr_Tabs p) (mkChecked (t_tabs t) (t_panes t) ∅ 0);
      let isDefault := pr_ID p ==s DefaultProjectID in
      projects_validate rest
        (mkTotals ({[pr_ID p]} ∪ t_projects t) (c_tabs c) (c_panes c)
           (if isDefault then t_custom t else c_seen c ∪ t_custom t)
           (if isDefault then c_seen c ∪ t_default t else t_default t))
  end.

Fixpoint suppressed_validate (ss : list SessionIdentity) (seen placed : gset SessionIdentity) : result layout_error unit :=
  match ss with
  | [] => Ok tt
  | s :: rest =>
      _ <-! fail_if (negb (is_Ok (identity_validate s)) || bool_decide (s ∈ seen) || bool_decide (s ∈ placed)) InvalidSuppressed;
      suppressed_validate rest ({[s]} ∪ seen) placed
  end.

Definition Validate l : result layout_error unit :=
  _ <-! fail_if (match Projects l with [] => true | p :: _ => pr_ID p !=s DefaultProjectID end) DefaultNotFirst;
  t <-! projects_validate (Projects l) (mkTotals ∅ ∅ ∅ ∅ ∅);
  _ <-! fail_if (negb (bool_decide (t_default t ∩ t_custom t = ∅))) ClassifiedInDefault;
  suppressed_validate (SuppressedDefaultSessions l) ∅ (t_default t ∪ t_custom t).

Definition MovePane (projectID sourcePaneID placement targetPaneID : string) w : desk * result layout_error string :=
  match PaneSession projectID sourcePaneID (layout w) with
  | None => (w, Err SourceGone)
  | Some s =>
      if (placement !=s PlaceNewTab) && (sourcePaneID ==s targetPaneID) then (w, Err OntoItself)
      else
        let '(next, removed) := removeSessionFromProject projectID s (Clone (layout w)) in
        if negb removed then (w, Err SourceGone)
        else
          let '(w', r) := Place projectID s placement targetPaneID (mkDesk (issued w) next) in
          match r with
          | Err e => (mkDesk (issued w') (layout w), Err e)
          | Ok paneID =>
              match Validate (layout w') with
              | Err e => (mkDesk (issued w') (layout w), Err e)
              | Ok _ => (w', Ok paneID)
              end
          end
  end.

(** One call on the layout, whatever it answers. *)
Inductive layout_op :=
| OAddProject (name : string)
| ORenameTab (projectID tabID name : string)
| ORenameProject (projectID name : string)
| OMoveProject (projectID targetID : string) (before : bool)
| OMoveTab (projectID tabID targetID : string) (before : bool)
| OPlace (projectID : string) (s : SessionIdentity) (placement targetPaneID : string)
| OPlaceNote (projectID : string)
| ORestoreDefaultPane (s : SessionIdentity)
| ORemoveProject (projectID : string)
| ODetach (projectID : string) (s : SessionIdentity)
| ODetachPane (projectID paneID : string)
| OMovePane (projectID sourcePaneID placement targetPaneID : string)
| ODiscover (s : SessionIdentity)
| ODestroy (s : SessionIdentity).

Definition layout_run (o : layout_op) w : desk :=
  match o with
  | OAddProject name => fst (AddProject name w)
  | ORenameTab p t name => with_layout (fun l => fst (RenameTab p t name l)) w
  | ORenameProject p name => with_layout (fun l => fst (RenameProject p name l)) w
  | OMoveProject p t before => with_layout (fun l => fst (MoveProject p t before l)) w
  | OMoveTab p a b before => with_layout (fun l => fst (MoveTab p a b before l)) w
  | OPlace p s pl t => fst (Place p s pl t w)
  | OPlaceNote p => fst (PlaceNote p w)
  | ORestoreDefaultPane s => fst (RestoreDefaultPane s w)
  | ORemoveProject p => fst (RemoveProject p w)
  | ODetach p s => fst (Detach p s w)
  | ODetachPane p pane => fst (DetachPane p pane w)
  | OMovePane p a pl t => fst (MovePane p a pl t w)
  | ODiscover s => fst (Discover s w)
  | ODestroy s => with_layout (Destroy s) w
  end.

Definition layout_runs (os : list layout_op) w : desk := fold_left (fun w o => layout_run o w) os w.

End Layout.
