(* ===== verification/LayoutSafety.v ===== *)
(** * Correctness of the project layout

    What [Validate] accepts, written over the flattened lists of identifiers and
    sessions; that every operation keeps it; and what the operations do to the
    membership of a session. *)

From S2P Require Import Prelude GoStrings Session Layout.
Local Open Scope go_scope.

(** ** Lists *)

Lemma submseteq_NoDup {A} (l k : list A) : l ⊆+ k -> NoDup k -> NoDup l.
Proof.
  intros H Hk. apply submseteq_Permutation in H as [r Hr]. rewrite Hr in Hk. by apply NoDup_app in Hk as [? _].
Qed.

Lemma flat_map_submseteq {A B} (h : A -> list B) (l k : list A) : l ⊆+ k -> List.flat_map h l ⊆+ List.flat_map h k.
Proof.
  intros H. apply submseteq_Permutation in H as [r Hr].
  assert (Hp : forall a b : list A, a ≡ₚ b -> List.flat_map h a ≡ₚ List.flat_map h b).
  { intros a b Hab. by apply Permutation_flat_map. }
  rewrite (Hp _ _ Hr), flat_map_app. by apply submseteq_inserts_r.
Qed.

Lemma flat_map_replace {A B} (h : A -> list B) (F : list B) (l1 l2 : list A) (a b : A) :
  h b ⊆+ F ++ h a -> List.flat_map h (l1 ++ b :: l2) ⊆+ F ++ List.flat_map h (l1 ++ a :: l2).
Proof.
  intros H. rewrite !flat_map_app. cbn. transitivity (List.flat_map h l1 ++ (F ++ h a) ++ List.flat_map h l2).
  - by apply submseteq_app; [|apply submseteq_app].
  - by rewrite <- !app_assoc, (Permutation_app_swap_app _ F).
Qed.

Lemma reorder_perm {A} (low from target : nat) (before : bool) (l : list A) : reorder low from target before l ≡ₚ l.
Proof.
  unfold reorder. destruct (l !! from) as [a|] eqn:Ha; [|done].
  match goal with |- context [take ?t _ ++ a :: _] => generalize t end. intros t.
  rewrite <- Permutation_middle, take_drop. rewrite <- (take_drop_middle l from a Ha) at 3. by rewrite Permutation_middle.
Qed.

Lemma reorder_head {A} (from target : nat) (before : bool) (a : A) (l : list A) :
  from <> 0 -> head (reorder 1 from target before (a :: l)) = Some a.
Proof.
  intros Hf. unfold reorder. destruct from as [|from]; [done|]. simpl lookup. destruct (l !! from) as [m|] eqn:Hm; [|done].
  simpl take. simpl drop.
  match goal with |- context [(?u <? 1)%nat] => generalize u end. intros [|v]; simpl.
  all: first [done | by case_goal].
Qed.

Lemma update_first_split {A} (test : A -> bool) (h : A -> A) (l : list A) (a : A) :
  List.find test l = Some a ->
  exists l1 l2, l = l1 ++ a :: l2 /\ test a = true /\ update_first test h l = l1 ++ h a :: l2 /\ Forall (fun b => test b = false) l1.
Proof.
  induction l as [|b l IH]; simpl; [done|]. destruct (test b) eqn:Hb.
  - intros [= ->]. exists [], l. by repeat split.
  - intros Hf. destruct (IH Hf) as (l1 & l2 & -> & ? & -> & ?). exists (b :: l1), l2. repeat split; auto.
Qed.

Lemma find_existsb {A} (test : A -> bool) (l : list A) : existsb test l = true <-> exists a, List.find test l = Some a.
Proof.
  induction l as [|b l IH]; simpl; [split; [done|by intros [? ?]]|]. destruct (test b); simpl; [|done].
  split; eauto.
Qed.

Lemma find_test {A} (test : A -> bool) (l : list A) (a : A) : List.find test l = Some a -> a ∈ l /\ test a = true.
Proof. intros H. apply find_some in H as [? ?]. split; [by apply list_elem_of_In|done]. Qed.

Lemma and_iff_compat_l_pf (A B C : Prop) : (A -> B <-> C) -> A /\ B <-> A /\ C.
Proof. tauto. Qed.

Lemma union_split_ids {A} `{Countable A} (a : A) (X Y P : gset A) : {[a]} ∪ (X ∪ Y) ∪ P = Y ∪ (X ∪ ({[a]} ∪ P)).
Proof. set_solver. Qed.

Lemma union_split_sessions {A} `{Countable A} (X Y P : gset A) : X ∪ Y ∪ P = Y ∪ (X ∪ P).
Proof. set_solver. Qed.

Lemma union_swap {A} `{Countable A} (a : A) (X P : gset A) : X ∪ ({[a]} ∪ P) = {[a]} ∪ X ∪ P.
Proof. set_solver. Qed.

Section Panes.
Context `{UC : UnicodeCase} `{UF : UnicodeFormat} `{UU : UUIDs}.
Implicit Types (p q : SessionPane) (s : SessionIdentity).

(** ** Well-shaped panes *)

Fixpoint pane_ids p : list string :=
  match p with NoPane => [] | mkPane id _ _ _ f g => id :: pane_ids f ++ pane_ids g end.

Fixpoint shaped p : Prop :=
  match p with
  | NoPane => False
  | mkPane _ (Some _) n d f g => n = false /\ d = "" /\ f = NoPane /\ g = NoPane
  | mkPane _ None true d f g => d = "" /\ f = NoPane /\ g = NoPane
  | mkPane _ None false d f g => (d = SplitHorizontal \/ d = SplitVertical) /\ shaped f /\ shaped g
  end.

Definition good_session s : Prop := identity_validate s = Ok tt.
Definition canonical (id : string) : Prop := canonicalLayoutUUID id = true.

Lemma is_pane_false p : is_pane p = false <-> p = NoPane.
Proof. destruct p; naive_solver. Qed.

Lemma shaped_pane p : shaped p -> is_pane p = true.
Proof. by destruct p. Qed.

(** A pane that adds to what is already in the maps. *)
Record pane_ok (P : gset string) (S : gset SessionIdentity) p : Prop := mkPaneOk {
  po_shaped : shaped p;
  po_ids : NoDup (pane_ids p);
  po_new : forall i, i ∈ pane_ids p -> i ∉ P /\ canonical i;
  po_sessions : NoDup (sessions p);
  po_good : forall s, s ∈ sessions p -> s ∉ S /\ good_session s }.

Lemma fail_if_ok (b : bool) (e : layout_error) {A} (k : result layout_error A) (a : A) :
  (_ <-! fail_if b e; k) = Ok a <-> b = false /\ k = Ok a.
Proof. destruct b; simpl; naive_solver. Qed.

Lemma new_id (id : string) (P : gset string) :
  negb (canonicalLayoutUUID id) || bool_decide (id ∈ P) = false <-> canonical id /\ id ∉ P.
Proof. rewrite orb_false_iff, negb_false_iff, bool_decide_eq_false. done. Qed.

Lemma pane_ok_leaf id s n d f g P S : canonical id -> id ∉ P ->
  pane_ok P S (mkPane id (Some s) n d f g) <->
  n = false /\ d = "" /\ f = NoPane /\ g = NoPane /\ s ∉ S /\ good_session s.
Proof.
  intros Hc Hi. split.
  - intros [(-> & -> & -> & ->) _ _ _ Hs]. destruct (Hs s); [by left|]. done.
  - intros (-> & -> & -> & -> & ? & ?). split; simpl; auto using NoDup_singleton.
    + by intros i ->%list_elem_of_singleton.
    + by intros i ->%list_elem_of_singleton.
Qed.

Lemma pane_ok_note id d f g P S : canonical id -> id ∉ P ->
  pane_ok P S (mkPane id None true d f g) <-> d = "" /\ f = NoPane /\ g = NoPane.
Proof.
  intros Hc Hi. split; [by intros [(-> & -> & ->) _ _ _ _]|].
  intros (-> & -> & ->). split; simpl; auto using NoDup_singleton, NoDup_nil_2.
  - by intros i ->%list_elem_of_singleton.
  - by intros i ?%elem_of_nil.
Qed.

(** The lists of a split, checked one half after the other. *)
Lemma new_app {A} `{Countable A} (good : A -> Prop) (a b : list A) (P : gset A) :
  NoDup (a ++ b) /\ (forall i, i ∈ a ++ b -> i ∉ P /\ good i) <->
  (NoDup a /\ (forall i, i ∈ a -> i ∉ P /\ good i))
  /\ NoDup b /\ (forall i, i ∈ b -> i ∉ list_to_set a ∪ P /\ good i).
Proof.
  rewrite NoDup_app. setoid_rewrite elem_of_app. setoid_rewrite elem_of_union. setoid_rewrite elem_of_list_to_set.
  split; [naive_solver|]. intros ((Ha & Hga) & Hb & Hgb). split; [split_and!; naive_solver|naive_solver].
Qed.

Lemma pane_ok_split id d f g P S : canonical id -> id ∉ P -> d = SplitHorizontal \/ d = SplitVertical ->
  pane_ok P S (mkPane id None false d f g) <->
  pane_ok ({[id]} ∪ P) S f /\ pane_ok (list_to_set (pane_ids f) ∪ ({[id]} ∪ P)) (list_to_set (sessions f) ∪ S) g.
Proof.
  intros Hc Hi Hd.
  pose proof (new_app canonical (pane_ids f) (pane_ids g) ({[id]} ∪ P)) as Hids.
  pose proof (new_app good_session (sessions f) (sessions g) S) as Hsess.
  assert (Hcons : (NoDup (id :: pane_ids f ++ pane_ids g) /\ (forall i, i ∈ id :: pane_ids f ++ pane_ids g -> i ∉ P /\ canonical i))
    <-> (NoDup (pane_ids f ++ pane_ids g) /\ forall i, i ∈ pane_ids f ++ pane_ids g -> i ∉ {[id]} ∪ P /\ canonical i)).
  { clear Hids Hsess. rewrite NoDup_cons. setoid_rewrite elem_of_cons. setoid_rewrite elem_of_union.
    setoid_rewrite elem_of_singleton. split; [intros [[? ?] ?]; split; [done|]; intros i Hin; split; [|naive_solver]; intros [->|?]; naive_solver|naive_solver]. }
  split.
  - intros [(_ & Hf & Hg) H1 H2 H3 H4]. simpl in *. destruct Hids as [Hids _], Hsess as [Hsess _], Hcons as [Hcons _].
    destruct (Hids (Hcons (conj H1 H2))) as [[? ?] [? ?]], (Hsess (conj H3 H4)) as [[? ?] [? ?]]. split; by split.
  - intros [[F1 F2 F3 F4 F5] [G1 G2 G3 G4 G5]]. destruct Hids as [_ Hids], Hsess as [_ Hsess], Hcons as [_ Hcons].
    destruct (Hcons (Hids (conj (conj F2 F3) (conj G2 G3)))), (Hsess (conj (conj F4 F5) (conj G4 G5))). by split.
Qed.

(** [Validate] of a pane: what it accepts, and what the maps hold afterwards. *)
Lemma pane_validate_spec p P S x :
  pane_validate p P S = Ok x <->
  pane_ok P S p /\ x = (list_to_set (pane_ids p) ∪ P, list_to_set (sessions p) ∪ S).
Proof.
  revert P S x. induction p as [|id s n d f IHf g IHg]; intros P S x; [split; [done|by intros [[[] _ _ _ _] _]]|].
  cbn [pane_validate]. rewrite fail_if_ok, new_id. cbn [pane_ids sessions].
  transitivity ((canonical id /\ id ∉ P) /\ pane_ok P S (mkPane id s n d f g) /\
    x = (list_to_set (id :: pane_ids f ++ pane_ids g) ∪ P, list_to_set (sessions (mkPane id s n d f g)) ∪ S)).
  2:{ split; [by intros [_ ?]|]. intros [H ?]. split; [|done]. by destruct (po_new _ _ _ H id); [left|]. }
  apply and_iff_compat_l_pf. intros [Hc Hi]. destruct s as [s|].
  - rewrite (pane_ok_leaf _ _ _ _ _ _ _ _ Hc Hi), !fail_if_ok, !orb_false_iff, negb_false_iff, String.eqb_eq, !is_pane_false, bool_decide_eq_false.
    unfold good_session. split.
    + intros (-> & (((-> & ->) & ->) & Hs) & H). destruct (identity_validate s) as [[]|]; [|discriminate].
      injection H as <-. split; [done|]. simpl. by rewrite !union_empty_r_L.
    + intros ((-> & -> & -> & -> & ? & Hv) & ->). rewrite Hv. simpl. by rewrite !union_empty_r_L.
  - destruct n.
    + rewrite (pane_ok_note _ _ _ _ _ _ Hc Hi), fail_if_ok, !orb_false_iff, negb_false_iff, String.eqb_eq, !is_pane_false.
      split; [intros (((-> & ->) & ->) & [= <-])|intros ((-> & -> & ->) & ->)]; simpl; rewrite ?union_empty_r_L, ?union_empty_l_L; done.
    + rewrite fail_if_ok, !orb_false_iff, !negb_false_iff. split.
      * intros (((Hd & Hf) & Hg) & H).
        assert (Hdir : d = SplitHorizontal \/ d = SplitVertical) by (apply andb_false_iff in Hd as [Hd|Hd]; bool_to_prop; auto).
        rewrite (pane_ok_split _ _ _ _ _ _ Hc Hi Hdir).
        destruct (pane_validate f _ _) as [y|] eqn:Hy; [|discriminate]. apply IHf in Hy as [? ->].
        cbn [rbind fst snd] in H. apply IHg in H as [? ->]. split; [done|]. simpl. by rewrite !list_to_set_app_L, union_split_ids, union_split_sessions.
      * intros [H ->]. pose proof (po_shaped _ _ _ H) as (Hdir & Hf & Hg). rewrite (pane_ok_split _ _ _ _ _ _ Hc Hi Hdir) in H.
        destruct H as [H1 H2]. rewrite (shaped_pane _ Hf), (shaped_pane _ Hg). split.
        { destruct Hdir as [-> | ->]; done. }
        rewrite (proj2 (IHf _ _ _) (conj H1 eq_refl)). cbn [rbind fst snd]. rewrite (proj2 (IHg _ _ _) (conj H2 eq_refl)).
        simpl. by rewrite !list_to_set_app_L, union_split_ids, union_split_sessions.
Qed.

(** ** Valid layouts *)

Definition tab_panes (t : TerminalTab) : list string := pane_ids (tab_Root t).
Definition project_panes (pr : LocalProject) : list string := List.flat_map tab_panes (pr_Tabs pr).
Definition project_tabs (pr : LocalProject) : list string := map tab_ID (pr_Tabs pr).
Definition project_notes (pr : LocalProject) : nat := list_sum (map (fun t => countNotePanes (tab_Root t)) (pr_Tabs pr)).

Record tab_ok (t : TerminalTab) : Prop := mkTabOk {
  to_name : tab_Name t = "" \/ validateCustomGroupName (tab_Name t) = true;
  to_shaped : shaped (tab_Root t);
  to_notes : 0 < countNotePanes (tab_Root t) -> pane_Note (tab_Root t) = true }.

Record project_ok (pr : LocalProject) : Prop := mkProjectOk {
  jo_name : validateCustomGroupName (pr_Name pr) = true;
  jo_hosts : hosts_validate (default [] (pr_Hosts pr)) ∅ = Ok tt;
  jo_sessions : NoDup (project_sessions pr);
  jo_good : forall s, s ∈ project_sessions pr -> good_session s;
  jo_notes : project_notes pr <= 1;
  jo_tabs : Forall tab_ok (pr_Tabs pr) }.

(** Identifiers are canonical and used once; the built-in project comes first. *)
Record sound_projects (ps : list LocalProject) : Prop := mkSound {
  so_ids : NoDup (map pr_ID ps);
  so_canonical : forall pr, pr ∈ ps -> pr_ID pr = DefaultProjectID \/ canonical (pr_ID pr);
  so_tabs : NoDup (List.flat_map project_tabs ps);
  so_tabs_canonical : forall i, i ∈ List.flat_map project_tabs ps -> canonical i;
  so_panes : NoDup (List.flat_map project_panes ps);
  so_panes_canonical : forall i, i ∈ List.flat_map project_panes ps -> canonical i;
  so_each : Forall project_ok ps }.

Definition in_project (l : ProjectLayout) (id : string) s : Prop :=
  exists pr, Project l id = Some pr /\ s ∈ project_sessions pr.

(** A session in a custom project is not in the built-in one, and a session whose
    built-in view is closed is in none. *)
Record disjoint_views (l : ProjectLayout) : Prop := mkDisjoint {
  dv_default : forall s id, id <> DefaultProjectID -> in_project l id s -> ~ in_project l DefaultProjectID s;
  dv_suppressed : NoDup (SuppressedDefaultSessions l);
  dv_good : forall s, s ∈ SuppressedDefaultSessions l -> good_session s;
  dv_closed : forall s id, s ∈ SuppressedDefaultSessions l -> ~ in_project l id s }.

Record valid_layout (l : ProjectLayout) : Prop := mkValid {
  vl_first : exists pr ps, Projects l = pr :: ps /\ pr_ID pr = DefaultProjectID;
  vl_sound : sound_projects (Projects l);
  vl_views : disjoint_views l }.

(** The checks of the tabs of one project. *)
Lemma tabs_validate_spec (tabs : list TerminalTab) (c x : checked) :
  tabs_validate tabs c = Ok x <->
  Forall tab_ok tabs
  /\ (NoDup (map tab_ID tabs) /\ forall i, i ∈ map tab_ID tabs -> i ∉ c_tabs c /\ canonical i)
  /\ (NoDup (List.flat_map tab_panes tabs) /\ forall i, i ∈ List.flat_map tab_panes tabs -> i ∉ c_panes c /\ canonical i)
  /\ (NoDup (List.flat_map (fun t => sessions (tab_Root t)) tabs)
     /\ forall s, s ∈ List.flat_map (fun t => sessions (tab_Root t)) tabs -> s ∉ c_seen c /\ good_session s)
  /\ (tabs = [] \/ c_notes c + list_sum (map (fun t => countNotePanes (tab_Root t)) tabs) <= 1)
  /\ x = mkChecked (list_to_set (map tab_ID tabs) ∪ c_tabs c) (list_to_set (List.flat_map tab_panes tabs) ∪ c_panes c)
           (list_to_set (List.flat_map (fun t => sessions (tab_Root t)) tabs) ∪ c_seen c)
           (c_notes c + list_sum (map (fun t => countNotePanes (tab_Root t)) tabs)).
Proof.
  revert c x. induction tabs as [|t rest IH]; intros c x.
  { cbn. rewrite !union_empty_l_L, Nat.add_0_r. destruct c; cbn. split.
    - intros [= <-]. split_and!; auto using NoDup_nil_2; by intros ? ?%elem_of_nil.
    - by intros (_ & _ & _ & _ & _ & ->). }
  cbn [tabs_validate map List.flat_map]. rewrite !fail_if_ok.
  transitivity (tab_ok t /\ (canonical (tab_ID t) /\ tab_ID t ∉ c_tabs c) /\ pane_ok (c_panes c) (c_seen c) (tab_Root t)
    /\ c_notes c + countNotePanes (tab_Root t) <= 1
    /\ tabs_validate rest (mkChecked ({[tab_ID t]} ∪ c_tabs c) (list_to_set (tab_panes t) ∪ c_panes c)
         (list_to_set (sessions (tab_Root t)) ∪ c_seen c) (c_notes c + countNotePanes (tab_Root t))) = Ok x).
  - rewrite !andb_false_iff, !orb_false_iff, !negb_false_iff, Nat.ltb_ge, Nat.ltb_ge, String.eqb_eq, bool_decide_eq_false. split.
    + intros (Hn & Hle & Hname & ((Hc & Hi) & Hp) & H). destruct (pane_validate _ _ _) as [y|] eqn:Hy; [|discriminate].
      apply pane_validate_spec in Hy as [Hok ->]. cbn [rbind fst snd] in H. split_and!; auto.
      split; [done|by apply po_shaped in Hok|]. destruct Hn as [[Hn|Hn]|Hn]; [congruence|lia|done].
    + intros ([Hname Hsh Hn] & [Hc Hi] & Hok & Hle & H). split_and!; auto using shaped_pane.
      { destruct (Nat.eq_dec (countNotePanes (tab_Root t)) 0); [left; right; lia|right; apply Hn; lia]. }
      by rewrite (proj2 (pane_validate_spec _ _ _ _) (conj Hok eq_refl)).
  - rewrite IH. clear IH. cbn [c_tabs c_panes c_seen c_notes].
    pose proof (new_app canonical [tab_ID t] (map tab_ID rest) (c_tabs c)) as H1.
    pose proof (new_app canonical (tab_panes t) (List.flat_map tab_panes rest) (c_panes c)) as H2.
    pose proof (new_app good_session (sessions (tab_Root t)) (List.flat_map (fun t => sessions (tab_Root t)) rest) (c_seen c)) as H3.
    cbn [app list_to_set] in H1. rewrite union_empty_r_L in H1. rewrite H1, H2, H3. clear H1 H2 H3. rewrite Forall_cons.
    rewrite !list_to_set_app_L, !union_split_sessions. cbn [list_to_set map list_sum foldr]. rewrite <- union_swap, Nat.add_assoc.
    split.
    + intros (Ht & (Hc & Hi) & [_ P2 P3 P4 P5] & Hle & Hr & [? ?] & [? ?] & [? ?] & Hsum & ->).
      split_and!; auto using NoDup_singleton.
      { by intros i ->%list_elem_of_singleton. }
      right. destruct Hsum as [-> |?]; simpl; unfold list_sum in *; lia.
    + intros ([Ht Hr] & [[_ Hid] [? ?]] & [[? ?] [? ?]] & [[? ?] [? ?]] & [Hn|Hn] & ->); [discriminate|].
      destruct (Hid (tab_ID t)) as [Hi Hc]; [by left|]. split_and!; auto; [split; auto; apply Ht|lia].
Qed.

Definition is_default (pr : LocalProject) : bool := pr_ID pr ==s DefaultProjectID.
Definition sessions_where (test : LocalProject -> bool) (ps : list LocalProject) : list SessionIdentity :=
  List.flat_map (fun pr => if test pr then project_sessions pr else []) ps.

(** The checks of one project. *)
Lemma project_validate_spec (pr : LocalProject) (t : totals) (c : checked) :
  (validateCustomGroupName (pr_Name pr) = true
   /\ (_ <-! hosts_validate (default [] (pr_Hosts pr)) ∅; tabs_validate (pr_Tabs pr) (mkChecked (t_tabs t) (t_panes t) ∅ 0)) = Ok c) <->
  project_ok pr
  /\ (NoDup (project_tabs pr) /\ forall i, i ∈ project_tabs pr -> i ∉ t_tabs t /\ canonical i)
  /\ (NoDup (project_panes pr) /\ forall i, i ∈ project_panes pr -> i ∉ t_panes t /\ canonical i)
  /\ c = mkChecked (list_to_set (project_tabs pr) ∪ t_tabs t) (list_to_set (project_panes pr) ∪ t_panes t)
           (list_to_set (project_sessions pr)) (project_notes pr).
Proof.
  split.
  - intros [Hname H]. destruct (hosts_validate _ _) as [[]|] eqn:Hh; [|discriminate]. cbn [rbind] in H.
    apply tabs_validate_spec in H as (Ht & Hids & Hpanes & [Hnd Hg] & Hn & ->). cbn in *.
    rewrite union_empty_r_L. split_and!; try done; [|apply Hids..|apply Hpanes|apply Hpanes].
    split; auto; [intros s Hs; apply (Hg s Hs)|]. unfold project_notes. destruct Hn as [-> |Hn]; simpl; lia.
  - intros ([Hname Hh Hnd Hg Hn Ht] & Hids & Hpanes & ->). split; [done|]. rewrite Hh. cbn [rbind].
    apply tabs_validate_spec. cbn. rewrite union_empty_r_L. split_and!; try done; [apply Hids..|apply Hpanes|apply Hpanes| |by right].
    intros s Hs. split; [set_solver|by apply Hg].
Qed.

Lemma projects_validate_spec (ps : list LocalProject) (t x : totals) :
  projects_validate ps t = Ok x <->
  Forall project_ok ps
  /\ (NoDup (map pr_ID ps) /\ forall i, i ∈ map pr_ID ps -> i ∉ t_projects t /\ (i = DefaultProjectID \/ canonical i))
  /\ (NoDup (List.flat_map project_tabs ps) /\ forall i, i ∈ List.flat_map project_tabs ps -> i ∉ t_tabs t /\ canonical i)
  /\ (NoDup (List.flat_map project_panes ps) /\ forall i, i ∈ List.flat_map project_panes ps -> i ∉ t_panes t /\ canonical i)
  /\ x = mkTotals (list_to_set (map pr_ID ps) ∪ t_projects t) (list_to_set (List.flat_map project_tabs ps) ∪ t_tabs t)
           (list_to_set (List.flat_map project_panes ps) ∪ t_panes t)
           (list_to_set (sessions_where (fun pr => negb (is_default pr)) ps) ∪ t_custom t)
           (list_to_set (sessions_where is_default ps) ∪ t_default t).
Proof.
  revert t x. induction ps as [|pr rest IH]; intros t x.
  { cbn. rewrite !union_empty_l_L. destruct t; cbn. split.
    - intros [= <-]. split_and!; auto using NoDup_nil_2; by intros ? ?%elem_of_nil.
    - by intros (_ & _ & _ & _ & ->). }
  cbn [projects_validate map List.flat_map sessions_where]. rewrite fail_if_ok.
  transitivity ((pr_ID pr ∉ t_projects t /\ (pr_ID pr = DefaultProjectID \/ canonical (pr_ID pr)))
    /\ project_ok pr
    /\ (NoDup (project_tabs pr) /\ forall i, i ∈ project_tabs pr -> i ∉ t_tabs t /\ canonical i)
    /\ (NoDup (project_panes pr) /\ forall i, i ∈ project_panes pr -> i ∉ t_panes t /\ canonical i)
    /\ projects_validate rest (mkTotals ({[pr_ID pr]} ∪ t_projects t) (list_to_set (project_tabs pr) ∪ t_tabs t)
         (list_to_set (project_panes pr) ∪ t_panes t)
         (list_to_set (if negb (is_default pr) then project_sessions pr else []) ∪ t_custom t)
         (list_to_set (if is_default pr then project_sessions pr else []) ∪ t_default t)) = Ok x).
  - rewrite !orb_false_iff, andb_false_iff, !negb_false_iff, bool_decide_eq_false, String.eqb_eq.
    transitivity ((pr_ID pr ∉ t_projects t /\ (pr_ID pr = DefaultProjectID \/ canonical (pr_ID pr))) /\
      exists c, (validateCustomGroupName (pr_Name pr) = true
        /\ (_ <-! hosts_validate (default [] (pr_Hosts pr)) ∅; tabs_validate (pr_Tabs pr) (mkChecked (t_tabs t) (t_panes t) ∅ 0)) = Ok c)
        /\ projects_validate rest (mkTotals ({[pr_ID pr]} ∪ t_projects t) (c_tabs c) (c_panes c)
             (if is_default pr then t_custom t else c_seen c ∪ t_custom t)
             (if is_default pr then c_seen c ∪ t_default t else t_default t)) = Ok x).
    + unfold is_default, canonical. destruct (hosts_validate _ _) as [[]|]; cbn [rbind]; [|naive_solver].
      destruct (tabs_validate _ _) as [c|]; cbn [rbind]; [|naive_solver]. naive_solver.
    + setoid_rewrite project_validate_spec. split.
      * intros (? & c & (Hok & ? & ? & ->) & Hv). split_and!; try tauto. cbn in Hv. rewrite <- Hv.
        destruct (is_default pr); cbn; by rewrite union_empty_l_L.
      * intros (? & Hok & Htabs & Hpanes & Hv). split; [done|]. eexists. split; [exact (conj Hok (conj Htabs (conj Hpanes eq_refl)))|].
        cbn. rewrite <- Hv.
        destruct (is_default pr); cbn; by rewrite union_empty_l_L.
  - rewrite IH. clear IH. cbn [t_projects t_tabs t_panes t_custom t_default].
    pose proof (new_app (fun i => i = DefaultProjectID \/ canonical i) [pr_ID pr] (map pr_ID rest) (t_projects t)) as H1.
    pose proof (new_app canonical (project_tabs pr) (List.flat_map project_tabs rest) (t_tabs t)) as H2.
    pose proof (new_app canonical (project_panes pr) (List.flat_map project_panes rest) (t_panes t)) as H3.
    cbn [app list_to_set] in H1. rewrite union_empty_r_L in H1. rewrite H1, H2, H3, Forall_cons. clear H1 H2 H3.
    rewrite !list_to_set_app_L, !union_split_sessions. cbn [list_to_set]. rewrite <- union_swap.
    split.
    + intros (Hid & Hok & [? ?] & [? ?] & Hr & [? ?] & [? ?] & [? ?] & ->). split_and!; auto using NoDup_singleton.
      by intros i ->%list_elem_of_singleton.
    + intros ([Hok Hr] & [[_ Hid] [? ?]] & [[? ?] [? ?]] & [[? ?] [? ?]] & ->). split_and!; auto; apply Hid; by left.
Qed.

Lemma suppressed_validate_spec (ss : list SessionIdentity) (seen placed : gset SessionIdentity) :
  suppressed_validate ss seen placed = Ok tt <->
  NoDup ss /\ forall s, s ∈ ss -> s ∉ seen /\ good_session s /\ s ∉ placed.
Proof.
  revert seen. induction ss as [|s rest IH]; intros seen; cbn [suppressed_validate].
  { split; [intros _; split; [apply NoDup_nil_2|by intros ? ?%elem_of_nil]|done]. }
  rewrite fail_if_ok, !orb_false_iff, negb_false_iff, !bool_decide_eq_false, IH, NoDup_cons.
  setoid_rewrite elem_of_cons. setoid_rewrite elem_of_union. setoid_rewrite elem_of_singleton. unfold good_session. split.
  - intros (((Hg & Hs) & Hp) & Hnd & Hr). destruct (identity_validate s) as [[]|] eqn:Hv; [|discriminate].
    split; [split; [intros Hin; destruct (Hr s Hin) as [Hx _]; tauto|done]|].
    intros s' [->|Hin]; [done|]. destruct (Hr s' Hin) as (? & ? & ?). split_and!; auto.
  - intros ((Hn & Hnd) & Hr). destruct (Hr s (or_introl eq_refl)) as (? & Hv & ?). rewrite Hv. split_and!; auto.
    intros s' Hin. destruct (Hr s' (or_intror Hin)) as (? & ? & ?). split_and!; auto. intros [->|?]; tauto.
Qed.

(** ** Projects by identifier *)

Lemma Project_some (l : ProjectLayout) id pr : Project l id = Some pr -> pr ∈ Projects l /\ pr_ID pr = id.
Proof. intros H. apply find_test in H as [? H%String.eqb_eq]. done. Qed.

Lemma Project_of (l : ProjectLayout) pr : NoDup (map pr_ID (Projects l)) -> pr ∈ Projects l -> Project l (pr_ID pr) = Some pr.
Proof.
  unfold Project. generalize (Projects l). intros ps. induction ps as [|q ps IH]; simpl; [by intros _ ?%elem_of_nil|].
  intros [Hq Hnd]%NoDup_cons [->|Hin]%elem_of_cons; [by rewrite String.eqb_refl|].
  destruct (String.eqb_spec (pr_ID q) (pr_ID pr)) as [He|]; [|by apply IH].
  destruct Hq. rewrite He. by apply list_elem_of_In, in_map, list_elem_of_In.
Qed.

Lemma Project_ok (l : ProjectLayout) id pr : sound_projects (Projects l) -> Project l id = Some pr -> project_ok pr.
Proof. intros Hl [Hin _]%Project_some. by eapply Forall_forall in Hin; [|apply Hl]. Qed.

Lemma sessions_where_in (test : LocalProject -> bool) (ps : list LocalProject) s :
  s ∈ sessions_where test ps <-> exists pr, pr ∈ ps /\ test pr = true /\ s ∈ project_sessions pr.
Proof.
  unfold sessions_where. rewrite list_elem_of_In, in_flat_map. setoid_rewrite <- list_elem_of_In. split.
  - intros (pr & Hin & Hs). destruct (test pr) eqn:Ht; [eauto|by apply elem_of_nil in Hs].
  - intros (pr & Hin & Ht & Hs). exists pr. by rewrite Ht.
Qed.

Lemma in_default (l : ProjectLayout) s : NoDup (map pr_ID (Projects l)) ->
  s ∈ sessions_where is_default (Projects l) <-> in_project l DefaultProjectID s.
Proof.
  intros Hnd. rewrite sessions_where_in. unfold is_default, in_project. split.
  - intros (pr & Hin & Ht%String.eqb_eq & Hs). exists pr. rewrite <- Ht. by rewrite Project_of.
  - intros (pr & [Hin Hid]%Project_some & Hs). exists pr. by rewrite Hid.
Qed.

Lemma in_custom (l : ProjectLayout) s : NoDup (map pr_ID (Projects l)) ->
  s ∈ sessions_where (fun pr => negb (is_default pr)) (Projects l) <-> exists id, id <> DefaultProjectID /\ in_project l id s.
Proof.
  intros Hnd. rewrite sessions_where_in. unfold is_default, in_project. split.
  - intros (pr & Hin & Ht & Hs). bool_to_prop. exists (pr_ID pr). split; [done|]. exists pr. by rewrite Project_of.
  - intros (id & Hne & pr & [Hin <-]%Project_some & Hs). exists pr. split_and!; auto. by apply negb_true_iff, String.eqb_neq.
Qed.

Lemma Forall_map_ids (Q : string -> Prop) (ps : list LocalProject) :
  (forall i, i ∈ map pr_ID ps -> Q i) <-> forall pr, pr ∈ ps -> Q (pr_ID pr).
Proof.
  setoid_rewrite list_elem_of_In. setoid_rewrite in_map_iff. naive_solver.
Qed.

(** [Validate] accepts exactly the valid layouts. *)
Lemma Validate_spec (l : ProjectLayout) : Validate l = Ok tt <-> valid_layout l.
Proof.
  assert (Hfirst : match Projects l with [] => true | p :: _ => pr_ID p !=s DefaultProjectID end = false <->
    exists pr ps, Projects l = pr :: ps /\ pr_ID pr = DefaultProjectID).
  { destruct (Projects l) as [|pr ps]; [naive_solver|]. rewrite negb_false_iff, String.eqb_eq. naive_solver. }
  assert (Hids : forall (Q R : string -> Prop), (forall i, Q i -> i ∉ (∅ : gset string) /\ R i) <-> (forall i, Q i -> R i)).
  { set_solver. }
  unfold Validate. rewrite fail_if_ok, Hfirst. split.
  - intros [Hf H]. destruct (projects_validate _ _) as [t|] eqn:Ht; [|discriminate]. cbn [rbind] in H.
    apply projects_validate_spec in Ht as (Hok & [Hnd Hi] & [Htn Hti] & [Hpn Hpi] & ->).
    rewrite fail_if_ok, negb_false_iff, bool_decide_eq_true, suppressed_validate_spec in H. cbn in H. rewrite !union_empty_r_L in H.
    destruct H as (Hdis & Hsn & Hs). rewrite Hids, Forall_map_ids in Hi. rewrite Hids in Hti, Hpi. split; [done|by split|].
    setoid_rewrite not_elem_of_union in Hs. setoid_rewrite elem_of_list_to_set in Hs.
    split; [|done|by intros; apply Hs|].
    + intros s id Hne Hin Hd. apply (elem_of_empty (C:=gset SessionIdentity) s). rewrite <- Hdis.
      apply elem_of_intersection. rewrite !elem_of_list_to_set, in_default, in_custom by done. eauto.
    + intros s id Hin Hp. destruct (Hs s Hin) as (_ & _ & Hnd' & Hnc). rewrite in_default in Hnd' by done. rewrite in_custom in Hnc by done.
      destruct (decide (id = DefaultProjectID)) as [->|]; eauto.
  - intros [Hf [H1 H2 H3 H4 H5 H6 H7] [D1 D2 D3 D4]]. split; [done|].
    erewrite (proj2 (projects_validate_spec _ _ _)).
    2:{ refine (conj H7 (conj (conj H1 _) (conj (conj H3 _) (conj (conj H5 _) eq_refl)))); apply Hids; [by apply Forall_map_ids|done|done]. }
    cbn [rbind]. rewrite fail_if_ok, negb_false_iff, bool_decide_eq_true, suppressed_validate_spec. cbn. rewrite !union_empty_r_L. split_and!; auto.
    + apply elem_of_equiv_empty_L. intros s [Ha Hb]%elem_of_intersection. rewrite elem_of_list_to_set in Ha, Hb.
      rewrite in_default in Ha by done. rewrite in_custom in Hb by done. destruct Hb as (id & Hne & Hin). by apply (D1 s id).
    + intros s Hs. split_and!; [set_solver|by apply D3|]. rewrite not_elem_of_union, !elem_of_list_to_set.
      rewrite in_default, in_custom by done. split; [by apply D4|]. intros (id & _ & Hin). by apply (D4 s id).
Qed.

(** ** Removing and splitting a pane *)

Lemma shaped_cases id so n d f g : shaped (mkPane id so n d f g) ->
  (exists s0, so = Some s0 /\ n = false /\ d = "" /\ f = NoPane /\ g = NoPane)
  \/ (so = None /\ n = true /\ d = "" /\ f = NoPane /\ g = NoPane)
  \/ (so = None /\ n = false /\ (d = SplitHorizontal \/ d = SplitVertical) /\ shaped f /\ shaped g).
Proof. destruct so as [s0|]; [|destruct n]; simpl; naive_solver. Qed.

Ltac shape_cases H :=
  apply shaped_cases in H as [(? & -> & -> & -> & -> & ->)|[(-> & -> & -> & -> & ->)|(-> & -> & ? & ? & ?)]].

Lemma findSession_in s p : shaped p -> is_pane (findSession s p) = true <-> s ∈ sessions p.
Proof.
  induction p as [|id s' n d f IHf g IHg]; [done|]. intros H. shape_cases H; cbn.
  - rewrite list_elem_of_singleton. case_bool_decide as Hs; naive_solver.
  - rewrite elem_of_nil. naive_solver.
  - rewrite elem_of_app, <- IHf, <- IHg by done. destruct (is_pane (findSession s f)) eqn:Hf; intuition congruence.
Qed.

Lemma findPane_in i p : is_pane (findPane i p) = true <-> i ∈ pane_ids p.
Proof.
  induction p as [|id s' n d f IHf g IHg]; cbn; [rewrite elem_of_nil; naive_solver|].
  rewrite elem_of_cons, elem_of_app, <- IHf, <- IHg. destruct (String.eqb_spec id i) as [->|]; [naive_solver|].
  destruct (is_pane (findPane i f)) eqn:Hf; intuition congruence.
Qed.

Lemma removeSessionNode_kept s p : snd (removeSessionNode s p) = false -> removeSessionNode s p = (p, false) /\ s ∉ sessions p.
Proof.
  induction p as [|id s' n d f IHf g IHg]; [by split; [|apply not_elem_of_nil]|]. destruct s' as [s'|]; cbn.
  - case_bool_decide; [done|]. intros _. split; [done|]. rewrite list_elem_of_singleton. naive_solver.
  - destruct (removeSessionNode s f) as [f' [|]] eqn:Hf; cbn in *; [repeat case_goal; done|].
    destruct (removeSessionNode s g) as [g' [|]] eqn:Hg; cbn in *; [repeat case_goal; done|].
    intros _. destruct IHf as [[= ->] ?], IHg as [[= ->] ?]; try done. split; [done|]. by rewrite not_elem_of_app.
Qed.

(** A removed session leaves the rest of the tree as it was. *)
Record removed_from s p q : Prop := mkRemoved {
  rf_sessions : sessions p ≡ₚ s :: sessions q;
  rf_ids : pane_ids q ⊆+ pane_ids p;
  rf_shaped : q = NoPane \/ shaped q;
  rf_notes : countNotePanes p = 0 -> countNotePanes q = 0 }.

Lemma removeSessionNode_removed s p q : shaped p -> removeSessionNode s p = (q, true) -> removed_from s p q.
Proof.
  revert q. induction p as [|id s' n d f IHf g IHg]; intros q H; [done|]. shape_cases H; cbn; [case_bool_decide; [|done]|done|].
  - intros [= <-]. subst. split; cbn; auto. apply submseteq_nil_l.
  - destruct (removeSessionNode s f) as [f' [|]] eqn:Hf; cbn.
    + destruct (IHf f' ltac:(done) eq_refl) as [Hs Hi Hsh Hn]. rewrite (shaped_pane g) by done. cbn.
      destruct Hsh as [->|Hsh]; cbn; [|rewrite (shaped_pane f') by done; cbn]; intros [= <-]; split; cbn; auto; try (intros; lia).
      * by rewrite Hs.
      * apply submseteq_cons. by apply submseteq_inserts_l.
      * by rewrite Hs.
      * by apply submseteq_skip, submseteq_app.
    + destruct (removeSessionNode s g) as [g' [|]] eqn:Hg; cbn; [|done].
      destruct (removeSessionNode_kept s f) as [Hk _]; [by rewrite Hf|]. rewrite Hf in Hk. injection Hk as ->.
      destruct (IHg g' ltac:(done) eq_refl) as [Hs Hi Hsh Hn]. rewrite (shaped_pane f) by done. cbn.
      destruct Hsh as [->|Hsh]; cbn; [|rewrite (shaped_pane g') by done; cbn]; intros [= <-]; split; cbn; auto; try (intros; lia).
      * by rewrite Hs, Permutation_app_comm.
      * apply submseteq_cons. by apply submseteq_inserts_r.
      * by rewrite Hs, Permutation_middle.
      * by apply submseteq_skip, submseteq_app.
Qed.

(** The tree after [Place] split the session pane [i]. *)
Record split_into (two one : string) s p q : Prop := mkSplitInto {
  si_sessions : sessions q ≡ₚ s :: sessions p;
  si_ids : pane_ids q ≡ₚ two :: one :: pane_ids p;
  si_shaped : shaped q;
  si_notes : countNotePanes q = countNotePanes p;
  si_undo : s ∉ sessions p -> removeSessionNode s q = (p, true) }.

Lemma leaf_not_removed s s0 f g id n d : s <> s0 -> removeSessionNode s (mkPane id (Some s0) n d f g) = (mkPane id (Some s0) n d f g, false).
Proof. intros. cbn. by rewrite bool_decide_eq_false_2. Qed.

Lemma not_removed s p : shaped p -> s ∉ sessions p -> removeSessionNode s p = (p, false).
Proof.
  intros Hp Hs. destruct (removeSessionNode s p) as [q [|]] eqn:Hq.
  - apply removeSessionNode_removed in Hq as [Hperm _ _ _]; [|done]. destruct Hs. rewrite Hperm. by left.
  - destruct (removeSessionNode_kept s p) as [H _]; [by rewrite Hq|]. by rewrite Hq in H.
Qed.

Lemma set_pane_split (two one i d : string) s s0 p : shaped p -> d = SplitHorizontal \/ d = SplitVertical ->
  pane_Session (findPane i p) = Some s0 -> split_into two one s p (set_pane i (split_pane two one s d) p).
Proof.
  intros Hp Hd. induction p as [|id s' n d' f IHf g IHg]; [done|]. cbn [findPane set_pane].
  destruct (String.eqb_spec id i) as [->|Hid].
  - cbn [pane_Session]. intros ->. cbn in Hp. destruct Hp as (-> & -> & -> & ->). split; cbn; auto.
    + apply perm_swap.
    + apply perm_skip, perm_swap.
    + by split_and!.
    + intros Hs. rewrite bool_decide_eq_false_2 by (intros ->; apply Hs; by left). cbn. by rewrite bool_decide_eq_true_2.
  - shape_cases Hp; [done|done|]. destruct (is_pane (findPane i f)) eqn:Hfi; intros Hs0.
    + destruct (IHf ltac:(done) Hs0) as [Hs Hi Hsh Hn Hu]. split; cbn; auto.
      * by rewrite Hs.
      * rewrite Hi. cbn. rewrite (perm_swap two id). apply perm_skip, perm_swap.
      * rewrite not_elem_of_app. intros [Hsf Hsg]. rewrite Hu by done. cbn. rewrite (shaped_pane f), (shaped_pane g) by done. done.
    + destruct (IHg ltac:(done) Hs0) as [Hs Hi Hsh Hn Hu]. split; cbn; auto.
      * by rewrite Hs, <- Permutation_middle.
      * rewrite Hi, <- !Permutation_middle. rewrite (perm_swap two id). apply perm_skip, perm_swap.
      * rewrite not_elem_of_app. intros [Hsf Hsg]. rewrite (not_removed s f) by done. rewrite Hu by done. cbn.
        rewrite (shaped_pane f), (shaped_pane g) by done. done.
Qed.

(** ** Tabs *)

Definition tabs_sessions (tabs : list TerminalTab) : list SessionIdentity := List.flat_map (fun t => sessions (tab_Root t)) tabs.
Definition tabs_notes (tabs : list TerminalTab) : nat := list_sum (map (fun t => countNotePanes (tab_Root t)) tabs).

Lemma remove_from_tabs_kept s tabs : snd (remove_from_tabs s tabs) = false -> fst (remove_from_tabs s tabs) = tabs /\ s ∉ tabs_sessions tabs.
Proof.
  unfold tabs_sessions. induction tabs as [|t rest IH]; cbn; [intros _; split; [done|apply not_elem_of_nil]|].
  destruct (removeSessionNode s (tab_Root t)) as [root [|]] eqn:Hr; [done|].
  destruct (remove_from_tabs s rest) as [rest' b]. cbn in *. intros Hb. destruct (IH Hb) as [-> ?].
  destruct (removeSessionNode_kept s (tab_Root t)) as [_ ?]; [by rewrite Hr|]. split; [done|]. by apply not_elem_of_app.
Qed.

(** Tabs after an operation on them: which sessions and identifiers they hold. *)
Record tabs_after (F : list string) (tabs tabs' : list TerminalTab) : Prop := mkTabsAfter {
  ta_ids : map tab_ID tabs' ⊆+ F ++ map tab_ID tabs;
  ta_panes : List.flat_map tab_panes tabs' ⊆+ F ++ List.flat_map tab_panes tabs;
  ta_ok : Forall tab_ok tabs' }.

Lemma no_notes t s : tab_ok t -> s ∈ sessions (tab_Root t) -> countNotePanes (tab_Root t) = 0.
Proof.
  intros [_ Hsh Hn] Hs. destruct (Nat.eq_dec (countNotePanes (tab_Root t)) 0) as [|Hc]; [done|]. exfalso.
  assert (Hnote : pane_Note (tab_Root t) = true) by (apply Hn; lia). destruct (tab_Root t) as [|id so n d f g]; [done|].
  shape_cases Hsh; [done| |done]. by apply elem_of_nil in Hs.
Qed.

Lemma remove_from_tabs_removed s tabs : Forall tab_ok tabs -> snd (remove_from_tabs s tabs) = true ->
  tabs_after [] tabs (fst (remove_from_tabs s tabs))
  /\ tabs_sessions tabs ≡ₚ s :: tabs_sessions (fst (remove_from_tabs s tabs))
  /\ tabs_notes (fst (remove_from_tabs s tabs)) = tabs_notes tabs.
Proof.
  unfold tabs_sessions, tabs_notes. induction tabs as [|t rest IH]; cbn; [done|]. intros [Ht Hrest]%Forall_cons.
  destruct (removeSessionNode s (tab_Root t)) as [root [|]] eqn:Hr.
  - intros _. apply removeSessionNode_removed in Hr as [Hs Hi Hsh Hn]; [|by apply Ht].
    assert (H0 : countNotePanes (tab_Root t) = 0) by (apply (no_notes t s Ht); rewrite Hs; by left). specialize (Hn H0).
    destruct Hsh as [->|Hsh]; cbn.
    + split; [split; cbn; auto|].
      * by apply submseteq_cons.
      * by apply submseteq_inserts_l.
      * split; [by rewrite Hs|]. by rewrite H0.
    + rewrite (shaped_pane root Hsh). cbn. split; [split; cbn; auto|].
      * by apply submseteq_app.
      * constructor; [|done]. split; cbn; [apply Ht|done|]. intros; lia.
      * split; [by rewrite Hs|]. by rewrite H0, Hn.
  - destruct (remove_from_tabs s rest) as [rest' b]. cbn in *. intros Hb. destruct (IH Hrest Hb) as ([H1 H2 H3] & H4 & H5).
    cbn in *. split; [split; cbn; auto|split].
    + by apply submseteq_skip.
    + by apply submseteq_app.
    + by rewrite H4, Permutation_middle.
    + by rewrite H5.
Qed.

Lemma split_tabs_spec (two one i d : string) s s0 pr :
  Forall tab_ok (pr_Tabs pr) -> d = SplitHorizontal \/ d = SplitVertical ->
  pane_Session (split_target i pr) = Some s0 ->
  let tabs' := pr_Tabs (split_tabs i (split_pane two one s d) pr) in
  tabs_after [two; one] (pr_Tabs pr) tabs' /\ tabs_sessions tabs' ≡ₚ s :: tabs_sessions (pr_Tabs pr)
  /\ tabs_notes tabs' = tabs_notes (pr_Tabs pr)
  /\ (s ∉ tabs_sessions (pr_Tabs pr) -> remove_from_tabs s tabs' = (pr_Tabs pr, true)).
Proof.
  intros Hok Hd. unfold split_target, split_tabs. cbn [pr_Tabs set_tabs]. unfold tabs_sessions, tabs_notes.
  destruct (List.find _ (pr_Tabs pr)) as [t|] eqn:Hf; [|done]. intros Hs0.
  destruct (update_first_split _ (fun t => set_root (set_pane i (split_pane two one s d) (tab_Root t)) t) _ _ Hf)
    as (l1 & l2 & Htabs & Hin & -> & _). rewrite Htabs in *. clear Hf. apply Forall_app in Hok as [H1 [Ht H2]%Forall_cons].
  destruct (set_pane_split two one i d s s0 (tab_Root t) (to_shaped _ Ht) Hd Hs0) as [Ss Si Ssh Sn Su].
  rewrite !map_app, !flat_map_app. cbn [map List.flat_map set_root tab_ID tab_Root]. split; [split|split; [|split]].
  - rewrite !map_app. cbn. by apply submseteq_cons, submseteq_cons.
  - rewrite !flat_map_app. cbn. unfold tab_panes at 2. cbn. rewrite Si. cbn. rewrite <- !Permutation_middle. done.
  - apply Forall_app. split; [done|]. constructor; [|done]. split; cbn; [apply Ht|done|]. rewrite Sn.
    intros Hn. exfalso. assert (Hp : pane_Note (tab_Root t) = true) by (apply Ht; lia).
    destruct (tab_Root t) as [|id so n d' f g] eqn:Hroot; [done|].
    pose proof (to_shaped _ Ht) as Hsh. rewrite Hroot in Hsh. shape_cases Hsh; [done| |done]. cbn in Hs0. by destruct (_ ==s _).
  - rewrite Ss. cbn. by rewrite <- Permutation_middle.
  - by rewrite Sn.
  - cbn. rewrite !not_elem_of_app. intros (Hs1 & Hs2 & Hs3).
    clear - H1 Hs1 Su Hs2 Ht. induction l1 as [|u l1 IH]; cbn in *.
    + rewrite Su by done. rewrite (shaped_pane _ (to_shaped _ Ht)). by destruct t.
    + apply Forall_cons in H1 as [Hu H1]. apply not_elem_of_app in Hs1 as [Hsu Hs1].
      rewrite (not_removed s (tab_Root u)) by (done || apply Hu). by rewrite IH.
Qed.

(** ** One project changed *)

Lemma Project_update (l : ProjectLayout) id id' h : (forall pr, pr_ID (h pr) = pr_ID pr) ->
  Project (update_project id h l) id' = if id' ==s id then h <$> Project l id else Project l id'.
Proof.
  intros Hh. unfold Project, update_project. cbn. induction (Projects l) as [|q ps IH]; cbn; [by destruct (_ ==s _)|].
  destruct (String.eqb_spec (pr_ID q) id) as [He|Hne]; cbn; [rewrite Hh|].
  - subst id. destruct (String.eqb_spec id' (pr_ID q)) as [->|Hn]; [by rewrite String.eqb_refl|].
    destruct (String.eqb_spec (pr_ID q) id'); [congruence|done].
  - rewrite IH. destruct (String.eqb_spec (pr_ID q) id') as [<-|]; [|done]. by rewrite (proj2 (String.eqb_neq _ _)).
Qed.

Definition all_ids (l : ProjectLayout) : list string :=
  map pr_ID (Projects l) ++ List.flat_map project_tabs (Projects l) ++ List.flat_map project_panes (Projects l).

(** New identifiers: distinct, canonical and not in use. *)
Definition new_ids (F : list string) (l : ProjectLayout) : Prop := NoDup F /\ forall i, i ∈ F -> canonical i /\ i ∉ all_ids l.

Lemma new_submseteq (a b F : list string) : a ⊆+ F ++ b -> NoDup F -> NoDup b -> (forall i, i ∈ F -> i ∉ b) -> NoDup a.
Proof. intros H HF Hb Hd. eapply submseteq_NoDup; [done|]. by apply NoDup_app. Qed.

Record project_after (F : list string) (pr pr' : LocalProject) : Prop := mkAfter {
  pa_id : pr_ID pr' = pr_ID pr;
  pa_tabs : project_tabs pr' ⊆+ F ++ project_tabs pr;
  pa_panes : project_panes pr' ⊆+ F ++ project_panes pr;
  pa_ok : project_ok pr' }.

Lemma sound_update (l : ProjectLayout) id pr F h :
  sound_projects (Projects l) -> Project l id = Some pr -> project_after F pr (h pr) -> new_ids F l ->
  sound_projects (Projects (update_project id h l)).
Proof.
  intros [S1 S2 S3 S4 S5 S6 S7] Hpr [Hid Ht Hp Hok] [HF Hnew].
  destruct (update_first_split _ h _ _ Hpr) as (l1 & l2 & Hl & Hi & Hu & _). unfold update_project. cbn. rewrite Hu.
  assert (Hnt : forall i, i ∈ F -> i ∉ List.flat_map project_tabs (Projects l)) by (intros i Hi'; apply Hnew in Hi'; unfold all_ids in Hi'; set_solver).
  assert (Hnp : forall i, i ∈ F -> i ∉ List.flat_map project_panes (Projects l)) by (intros i Hi'; apply Hnew in Hi'; unfold all_ids in Hi'; set_solver).
  assert (Htabs : List.flat_map project_tabs (l1 ++ h pr :: l2) ⊆+ F ++ List.flat_map project_tabs (Projects l)) by (rewrite Hl; by apply flat_map_replace).
  assert (Hpanes : List.flat_map project_panes (l1 ++ h pr :: l2) ⊆+ F ++ List.flat_map project_panes (Projects l)) by (rewrite Hl; by apply flat_map_replace).
  split.
  - rewrite map_app. cbn. rewrite Hid. rewrite Hl, map_app in S1. done.
  - intros q [Hq|[->|Hq]%elem_of_cons]%elem_of_app; [apply S2; rewrite Hl; set_solver| |apply S2; rewrite Hl; set_solver].
    rewrite Hid. apply S2. rewrite Hl. set_solver.
  - by apply (new_submseteq _ _ _ Htabs).
  - intros i Hin. eapply elem_of_submseteq in Hin; [|exact Htabs]. apply elem_of_app in Hin as [Hin|Hin]; [by apply Hnew|by apply S4].
  - by apply (new_submseteq _ _ _ Hpanes).
  - intros i Hin. eapply elem_of_submseteq in Hin; [|exact Hpanes]. apply elem_of_app in Hin as [Hin|Hin]; [by apply Hnew|by apply S6].
  - rewrite Hl in S7. apply Forall_app in S7 as [? [? ?]%Forall_cons]. apply Forall_app. split; [done|]. by constructor.
Qed.

Lemma update_ids (l : ProjectLayout) id pr F h :
  Project l id = Some pr -> project_after F pr (h pr) -> forall i, i ∈ all_ids (update_project id h l) -> i ∈ F \/ i ∈ all_ids l.
Proof.
  intros Hpr [Hid Ht Hp Hok]. destruct (update_first_split _ h _ _ Hpr) as (l1 & l2 & Hl & Hi & Hu & _).
  unfold all_ids, update_project. cbn. rewrite Hu, Hl, !map_app, !flat_map_app. cbn. rewrite Hid. intros i Hin.
  assert (H1 : i ∈ project_tabs (h pr) -> i ∈ F \/ i ∈ project_tabs pr).
  { intros H. eapply elem_of_submseteq in H; [|exact Ht]. by apply elem_of_app. }
  assert (H2 : i ∈ project_panes (h pr) -> i ∈ F \/ i ∈ project_panes pr).
  { intros H. eapply elem_of_submseteq in H; [|exact Hp]. by apply elem_of_app. }
  clear - Hin H1 H2. rewrite !elem_of_app, !elem_of_cons, ?elem_of_app in *. tauto.
Qed.

Lemma update_first_head (l : ProjectLayout) id pr h :
  Project l id = Some pr -> pr_ID (h pr) = pr_ID pr ->
  (exists x ps, Projects l = x :: ps /\ pr_ID x = DefaultProjectID) ->
  exists x ps, Projects (update_project id h l) = x :: ps /\ pr_ID x = DefaultProjectID.
Proof.
  intros Hpr Hid (q & ps & Hl & Hq). destruct (update_first_split _ h _ _ Hpr) as (l1 & l2 & Hl' & _ & Hu & _).
  unfold update_project. cbn. rewrite Hu. rewrite Hl in Hl'. destruct l1 as [|a l1]; cbn in *; simplify_eq; [|eauto].
  eexists _, _. split; [done|congruence].
Qed.

(** ** Identifiers drawn *)

(** The first [limit] texts of [uuid.NewString] are canonical and distinct, and
    [default] is not a UUID. *)
Record uuids_good (limit : nat) : Prop := mkUuids {
  ug_canonical : forall i, i < limit -> canonical (NewString i);
  ug_distinct : forall i j, i < limit -> j < limit -> NewString i = NewString j -> i = j;
  ug_default : uuid_Parse DefaultProjectID = None }.

Context (limit : nat) (Huu : uuids_good limit).
Context (Hcf : forall r, (32 <= r < 127)%N -> u_Cf r = false).
Implicit Types (w : desk).

(** The two names the code gives are valid: ASCII holds no format characters. *)
Lemma ascii_name (name : string) :
  (name ==s TrimSpace name) && ValidString name
  && forallb (fun r => (32 <=? r)%N && (r <? 127)%N) (runes name)
  && (1 <=? length (runes name))%nat && (length (runes name) <=? maxGroupNameRunes)%nat = true ->
  validateCustomGroupName name = true.
Proof.
  unfold validateCustomGroupName. rewrite !andb_true_iff. intros ((((H1 & H2) & H3) & H4) & H5). split_and!; auto.
  apply negb_true_iff. rewrite forallb_forall in H3. apply not_true_iff_false. rewrite existsb_exists. intros (r & Hr & Hb).
  specialize (H3 r Hr). bool_to_prop. destruct Hb as [Hb|Hb]; [|rewrite Hcf in Hb; [done|lia]].
  unfold IsControl, in_range in Hb. bool_to_prop. destruct Hb as [Hb|Hb]; bool_to_prop; lia.
Qed.

Lemma notes_name : validateCustomGroupName "Notes" = true.
Proof. by apply ascii_name. Qed.

Lemma default_name : validateCustomGroupName "Default Project" = true.
Proof. by apply ascii_name. Qed.


Definition unused w : Prop := forall i, issued w <= i -> i < limit -> NewString i ∉ all_ids (layout w).

Record core w : Prop := mkCore {
  co_first : exists pr ps, Projects (layout w) = pr :: ps /\ pr_ID pr = DefaultProjectID;
  co_sound : sound_projects (Projects (layout w));
  co_unused : unused w }.

Lemma core_new w : core w -> S (S (issued w)) <= limit -> new_ids [NewString (issued w); NewString (S (issued w))] (layout w).
Proof.
  intros [_ _ Hu] Hl. split.
  - apply NoDup_cons. split; [|apply NoDup_singleton]. intros H%list_elem_of_singleton. apply ug_distinct with (limit:=limit) in H; [lia|done|lia..].
  - intros i [->|[->|?%elem_of_nil]%elem_of_cons]%elem_of_cons; [split; [apply ug_canonical with (limit:=limit); [done|lia]|apply Hu; lia]..|done].
Qed.

Lemma new_ids_swap a b (l : ProjectLayout) : new_ids [a; b] l -> new_ids [b; a] l.
Proof. intros [Hn Hi]. split; [by rewrite perm_swap|]. intros i H. apply Hi. set_solver. Qed.

Lemma new_ids_nil (l : ProjectLayout) : new_ids [] l.
Proof. split; [apply NoDup_nil_2|by intros ? ?%elem_of_nil]. Qed.

(** A project changed with the identifiers drawn for it. *)
Lemma core_update w id pr F h n : core w -> Project (layout w) id = Some pr -> project_after F pr (h pr) -> new_ids F (layout w) ->
  issued w <= n -> (forall i, i ∈ F -> exists k, issued w <= k < n /\ i = NewString k) ->
  core (mkDesk n (update_project id h (layout w))).
Proof.
  intros [Hf Hs Hu] Hpr Ha HF Hn Hdrawn. split; cbn.
  - by apply (update_first_head _ _ pr); [|apply Ha|].
  - by apply (sound_update _ _ pr F).
  - intros i Hi Hil Hin. cbn in *. apply (update_ids _ _ pr F h Hpr Ha) in Hin as [Hin|Hin]; [|by apply (Hu i); [lia|..]].
    destruct (Hdrawn _ Hin) as (k & Hk & He). apply ug_distinct with (limit:=limit) in He; [lia|done|lia..].
Qed.

Lemma drawn_two w a b : a = NewString (issued w) -> b = NewString (S (issued w)) ->
  forall i, i ∈ [a; b] -> exists k, issued w <= k < S (S (issued w)) /\ i = NewString k.
Proof. intros -> -> i [->|[->|?%elem_of_nil]%elem_of_cons]%elem_of_cons; [eexists; split; [|done]; lia..|done]. Qed.

Lemma project_after_tabs F pr tabs' : project_ok pr -> tabs_after F (pr_Tabs pr) tabs' ->
  NoDup (tabs_sessions tabs') -> (forall s, s ∈ tabs_sessions tabs' -> good_session s) -> tabs_notes tabs' <= 1 ->
  project_after F pr (set_tabs tabs' pr).
Proof. intros [N1 N2 N3 N4 N5 N6] [A1 A2 A3] Hn Hg Hc. by split. Qed.

(** ** The two primitive changes of the views *)

Lemma hasSession_in pr s : project_ok pr -> hasSession s pr = true <-> s ∈ project_sessions pr.
Proof.
  intros Hok. pose proof (jo_tabs _ Hok) as Ht. unfold hasSession, project_sessions. rewrite list_elem_of_In, in_flat_map, existsb_exists.
  split; intros (t & Hin & Hs); exists t; (split; [done|]); rewrite <- ?list_elem_of_In in *.
  - apply findSession_in; [|done]. eapply Forall_forall in Ht; [|done]. apply Ht.
  - apply findSession_in; [|done]. eapply Forall_forall in Ht; [|done]. apply Ht.
Qed.

Lemma remove_view w id s : core w ->
  core (mkDesk (issued w) (fst (removeSessionFromProject id s (layout w))))
  /\ (snd (removeSessionFromProject id s (layout w)) = true <-> in_project (layout w) id s)
  /\ (forall id' s', in_project (fst (removeSessionFromProject id s (layout w))) id' s' <->
       in_project (layout w) id' s' /\ ~ (id' = id /\ s' = s))
  /\ SuppressedDefaultSessions (fst (removeSessionFromProject id s (layout w))) = SuppressedDefaultSessions (layout w).
Proof.
  intros Hw. unfold removeSessionFromProject. destruct (Project (layout w) id) as [pr|] eqn:Hpr; cbn [fst snd].
  2:{ split_and!; auto; [by destruct w|split; [done|intros (? & ? & _); congruence]|].
      intros id' s'. split; [|tauto]. intros Hin. split; [done|]. intros [-> ->]. destruct Hin as (? & ? & _). congruence. }
  pose proof (Project_ok _ _ _ (co_sound _ Hw) Hpr) as Hok.
  set (tabs' := fst (remove_from_tabs s (pr_Tabs pr))).
  assert (Hcase : (snd (remove_from_tabs s (pr_Tabs pr)) = false /\ tabs' = pr_Tabs pr /\ s ∉ project_sessions pr)
    \/ (snd (remove_from_tabs s (pr_Tabs pr)) = true /\ tabs_after [] (pr_Tabs pr) tabs'
        /\ project_sessions pr ≡ₚ s :: tabs_sessions tabs' /\ tabs_notes tabs' = project_notes pr)).
  { destruct (snd (remove_from_tabs s (pr_Tabs pr))) eqn:Hr.
    - right. destruct (remove_from_tabs_removed s _ (jo_tabs _ Hok) Hr) as (? & ? & ?). done.
    - left. destruct (remove_from_tabs_kept s _ Hr). done. }
  assert (Hafter : project_after [] pr (set_tabs tabs' pr)).
  { destruct Hcase as [(_ & -> & _)|(_ & Ha & Hs & Hn)].
    - destruct pr. by split.
    - apply project_after_tabs; auto.
      + eapply submseteq_NoDup; [|apply Hok]. rewrite Hs. by apply submseteq_cons.
      + intros s' Hs'. apply (jo_good _ Hok). rewrite Hs. by right.
      + rewrite Hn. apply Hok. }
  assert (Hmem : forall s', s' ∈ project_sessions (set_tabs tabs' pr) <-> s' ∈ project_sessions pr /\ s' <> s).
  { intros s'. unfold project_sessions at 1. cbn [pr_Tabs set_tabs]. destruct Hcase as [(_ & -> & Hs)|(_ & _ & Hs & _)].
    - split; [intros H; split; [done|by intros ->]|tauto].
    - pose proof (jo_sessions _ Hok) as Hnd. rewrite Hs in Hnd. apply NoDup_cons in Hnd as [Hni _]. rewrite Hs, elem_of_cons. fold (tabs_sessions tabs').
      split; [intros H; split; [by right|by intros ->]|tauto]. }
  split_and!.
  - apply (core_update w id pr []); auto using new_ids_nil. by intros ? ?%elem_of_nil.
  - split; [intros Hr; exists pr; split; [done|]; destruct Hcase as [(? & _)|(_ & _ & Hs & _)]; [congruence|rewrite Hs; by left]|].
    intros (pr' & Hpr' & Hs). simplify_eq. by destruct Hcase as [(_ & _ & ?)|(? & _)].
  - intros id' s'. unfold in_project. rewrite Project_update by done. destruct (String.eqb_spec id' id) as [->|Hne].
    + rewrite Hpr. cbn. split.
      * intros (? & [= <-] & [Hs Hne]%Hmem). split; [eauto|]. by intros [_ ->].
      * intros ((? & [= <-] & Hs) & Hne). eexists. split; [done|]. apply Hmem. split; [done|]. intros ->. by apply Hne.
    + split; [|tauto]. intros H. split; [done|]. by intros [-> _].
  - done.
Qed.

Lemma add_view w id pr s a b h : core w -> Project (layout w) id = Some pr ->
  (forall q : LocalProject, pr_ID (h q) = pr_ID q) ->
  a = NewString (issued w) \/ a = NewString (S (issued w)) -> b = NewString (issued w) \/ b = NewString (S (issued w)) -> a <> b ->
  (project_after [a; b] pr (h pr)) -> project_sessions (h pr) ≡ₚ s :: project_sessions pr -> S (S (issued w)) <= limit ->
  let w' := mkDesk (S (S (issued w))) (update_project id h (layout w)) in
  core w' /\ forall id' s', in_project (layout w') id' s' <-> in_project (layout w) id' s' \/ (id' = id /\ s' = s).
Proof.
  intros Hw Hpr Hh Ha Hb Hab Hafter Hs Hlim. split.
  - apply (core_update w id pr [a; b]); auto.
    + pose proof (core_new w Hw Hlim) as Hnew. destruct Ha, Hb; subst; try done. by apply new_ids_swap.
    + intros i [->|[->|?%elem_of_nil]%elem_of_cons]%elem_of_cons; [destruct Ha as [-> | ->]|destruct Hb as [-> | ->]|done];
        eexists; (split; [|done]); lia.
  - intros id' s'. cbn. unfold in_project. rewrite Project_update by done. destruct (String.eqb_spec id' id) as [->|Hne]; [rewrite Hpr; cbn|naive_solver].
    split.
    + intros (? & [= <-] & Hin). rewrite Hs, elem_of_cons in Hin. destruct Hin as [->|Hin]; [by right|left; eauto].
    + intros [(? & [= <-] & Hin)|[_ ->]]; (eexists; split; [done|]); rewrite Hs; [by right|by left].
Qed.

Lemma fresh_two w : S (S (issued w)) <= limit -> NewString (issued w) <> NewString (S (issued w)).
Proof. intros H He. apply ug_distinct with (limit:=limit) in He; [lia|done|lia..]. Qed.

Lemma add_after F pr s tabs' : project_ok pr -> s ∉ project_sessions pr -> good_session s ->
  tabs_after F (pr_Tabs pr) tabs' -> tabs_sessions tabs' ≡ₚ s :: project_sessions pr -> tabs_notes tabs' = project_notes pr ->
  project_after F pr (set_tabs tabs' pr).
Proof.
  intros Hok Hs Hg Ha Hp Hn. apply project_after_tabs; auto.
  - rewrite Hp. apply NoDup_cons. split; [done|apply Hok].
  - intros s'. rewrite Hp. intros [->|Hin]%elem_of_cons; [done|by apply Hok].
  - rewrite Hn. apply Hok.
Qed.

Lemma addTab_after pr s leaf tab : project_ok pr -> s ∉ project_sessions pr -> good_session s ->
  project_after [leaf; tab] pr (addTab leaf tab s pr) /\ project_sessions (addTab leaf tab s pr) ≡ₚ s :: project_sessions pr.
Proof.
  intros Hok Hs Hg.
  assert (Hp : tabs_sessions (pr_Tabs pr ++ [mkTab tab "" (leaf_pane leaf s)]) ≡ₚ s :: project_sessions pr).
  { unfold tabs_sessions. rewrite flat_map_app. cbn. by rewrite Permutation_app_comm. }
  split; [|done]. apply (add_after _ _ s); auto.
  - split.
    + rewrite map_app. cbn. rewrite Permutation_app_comm. cbn. by apply submseteq_cons.
    + rewrite flat_map_app. cbn. rewrite Permutation_app_comm. cbn. apply submseteq_skip, submseteq_cons. done.
    + apply Forall_app. split; [apply Hok|]. repeat constructor; cbn; auto. lia.
  - unfold tabs_notes, project_notes. rewrite map_app, list_sum_app. cbn. lia.
Qed.

Lemma put_view_spec w pr s pl t w' pane : core w -> Project (layout w) (pr_ID pr) = Some pr ->
  s ∉ project_sessions pr -> good_session s -> put_view pr s pl t w = Ok (w', pane) ->
  issued w' = S (S (issued w)) /\ SuppressedDefaultSessions (layout w') = SuppressedDefaultSessions (layout w)
  /\ (issued w' <= limit -> core w' /\ forall id' s', in_project (layout w') id' s' <->
         in_project (layout w) id' s' \/ (id' = pr_ID pr /\ s' = s)).
Proof.
  intros Hw Hpr Hs Hg. unfold put_view. pose proof (Project_ok _ _ _ (co_sound _ Hw) Hpr) as Hok.
  destruct (pl ==s PlaceNewTab) eqn:Hpl.
  - intros [= <- <-]. cbn [issued layout]. split_and!; auto. intros Hlim. pose proof (fresh_two w Hlim).
    destruct (addTab_after pr s (NewString (issued w)) (NewString (S (issued w))) Hok Hs Hg).
    apply (add_view w (pr_ID pr) pr s (NewString (issued w)) (NewString (S (issued w)))); auto.
  - destruct (_ || _); [|done]. destruct (pane_Session (split_target t pr)) as [s0|] eqn:Ht; [|done].
    intros [= <- <-]. cbn [issued layout]. split_and!; auto. intros Hlim. pose proof (fresh_two w Hlim).
    set (d := if pl ==s PlaceHorizontal then SplitHorizontal else SplitVertical).
    destruct (split_tabs_spec (NewString (S (issued w))) (NewString (issued w)) t d s s0 pr (jo_tabs _ Hok)) as (Ha & Hp & Hn & _); auto.
    { unfold d. destruct (pl ==s PlaceHorizontal); [by left|by right]. }
    apply (add_view w (pr_ID pr) pr s (NewString (S (issued w))) (NewString (issued w))); auto.
    by apply (add_after _ _ s).
Qed.

(** ** Placing a view *)

Definition ok w : Prop := core w /\ disjoint_views (layout w).

Definition member (l : ProjectLayout) s : Prop := s ∈ SuppressedDefaultSessions l \/ exists id, in_project l id s.

Lemma ok_valid w : ok w -> valid_layout (layout w).
Proof. intros [[Hf Hs _] Hd]. by split. Qed.

Lemma remove_first_in s (ss : list SessionIdentity) : NoDup ss -> forall s', s' ∈ remove_first s ss <-> s' ∈ ss /\ s' <> s.
Proof.
  induction ss as [|a ss IH]; cbn; intros Hnd s'; [rewrite elem_of_nil; naive_solver|]. apply NoDup_cons in Hnd as [Ha Hnd].
  case_bool_decide as He; rewrite ?elem_of_cons; [subst|rewrite IH by done]; naive_solver.
Qed.

Lemma remove_first_NoDup s (ss : list SessionIdentity) : NoDup ss -> NoDup (remove_first s ss).
Proof.
  induction ss as [|a ss IH]; cbn; [done|]. intros [Ha Hnd]%NoDup_cons. case_bool_decide; [done|].
  apply NoDup_cons. split; [|by apply IH]. rewrite remove_first_in by done. tauto.
Qed.

Lemma classified_spec w s : core w ->
  existsb (fun pr => (pr_ID pr !=s DefaultProjectID) && hasSession s pr) (Projects (layout w)) = true <->
  exists id, id <> DefaultProjectID /\ in_project (layout w) id s.
Proof.
  intros [_ Hs _]. rewrite existsb_exists. setoid_rewrite <- list_elem_of_In. split.
  - intros (pr & Hin & Hb). bool_to_prop. exists (pr_ID pr). split; [done|]. exists pr. rewrite Project_of by (apply Hs || done).
    split; [done|]. apply hasSession_in; [|done]. by eapply Forall_forall in Hin; [|apply Hs].
  - intros (id & Hne & pr & Hpr & Hin). exists pr. pose proof (Project_some _ _ _ Hpr) as [? <-]. split; [done|].
    rewrite andb_true_iff. split; [by apply negb_true_iff, String.eqb_neq|]. apply hasSession_in; [|done]. by eapply Project_ok.
Qed.

Lemma identity_good s : is_Ok (identity_validate s) = true -> good_session s.
Proof. unfold good_session. by destruct (identity_validate s) as [[]|]. Qed.

Lemma core_layout w l : core w -> Projects l = Projects (layout w) -> core (mkDesk (issued w) l).
Proof.
  intros [H1 H2 H3] Hl. split; cbn; rewrite ?Hl; auto. unfold unused, all_ids in *. cbn. by rewrite Hl.
Qed.

Lemma in_project_same l l' id s : Projects l = Projects l' -> in_project l id s <-> in_project l' id s.
Proof. unfold in_project, Project. by intros ->. Qed.

(** What [Place] leaves: the new view, no view in the built-in project beside a
    custom one, and no suppression. *)
Lemma Place_spec w id s pl t w' pane : ok w -> Place id s pl t w = (w', Ok pane) -> issued w' <= limit ->
  ok w' /\ good_session s /\ ~ in_project (layout w) id s
  /\ (forall id' s', in_project (layout w') id' s' <->
        (in_project (layout w) id' s' \/ (id' = id /\ s' = s)) /\ ~ (id <> DefaultProjectID /\ id' = DefaultProjectID /\ s' = s))
  /\ (forall s', s' ∈ SuppressedDefaultSessions (layout w') <-> s' ∈ SuppressedDefaultSessions (layout w) /\ s' <> s).
Proof.
  intros [Hw [V1 V2 V3 V4]] H Hlim. unfold Place in H. destruct (identity_validate s) as [[]|] eqn:Hg; [|done].
  destruct (Project (layout w) id) as [pr|] eqn:Hpr; [|done]. pose proof (Project_ok _ _ _ (co_sound _ Hw) Hpr) as Hok.
  destruct (hasSession s pr) eqn:Hhas; [done|].
  assert (Hs : s ∉ project_sessions pr) by (rewrite <- hasSession_in by done; congruence).
  destruct (_ && existsb _ _) eqn:Hclass; [done|]. destruct (put_view pr s pl t w) as [[w1 pane']|] eqn:Hput; [|done].
  pose proof (Project_some _ _ _ Hpr) as [_ Hid]. subst id.
  apply put_view_spec in Hput as (Hi & Hsup & Hcore); [|done..]. injection H as <- ->. cbn in Hlim.
  destruct (Hcore Hlim) as [Hc1 Hin1]. clear Hcore.
  assert (Hdef : exists l2, l2 = (if pr_ID pr !=s DefaultProjectID then fst (removeSessionFromProject DefaultProjectID s (layout w1)) else layout w1)
    /\ core (mkDesk (issued w1) l2) /\ SuppressedDefaultSessions l2 = SuppressedDefaultSessions (layout w)
    /\ forall id' s', in_project l2 id' s' <->
        (in_project (layout w) id' s' \/ (id' = pr_ID pr /\ s' = s)) /\ ~ (pr_ID pr <> DefaultProjectID /\ id' = DefaultProjectID /\ s' = s)).
  { eexists. split; [reflexivity|]. destruct (String.eqb_spec (pr_ID pr) DefaultProjectID) as [He|He]; cbn [negb].
    - split_and!; [by destruct w1|done|]. intros id' s'. rewrite Hin1. tauto.
    - destruct (remove_view w1 DefaultProjectID s Hc1) as (R1 & _ & R3 & R4). split_and!; [done|by rewrite R4|].
      intros id' s'. rewrite R3, Hin1. tauto. }
  destruct Hdef as (l2 & <- & Hc2 & Hsup2 & Hin2). cbn.
  assert (Hin3 : forall id' s', in_project (clearDefaultSuppression s l2) id' s' <-> in_project l2 id' s') by (intros; by apply in_project_same).
  assert (Hsup3 : forall s', s' ∈ SuppressedDefaultSessions (clearDefaultSuppression s l2) <-> s' ∈ SuppressedDefaultSessions (layout w) /\ s' <> s).
  { intros s'. cbn. rewrite Hsup2. by apply remove_first_in. }
  assert (Hnot : ~ in_project (layout w) (pr_ID pr) s) by (intros (pr' & ? & ?); congruence).
  split_and!; auto.
  - split; [by apply (core_layout (mkDesk (issued w1) l2))|]. cbn. split; auto.
    + intros s' id' Hne. rewrite !Hin3, !Hin2. intros [[Ha|[-> ->]] Hn] [[Hb|[Hb Hss]] Hn'].
      * by apply (V1 s' id').
      * subst s'. rewrite <- Hb, String.eqb_refl in Hclass. cbn in Hclass.
        assert (Hx : existsb (fun q : LocalProject => (pr_ID q !=s DefaultProjectID) && hasSession s q) (Projects (layout w)) = true)
          by (apply classified_spec; eauto). congruence.
      * by apply Hn'.
      * congruence.
    + cbn. rewrite Hsup2. by apply remove_first_NoDup.
    + intros s' [Hs' _]%Hsup3. by apply V3.
    + intros s' id' [Hs' Hne]%Hsup3. rewrite Hin3, Hin2. intros [[Hb|[_ ?]] _]; [by apply (V4 s' id')|done].
Qed.

(** ** The other changes *)

(** A change that keeps every view where it is. *)
Lemma ok_same w w' : ok w -> core w' -> SuppressedDefaultSessions (layout w') = SuppressedDefaultSessions (layout w) ->
  (forall id s, in_project (layout w') id s <-> in_project (layout w) id s) -> ok w' /\ forall s, member (layout w) s -> member (layout w') s.
Proof.
  intros [_ [V1 V2 V3 V4]] Hw Hs Hin. split; [split; [done|split]|].
  - intros s id. rewrite !Hin. apply V1.
  - by rewrite Hs.
  - rewrite Hs. apply V3.
  - intros s id. rewrite Hs, Hin. apply V4.
  - intros s. unfold member. rewrite Hs. setoid_rewrite Hin. done.
Qed.

Lemma ok_update w id pr F h n : ok w -> Project (layout w) id = Some pr -> (forall x : LocalProject, pr_ID (h x) = pr_ID x) ->
  project_after F pr (h pr) -> new_ids F (layout w) -> issued w <= n ->
  (forall i, i ∈ F -> exists k, issued w <= k < n /\ i = NewString k) -> project_sessions (h pr) ≡ₚ project_sessions pr ->
  let w' := mkDesk n (update_project id h (layout w)) in
  ok w' /\ forall s, member (layout w) s -> member (layout w') s.
Proof.
  intros Hw Hpr Hh Ha HF Hn Hd Hs w'. apply ok_same; auto.
  - by apply (core_update w id pr F); [apply Hw|..].
  - intros id' s. cbn. unfold in_project. rewrite Project_update by done. destruct (String.eqb_spec id' id) as [->|]; [|done].
    rewrite Hpr. cbn. split; intros (? & [= <-] & Hin); (eexists; split; [done|]); [by rewrite <- Hs|by rewrite Hs].
Qed.

Lemma map_update_first {A B} (k : A -> B) (test : A -> bool) (h : A -> A) (l : list A) :
  (forall a, k (h a) = k a) -> map k (update_first test h l) = map k l.
Proof. intros Hk. induction l as [|a l IH]; cbn; [done|]. destruct (test a); cbn; by rewrite ?Hk, ?IH. Qed.

Lemma flat_map_ext_map {A B C} (k : A -> B) (h : B -> list C) (l l' : list A) :
  map k l = map k l' -> List.flat_map (fun a => h (k a)) l = List.flat_map (fun a => h (k a)) l'.
Proof. revert l'. induction l as [|a l IH]; intros [|b l']; cbn; try done. intros [= -> H]. f_equal. by apply IH. Qed.

Lemma RenameTab_ok w id t name : ok w ->
  let w' := mkDesk (issued w) (fst (RenameTab id t name (layout w))) in ok w' /\ forall s, member (layout w) s -> member (layout w') s.
Proof.
  intros Hw. unfold RenameTab. destruct (_ && _) eqn:Hname; [by destruct w|].
  destruct (Project (layout w) id) as [pr|] eqn:Hpr; [|by destruct w]. destruct (existsb _ _); [|by destruct w]. cbn [fst].
  pose proof (Project_ok _ _ _ (co_sound _ (proj1 Hw)) Hpr) as Hok.
  set (tabs' := update_first (fun t0 => tab_ID t0 ==s t) (set_tab_name name) (pr_Tabs pr)).
  assert (Hids : map tab_ID tabs' = map tab_ID (pr_Tabs pr)) by by apply map_update_first.
  assert (Hroots : map tab_Root tabs' = map tab_Root (pr_Tabs pr)) by by apply map_update_first.
  assert (Hpanes : List.flat_map tab_panes tabs' = List.flat_map tab_panes (pr_Tabs pr)) by by apply (flat_map_ext_map tab_Root pane_ids).
  assert (Hsess : tabs_sessions tabs' = project_sessions pr) by by apply (flat_map_ext_map tab_Root sessions).
  assert (Hnotes : tabs_notes tabs' = project_notes pr).
  { unfold tabs_notes, project_notes. rewrite <- !(map_map tab_Root countNotePanes). by rewrite Hroots. }
  apply (ok_update w id pr []); auto using new_ids_nil; [|by intros ? ?%elem_of_nil|change (tabs_sessions tabs' ≡ₚ project_sessions pr); by rewrite Hsess].
  change (project_after [] pr (set_tabs tabs' pr)).
  apply project_after_tabs; auto; [|rewrite Hsess; apply Hok..|rewrite Hnotes; apply Hok].
  split; [by rewrite Hids|by rewrite Hpanes|]. pose proof (jo_tabs _ Hok) as Ht. subst tabs'. clear - Ht Hname.
  induction (pr_Tabs pr) as [|a l IH]; cbn; [done|]. apply Forall_cons in Ht as [Ha Hl].
  destruct (tab_ID a ==s t); constructor; auto. split; cbn; [|apply Ha..]. apply andb_false_iff in Hname as [Hn|Hn]; bool_to_prop; auto.
Qed.

Lemma RenameProject_ok w id name : ok w ->
  let w' := mkDesk (issued w) (fst (RenameProject id name (layout w))) in ok w' /\ forall s, member (layout w) s -> member (layout w') s.
Proof.
  intros Hw. unfold RenameProject. destruct (id ==s DefaultProjectID); [by destruct w|]. destruct (validateCustomGroupName name) eqn:Hn; [|by destruct w].
  destruct (Project (layout w) id) as [pr|] eqn:Hpr; [|by destruct w]. cbn [fst negb].
  pose proof (Project_ok _ _ _ (co_sound _ (proj1 Hw)) Hpr) as [N1 N2 N3 N4 N5 N6].
  apply (ok_update w id pr []); auto using new_ids_nil; [|by intros ? ?%elem_of_nil]. by repeat (split; try done).
Qed.

Lemma MoveTab_ok w id a b before : ok w ->
  let w' := mkDesk (issued w) (fst (MoveTab id a b before (layout w))) in ok w' /\ forall s, member (layout w) s -> member (layout w') s.
Proof.
  intros Hw. unfold MoveTab. destruct (Project (layout w) id) as [pr|] eqn:Hpr; [|by destruct w].
  destruct (last_index _ _ _) as [from|]; [|by destruct w]. destruct (last_index _ _ _) as [target|]; [|by destruct w].
  destruct (from =? target); [by destruct w|]. cbn [fst].
  pose proof (Project_ok _ _ _ (co_sound _ (proj1 Hw)) Hpr) as Hok.
  pose proof (reorder_perm 0 from target before (pr_Tabs pr)) as Hp.
  assert (Hs : tabs_sessions (reorder 0 from target before (pr_Tabs pr)) ≡ₚ project_sessions pr) by (by apply Permutation_flat_map).
  apply (ok_update w id pr []); auto using new_ids_nil; [|by intros ? ?%elem_of_nil].
  apply project_after_tabs; auto.
  - split; [by rewrite Hp|by apply flat_map_submseteq; rewrite Hp|]. rewrite Hp. apply Hok.
  - rewrite Hs. apply Hok.
  - intros s. rewrite Hs. apply Hok.
  - unfold tabs_notes. rewrite Hp. apply Hok.
Qed.

Lemma PlaceNote_ok w id : ok w -> issued (fst (PlaceNote id w)) <= limit ->
  ok (fst (PlaceNote id w)) /\ forall s, member (layout w) s -> member (layout (fst (PlaceNote id w))) s.
Proof.
  intros Hw. unfold PlaceNote. destruct (Project (layout w) id) as [pr|] eqn:Hpr; [|done].
  unfold NotePane. rewrite Hpr. destruct (List.find _ _) as [t|] eqn:Hf; cbn [fmap option_fmap option_map fst]; [done|]. intros Hlim. cbn [issued] in Hlim.
  pose proof (Project_ok _ _ _ (co_sound _ (proj1 Hw)) Hpr) as Hok.
  set (tab := mkTab _ _ _).
  assert (Hs : tabs_sessions (pr_Tabs pr ++ [tab]) = project_sessions pr) by (unfold tabs_sessions; rewrite flat_map_app; cbn; by rewrite !app_nil_r).
  assert (Hn : tabs_notes (pr_Tabs pr) = 0).
  { pose proof (jo_tabs _ Hok) as Ht. unfold tabs_notes. clear - Hf Ht. induction (pr_Tabs pr) as [|a l IH]; cbn in *; [done|].
    apply Forall_cons in Ht as [Ha Hl]. destruct (pane_Note (tab_Root a)) eqn:Hnote; [done|]. unfold list_sum in IH. rewrite IH by done.
    destruct (Nat.eq_dec (countNotePanes (tab_Root a)) 0); [lia|]. pose proof (to_notes _ Ha ltac:(lia)). congruence. }
  apply (ok_update w id pr [NewString (issued w); NewString (S (issued w))]); try assumption; try done; try lia.
  - apply project_after_tabs; auto; [|rewrite Hs; apply Hok..|].
    + split; [rewrite map_app; cbn; rewrite Permutation_app_comm; cbn; by apply submseteq_cons| |].
      * rewrite flat_map_app. cbn. rewrite Permutation_app_comm. cbn. by apply submseteq_skip, submseteq_cons.
      * apply Forall_app. split; [apply Hok|]. constructor; [|done]. split; [right; apply notes_name|by split_and!|done].
    + unfold tabs_notes in *. rewrite map_app, list_sum_app, Hn. done.
  - by apply core_new; [apply Hw|].
  - by apply drawn_two.
  - change (tabs_sessions (pr_Tabs pr ++ [tab]) ≡ₚ project_sessions pr). by rewrite Hs.
Qed.

End Panes.
