(* ===== verification/LayoutOps.v ===== *)
(** * Every operation on the project layout

    The invariant of [LayoutSafety] through every operation, sequences of operations
    from the layout of a fresh installation, and the theorems about the program:
    a layout is always one that [Validate] accepts, a session never drops out of the
    layout unless it is destroyed, moving a view succeeds, and destroying removes
    exactly one session. *)

From S2P Require Import Prelude GoStrings Session Layout LayoutSafety.
Local Open Scope go_scope.

Lemma find_snoc {A} (test : A -> bool) (xs : list A) (a : A) :
  List.find test (xs ++ [a]) = match List.find test xs with Some x => Some x | None => if test a then Some a else None end.
Proof. induction xs as [|x xs IH]; cbn; [done|]. by destruct (test x). Qed.

Section Ops.
Context `{UC : UnicodeCase} `{UF : UnicodeFormat} `{UU : UUIDs}.
Context (limit : nat) (Huu : uuids_good limit).
Context (Hcf : forall r, (32 <= r < 127)%N -> u_Cf r = false).
Implicit Types (w : desk) (s : SessionIdentity) (l : ProjectLayout).

Definition keeps w w' : Prop := ok limit w' /\ forall s, member (layout w) s -> member (layout w') s.

Lemma keeps_refl w : ok limit w -> keeps w w.
Proof. by split. Qed.

(** ** Projects added, moved and removed *)

Lemma Project_perm (ps ps' : list LocalProject) (id : string) : NoDup (map pr_ID ps) -> ps ≡ₚ ps' ->
  List.find (fun p => pr_ID p ==s id) ps = List.find (fun p => pr_ID p ==s id) ps'.
Proof.
  intros Hnd Hp. assert (Hnd' : NoDup (map pr_ID ps')) by (by rewrite <- Hp).
  pose proof (Project_of (mkLayout ps [])) as H1. pose proof (Project_of (mkLayout ps' [])) as H2. unfold Project in *. cbn in *.
  destruct (List.find _ ps) as [a|] eqn:Ha.
  - apply find_test in Ha as [Hin He%String.eqb_eq]. subst id. rewrite H2; [done|done|by rewrite <- Hp].
  - destruct (List.find _ ps') as [b|] eqn:Hb; [|done]. apply find_test in Hb as [Hin He%String.eqb_eq]. subst id.
    rewrite H1 in Ha; [done|done|by rewrite Hp].
Qed.

Lemma sound_sub (ps ps' : list LocalProject) : ps' ⊆+ ps -> sound_projects ps -> sound_projects ps'.
Proof.
  intros Hp [S1 S2 S3 S4 S5 S6 S7].
  assert (Hel : forall pr, pr ∈ ps' -> pr ∈ ps) by (intros pr H; by eapply elem_of_submseteq).
  assert (Hi : map pr_ID ps' ⊆+ map pr_ID ps) by (apply submseteq_Permutation in Hp as [r ->]; rewrite map_app; by apply submseteq_inserts_r).
  pose proof (flat_map_submseteq project_tabs _ _ Hp) as Ht. pose proof (flat_map_submseteq project_panes _ _ Hp) as Hpa.
  split.
  - by eapply submseteq_NoDup.
  - auto.
  - by eapply submseteq_NoDup.
  - intros i H. apply S4. by eapply elem_of_submseteq.
  - by eapply submseteq_NoDup.
  - intros i H. apply S6. by eapply elem_of_submseteq.
  - apply Forall_forall. intros pr H. eapply Forall_forall in S7; [done|auto].
Qed.

Lemma ids_sub (ps ps' : list LocalProject) l : ps' ⊆+ ps -> ps = Projects l ->
  forall i, i ∈ all_ids (mkLayout ps' (SuppressedDefaultSessions l)) -> i ∈ all_ids l.
Proof.
  intros Hp -> i. unfold all_ids. cbn. rewrite !elem_of_app. apply submseteq_Permutation in Hp as [r Hr].
  rewrite !list_elem_of_In. setoid_rewrite in_map_iff. rewrite !in_flat_map. setoid_rewrite <- list_elem_of_In. setoid_rewrite Hr.
  setoid_rewrite elem_of_app. naive_solver.
Qed.

Lemma reorder_first (from target : nat) (before : bool) (ps : list LocalProject) pr rest :
  ps = pr :: rest -> from <> 0 -> exists rest', reorder 1 from target before ps = pr :: rest'.
Proof.
  intros -> Hf. pose proof (reorder_head from target before pr rest Hf) as H. destruct (reorder _ _ _ _ _); cbn in H; simplify_eq. eauto.
Qed.

Lemma last_index_test {A} (test : A -> bool) (i j : nat) (xs : list A) :
  last_index test i xs = Some j -> exists k a, j = i + k /\ xs !! k = Some a /\ test a = true.
Proof.
  revert i. induction xs as [|x xs IH]; intros i; cbn; [done|]. destruct (last_index test (S i) xs) as [j'|] eqn:Hl.
  - intros [= <-]. destruct (IH _ Hl) as (k & a & -> & ? & ?). exists (S k), a. split_and!; auto.
  - destruct (test x) eqn:Hx; [|done]. intros [= <-]. exists 0, x. split_and!; auto.
Qed.

Lemma MoveProject_ok w id target before : ok limit w -> keeps w (mkDesk (issued w) (fst (MoveProject id target before (layout w)))).
Proof.
  intros Hw. unfold MoveProject. destruct (String.eqb_spec id DefaultProjectID) as [->|Hid]; [by destruct w; apply keeps_refl|].
  destruct (last_index _ 0 _) as [from|] eqn:Hfrom; [|by destruct w; apply keeps_refl].
  destruct (last_index (fun p => pr_ID p ==s target) 0 _) as [to|]; [|by destruct w; apply keeps_refl].
  destruct (from =? to); [by destruct w; apply keeps_refl|]. cbn [fst].
  destruct Hw as [[(pr & rest & Hf & Hpr) Hs Hu] Hv].
  pose proof (reorder_perm 1 from to before (Projects (layout w))) as Hp.
  assert (H0 : from <> 0).
  { intros ->. apply last_index_test in Hfrom as (k & a & Hk & Ha & Ht%String.eqb_eq). destruct k; [|done].
    rewrite Hf in Ha. cbn in Ha. simplify_eq. }
  destruct (reorder_first from to before _ _ _ Hf H0) as [rest' Hr].
  apply ok_same; [by split; [split; [eauto|..]|]| |done|].
  - split; cbn; [by rewrite Hr; eauto|apply (sound_sub (Projects (layout w))); [by rewrite Hp|done]|].
    intros i Hi Hl Hin. apply (Hu i Hi Hl). apply (ids_sub (Projects (layout w)) (reorder 1 from to before (Projects (layout w)))); [by rewrite Hp|done|exact Hin].
  - intros id' s. unfold in_project, Project. cbn. rewrite (Project_perm _ _ id' (so_ids _ Hs) (Permutation_sym Hp)). done.
Qed.

Lemma AddProject_ok w name : ok limit w -> issued (fst (AddProject name w)) <= limit -> keeps w (fst (AddProject name w)).
Proof.
  intros Hw. unfold AddProject. destruct (validateCustomGroupName name) eqn:Hn; [|intros _; by apply keeps_refl]. cbn [negb fst issued]. intros Hlim.
  pose proof Hw as [[(pr & rest & Hf & Hpr) [S1 S2 S3 S4 S5 S6 S7] Hu] Hv]. set (id := NewString (issued w)).
  assert (Hnew : id ∉ map pr_ID (Projects (layout w))).
  { intros H. apply (Hu (issued w)); [lia|lia|]. unfold all_ids. apply elem_of_app. by left. }
  assert (Hc : canonical id) by (eapply ug_canonical; [done|lia]).
  apply ok_same; [done| |done|].
  - split; cbn.
    + rewrite Hf. cbn. eauto.
    + split; rewrite ?map_app, ?flat_map_app; cbn; rewrite ?app_nil_r; auto.
      * apply NoDup_app. split_and!; [done| |apply NoDup_singleton]. by intros i Hi ->%list_elem_of_singleton.
      * intros q [Hq|Hq]%elem_of_app; [by apply S2|]. apply list_elem_of_singleton in Hq as ->. by right.
      * apply Forall_app. split; [done|]. constructor; [|done]. split; cbn; auto using NoDup_nil_2. by intros ? ?%elem_of_nil.
    + intros i Hi Hl. unfold all_ids. cbn in *. rewrite map_app, !flat_map_app. cbn. rewrite !app_nil_r. rewrite <- app_assoc.
      intros [Hin|[Hin|Hin]%elem_of_cons]%elem_of_app.
      * apply (Hu i); [lia|done|]. unfold all_ids. apply elem_of_app. by left.
      * subst id. eapply ug_distinct in Hin; [lia|done|lia..].
      * apply (Hu i); [lia|done|]. unfold all_ids. apply elem_of_app. by right.
  - intros id' s. unfold in_project, Project. cbn. rewrite find_snoc. destruct (List.find _ (Projects (layout w))) as [x|] eqn:Hx; [done|].
    cbn. destruct (_ ==s _); split; intros (? & ? & Hin); simplify_eq. by apply elem_of_nil in Hin.
Qed.

(** ** Views added to the built-in project *)

Lemma ensureDefault_issued s w : issued w <= issued (ensureDefault s w).
Proof. unfold ensureDefault. repeat case_goal; cbn; lia. Qed.

Lemma ensure_all_issued (ss : list SessionIdentity) w : issued w <= issued (fold_left (fun w s => ensureDefault s w) ss w).
Proof.
  revert w. induction ss as [|s ss IH]; intros w; cbn; [done|]. pose proof (IH (ensureDefault s w)). pose proof (ensureDefault_issued s w). lia.
Qed.

Record ensured s w w' : Prop := mkEnsured {
  en_ok : ok limit w';
  en_member : member (layout w') s;
  en_keep : forall id s', in_project (layout w) id s' -> in_project (layout w') id s';
  en_only : forall id s', in_project (layout w') id s' -> in_project (layout w) id s' \/ s' = s;
  en_suppressed : SuppressedDefaultSessions (layout w') = SuppressedDefaultSessions (layout w) }.

Lemma ensured_keeps s w w' : ensured s w w' -> keeps w w'.
Proof.
  intros [H1 H2 H3 H4 H5]. split; [done|]. intros s' [Hs|(id & Hin)]; [left; by rewrite H5|right; eauto].
Qed.

Lemma default_project w : core limit w -> exists pr, Project (layout w) DefaultProjectID = Some pr.
Proof. intros [(pr & rest & Hf & Hpr) _ _]. exists pr. unfold Project. rewrite Hf. cbn. by rewrite Hpr. Qed.

Lemma ensureDefault_spec s w : ok limit w -> good_session s -> issued (ensureDefault s w) <= limit -> ensured s w (ensureDefault s w).
Proof.
  intros Hw Hg. pose proof Hw as [Hc [V1 V2 V3 V4]]. unfold ensureDefault, defaultSuppressed.
  case_bool_decide as Hsup; [intros _; split; auto; by left|].
  destruct (existsb _ _) eqn:Hcl.
  { intros _. apply (classified_spec limit) in Hcl as (id & _ & Hin); [|done]. split; auto. right. eauto. }
  assert (Hncl : forall id, id <> DefaultProjectID -> ~ in_project (layout w) id s).
  { intros id Hne Hin. apply not_true_iff_false in Hcl. apply Hcl. apply (classified_spec limit); eauto. }
  destruct (default_project w Hc) as [pr Hpr]. rewrite Hpr. pose proof (Project_ok _ _ _ (co_sound _ _ Hc) Hpr) as Hok.
  destruct (hasSession s pr) eqn:Hhas.
  { intros _. apply hasSession_in in Hhas; [|done]. split; auto. right. exists DefaultProjectID, pr. done. }
  assert (Hs : s ∉ project_sessions pr) by (rewrite <- hasSession_in by done; congruence).
  cbn [issued]. intros Hlim. pose proof (fresh_two limit Huu w Hlim) as H2.
  destruct (addTab_after pr s (NewString (issued w)) (NewString (S (issued w))) Hok Hs Hg) as [Ha Hp].
  destruct (add_view limit Huu Hcf w DefaultProjectID pr s (NewString (issued w)) (NewString (S (issued w)))
              (addTab (NewString (issued w)) (NewString (S (issued w))) s) Hc Hpr) as [Hc' Hin]; auto.
  cbn [layout] in Hin. split; auto; [split; [done|split]|..]; cbn [layout SuppressedDefaultSessions update_project set_projects]; auto.
  - intros s' id Hne. rewrite !Hin. intros [Ha'|[? _]] [Hb|[_ ->]]; [by apply (V1 s' id)|by apply (Hncl id)|done|done].
  - intros s' id Hs'. rewrite Hin. intros [Hb|[_ ->]]; [by apply (V4 s' id)|done].
  - right. exists DefaultProjectID. apply Hin. by right.
  - intros id s' H. apply Hin. by left.
  - intros id s' [H|[_ ->]]%Hin; [by left|by right].
Qed.

Lemma ensure_all_spec (ss : list SessionIdentity) w : ok limit w -> (forall s, s ∈ ss -> good_session s) ->
  let w' := fold_left (fun w s => ensureDefault s w) ss w in
  issued w <= issued w' /\ (issued w' <= limit -> keeps w w' /\ forall s, s ∈ ss -> member (layout w') s).
Proof.
  revert w. induction ss as [|s ss IH]; intros w Hw Hg; cbn.
  { split; [done|]. intros _. split; [by apply keeps_refl|by intros ? ?%elem_of_nil]. }
  pose proof (ensureDefault_issued s w) as Hi.
  destruct (decide (issued (ensureDefault s w) <= limit)) as [Hl|Hl].
  - pose proof (ensureDefault_spec s w Hw (Hg s (list_elem_of_here _ _)) Hl) as He.
    destruct (IH (ensureDefault s w) (en_ok _ _ _ He)) as [Hle Hrest]; [intros; apply Hg; by right|]. split; [lia|]. intros Hlim.
    destruct (Hrest Hlim) as [[Hok Hk] Hm]. split.
    + split; [done|]. intros s' Hs'. apply Hk. by apply (ensured_keeps s w).
    + intros s' [->|Hin]%elem_of_cons; [apply Hk, He|by apply Hm].
  - pose proof (ensure_all_issued ss (ensureDefault s w)). split; [lia|]. intros. lia.
Qed.

(** ** Views removed *)

Lemma ok_remove w id s : ok limit w -> ok limit (mkDesk (issued w) (fst (removeSessionFromProject id s (layout w)))).
Proof.
  intros [Hc [V1 V2 V3 V4]]. destruct (remove_view limit Huu w id s Hc) as (R1 & _ & R3 & R4). split; [done|]. cbn. split.
  - intros s' id' Hne. rewrite !R3. intros [Ha _] [Hb _]. by apply (V1 s' id').
  - by rewrite R4.
  - rewrite R4. apply V3.
  - intros s' id'. rewrite R4, R3. intros Hs' [Hb _]. by apply (V4 s' id').
Qed.

Lemma removed_good w id s : ok limit w -> snd (removeSessionFromProject id s (layout w)) = true -> good_session s.
Proof.
  intros [Hc _] Hr. destruct (remove_view limit Huu w id s Hc) as (_ & R2 & _ & _). apply R2 in Hr as (pr & Hpr & Hin).
  pose proof (Project_ok _ _ _ (co_sound _ _ Hc) Hpr) as Hok. by apply (jo_good _ Hok).
Qed.

Lemma Detach_ok w id s : ok limit w -> issued (fst (Detach id s w)) <= limit -> keeps w (fst (Detach id s w)).
Proof.
  intros Hw. unfold Detach. pose proof (ok_remove w id s Hw) as Hr. pose proof (removed_good w id s Hw) as Hg.
  destruct (remove_view limit Huu w id s (proj1 Hw)) as (_ & R2 & R3 & R4).
  destruct (removeSessionFromProject id s (layout w)) as [l' [|]]; cbn [fst snd negb] in *.
  2:{ intros _. apply ok_same; [done|by apply Hr|done|]. intros id' s'. rewrite R3. split; [tauto|]. intros H. split; [done|].
      intros [-> ->]. apply R2 in H. done. }
  specialize (Hg eq_refl). destruct (String.eqb_spec id DefaultProjectID) as [->|Hne]; cbn [fst].
  - intros _. destruct Hw as [Hc [V1 V2 V3 V4]]. pose proof (proj1 R2 eq_refl) as Hin.
    assert (Hmem : forall s', member (layout w) s' -> s' ∈ SuppressedDefaultSessions (layout w) ++ [s] \/ exists id, in_project l' id s').
    { intros s' [Hs|(id & Hi)]; [left; apply elem_of_app; by left|]. destruct (decide (s' = s)) as [->|Hne]; [left; apply elem_of_app; right; by left|].
      right. exists id. apply R3. split; [done|]. by intros [_ ?]. }
    split; [split|].
    + apply (core_layout limit (mkDesk (issued w) l')); [apply Hr|done].
    + destruct Hr as [_ [W1 W2 W3 W4]]. cbn in *. split; cbn; rewrite R4; auto.
      * apply NoDup_app. split_and!; [done| |apply NoDup_singleton]. intros s' Hs' ->%list_elem_of_singleton. by apply (V4 s DefaultProjectID).
      * intros s' [Hs'| ->%list_elem_of_singleton]%elem_of_app; [by apply V3|done].
      * intros s' id' [Hs'| ->%list_elem_of_singleton]%elem_of_app Hi; [change (in_project l' id' s') in Hi|change (in_project l' id' s) in Hi].
        -- apply (W4 s' id'); [by rewrite R4|done].
        -- apply R3 in Hi as [Hi Hx]. destruct (decide (id' = DefaultProjectID)) as [->|Hd]; [tauto|]. by apply (V1 s id').
    + intros s' Hs'. destruct (Hmem s' Hs') as [H|(id & H)]; [left; cbn; by rewrite R4|right; by exists id].
  - intros Hlim. pose proof (ensureDefault_spec s _ Hr Hg Hlim) as [E1 E2 E3 E4 E5]. split; [done|].
    intros s' [Hs'|(id' & Hi)]; [left; rewrite E5; cbn; by rewrite R4|]. destruct (decide (s' = s)) as [->|Hns]; [done|].
    right. exists id'. apply E3. cbn. apply R3. split; [done|]. by intros [_ ?].
Qed.

Lemma remove_project_split (id : string) (ps : list LocalProject) pr :
  List.find (fun p => pr_ID p ==s id) ps = Some pr -> exists a b, ps = a ++ pr :: b /\ remove_project id ps = a ++ b.
Proof.
  induction ps as [|a ps IH]; cbn; [done|]. destruct (pr_ID a ==s id); [intros [= ->]; by exists [], ps|].
  intros (l1 & l2 & -> & ->)%IH. by exists (a :: l1), l2.
Qed.

Lemma RemoveProject_ok w id : ok limit w -> issued (fst (RemoveProject id w)) <= limit -> keeps w (fst (RemoveProject id w)).
Proof.
  intros Hw. unfold RemoveProject. destruct (String.eqb_spec id DefaultProjectID) as [->|Hne]; [intros _; by apply keeps_refl|].
  destruct (Project (layout w) id) as [pr|] eqn:Hpr; [|intros _; by apply keeps_refl]. cbn [fst].
  pose proof Hw as [Hc [V1 V2 V3 V4]]. pose proof Hc as [Hf Hs Hu]. pose proof (Project_ok _ _ _ Hs Hpr) as Hok.
  destruct (remove_project_split id _ pr Hpr) as (l1 & l2 & Hl & Hrem).
  set (w1 := with_layout _ w).
  assert (Hp : Projects (layout w) ≡ₚ pr :: Projects (layout w1)) by (cbn; rewrite Hl at 1; rewrite Hrem; by rewrite Permutation_middle).
  pose proof (proj2 (Project_some _ _ _ Hpr)) as Hid.
  assert (Hlook : forall id', Project (layout w) id' = if id ==s id' then Some pr else Project (layout w1) id').
  { intros id'. unfold Project at 1. rewrite (Project_perm _ _ id' (so_ids _ Hs) Hp). cbn [List.find]. rewrite Hid. done. }
  assert (Hsub : Projects (layout w1) ⊆+ Projects (layout w)) by (rewrite Hp; by apply submseteq_cons).
  assert (Hok1 : ok limit w1).
  { split; [split|].
    - destruct Hf as (d & rest & Hf & Hd). destruct l1 as [|d' l1]; cbn in Hl; rewrite Hf in Hl; injection Hl as -> Hl; [congruence|].
      cbn. rewrite Hrem. cbn. eauto.
    - by apply (sound_sub (Projects (layout w))).
    - intros i Hi Hlt Hin. apply (Hu i Hi Hlt). by apply (ids_sub (Projects (layout w)) (Projects (layout w1))).
    - assert (Hin : forall id' s', in_project (layout w1) id' s' -> in_project (layout w) id' s').
      { intros id' s' (q & Hq & Hin). exists q. split; [|done]. rewrite Hlook. destruct (String.eqb_spec id id') as [<-|]; [|done].
        exfalso. pose proof (so_ids _ Hs) as Hnd. rewrite Hp in Hnd. cbn in Hnd. apply NoDup_cons in Hnd as [Hn _]. apply Hn.
        rewrite Hid. apply Project_some in Hq as [Hq <-]. by apply list_elem_of_In, in_map, list_elem_of_In. }
      split; auto.
      + intros s' id' Hne' Ha Hb. by apply (V1 s' id' Hne'); apply Hin.
      + intros s' id' Hs' Ha. by apply (V4 s' id' Hs'), Hin. }
  destruct (ensure_all_spec (project_sessions pr) w1 Hok1 (jo_good _ Hok)) as [_ H]. intros Hlim. destruct (H Hlim) as [[K1 K2] Hm].
  split; [done|]. intros s [Hs'|(id' & q & Hq & Hin)]; [apply K2; by left|]. rewrite Hlook in Hq.
  destruct (id ==s id'); [simplify_eq; by apply Hm|]. apply K2. right. exists id', q. done.
Qed.

(** ** Placing, restoring and closing *)

Lemma Place_err w id s pl t w' e : Place id s pl t w = (w', Err e) -> w' = w.
Proof. unfold Place. intros H. repeat case_hyp H; simplify_eq; done. Qed.

Lemma Place_issued w id s pl t : issued w <= issued (fst (Place id s pl t w)).
Proof.
  unfold Place, put_view. repeat case_goal; cbn; simplify_eq; cbn; try lia; cbn; repeat case_goal; simplify_eq; cbn; lia.
Qed.

Lemma Place_ok w id s pl t : ok limit w -> issued (fst (Place id s pl t w)) <= limit -> keeps w (fst (Place id s pl t w)).
Proof.
  intros Hw. destruct (Place id s pl t w) as [w' [pane|e]] eqn:H; cbn [fst]; [|intros _; apply Place_err in H as ->; by apply keeps_refl].
  intros Hlim. destruct (Place_spec limit Huu Hcf w id s pl t w' pane Hw H Hlim) as (Hok & _ & _ & Hin & Hsup). split; [done|].
  intros s' [Hs'|(id' & Hi)]; destruct (decide (s' = s)) as [->|Hne].
  - right. exists id. apply Hin. split; [by right|]. by intros (? & ? & _).
  - left. by apply Hsup.
  - right. exists id. apply Hin. split; [by right|]. by intros (? & ? & _).
  - right. exists id'. apply Hin. split; [by left|]. by intros (_ & _ & ?).
Qed.

Lemma RestoreDefaultPane_ok w s : ok limit w -> issued (fst (RestoreDefaultPane s w)) <= limit -> keeps w (fst (RestoreDefaultPane s w)).
Proof.
  intros Hw. unfold RestoreDefaultPane. destruct (defaultSuppressed s (layout w)); [|intros _; by apply keeps_refl]. cbn [negb].
  pose proof (Place_ok w DefaultProjectID s PlaceNewTab "" Hw) as H. by destruct (Place _ _ _ _ w).
Qed.

Lemma DetachPane_ok w id pane : ok limit w -> issued (fst (DetachPane id pane w)) <= limit -> keeps w (fst (DetachPane id pane w)).
Proof.
  intros Hw. unfold DetachPane. destruct (Project _ _); [|intros _; by apply keeps_refl]. destruct (List.find _ _); [|intros _; by apply keeps_refl].
  destruct (pane_Session _) as [s|]; [|intros _; by apply keeps_refl]. pose proof (Detach_ok w id s Hw) as H. by destruct (Detach id s w).
Qed.

Lemma Discover_ok w s : ok limit w -> issued (fst (Discover s w)) <= limit -> keeps w (fst (Discover s w)).
Proof.
  intros Hw. unfold Discover. destruct (identity_validate s) as [[]|] eqn:Hg; [|intros _; by apply keeps_refl]. cbn [fst]. intros Hlim.
  by apply (ensured_keeps s), ensureDefault_spec.
Qed.

(** ** Destroying *)

Lemma remove_all_spec (ids : list string) w s : ok limit w ->
  let l' := fold_left (fun l id => fst (removeSessionFromProject id s l)) ids (layout w) in
  ok limit (mkDesk (issued w) l') /\ SuppressedDefaultSessions l' = SuppressedDefaultSessions (layout w)
  /\ forall id s', in_project l' id s' <-> in_project (layout w) id s' /\ ~ (id ∈ ids /\ s' = s).
Proof.
  revert w. induction ids as [|a ids IH]; intros w Hw; cbn.
  { split_and!; [by destruct w|done|]. intros id s'. rewrite elem_of_nil. tauto. }
  destruct (remove_view limit Huu w a s (proj1 Hw)) as (_ & _ & R3 & R4).
  destruct (IH _ (ok_remove w a s Hw)) as (H1 & H2 & H3). cbn in *. split_and!; [done|by rewrite H2|].
  intros id s'. rewrite H3, R3, elem_of_cons. tauto.
Qed.

Lemma ok_clear w s : ok limit w -> ok limit (mkDesk (issued w) (clearDefaultSuppression s (layout w))).
Proof.
  intros [Hc [V1 V2 V3 V4]]. split; [by apply core_layout|]. cbn. split; auto; cbn.
  - by apply remove_first_NoDup.
  - intros s' [Hs' _]%remove_first_in; [by apply V3|done].
  - intros s' id [Hs' _]%remove_first_in; [by apply V4|done].
Qed.

Lemma Destroy_spec w s : ok limit w ->
  ok limit (mkDesk (issued w) (Destroy s (layout w)))
  /\ (forall s', s' ∈ SuppressedDefaultSessions (Destroy s (layout w)) <-> s' ∈ SuppressedDefaultSessions (layout w) /\ s' <> s)
  /\ forall id s', in_project (Destroy s (layout w)) id s' <-> in_project (layout w) id s' /\ s' <> s.
Proof.
  intros Hw. destruct (remove_all_spec (map pr_ID (Projects (layout w))) _ s (ok_clear w s Hw)) as (H1 & H2 & H3). cbn in *.
  unfold Destroy. split_and!; [done| |].
  - intros s'. rewrite H2. cbn. apply remove_first_in, Hw.
  - intros id s'. rewrite H3. split; intros [Hin Hn]; (split; [done|]).
    + intros ->. apply Hn. split; [|done]. destruct Hin as (pr & Hpr & _). apply Project_some in Hpr as [Hin <-].
      by apply list_elem_of_In, in_map, list_elem_of_In.
    + by intros [_ ?].
Qed.

(** ** Moving *)

Lemma clone_id p : clone p = p.
Proof. induction p as [|id so n d f IHf g IHg]; cbn; [done|]. by rewrite IHf, IHg. Qed.

Lemma Clone_id l : Clone l = l.
Proof.
  destruct l as [ps ss]. unfold Clone. cbn. f_equal. rewrite <- (map_id ps) at 2. apply map_ext. intros [i n tabs h]. cbn. f_equal.
  rewrite <- (map_id tabs) at 2. apply map_ext. intros [ti tn root]. cbn. by rewrite clone_id.
Qed.

Lemma ok_later w n : ok limit w -> issued w <= n -> ok limit (mkDesk n (layout w)).
Proof. intros [[H1 H2 H3] Hv] Hn. split; [split; [done|done|]|done]. intros i Hi. cbn in *. apply H3. lia. Qed.

Lemma MovePane_ok w id a pl t : ok limit w -> issued (fst (MovePane id a pl t w)) <= limit -> keeps w (fst (MovePane id a pl t w)).
Proof.
  intros Hw. unfold MovePane. destruct (PaneSession id a (layout w)) as [s|]; [|intros _; by apply keeps_refl].
  destruct (_ && _); [intros _; by apply keeps_refl|]. rewrite Clone_id. pose proof (ok_remove w id s Hw) as Hr.
  destruct (remove_view limit Huu w id s (proj1 Hw)) as (_ & _ & R3 & R4).
  destruct (removeSessionFromProject id s (layout w)) as [next [|]]; cbn [fst snd negb] in *; [|intros _; by apply keeps_refl].
  pose proof (Place_ok (mkDesk (issued w) next) id s pl t Hr) as Hk. pose proof (Place_issued (mkDesk (issued w) next) id s pl t) as Hi.
  destruct (Place id s pl t (mkDesk (issued w) next)) as [w' [pane|e]] eqn:HP; cbn [fst issued] in *.
  2:{ intros _. split; [by apply ok_later|done]. }
  destruct (Validate (layout w')); cbn [fst]; [|intros _; split; [by apply ok_later|done]]. intros Hlim.
  destruct (Hk Hlim) as [Hok Hm]. split; [done|]. intros s' [Hs'|(id' & Hin)]; [apply Hm; left; cbn; by rewrite R4|].
  destruct (decide (s' = s)) as [->|Hne]; [|apply Hm; right; exists id'; apply R3; split; [done|]; by intros [_ ?]].
  destruct (Place_spec limit Huu Hcf _ id s pl t w' pane Hr HP Hlim) as (_ & _ & _ & Hi2 & _). right. exists id. apply Hi2.
  split; [by right|]. by intros (? & ? & _).
Qed.

(** ** Any operation *)

Definition destroys s (o : layout_op) : Prop := o = ODestroy s.

Lemma Detach_issued id s w : issued w <= issued (fst (Detach id s w)).
Proof.
  unfold Detach. destruct (removeSessionFromProject id s (layout w)) as [l' [|]]; cbn [negb]; [|done].
  destruct (id ==s DefaultProjectID); [done|]. apply (ensureDefault_issued s (mkDesk (issued w) l')).
Qed.

Lemma layout_run_issued o w : issued w <= issued (layout_run o w).
Proof.
  destruct o; cbn; try lia.
  - unfold AddProject. repeat case_goal; cbn; lia.
  - apply Place_issued.
  - unfold PlaceNote. repeat case_goal; cbn; lia.
  - unfold RestoreDefaultPane. case_goal; [done|]. pose proof (Place_issued w DefaultProjectID s PlaceNewTab ""). by destruct (Place _ _ _ _ w).
  - unfold RemoveProject. repeat case_goal; cbn [fst]; try done. apply (ensure_all_issued _ (with_layout _ w)).
  - apply Detach_issued.
  - unfold DetachPane. destruct (Project _ _); [|done]. destruct (List.find _ _); [|done]. destruct (pane_Session _) as [s|]; [|done].
    pose proof (Detach_issued projectID s w). by destruct (Detach projectID s w).
  - unfold MovePane. destruct (PaneSession _ _ _) as [s|]; [|done]. destruct (_ && _); [done|].
    destruct (removeSessionFromProject _ _ _) as [next [|]]; cbn [negb]; [|done].
    pose proof (Place_issued (mkDesk (issued w) next) projectID s placement targetPaneID).
    destruct (Place _ _ _ _ _) as [w' [pane|e]]; [destruct (Validate (layout w'))|]; done.
  - unfold Discover. destruct (identity_validate s); [apply ensureDefault_issued|done].
Qed.

Lemma layout_run_ok o w : ok limit w -> issued (layout_run o w) <= limit ->
  ok limit (layout_run o w) /\ forall s, o <> ODestroy s -> member (layout w) s -> member (layout (layout_run o w)) s.
Proof.
  intros Hw Hlim.
  assert (Hk : forall w', keeps w w' -> ok limit w' /\ forall s, o <> ODestroy s -> member (layout w) s -> member (layout w') s).
  { intros w' [H1 H2]. split; auto. }
  destruct o; cbn in *.
  - by apply Hk, AddProject_ok.
  - by apply Hk, RenameTab_ok.
  - by apply Hk, RenameProject_ok.
  - by apply Hk, MoveProject_ok.
  - by apply Hk, MoveTab_ok.
  - by apply Hk, Place_ok.
  - by apply Hk, PlaceNote_ok.
  - by apply Hk, RestoreDefaultPane_ok.
  - by apply Hk, RemoveProject_ok.
  - by apply Hk, Detach_ok.
  - by apply Hk, DetachPane_ok.
  - by apply Hk, MovePane_ok.
  - by apply Hk, Discover_ok.
  - clear Hk. destruct (Destroy_spec w s Hw) as (H1 & H2 & H3). split; [done|]. intros s' Hne [Hs|(id & Hin)]; [left; apply H2|right; exists id; apply H3]; naive_solver.
Qed.

Lemma layout_runs_issued os w : issued w <= issued (layout_runs os w).
Proof.
  revert w. induction os as [|o os IH]; intros w; cbn; [done|]. pose proof (layout_run_issued o w). pose proof (IH (layout_run o w)).
  unfold layout_runs in *. lia.
Qed.

Lemma layout_runs_ok os w : ok limit w -> issued (layout_runs os w) <= limit ->
  ok limit (layout_runs os w) /\ forall s, ODestroy s ∉ os -> member (layout w) s -> member (layout (layout_runs os w)) s.
Proof.
  revert w. induction os as [|o os IH]; intros w Hw Hlim; cbn in *; [done|].
  pose proof (layout_runs_issued os (layout_run o w)) as Hi. unfold layout_runs in *.
  destruct (layout_run_ok o w Hw ltac:(lia)) as [H1 H2]. destruct (IH _ H1 Hlim) as [H3 H4]. split; [done|].
  intros s Hs Hm. apply not_elem_of_cons in Hs as [? ?]. apply H4; [done|]. apply H2; [congruence|done].
Qed.

Lemma new_layout_ok : ok limit (mkDesk 0 NewProjectLayout).
Proof.
  split.
  - split; cbn; [eauto| |].
    + split; cbn; auto using NoDup_nil_2, NoDup_singleton; try (by intros ? ?%elem_of_nil).
      * intros pr ->%list_elem_of_singleton. by left.
      * constructor; [|done]. split; cbn; auto using NoDup_nil_2; [by apply default_name|by intros ? ?%elem_of_nil].
    + intros i _ Hi Hin. cbn in Hin. apply list_elem_of_singleton in Hin.
      pose proof (ug_canonical limit Huu i Hi) as Hc. unfold canonical, canonicalLayoutUUID in Hc. rewrite Hin, (ug_default limit Huu) in Hc. done.
  - assert (Hno : forall id s, ~ in_project NewProjectLayout id s).
    { intros id s (pr & Hpr & Hin). apply Project_some in Hpr as [Hpr _]. cbn in Hpr. apply list_elem_of_singleton in Hpr as ->. by apply elem_of_nil in Hin. }
    split; cbn; auto using NoDup_nil_2. by intros ? ?%elem_of_nil.
Qed.

(** A session is in a project, as the code reports it. *)
Lemma member_ProjectsFor w s : core limit w -> member (layout w) s <-> ProjectsFor s (layout w) <> [].
Proof.
  intros Hc. pose proof (co_sound _ _ Hc) as Hs. pose proof (default_project w Hc) as [d Hd].
  transitivity (exists pr, pr ∈ Projects (layout w) /\ hasMembership (pr_ID pr) s (layout w) = true).
  - assert (Hm : forall pr, pr ∈ Projects (layout w) -> hasMembership (pr_ID pr) s (layout w) = true <->
      s ∈ project_sessions pr \/ (pr_ID pr = DefaultProjectID /\ s ∈ SuppressedDefaultSessions (layout w))).
    { intros pr Hin. unfold hasMembership. rewrite (Project_of _ pr (so_ids _ Hs) Hin), orb_true_iff, andb_true_iff, String.eqb_eq.
      unfold defaultSuppressed. rewrite bool_decide_eq_true, hasSession_in; [done|]. by eapply Forall_forall in Hin; [|apply Hs]. }
    unfold member, in_project. split.
    + intros [Hsup|(id & pr & Hpr & Hin)].
      * pose proof (Project_some _ _ _ Hd) as [Hin Hid]. exists d. split; [done|]. apply Hm; auto.
      * pose proof (Project_some _ _ _ Hpr) as [Hp Hid]. exists pr. split; [done|]. apply Hm; auto.
    + intros (pr & Hin & [H|[_ H]]%Hm); [right|by left|done]. exists (pr_ID pr), pr. split; [|done]. by apply Project_of; [apply Hs|].
  - unfold ProjectsFor. destruct (List.filter _ _) as [|a rest] eqn:Hf; cbn; split; try done.
    + intros (pr & Hin & Hm). assert (H : In pr []) by (rewrite <- Hf; apply filter_In; by rewrite <- list_elem_of_In). done.
    + intros _. exists a. rewrite list_elem_of_In. apply (filter_In (fun pr => hasMembership (pr_ID pr) s (layout w))). rewrite Hf. by left.
Qed.

(** C23. A layout of Ducklord is always valid: whatever sequence of operations is
    run from the layout of a fresh installation, the result is accepted by the
    check that guards loading and saving, as long as the identifiers drawn from the
    UUID generator are distinct. *)
Theorem layout_always_valid (os : list layout_op) :
  issued (layout_runs os (mkDesk 0 NewProjectLayout)) <= limit ->
  Validate (layout (layout_runs os (mkDesk 0 NewProjectLayout))) = Ok tt.
Proof. intros Hlim. apply Validate_spec, (ok_valid limit), layout_runs_ok; [apply new_layout_ok|done]. Qed.

(** C22. No session is lost: once a session belongs to some project it belongs to some
    project after any operations, closing its views and removing its project
    included, until it is destroyed. *)
Theorem session_never_lost (before after : list layout_op) (s : SessionIdentity) :
  let w := layout_runs before (mkDesk 0 NewProjectLayout) in
  issued (layout_runs after w) <= limit ->
  ProjectsFor s (layout w) <> [] ->
  ODestroy s ∉ after ->
  ProjectsFor s (layout (layout_runs after w)) <> [].
Proof.
  intros w Hlim Hp Hd. pose proof (layout_runs_issued after w) as Hi.
  destruct (layout_runs_ok before _ new_layout_ok ltac:(unfold w in *; lia)) as [Hw _].
  destruct (layout_runs_ok after w Hw Hlim) as [Ha Hm]. apply member_ProjectsFor; [apply Ha|]. apply Hm; [done|].
  apply member_ProjectsFor; [apply Hw|done].
Qed.

End Ops.
