(* ===== verification/LayoutViews.v ===== *)
(** * Which pane shows which session

    A view is a pane identifier with the session it shows.  The views of a project
    before and after [MovePane], and closing the view [Place] made. *)

From S2P Require Import Prelude GoStrings Session Layout LayoutSafety LayoutOps.
Local Open Scope go_scope.

Fixpoint leaves (p : SessionPane) : list (string * SessionIdentity) :=
  match p with
  | NoPane => []
  | mkPane id (Some s) _ _ _ _ => [(id, s)]
  | mkPane _ None _ _ f g => leaves f ++ leaves g
  end.

Definition views (tabs : list TerminalTab) : list (string * SessionIdentity) := List.flat_map (fun t => leaves (tab_Root t)) tabs.

Section Views.
Context `{UC : UnicodeCase} `{UF : UnicodeFormat} `{UU : UUIDs}.
Implicit Types (p q : SessionPane) (s : SessionIdentity) (w : desk) (l : ProjectLayout).

Lemma leaves_ids i s p : (i, s) ∈ leaves p -> i ∈ pane_ids p /\ s ∈ sessions p.
Proof.
  induction p as [|id [s'|] n d f IHf g IHg]; cbn; [by intros ?%elem_of_nil| |].
  - intros H%list_elem_of_singleton. simplify_eq. split; by left.
  - rewrite elem_of_cons, !elem_of_app. intros [H|H]; [apply IHf in H as []|apply IHg in H as []]; tauto.
Qed.

Lemma findPane_leaf i s p : shaped p -> NoDup (pane_ids p) -> pane_Session (findPane i p) = Some s <-> (i, s) ∈ leaves p.
Proof.
  induction p as [|id so n d f IHf g IHg]; [done|]. intros H [Hi [Hnf [Hdis Hng]]%NoDup_app]%NoDup_cons.
  apply shaped_cases in H as [(s' & -> & -> & -> & -> & ->)|[(-> & -> & -> & -> & ->)|(-> & -> & _ & Hf & Hg)]]; cbn.
  - rewrite list_elem_of_singleton. destruct (String.eqb_spec id i) as [->|]; cbn; naive_solver.
  - rewrite elem_of_nil. destruct (id ==s i); cbn; naive_solver.
  - rewrite elem_of_app, <- IHf, <- IHg by done. apply not_elem_of_app in Hi as [Hif Hig].
    destruct (String.eqb_spec id i) as [->|Hne]; cbn.
    + split; [done|]. rewrite <- !findPane_in in *. destruct (findPane i f), (findPane i g); cbn in *; naive_solver.
    + destruct (is_pane (findPane i f)) eqn:Hpf.
      * apply findPane_in, Hdis in Hpf. rewrite <- findPane_in in Hpf. destruct (findPane i g); cbn in *; naive_solver.
      * apply is_pane_false in Hpf. rewrite Hpf. cbn. naive_solver.
Qed.

Lemma removed_leaves s p q : shaped p -> removeSessionNode s p = (q, true) -> exists i, leaves p ≡ₚ (i, s) :: leaves q.
Proof.
  revert q. induction p as [|id so n d f IHf g IHg]; intros q H; [done|].
  apply shaped_cases in H as [(s' & -> & -> & -> & -> & ->)|[(-> & -> & -> & -> & ->)|(-> & -> & _ & Hf & Hg)]]; cbn; [|done|].
  - case_bool_decide; [|done]. intros [= <-]. subst. by exists id.
  - destruct (removeSessionNode s f) as [f' [|]] eqn:Hrf; cbn.
    + destruct (IHf f' Hf eq_refl) as [i Hi]. rewrite (shaped_pane g Hg). cbn. intros H. exists i. rewrite Hi.
      destruct (is_pane f') eqn:Hp; cbn in H; injection H as <-; [done|]. apply is_pane_false in Hp. by subst.
    + destruct (removeSessionNode s g) as [g' [|]] eqn:Hrg; cbn; [|done].
      destruct (removeSessionNode_kept s f) as [Hk _]; [by rewrite Hrf|]. rewrite Hrf in Hk. injection Hk as ->.
      destruct (IHg g' Hg eq_refl) as [i Hi]. rewrite (shaped_pane f Hf). cbn. intros H. exists i. rewrite Hi.
      destruct (is_pane g') eqn:Hp; cbn in H; injection H as <-; cbn; [by rewrite Permutation_middle|].
      apply is_pane_false in Hp. subst. cbn. by rewrite Permutation_app_comm.
Qed.

Lemma split_leaves (two one i d : string) s s0 p : shaped p -> pane_Session (findPane i p) = Some s0 ->
  leaves (set_pane i (split_pane two one s d) p) ≡ₚ (one, s) :: leaves p.
Proof.
  induction p as [|id so n d' f IHf g IHg]; [done|]. intros H. cbn [findPane set_pane].
  destruct (String.eqb_spec id i) as [->|Hne].
  - cbn [pane_Session]. intros ->. cbn. apply perm_swap.
  - apply shaped_cases in H as [(s' & -> & -> & -> & -> & ->)|[(-> & -> & -> & -> & ->)|(-> & -> & _ & Hf & Hg)]]; [done|done|].
    destruct (is_pane (findPane i f)); intros Hs; cbn; [by rewrite IHf|]. by rewrite IHg, Permutation_middle.
Qed.

(** ** Tabs *)

Lemma views_in (i : string) s tabs : (i, s) ∈ views tabs <-> exists t, t ∈ tabs /\ (i, s) ∈ leaves (tab_Root t).
Proof. unfold views. rewrite list_elem_of_In, in_flat_map. by setoid_rewrite list_elem_of_In. Qed.

Lemma pane_session_views (i : string) s tabs : Forall tab_ok tabs -> NoDup (List.flat_map tab_panes tabs) ->
  pane_session i tabs = Some s <-> (i, s) ∈ views tabs.
Proof.
  intros Hok Hnd. induction tabs as [|t tabs IH]; cbn; [rewrite elem_of_nil; naive_solver|].
  apply Forall_cons in Hok as [Ht Hok]. apply NoDup_app in Hnd as (Hn1 & Hdis & Hn2). specialize (IH Hok Hn2).
  unfold views in *. cbn. rewrite elem_of_app, <- IH, <- findPane_leaf; [|apply Ht|done].
  destruct (pane_Session (findPane i (tab_Root t))) as [s'|] eqn:Hs; [|naive_solver]. split; [by left|]. intros [?|H]; [done|].
  exfalso. apply IH in H. apply (views_in i s tabs) in H as (u & Hu & [Hl _]%leaves_ids).
  apply findPane_leaf in Hs as [Hin _]%leaves_ids; [|apply Ht|done]. apply (Hdis i); [done|].
  apply list_elem_of_In, in_flat_map. exists u. by rewrite <- !list_elem_of_In.
Qed.

Lemma split_target_views (i : string) s pr : Forall tab_ok (pr_Tabs pr) -> NoDup (project_panes pr) ->
  (i, s) ∈ views (pr_Tabs pr) -> pane_Session (split_target i pr) = Some s.
Proof.
  intros Hok Hnd Hv. apply (pane_session_views i s _ Hok Hnd) in Hv. unfold split_target. unfold project_panes in Hnd.
  induction (pr_Tabs pr) as [|t tabs IH]; cbn in *; [done|]. apply Forall_cons in Hok as [Ht Hok]. apply NoDup_app in Hnd as (Hn1 & Hdis & Hn2).
  destruct (pane_Session (findPane i (tab_Root t))) as [s'|] eqn:Hs.
  - simplify_eq. destruct (findPane i (tab_Root t)) eqn:Hx; [done|]. cbn. by rewrite Hx.
  - destruct (is_pane (findPane i (tab_Root t))) eqn:Hp; [|by apply IH]. exfalso.
    apply findPane_in in Hp. apply pane_session_views, views_in in Hv as (u & Hu & [Hl _]%leaves_ids); [|done..].
    apply (Hdis i); [done|]. apply list_elem_of_In, in_flat_map. exists u. by rewrite <- !list_elem_of_In.
Qed.

Lemma remove_tabs_views s tabs : Forall tab_ok tabs -> snd (remove_from_tabs s tabs) = true ->
  exists i, views tabs ≡ₚ (i, s) :: views (fst (remove_from_tabs s tabs)).
Proof.
  unfold views. induction tabs as [|t rest IH]; cbn; [done|]. intros [Ht Hrest]%Forall_cons.
  destruct (removeSessionNode s (tab_Root t)) as [root [|]] eqn:Hr.
  - intros _. destruct (removed_leaves s _ root (to_shaped _ Ht) Hr) as [i Hi]. exists i. rewrite Hi. cbn.
    destruct (is_pane root) eqn:Hp; cbn; [done|]. apply is_pane_false in Hp. by subst.
  - destruct (remove_from_tabs s rest) as [rest' b]. cbn in *. intros Hb. destruct (IH Hrest Hb) as [i Hi]. exists i.
    by rewrite Hi, Permutation_middle.
Qed.

Lemma split_tabs_views (two one i d : string) s s0 pr : Forall tab_ok (pr_Tabs pr) -> pane_Session (split_target i pr) = Some s0 ->
  views (pr_Tabs (split_tabs i (split_pane two one s d) pr)) ≡ₚ (one, s) :: views (pr_Tabs pr).
Proof.
  intros Hok. unfold split_target, split_tabs. cbn [pr_Tabs set_tabs]. destruct (List.find _ (pr_Tabs pr)) as [t|] eqn:Hf; [|done].
  intros Hs0. destruct (update_first_split _ (fun t => set_root (set_pane i (split_pane two one s d) (tab_Root t)) t) _ _ Hf)
    as (l1 & l2 & Htabs & _ & -> & _). rewrite Htabs in *. apply Forall_app in Hok as [_ [Ht _]%Forall_cons].
  unfold views. rewrite !flat_map_app. cbn. rewrite (split_leaves two one i d s s0 (tab_Root t) (to_shaped _ Ht) Hs0). cbn.
  by rewrite <- Permutation_middle.
Qed.

(** The pane that shows a session in a project is unique. *)
Lemma views_unique tabs (i j : string) s : NoDup (tabs_sessions tabs) -> (i, s) ∈ views tabs -> (j, s) ∈ views tabs -> i = j.
Proof.
  assert (Hm : map snd (views tabs) = tabs_sessions tabs).
  { unfold views, tabs_sessions. induction tabs as [|t tabs IH]; cbn; [done|]. rewrite map_app, IH. f_equal.
    induction (tab_Root t) as [|id [s'|] n d f IHf g IHg]; cbn; [done|done|]. by rewrite map_app, IHf, IHg. }
  rewrite <- Hm. generalize (views tabs). intros l Hnd Hi Hj. induction l as [|[a b] l IH]; cbn in *; [by apply elem_of_nil in Hi|].
  apply NoDup_cons in Hnd as [Hb Hnd]. rewrite !elem_of_cons in Hi, Hj.
  assert (Hin : forall k, (k, s) ∈ l -> s ∈ map snd l) by (intros k Hk; apply list_elem_of_In, in_map_iff; exists (k, s); by rewrite <- list_elem_of_In).
  destruct Hi as [Hi|Hi], Hj as [Hj|Hj]; simplify_eq; auto; destruct Hb; eauto.
Qed.

(** ** Moving a view *)

Context (limit : nat) (Huu : uuids_good limit).
Context (Hcf : forall r, (32 <= r < 127)%N -> u_Cf r = false).

Lemma project_panes_NoDup (ps : list LocalProject) pr : sound_projects ps -> pr ∈ ps -> NoDup (project_panes pr).
Proof.
  intros Hs Hin. pose proof (so_panes _ Hs) as Hnd. apply list_elem_of_split in Hin as (l1 & l2 & ->).
  rewrite flat_map_app in Hnd. cbn in Hnd. apply NoDup_app in Hnd as (_ & _ & Hnd). by apply NoDup_app in Hnd as (? & _).
Qed.

Lemma PaneSession_views w (id i : string) s pr : core limit w -> Project (layout w) id = Some pr ->
  PaneSession id i (layout w) = Some s <-> (i, s) ∈ views (pr_Tabs pr).
Proof.
  intros Hc Hpr. unfold PaneSession. rewrite Hpr. pose proof (Project_ok _ _ _ (co_sound _ _ Hc) Hpr) as Hok.
  apply pane_session_views; [apply Hok|]. apply (project_panes_NoDup _ _ (co_sound _ _ Hc)). by apply Project_some in Hpr as [? _].
Qed.

Lemma Project_removed l (id id' : string) s : Project (fst (removeSessionFromProject id s l)) id' =
  if id' ==s id then (fun pr => set_tabs (fst (remove_from_tabs s (pr_Tabs pr))) pr) <$> Project l id else Project l id'.
Proof.
  unfold removeSessionFromProject. destruct (Project l id) as [pr|] eqn:Hpr; cbn [fst].
  - rewrite Project_update by done. by rewrite Hpr.
  - destruct (String.eqb_spec id' id) as [->|]; [by rewrite Hpr|done].
Qed.

Lemma set_tabs_same pr : set_tabs (pr_Tabs pr) pr = pr.
Proof. by destruct pr. Qed.

Lemma remove_absent w (id id' : string) s : core limit w -> ~ in_project (layout w) id s ->
  Project (fst (removeSessionFromProject id s (layout w))) id' = Project (layout w) id'.
Proof.
  intros Hc Hn. rewrite Project_removed. destruct (String.eqb_spec id' id) as [->|]; [|done].
  destruct (Project (layout w) id) as [pr|] eqn:Hpr; [|done]. cbn.
  destruct (snd (remove_from_tabs s (pr_Tabs pr))) eqn:Hr.
  - exfalso. apply Hn. exists pr. split; [done|]. pose proof (Project_ok _ _ _ (co_sound _ _ Hc) Hpr) as Hok.
    destruct (remove_from_tabs_removed s _ (jo_tabs _ Hok) Hr) as (_ & Hs & _). unfold project_sessions. unfold tabs_sessions in Hs. rewrite Hs. by left.
  - destruct (remove_from_tabs_kept s _ Hr) as [-> _]. by rewrite set_tabs_same.
Qed.

(** Where a new view may go: a new tab, or beside a session pane of the project. *)
Definition may_place (pr : LocalProject) (pl t : string) : Prop :=
  pl = PlaceNewTab \/ ((pl = PlaceHorizontal \/ pl = PlaceVertical) /\ exists s0, (t, s0) ∈ views (pr_Tabs pr)).

Lemma remove_added s (leaf tab : string) tabs : Forall tab_ok tabs -> s ∉ tabs_sessions tabs ->
  remove_from_tabs s (tabs ++ [mkTab tab "" (leaf_pane leaf s)]) = (tabs, true).
Proof.
  unfold tabs_sessions. induction tabs as [|u tabs IH]; cbn; [by rewrite bool_decide_eq_true_2|]. intros [Hu Hok]%Forall_cons [Hsu Hs]%not_elem_of_app.
  rewrite (not_removed s (tab_Root u)); [|apply Hu|done]. by rewrite IH.
Qed.

Lemma put_view_views w pr s (pl t : string) : Forall tab_ok (pr_Tabs pr) -> NoDup (project_panes pr) -> may_place pr pl t ->
  exists h, put_view pr s pl t w = Ok (mkDesk (S (S (issued w))) (update_project (pr_ID pr) h (layout w)), NewString (issued w))
  /\ (forall x : LocalProject, pr_ID (h x) = pr_ID x) /\ views (pr_Tabs (h pr)) ≡ₚ (NewString (issued w), s) :: views (pr_Tabs pr)
  /\ (s ∉ project_sessions pr -> set_tabs (fst (remove_from_tabs s (pr_Tabs (h pr)))) (h pr) = pr).
Proof.
  intros Hok Hnd [->|[Hpl [s0 Ht]]]; unfold put_view.
  - cbn [String.eqb Ascii.eqb Bool.eqb PlaceNewTab]. eexists. split; [reflexivity|]. split; [done|]. split.
    + cbn. unfold views. rewrite flat_map_app. cbn. by rewrite Permutation_app_comm.
    + intros Hs. cbn [addTab pr_Tabs set_tabs]. rewrite remove_added by done. by destruct pr.
  - assert (Hne : pl ==s PlaceNewTab = false) by (destruct Hpl as [-> | ->]; done).
    assert (Hor : (pl ==s PlaceHorizontal) || (pl ==s PlaceVertical) = true) by (destruct Hpl as [-> | ->]; done).
    rewrite Hne, Hor. pose proof (split_target_views t s0 pr Hok Hnd Ht) as Hs0. rewrite Hs0. eexists. split; [reflexivity|]. split; [done|]. split.
    + by apply (split_tabs_views _ _ _ _ s s0).
    + intros Hs. destruct (split_tabs_spec (NewString (S (issued w))) (NewString (issued w)) t
        (if pl ==s PlaceHorizontal then SplitHorizontal else SplitVertical) s s0 pr Hok) as (_ & _ & _ & Hu); [by case_goal; auto|done|].
      rewrite Hu by done. by destruct pr.
Qed.

Lemma Place_succeeds w (id : string) pr s (pl t : string) : ok limit w -> Project (layout w) id = Some pr ->
  good_session s -> s ∉ project_sessions pr -> (id = DefaultProjectID -> forall id', id' <> DefaultProjectID -> ~ in_project (layout w) id' s) ->
  may_place pr pl t -> S (S (issued w)) <= limit ->
  exists w' pr', Place id s pl t w = (w', Ok (NewString (issued w))) /\ issued w' = S (S (issued w))
  /\ Project (layout w') id = Some pr' /\ views (pr_Tabs pr') ≡ₚ (NewString (issued w), s) :: views (pr_Tabs pr)
  /\ set_tabs (fst (remove_from_tabs s (pr_Tabs pr'))) pr' = pr
  /\ SuppressedDefaultSessions (layout w') = remove_first s (SuppressedDefaultSessions (layout w))
  /\ forall id', id' <> id -> (id' = DefaultProjectID -> ~ in_project (layout w) DefaultProjectID s) -> Project (layout w') id' = Project (layout w) id'.
Proof.
  intros Hw Hpr Hg Hs Hcl Hmay Hlim. pose proof Hw as [Hc _]. pose proof (Project_ok _ _ _ (co_sound _ _ Hc) Hpr) as Hok.
  pose proof (Project_some _ _ _ Hpr) as [Hin Hid]. subst id.
  destruct (put_view_views w pr s pl t (jo_tabs _ Hok) (project_panes_NoDup _ _ (co_sound _ _ Hc) Hin) Hmay) as (h & Hput & Hh & Hv & Hback).
  destruct (put_view_spec limit Huu Hcf w pr s pl t _ _ Hc Hpr Hs Hg Hput) as (_ & _ & Hafter). destruct (Hafter Hlim) as [Hc1 Hin1]. clear Hafter.
  cbn [layout issued] in *. unfold Place. rewrite Hg, Hpr.
  assert (Hhas : hasSession s pr = false) by (apply not_true_iff_false; rewrite hasSession_in by done; done). rewrite Hhas.
  assert (Hclass : (pr_ID pr ==s DefaultProjectID) && existsb (fun x => (pr_ID x !=s DefaultProjectID) && hasSession s x) (Projects (layout w)) = false).
  { apply not_true_iff_false. rewrite andb_true_iff, String.eqb_eq, (classified_spec limit) by done.
    intros (He & id & Hne & Hi). by apply (Hcl He id). }
  rewrite Hclass, Hput. cbn [layout issued].
  set (l1 := update_project (pr_ID pr) h (layout w)) in *. eexists _, (h pr). split; [reflexivity|]. cbn [layout issued].
  assert (Hl1 : forall id', Project l1 id' = if id' ==s pr_ID pr then Some (h pr) else Project (layout w) id').
  { intros id'. unfold l1. rewrite Project_update by done. by rewrite Hpr. }
  assert (Hlook : forall l id', Project (clearDefaultSuppression s l) id' = Project l id') by done. setoid_rewrite Hlook.
  split; [done|]. split.
  { case_goal; [|by rewrite Hl1, String.eqb_refl]. rewrite Project_removed. bool_to_prop. rewrite (proj2 (String.eqb_neq _ _)) by done.
    by rewrite Hl1, String.eqb_refl. }
  split; [done|]. split; [by apply Hback|]. split.
  { case_goal; [|done]. cbn. unfold removeSessionFromProject. by case_goal. }
  intros id' Hne Hd. assert (H1 : Project l1 id' = Project (layout w) id') by (rewrite Hl1, (proj2 (String.eqb_neq _ _)) by done; done).
  rewrite <- H1. case_goal; [|done]. bool_to_prop. rewrite Project_removed. destruct (String.eqb_spec id' DefaultProjectID) as [->|]; [|done].
  pose proof (remove_absent (mkDesk (S (S (issued w))) l1) DefaultProjectID DefaultProjectID s Hc1) as Ha. cbn [layout] in Ha.
  rewrite Project_removed in Ha. apply Ha. rewrite Hin1. intros [?|[? _]]; [by apply Hd|done].
Qed.

Lemma leaf_ids_sub p : map fst (leaves p) ⊆+ pane_ids p.
Proof.
  induction p as [|id [s'|] n d f IHf g IHg]; cbn; [done| |].
  - apply submseteq_skip, submseteq_nil_l.
  - rewrite map_app. apply submseteq_cons. by apply submseteq_app.
Qed.

Lemma views_ids_NoDup tabs : NoDup (List.flat_map tab_panes tabs) -> NoDup (map fst (views tabs)).
Proof.
  apply submseteq_NoDup. unfold views. induction tabs as [|t tabs IH]; cbn; [done|]. rewrite map_app.
  apply submseteq_app; [apply leaf_ids_sub|done].
Qed.

Lemma remove_first_absent s (ss : list SessionIdentity) : s ∉ ss -> remove_first s ss = ss.
Proof.
  induction ss as [|a ss IH]; cbn; [done|]. intros [Ha Hs]%not_elem_of_cons. rewrite bool_decide_eq_false_2 by congruence. by rewrite IH.
Qed.

(** The layout after the view of a session was taken out of its project. *)
Record taken w (id : string) s (l1 : ProjectLayout) (pr1 : LocalProject) : Prop := mkTaken {
  tk_ok : ok limit (mkDesk (issued w) l1);
  tk_project : Project l1 id = Some pr1;
  tk_absent : s ∉ project_sessions pr1;
  tk_good : good_session s;
  tk_others : forall id', id' <> id -> Project l1 id' = Project (layout w) id';
  tk_suppressed : SuppressedDefaultSessions l1 = SuppressedDefaultSessions (layout w);
  tk_shown : s ∉ SuppressedDefaultSessions (layout w);
  tk_default : id = DefaultProjectID -> forall id', id' <> DefaultProjectID -> ~ in_project l1 id' s;
  tk_custom : id <> DefaultProjectID -> ~ in_project l1 DefaultProjectID s }.

Lemma take_view w (id source : string) s pr : ok limit w -> Project (layout w) id = Some pr -> (source, s) ∈ views (pr_Tabs pr) ->
  exists l1 pr1, removeSessionFromProject id s (layout w) = (l1, true) /\ taken w id s l1 pr1
  /\ forall pane s', (pane, s') ∈ views (pr_Tabs pr1) <-> pane <> source /\ (pane, s') ∈ views (pr_Tabs pr).
Proof.
  intros Hw Hpr Hv. pose proof Hw as [Hc [V1 V2 V3 V4]]. pose proof (Project_ok _ _ _ (co_sound _ _ Hc) Hpr) as Hok.
  assert (Hin : in_project (layout w) id s).
  { exists pr. split; [done|]. apply views_in in Hv as (t & Ht & [_ Hs]%leaves_ids). apply list_elem_of_In, in_flat_map. exists t. by rewrite <- !list_elem_of_In. }
  destruct (remove_view limit Huu w id s Hc) as (_ & [_ R2] & R3 & R4). specialize (R2 Hin).
  pose proof (ok_remove limit Huu w id s Hw) as Hw1. pose proof (Project_removed (layout w) id) as Hlook.
  assert (Hrem : snd (remove_from_tabs s (pr_Tabs pr)) = true) by (unfold removeSessionFromProject in R2; by rewrite Hpr in R2).
  destruct (remove_tabs_views s _ (jo_tabs _ Hok) Hrem) as [i Hi].
  assert (i = source) as ->. { apply (views_unique (pr_Tabs pr) _ _ s); [apply Hok|rewrite Hi; by left|done]. }
  assert (Hl1 : forall id', Project (fst (removeSessionFromProject id s (layout w))) id' =
    if id' ==s id then Some (set_tabs (fst (remove_from_tabs s (pr_Tabs pr))) pr) else Project (layout w) id').
  { intros id'. rewrite Hlook. by rewrite Hpr. }
  destruct (removeSessionFromProject id s (layout w)) as [l1 b]. cbn [fst snd] in *. subst b. clear Hlook.
  set (pr1 := set_tabs (fst (remove_from_tabs s (pr_Tabs pr))) pr) in *.
  assert (Hpr1 : Project l1 id = Some pr1) by (by rewrite Hl1, String.eqb_refl).
  exists l1, pr1. split; [done|]. split; [split; auto|].
  - intros H. assert (Hx : in_project l1 id s) by (by exists pr1). apply R3 in Hx as [_ Hx]. by apply Hx.
  - destruct Hin as (x & Hx & Hs). simplify_eq. by apply Hok.
  - intros id' Hne. by rewrite Hl1, (proj2 (String.eqb_neq _ _)).
  - intros Hs. by apply (V4 s id).
  - intros -> id' Hne [Hx _]%R3. by apply (V1 s id').
  - intros Hne [Hx _]%R3. by apply (V1 s id).
  - intros pane s'. pose proof (project_panes_NoDup _ _ (co_sound _ _ Hc) (proj1 (Project_some _ _ _ Hpr))) as Hnd.
    apply views_ids_NoDup in Hnd. rewrite Hi in Hnd. cbn in Hnd. apply NoDup_cons in Hnd as [Hn _]. rewrite Hi, elem_of_cons. split.
    + intros Hx. split; [|by right]. intros ->. apply Hn. apply list_elem_of_In, in_map_iff. exists (source, s'). by rewrite <- list_elem_of_In.
    + intros [Hne [Hx|Hx]]; [congruence|done].
Qed.

(** Moving a view works whenever its target is sound: from any state the program
    can reach, a session pane moves to a new tab or beside another session pane of
    its project; the session is then shown by the returned pane only, every other
    pane of the project shows what it showed, and nothing else changes.  In
    particular the final check of the new layout never refuses it. *)
Theorem move_pane_succeeds (os : list layout_op) (id source target placement : string) (s : SessionIdentity) :
  let w := layout_runs os (mkDesk 0 NewProjectLayout) in
  PaneSession id source (layout w) = Some s ->
  (placement = PlaceNewTab \/
   (placement = PlaceHorizontal \/ placement = PlaceVertical) /\ target <> source
     /\ exists s0, PaneSession id target (layout w) = Some s0) ->
  S (S (issued w)) <= limit ->
  exists w', MovePane id source placement target w = (w', Ok (NewString (issued w)))
  /\ (forall pane s', PaneSession id pane (layout w') = Some s' <->
        (pane = NewString (issued w) /\ s' = s) \/ (pane <> source /\ PaneSession id pane (layout w) = Some s'))
  /\ (forall id', id' <> id -> Project (layout w') id' = Project (layout w) id')
  /\ SuppressedDefaultSessions (layout w') = SuppressedDefaultSessions (layout w).
Proof.
  intros w Hsrc Htgt Hlim. destruct (layout_runs_ok limit Huu Hcf os _ (new_layout_ok limit Huu Hcf)) as [Hw _]; [unfold w in *; lia|]. fold w in Hw.
  assert (Hpr : exists pr, Project (layout w) id = Some pr) by (unfold PaneSession in Hsrc; destruct (Project (layout w) id); [eauto|done]).
  destruct Hpr as [pr Hpr]. pose proof (PaneSession_views w id) as Hshow. specialize (fun i s0 => Hshow i s0 pr (proj1 Hw) Hpr).
  destruct (take_view w id source s pr Hw Hpr (proj1 (Hshow _ _) Hsrc)) as (l1 & pr1 & Hrem & [T1 T2 T3 T4 T5 T6 T7 T8 T9] & Hviews).
  unfold MovePane. rewrite Hsrc, Clone_id, Hrem.
  assert (Honto : (placement !=s PlaceNewTab) && (source ==s target) = false).
  { destruct Htgt as [->|(_ & Hne & _)]; [done|]. rewrite (proj2 (String.eqb_neq source target)) by congruence. by rewrite andb_false_r. }
  rewrite Honto. cbn [negb]. clear Honto.
  destruct (Place_succeeds (mkDesk (issued w) l1) id pr1 s placement target T1 T2 T4 T3 T8) as (w' & pr' & HP & Hi' & Hpr' & Hv' & _ & Hsup & Hother); [|done|].
  { destruct Htgt as [->|(Hpl & Hne & s0 & Hs0)]; [by left|]. right. split; [done|]. exists s0. apply Hviews. split; [done|by apply Hshow]. }
  destruct (Place_spec limit Huu Hcf _ id s placement target w' _ T1 HP) as (Hw' & _); [by rewrite Hi'|].
  cbn [issued layout] in *. exists w'. rewrite HP, (proj2 (Validate_spec (layout w')) (ok_valid limit w' Hw')).
  split; [done|]. split; [|split].
  - intros pane s'. rewrite (PaneSession_views w' id pane s' pr' (proj1 Hw') Hpr'), Hshow, Hv', elem_of_cons, Hviews.
    split; intros [Hx|Hx]; auto; left; [by simplify_eq|by destruct Hx as [-> ->]].
  - intros id' Hne. rewrite Hother; [by apply T5|done|]. intros ->. apply T9. congruence.
  - by rewrite Hsup, T6, remove_first_absent.
Qed.

Lemma target_in_views (i : string) s0 pr : Forall tab_ok (pr_Tabs pr) -> NoDup (project_panes pr) ->
  pane_Session (split_target i pr) = Some s0 -> (i, s0) ∈ views (pr_Tabs pr).
Proof.
  intros Hok Hnd. unfold split_target. destruct (List.find _ (pr_Tabs pr)) as [t|] eqn:Hf; [|done]. apply find_test in Hf as [Hin _].
  intros Hs. apply views_in. exists t. split; [done|]. eapply Forall_forall in Hok; [|done]. apply findPane_leaf; [apply Hok| |done].
  apply list_elem_of_split in Hin as (l1 & l2 & Hl). unfold project_panes in Hnd. rewrite Hl, flat_map_app in Hnd. cbn in Hnd.
  apply NoDup_app in Hnd as (_ & _ & Hnd). by apply NoDup_app in Hnd as (? & _).
Qed.

Lemma Place_inv w (id : string) s (pl t : string) w1 pane : ok limit w -> Place id s pl t w = (w1, Ok pane) ->
  exists pr, Project (layout w) id = Some pr /\ good_session s /\ s ∉ project_sessions pr
  /\ (id = DefaultProjectID -> forall id', id' <> DefaultProjectID -> ~ in_project (layout w) id' s)
  /\ may_place pr pl t /\ issued w1 = S (S (issued w)).
Proof.
  intros [Hc _]. unfold Place. destruct (identity_validate s) as [[]|] eqn:Hg; [|done].
  destruct (Project (layout w) id) as [pr|] eqn:Hpr; [|done]. pose proof (Project_ok _ _ _ (co_sound _ _ Hc) Hpr) as Hok.
  destruct (hasSession s pr) eqn:Hhas; [done|]. destruct (_ && existsb _ _) eqn:Hcl; [done|].
  destruct (put_view pr s pl t w) as [[w2 p2]|] eqn:Hput; [|done]. intros [= <- _]. exists pr. split_and!; auto.
  - rewrite <- hasSession_in by done. congruence.
  - intros -> id' Hne Hin. rewrite String.eqb_refl in Hcl. cbn in Hcl. apply not_true_iff_false in Hcl. apply Hcl, (classified_spec limit); eauto.
  - unfold put_view in Hput. destruct (String.eqb_spec pl PlaceNewTab) as [->|]; [by left|]. right.
    destruct (_ || _) eqn:Hor; [|done]. destruct (pane_Session (split_target t pr)) as [s0|] eqn:Ht; [|done].
    split; [apply orb_true_iff in Hor as [H%String.eqb_eq|H%String.eqb_eq]; auto|]. exists s0.
    apply target_in_views; [apply Hok| |done]. apply (project_panes_NoDup _ _ (co_sound _ _ Hc)). by apply Project_some in Hpr as [? _].
  - unfold put_view in Hput. repeat case_hyp Hput; simplify_eq; done.
Qed.

Lemma ensureDefault_other s w (id : string) : id <> DefaultProjectID -> Project (layout (ensureDefault s w)) id = Project (layout w) id.
Proof.
  intros Hne. unfold ensureDefault. repeat case_goal; try done. cbn [layout]. rewrite Project_update by done. by rewrite (proj2 (String.eqb_neq _ _)).
Qed.

(** Closing the view that [Place] made undoes it: the project is again exactly
    what it was, its tabs, splits and pane identifiers included. *)
Theorem place_then_close (os : list layout_op) (id placement target pane : string) (s : SessionIdentity) (w1 : desk) :
  let w := layout_runs os (mkDesk 0 NewProjectLayout) in
  Place id s placement target w = (w1, Ok pane) ->
  issued w1 <= limit ->
  exists w2, DetachPane id pane w1 = (w2, Ok s) /\ Project (layout w2) id = Project (layout w) id.
Proof.
  intros w HP Hlim. pose proof (Place_issued w id s placement target) as Hi. rewrite HP in Hi. cbn in Hi.
  destruct (layout_runs_ok limit Huu Hcf os _ (new_layout_ok limit Huu Hcf)) as [Hw _]; [unfold w in *; lia|]. fold w in Hw.
  pose proof Hw as [Hc _]. destruct (Place_inv w id s placement target w1 pane Hw HP) as (pr & Hpr & Hg & Hs & Hcl & Hmay & Hi1).
  destruct (Place_succeeds w id pr s placement target Hw Hpr Hg Hs Hcl Hmay ltac:(lia)) as (w' & pr' & HP' & _ & Hpr' & Hv & Hback & _).
  rewrite HP in HP'. injection HP' as <- ->.
  destruct (Place_spec limit Huu Hcf w id s placement target w1 _ Hw HP Hlim) as ([Hc1 _] & _).
  pose proof (Project_ok _ _ _ (co_sound _ _ Hc1) Hpr') as Hok'.
  pose proof (project_panes_NoDup _ _ (co_sound _ _ Hc1) (proj1 (Project_some _ _ _ Hpr'))) as Hnd.
  assert (Hin : (NewString (issued w), s) ∈ views (pr_Tabs pr')) by (rewrite Hv; by left).
  pose proof (split_target_views _ s pr' (jo_tabs _ Hok') Hnd Hin) as Ht. unfold DetachPane. rewrite Hpr'. unfold split_target in Ht.
  destruct (List.find _ (pr_Tabs pr')) as [t|]; [|done]. rewrite Ht. unfold Detach.
  destruct (removeSessionFromProject id s (layout w1)) as [l2 b] eqn:Hr.
  assert (Hl2 : Project l2 id = Some pr).
  { pose proof (Project_removed (layout w1) id id s) as H. rewrite Hr, String.eqb_refl, Hpr' in H. cbn in H. by rewrite Hback in H. }
  assert (b = true) as ->.
  { apply views_in in Hin as (u & Hu & [_ Hsu]%leaves_ids). unfold removeSessionFromProject in Hr. rewrite Hpr' in Hr. injection Hr as _ <-.
    destruct (snd (remove_from_tabs s (pr_Tabs pr'))) eqn:Hb; [done|]. destruct (remove_from_tabs_kept s _ Hb) as [_ Hno]. destruct Hno.
    apply list_elem_of_In, in_flat_map. exists u. by rewrite <- !list_elem_of_In. }
  rewrite Hpr. cbn [negb]. destruct (String.eqb_spec id DefaultProjectID) as [->|Hne]; eexists; (split; [reflexivity|]); [done|].
  by rewrite ensureDefault_other.
Qed.

End Views.

(** ** A concrete run *)

Module LayoutWitness.

#[local] Instance layout_case : UnicodeCase := latin_case.
#[local] Instance layout_format : UnicodeFormat := {| u_Cf r := (r =? 173)%N |}.

Definition hex_digit (n : nat) : ascii := match String.get n "0123456789abcdef" with Some c => c | None => "0"%char end.
Fixpoint hex_text (digits n : nat) : string :=
  match digits with O => "" | S d => hex_text d (n / 16) +:+ String (hex_digit (n mod 16)) "" end.

Definition hex_char (c : ascii) : bool := str_exists (Ascii.eqb c) "0123456789abcdef".
Fixpoint uuid_shape (i : nat) (text : string) : bool :=
  match text with
  | EmptyString => (i =? 36)%nat
  | String c rest => (if existsb (Nat.eqb i) [8; 13; 18; 23] then Ascii.eqb c "-" else hex_char c) && uuid_shape (S i) rest
  end.

#[local] Instance sample_uuids : UUIDs := {|
  uuid_Parse text := if uuid_shape 0 text then Some text else None;
  NewString n := "00000000-0000-4000-8000-" +:+ hex_text 12 n |}.

Lemma sample_good : uuids_good 32.
Proof.
  split.
  - assert (H : forallb (fun i => canonicalLayoutUUID (NewString i)) (seq 0 32) = true) by (vm_compute; reflexivity).
    intros i Hi. rewrite forallb_forall in H. apply H, in_seq. lia.
  - assert (H : NoDup (map NewString (seq 0 32))) by (apply (bool_decide_eq_true_1 _); vm_compute; reflexivity).
    intros i j Hi Hj He. apply (NoDup_lookup _ i j (NewString i) H); rewrite list_lookup_fmap, lookup_seq_lt by lia; [done|]. change (Some (NewString j) = Some (NewString i)). by rewrite He.
  - reflexivity.
Qed.

Lemma sample_ascii : forall r, (32 <= r < 127)%N -> u_Cf r = false.
Proof. intros r Hr. apply N.eqb_neq. lia. Qed.

Definition instance_id : string := "00000000-0000-4000-8000-0000000000ff".
Definition shell : SessionIdentity := mkIdentity instance_id "7K3ABC".
Definition agent : SessionIdentity := mkIdentity instance_id "9X2DEF".

(** Two sessions in a custom project, side by side, and a note. *)
Definition setup : list layout_op :=
  [ODiscover shell; ODiscover agent; OAddProject "work"; OPlace (NewString 4) shell PlaceNewTab "";
   OPlace (NewString 4) agent PlaceVertical (NewString 5); OPlaceNote (NewString 4); OMoveTab (NewString 4) (NewString 6) (NewString 10) false].
Definition ready : desk := layout_runs setup (mkDesk 0 NewProjectLayout).

Lemma layout_always_valid_witness : issued ready = 11 /\ Validate (layout ready) = Ok tt.
Proof. split; [vm_compute; reflexivity|]. apply (layout_always_valid 32 sample_good sample_ascii setup). apply Nat.leb_le. vm_compute. reflexivity. Defined.

Definition closing : list layout_op := [ODetach (NewString 4) shell; ODetach DefaultProjectID shell; ORemoveProject (NewString 4); ODestroy agent].

Lemma session_never_lost_witness :
  ProjectsFor shell (layout ready) = [NewString 4] /\ ProjectsFor shell (layout (layout_runs closing ready)) <> [].
Proof.
  split; [vm_compute; reflexivity|]. apply (session_never_lost 32 sample_good sample_ascii setup closing shell).
  - apply Nat.leb_le. vm_compute. reflexivity.
  - vm_compute. discriminate.
  - unfold closing. rewrite !not_elem_of_cons. split_and!; try discriminate. apply not_elem_of_nil.
Defined.

Lemma move_pane_succeeds_witness :
  PaneSession (NewString 4) (NewString 7) (layout ready) = Some agent
  /\ exists w', MovePane (NewString 4) (NewString 7) PlaceHorizontal (NewString 5) ready = (w', Ok (NewString 11))
  /\ (forall pane s', PaneSession (NewString 4) pane (layout w') = Some s' <->
        (pane = NewString 11 /\ s' = agent) \/ (pane <> NewString 7 /\ PaneSession (NewString 4) pane (layout ready) = Some s'))
  /\ (forall id', id' <> NewString 4 -> Project (layout w') id' = Project (layout ready) id')
  /\ SuppressedDefaultSessions (layout w') = SuppressedDefaultSessions (layout ready).
Proof.
  split; [vm_compute; reflexivity|].
  apply (move_pane_succeeds 32 sample_good sample_ascii setup (NewString 4) (NewString 7) (NewString 5) PlaceHorizontal agent).
  - vm_compute. reflexivity.
  - right. split; [by left|]. split; [vm_compute; discriminate|]. exists shell. vm_compute. reflexivity.
  - apply Nat.leb_le. vm_compute. reflexivity.
Defined.

Definition placed : desk := fst (Place DefaultProjectID (mkIdentity instance_id "AAAAAA") PlaceNewTab "" ready).

Lemma place_then_close_witness :
  exists w2, DetachPane DefaultProjectID (NewString 11) placed = (w2, Ok (mkIdentity instance_id "AAAAAA"))
  /\ Project (layout w2) DefaultProjectID = Project (layout ready) DefaultProjectID.
Proof.
  apply (place_then_close 32 sample_good sample_ascii setup DefaultProjectID PlaceNewTab "" (NewString 11) (mkIdentity instance_id "AAAAAA") placed).
  - vm_compute. reflexivity.
  - apply Nat.leb_le. vm_compute. reflexivity.
Defined.

End LayoutWitness.
