(* ===== verification/AdminAuth.v ===== *)
(** * Admin sessions: [internal/server/middleware/admin_auth.go]

    The signed session cookie of the admin console, its age and the session epoch
    that revokes it.  HMAC-SHA256 is the parameter [hmac]; the clock and whether the
    settings table can be read or written are arguments.  [http.Request] is reduced
    to what the code reads of it. *)

From S2P Require Import Prelude GoStrings GoMarshal GoStrconv.
Local Open Scope go_scope.
Local Open Scope Z_scope.

(** [hex.EncodeToString]. *)
Fixpoint EncodeToString (s : string) : string :=
  match s with
  | EmptyString => ""
  | String c s' => String (hex_digit (byteN c / 16)) (String (hex_digit (byteN c mod 16)) (EncodeToString s'))
  end.

Definition epochSettingKey : string := "session_epoch".
Definition sessionMaxAgeSecs : Z := 86400 * 7.
Definition pipe : ascii := "|".

(** [epochs] is nil, or the stored text of [session_epoch] ("" when unset). *)
Record AdminAuth := mkAuth { secret : string; epochs : option string }.

Definition NewAdminAuth (key : string) : AdminAuth := mkAuth key None.
Definition WithEpochStore (stored : string) (a : AdminAuth) : AdminAuth := mkAuth (secret a) (Some stored).

(** [readable]: [GetE] returns no error. *)
Definition Epoch (readable : bool) (a : AdminAuth) : option Z :=
  match epochs a with
  | None => Some 0
  | Some raw =>
      if negb readable then None
      else
        let raw := TrimSpace raw in
        if raw ==s "" then Some 0
        else match ParseInt raw with
             | Some n => if n <? 0 then None else Some n
             | None => None
             end
  end.

(** [writable]: [Set] returns no error. *)
Definition BumpEpoch (readable writable : bool) (a : AdminAuth) : AdminAuth * option Z :=
  match epochs a with
  | None => (a, Some 0)
  | Some _ =>
      match Epoch readable a with
      | None => (a, None)
      | Some cur =>
          let n := i64 (cur + 1) in
          if writable then (mkAuth (secret a) (Some (int_text n)), Some n) else (a, None)
      end
  end.

Record Cookie := mkCookie {
  ck_Name : string;
  ck_Value : string;
  ck_Path : string;
  ck_HttpOnly : bool;
  ck_Secure : bool;
  ck_SameSite : string;
  ck_MaxAge : Z }.

(** What the code reads of a request: TLS and the forwarded protocol. *)
Record request := mkRequest { rq_tls : bool; rq_forwarded : string }.

Section Auth.
Context (hmac : string -> string -> string).

Definition sign (a : AdminAuth) (data : string) : string := EncodeToString (hmac (secret a) data).

Definition session_data (username : string) (ts epoch : Z) : string :=
  username +:+ String pipe (int_text ts +:+ String pipe (int_text epoch)).

Definition issueSession (username : string) (r : request) (ts epoch : Z) (a : AdminAuth) : Cookie :=
  let data := session_data username ts epoch in
  let value := data +:+ String pipe (sign a data) in
  mkCookie "duckway_session" value "/" true (rq_tls r || (rq_forwarded r ==s "https")) "Lax" (86400 * 7).

Definition IssueSession (username : string) (r : request) (now : Z) (readable : bool) (a : AdminAuth) : option Cookie :=
  match Epoch readable a with
  | None => None
  | Some epoch => Some (issueSession username r now epoch a)
  end.

Definition CreateSession (username : string) (r : request) (now : Z) (readable : bool) (a : AdminAuth) : Cookie :=
  match IssueSession username r now readable a with
  | Some c => c
  | None => issueSession username r now (-1) a
  end.

(** The parts of a cookie value: user, time, epoch, signed data and signature. *)
Definition session_parts (value : string) : option (string * string * Z * string * string) :=
  match Split value pipe with
  | [p0; p1; p2] => Some (p0, p1, 0, p0 +:+ String pipe p1, p2)
  | [p0; p1; p2; p3] =>
      match ParseInt p2 with
      | Some n => if n <? 0 then None else Some (p0, p1, n, p0 +:+ String pipe (p1 +:+ String pipe p2), p3)
      | None => None
      end
  | _ => None
  end.

Definition validateSession (value : string) (now : Z) (readable : bool) (a : AdminAuth) : option string :=
  match session_parts value with
  | None => None
  | Some (username, tstext, epoch, data, sig) =>
      if negb (sig ==s sign a data) then None
      else
        match ParseInt tstext with
        | None => None
        | Some ts =>
            if sessionMaxAgeSecs <? i64 (now - ts) then None
            else
              match Epoch readable a with
              | Some current => if epoch =? current then Some username else None
              | None => None
              end
        end
  end.

(** The answer of the middleware: the request goes on as a user, or is turned away. *)
Inductive auth_answer := Serve (username : string) | RedirectLogin | Unauthorized.

Definition unauthorized (path : string) : auth_answer := if HasPrefix path "/admin/" then RedirectLogin else Unauthorized.

Definition Middleware (path : string) (cookie : option string) (now : Z) (readable : bool) (a : AdminAuth) : auth_answer :=
  match cookie with
  | None => unauthorized path
  | Some value =>
      match validateSession value now readable a with
      | Some username => Serve username
      | None => unauthorized path
      end
  end.

Definition SessionUser (cookie : option string) (now : Z) (readable : bool) (a : AdminAuth) : option string :=
  match cookie with None => None | Some value => validateSession value now readable a end.

(** ** Runs *)

(** What the server does with sessions: a login, and the revocation of all sessions. *)
Inductive auth_op :=
| OIssue (username : string) (r : request) (now : Z) (readable : bool)
| OBump (readable writable : bool).

(** The state, and the data signed so far. *)
Record server := mkServer { sv_auth : AdminAuth; sv_signed : list string }.

Definition auth_run (o : auth_op) (w : server) : server :=
  match o with
  | OIssue username r now readable =>
      match Epoch readable (sv_auth w) with
      | None => w
      | Some epoch => mkServer (sv_auth w) (session_data username now epoch :: sv_signed w)
      end
  | OBump readable writable => mkServer (fst (BumpEpoch readable writable (sv_auth w))) (sv_signed w)
  end.

Definition auth_runs (os : list auth_op) (w : server) : server := fold_left (fun w o => auth_run o w) os w.

End Auth.

(** ** Lemmas on text *)

Definition plain_char (c : ascii) : bool := ((48 <=? byteN c)%N && (byteN c <=? 57)%N) || (c ==c "-").

Lemma int_text_plain (n : Z) : str_forall plain_char (int_text n) = true.
Proof.
  unfold int_text. rewrite str_forall_app. apply andb_true_iff. split; [by destruct (n <? 0)|].
  pose proof (dec_text_plain 20 (Z.abs_N n)) as H. revert H. generalize (dec_text 20 (Z.abs_N n)). intros s.
  induction s as [|c s IH]; cbn [str_forall]; [done|]. rewrite !andb_true_iff. intros [Hc Hs]. split; [|by apply IH].
  unfold plain_char. apply orb_true_iff. left. by apply andb_true_iff.
Qed.

Lemma plain_no_pipe (s : string) : str_forall plain_char s = true -> ContainsByte s pipe = false.
Proof.
  induction s as [|c s IH]; [done|]. cbn [str_forall]. rewrite andb_true_iff, ContainsByte_cons. intros [Hc Hs].
  rewrite IH, orb_false_r by done. apply Ascii.eqb_neq. intros <-. done.
Qed.

Lemma hex_no_pipe (s : string) : ContainsByte (EncodeToString s) pipe = false.
Proof.
  assert (Hd : forall n, (n < 16)%N -> (pipe ==c hex_digit n) = false).
  { intros n Hn. apply Ascii.eqb_neq. unfold hex_digit. intros H. apply (f_equal byteN) in H. unfold byteN, Nbyte in H.
    destruct (N.ltb_spec n 10); rewrite N_ascii_embedding in H by lia; cbn in H; lia. }
  induction s as [|c s IH]; [done|]. cbn [EncodeToString]. rewrite !ContainsByte_cons, IH.
  assert (Hc : (byteN c < 256)%N) by apply N_ascii_bounded. rewrite !Hd; [done|by apply N.mod_lt|]. by apply N.Div0.div_lt_upper_bound.
Qed.

Lemma plain_not_space (e : string) : e ∈ space_encs -> str_forall plain_char e = false.
Proof.
  assert (H : forallb (fun e => negb (str_forall plain_char e)) space_encs = true) by (vm_compute; reflexivity).
  rewrite forallb_forall in H. intros He%list_elem_of_In. by apply negb_true_iff, H.
Qed.

Lemma TrimSpace_plain (s : string) : str_forall plain_char s = true -> TrimSpace s = s.
Proof.
  intros Hs.
  assert (Hp : strip_space_prefix s = None).
  { unfold strip_space_prefix. destruct (List.find _ _) as [e|] eqn:He; [|done]. apply find_some in He as [Hin H].
    apply HasPrefix_spec in H as [t ->]. rewrite str_forall_app, (plain_not_space e) in Hs by by apply list_elem_of_In. done. }
  assert (Hq : strip_space_suffix s = None).
  { unfold strip_space_suffix. destruct (List.find _ _) as [e|] eqn:He; [|done]. apply find_some in He as [Hin H].
    apply HasSuffix_spec in H as [t ->]. rewrite str_forall_app, (plain_not_space e), andb_false_r in Hs by by apply list_elem_of_In. done. }
  unfold TrimSpace, TrimLeftSpace, TrimRightSpace. assert (Hl : forall n, iter_strip strip_space_prefix n s = s) by (intros [|n]; cbn; by rewrite ?Hp).
  assert (Hr : forall n, iter_strip strip_space_suffix n s = s) by (intros [|n]; cbn; by rewrite ?Hq). by rewrite Hl, Hr.
Qed.

(** The epoch after a bump is the next one, or unreadable if there is none. *)
Lemma Epoch_int_text (key : string) (n : Z) : - 2 ^ 63 <= n < 2 ^ 63 ->
  Epoch true (mkAuth key (Some (int_text n))) = if n <? 0 then None else Some n.
Proof.
  intros Hn. unfold Epoch. cbn [epochs negb]. rewrite TrimSpace_plain by apply int_text_plain.
  assert (Hne : int_text n ==s "" = false).
  { apply String.eqb_neq. unfold int_text. pose proof (dec_text_nonempty 19 (Z.abs_N n)).
    destruct (n <? 0); [by rewrite str_app_cons|by rewrite str_app_nil_l]. }
  rewrite Hne, ParseInt_int_text by done. done.
Qed.

Lemma app_two_three {A} (l : list A) (x y a b c : A) : l ++ [x; y] = [a; b; c] -> l = [a] /\ x = b /\ y = c.
Proof. destruct l as [|p [|q [|]]]; cbn; intros H; simplify_eq; try done. by destruct l. Qed.

Section Soundness.
Context (hmac : string -> string -> string).
Implicit Types (w : server) (a : AdminAuth).

(** HMAC cannot be forged: the value carries the signature of some data only if
    the server signed that data. *)
Definition only_signed w (value : string) : Prop :=
  forall data sig, value = data +:+ String pipe sig -> sig = sign hmac (sv_auth w) data -> data ∈ sv_signed w.

(** Data of a cookie from before epochs existed. *)
Definition legacy_data (data : string) : Prop := length (Split data pipe) = 2%nat.

Definition clock_ok (o : auth_op) : Prop := match o with OIssue _ _ now _ => - 2 ^ 63 <= now < 2 ^ 63 | OBump _ _ => True end.

Lemma split_three (v p0 p1 p2 : string) : Split v pipe = [p0; p1; p2] -> v = (p0 +:+ String pipe p1) +:+ String pipe p2.
Proof. intros H. rewrite <- (Join_Split v pipe), H. cbn [Join]. by rewrite <- str_app_assoc, str_app_cons. Qed.

Lemma split_four (v p0 p1 p2 p3 : string) : Split v pipe = [p0; p1; p2; p3] ->
  v = (p0 +:+ String pipe (p1 +:+ String pipe p2)) +:+ String pipe p3.
Proof. intros H. rewrite <- (Join_Split v pipe), H. cbn [Join]. by rewrite <- str_app_assoc, str_app_cons, <- str_app_assoc, str_app_cons. Qed.

Lemma split_part (s : string) (ps : list string) (p : string) : Split s pipe = ps -> p ∈ ps -> Split p pipe = [p].
Proof.
  intros <- Hp. apply Split_no_sep. pose proof (Split_parts_no_sep s pipe) as H. by eapply Forall_forall in H.
Qed.

(** What acceptance says: the value is signed data that names the user, a time not
    too long ago and the current epoch. *)
Lemma accepted_data (v : string) (now : Z) (readable : bool) w (u : string) :
  only_signed w v -> validateSession hmac v now readable (sv_auth w) = Some u ->
  exists data current, data ∈ sv_signed w /\ Epoch readable (sv_auth w) = Some current
  /\ ((current = 0 /\ legacy_data data)
      \/ exists tstext etext ts, Split data pipe = [u; tstext; etext] /\ ParseInt tstext = Some ts /\ ParseInt etext = Some current
           /\ i64 (now - ts) <= sessionMaxAgeSecs).
Proof.
  intros Hsigned. unfold validateSession. destruct (session_parts v) as [[[[[user tstext] epoch] data] sig]|] eqn:Hparts; [|done].
  destruct (String.eqb_spec sig (sign hmac (sv_auth w) data)) as [Hsig|]; [|done]. cbn [negb].
  destruct (ParseInt tstext) as [ts|] eqn:Hts; [|done]. destruct (Z.ltb_spec sessionMaxAgeSecs (i64 (now - ts))) as [|Hage]; [done|].
  destruct (Epoch readable (sv_auth w)) as [current|]; [|done]. destruct (Z.eqb_spec epoch current) as [<-|]; [|done].
  intros [= <-]. exists data, epoch. unfold session_parts in Hparts.
  destruct (Split v pipe) as [|p0 [|p1 [|p2 [|p3 [|]]]]] eqn:Hv; try done.
  - injection Hparts as -> -> <- <- ->. split; [|split; [done|left]].
    + apply (Hsigned _ sig); [by apply split_three|done].
    + split; [done|]. unfold legacy_data. rewrite Split_app, (split_part v _ user Hv), (split_part v _ tstext Hv); [done|set_solver|set_solver].
  - destruct (ParseInt p2) as [n|] eqn:Hn; [|done]. destruct (n <? 0); [done|]. injection Hparts as -> -> -> <- ->. split; [|split; [done|right]].
    + apply (Hsigned _ sig); [by apply split_four|done].
    + exists tstext, p2, ts. split_and!; auto.
      rewrite !Split_app, (split_part v _ user Hv), (split_part v _ tstext Hv), (split_part v _ p2 Hv); [done|set_solver..].
Qed.

Lemma Split_session_data (u : string) (ts e : Z) : Split (session_data u ts e) pipe = Split u pipe ++ [int_text ts; int_text e].
Proof.
  unfold session_data. rewrite !Split_app, !(Split_no_sep (int_text _)); [done|apply plain_no_pipe, int_text_plain..].
Qed.

Lemma Epoch_readable (readable : bool) a c : Epoch readable a = Some c -> Epoch true a = Some c.
Proof. unfold Epoch. destruct (epochs a); [|done]. by destruct readable. Qed.

Lemma ParseInt_range (s : string) (n : Z) : ParseInt s = Some n -> - 2 ^ 63 <= n < 2 ^ 63.
Proof.
  unfold ParseInt. intros H. repeat case_hyp H; simplify_eq;
    repeat match goal with Hb : _ && _ = true |- _ => apply andb_true_iff in Hb as [?%Z.leb_le ?%Z.ltb_lt] end; lia.
Qed.

Lemma Epoch_range (readable : bool) a c : Epoch readable a = Some c -> 0 <= c < 2 ^ 63.
Proof.
  unfold Epoch. intros H. destruct (epochs a) as [raw|]; [|simplify_eq; lia]. destruct readable; [|done]. cbn [negb] in H.
  destruct (TrimSpace raw ==s ""); [simplify_eq; lia|]. destruct (ParseInt (TrimSpace raw)) as [n|] eqn:Hn; [|done].
  apply ParseInt_range in Hn. destruct (Z.ltb_spec n 0); simplify_eq. lia.
Qed.

Lemma i64_next (c : Z) : 0 <= c < 2 ^ 63 -> (i64 (c + 1) = c + 1 /\ c + 1 < 2 ^ 63) \/ i64 (c + 1) = - 2 ^ 63.
Proof.
  intros H. unfold i64. destruct (Z.eq_dec c (2 ^ 63 - 1)) as [->|]; [by right|left]. rewrite Z.mod_small by lia. lia.
Qed.

(** A bump moves the epoch past the current one; at the last epoch there is none
    left and every session is refused from then on. *)
Lemma BumpEpoch_next (readable writable : bool) a c' :
  epochs a <> None -> Epoch true (fst (BumpEpoch readable writable a)) = Some c' ->
  epochs (fst (BumpEpoch readable writable a)) <> None
  /\ (Epoch true a = Some c' \/ exists c, Epoch true a = Some c /\ c' = c + 1).
Proof.
  intros Hs. unfold BumpEpoch. destruct (epochs a) as [raw|] eqn:Hraw; [|done].
  destruct (Epoch readable a) as [c|] eqn:Hc; cbn [fst]; [|rewrite Hraw; auto]. pose proof (Epoch_range _ _ _ Hc) as Hr. apply Epoch_readable in Hc.
  destruct writable; cbn [fst]; [|rewrite Hraw; auto]. intros He. split; [done|]. right. exists c. split; [done|].
  destruct (i64_next c Hr) as [[Hi ?]|Hi]; rewrite Hi, Epoch_int_text in He by lia; [|done]. destruct (Z.ltb_spec (c + 1) 0); simplify_eq. lia.
Qed.

Lemma bump_unreadable (readable writable : bool) a : epochs a <> None -> Epoch true a = None ->
  fst (BumpEpoch readable writable a) = a.
Proof.
  intros Hs He. unfold BumpEpoch. destruct (epochs a); [|done]. destruct (Epoch readable a) as [c|] eqn:Hc; [|done].
  apply Epoch_readable in Hc. congruence.
Qed.

Definition at_least (k : Z) a : Prop := epochs a <> None /\ forall c, Epoch true a = Some c -> k <= c.

Lemma bump_at_least k (readable writable : bool) a : at_least k a -> at_least k (fst (BumpEpoch readable writable a)).
Proof.
  intros [Hs Hk]. destruct (Epoch true a) as [c0|] eqn:He; [|rewrite bump_unreadable by done; split; [done|]; by rewrite He].
  split.
  - unfold BumpEpoch. destruct (epochs a) eqn:Hr; [|done]. destruct (Epoch readable a); [|cbn; congruence]. destruct writable; cbn; congruence.
  - intros c' Hc'. destruct (BumpEpoch_next _ _ _ _ Hs Hc') as [_ [H|(c & H & ->)]]; rewrite He in H; specialize (Hk c0 eq_refl); simplify_eq; lia.
Qed.

(** Data the server signed in a run, with the epoch of its cookie. *)
Definition signed_in (os : list auth_op) (k : Z) (data : string) : Prop :=
  exists u r ts readable e, OIssue u r ts readable ∈ os /\ data = session_data u ts e /\ k <= e < 2 ^ 63.

Lemma runs_signed (os : list auth_op) w k : at_least k (sv_auth w) ->
  at_least k (sv_auth (auth_runs os w))
  /\ forall data, data ∈ sv_signed (auth_runs os w) -> data ∈ sv_signed w \/ signed_in os k data.
Proof.
  revert w. induction os as [|o os IH]; intros w Hw; [by split; [|left]|].
  assert (Ho : at_least k (sv_auth (auth_run o w)) /\ forall data, data ∈ sv_signed (auth_run o w) -> data ∈ sv_signed w \/ signed_in [o] k data).
  { destruct o as [u r ts readable|readable writable]; cbn [auth_run].
    - destruct (Epoch readable (sv_auth w)) as [e|] eqn:He; cbn; [|split; [done|by left]]. split; [done|].
      intros data [->|Hin]%elem_of_cons; [right|by left]. exists u, r, ts, readable, e. split_and!; [by left|done| |].
      + apply (proj2 Hw). by apply Epoch_readable in He.
      + by apply Epoch_range in He as [_ ?].
    - cbn. split; [by apply bump_at_least|by left]. }
  destruct Ho as [Ha Hd]. destruct (IH _ Ha) as [Hb Hc]. split; [done|]. intros data Hin.
  assert (Hmono : forall os1 os2 : list auth_op, (forall x, x ∈ os1 -> x ∈ os2) -> signed_in os1 k data -> signed_in os2 k data).
  { intros os1 os2 Hsub (u & r & ts & rd & e & Hi & ? & ?). exists u, r, ts, rd, e. auto. }
  destruct (Hc data Hin) as [H|H]; [destruct (Hd data H) as [?|?]; [by left|right]|right].
  - apply (Hmono [o]); [|done]. set_solver.
  - apply (Hmono os); [|done]. set_solver.
Qed.

(** Every cookie signed so far is of the current epoch or an earlier one. *)
Definition dated w : Prop := forall data, data ∈ sv_signed w -> legacy_data data \/
  exists u ts e, data = session_data u ts e /\ e < 2 ^ 63 /\ 0 <= e /\ forall c, Epoch true (sv_auth w) = Some c -> e <= c.

Lemma runs_dated (os : list auth_op) w : epochs (sv_auth w) <> None -> dated w -> dated (auth_runs os w) /\ epochs (sv_auth (auth_runs os w)) <> None.
Proof.
  revert w. induction os as [|o os IH]; intros w Hs Hd; [done|]. apply IH.
  - destruct o as [u r ts rd|rd wr]; cbn; [by destruct (Epoch rd (sv_auth w))|].
    destruct (bump_at_least 0 rd wr (sv_auth w)) as [? _]; [|done]. split; [done|]. intros c Hc. by apply Epoch_range in Hc as [? _].
  - destruct o as [u r ts rd|rd wr]; cbn [auth_run].
    + destruct (Epoch rd (sv_auth w)) as [e|] eqn:He; [|done]. intros data [->|Hin]%elem_of_cons; [right|by apply Hd]. cbn [sv_auth].
      pose proof (Epoch_range _ _ _ He). apply Epoch_readable in He. exists u, ts, e. split_and!; [done|lia|lia|]. intros c Hc. rewrite He in Hc. by simplify_eq.
    + intros data Hin. cbn in Hin. destruct (Hd data Hin) as [?|(u & ts & e & -> & He & H0 & Hc)]; [by left|right]. exists u, ts, e. split_and!; auto.
      cbn. intros c' Hc'. destruct (BumpEpoch_next _ _ _ _ Hs Hc') as [_ [H|(c & H & ->)]]; [by apply Hc|]. specialize (Hc c H). lia.
Qed.

(** C19. Revoking all sessions works: once [BumpEpoch] has succeeded, a cookie is only
    accepted if the server issued it to that user after the bump and less than seven
    days ago, whatever was issued before, old cookies without an epoch
    included.  The presented value is arbitrary, except that signatures cannot be
    forged. *)
Theorem bump_revokes_sessions (key stored : string) (legacy : list string) (before after : list auth_op)
    (value : string) (now : Z) (readable : bool) (u : string) :
  let start := mkServer (WithEpochStore stored (NewAdminAuth key)) legacy in
  let w := auth_runs (before ++ OBump true true :: after) start in
  Forall legacy_data legacy ->
  Forall clock_ok after ->
  Epoch true (sv_auth (auth_runs before start)) <> None ->
  only_signed w value ->
  validateSession hmac value now readable (sv_auth w) = Some u ->
  exists r ts rd, OIssue u r ts rd ∈ after /\ i64 (now - ts) <= sessionMaxAgeSecs.
Proof.
  intros start w Hleg Hclock He Hsigned Hval.
  destruct (runs_dated before start) as [Hd Hs]; [done|intros data Hin; left; by eapply Forall_forall in Hleg|].
  set (w1 := auth_runs before start) in *. destruct (Epoch true (sv_auth w1)) as [c|] eqn:Hc; [|done]. pose proof (Epoch_range _ _ _ Hc) as Hcr.
  assert (Hw : w = auth_runs after (auth_run (OBump true true) w1)) by (unfold w, auth_runs; by rewrite fold_left_app).
  assert (Hal : at_least (c + 1) (sv_auth (auth_run (OBump true true) w1))).
  { cbn. unfold BumpEpoch. destruct (epochs (sv_auth w1)) as [raw|] eqn:Hraw; [|done]. rewrite Hc. cbn [fst]. split; [done|]. intros c' Hc'.
    destruct (i64_next c Hcr) as [[Hi ?]|Hi]; rewrite Hi, Epoch_int_text in Hc' by lia; [|done]. destruct (Z.ltb_spec (c + 1) 0); simplify_eq. lia. }
  destruct (runs_signed after _ _ Hal) as [[_ Hk] Hin]. rewrite <- Hw in Hk, Hin.
  destruct (accepted_data value now readable w u Hsigned Hval) as (data & cur & Hdata & Hcur & Hcase).
  apply Epoch_readable in Hcur. specialize (Hk cur Hcur).
  destruct Hcase as [[-> _]|(tstext & etext & ts & Hsp & Hts & Het & Hage)]; [lia|].
  destruct (Hin data Hdata) as [Hold|(u' & r & ts' & rd & e & Hop & -> & Hke)].
  - exfalso. cbn in Hold. destruct (Hd data Hold) as [Hl|(u' & ts' & e & -> & He1 & He0 & Hle)].
    + unfold legacy_data in Hl. by rewrite Hsp in Hl.
    + rewrite Split_session_data in Hsp. apply (f_equal (fun l => last l)) in Hsp. rewrite last_app in Hsp. cbn in Hsp. injection Hsp as <-.
      rewrite ParseInt_int_text in Het by lia. simplify_eq. specialize (Hle c Hc). lia.
  - rewrite Split_session_data in Hsp. apply app_two_three in Hsp as (Hu & <- & <-).
    assert (Hu' : u' = u) by (rewrite <- (Join_Split u' pipe), Hu; done). subst u'. eapply Forall_forall in Hclock; [|done]. cbn in Hclock.
    rewrite ParseInt_int_text in Hts by done. simplify_eq. eauto.
Qed.

(** The cookie of a login opens the console: for a user name without the
    separator, a cookie issued at the current epoch is accepted as that user for
    seven days, until the epoch changes. *)
Theorem issued_session_accepted (u : string) (r : request) (ts now : Z) (a : AdminAuth) (c : Cookie) (path : string) :
  ContainsByte u pipe = false ->
  0 <= ts -> ts <= now <= ts + sessionMaxAgeSecs -> now < 2 ^ 63 ->
  IssueSession hmac u r ts true a = Some c ->
  Middleware hmac path (Some (ck_Value c)) now true a = Serve u.
Proof.
  intros Hu Hts Hnow Hlim. unfold IssueSession. destruct (Epoch true a) as [e|] eqn:He; [|done]. intros [= <-].
  pose proof (Epoch_range _ _ _ He) as Her. cbn [issueSession ck_Value Middleware]. unfold sessionMaxAgeSecs in *.
  set (data := session_data u ts e).
  assert (Hsp : Split (data +:+ String pipe (sign hmac a data)) pipe = [u; int_text ts; int_text e; sign hmac a data]).
  { rewrite Split_app. unfold data at 1. rewrite Split_session_data, Split_no_sep, (Split_no_sep (sign hmac a data)) by (done || apply hex_no_pipe). done. }
  assert (Hdata : u +:+ String pipe (int_text ts +:+ String pipe (int_text e)) = data) by done.
  unfold Middleware, validateSession, session_parts. rewrite Hsp, ParseInt_int_text by lia.
  destruct (Z.ltb_spec e 0); [lia|]. rewrite Hdata, String.eqb_refl. cbn [negb]. rewrite ParseInt_int_text by lia.
  assert (Hage : i64 (now - ts) = now - ts) by (unfold i64; rewrite Z.mod_small; lia). rewrite Hage.
  destruct (Z.ltb_spec sessionMaxAgeSecs (now - ts)); [unfold sessionMaxAgeSecs in *; lia|]. by rewrite He, Z.eqb_refl.
Qed.

End Soundness.

Module AuthWitness.

(** A stand-in for HMAC that tells data apart; only cookies of the run are presented. *)
Definition mac (key data : string) : string := key +:+ data.
Definition browser : request := mkRequest true "".
Definition before : list auth_op := [OIssue "alice" browser 100 true].
Definition after : list auth_op := [OIssue "bob" browser 200 true].
Definition old : string := "carol|50".
Definition start : server := mkServer (WithEpochStore "" (NewAdminAuth "k")) [old].
Definition now_server : server := auth_runs (before ++ OBump true true :: after) start.
Definition bob_cookie : string := match IssueSession mac "bob" browser 200 true (sv_auth now_server) with Some c => ck_Value c | None => "" end.

Lemma bob_only_signed : only_signed mac now_server bob_cookie.
Proof.
  intros data sig Hv Hs.
  assert (Hp : Split bob_cookie pipe = Split data pipe ++ Split sig pipe) by (by rewrite Hv, Split_app).
  assert (Hsig : Split sig pipe = [sig]) by (apply Split_no_sep; rewrite Hs; apply hex_no_pipe).
  rewrite Hsig in Hp. assert (Hb : Split bob_cookie pipe = ["bob"; "200"; "1"; "6b626f627c3230307c31"]) by (vm_compute; reflexivity).
  rewrite Hb in Hp. change (["bob"; "200"; "1"] ++ ["6b626f627c3230307c31"] = Split data pipe ++ [sig]) in Hp.
  apply app_inj_tail in Hp as [Hd _].
  rewrite <- (Join_Split data pipe), <- Hd. 
  assert (Hsg : sv_signed now_server = ["bob|200|1"; "alice|100|0"; old]) by (vm_compute; reflexivity). rewrite Hsg. by left.
Qed.

Lemma bump_revokes_sessions_witness :
  validateSession mac bob_cookie 1000 true (sv_auth now_server) = Some "bob"
  /\ exists r ts rd, OIssue "bob" r ts rd ∈ after /\ i64 (1000 - ts) <= sessionMaxAgeSecs.
Proof.
  split; [vm_compute; reflexivity|].
  apply (bump_revokes_sessions mac "k" "" [old] before after bob_cookie 1000 true "bob").
  - repeat constructor.
  - repeat constructor; vm_compute; congruence.
  - vm_compute. discriminate.
  - exact bob_only_signed.
  - vm_compute. reflexivity.
Defined.

Lemma issued_session_accepted_witness :
  Middleware mac "/admin/keys" (Some bob_cookie) 604000 true (sv_auth now_server) = Serve "bob".
Proof.
  apply (issued_session_accepted mac "bob" browser 200 604000 (sv_auth now_server)
           (issueSession mac "bob" browser 200 1 (sv_auth now_server)) "/admin/keys"); vm_compute; try reflexivity; try (split; congruence); congruence.
Defined.

(** A user name with the separator never gets in. *)
Example piped_user :
  option_map (fun c => Middleware mac "/api" (Some (ck_Value c)) 200 true (sv_auth now_server))
    (IssueSession mac "a|b" browser 200 true (sv_auth now_server)) = Some Unauthorized.
Proof. vm_compute. reflexivity. Qed.

End AuthWitness.
