(* ===== verification/EventsHub.v ===== *)
(** * The live event hub: [internal/server/events/hub.go]

    Subscribers of the admin console's event stream, with limits and one pending
    event for each topic.  The critical sections of the code are the steps: a
    publisher takes the list of subscribers and then pushes to each in turn, a push
    stores the event and then signals, a reader takes what is pending or waits,
    closing marks the subscription and then leaves the hub.  Steps of different
    goroutines interleave freely; the one reader of a subscription is its stream
    handler.  A subscription pointer is a number.  [sb_log] and [sb_signals] record
    what was pushed since the last take and the signals still to be sent: the
    program counter of a pusher and a history variable. *)

From S2P Require Import Prelude.
Local Open Scope go_scope.

Record Event := mkEvent { ev_Topic : string; ev_Data : string }.

Record Limits := mkLimits { MaxSubscribers : nat; MaxPerSession : nat; MaxPerUser : nat }.
Definition DefaultLimits : Limits := mkLimits 64 8 16.

Inductive hub_error := ErrNoSession | ErrClosed | ErrTooManySubscribers | ErrSessionLimit | ErrUserLimit.

(** Where the reader of a subscription is: not in [Next], about to take, or waiting. *)
Inductive reader := RIdle | RTake | RWait.

Record Subscription := mkSub {
  sb_session : string;
  sb_user : string;
  sb_notify : bool;
  sb_done : bool;
  sb_pending : gmap string Event;
  sb_order : list string;
  sb_reader : reader;
  sb_signals : nat;
  sb_log : list Event }.

Record Hub := mkHub {
  h_limits : Limits;
  h_subs : gset nat;
  h_bySession : gmap string nat;
  h_byUser : gmap string nat;
  h_closed : bool }.

(** The hub, every subscription ever made, the pushes still to be made and the
    subscriptions that are closed but have not left the hub. *)
Record stream := mkStream {
  st_hub : Hub;
  st_table : gmap nat Subscription;
  st_next : nat;
  st_pushes : list (nat * Event);
  st_leaving : list nat;
  st_active : list bool }.

Definition positive_or (n d : Z) : nat := if (n <=? 0)%Z then Z.to_nat d else Z.to_nat n.

Definition NewHub (maxSubscribers maxPerSession maxPerUser : Z) : Hub :=
  mkHub (mkLimits (positive_or maxSubscribers 64) (positive_or maxPerSession 8) (positive_or maxPerUser 16)) ∅ ∅ ∅ false.

Definition new_stream (h : Hub) : stream := mkStream h ∅ 0 [] [] [].

Definition count0 (m : gmap string nat) (k : string) : nat := default 0 (m !! k).

Definition set_hub (h : Hub) (w : stream) : stream :=
  mkStream h (st_table w) (st_next w) (st_pushes w) (st_leaving w) (st_active w).
Definition set_sub (i : nat) (s : Subscription) (w : stream) : stream :=
  mkStream (st_hub w) (<[i := s]> (st_table w)) (st_next w) (st_pushes w) (st_leaving w) (st_active w).

Definition SubscribeUser (session user : string) (w : stream) : stream * (hub_error + nat) :=
  let h := st_hub w in
  if session ==s "" then (w, inl ErrNoSession)
  else if h_closed h then (w, inl ErrClosed)
  else if (MaxSubscribers (h_limits h) <=? size (h_subs h))%nat then (w, inl ErrTooManySubscribers)
  else if (MaxPerSession (h_limits h) <=? count0 (h_bySession h) session)%nat then (w, inl ErrSessionLimit)
  else if (user !=s "") && (MaxPerUser (h_limits h) <=? count0 (h_byUser h) user)%nat then (w, inl ErrUserLimit)
  else
    let i := st_next w in
    let subs := {[i]} ∪ h_subs h in
    let h' := mkHub (h_limits h) subs
                (<[session := S (count0 (h_bySession h) session)]> (h_bySession h))
                (if user !=s "" then <[user := S (count0 (h_byUser h) user)]> (h_byUser h) else h_byUser h) (h_closed h) in
    let first := (size subs =? 1)%nat in
    (mkStream h' (<[i := mkSub session user false false ∅ [] RIdle 0 []]> (st_table w)) (S i) (st_pushes w) (st_leaving w)
       (if first then st_active w ++ [true] else st_active w), inr i).

Definition Subscribe (session : string) (w : stream) : stream * (hub_error + nat) := SubscribeUser session "" w.

(** [Publish]: the snapshot of the subscribers; the pushes follow as steps. *)
Definition Publish (ev : Event) (w : stream) : stream :=
  mkStream (st_hub w) (st_table w) (st_next w)
    (st_pushes w ++ map (fun i => (i, ev)) (elements (h_subs (st_hub w)))) (st_leaving w) (st_active w).

Definition Subscribers (w : stream) : nat := size (h_subs (st_hub w)).

(** The locked part of [push]; its signal is still to be sent. *)
Definition push_locked (ev : Event) (s : Subscription) : Subscription :=
  mkSub (sb_session s) (sb_user s) (sb_notify s) (sb_done s) (<[ev_Topic ev := ev]> (sb_pending s))
    (if bool_decide (is_Some (sb_pending s !! ev_Topic ev)) then sb_order s else sb_order s ++ [ev_Topic ev])
    (sb_reader s) (S (sb_signals s)) (sb_log s ++ [ev]).

(** Its non-blocking send: the channel has room for one. *)
Definition push_signal (s : Subscription) : Subscription :=
  mkSub (sb_session s) (sb_user s) true (sb_done s) (sb_pending s) (sb_order s) (sb_reader s) (sb_signals s - 1) (sb_log s).

Definition take_events (s : Subscription) : list Event := omap (fun t => sb_pending s !! t) (sb_order s).

Definition take_sub (r : reader) (s : Subscription) : Subscription :=
  match sb_order s with
  | [] => mkSub (sb_session s) (sb_user s) (sb_notify s) (sb_done s) (sb_pending s) (sb_order s) r (sb_signals s) (sb_log s)
  | _ => mkSub (sb_session s) (sb_user s) (sb_notify s) (sb_done s) ∅ [] r (sb_signals s) []
  end.

Definition set_reader (r : reader) (s : Subscription) : Subscription :=
  mkSub (sb_session s) (sb_user s) (sb_notify s) (sb_done s) (sb_pending s) (sb_order s) r (sb_signals s) (sb_log s).

Definition set_wake (s : Subscription) : Subscription :=
  mkSub (sb_session s) (sb_user s) false (sb_done s) (sb_pending s) (sb_order s) RTake (sb_signals s) (sb_log s).

Definition set_done (s : Subscription) : Subscription :=
  mkSub (sb_session s) (sb_user s) (sb_notify s) true (sb_pending s) (sb_order s) (sb_reader s) (sb_signals s) (sb_log s).

(** What [Next] gives back. *)
Inductive next_answer := Delivered (evs : list Event) | Ended (evs : list Event) | NotYet.

(** The steps of [Next]: called, one round of its loop, and the three cases of its select. *)
Inductive next_step := NCall | NTake | NWake | NDone | NCancel.

Definition Next (k : next_step) (s : Subscription) : option (Subscription * next_answer) :=
  match k, sb_reader s with
  | NCall, RIdle => Some (set_reader RTake s, NotYet)
  | NTake, RTake =>
      match take_events s with
      | [] => Some (take_sub RWait s, NotYet)
      | evs => Some (take_sub RIdle s, Delivered evs)
      end
  | NWake, RWait => if sb_notify s then Some (set_wake s, NotYet) else None
  | NDone, RWait => if sb_done s then Some (take_sub RIdle s, Ended (take_events s)) else None
  | NCancel, RWait => Some (set_reader RIdle s, Ended [])
  | _, _ => None
  end.

Definition decrement (m : gmap string nat) (k : string) : gmap string nat :=
  if (count0 m k <=? 1)%nat then delete k m else <[k := (count0 m k - 1)%nat]> m.

(** The locked part of [Close] of a subscription. *)
Definition leave_hub (i : nat) (s : Subscription) (h : Hub) : Hub :=
  mkHub (h_limits h) (h_subs h ∖ {[i]}) (decrement (h_bySession h) (sb_session s))
    (if sb_user s !=s "" then decrement (h_byUser h) (sb_user s) else h_byUser h) (h_closed h).

Inductive action :=
| ASubscribe (session user : string)
| APublish (ev : Event)
| APush (k : nat)
| ASignal (i : nat)
| ANext (i : nat) (k : next_step)
| AClose (i : nat)
| ALeave (k : nat)
| ACloseHub.

Fixpoint remove_at {A} (k : nat) (l : list A) : list A :=
  match l, k with
  | [], _ => []
  | _ :: l', O => l'
  | a :: l', S k' => a :: remove_at k' l'
  end.

Definition step (a : action) (w : stream) : option stream :=
  match a with
  | ASubscribe session user => Some (fst (SubscribeUser session user w))
  | APublish ev => Some (Publish ev w)
  | APush k =>
      '(i, ev) ← st_pushes w !! k;
      s ← st_table w !! i;
      Some (set_sub i (push_locked ev s)
              (mkStream (st_hub w) (st_table w) (st_next w) (remove_at k (st_pushes w)) (st_leaving w) (st_active w)))
  | ASignal i =>
      s ← st_table w !! i;
      if (sb_signals s =? 0)%nat then None else Some (set_sub i (push_signal s) w)
  | ANext i k =>
      s ← st_table w !! i;
      '(s', _) ← Next k s;
      Some (set_sub i s' w)
  | AClose i =>
      s ← st_table w !! i;
      if sb_done s then Some w
      else Some (set_sub i (set_done s)
                   (mkStream (st_hub w) (st_table w) (st_next w) (st_pushes w) (st_leaving w ++ [i]) (st_active w)))
  | ALeave k =>
      i ← st_leaving w !! k;
      s ← st_table w !! i;
      let h := leave_hub i s (st_hub w) in
      let last := (size (h_subs h) =? 0)%nat && negb (h_closed h) in
      Some (mkStream h (st_table w) (st_next w) (st_pushes w) (remove_at k (st_leaving w))
              (if last then st_active w ++ [false] else st_active w))
  | ACloseHub =>
      let h := st_hub w in
      Some (set_hub (mkHub (h_limits h) (h_subs h) (h_bySession h) (h_byUser h) true) w)
  end.

Fixpoint steps (l : list action) (w : stream) : option stream :=
  match l with
  | [] => Some w
  | a :: l' => match step a w with Some w' => steps l' w' | None => None end
  end.

(** ** Coalescing *)

(** The topics of a history in the order they were first seen, and the last event
    of a topic. *)
Definition see (seen : list string) (ev : Event) : list string :=
  if bool_decide (ev_Topic ev ∈ seen) then seen else seen ++ [ev_Topic ev].
Definition first_seen (log : list Event) : list string := fold_left see log [].
Definition latest (t : string) (log : list Event) : option Event :=
  last (List.filter (fun ev => ev_Topic ev ==s t) log).

(** What a reader should get of a history: the latest event of each topic. *)
Definition coalesce (log : list Event) : list Event := omap (fun t => latest t log) (first_seen log).

Lemma first_seen_snoc (log : list Event) (ev : Event) : first_seen (log ++ [ev]) = see (first_seen log) ev.
Proof. unfold first_seen. by rewrite fold_left_app. Qed.

Lemma latest_snoc (t : string) (log : list Event) (ev : Event) :
  latest t (log ++ [ev]) = if ev_Topic ev ==s t then Some ev else latest t log.
Proof.
  unfold latest. rewrite List.filter_app. cbn. destruct (ev_Topic ev ==s t); [by rewrite last_snoc|by rewrite app_nil_r].
Qed.

Lemma first_seen_latest (t : string) (log : list Event) : t ∈ first_seen log <-> is_Some (latest t log).
Proof.
  induction log as [|ev log IH] using rev_ind; [cbn; rewrite elem_of_nil; split; [done|by intros [? ?]]|].
  rewrite first_seen_snoc, latest_snoc. unfold see. destruct (String.eqb_spec (ev_Topic ev) t) as [->|Hne].
  - split; [eauto|]. intros _. case_bool_decide; [done|]. apply elem_of_app. right. by left.
  - rewrite <- IH. case_bool_decide; [done|]. rewrite elem_of_app, list_elem_of_singleton. naive_solver.
Qed.

Lemma first_seen_NoDup (log : list Event) : NoDup (first_seen log).
Proof.
  induction log as [|ev log IH] using rev_ind; [apply NoDup_nil_2|]. rewrite first_seen_snoc. unfold see.
  case_bool_decide as Hs; [done|]. apply NoDup_app. split_and!; [done| |apply NoDup_singleton]. by intros t Ht ->%list_elem_of_singleton.
Qed.

(** The pending events of a subscription are its history, and a waiting reader with
    something to read has a signal on its way. *)
Record sub_ok (s : Subscription) : Prop := mkSubOk {
  sk_order : sb_order s = first_seen (sb_log s);
  sk_pending : forall t, sb_pending s !! t = latest t (sb_log s);
  sk_wake : sb_log s <> [] -> sb_reader s = RWait -> sb_notify s = true \/ 0 < sb_signals s }.

Lemma sub_ok_take (s : Subscription) : sub_ok s -> take_events s = coalesce (sb_log s).
Proof.
  intros [H1 H2 _]. unfold take_events, coalesce. rewrite H1. clear H1. generalize (first_seen (sb_log s)). intros l.
  induction l as [|t l IH]; cbn; [done|]. by rewrite H2, IH.
Qed.

Lemma coalesce_nil (log : list Event) : coalesce log = [] -> log = [].
Proof.
  destruct log as [|ev log]; [done|]. intros H. exfalso. assert (Hin : ev_Topic ev ∈ first_seen (ev :: log)).
  { apply first_seen_latest. unfold latest. cbn. rewrite String.eqb_refl. rewrite last_cons. destruct (last _); eauto. }
  pose proof (proj1 (first_seen_latest _ _) Hin) as [e He]. unfold coalesce in H.
  assert (Hx : e ∈ omap (fun t => latest t (ev :: log)) (first_seen (ev :: log))) by (apply list_elem_of_omap; eauto). rewrite H in Hx. by apply elem_of_nil in Hx.
Qed.

Lemma order_nil (s : Subscription) : sub_ok s -> sb_order s = [] -> sb_log s = [].
Proof. intros [H1 _ _] H. apply coalesce_nil. unfold coalesce. by rewrite <- H1, H. Qed.

Lemma sub_ok_push (ev : Event) (s : Subscription) : sub_ok s -> sub_ok (push_locked ev s).
Proof.
  intros [H1 H2 H3]. split; cbn [push_locked sb_order sb_log sb_pending sb_reader sb_notify sb_signals].
  - rewrite first_seen_snoc. unfold see. rewrite <- H1. apply (f_equal (fun b : bool => if b then sb_order s else sb_order s ++ [ev_Topic ev])).
    apply bool_decide_ext. by rewrite H1, first_seen_latest, H2.
  - intros t. rewrite latest_snoc. destruct (String.eqb_spec (ev_Topic ev) t) as [->|Hne]; [by rewrite lookup_insert_eq|by rewrite lookup_insert_ne, H2].
  - intros _ _. right. lia.
Qed.

Lemma sub_ok_taken (r : reader) (s : Subscription) : sub_ok s -> sub_ok (take_sub r s).
Proof.
  intros Hs. unfold take_sub. destruct (sb_order s) as [|t l] eqn:Ho.
  - pose proof (order_nil s Hs Ho) as Hl. destruct Hs as [H1 H2 H3]. split; cbn; [by rewrite Hl|done|]. by rewrite Hl.
  - split; cbn; [done|intros; by rewrite lookup_empty|done].
Qed.

Lemma sub_ok_next (k : next_step) (s s' : Subscription) (r : next_answer) : sub_ok s -> Next k s = Some (s', r) -> sub_ok s'.
Proof.
  intros Hs. pose proof Hs as [H1 H2 H3]. unfold Next. destruct k, (sb_reader s) eqn:Hr; try done; intros H.
  - simplify_eq. by split; cbn.
  - destruct (take_events s); simplify_eq; by apply sub_ok_taken.
  - destruct (sb_notify s); simplify_eq. by split; cbn.
  - destruct (sb_done s); simplify_eq. by apply sub_ok_taken.
  - simplify_eq. by split; cbn.
Qed.

(** ** Counters *)

Definition sub_session (w : stream) (i : nat) : string := default "" (sb_session <$> st_table w !! i).
Definition sub_user (w : stream) (i : nat) : string := default "" (sb_user <$> st_table w !! i).

(** How many of a set of subscriptions have a key, and the map that counts them. *)
Definition having (key : nat -> string) (k : string) (subs : gset nat) : nat := size (filter (fun i => key i = k) subs).
Definition counted (key : nat -> string) (subs : gset nat) (m : gmap string nat) : Prop :=
  forall k, count0 m k = having key k subs /\ m !! k <> Some 0.

Lemma having_add (key : nat -> string) (k : string) (i : nat) (subs : gset nat) : i ∉ subs ->
  having key k ({[i]} ∪ subs) = if decide (key i = k) then S (having key k subs) else having key k subs.
Proof.
  intros Hi. unfold having.
  assert (Hf : filter (fun j => key j = k) ({[i]} ∪ subs) = filter (fun j => key j = k) {[i]} ∪ filter (fun j => key j = k) subs)
    by (apply leibniz_equiv, filter_union). rewrite Hf. clear Hf.
  assert (Hd : filter (fun j => key j = k) ({[i]} : gset nat) ## filter (fun j => key j = k) subs).
  { intros j. rewrite !elem_of_filter, elem_of_singleton. intros [_ ->] [_ ?]. done. }
  rewrite size_union by done. destruct (decide (key i = k)) as [He|Hne].
  - assert (H : filter (fun j => key j = k) ({[i]} : gset nat) = {[i]}).
    { apply set_eq. intros j. rewrite elem_of_filter, elem_of_singleton. split; [by intros [_ ?]|by intros ->]. }
    by rewrite H, size_singleton.
  - assert (H : filter (fun j => key j = k) ({[i]} : gset nat) = ∅).
    { apply set_eq. intros j. rewrite elem_of_filter, elem_of_singleton. split; [by intros [? ->]|by intros ?%elem_of_empty]. }
    by rewrite H, size_empty.
Qed.

Lemma having_remove (key : nat -> string) (k : string) (i : nat) (subs : gset nat) : i ∈ subs ->
  having key k subs = if decide (key i = k) then S (having key k (subs ∖ {[i]})) else having key k (subs ∖ {[i]}).
Proof.
  intros Hi. rewrite <- having_add by set_solver. f_equal. apply union_difference_singleton_L. done.
Qed.

Lemma having_ext (key key' : nat -> string) (k : string) (subs : gset nat) :
  (forall i, i ∈ subs -> key i = key' i) -> having key k subs = having key' k subs.
Proof. intros H. unfold having. f_equal. apply set_eq. intros i. rewrite !elem_of_filter. naive_solver congruence. Qed.

Lemma counted_add (key : nat -> string) (i : nat) (subs : gset nat) (m : gmap string nat) : i ∉ subs -> counted key subs m ->
  counted key ({[i]} ∪ subs) (<[key i := S (count0 m (key i))]> m).
Proof.
  intros Hi Hc k. rewrite having_add by done. unfold count0. destruct (Hc k) as [Hk H0]. destruct (decide (key i = k)) as [<-|Hne].
  - rewrite lookup_insert_eq. cbn. split; [by rewrite <- Hk|done].
  - rewrite lookup_insert_ne by done. by split.
Qed.

Lemma counted_remove (key : nat -> string) (i : nat) (subs : gset nat) (m : gmap string nat) : i ∈ subs -> counted key subs m ->
  counted key (subs ∖ {[i]}) (decrement m (key i)).
Proof.
  intros Hi Hc k. pose proof (having_remove key k i subs Hi) as Hr. destruct (Hc k) as [Hk H0]. unfold decrement.
  destruct (decide (key i = k)) as [<-|Hne].
  - rewrite Hk. destruct (Nat.leb_spec (having key (key i) subs) 1) as [Hle|Hgt]; unfold count0.
    + rewrite lookup_delete_eq. cbn. split; [lia|done].
    + rewrite lookup_insert_eq. cbn. split; [lia|]. intros [= ?]. lia.
  - destruct (count0 m (key i) <=? 1)%nat; unfold count0; rewrite ?lookup_delete_ne, ?lookup_insert_ne by done; (split; [|done]); rewrite <- Hr; exact Hk.
Qed.

Record hub_ok (w : stream) : Prop := mkHubOk {
  ho_table : forall i, is_Some (st_table w !! i) <-> i < st_next w;
  ho_subs : forall i, i ∈ h_subs (st_hub w) -> i < st_next w;
  ho_live : forall i s, st_table w !! i = Some s -> sb_done s = false -> i ∈ h_subs (st_hub w);
  ho_leaving : NoDup (st_leaving w);
  ho_left : forall i, i ∈ st_leaving w -> i ∈ h_subs (st_hub w) /\ exists s, st_table w !! i = Some s /\ sb_done s = true;
  ho_sessions : counted (sub_session w) (h_subs (st_hub w)) (h_bySession (st_hub w));
  ho_users : forall k, k <> "" -> count0 (h_byUser (st_hub w)) k = having (sub_user w) k (h_subs (st_hub w)) /\ h_byUser (st_hub w) !! k <> Some 0;
  ho_anonymous : h_byUser (st_hub w) !! "" = None;
  ho_size : size (h_subs (st_hub w)) <= MaxSubscribers (h_limits (st_hub w));
  ho_per_session : forall k, having (sub_session w) k (h_subs (st_hub w)) <= MaxPerSession (h_limits (st_hub w));
  ho_per_user : forall k, k <> "" -> having (sub_user w) k (h_subs (st_hub w)) <= MaxPerUser (h_limits (st_hub w));
  ho_each : forall i s, st_table w !! i = Some s -> sub_ok s }.

Lemma hub_ok_new (a b c : Z) : hub_ok (new_stream (NewHub a b c)).
Proof.
  assert (Hh : forall key k, having key k ∅ = 0) by (intros; unfold having; apply size_empty_iff; intros j; rewrite elem_of_filter; set_solver).
  split; cbn; try (intros; rewrite ?Hh; lia).
  - intros i. rewrite lookup_empty. split; [by intros [? ?]|lia].
  - intros i. set_solver.
  - intros i s. by rewrite lookup_empty.
  - apply NoDup_nil_2.
  - by intros i ?%elem_of_nil.
  - intros k. unfold count0. by rewrite lookup_empty, Hh.
  - intros k _. unfold count0. by rewrite lookup_empty, Hh.
  - done.
  - rewrite size_empty. lia.
  - intros i s. by rewrite lookup_empty.
Qed.

(** Steps that change one subscription and nothing about who is in the hub. *)
Lemma hub_ok_sub (w w' : stream) (i : nat) (s s' : Subscription) : hub_ok w -> st_table w !! i = Some s ->
  sub_ok s' -> sb_session s' = sb_session s -> sb_user s' = sb_user s -> sb_done s' = sb_done s ->
  st_table w' = <[i := s']> (st_table w) -> st_hub w' = st_hub w -> st_next w' = st_next w -> st_leaving w' = st_leaving w -> hub_ok w'.
Proof.
  intros [T1 T2 T3 T4 T5 T6 T7 T8 T9 T10 T11 T12] Hs Hok He Hu Hd Ht Hh Hn Hl.
  assert (Hss : forall j, sub_session w' j = sub_session w j).
  { intros j. unfold sub_session. rewrite Ht. destruct (decide (i = j)) as [<-|]; [rewrite lookup_insert_eq, Hs; cbn; by rewrite He|by rewrite lookup_insert_ne]. }
  assert (Huu : forall j, sub_user w' j = sub_user w j).
  { intros j. unfold sub_user. rewrite Ht. destruct (decide (i = j)) as [<-|]; [rewrite lookup_insert_eq, Hs; cbn; by rewrite Hu|by rewrite lookup_insert_ne]. }
  assert (Hse : forall k X, having (sub_session w') k X = having (sub_session w) k X) by (intros; by apply having_ext).
  assert (Hue : forall k X, having (sub_user w') k X = having (sub_user w) k X) by (intros; by apply having_ext).
  split; rewrite ?Hh, ?Hn, ?Hl, ?Ht; auto.
  - intros j. rewrite <- T1. destruct (decide (i = j)) as [<-|]; [rewrite lookup_insert_eq, Hs; split; eauto|by rewrite lookup_insert_ne].
  - intros j x. destruct (decide (i = j)) as [<-|]; [rewrite lookup_insert_eq; intros [= <-] ?; apply (T3 i s Hs); congruence|rewrite lookup_insert_ne by done; apply T3].
  - intros j Hj. destruct (T5 j Hj) as [? (x & Hx & Hxd)]. split; [done|]. destruct (decide (i = j)) as [<-|]; [|exists x; by rewrite lookup_insert_ne].
    exists s'. rewrite lookup_insert_eq. simplify_eq. split; [done|congruence].
  - intros k. rewrite Hse. apply T6.
  - intros k. rewrite Hue. apply T7.
  - intros k. rewrite Hse. apply T10.
  - intros k. rewrite Hue. apply T11.
  - intros j x. destruct (decide (i = j)) as [<-|]; [rewrite lookup_insert_eq; by intros [= <-]|rewrite lookup_insert_ne by done; apply T12].
Qed.

Lemma hub_ok_subscribe (w : stream) (session user : string) : hub_ok w -> hub_ok (fst (SubscribeUser session user w)).
Proof.
  intros Hw. pose proof Hw as [T1 T2 T3 T4 T5 T6 T7 T8 T9 T10 T11 T12]. unfold SubscribeUser.
  destruct (session ==s ""); [done|]. destruct (h_closed (st_hub w)); [done|].
  destruct (Nat.leb_spec (MaxSubscribers (h_limits (st_hub w))) (size (h_subs (st_hub w)))) as [|Hsz]; [done|].
  destruct (Nat.leb_spec (MaxPerSession (h_limits (st_hub w))) (count0 (h_bySession (st_hub w)) session)) as [|Hse]; [done|].
  destruct ((user !=s "") && _) eqn:Hlim; [done|]. cbn [fst].
  set (i := st_next w). assert (Hi : i ∉ h_subs (st_hub w)) by (intros H%T2; lia).
  set (w' := mkStream _ _ _ _ _ _).
  assert (Hold : forall j, j ∈ h_subs (st_hub w) -> sub_session w' j = sub_session w j /\ sub_user w' j = sub_user w j).
  { intros j Hj%T2. unfold sub_session, sub_user. cbn. rewrite lookup_insert_ne by lia. done. }
  assert (Hnew : sub_session w' i = session /\ sub_user w' i = user) by (unfold sub_session, sub_user; cbn; by rewrite lookup_insert_eq).
  destruct Hnew as [Hns Hnu].
  assert (Hs : forall k, having (sub_session w') k (h_subs (st_hub w)) = having (sub_session w) k (h_subs (st_hub w))) by (intros; apply having_ext; intros; by apply Hold).
  assert (Hu : forall k, having (sub_user w') k (h_subs (st_hub w)) = having (sub_user w) k (h_subs (st_hub w))) by (intros; apply having_ext; intros; by apply Hold).
  assert (Hadd : counted (sub_session w') ({[i]} ∪ h_subs (st_hub w)) (<[session := S (count0 (h_bySession (st_hub w)) session)]> (h_bySession (st_hub w)))).
  { rewrite <- Hns at 1 2. apply counted_add; [done|]. intros k. rewrite Hs. apply T6. }
  split; cbn [st_hub st_table st_next st_leaving w' h_subs h_limits h_bySession h_byUser]; auto.
  - intros j. destruct (decide (i = j)) as [<-|Hne]; [rewrite lookup_insert_eq; split; [intros _; lia|eauto]|]. rewrite lookup_insert_ne by done. rewrite T1. lia.
  - intros j [->%elem_of_singleton|Hj%T2]%elem_of_union; lia.
  - intros j s. destruct (decide (i = j)) as [<-|Hne]; [set_solver|]. rewrite lookup_insert_ne by done. intros H Hd. apply elem_of_union. right. by apply (T3 j s).
  - intros j Hj. destruct (T5 j Hj) as [Hin (s & Hx & Hd)]. split; [set_solver|]. exists s. rewrite lookup_insert_ne; [done|]. intros <-. done.
  - intros k Hk. rewrite having_add, Hu by done. rewrite Hnu. destruct (T7 k Hk) as [Hc H0].
    destruct (String.eqb_spec user "") as [->|Hne]; cbn [negb]; [by destruct (decide ("" = k))|]. unfold count0 in *.
    destruct (decide (user = k)) as [<-|Hnk]; [rewrite lookup_insert_eq; cbn; by rewrite Hc|by rewrite lookup_insert_ne].
  - destruct (String.eqb_spec user "") as [->|Hne]; cbn [negb]; [done|]. by rewrite lookup_insert_ne.
  - rewrite size_union by set_solver. rewrite size_singleton. lia.
  - intros k. rewrite having_add, Hs by done. rewrite Hns. destruct (decide (session = k)) as [<-|]; [|apply T10]. rewrite <- (proj1 (T6 session)). lia.
  - intros k Hk. rewrite having_add, Hu by done. rewrite Hnu. destruct (decide (user = k)) as [<-|]; [|by apply T11].
    rewrite (proj2 (String.eqb_neq user "")) in Hlim by done. cbn in Hlim. apply Nat.leb_gt in Hlim. rewrite <- (proj1 (T7 user Hk)). lia.
  - intros j s. destruct (decide (i = j)) as [<-|Hne]; [|rewrite lookup_insert_ne by done; apply T12].
    rewrite lookup_insert_eq. intros [= <-]. split; cbn; [done|intros; by rewrite lookup_empty|done].
Qed.

Lemma hub_ok_close (w : stream) (i : nat) (s : Subscription) : hub_ok w -> st_table w !! i = Some s -> sb_done s = false ->
  hub_ok (mkStream (st_hub w) (<[i := set_done s]> (st_table w)) (st_next w) (st_pushes w) (st_leaving w ++ [i]) (st_active w)).
Proof.
  intros [T1 T2 T3 T4 T5 T6 T7 T8 T9 T10 T11 T12] Hs Hd. set (w' := mkStream _ _ _ _ _ _).
  assert (Hss : forall j, sub_session w' j = sub_session w j).
  { intros j. unfold sub_session. cbn. destruct (decide (i = j)) as [<-|]; [by rewrite lookup_insert_eq, Hs|by rewrite lookup_insert_ne]. }
  assert (Huu : forall j, sub_user w' j = sub_user w j).
  { intros j. unfold sub_user. cbn. destruct (decide (i = j)) as [<-|]; [by rewrite lookup_insert_eq, Hs|by rewrite lookup_insert_ne]. }
  assert (Hse : forall k X, having (sub_session w') k X = having (sub_session w) k X) by (intros; by apply having_ext).
  assert (Hue : forall k X, having (sub_user w') k X = having (sub_user w) k X) by (intros; by apply having_ext).
  assert (Hin : i ∉ st_leaving w) by (intros H; destruct (T5 i H) as [_ (x & Hx & Hxd)]; congruence).
  split; cbn; auto.
  - intros j. rewrite <- T1. destruct (decide (i = j)) as [<-|]; [rewrite lookup_insert_eq, Hs; split; eauto|by rewrite lookup_insert_ne].
  - intros j x. destruct (decide (i = j)) as [<-|]; [by rewrite lookup_insert_eq; intros [= <-]|rewrite lookup_insert_ne by done; apply T3].
  - apply NoDup_app. split_and!; [done| |apply NoDup_singleton]. by intros j Hj ->%list_elem_of_singleton.
  - intros j [Hj| ->%list_elem_of_singleton]%elem_of_app.
    + destruct (T5 j Hj) as [? (x & Hx & Hxd)]. split; [done|]. exists x. rewrite lookup_insert_ne by congruence. done.
    + split; [by apply (T3 i s)|]. exists (set_done s). by rewrite lookup_insert_eq.
  - intros k. rewrite Hse. apply T6.
  - intros k. rewrite Hue. apply T7.
  - intros k. rewrite Hse. apply T10.
  - intros k. rewrite Hue. apply T11.
  - intros j x. destruct (decide (i = j)) as [<-|]; [|rewrite lookup_insert_ne by done; apply T12].
    rewrite lookup_insert_eq. intros [= <-]. destruct (T12 i s Hs) as [H1 H2 H3]. by split.
Qed.

Lemma remove_at_spec {A} (k : nat) (l : list A) (a : A) : l !! k = Some a -> l ≡ₚ a :: remove_at k l.
Proof.
  revert k. induction l as [|x l IH]; intros k; [done|]. destruct k as [|k]; cbn; [by intros [= ->]|]. intros H. rewrite (IH k H) at 1. apply perm_swap.
Qed.

Lemma having_less (key : nat -> string) (k : string) (i : nat) (subs : gset nat) : i ∈ subs -> having key k (subs ∖ {[i]}) <= having key k subs.
Proof. intros Hi. rewrite (having_remove key k i subs Hi). destruct (decide _); lia. Qed.

Lemma hub_ok_leave (w : stream) (k i : nat) (s : Subscription) (active : list bool) : hub_ok w -> st_leaving w !! k = Some i -> st_table w !! i = Some s ->
  hub_ok (mkStream (leave_hub i s (st_hub w)) (st_table w) (st_next w) (st_pushes w) (remove_at k (st_leaving w)) active).
Proof.
  intros [T1 T2 T3 T4 T5 T6 T7 T8 T9 T10 T11 T12] Hk Hs. pose proof (remove_at_spec _ _ _ Hk) as Hp. rewrite Hp in T4. apply NoDup_cons in T4 as [Hni T4].
  assert (Hin : i ∈ st_leaving w) by (rewrite Hp; by left). destruct (T5 i Hin) as [Hi (x & Hx & Hxd)]. simplify_eq.
  assert (Hse : sub_session w i = sb_session s) by (unfold sub_session; by rewrite Hs).
  assert (Hue : sub_user w i = sb_user s) by (unfold sub_user; by rewrite Hs).
  set (w' := mkStream _ _ _ _ _ _).
  split; cbn; try change (sub_user w') with (sub_user w); try change (sub_session w') with (sub_session w); auto.
  - intros j [Hj _]%elem_of_difference. by apply T2.
  - intros j y Hy Hd. apply elem_of_difference. split; [by apply (T3 j y)|]. intros ->%elem_of_singleton. congruence.
  - intros j Hj. destruct (T5 j) as [H1 H2]; [rewrite Hp; by right|]. split; [|done]. apply elem_of_difference. split; [done|]. by intros ->%elem_of_singleton.
  - rewrite <- Hse. by apply counted_remove.
  - intros u Hu. destruct (T7 u Hu) as [Hc H0]. pose proof (having_remove (sub_user w) u i _ Hi) as Hr. rewrite Hue in Hr.
    destruct (String.eqb_spec (sb_user s) "") as [He|Hne]; cbn [negb].
    + rewrite He in Hr. destruct (decide ("" = u)); [congruence|]. by rewrite <- Hr.
    + unfold decrement. destruct (decide (sb_user s = u)) as [<-|Hnu].
      * rewrite Hc. destruct (Nat.leb_spec (having (sub_user w) (sb_user s) (h_subs (st_hub w))) 1); unfold count0.
        -- rewrite lookup_delete_eq. cbn. split; [lia|done].
        -- rewrite lookup_insert_eq. cbn. split; [lia|]. intros [= ?]. lia.
      * rewrite <- Hr. destruct (_ <=? 1)%nat; unfold count0; rewrite ?lookup_delete_ne, ?lookup_insert_ne by done; by split.
  - destruct (String.eqb_spec (sb_user s) "") as [He|Hne]; cbn [negb]; [done|]. unfold decrement.
    destruct (_ <=? 1)%nat; rewrite ?lookup_delete_ne, ?lookup_insert_ne; done.
  - pose proof (subseteq_size (h_subs (st_hub w) ∖ {[i]}) (h_subs (st_hub w)) ltac:(set_solver)). lia.
  - intros u. pose proof (having_less (sub_session w) u i _ Hi). specialize (T10 u). lia.
  - intros u Hu. pose proof (having_less (sub_user w) u i _ Hi). specialize (T11 u Hu). lia.
Qed.

Lemma hub_ok_step (a : action) (w w' : stream) : hub_ok w -> step a w = Some w' -> hub_ok w'.
Proof.
  intros Hw. destruct a as [session user|ev|k|i|i k|i|k|]; cbn.
  - intros [= <-]. by apply hub_ok_subscribe.
  - intros [= <-]. by destruct Hw.
  - destruct (st_pushes w !! k) as [[i ev]|]; [|done]. cbn. destruct (st_table w !! i) as [s|] eqn:Hs; [|done]. cbn. intros [= <-].
    eapply (hub_ok_sub w _ i s (push_locked ev s)); try done. by apply sub_ok_push, (ho_each w Hw i).
  - destruct (st_table w !! i) as [s|] eqn:Hs; [|done]. cbn. destruct (sb_signals s =? 0)%nat; [done|]. intros [= <-].
    eapply (hub_ok_sub w _ i s (push_signal s)); try done. destruct (ho_each w Hw i s Hs). split; cbn; auto.
  - destruct (st_table w !! i) as [s|] eqn:Hs; [|done]. cbn. destruct (Next k s) as [[s' r]|] eqn:Hn; [|done]. cbn. intros [= <-].
    pose proof (sub_ok_next k s s' r (ho_each w Hw i s Hs) Hn) as Hok.
    assert (Hsame : sb_session s' = sb_session s /\ sb_user s' = sb_user s /\ sb_done s' = sb_done s).
    { unfold Next, take_sub in Hn. repeat case_hyp Hn; simplify_eq; cbn; done. }
    destruct Hsame as (? & ? & ?). by eapply (hub_ok_sub w _ i s s').
  - destruct (st_table w !! i) as [s|] eqn:Hs; [|done]. cbn. destruct (sb_done s) eqn:Hd; intros [= <-]; [done|]. exact (hub_ok_close w i s Hw Hs Hd).
  - destruct (st_leaving w !! k) as [i|] eqn:Hk; [|done]. cbn. destruct (st_table w !! i) as [s|] eqn:Hs; [|done]. cbn. intros [= <-]. exact (hub_ok_leave w k i s _ Hw Hk Hs).
  - intros [= <-]. by destruct Hw.
Qed.

Lemma hub_ok_steps (l : list action) (w w' : stream) : hub_ok w -> steps l w = Some w' -> hub_ok w'.
Proof.
  revert w. induction l as [|a l IH]; intros w Hw; cbn; [by intros [= <-]|]. destruct (step a w) as [w1|] eqn:Hs; [|done].
  apply IH. by apply (hub_ok_step a w).
Qed.

(** The hub stays within its limits and its counters are exact: under every
    interleaving of subscribers, publishers, readers and closers, the number of live
    streams, those of each session and those of each user never exceed the limits,
    each counter is the number of live streams it stands for, and a counter that
    reaches zero is deleted. *)
Theorem hub_within_limits (a b c : Z) (l : list action) (w : stream) :
  steps l (new_stream (NewHub a b c)) = Some w ->
  let h := st_hub w in
  Subscribers w <= MaxSubscribers (h_limits h)
  /\ (forall k, count0 (h_bySession h) k = having (sub_session w) k (h_subs h)
        /\ h_bySession h !! k <> Some 0 /\ count0 (h_bySession h) k <= MaxPerSession (h_limits h))
  /\ (forall k, k <> "" -> count0 (h_byUser h) k = having (sub_user w) k (h_subs h)
        /\ h_byUser h !! k <> Some 0 /\ count0 (h_byUser h) k <= MaxPerUser (h_limits h))
  /\ h_byUser h !! "" = None.
Proof.
  intros Hl. apply hub_ok_steps in Hl as [T1 T2 T3 T4 T5 T6 T7 T8 T9 T10 T11 T12]; [|apply hub_ok_new]. split_and!; auto.
  - intros k. destruct (T6 k) as [H1 H2]. split_and!; auto. rewrite H1. apply T10.
  - intros k Hk. destruct (T7 k Hk) as [H1 H2]. split_and!; auto. rewrite H1. by apply T11.
Qed.

(** No event is lost and none is delivered twice: what a reader is given is the
    latest event of every topic pushed to its subscription since it last read, each
    topic once and in the order first seen; and a reader that waits while something
    was pushed has a signal in its channel or about to be sent, so it wakes up. *)
Theorem events_coalesced (a b c : Z) (l : list action) (w : stream) (i : nat) (s : Subscription) :
  steps l (new_stream (NewHub a b c)) = Some w ->
  st_table w !! i = Some s ->
  take_events s = coalesce (sb_log s)
  /\ NoDup (first_seen (sb_log s))
  /\ (sb_reader s = RTake -> sb_log s <> [] ->
       exists s', Next NTake s = Some (s', Delivered (coalesce (sb_log s))) /\ sb_log s' = [])
  /\ (sb_reader s = RWait -> sb_log s <> [] ->
       exists s' w', (step (ANext i NWake) w = Some w' \/ exists w1, step (ASignal i) w = Some w1 /\ step (ANext i NWake) w1 = Some w')
         /\ st_table w' !! i = Some s' /\ sb_reader s' = RTake /\ sb_log s' = sb_log s).
Proof.
  intros Hl Hs. apply hub_ok_steps in Hl; [|apply hub_ok_new]. pose proof (ho_each w Hl i s Hs) as Hok.
  pose proof (sub_ok_take s Hok) as Ht. split_and!; auto using first_seen_NoDup.
  - intros Hr Hne. unfold Next. rewrite Hr, Ht. destruct (coalesce (sb_log s)) eqn:Hc; [by apply coalesce_nil in Hc|]. eexists. split; [done|].
    unfold take_sub. destruct (sb_order s) eqn:Ho; [|done]. by apply (order_nil s Hok) in Ho.
  - intros Hr Hne. destruct (sk_wake s Hok Hne Hr) as [Hn|Hg].
    + exists (set_wake s), (set_sub i (set_wake s) w). split; [left; cbn; by rewrite Hs; cbn; rewrite Hr, Hn|]. cbn. by rewrite lookup_insert_eq.
    + exists (set_wake (push_signal s)), (set_sub i (set_wake (push_signal s)) (set_sub i (push_signal s) w)). split.
      * right. exists (set_sub i (push_signal s) w). split; cbn; [rewrite Hs; cbn; destruct (Nat.eqb_spec (sb_signals s) 0); [lia|done]|].
        rewrite lookup_insert_eq. cbn. by rewrite Hr.
      * cbn. by rewrite lookup_insert_eq.
Qed.

Module EventsWitness.

(** Two streams of one user; a burst of events while the reader waits. *)
Definition run : list action :=
  [ASubscribe "s1" "admin"; ASubscribe "s2" "admin"; ANext 0 NCall; ANext 0 NTake;
   APublish (mkEvent "logs" "1"); APush 1; APublish (mkEvent "badge" "2"); APublish (mkEvent "logs" "3"); APush 2; APush 3; AClose 1; ALeave 0].
Definition reached : stream := default (new_stream (NewHub 0 0 0)) (steps run (new_stream (NewHub 0 0 0))).
Definition waiting : Subscription := default (mkSub "" "" false false ∅ [] RIdle 0 []) (st_table reached !! 0).

Lemma hub_within_limits_witness :
  Subscribers reached = 1 /\ Subscribers reached <= MaxSubscribers (h_limits (st_hub reached)).
Proof.
  split; [vm_compute; reflexivity|]. apply (hub_within_limits 0 0 0 run reached). vm_compute. reflexivity.
Defined.

Lemma events_coalesced_witness :
  take_events waiting = [mkEvent "logs" "3"; mkEvent "badge" "2"] /\ take_events waiting = coalesce (sb_log waiting).
Proof.
  split; [vm_compute; reflexivity|]. apply (events_coalesced 0 0 0 run reached 0 waiting); vm_compute; reflexivity.
Defined.

End EventsWitness.
