(* ===== verification/Redact.v ===== *)
(** * What the admin pages and the approval prompts show of stored secrets

    [server/handlers/credential_redact.go]: the name rules, the redaction of
    stored provider metadata and its merge on update, and the redaction of query
    strings.  [server/handlers/cc_mask.go]: masking a channel's configuration and
    putting the stored values back.

    JSON values are those of [GoJSON]: a Go map is a list of entries with
    distinct keys, and updating a map while ranging over it is one pass over the
    entries.  The classes of runes outside ASCII and the decimal text of a
    floating-point number are parameters. *)

From S2P Require Import Prelude GoStrings GoLib GoJSON GoMarshal.
From Stdlib Require Import SpecFloat.
Local Open Scope go_scope.

(** [unicode.IsUpper], [IsLower], [IsLetter] and [IsDigit] outside ASCII. *)
Class UnicodeClass := {
  u_is_upper : N -> bool;
  u_is_lower : N -> bool;
  u_is_letter : N -> bool;
  u_is_digit : N -> bool;
}.

(** The text [json.Marshal] writes for a number. *)
Class FloatText := float_text : spec_float -> string.

(** ** Regular expressions, matched by derivatives *)

Inductive regex :=
| RVoid | REps
| RChar (f : ascii -> bool)
| RCat (a b : regex)
| RAlt (a b : regex)
| RStar (a : regex).

Fixpoint nullable (r : regex) : bool :=
  match r with
  | RVoid | RChar _ => false
  | REps | RStar _ => true
  | RCat a b => nullable a && nullable b
  | RAlt a b => nullable a || nullable b
  end.

Fixpoint deriv (c : ascii) (r : regex) : regex :=
  match r with
  | RVoid | REps => RVoid
  | RChar f => if f c then REps else RVoid
  | RCat a b => if nullable a then RAlt (RCat (deriv c a) b) (deriv c b) else RCat (deriv c a) b
  | RAlt a b => RAlt (deriv c a) (deriv c b)
  | RStar a => RCat (deriv c a) (RStar a)
  end.

(** [MatchString] of an expression anchored at both ends. *)
Fixpoint MatchString (r : regex) (s : string) : bool :=
  match s with
  | EmptyString => nullable r
  | String c s' => MatchString (deriv c r) s'
  end.

Definition lit (c : ascii) : regex := RChar (fun d => d ==c c).
Definition ROpt (r : regex) : regex := RAlt r REps.
Fixpoint RRep (n : nat) (r : regex) : regex := match n with 0 => REps | S n' => RCat r (RRep n' r) end.
Definition RCats (l : list regex) : regex := fold_right RCat REps l.

Definition hex_class : regex := RChar (fun c => match hex_val c with Some _ => true | None => false end).
Definition digit_class : regex := RChar is_digit.

Definition reUUID : regex :=
  RCats [RRep 8 hex_class; lit "-"; RRep 4 hex_class; lit "-"; RRep 4 hex_class; lit "-";
         RRep 4 hex_class; lit "-"; RRep 12 hex_class].
Definition reSHA : regex := RAlt (RRep 40 hex_class) (RRep 64 hex_class).
Definition reISO : regex :=
  let zone := RAlt (lit "Z") (RCats [RAlt (lit "+") (lit "-"); RRep 2 digit_class; ROpt (lit ":"); RRep 2 digit_class]) in
  let frac := RCats [lit "."; digit_class; RStar digit_class] in
  let secs := RCats [lit ":"; RRep 2 digit_class; ROpt frac] in
  RCats [RRep 4 digit_class; lit "-"; RRep 2 digit_class; lit "-"; RRep 2 digit_class;
         ROpt (RCats [RAlt (lit "T") (lit " "); RRep 2 digit_class; lit ":"; RRep 2 digit_class;
                      ROpt secs; ROpt zone])].

Definition in_words (ws : list string) (w : string) : bool := existsb (String.eqb w) ws.

(** ** Names *)

Definition visibleMetadataFields : list string :=
  ["tokentype"; "tokenendpoint"; "tokensremaining"; "tokenslimit";
   "subscriptiontype"; "ratelimittier"; "scopes"; "accountid"; "clientid"].

Definition secretWords : list string :=
  ["authorization"; "cookie"; "cookies"; "session"; "bearer"; "jwt";
   "credential"; "credentials"; "passphrase"; "pem"; "secret"; "secrets";
   "password"; "passwd"; "sessionid"].

Definition weakSecretWords : list string := ["auth"; "code"; "otp"].

Definition benignQualifierWords : list string :=
  ["type"; "method"; "mode"; "provider"; "scheme"; "status";
   "country"; "language"; "currency"; "region"; "count"; "length";
   "enabled"; "required"; "version"; "style"; "flow"].

Section Names.
Context `{UC : UnicodeCase} `{UK : UnicodeClass}.

Definition rune_is_upper (r : N) : bool := if (r <? 128)%N then is_upper r else u_is_upper r.
Definition rune_is_lower (r : N) : bool := if (r <? 128)%N then is_lower r else u_is_lower r.
Definition rune_is_letter (r : N) : bool := if (r <? 128)%N then is_upper r || is_lower r else u_is_letter r.
Definition rune_is_digit (r : N) : bool := if (r <? 128)%N then in_range 48 57 r else u_is_digit r.

(** [flush]: the word so far, lower-cased; the runes are kept in reverse. *)
Definition flush (cur : list N) : list string :=
  match cur with [] => [] | _ => [ToLower (EncodeRunes (rev cur))] end.

Definition name_separator (r : N) : bool := existsb (N.eqb r) [95; 45; 46; 32]%N.

Fixpoint name_words (prev : option N) (cur : list N) (rs : list N) : list string :=
  match rs with
  | [] => flush cur
  | r :: rs' =>
      if name_separator r then flush cur ++ name_words (Some r) [] rs'
      else if rune_is_upper r then
        let prevLower := match prev with Some p => rune_is_lower p || rune_is_digit p | None => false end in
        let acronymEnd := match prev, rs' with
                          | Some p, next :: _ => rune_is_upper p && rune_is_lower next
                          | _, _ => false
                          end in
        if prevLower || acronymEnd then flush cur ++ name_words (Some r) [r] rs'
        else name_words (Some r) (r :: cur) rs'
      else name_words (Some r) (r :: cur) rs'
  end.

Definition nameWords (name : string) : list string := name_words None [] (runes name).

(** The replacer that drops separators. *)
Fixpoint drop_separators (s : string) : string :=
  match s with
  | EmptyString => ""
  | String c s' => if (c ==c "_") || (c ==c "-") || (c ==c ".") || (c ==c " ") then drop_separators s'
                   else String c (drop_separators s')
  end.

Definition isSecretFieldName (name : string) : bool :=
  let n := ToLower name in
  if in_words visibleMetadataFields (drop_separators n) then false
  else
    let words := nameWords name in
    if existsb (in_words secretWords) words then true
    else if negb (existsb (in_words benignQualifierWords) words) && existsb (in_words weakSecretWords) words then true
    else if match last words with
            | Some w => in_words ["token"; "tokens"; "key"; "keys"] w
            | None => false
            end then true
    else HasSuffix n "token" || Contains n "secret" || Contains n "password" ||
         Contains n "private_key" || Contains n "privatekey" ||
         Contains n "api_key" || Contains n "apikey".

(** ** Stored provider metadata *)

Fixpoint redactSecretValue (v : jval) : jval :=
  match v with
  | JObj t =>
      let fix entries (m : list (string * jval)) : list (string * jval) :=
        match m with
        | [] => []
        | (k, child) :: m' =>
            if isSecretFieldName k then entries m' else (k, redactSecretValue child) :: entries m'
        end in
      JObj (entries t)
  | JArr t => JArr (map redactSecretValue t)
  | _ => v
  end.

End Names.

(** [json.Marshal]: map keys in byte order, no spaces. *)
Fixpoint insert_entry (e : string * string) (l : list (string * string)) : list (string * string) :=
  match l with
  | [] => [e]
  | x :: l' => if String.leb e.1 x.1 then e :: l else x :: insert_entry e l'
  end.

Definition sort_entries (l : list (string * string)) : list (string * string) := fold_right insert_entry [] l.

Definition comma_join (l : list string) : string := Join l ",".

Fixpoint Marshal `{FloatText} (v : jval) : string :=
  match v with
  | JNull => "null"
  | JBool b => if b then "true" else "false"
  | JNum f => float_text f
  | JStr s => quote s
  | JArr l => "[" +:+ comma_join (map Marshal l) +:+ "]"
  | JObj m =>
      let texts := map (fun e => (e.1, quote e.1 +:+ ":" +:+ Marshal e.2)) m in
      "{" +:+ comma_join (map snd (sort_entries texts)) +:+ "}"
  end.

Section Redaction.
Context `{UC : UnicodeCase} `{UK : UnicodeClass} `{FT : FloatText}.

Definition redactSubscriptionInfo (raw : string) : string :=
  let raw := TrimSpace raw in
  if raw ==s "" then ""
  else match Unmarshal raw with
       | Some (JObj obj) => Marshal (redactSecretValue (JObj obj))
       | _ => ""
       end.

(** The loop over the stored fields: the incoming object after it, and whether
    it changed. *)
Fixpoint merge_secrets (stored incoming : list (string * jval)) : list (string * jval) * bool :=
  match stored with
  | [] => (incoming, false)
  | (k, v) :: stored' =>
      if negb (isSecretFieldName k) then merge_secrets stored' incoming
      else match obj_get incoming k with
           | Some _ => merge_secrets stored' incoming
           | None => (fst (merge_secrets stored' (obj_set incoming k v)), true)
           end
  end.

Definition mergeStoredSubscriptionSecrets (stored incoming : string) : string :=
  if TrimSpace stored ==s "" then incoming
  else match UnmarshalMap stored with
       | None => incoming
       | Some storedObj =>
           let incomingObj := if TrimSpace incoming ==s "" then Some []
                              else match UnmarshalMap incoming with Some (Some m) => Some m | _ => None end in
           match incomingObj with
           | None => incoming
           | Some incomingObj =>
               let '(merged, changed) := merge_secrets (default [] storedObj) incomingObj in
               if changed then Marshal (JObj merged) else incoming
           end
       end.

(** The part of [models.APIKey] that holds secrets. *)
Record APIKeySecrets := mkAPIKeySecrets {
  ak_KeyEncrypted : string;
  ak_RefreshToken : string;
  ak_SubscriptionInfo : string;
}.

Definition sanitizeAPIKeyForAdmin (k : APIKeySecrets) : APIKeySecrets :=
  mkAPIKeySecrets "" "" (redactSubscriptionInfo (ak_SubscriptionInfo k)).

(** ** Query strings *)

Definition extraSecretQueryWords : list string :=
  ["sig"; "signature"; "sign"; "signed"; "pwd"; "pin"; "passcode";
   "apikey"; "accesskey"; "key"; "keys"; "token"; "tokens";
   "ticket"; "sessid"; "sid"].

Definition queryNameSegments (name : string) : list string :=
  filter (fun p => p <> "") (map (fun p => TrimSpace (TrimSuffix p "]")) (Split name "[")).

Definition isSecretQuerySegment (seg : string) : bool :=
  isSecretFieldName seg || existsb (in_words extraSecretQueryWords) (nameWords seg).

Definition isSecretQueryName (name : string) : bool := existsb isSecretQuerySegment (queryNameSegments name).

Definition unescaped (s : string) : string := default s (QueryUnescape s).

Definition looksLikeSecretValue (v : string) : bool :=
  let v := unescaped v in
  if (slen v <? 32)%nat || MatchString reUUID v || MatchString reSHA v || MatchString reISO v then false
  else existsb rune_is_letter (runes v) &&
       existsb (fun r => negb (rune_is_letter r) && rune_is_digit r) (runes v).

Definition redacted : string := "[redacted]".

Definition redact_part (p : string) : string :=
  if p ==s "" then p
  else match IndexByte p "=" with
       | None => redacted
       | Some eq =>
           let name := str_take eq p in
           if isSecretQueryName (unescaped name) || looksLikeSecretValue (str_drop (eq + 1) p)
           then name +:+ "=" +:+ redacted else p
       end.

Definition redactApprovalQuery (raw : string) : string :=
  if raw ==s "" then "" else Join (map redact_part (Split raw "&")) "&".

End Redaction.

(** ** Channel configurations *)

Definition ccSecretMask : string := "********".

Definition ccSecretKeyHints : list string :=
  ["token"; "secret"; "password"; "passwd"; "apikey"; "api_key";
   "credential"; "authorization"; "bearer"; "private"; "signing";
   "webhook"; "cookie"; "passphrase"; "accesskey"; "passcode"; "sessionid"].

Definition ccSecretKeyWords : list string := ["auth"; "dsn"; "pwd"; "pin"; "otp"; "pass"].

Definition ccPlainTokenKeys : list string :=
  ["max_tokens"; "maxtokens"; "min_tokens"; "mintokens"; "token_type"; "tokentype"].

Definition ccCountWords : list string :=
  ["max"; "min"; "limit"; "limits"; "count"; "budget"; "ttl"; "total"; "remaining"; "used"].

Section Masking.
Context `{UC : UnicodeCase} `{UK : UnicodeClass} `{FT : FloatText}.

Fixpoint key_segments (prev : option N) (cur : list N) (rs : list N) : list string :=
  match rs with
  | [] => flush cur
  | r :: rs' =>
      if rune_is_letter r || rune_is_digit r then
        let boundary := rune_is_upper r && match prev with Some p => rune_is_lower p | None => false end in
        if boundary then flush cur ++ key_segments (Some r) [r] rs' else key_segments (Some r) (r :: cur) rs'
      else flush cur ++ key_segments (Some r) [] rs'
  end.

Definition ccKeySegments (key : string) : list string := key_segments None [] (runes key).

Definition ccIsPlainTokenKey (key : string) : bool :=
  let k := ToLower (ReplaceByte key "-" "_") in
  in_words ccPlainTokenKeys k ||
  (HasSuffix k "_token_limit" || HasSuffix k "_token_count" ||
   HasSuffix k "tokenlimit" || HasSuffix k "tokencount").

Definition ccIsCountStyleKey (key : string) : bool :=
  let segs := ccKeySegments key in
  if existsb (in_words ["tokens"; "maxtokens"; "mintokens"]) segs then true
  else if negb (existsb (String.eqb "token") segs) then false
  else existsb (in_words ccCountWords) segs.

Definition secret_ending (key : string) : bool :=
  existsb (in_words ccSecretKeyWords) (ccKeySegments key) ||
  (HasSuffix (ToLower key) "_key" || (ToLower key ==s "key")).

Definition ccSecretBesidesToken (key : string) : bool :=
  existsb (fun hint => (hint !=s "token") && Contains (ToLower key) hint) ccSecretKeyHints || secret_ending key.

Definition ccIsSecretKey (key : string) : bool :=
  existsb (Contains (ToLower key)) ccSecretKeyHints || secret_ending key.

Definition ccShouldMask (key : string) (val : jval) : bool :=
  match val with
  | JNull => false
  | _ =>
      if negb (ccIsSecretKey key) then false
      else match val with
           | JNum _ | JBool _ =>
               (negb (ccIsCountStyleKey key) || ccSecretBesidesToken key) && negb (ccIsPlainTokenKey key)
           | JStr s => if s ==s "" then false else negb (ccIsPlainTokenKey key)
           | _ => negb (ccIsPlainTokenKey key)
           end
  end.

Fixpoint maskCCValue (v : jval) : jval :=
  match v with
  | JObj t =>
      JObj (map (fun e =>
        let '(k, val) := e in
        if ccIsSecretKey k then
          (k, if ccShouldMask k val then JStr ccSecretMask
              else match val with JObj _ => maskCCValue val | _ => val end)
        else (k, maskCCValue val)) t)
  | JArr t => JArr (map maskCCValue t)
  | _ => v
  end.

Definition maskCCConfig (config : string) : string :=
  if TrimSpace config ==s "" then "{}"
  else match Unmarshal config with
       | None => "{}"
       | Some cfg => Marshal (maskCCValue cfg)
       end.

(** The configuration of a [models.ControlChannel], a pointer that may be nil. *)
Definition maskCC (c : option string) : option string := option_map maskCCConfig c.

Definition as_object (v : jval) : list (string * jval) := match v with JObj m => m | _ => [] end.
Definition as_array (v : jval) : list jval := match v with JArr l => l | _ => [] end.
Definition is_mask (v : jval) : bool := match v with JStr s => s ==s ccSecretMask | _ => false end.

(** A missing stored value is nil, as a Go map lookup gives it. *)
Fixpoint restoreCCMasked (incoming stored : jval) : jval :=
  match incoming with
  | JObj m =>
      let st := as_object stored in
      let fix entries (m : list (string * jval)) : list (string * jval) :=
        match m with
        | [] => []
        | (k, val) :: m' =>
            if is_mask val && ccIsSecretKey k then
              match obj_get st k with Some old => (k, old) :: entries m' | None => entries m' end
            else (k, restoreCCMasked val (default JNull (obj_get st k))) :: entries m'
        end in
      JObj (entries m)
  | JArr l =>
      let fix elements (l st : list jval) : list jval :=
        match l with
        | [] => []
        | val :: l' => restoreCCMasked val (hd JNull st) :: elements l' (tl st)
        end in
      JArr (elements l (as_array stored))
  | _ => incoming
  end.

(** A stored text that does not decode leaves nil.  (A stored number beyond the
    range of binary64 is taken as undecodable too, where Go leaves nil in its
    place only.) *)
Definition restoreCCMaskedConfig (incoming stored : string) : string :=
  match Unmarshal incoming with
  | None => incoming
  | Some v => Marshal (restoreCCMasked v (default JNull (Unmarshal stored)))
  end.

End Masking.

(** ** Induction over JSON values *)

Section JvalInd.
Variable P : jval -> Prop.
Hypothesis HNull : P JNull.
Hypothesis HBool : forall b, P (JBool b).
Hypothesis HNum : forall f, P (JNum f).
Hypothesis HStr : forall s, P (JStr s).
Hypothesis HArr : forall l, Forall P l -> P (JArr l).
Hypothesis HObj : forall m, Forall (fun e => P e.2) m -> P (JObj m).

Fixpoint jval_nested_ind (v : jval) : P v :=
  match v with
  | JNull => HNull
  | JBool b => HBool b
  | JNum f => HNum f
  | JStr s => HStr s
  | JArr l => HArr l ((fix go l := match l return Forall P l with
                                   | [] => Forall_nil_2 P
                                   | x :: l' => Forall_cons_2 P x l' (jval_nested_ind x) (go l')
                                   end) l)
  | JObj m => HObj m ((fix go m := match m return Forall (fun e => P e.2) m with
                                   | [] => Forall_nil_2 _
                                   | e :: m' => Forall_cons_2 (fun e => P e.2) e m' (jval_nested_ind e.2) (go m')
                                   end) m)
  end.
End JvalInd.

(** Where a value sits: a field of an object or an element of an array. *)
Inductive jstep := Field (k : string) | Element (i : nat).

Definition jget (s : jstep) (v : jval) : option jval :=
  match s, v with
  | Field k, JObj m => obj_get m k
  | Element i, JArr l => l !! i
  | _, _ => None
  end.

Fixpoint jpath (p : list jstep) (v : jval) : option jval :=
  match p with [] => Some v | s :: p' => x ← jget s v; jpath p' x end.

(** Go maps have distinct keys, at every depth. *)
Inductive distinct_keys : jval -> Prop :=
| DistinctLeaf v : match v with JArr _ | JObj _ => False | _ => True end -> distinct_keys v
| DistinctArr l : Forall distinct_keys l -> distinct_keys (JArr l)
| DistinctObj m : NoDup m.*1 -> Forall (fun e => distinct_keys e.2) m -> distinct_keys (JObj m).

Lemma obj_set_keys m k v k' : k' ∈ (obj_set m k v).*1 -> k' = k \/ k' ∈ m.*1.
Proof.
  induction m as [|[k2 v2] m IH]; cbn; [set_solver|].
  destruct (String.eqb_spec k k2) as [<-|]; cbn; set_solver.
Qed.

Lemma obj_set_NoDup m k v : NoDup m.*1 -> NoDup (obj_set m k v).*1.
Proof.
  induction m as [|[k2 v2] m IH]; cbn; intros H; [apply NoDup_singleton|].
  apply NoDup_cons in H as [Hk H].
  destruct (String.eqb_spec k k2) as [<-|]; cbn; apply NoDup_cons; [done|].
  split; [|auto]. intros [->|]%obj_set_keys; done.
Qed.

Lemma obj_set_Forall (P : jval -> Prop) m k v :
  Forall (fun e => P e.2) m -> P v -> Forall (fun e => P e.2) (obj_set m k v).
Proof.
  intros H Hv. induction H as [|[k2 v2] m Hx H IH]; cbn; [by constructor|].
  destruct (k ==s k2); by constructor.
Qed.

Lemma parse_number_leaf s v r : parse_number s = Some (v, r) -> exists f, v = JNum f.
Proof.
  unfold parse_number. intros H. repeat case_match; simplify_eq; eauto.
Qed.

(** What the decoder builds has distinct keys in every object. *)
Lemma parse_distinct fuel :
  (forall d s v r, parse_value fuel d s = Some (v, r) -> distinct_keys v) /\
  (forall d s l r, parse_elems fuel d s = Some (l, r) -> Forall distinct_keys l) /\
  (forall d m s m' r, parse_members fuel d m s = Some (m', r) ->
     NoDup m.*1 -> Forall (fun e => distinct_keys e.2) m ->
     NoDup m'.*1 /\ Forall (fun e => distinct_keys e.2) m').
Proof.
  induction fuel as [|n (IHv & IHe & IHm)]; [done|]. split_and!.
  - intros d s v r H. cbn [parse_value] in H. repeat case_match; simplify_eq; try (by apply DistinctLeaf).
    all: try (apply parse_number_leaf in H as [f ->]; by apply DistinctLeaf).
    all: try (constructor; (eapply IHe; eassumption) || (eapply IHm; [eassumption|constructor..]) || constructor).
  - intros d s l r H. cbn [parse_elems] in H. repeat case_match; simplify_eq; constructor; eauto.
  - intros d m s m' r H Hnd Hm. cbn [parse_members] in H.
    repeat case_match; simplify_eq; [split; [by apply obj_set_NoDup|eapply obj_set_Forall; eauto]|].
    eapply IHm; [eassumption|by apply obj_set_NoDup|eapply obj_set_Forall; eauto].
Qed.

Lemma Unmarshal_distinct s v : Unmarshal s = Some v -> distinct_keys v.
Proof.
  unfold Unmarshal. intros H. repeat case_match; simplify_eq. by eapply (proj1 (parse_distinct _)).
Qed.

Section Theorems.
Context `{UC : UnicodeCase} `{UK : UnicodeClass} `{FT : FloatText}.

Definition secret_step (s : jstep) : bool := match s with Field k => isSecretFieldName k | Element _ => false end.

Definition redact_entries (m : list (string * jval)) : list (string * jval) :=
  omap (fun e => if isSecretFieldName e.1 then None else Some (e.1, redactSecretValue e.2)) m.

Lemma redact_obj m : redactSecretValue (JObj m) = JObj (redact_entries m).
Proof.
  cbn [redactSecretValue]. f_equal. induction m as [|[k v] m IH]; [done|].
  cbn. rewrite IH. by destruct (isSecretFieldName k).
Qed.

Lemma redact_entries_cons k v m :
  redact_entries ((k, v) :: m) =
  if isSecretFieldName k then redact_entries m else (k, redactSecretValue v) :: redact_entries m.
Proof. unfold redact_entries. cbn. by destruct (isSecretFieldName k). Qed.

Lemma obj_get_redact m k :
  obj_get (redact_entries m) k = if isSecretFieldName k then None else redactSecretValue <$> obj_get m k.
Proof.
  induction m as [|[k' v] m IH]; [by destruct (isSecretFieldName k)|].
  rewrite redact_entries_cons. cbn. destruct (String.eqb_spec k k') as [<-|Hne].
  - destruct (isSecretFieldName k) eqn:E; cbn; [by rewrite IH|by rewrite String.eqb_refl].
  - destruct (isSecretFieldName k') eqn:E; cbn; [done|].
    by rewrite (proj2 (String.eqb_neq _ _) Hne).
Qed.

Lemma jget_redact s v :
  jget s (redactSecretValue v) = if secret_step s then None else redactSecretValue <$> jget s v.
Proof.
  destruct v as [| | | |l|m]; destruct s as [k|i]; cbn [jget secret_step];
    try (by destruct (isSecretFieldName _)); try done.
  - cbn. by rewrite list_lookup_fmap.
  - rewrite redact_obj. apply obj_get_redact.
Qed.

Lemma jpath_redact v p :
  jpath p (redactSecretValue v) =
  if existsb secret_step p then None else redactSecretValue <$> jpath p v.
Proof.
  revert v; induction p as [|s p IH]; intros v; [done|]. cbn [jpath existsb].
  rewrite jget_redact. destruct (secret_step s); [done|].
  destruct (jget s v) as [x|]; cbn; [apply IH|by destruct (existsb _ _)].
Qed.

(** What a value is, leaving aside what is inside a list or an object: a scalar with its
    value, a list with its length, an object. *)
Inductive jhead := HScalar (v : jval) | HList (n : nat) | HObject.

Definition head_of (v : jval) : jhead :=
  match v with JArr l => HList (length l) | JObj _ => HObject | _ => HScalar v end.

Lemma head_redact v : head_of (redactSecretValue v) = head_of v.
Proof. destruct v; try done. cbn. by rewrite length_map. Qed.

(** Names that say what they hold, and fields that may be shown. *)
Definition visible_name (n : string) : bool := in_words visibleMetadataFields (drop_separators (ToLower n)).

Definition plainly_secret (n : string) : bool :=
  negb (visible_name n) &&
  (existsb (in_words secretWords) (nameWords n) ||
   HasSuffix (ToLower n) "token" || existsb (Contains (ToLower n)) ["secret"; "password"; "private_key"; "api_key"; "apikey"]).

Lemma plainly_secret_name n : plainly_secret n = true -> isSecretFieldName n = true.
Proof.
  unfold plainly_secret, visible_name, isSecretFieldName. destruct (in_words _ _); [done|]. cbn.
  destruct (existsb (in_words secretWords) (nameWords n)); [done|]. cbn. intros H.
  do 2 (case_match; [done|]). repeat (apply orb_true_iff in H as [H|H]); rewrite ?H, ?orb_true_r; done.
Qed.

Lemma visible_not_secret n : visible_name n = true -> isSecretFieldName n = false.
Proof. unfold visible_name, isSecretFieldName. by intros ->. Qed.

(** The document [shown] in place of the document [stored]. *)
Record redaction (stored shown : jval) : Prop := mkRedaction {
  red_same : forall p, head_of <$> jpath p shown = if existsb secret_step p then None else head_of <$> jpath p stored;
  red_secret : forall p n, In (Field n) p -> plainly_secret n = true -> jpath p shown = None;
  red_visible : forall p, Forall (fun s => match s with Field n => visible_name n = true | Element _ => True end) p ->
    head_of <$> jpath p shown = head_of <$> jpath p stored;
}.

Lemma redactSecretValue_redaction v : redaction v (redactSecretValue v).
Proof.
  split.
  - intros p. rewrite jpath_redact. destruct (existsb _ p); [done|]. destruct (jpath p v); [|done]. cbn. by rewrite head_redact.
  - intros p n Hn Hs. rewrite jpath_redact.
    replace (existsb secret_step p) with true; [done|]. symmetry. apply existsb_exists. exists (Field n).
    split; [done|]. by apply plainly_secret_name.
  - intros p Hp. rewrite jpath_redact. replace (existsb secret_step p) with false.
    + destruct (jpath p v); [|done]. cbn. by rewrite head_redact.
    + symmetry. induction Hp as [|[n|i] p Hn _ IH]; [done| |exact IH]. cbn. by rewrite visible_not_secret.
Qed.

(** C20. The admin page gets no stored secret of a key: neither the encrypted key nor
    the refresh token.  When the stored provider metadata is a JSON object, the page
    gets the text of a document in which a path through a field with a secret name leads
    nowhere, at any depth, and every other path leads to the same scalar, to a list of
    the same length or to an object, as in the stored one, or to nothing in both; names
    that say they hold a secret are secret, and the fields that may be shown are not.
    Metadata that is not a JSON object is not shown at all. *)
Theorem admin_key_redacted (k : APIKeySecrets) :
  ak_KeyEncrypted (sanitizeAPIKeyForAdmin k) = "" /\
  ak_RefreshToken (sanitizeAPIKeyForAdmin k) = "" /\
  match Unmarshal (TrimSpace (ak_SubscriptionInfo k)) with
  | Some (JObj m) =>
      exists shown, ak_SubscriptionInfo (sanitizeAPIKeyForAdmin k) = Marshal shown /\ redaction (JObj m) shown
  | _ => ak_SubscriptionInfo (sanitizeAPIKeyForAdmin k) = ""
  end.
Proof.
  do 2 (split; [done|]). cbn. unfold redactSubscriptionInfo.
  destruct (String.eqb_spec (TrimSpace (ak_SubscriptionInfo k)) "") as [->|]; [done|].
  destruct (Unmarshal _) as [[| | | | |m]|]; try done.
  exists (redactSecretValue (JObj m)). split; [done|apply redactSecretValue_redaction].
Qed.

(** ** The merge on update *)

Lemma obj_get_set m k v k' : obj_get (obj_set m k v) k' = if k' ==s k then Some v else obj_get m k'.
Proof.
  induction m as [|[k2 v2] m IH]; cbn; [done|].
  destruct (String.eqb_spec k k2) as [<-|Hne]; cbn; [by destruct (k' ==s k)|].
  destruct (String.eqb_spec k' k2) as [->|]; [|done].
  by rewrite (proj2 (String.eqb_neq _ _) (not_eq_sym Hne)).
Qed.

Lemma merge_secrets_get stored incoming k :
  obj_get (merge_secrets stored incoming).1 k =
  match obj_get incoming k with
  | Some v => Some v
  | None => if isSecretFieldName k then obj_get stored k else None
  end.
Proof.
  revert incoming; induction stored as [|[k' v'] st IH]; intros inc; cbn.
  { destruct (obj_get inc k), (isSecretFieldName k); done. }
  destruct (isSecretFieldName k') eqn:Es; cbn.
  - destruct (obj_get inc k') eqn:Eg; cbn; rewrite IH;
      [|rewrite obj_get_set]; destruct (String.eqb_spec k k') as [->|]; rewrite ?Eg, ?Es; done.
  - rewrite IH. destruct (String.eqb_spec k k') as [->|]; by rewrite ?Es.
Qed.

(** Sending the redacted metadata back keeps every top-level secret field. *)
Lemma edit_keeps_top_secrets m k :
  obj_get (merge_secrets m (redact_entries m)).1 k =
  if isSecretFieldName k then obj_get m k else redactSecretValue <$> obj_get m k.
Proof.
  rewrite merge_secrets_get, obj_get_redact.
  destruct (isSecretFieldName k); [done|]. by destruct (obj_get m k).
Qed.

(** ** Masking and restoring *)

Definition mask_entry (e : string * jval) : string * jval :=
  (e.1, if ccIsSecretKey e.1 then
          if ccShouldMask e.1 e.2 then JStr ccSecretMask
          else match e.2 with JObj _ => maskCCValue e.2 | _ => e.2 end
        else maskCCValue e.2).

Lemma mask_obj m : maskCCValue (JObj m) = JObj (map mask_entry m).
Proof. cbn. f_equal. apply map_ext. intros [k v]. unfold mask_entry. cbn. by destruct (ccIsSecretKey k). Qed.

Definition restore_entry (st : list (string * jval)) (e : string * jval) : option (string * jval) :=
  if is_mask e.2 && ccIsSecretKey e.1 then (fun old => (e.1, old)) <$> obj_get st e.1
  else Some (e.1, restoreCCMasked e.2 (default JNull (obj_get st e.1))).

Lemma restore_obj m stored :
  restoreCCMasked (JObj m) stored = JObj (omap (restore_entry (as_object stored)) m).
Proof.
  cbn. f_equal. induction m as [|[k v] m IH]; [done|]. cbn. rewrite IH. unfold restore_entry. cbn.
  destruct (is_mask v && ccIsSecretKey k); [|done]. by destruct (obj_get _ k).
Qed.

Lemma restore_arr l st :
  restoreCCMasked (JArr l) (JArr st) = JArr (imap (fun i x => restoreCCMasked x (default JNull (st !! i))) l).
Proof.
  cbn. f_equal. revert st. induction l as [|x l IH]; intros st; [done|]. cbn.
  rewrite IH. by destruct st.
Qed.

Lemma obj_get_distinct m k v : NoDup m.*1 -> (k, v) ∈ m -> obj_get m k = Some v.
Proof.
  induction m as [|[k' v'] m IH]; cbn; intros Hnd Hin; [by apply elem_of_nil in Hin|].
  apply NoDup_cons in Hnd as [Hk Hnd]. apply elem_of_cons in Hin as [[= <- <-]|Hin].
  - by rewrite String.eqb_refl.
  - destruct (String.eqb_spec k k') as [->|]; [|by apply IH].
    destruct Hk. apply list_elem_of_fmap. by exists (k', v).
Qed.

Lemma omap_map_id {A B} (f : A -> option B) (g : B -> A) (l : list B) :
  (forall x, x ∈ l -> f (g x) = Some x) -> omap f (map g l) = l.
Proof.
  induction l as [|x l IH]; intros H; [done|]. cbn. rewrite H by left.
  f_equal. apply IH. intros y Hy. apply H. by right.
Qed.

Lemma imap_map_id {A B} (f : nat -> A -> B) (g : B -> A) (l : list B) :
  (forall i x, l !! i = Some x -> f i (g x) = x) -> imap f (map g l) = l.
Proof.
  intros H. apply list_eq. intros i. rewrite list_lookup_imap, list_lookup_fmap.
  destruct (l !! i) as [x|] eqn:E; cbn; [by rewrite (H i x E)|done].
Qed.

Lemma distinct_obj m :
  distinct_keys (JObj m) -> NoDup m.*1 /\ forall e, e ∈ m -> distinct_keys e.2.
Proof. intros H. inversion H; subst; [done|]. split; [done|]. by apply Forall_forall. Qed.

Lemma distinct_arr l i x : distinct_keys (JArr l) -> l !! i = Some x -> distinct_keys x.
Proof. intros H E. inversion H; subst; [done|]. by eapply Forall_lookup_1. Qed.

(** Undoing the masks of [w], whose entries come from those of [v]. *)
Lemma restore_self v : distinct_keys v -> restoreCCMasked v v = v.
Proof.
  induction v as [| | | |l IH|m IH] using jval_nested_ind; intros Hd; try done.
  - rewrite restore_arr. f_equal. rewrite <- (map_id l) at 1. apply imap_map_id.
    intros i x E. rewrite E. cbn. eapply (Forall_lookup_1 _ _ _ _ IH E). by eapply distinct_arr.
  - rewrite restore_obj. f_equal. rewrite <- (map_id m) at 2. apply distinct_obj in Hd as [Hnd Hd].
    apply omap_map_id. intros [k x] Hin. unfold restore_entry. cbn.
    rewrite (obj_get_distinct m k x) by done. cbn. destruct (is_mask x && ccIsSecretKey k); [done|].
    rewrite Forall_forall in IH. do 2 f_equal. apply (IH _ Hin (Hd _ Hin)).
Qed.

Lemma is_mask_obj m : is_mask (maskCCValue (JObj m)) = false.
Proof. done. Qed.

Lemma restore_mask v : distinct_keys v -> restoreCCMasked (maskCCValue v) v = v.
Proof.
  induction v as [| | | |l IH|m IH] using jval_nested_ind; intros Hd; try done.
  - cbn [maskCCValue]. rewrite restore_arr. f_equal. apply imap_map_id.
    intros i x E. rewrite E. cbn. eapply (Forall_lookup_1 _ _ _ _ IH E). by eapply distinct_arr.
  - rewrite mask_obj, restore_obj. f_equal. apply distinct_obj in Hd as [Hnd Hd].
    rewrite Forall_forall in IH. apply omap_map_id. intros [k x] Hin.
    specialize (IH _ Hin (Hd _ Hin)). pose proof (restore_self _ (Hd _ Hin)) as Hs.
    unfold restore_entry, mask_entry. cbn [fst snd as_object] in *. rewrite (obj_get_distinct m k x) by done. change (default JNull (Some x)) with x.
    destruct (ccIsSecretKey k) eqn:Ek; [|by rewrite andb_false_r, IH].
    destruct (ccShouldMask k x); [done|]. rewrite andb_true_r.
    destruct x; cbn [is_mask] in *; rewrite ?is_mask_obj, ?IH, ?Hs; try done.
    by destruct (_ ==s _).
Qed.

(** Sending a masked configuration back changes nothing: for every stored
    text that decodes, each value the mask hides is put back, at every depth, and
    what the mask shows is kept. *)
Theorem mask_restore_roundtrip (config : string) (v : jval) :
  Unmarshal config = Some v -> restoreCCMasked (maskCCValue v) v = v.
Proof. intros H. by eapply restore_mask, Unmarshal_distinct. Qed.

(** No field on the allow-list of plain token settings holds a list. *)
Definition plain_keys_no_list (v : jval) : Prop :=
  forall p k l, jpath (p ++ [Field k]) v = Some (JArr l) -> ccIsPlainTokenKey k = false.

Lemma plain_keys_step s v x : plain_keys_no_list v -> jget s v = Some x -> plain_keys_no_list x.
Proof. intros H E p k l Hp. apply (H (s :: p) k l). cbn. by rewrite E. Qed.

Lemma obj_get_mask m k : obj_get (map mask_entry m) k = (fun y => (mask_entry (k, y)).2) <$> obj_get m k.
Proof.
  induction m as [|[k' y] m IH]; [done|]. cbn [map obj_get mask_entry fst snd].
  destruct (String.eqb_spec k k') as [->|]; [done|apply IH].
Qed.

Lemma jget_mask s v : jget s (maskCCValue v) =
  (fun y => match s with Field k => (mask_entry (k, y)).2 | Element _ => maskCCValue y end) <$> jget s v.
Proof.
  destruct v as [| | | |l|m]; destruct s as [k|i]; rewrite ?mask_obj; try done.
  - apply list_lookup_fmap.
  - apply obj_get_mask.
Qed.

Lemma jget_leaf s v : match v with JArr _ | JObj _ => False | _ => True end -> jget s v = None.
Proof. by destruct v, s. Qed.

(** Whatever a masked configuration shows under a key that calls for the
    mask is the mask itself, at any depth, in any configuration in which the
    allow-listed token settings hold no list. *)
Theorem mask_hides_secrets (v x : jval) (p : list jstep) (k : string) :
  plain_keys_no_list v -> jpath (p ++ [Field k]) (maskCCValue v) = Some x ->
  ccShouldMask k x = true -> x = JStr ccSecretMask.
Proof.
  revert v; induction p as [|s p IH]; intros v Hv Hp Hx; cbn [app jpath] in Hp; rewrite jget_mask in Hp.
  - destruct (jget _ v) as [y|]; [|done]. cbn in Hp. injection Hp as <-.
    destruct (ccIsSecretKey k) eqn:Ek; [|unfold ccShouldMask in Hx; rewrite Ek in Hx; by repeat case_match].
    destruct (ccShouldMask k y) eqn:Ey; [done|]. destruct y; cbn in *; congruence.
  - destruct (jget s v) as [y|] eqn:Es; [|done]. cbn in Hp.
    pose proof (plain_keys_step _ _ _ Hv Es) as Hy. destruct s as [k0|i]; [|by eapply IH].
    destruct (ccIsSecretKey k0) eqn:Ek; cbn in Hp; rewrite ?Ek in Hp; [|by eapply IH].
    destruct (ccShouldMask k0 y) eqn:Ey; [by destruct p as [|[] []]|].
    destruct y as [| | | |l|m]; try (by destruct p as [|[] []]); [|by eapply IH].
    exfalso. assert (Hl : ccIsPlainTokenKey k0 = false) by (apply (Hv [] k0 l); cbn [app jpath]; by rewrite Es).
    cbn in Ey. by rewrite Ek, Hl in Ey.
Qed.

(** ** Query strings *)

Definition pair_text (name value : string) : string := name +:+ String "=" value.

Definition secret_pair (name value : string) : bool :=
  isSecretQueryName (unescaped name) || looksLikeSecretValue value.

Lemma redact_part_pair name value : ContainsByte name "=" = false ->
  redact_part (pair_text name value) =
  pair_text name (if secret_pair name value then redacted else value).
Proof.
  intros H. unfold redact_part, pair_text. rewrite IndexByte_app by done.
  destruct (String.eqb_spec (name +:+ String "=" value) "") as [E|_]; [by destruct name|].
  rewrite str_take_app, str_drop_app_ge by lia.
  replace (slen name + 1 - slen name) with 1 by lia. cbn [str_drop].
  unfold secret_pair. by destruct (_ || _).
Qed.

Lemma redact_part_keyless p : ContainsByte p "=" = false -> p <> "" -> redact_part p = redacted.
Proof.
  intros H Hp. unfold redact_part. rewrite IndexByte_none by done.
  by destruct (String.eqb_spec p "").
Qed.

(** The shapes of a part: empty, keyless, or a name and a value. *)
Lemma part_cases p :
  p = "" \/ (p <> "" /\ ContainsByte p "=" = false) \/
  exists name value, p = pair_text name value /\ ContainsByte name "=" = false.
Proof.
  destruct (ContainsByte p "=") eqn:E.
  - right. right. apply first_byte in E as (a & b & -> & Ha). by exists a, b.
  - destruct (String.eqb_spec p ""); auto.
Qed.

Lemma redact_part_no_amp p : ContainsByte p "&" = false -> ContainsByte (redact_part p) "&" = false.
Proof.
  intros H. destruct (part_cases p) as [->|[[Hp E]|(name & value & -> & E)]]; [done| |].
  - by rewrite redact_part_keyless.
  - rewrite redact_part_pair by done. unfold pair_text in *.
    rewrite ContainsByte_app, ContainsByte_cons in *. apply orb_false_iff in H as [-> H].
    by destruct (secret_pair name value).
Qed.

Lemma redact_query_parts raw : Split (redactApprovalQuery raw) "&" = map redact_part (Split raw "&").
Proof.
  unfold redactApprovalQuery. destruct (String.eqb_spec raw "") as [->|]; [done|].
  apply Split_Join.
  - pose proof (Split_nonempty raw "&"). by destruct (Split raw "&").
  - apply Forall_map. eapply Forall_impl; [apply Split_parts_no_sep|]. apply redact_part_no_amp.
Qed.

(** A query string in a prompt or a stored request shows, part by part and
    in order, an empty part as it is, nothing of a part without a name, and of a
    part with a name its value only when neither the name nor the value looks
    like a secret; such a part is untouched. *)
Theorem approval_query_redacted (raw part shown : string) (i : nat) :
  Split raw "&" !! i = Some part -> Split (redactApprovalQuery raw) "&" !! i = Some shown ->
  (part = "" /\ shown = "") \/
  (ContainsByte part "=" = false /\ shown = redacted) \/
  exists name value, part = pair_text name value /\ ContainsByte name "=" = false /\
    shown = pair_text name (if isSecretQueryName (unescaped name) || looksLikeSecretValue value
                            then redacted else value).
Proof.
  intros Hp Hs. rewrite redact_query_parts, list_lookup_fmap, Hp in Hs. cbn in Hs. injection Hs as <-.
  destruct (part_cases part) as [->|[[Hne E]|(name & value & -> & E)]].
  - by left.
  - right. left. by rewrite redact_part_keyless.
  - right. right. exists name, value. split_and!; [done..|]. by rewrite redact_part_pair.
Qed.

End Theorems.

(** ** Witnesses and examples *)

Module RedactWitness.

#[local] Instance case : UnicodeCase := latin_case.
#[local] Instance classes : UnicodeClass :=
  {| u_is_upper := latin_upper; u_is_lower := latin_lower;
     u_is_letter r := latin_upper r || latin_lower r; u_is_digit _ := false |}.
#[local] Instance numbers : FloatText := fun _ => "0".

Definition config : string :=
  quoted "{'bot_token':'abc','max_tokens':4096,'hooks':[{'webhook_url':'https://x','name':'n'}],'pin':1234}".
Definition config_value : jval := default JNull (Unmarshal config).

Example config_shown :
  maskCCConfig config =
  quoted "{'bot_token':'********','hooks':[{'name':'n','webhook_url':'********'}],'max_tokens':0,'pin':'********'}".
Proof. vm_compute. reflexivity. Qed.

Lemma mask_restore_roundtrip_witness :
  Unmarshal config = Some config_value /\ restoreCCMasked (maskCCValue config_value) config_value = config_value.
Proof.
  split; [vm_compute; reflexivity|]. apply (mask_restore_roundtrip config). vm_compute. reflexivity.
Defined.

Definition hook : jval := JObj [("pin", JStr "1234")].

Lemma mask_hides_secrets_witness :
  jpath [Field "pin"] (maskCCValue hook) = Some (JStr ccSecretMask) /\ JStr ccSecretMask = JStr ccSecretMask.
Proof.
  split; [vm_compute; reflexivity|].
  apply (mask_hides_secrets hook (JStr ccSecretMask) [] "pin"); [|vm_compute; reflexivity..].
  intros [|[f|i] p] k l Hp; cbn in Hp; repeat case_match; simplify_eq; cbn in Hp; by destruct p as [|[] p].
Defined.

(** A list under an allow-listed key is not searched, so what it holds is shown. *)
Example plain_list_shown :
  let v := JObj [("max_tokens", JArr [JObj [("password", JStr "p")]])] in maskCCValue v = v.
Proof. vm_compute. reflexivity. Qed.

(** A nested secret is redacted for the page but not merged back on update. *)
Example nested_secret_lost :
  let stored := [("account", JObj [("refresh_token", JStr "r")]); ("id_token", JStr "i")] in
  JObj (merge_secrets stored (redact_entries stored)).1 = JObj [("account", JObj []); ("id_token", JStr "i")].
Proof. vm_compute. reflexivity. Qed.

Definition query : string := "page=2&api_key=k&&x&user[password]=p&v=aaaaaaaaaaaaaaaaaaaaaaaaaaaaaaaaaaa1".

Example query_shown :
  redactApprovalQuery query = "page=2&api_key=[redacted]&&[redacted]&user[password]=[redacted]&v=[redacted]".
Proof. vm_compute. reflexivity. Qed.

Lemma approval_query_redacted_witness :
  (Split query "&" !! 1) = Some "api_key=k" /\
  (("api_key=k" = "" /\ "api_key=[redacted]" = "") \/
   (ContainsByte "api_key=k" "=" = false /\ "api_key=[redacted]" = redacted) \/
   exists name value, "api_key=k" = pair_text name value /\ ContainsByte name "=" = false /\
     "api_key=[redacted]" = pair_text name (if isSecretQueryName (unescaped name) || looksLikeSecretValue value
                                            then redacted else value)).
Proof.
  split; [vm_compute; reflexivity|].
  apply (approval_query_redacted query "api_key=k" "api_key=[redacted]" 1); vm_compute; reflexivity.
Defined.

End RedactWitness.
