(* ===== verification/OutputPool.v ===== *)
(** * The raw-output subscription pool of Ducklord: [internal/ducklord/output_pool.go]

    The pool keeps the terminals a user is looking at connected: at most
    [capacity] subscriptions, at most seven for one daemon, and the least recently
    shown one makes room for a new one.  Opening, snapshotting and closing a stream
    are slow and happen outside the lock of the pool; leases, handoffs and host
    epochs fence what comes back late.

    [world] is the pool with all the calls in progress.  A call is a thread with a
    [point]: where it is between two critical sections of [p.mu].  [run] is one
    section of one thread, with the answer of the outside (the opener, a snapshot,
    a close) as an argument; taking an entry's [useMu] together with the section
    that follows is one step.  Pointers to entries are addresses in [p_heap]; a
    context is a number, [p_cancelled] the set of those cancelled by the pool.  A
    call of a method on a nil resource is a panic, which ends the program.

    The opener ([OutputOpenFunc]) is not part of the pool and may return any stream, also
    one it has returned before.  A resource is the number of the opening that returned
    it, and [stream_of] says which stream that was; the pool compares streams.

    Leases, identities and epochs are counters of 64 bits in the code, too many to
    be used up, and natural numbers here. *)

From S2P Require Import Prelude.
Local Open Scope go_scope.

(** A daemon admits eight observers of one owner; one connection stays free. *)
Definition maxStableOutputObserversPerDaemon : nat := 7.

Record OutputKey := mkOutputKey { ok_ClientKey : string; ok_InstanceID : string; ok_SessionID : string }.

#[global] Instance OutputKey_eq : EqDecision OutputKey.
Proof. solve_decision. Defined.

#[global] Instance OutputKey_countable : Countable OutputKey.
Proof.
  refine (inj_countable' (fun k => (ok_ClientKey k, ok_InstanceID k, ok_SessionID k))
            (fun t => mkOutputKey t.1.1 t.1.2 t.2) _).
  by intros [].
Defined.

Definition key_validate (k : OutputKey) : bool :=
  negb ((ok_ClientKey k ==s "") || (ok_InstanceID k ==s "") || (ok_SessionID k ==s "")).

(** The runtime generation. *)
Definition revision_validate (revision : nat) : bool := negb (revision =? 0)%nat.

Definition outputHost : Type := string * string.
Definition key_host (k : OutputKey) : outputHost := (ok_ClientKey k, ok_InstanceID k).
Definition key_daemon (k : OutputKey) : string := ok_InstanceID k.

Inductive pool_error :=
| ErrOutputPoolClosed | ErrHandoffBusy | ErrRestoreBusy | ErrOutputNotDesired
| ErrStaleOutputLease | ErrOutputResourceOwned
| InvalidOutputKey | InvalidRevision | PoolSizeError
| OpenError | NoResource | CommitInvalid | BindError | NoEvictable | SnapshotError | GenerationChanged
| CloseError.

Record outputPoolEntry := mkPoolEntry {
  e_key : OutputKey;
  e_lease : nat;
  e_revision : nat;
  e_resource : option nat;
  e_locked : bool;
  e_evicting : bool;
  e_restoring : bool;
  e_restoreEpoch : nat;
  e_restoreCancel : option nat;
}.

(** [h_owner] is the thread that runs the handoff. *)
Record outputHandoff := mkHandoff {
  h_id : nat;
  h_owner : nat;
  h_key : OutputKey;
  h_lease : nat;
  h_epoch : nat;
  h_victimKey : option OutputKey;
  h_victimEpoch : nat;
  h_ctx : nat;
}.

Definition h_victimHost (h : outputHandoff) : option outputHost := key_host <$> h_victimKey h.

(** Where a resource is: with the thread that opened it, in an entry, or given up.
    [p_where] records it, [p_nextResource] counts the openings and [p_dead] holds the
    resources that were closed; the code has none of the three. *)
Inductive whereabouts := Hand (t : nat) | Home (e : nat) | Gone.

Record OutputPool := mkPool {
  p_capacity : nat;
  p_entries : gmap OutputKey nat;
  p_lru : list OutputKey;
  p_active : option OutputKey;
  p_nextLease : nat;
  p_nextID : nat;
  p_hostEpoch : gmap outputHost nat;
  p_retired : gset outputHost;
  p_handoff : option outputHandoff;
  p_closed : bool;
  p_workers : nat;
  p_closeDone : bool;
  p_heap : gmap nat outputPoolEntry;
  p_nextEntry : nat;
  p_nextCtx : nat;
  p_cancelled : gset nat;
  p_nextResource : nat;
  p_dead : gset nat;
  p_where : gmap nat whereabouts;
}.

Definition NewOutputPool (capacity : Z) : result pool_error OutputPool :=
  if (capacity <? 1)%Z || (100 <? capacity)%Z then Err PoolSizeError
  else Ok (mkPool (Z.to_nat capacity) ∅ [] None 0 0 ∅ ∅ None false 0 false ∅ 0 0 ∅ 0 ∅ ∅).

(** Assignments to the fields of the pool. *)
Definition set_entries x (p : OutputPool) : OutputPool :=
  mkPool (p_capacity p) x (p_lru p) (p_active p) (p_nextLease p) (p_nextID p) (p_hostEpoch p) (p_retired p) (p_handoff p) (p_closed p) (p_workers p) (p_closeDone p) (p_heap p) (p_nextEntry p) (p_nextCtx p) (p_cancelled p) (p_nextResource p) (p_dead p) (p_where p).
Definition set_lru x (p : OutputPool) : OutputPool :=
  mkPool (p_capacity p) (p_entries p) x (p_active p) (p_nextLease p) (p_nextID p) (p_hostEpoch p) (p_retired p) (p_handoff p) (p_closed p) (p_workers p) (p_closeDone p) (p_heap p) (p_nextEntry p) (p_nextCtx p) (p_cancelled p) (p_nextResource p) (p_dead p) (p_where p).
Definition set_active x (p : OutputPool) : OutputPool :=
  mkPool (p_capacity p) (p_entries p) (p_lru p) x (p_nextLease p) (p_nextID p) (p_hostEpoch p) (p_retired p) (p_handoff p) (p_closed p) (p_workers p) (p_closeDone p) (p_heap p) (p_nextEntry p) (p_nextCtx p) (p_cancelled p) (p_nextResource p) (p_dead p) (p_where p).
Definition set_nextLease x (p : OutputPool) : OutputPool :=
  mkPool (p_capacity p) (p_entries p) (p_lru p) (p_active p) x (p_nextID p) (p_hostEpoch p) (p_retired p) (p_handoff p) (p_closed p) (p_workers p) (p_closeDone p) (p_heap p) (p_nextEntry p) (p_nextCtx p) (p_cancelled p) (p_nextResource p) (p_dead p) (p_where p).
Definition set_nextID x (p : OutputPool) : OutputPool :=
  mkPool (p_capacity p) (p_entries p) (p_lru p) (p_active p) (p_nextLease p) x (p_hostEpoch p) (p_retired p) (p_handoff p) (p_closed p) (p_workers p) (p_closeDone p) (p_heap p) (p_nextEntry p) (p_nextCtx p) (p_cancelled p) (p_nextResource p) (p_dead p) (p_where p).
Definition set_hostEpoch x (p : OutputPool) : OutputPool :=
  mkPool (p_capacity p) (p_entries p) (p_lru p) (p_active p) (p_nextLease p) (p_nextID p) x (p_retired p) (p_handoff p) (p_closed p) (p_workers p) (p_closeDone p) (p_heap p) (p_nextEntry p) (p_nextCtx p) (p_cancelled p) (p_nextResource p) (p_dead p) (p_where p).
Definition set_retired x (p : OutputPool) : OutputPool :=
  mkPool (p_capacity p) (p_entries p) (p_lru p) (p_active p) (p_nextLease p) (p_nextID p) (p_hostEpoch p) x (p_handoff p) (p_closed p) (p_workers p) (p_closeDone p) (p_heap p) (p_nextEntry p) (p_nextCtx p) (p_cancelled p) (p_nextResource p) (p_dead p) (p_where p).
Definition set_handoff x (p : OutputPool) : OutputPool :=
  mkPool (p_capacity p) (p_entries p) (p_lru p) (p_active p) (p_nextLease p) (p_nextID p) (p_hostEpoch p) (p_retired p) x (p_closed p) (p_workers p) (p_closeDone p) (p_heap p) (p_nextEntry p) (p_nextCtx p) (p_cancelled p) (p_nextResource p) (p_dead p) (p_where p).
Definition set_closed x (p : OutputPool) : OutputPool :=
  mkPool (p_capacity p) (p_entries p) (p_lru p) (p_active p) (p_nextLease p) (p_nextID p) (p_hostEpoch p) (p_retired p) (p_handoff p) x (p_workers p) (p_closeDone p) (p_heap p) (p_nextEntry p) (p_nextCtx p) (p_cancelled p) (p_nextResource p) (p_dead p) (p_where p).
Definition set_workers x (p : OutputPool) : OutputPool :=
  mkPool (p_capacity p) (p_entries p) (p_lru p) (p_active p) (p_nextLease p) (p_nextID p) (p_hostEpoch p) (p_retired p) (p_handoff p) (p_closed p) x (p_closeDone p) (p_heap p) (p_nextEntry p) (p_nextCtx p) (p_cancelled p) (p_nextResource p) (p_dead p) (p_where p).
Definition set_closeDone x (p : OutputPool) : OutputPool :=
  mkPool (p_capacity p) (p_entries p) (p_lru p) (p_active p) (p_nextLease p) (p_nextID p) (p_hostEpoch p) (p_retired p) (p_handoff p) (p_closed p) (p_workers p) x (p_heap p) (p_nextEntry p) (p_nextCtx p) (p_cancelled p) (p_nextResource p) (p_dead p) (p_where p).
Definition set_heap x (p : OutputPool) : OutputPool :=
  mkPool (p_capacity p) (p_entries p) (p_lru p) (p_active p) (p_nextLease p) (p_nextID p) (p_hostEpoch p) (p_retired p) (p_handoff p) (p_closed p) (p_workers p) (p_closeDone p) x (p_nextEntry p) (p_nextCtx p) (p_cancelled p) (p_nextResource p) (p_dead p) (p_where p).
Definition set_nextEntry x (p : OutputPool) : OutputPool :=
  mkPool (p_capacity p) (p_entries p) (p_lru p) (p_active p) (p_nextLease p) (p_nextID p) (p_hostEpoch p) (p_retired p) (p_handoff p) (p_closed p) (p_workers p) (p_closeDone p) (p_heap p) x (p_nextCtx p) (p_cancelled p) (p_nextResource p) (p_dead p) (p_where p).
Definition set_nextCtx x (p : OutputPool) : OutputPool :=
  mkPool (p_capacity p) (p_entries p) (p_lru p) (p_active p) (p_nextLease p) (p_nextID p) (p_hostEpoch p) (p_retired p) (p_handoff p) (p_closed p) (p_workers p) (p_closeDone p) (p_heap p) (p_nextEntry p) x (p_cancelled p) (p_nextResource p) (p_dead p) (p_where p).
Definition set_cancelled x (p : OutputPool) : OutputPool :=
  mkPool (p_capacity p) (p_entries p) (p_lru p) (p_active p) (p_nextLease p) (p_nextID p) (p_hostEpoch p) (p_retired p) (p_handoff p) (p_closed p) (p_workers p) (p_closeDone p) (p_heap p) (p_nextEntry p) (p_nextCtx p) x (p_nextResource p) (p_dead p) (p_where p).
Definition set_nextResource x (p : OutputPool) : OutputPool :=
  mkPool (p_capacity p) (p_entries p) (p_lru p) (p_active p) (p_nextLease p) (p_nextID p) (p_hostEpoch p) (p_retired p) (p_handoff p) (p_closed p) (p_workers p) (p_closeDone p) (p_heap p) (p_nextEntry p) (p_nextCtx p) (p_cancelled p) x (p_dead p) (p_where p).
Definition set_dead x (p : OutputPool) : OutputPool :=
  mkPool (p_capacity p) (p_entries p) (p_lru p) (p_active p) (p_nextLease p) (p_nextID p) (p_hostEpoch p) (p_retired p) (p_handoff p) (p_closed p) (p_workers p) (p_closeDone p) (p_heap p) (p_nextEntry p) (p_nextCtx p) (p_cancelled p) (p_nextResource p) x (p_where p).
Definition set_where x (p : OutputPool) : OutputPool :=
  mkPool (p_capacity p) (p_entries p) (p_lru p) (p_active p) (p_nextLease p) (p_nextID p) (p_hostEpoch p) (p_retired p) (p_handoff p) (p_closed p) (p_workers p) (p_closeDone p) (p_heap p) (p_nextEntry p) (p_nextCtx p) (p_cancelled p) (p_nextResource p) (p_dead p) x.

(** Assignments to the fields of an entry. *)
Definition put_lease x (e : outputPoolEntry) : outputPoolEntry := mkPoolEntry (e_key e) x (e_revision e) (e_resource e) (e_locked e) (e_evicting e) (e_restoring e) (e_restoreEpoch e) (e_restoreCancel e).
Definition put_revision x (e : outputPoolEntry) : outputPoolEntry := mkPoolEntry (e_key e) (e_lease e) x (e_resource e) (e_locked e) (e_evicting e) (e_restoring e) (e_restoreEpoch e) (e_restoreCancel e).
Definition put_resource x (e : outputPoolEntry) : outputPoolEntry := mkPoolEntry (e_key e) (e_lease e) (e_revision e) x (e_locked e) (e_evicting e) (e_restoring e) (e_restoreEpoch e) (e_restoreCancel e).
Definition put_locked x (e : outputPoolEntry) : outputPoolEntry := mkPoolEntry (e_key e) (e_lease e) (e_revision e) (e_resource e) x (e_evicting e) (e_restoring e) (e_restoreEpoch e) (e_restoreCancel e).
Definition put_evicting x (e : outputPoolEntry) : outputPoolEntry := mkPoolEntry (e_key e) (e_lease e) (e_revision e) (e_resource e) (e_locked e) x (e_restoring e) (e_restoreEpoch e) (e_restoreCancel e).
Definition put_restoring x (e : outputPoolEntry) : outputPoolEntry := mkPoolEntry (e_key e) (e_lease e) (e_revision e) (e_resource e) (e_locked e) (e_evicting e) x (e_restoreEpoch e) (e_restoreCancel e).
Definition put_restoreEpoch x (e : outputPoolEntry) : outputPoolEntry := mkPoolEntry (e_key e) (e_lease e) (e_revision e) (e_resource e) (e_locked e) (e_evicting e) (e_restoring e) x (e_restoreCancel e).
Definition put_restoreCancel x (e : outputPoolEntry) : outputPoolEntry := mkPoolEntry (e_key e) (e_lease e) (e_revision e) (e_resource e) (e_locked e) (e_evicting e) (e_restoring e) (e_restoreEpoch e) x.

(** ** The helpers that run under the lock *)

Definition upd (a : nat) (f : outputPoolEntry -> outputPoolEntry) (p : OutputPool) : OutputPool :=
  set_heap (alter f a (p_heap p)) p.

(** The address and the entry of a key. *)
Definition entry_of (p : OutputPool) (k : OutputKey) : option (nat * outputPoolEntry) :=
  a ← p_entries p !! k; e ← p_heap p !! a; Some (a, e).

Definition epoch_of (p : OutputPool) (host : outputHost) : nat := default 0 (p_hostEpoch p !! host).

Definition cancel_ctx (c : nat) (p : OutputPool) : OutputPool := set_cancelled ({[c]} ∪ p_cancelled p) p.
Definition cancel_opt (c : option nat) (p : OutputPool) : OutputPool :=
  match c with Some c => cancel_ctx c p | None => p end.

Definition next_lease (p : OutputPool) : OutputPool := set_nextLease (S (p_nextLease p)) p.

Definition locate (r : nat) (x : whereabouts) (p : OutputPool) : OutputPool := set_where (<[r := x]> (p_where p)) p.
Definition surrender (rs : list nat) (p : OutputPool) : OutputPool := fold_left (fun p r => locate r Gone p) rs p.

Fixpoint remove_key (k : OutputKey) (l : list OutputKey) : list OutputKey :=
  match l with
  | [] => []
  | x :: l' => if decide (x = k) then l' else x :: remove_key k l'
  end.

Definition removeLRULocked (k : OutputKey) (p : OutputPool) : OutputPool := set_lru (remove_key k (p_lru p)) p.

Definition setActiveLocked (k : OutputKey) (p : OutputPool) : OutputPool :=
  let p := removeLRULocked k p in set_active (Some k) (set_lru (p_lru p ++ [k]) p).

Definition oldestEvictionCandidateLocked (p : OutputPool) : option nat :=
  match p_lru p with [] => None | k :: _ => p_entries p !! k end.

Definition membersForDaemonLocked (d : string) (p : OutputPool) : nat :=
  size (filter (fun k => key_daemon k = d) (dom (p_entries p))).

Definition oldestEvictionCandidateForDaemonLocked (d : string) (p : OutputPool) : option nat :=
  head (omap (fun k =>
    if decide (key_daemon k = d) then
      match entry_of p k with
      | Some (a, e) => if e_evicting e || e_restoring e then None else Some a
      | None => None
      end
    else None) (p_lru p)).

Definition is_handoff (h : outputHandoff) (p : OutputPool) : bool :=
  match p_handoff p with Some h' => (h_id h' =? h_id h)%nat | None => false end.

Definition handoffCurrentLocked (h : outputHandoff) (p : OutputPool) : bool :=
  negb (p_closed p) && is_handoff h p && (epoch_of p (key_host (h_key h)) =? h_epoch h)%nat &&
  match h_victimHost h with None => true | Some host => (epoch_of p host =? h_victimEpoch h)%nat end.

Definition clearHandoffLocked (h : outputHandoff) (p : OutputPool) : OutputPool :=
  if is_handoff h p then cancel_ctx (h_ctx h) (set_handoff None p) else p.

(** The stream that each successful opening returned: the opener, whatever it does. *)
Class OutputOpener := stream_of : nat -> nat.

Section Opener.
Context {OO : OutputOpener}.

(** Streams are pointers, so their type is comparable. *)
Definition resourceOwnedLocked (r : nat) (p : OutputPool) : bool :=
  existsb (fun ka => match p_heap p !! ka.2 with
                     | Some e => bool_decide (stream_of <$> e_resource e = Some (stream_of r))
                     | None => false
                     end) (map_to_list (p_entries p)).

Definition DesiredForHost (host : outputHost) (p : OutputPool) : list OutputKey :=
  let of_active := match p_active p with Some k => if decide (key_host k = host) then [k] else [] | None => [] end in
  of_active ++ filter (fun k => key_host k = host /\ p_active p <> Some k) (rev (p_lru p)).

(** ** Calls and their program points *)

Inductive activation := Activate | ReplaceDesired | ReconnectDesired.

Definition makeActive (c : activation) : bool := match c with ReplaceDesired => false | _ => true end.
Definition requireDesired (c : activation) : bool := match c with ReplaceDesired => true | _ => false end.
Definition forceReplace (c : activation) : bool := match c with ReconnectDesired => true | _ => false end.

Inductive outcome :=
| Failed (e : pool_error)
| Activated (key : OutputKey) (revision lease : nat) (existing : bool) (evicted : option OutputKey) (closeError : bool)
| Applied
| Disconnected (done : bool)
| Returned.

Inductive point :=
| AStart (c : activation) (key : OutputKey) (revision : nat)
| AOpen (c : activation) (revision : nat) (h : outputHandoff)
| AVictim (c : activation) (revision : nat) (h : outputHandoff) (r v : nat)
| ASnapshot (c : activation) (revision : nat) (h : outputHandoff) (r v : nat)
| ASnapFailed (h : outputHandoff) (r v : nat)
| AReplace (c : activation) (revision : nat) (h : outputHandoff) (r e : nat)
| ACommit (c : activation) (revision : nat) (h : outputHandoff) (r : nat)
    (existing victim replacement replacementResource : option nat)
| WStart (key : OutputKey) (lease : nat)
| WLock (key : OutputKey) (lease e : nat)
| WApply (e r : nat)
| DStart (key : OutputKey) (lease : nat)
| DLock (key : OutputKey) (lease e : nat)
| HStart (host : outputHost)
| HWait (host : outputHost) (id : nat)
| HDetach (host : outputHost) (detached : list nat) (err : bool)
| HClose (host : outputHost) (r : nat) (detached : list nat) (err : bool)
| FStart (host : outputHost)
| FLoop (host : outputHost)
| MStart (key : OutputKey)
| MWait (key : OutputKey) (id : nat)
| MTake (e : nat)
| RStart (key : OutputKey) (revision : nat)
| ROpen (key : OutputKey) (revision e lease epoch ctx : nat)
| RFinish (e lease : nat) (rs : list nat) (o : outcome)
| CStart
| CWait
| CTake (entries : list nat) (err : bool)
| CClose (r : nat) (entries : list nat) (err : bool)
| Closing (rs : list nat) (o : outcome).

(** What the outside answers; [parent] says that the caller's context is done. *)
Inductive answer :=
| Proceed
| OpenFailed | OpenedNothing
| Opened (parent valid bound valid2 : bool)
| Snapshotted (ok : bool)
| Committed (parent bound valid : bool)
| CloseReturned (ok : bool).

Inductive next :=
| Goto (pt : point)
| GotoThen (pt : point) (todo : list point)
| Finish (o : outcome)
| Panic.

Definition closed_result (ok : bool) (o : outcome) : outcome :=
  if ok then o
  else match o with
       | Activated k rv l ex ev _ => Activated k rv l ex ev true
       | Returned => Failed CloseError
       | _ => o
       end.

(** ** [activate] *)

Definition activate_start (t : nat) (c : activation) (key : OutputKey) (revision : nat) (p : OutputPool)
  : OutputPool * next :=
  if negb (key_validate key) then (p, Finish (Failed InvalidOutputKey))
  else if negb (revision_validate revision) then (p, Finish (Failed InvalidRevision))
  else if p_closed p then (p, Finish (Failed ErrOutputPoolClosed))
  else if bool_decide (key_host key ∈ p_retired p) then (p, Finish (Failed ErrStaleOutputLease))
  else if bool_decide (is_Some (p_handoff p)) then (p, Finish (Failed ErrHandoffBusy))
  else
    let begin :=
      let lease := S (p_nextLease p) in
      let id := S (p_nextID p) in
      let ctx := p_nextCtx p in
      let h := mkHandoff id t key lease (epoch_of p (key_host key)) None 0 ctx in
      (set_workers (S (p_workers p)) (set_handoff (Some h) (set_nextCtx (S ctx) (set_nextID id (set_nextLease lease p)))),
       Goto (AOpen c revision h)) in
    match entry_of p key with
    | None => if requireDesired c then (p, Finish (Failed ErrOutputNotDesired)) else begin
    | Some (a, e) =>
        if e_restoring e then (p, Finish (Failed ErrRestoreBusy))
        else if bool_decide (is_Some (e_resource e)) && (e_revision e =? revision)%nat && negb (e_evicting e) && negb (forceReplace c)
        then (if makeActive c then setActiveLocked key p else p,
              Finish (Activated key revision (e_lease e) true None false))
        else begin
    end.

Definition abort (h : outputHandoff) (rs : list nat) (err : pool_error) (p : OutputPool) : OutputPool * next :=
  (surrender rs (clearHandoffLocked h p), Goto (Closing rs (Failed err))).

Definition with_victim (k : OutputKey) (epoch : nat) (h : outputHandoff) : outputHandoff :=
  mkHandoff (h_id h) (h_owner h) (h_key h) (h_lease h) (h_epoch h) (Some k) epoch (h_ctx h).

(** The section after the opener returned [r]: what to evict or replace. *)
Definition activate_prepare (c : activation) (revision : nat) (h : outputHandoff) (r : nat) (parent valid : bool)
  (p : OutputPool) : OutputPool * next :=
  if parent || bool_decide (h_ctx h ∈ p_cancelled p) || negb (handoffCurrentLocked h p)
  then abort h [r] ErrStaleOutputLease p
  else if negb valid then abort h [r] CommitInvalid p
  else
    match entry_of p (h_key h) with
    | Some (a, e) =>
        if bool_decide (is_Some (e_resource e))
        then (upd a (put_evicting true) p, Goto (AReplace c revision h r a))
        else (p, Goto (ACommit c revision h r (Some a) None None None))
    | None =>
        let daemon := key_daemon (h_key h) in
        let crowded := (maxStableOutputObserversPerDaemon <=? membersForDaemonLocked daemon p)%nat in
        let full := (p_capacity p <=? size (p_entries p))%nat in
        let victim := if crowded then oldestEvictionCandidateForDaemonLocked daemon p
                      else if full then oldestEvictionCandidateLocked p else None in
        if full || crowded then
          match v ← victim; e ← p_heap p !! v; Some (v, e) with
          | None => abort h [r] NoEvictable p
          | Some (v, e) =>
              let h' := with_victim (e_key e) (epoch_of p (key_host (e_key e))) h in
              (set_handoff (Some h') (upd v (put_evicting true) p), Goto (AVictim c revision h' r v))
          end
        else (p, Goto (ACommit c revision h r None None None None))
    end.

(** [if entry != nil && p.entries[entry.key] == entry { entry.evicting = false }]. *)
Definition unmark (a : option nat) (p : OutputPool) : OutputPool :=
  match a with
  | Some a =>
      match p_heap p !! a with
      | Some e => if bool_decide (p_entries p !! e_key e = Some a) then upd a (put_evicting false) p else p
      | None => p
      end
  | None => p
  end.

Definition installed (lease revision r : nat) (e : outputPoolEntry) : outputPoolEntry :=
  put_evicting false (put_restoring false (put_resource (Some r) (put_revision revision (put_lease lease e)))).

Definition new_entry (key : OutputKey) : outputPoolEntry := mkPoolEntry key 0 0 None false false false 0 None.

Definition resource_at (a : option nat) (p : OutputPool) : option nat := a ← a; e ← p_heap p !! a; e_resource e.

(** The last section: install the resource, show it, drop the victim. *)
Definition activate_install (c : activation) (revision : nat) (h : outputHandoff) (r : nat)
  (existing victim replacementResource : option nat) (p : OutputPool) : OutputPool * next :=
  let key := h_key h in
  let old := match replacementResource with Some x => Some x | None => resource_at existing p end in
  let a := match existing with Some a => a | None => p_nextEntry p end in
  let p1 := match existing with
            | Some _ => p
            | None => set_nextEntry (S a) (set_heap (<[a := new_entry key]> (p_heap p)) (set_entries (<[key := a]> (p_entries p)) p))
            end in
  let p2 := locate r (Home a) (upd a (installed (h_lease h) revision r) p1) in
  let p3 := if makeActive c then setActiveLocked key p2 else p2 in
  let victimResource := resource_at victim p3 in
  let evicted := v ← victim; e_key <$> p_heap p3 !! v in
  let p4 := match evicted with
            | Some vk => removeLRULocked vk (set_entries (delete vk (p_entries p3)) p3)
            | None => p3
            end in
  let closings := option_list victimResource ++
                  (if bool_decide (stream_of <$> old <> stream_of <$> victimResource) then option_list old else []) in
  (surrender closings (clearHandoffLocked h p4),
   Goto (Closing closings (Activated key revision (h_lease h) false evicted false))).

Definition activate_commit (c : activation) (revision : nat) (h : outputHandoff) (r : nat)
  (existing victim replacement replacementResource : option nat) (parent bound valid : bool)
  (p : OutputPool) : OutputPool * next :=
  let rollback err := abort h [r] err (unmark replacement (unmark victim p)) in
  if parent || bool_decide (h_ctx h ∈ p_cancelled p) || negb (handoffCurrentLocked h p) then rollback ErrStaleOutputLease
  else if resourceOwnedLocked r p
  then (clearHandoffLocked h (unmark replacement (unmark victim p)), Finish (Failed ErrOutputResourceOwned))
  else if negb bound then rollback BindError
  else if negb valid then rollback CommitInvalid
  else activate_install c revision h r existing victim replacementResource p.

(** ** Leases *)

(** The entry serves this lease. *)
Definition serves (lease : nat) (e : outputPoolEntry) : bool :=
  (e_lease e =? lease)%nat && bool_decide (is_Some (e_resource e)) && negb (e_evicting e) && negb (e_restoring e).

Definition withLease_start (key : OutputKey) (lease : nat) (p : OutputPool) : OutputPool * next :=
  match entry_of p key with
  | Some (a, e) => if serves lease e then (p, Goto (WLock key lease a)) else (p, Finish (Failed ErrStaleOutputLease))
  | None => (p, Finish (Failed ErrStaleOutputLease))
  end.

Definition withLease_check (key : OutputKey) (lease a : nat) (e : outputPoolEntry) (p : OutputPool) : OutputPool * next :=
  if bool_decide (p_entries p !! key = Some a) && serves lease e
  then (upd a (put_locked true) p, Goto (WApply a (default 0 (e_resource e))))
  else (p, Finish (Failed ErrStaleOutputLease)).

Definition disconnectLease_start (key : OutputKey) (lease : nat) (p : OutputPool) : OutputPool * next :=
  match entry_of p key with
  | Some (a, e) => if serves lease e then (upd a (put_evicting true) p, Goto (DLock key lease a))
                   else (p, Finish (Disconnected false))
  | None => (p, Finish (Disconnected false))
  end.

Definition disconnectLease_finish (key : OutputKey) (lease a : nat) (e : outputPoolEntry) (p : OutputPool) : OutputPool * next :=
  if bool_decide (p_entries p !! key = Some a) && (e_lease e =? lease)%nat && bool_decide (is_Some (e_resource e))
     && e_evicting e && negb (e_restoring e)
  then (surrender (option_list (e_resource e))
          (upd a (fun e => put_evicting false (put_resource None (put_lease (S (p_nextLease p)) e))) (next_lease p)),
        Finish (Disconnected true))
  else (p, Finish (Disconnected false)).

(** ** Hosts *)

(** One iteration of the loop that detaches the entries of a host. *)
Definition detach_one (host : outputHost) (acc : OutputPool * list nat) (a : nat) : OutputPool * list nat :=
  let '(p, detached) := acc in
  match p_heap p !! a with
  | None => (p, detached)
  | Some e =>
      if bool_decide (key_host (e_key e) = host) && negb (e_evicting e) then
        let p := cancel_opt (e_restoreCancel e) p in
        let lease := S (p_nextLease p) in
        (upd a (fun e => put_lease lease (put_evicting true (put_restoring false (put_restoreCancel None e)))) (next_lease p),
         if bool_decide (is_Some (e_resource e)) then detached ++ [a] else detached)
      else (p, detached)
  end.

Definition addresses (p : OutputPool) : list nat := map snd (map_to_list (p_entries p)).

Definition handoff_on_host (host : outputHost) (p : OutputPool) : option outputHandoff :=
  match p_handoff p with
  | Some h => if bool_decide (key_host (h_key h) = host) || bool_decide (h_victimHost h = Some host) then Some h else None
  | None => None
  end.

Definition disconnectHost_start (host : outputHost) (p : OutputPool) : OutputPool * next :=
  if p_closed p then (p, Finish (Failed ErrOutputPoolClosed))
  else
    let p := set_hostEpoch (<[host := S (epoch_of p host)]> (p_hostEpoch p)) p in
    match handoff_on_host host p with
    | Some h => (cancel_ctx (h_ctx h) p, Goto (HWait host (h_id h)))
    | None => let '(p, detached) := fold_left (detach_one host) (addresses p) (p, []) in
              (p, Goto (HDetach host detached false))
    end.

(** [resource := entry.resource; entry.resource = nil]. *)
Definition take_resource (a : nat) (p : OutputPool) : OutputPool :=
  surrender (option_list (resource_at (Some a) p)) (upd a (put_resource None) p).

Definition disconnectHost_take (host : outputHost) (a : nat) (es : list nat) (err : bool) (p : OutputPool) : OutputPool * next :=
  (take_resource a p,
   match resource_at (Some a) p with Some r => Goto (HClose host r es err) | None => Panic end).

Definition unmark_host (host : outputHost) (p : OutputPool) : OutputPool :=
  fold_left (fun p a => match p_heap p !! a with
                        | Some e => if bool_decide (key_host (e_key e) = host) then upd a (put_evicting false) p else p
                        | None => p
                        end) (addresses p) p.

Definition disconnectHost_finish (host : outputHost) (err : bool) (p : OutputPool) : OutputPool * next :=
  (unmark_host host p, Finish (if err then Failed CloseError else Returned)).

Definition forgetHost_start (host : outputHost) (p : OutputPool) : OutputPool * next :=
  if p_closed p then (p, Finish (Failed ErrOutputPoolClosed))
  else (set_retired ({[host]} ∪ p_retired p) p, GotoThen (HStart host) [FLoop host]).

Definition forgetHost_loop (host : outputHost) (p : OutputPool) : OutputPool * next :=
  match DesiredForHost host p with
  | [] => (p, Finish Returned)
  | k :: ks => (p, GotoThen (MStart k) (map MStart ks ++ [FLoop host]))
  end.

(** ** [RemoveDesired] *)

Definition handoff_on_key (key : OutputKey) (p : OutputPool) : option outputHandoff :=
  match p_handoff p with
  | Some h => if bool_decide (h_key h = key) || bool_decide (h_victimKey h = Some key) then Some h else None
  | None => None
  end.

Definition remove_start (key : OutputKey) (p : OutputPool) : OutputPool * next :=
  if negb (key_validate key) then (p, Finish (Failed InvalidOutputKey))
  else if p_closed p then (p, Finish (Failed ErrOutputPoolClosed))
  else
    match handoff_on_key key p with
    | Some h => (cancel_ctx (h_ctx h) p, Goto (MWait key (h_id h)))
    | None =>
        match entry_of p key with
        | None => (p, Finish Returned)
        | Some (a, e) =>
            let p := cancel_opt (e_restoreCancel e) p in
            let lease := S (p_nextLease p) in
            let p := upd a (fun e => put_lease lease (put_evicting true e)) (next_lease p) in
            let p := removeLRULocked key (set_entries (delete key (p_entries p)) p) in
            (if bool_decide (p_active p = Some key) then set_active None p else p, Goto (MTake a))
        end
    end.

Definition remove_take (a : nat) (p : OutputPool) : OutputPool * next :=
  (take_resource a p, Goto (Closing (option_list (resource_at (Some a) p)) Returned)).

(** ** [RestoreDesired] *)

Definition restore_start (key : OutputKey) (revision : nat) (p : OutputPool) : OutputPool * next :=
  if negb (key_validate key) then (p, Finish (Failed InvalidOutputKey))
  else if negb (revision_validate revision) then (p, Finish (Failed InvalidRevision))
  else if p_closed p then (p, Finish (Failed ErrOutputPoolClosed))
  else
    match entry_of p key with
    | None => (p, Finish (Failed ErrOutputNotDesired))
    | Some (a, e) =>
        if bool_decide (is_Some (e_resource e)) && (e_revision e =? revision)%nat
        then (p, Finish (Activated key revision (e_lease e) true None false))
        else if bool_decide (is_Some (e_resource e)) then (p, Finish (Failed GenerationChanged))
        else if e_restoring e then (p, Finish (Failed ErrRestoreBusy))
        else
          let lease := S (p_nextLease p) in
          let epoch := epoch_of p (key_host key) in
          let ctx := p_nextCtx p in
          let p := upd a (fun e => put_restoreCancel (Some ctx) (put_restoreEpoch epoch (put_restoring true
                            (put_revision revision (put_lease lease e))))) (next_lease p) in
          (set_workers (S (p_workers p)) (set_nextCtx (S ctx) p), Goto (ROpen key revision a lease epoch ctx))
    end.

Definition restore_commit (key : OutputKey) (revision a lease epoch ctx r : nat) (parent valid bound valid2 : bool)
  (p : OutputPool) : OutputPool * next :=
  let fail rs err := (p, Goto (RFinish a lease rs (Failed err))) in
  match p_heap p !! a with
  | None => fail [r] ErrStaleOutputLease
  | Some e =>
      if parent || bool_decide (ctx ∈ p_cancelled p) || p_closed p || negb (bool_decide (p_entries p !! key = Some a))
         || negb (e_restoring e) || negb (e_lease e =? lease)%nat || negb (e_restoreEpoch e =? epoch)%nat
         || negb (epoch_of p (key_host key) =? epoch)%nat
      then fail [r] ErrStaleOutputLease
      else if negb valid then fail [r] CommitInvalid
      else if resourceOwnedLocked r p then fail [] ErrOutputResourceOwned
      else if negb bound then fail [r] BindError
      else if negb valid2 then fail [r] CommitInvalid
      else (cancel_ctx ctx (locate r (Home a)
              (upd a (fun e => put_restoreCancel None (put_restoring false (put_resource (Some r) e))) p)),
            Finish (Activated key revision lease false None false))
  end.

Definition finishRestore (a lease : nat) (p : OutputPool) : OutputPool :=
  match p_heap p !! a with
  | None => p
  | Some e =>
      if bool_decide (p_entries p !! e_key e = Some a) && e_restoring e && (e_lease e =? lease)%nat
      then cancel_opt (e_restoreCancel e) (upd a (fun e => put_restoreCancel None (put_restoring false e)) p)
      else p
  end.

(** ** [Close] *)

Definition close_one (p : OutputPool) (a : nat) : OutputPool :=
  match p_heap p !! a with
  | None => p
  | Some e => upd a (put_evicting true) (cancel_opt (e_restoreCancel e) p)
  end.

Definition close_start (p : OutputPool) : OutputPool * next :=
  if p_closed p then (p, Goto CWait)
  else
    let p := set_closed true p in
    let p := match p_handoff p with Some h => cancel_ctx (h_ctx h) p | None => p end in
    (fold_left close_one (addresses p) p, Goto (CTake (addresses p) false)).

Definition close_take (a : nat) (es : list nat) (err : bool) (p : OutputPool) : OutputPool * next :=
  (take_resource a p,
   match resource_at (Some a) p with Some r => Goto (CClose r es err) | None => Goto (CTake es err) end).

Record OutputPoolStatus := mkPoolStatus {
  ps_Capacity : nat; ps_Count : nat; ps_Connected : nat; ps_Active : option OutputKey;
  ps_Desired : list OutputKey; ps_Handoff : bool; ps_Closed : bool;
}.

Definition Status (p : OutputPool) : OutputPoolStatus :=
  mkPoolStatus (p_capacity p) (size (p_entries p))
    (length (filter (fun a => is_Some (resource_at (Some a) p)) (addresses p)))
    (p_active p) (p_lru p) (bool_decide (is_Some (p_handoff p))) (p_closed p).

(** ** Steps *)

(** The mutex of an entry is free. *)
Definition free (a : nat) (p : OutputPool) : option outputPoolEntry :=
  e ← p_heap p !! a; if e_locked e then None else Some e.

Definition die (r : nat) (p : OutputPool) : OutputPool := set_dead ({[r]} ∪ p_dead p) p.

(** The resource of the next opening, in the hands of thread [t]. *)
Definition fresh_resource (t : nat) (p : OutputPool) : nat * OutputPool :=
  let r := p_nextResource p in (r, locate r (Hand t) (set_nextResource (S r) p)).

Definition handoff_over (id : nat) (p : OutputPool) : bool :=
  match p_handoff p with Some h => negb (h_id h =? id)%nat | None => true end.

(** One section of thread [t], which is at [pt]; [None] when it has to wait. *)
Definition section (t : nat) (pt : point) (ans : answer) (p : OutputPool) : option (OutputPool * next) :=
  match pt, ans with
  | AStart c key revision, Proceed => Some (activate_start t c key revision p)
  | AOpen c revision h, OpenFailed => Some (clearHandoffLocked h p, Finish (Failed OpenError))
  | AOpen c revision h, OpenedNothing => Some (clearHandoffLocked h p, Finish (Failed NoResource))
  | AOpen c revision h, Opened parent valid _ _ =>
      let '(r, p) := fresh_resource t p in Some (activate_prepare c revision h r parent valid p)
  | AVictim c revision h r v, Proceed =>
      e ← free v p;
      match e_resource e with
      | None => Some (p, Panic)
      | Some _ => Some (upd v (put_locked true) p, Goto (ASnapshot c revision h r v))
      end
  | ASnapshot c revision h r v, Snapshotted ok =>
      Some (upd v (put_locked false) p,
            if ok then Goto (ACommit c revision h r None (Some v) None None) else Goto (ASnapFailed h r v))
  | ASnapFailed h r v, Proceed => Some (abort h [r] SnapshotError (unmark (Some v) p))
  | AReplace c revision h r a, Proceed =>
      e ← free a p; Some (p, Goto (ACommit c revision h r (Some a) None (Some a) (e_resource e)))
  | ACommit c revision h r existing victim replacement replacementResource, Committed parent bound valid =>
      Some (activate_commit c revision h r existing victim replacement replacementResource parent bound valid p)
  | WStart key lease, Proceed => Some (withLease_start key lease p)
  | WLock key lease a, Proceed => e ← free a p; Some (withLease_check key lease a e p)
  | WApply a r, Proceed => Some (upd a (put_locked false) p, Finish Applied)
  | DStart key lease, Proceed => Some (disconnectLease_start key lease p)
  | DLock key lease a, Proceed => e ← free a p; Some (disconnectLease_finish key lease a e p)
  | HStart host, Proceed => Some (disconnectHost_start host p)
  | HWait host id, Proceed => if handoff_over id p then Some (p, Goto (HStart host)) else None
  | HDetach host [] err, Proceed => Some (disconnectHost_finish host err p)
  | HDetach host (a :: es) err, Proceed => _ ← free a p; Some (disconnectHost_take host a es err p)
  | HClose host r es err, CloseReturned ok => Some (die r p, Goto (HDetach host es (err || negb ok)))
  | FStart host, Proceed => Some (forgetHost_start host p)
  | FLoop host, Proceed => Some (forgetHost_loop host p)
  | MStart key, Proceed => Some (remove_start key p)
  | MWait key id, Proceed => if handoff_over id p then Some (p, Goto (MStart key)) else None
  | MTake a, Proceed => _ ← free a p; Some (remove_take a p)
  | RStart key revision, Proceed => Some (restore_start key revision p)
  | ROpen _ _ a lease _ _, OpenFailed => Some (p, Goto (RFinish a lease [] (Failed OpenError)))
  | ROpen _ _ a lease _ _, OpenedNothing => Some (p, Goto (RFinish a lease [] (Failed NoResource)))
  | ROpen key revision a lease epoch ctx, Opened parent valid bound valid2 =>
      let '(r, p) := fresh_resource t p in
      Some (restore_commit key revision a lease epoch ctx r parent valid bound valid2 p)
  | RFinish a lease rs o, Proceed => Some (surrender rs (finishRestore a lease p), Goto (Closing rs o))
  | CStart, Proceed => Some (close_start p)
  | CWait, Proceed => if p_closeDone p then Some (p, Finish Returned) else None
  | CTake [] err, Proceed =>
      if (p_workers p =? 0)%nat then Some (set_closeDone true p, Finish (if err then Failed CloseError else Returned)) else None
  | CTake (a :: es) err, Proceed => _ ← free a p; Some (close_take a es err p)
  | CClose r es err, CloseReturned ok => Some (die r p, Goto (CTake es (err || negb ok)))
  | Closing [] o, Proceed => Some (p, Finish o)
  | Closing (r :: rs) o, CloseReturned ok => Some (die r p, Goto (Closing rs (closed_result ok o)))
  | _, _ => None
  end.

Record thread := mkThread { t_point : point; t_todo : list point; t_worker : bool }.

Record world := mkWorld {
  w_pool : OutputPool;
  w_threads : gmap nat thread;
  w_next : nat;
  w_results : gmap nat outcome;
  w_panic : bool;
}.

Definition worker_point (pt : point) : bool :=
  match pt with AOpen _ _ _ | ROpen _ _ _ _ _ _ => true | _ => false end.

Definition failed (o : outcome) : bool := match o with Failed _ => true | _ => false end.

(** The calls of the API, as the points they start at. *)
Definition is_call (pt : point) : bool :=
  match pt with
  | AStart _ _ _ | WStart _ _ | DStart _ _ | HStart _ | FStart _ | MStart _ | RStart _ _ | CStart => true
  | _ => false
  end.

Inductive action := Call (pt : point) | Run (t : nat) (ans : answer).

Definition settle (t : nat) (th : thread) (p : OutputPool) (n : next) (w : world) : world :=
  let go pt todo := mkWorld p (<[t := mkThread pt todo (t_worker th || worker_point pt)]> (w_threads w)) (w_next w) (w_results w) false in
  match n with
  | Goto pt => go pt (t_todo th)
  | GotoThen pt todo => go pt (todo ++ t_todo th)
  | Finish o =>
      let p := if t_worker th then set_workers (p_workers p - 1) p else p in
      match t_todo th with
      | pt :: todo =>
          if failed o then mkWorld p (delete t (w_threads w)) (w_next w) (<[t := o]> (w_results w)) false
          else mkWorld p (<[t := mkThread pt todo false]> (w_threads w)) (w_next w) (w_results w) false
      | [] => mkWorld p (delete t (w_threads w)) (w_next w) (<[t := o]> (w_results w)) false
      end
  | Panic => mkWorld p (delete t (w_threads w)) (w_next w) (w_results w) true
  end.

Definition step (a : action) (w : world) : option world :=
  if w_panic w then None
  else match a with
       | Call pt =>
           if is_call pt
           then Some (mkWorld (w_pool w) (<[w_next w := mkThread pt [] false]> (w_threads w)) (S (w_next w)) (w_results w) false)
           else None
       | Run t ans =>
           th ← w_threads w !! t;
           '(p, n) ← section t (t_point th) ans (w_pool w);
           Some (settle t th p n w)
       end.

Fixpoint steps (l : list action) (w : world) : option world :=
  match l with [] => Some w | a :: l' => w' ← step a w; steps l' w' end.

Definition start (p : OutputPool) : world := mkWorld p ∅ 0 ∅ false.

Lemma steps_app l1 l2 w : steps (l1 ++ l2) w = w' ← steps l1 w; steps l2 w'.
Proof. revert w; induction l1 as [|a l1 IH]; intros w; [done|]. cbn. destruct (step a w); cbn; auto. Qed.

End Opener.
