(* ===== verification/OutputPoolSafety.v ===== *)
(** * The output pool under any interleaving of its calls

    [pool_ok] is the invariant of the pool, [thread_ok] what a thread relies on at
    its program point, and [rely] what the steps of one thread leave alone for the
    others.  Most sections are [benign]: they change only flags, leases and
    contexts, or take a resource out of an entry. *)

From S2P Require Import Prelude OutputPool.
Local Open Scope go_scope.

(** ** The invariant *)

(** The limits. *)
Definition within (p : OutputPool) : Prop :=
  (size (p_entries p) <= p_capacity p)%nat /\
  forall d, (membersForDaemonLocked d p <= maxStableOutputObserversPerDaemon)%nat.

Lemma within_ext p p' : p_capacity p' = p_capacity p -> p_entries p' = p_entries p -> within p -> within p'.
Proof. intros E1 E2 [H1 H2]. unfold within, membersForDaemonLocked. by rewrite E1, E2. Qed.

Definition hand (t : nat) (p : OutputPool) (r : nat) : Prop := p_where p !! r = Some (Hand t).
Definition gone (p : OutputPool) (r : nat) : Prop := p_where p !! r = Some Gone.
Definition holds (t : nat) (h : outputHandoff) (p : OutputPool) : Prop := p_handoff p = Some h /\ h_owner h = t.

Definition room (d : string) (p : OutputPool) : Prop :=
  (membersForDaemonLocked d p < maxStableOutputObserversPerDaemon)%nat.

(** The victim is still a member, and dropping it makes room for the new one. *)
Definition victim_ok (h : outputHandoff) (v : nat) (p : OutputPool) : Prop :=
  exists vk, h_victimKey h = Some vk /\ p_entries p !! vk = Some v /\
    (room (key_daemon (h_key h)) p \/ key_daemon vk = key_daemon (h_key h)).

Definition thread_ok (t : nat) (p : OutputPool) (pt : point) : Prop :=
  match pt with
  | AOpen c _ h => holds t h p /\ (makeActive c = false -> is_Some (p_entries p !! h_key h))
  | AVictim c _ h r v | ASnapshot c _ h r v =>
      holds t h p /\ hand t p r /\ p_entries p !! h_key h = None /\ makeActive c = true /\ victim_ok h v p
  | ASnapFailed h r _ => holds t h p /\ hand t p r
  | AReplace c _ h r a => holds t h p /\ hand t p r /\ p_entries p !! h_key h = Some a
  | ACommit c _ h r (Some a) victim _ old =>
      holds t h p /\ hand t p r /\ p_entries p !! h_key h = Some a /\ victim = None /\
      (forall x, old = Some x -> p_where p !! x = Some (Home a) \/ gone p x)
  | ACommit c _ h r None victim _ old =>
      holds t h p /\ hand t p r /\ p_entries p !! h_key h = None /\ makeActive c = true /\ old = None /\
      match victim with
      | Some v => victim_ok h v p
      | None => (size (p_entries p) < p_capacity p)%nat /\ room (key_daemon (h_key h)) p
      end
  | HClose _ r _ _ | CClose r _ _ => gone p r
  | RFinish _ _ rs _ => Forall (hand t p) rs
  | Closing rs _ => Forall (gone p) rs
  | _ => True
  end.

(** Points that rely on nothing. *)
Definition quiet (pt : point) : bool := is_call pt || match pt with FLoop _ => true | _ => false end.

Lemma quiet_ok t p pt : quiet pt = true -> thread_ok t p pt.
Proof. by destruct pt. Qed.

(** ** What a step leaves to the other threads *)

Record rely (t : nat) (p p' : OutputPool) : Prop := mkRely {
  re_capacity : p_capacity p' = p_capacity p;
  re_handoff : forall h, p_handoff p = Some h -> h_owner h <> t -> p_handoff p' = Some h;
  re_keys : forall h k, p_handoff p = Some h -> h_owner h <> t -> k = h_key h \/ h_victimKey h = Some k ->
    p_entries p' !! k = p_entries p !! k;
  re_entries : forall h, p_handoff p = Some h -> h_owner h <> t -> p_entries p' ⊆ p_entries p;
  re_hand : forall u r, u <> t -> p_where p !! r = Some (Hand u) -> p_where p' !! r = Some (Hand u);
  re_gone : forall r, gone p r -> gone p' r;
  re_home : forall r a, p_where p !! r = Some (Home a) -> p_where p' !! r = Some (Home a) \/ gone p' r;
}.

Lemma members_subset d (p p' : OutputPool) :
  p_entries p' ⊆ p_entries p -> (membersForDaemonLocked d p' <= membersForDaemonLocked d p)%nat.
Proof.
  intros H. unfold membersForDaemonLocked. apply subseteq_size.
  apply subseteq_dom in H. set_solver.
Qed.

Lemma room_rely t d h p p' :
  rely t p p' -> p_handoff p = Some h -> h_owner h <> t -> room d p -> room d p'.
Proof.
  intros R Hh Ho. unfold room. pose proof (members_subset d p p' (re_entries _ _ _ R h Hh Ho)). lia.
Qed.

Lemma victim_rely t h v p p' :
  rely t p p' -> p_handoff p = Some h -> h_owner h <> t -> victim_ok h v p -> victim_ok h v p'.
Proof.
  intros R Hh Ho (vk & Hk & Hv & Hr). exists vk. split_and!; [done| |].
  - by rewrite (re_keys _ _ _ R h vk Hh Ho (or_intror Hk)).
  - destruct Hr as [Hr|Hr]; [left; by eapply room_rely|by right].
Qed.

Lemma holds_rely t u h p p' : u <> t -> rely t p p' -> holds u h p -> holds u h p'.
Proof. intros Hu R [Hh Ho]. split; [|done]. apply (re_handoff _ _ _ R); [done|congruence]. Qed.

Lemma key_rely t u h p p' :
  u <> t -> rely t p p' -> holds u h p -> p_entries p' !! h_key h = p_entries p !! h_key h.
Proof. intros Hu R [Hh Ho]. eapply re_keys; eauto. congruence. Qed.

(** What a thread relies on survives the steps of the others. *)
Lemma thread_ok_rely t u p p' pt : u <> t -> rely t p p' -> thread_ok u p pt -> thread_ok u p' pt.
Proof.
  intros Hu R.
  assert (Hhand : forall r, hand u p r -> hand u p' r) by (intros r; by apply (re_hand _ _ _ R)).
  destruct pt as [| | | | | |c rv h r [a|] victim rp old| | | | | | | | | | | | | | | | | | | | | |];
    cbn [thread_ok]; try done.
  - intros [Hh He]. split; [by eapply holds_rely|]. rewrite (key_rely t u _ p p') by done. done.
  - intros (Hh & Hr & Hk & Hc & Hv). split_and!; eauto using holds_rely;
      [by rewrite (key_rely t u _ p p')|]. destruct Hh. eapply victim_rely; eauto. congruence.
  - intros (Hh & Hr & Hk & Hc & Hv). split_and!; eauto using holds_rely;
      [by rewrite (key_rely t u _ p p')|]. destruct Hh. eapply victim_rely; eauto. congruence.
  - intros (Hh & Hr). split; eauto using holds_rely.
  - intros (Hh & Hr & Hk). split_and!; eauto using holds_rely. by rewrite (key_rely t u _ p p').
  - intros (Hh & Hr & Hk & Hv & Ho). split_and!; eauto using holds_rely; [by rewrite (key_rely t u _ p p')|].
    intros x Hx. destruct (Ho x Hx) as [H|H]; [by apply (re_home _ _ _ R)|right; by apply (re_gone _ _ _ R)].
  - intros (Hh & Hr & Hk & Hc & Ho & Hv). split_and!; eauto using holds_rely; [by rewrite (key_rely t u _ p p')|].
    destruct Hh as [Hh Hw]. assert (h_owner h <> t) by congruence.
    destruct victim as [v|]; [by eapply victim_rely|]. destruct Hv as [Hs Hm]. split; [|by eapply room_rely].
    rewrite (re_capacity _ _ _ R). eapply Nat.le_lt_trans; [|exact Hs].
    apply map_subseteq_size, (re_entries _ _ _ R h); done.
  - apply (re_gone _ _ _ R).
  - intros H. eapply Forall_impl; [exact H|auto].
  - apply (re_gone _ _ _ R).
  - intros H. eapply Forall_impl; [exact H|]. apply (re_gone _ _ _ R).
Qed.

(** ** Benign changes *)

(** The same entry, perhaps without its resource. *)
Definition entry_le (e e' : outputPoolEntry) : Prop :=
  e_key e' = e_key e /\ (e_resource e' = e_resource e \/ e_resource e' = None).

Record benign (p p' : OutputPool) : Prop := mkBenign {
  be_capacity : p_capacity p' = p_capacity p;
  be_entries : p_entries p' = p_entries p;
  be_lru : p_lru p' = p_lru p;
  be_active : p_active p' = p_active p;
  be_handoff : p_handoff p' = p_handoff p;
  be_where : p_where p' = p_where p;
  be_dead : p_dead p' = p_dead p;
  be_nextEntry : p_nextEntry p' = p_nextEntry p;
  be_nextResource : p_nextResource p' = p_nextResource p;
  be_heap : forall a, option_Forall2 entry_le (p_heap p !! a) (p_heap p' !! a);
}.

#[export] Instance entry_le_refl : Reflexive entry_le.
Proof. intros e. split; auto. Qed.

#[export] Instance benign_refl : Reflexive benign.
Proof. intros p. by split. Qed.

#[export] Instance benign_trans : Transitive benign.
Proof.
  intros p q s [] []. split; try congruence. intros a.
  specialize (be_heap0 a). specialize (be_heap1 a).
  inversion be_heap0 as [x y [K1 R1] E1 E2|E1 E2]; inversion be_heap1 as [x' y' [K2 R2] E3 E4|E3 E4];
    rewrite <- ?E2 in *; simplify_eq; try congruence; constructor.
  split; [congruence|]. destruct R1, R2; auto; left + right; congruence.
Qed.

Lemma benign_upd a f p : (forall e, entry_le e (f e)) -> benign p (upd a f p).
Proof.
  intros Hf. split; try done. intros b. cbn. destruct (decide (a = b)) as [->|Hne].
  - rewrite lookup_alter_eq. destruct (p_heap p !! b); constructor. apply Hf.
  - rewrite lookup_alter_ne by done. destruct (p_heap p !! b); by constructor.
Qed.

Lemma benign_heap_eq p p' :
  p_capacity p' = p_capacity p -> p_entries p' = p_entries p -> p_lru p' = p_lru p -> p_active p' = p_active p ->
  p_handoff p' = p_handoff p -> p_where p' = p_where p -> p_dead p' = p_dead p -> p_nextEntry p' = p_nextEntry p ->
  p_nextResource p' = p_nextResource p -> p_heap p' = p_heap p -> benign p p'.
Proof. intros. split; try done. intros a. rewrite H8. by destruct (p_heap p !! a); constructor. Qed.

Lemma benign_cancel c p : benign p (cancel_ctx c p).
Proof. by apply benign_heap_eq. Qed.
Lemma benign_cancel_opt c p : benign p (cancel_opt c p).
Proof. destruct c; [apply benign_cancel|done]. Qed.
Lemma benign_next_lease p : benign p (next_lease p).
Proof. by apply benign_heap_eq. Qed.
Lemma benign_nextLease x p : benign p (set_nextLease x p).
Proof. by apply benign_heap_eq. Qed.
Lemma benign_nextID x p : benign p (set_nextID x p).
Proof. by apply benign_heap_eq. Qed.
Lemma benign_nextCtx x p : benign p (set_nextCtx x p).
Proof. by apply benign_heap_eq. Qed.
Lemma benign_workers x p : benign p (set_workers x p).
Proof. by apply benign_heap_eq. Qed.
Lemma benign_hostEpoch x p : benign p (set_hostEpoch x p).
Proof. by apply benign_heap_eq. Qed.
Lemma benign_retired x p : benign p (set_retired x p).
Proof. by apply benign_heap_eq. Qed.
Lemma benign_closed x p : benign p (set_closed x p).
Proof. by apply benign_heap_eq. Qed.
Lemma benign_closeDone x p : benign p (set_closeDone x p).
Proof. by apply benign_heap_eq. Qed.

Create HintDb pool.
#[export] Hint Resolve benign_refl benign_cancel benign_cancel_opt benign_next_lease benign_nextLease benign_nextID
  benign_nextCtx benign_workers benign_hostEpoch benign_retired benign_closed benign_closeDone : pool.

(** [p'] is reached from [p] by benign changes, outermost first. *)
Ltac benign_tac :=
  repeat lazymatch goal with
  | |- benign ?p ?p => reflexivity
  | |- benign _ (upd _ _ _) => etransitivity; [|apply benign_upd; intros []; split; cbn; auto]
  | |- benign _ _ => etransitivity; [|solve [eauto with pool nocore]]
  end.

Lemma benign_fold {A} (f : OutputPool -> A -> OutputPool) l p :
  (forall p x, benign p (f p x)) -> benign p (fold_left f l p).
Proof. intros Hf. revert p; induction l as [|x l IH]; intros p; [done|]. cbn. etransitivity; [apply Hf|apply IH]. Qed.

Lemma benign_unmark a p : benign p (unmark a p).
Proof. unfold unmark. repeat case_match; try done. benign_tac. Qed.

Lemma benign_close_one p a : benign p (close_one p a).
Proof. unfold close_one. case_match; [|done]. etransitivity; [|apply benign_upd; by intros []; split; cbn; auto]. auto with pool. Qed.

Lemma benign_unmark_host host p : benign p (unmark_host host p).
Proof. apply benign_fold. intros q a. repeat case_match; try done. benign_tac. Qed.

Lemma benign_detach host l acc : benign acc.1 (fold_left (detach_one host) l acc).1.
Proof.
  revert acc; induction l as [|a l IH]; intros [p d]; [done|]. cbn [fold_left fst].
  etransitivity; [|apply IH]. cbn. repeat case_match; try done; cbn [fst];
    (etransitivity; [|apply benign_upd; by intros []; split; cbn; auto]);
    (etransitivity; [|apply benign_next_lease]); auto with pool.
Qed.

Lemma benign_finishRestore a lease p : benign p (finishRestore a lease p).
Proof.
  unfold finishRestore. repeat case_match; try done.
  etransitivity; [|apply benign_cancel_opt]. apply benign_upd. by intros []; split; cbn; auto.
Qed.

#[export] Hint Resolve benign_unmark benign_close_one benign_unmark_host benign_finishRestore : pool.

Lemma benign_lock a x p : benign p (upd a (put_locked x) p).
Proof. apply benign_upd. intros []; split; cbn; auto. Qed.

Lemma benign_mark a x p : benign p (upd a (put_evicting x) p).
Proof. apply benign_upd. intros []; split; cbn; auto. Qed.

#[export] Hint Resolve benign_lock benign_mark : pool.

Section Opener.
Context {OO : OutputOpener}.

(** The member [k] has the resource [r]. *)
Definition has_resource (p : OutputPool) (k : OutputKey) (r : nat) : Prop :=
  exists a e, p_entries p !! k = Some a /\ p_heap p !! a = Some e /\ e_resource e = Some r.

(** The order lists the members, the entries are theirs, and every resource is
    where the pool thinks it is; no two members have the same stream. *)
Record shape_ok (p : OutputPool) : Prop := mkShapeOk {
  ok_nodup : NoDup (p_lru p);
  ok_lru : forall k, k ∈ p_lru p <-> is_Some (p_entries p !! k);
  ok_active : forall k, p_active p = Some k -> is_Some (p_entries p !! k);
  ok_keys : forall k a, p_entries p !! k = Some a -> exists e, p_heap p !! a = Some e /\ e_key e = k;
  ok_heap : forall a, is_Some (p_heap p !! a) -> (a < p_nextEntry p)%nat;
  ok_home : forall k a e r, p_entries p !! k = Some a -> p_heap p !! a = Some e -> e_resource e = Some r ->
    p_where p !! r = Some (Home a);
  ok_heap_home : forall a e r, p_heap p !! a = Some e -> e_resource e = Some r ->
    p_where p !! r = Some (Home a) \/ p_where p !! r = Some Gone;
  ok_owned : forall k r k' r', has_resource p k r -> has_resource p k' r' -> stream_of r' = stream_of r -> k' = k;
  ok_dead : forall r, r ∈ p_dead p -> p_where p !! r = Some Gone;
  ok_where : forall r, is_Some (p_where p !! r) -> (r < p_nextResource p)%nat;
}.

Definition pool_ok (p : OutputPool) : Prop := within p /\ shape_ok p.

Lemma ok_shape p : pool_ok p -> shape_ok p.
Proof. by intros []. Qed.

Record world_ok (w : world) : Prop := mkWorldOk {
  wo_pool : pool_ok (w_pool w);
  wo_threads : forall t th, w_threads w !! t = Some th ->
    thread_ok t (w_pool w) (t_point th) /\ Forall (fun pt => quiet pt = true) (t_todo th);
  wo_fresh : forall t th, w_threads w !! t = Some th -> (t < w_next w)%nat;
}.

Lemma benign_ok p p' : benign p p' -> pool_ok p -> pool_ok p'.
Proof.
  intros B [W O]. destruct B as [B1 B2 B3 B4 B5 B6 B7 B8 B9 H]. split; [by eapply within_ext|].
  assert (Hback : forall a e', p_heap p' !! a = Some e' -> exists e, p_heap p !! a = Some e /\ entry_le e e').
  { intros a e' He. specialize (H a). rewrite He in H. inversion H; subst. eauto. }
  destruct O. split; rewrite ?B1, ?B2, ?B3, ?B4, ?B6, ?B7, ?B8, ?B9; try done.
  - intros k a Hk. destruct (ok_keys0 k a Hk) as (e & He & <-). specialize (H a). rewrite He in H.
    inversion H as [? e' [? _]|]; subst. eauto.
  - intros a [e' He]. destruct (Hback a e' He) as (e & ? & _). eauto.
  - intros k a e' r Hk He Hr. destruct (Hback a e' He) as (e & He' & _ & [R|R]); [|congruence].
    eapply ok_home0; eauto. congruence.
  - intros a e' r He Hr. destruct (Hback a e' He) as (e & He' & _ & [R|R]); [|congruence].
    eapply ok_heap_home0; eauto. congruence.
  - assert (Hs : forall k r, has_resource p' k r -> has_resource p k r).
    { intros k r (a & e' & Hk & He & Hr). destruct (Hback a e' He) as (e & He' & _ & [R|R]); [|congruence].
      exists a, e. rewrite <- B2. split_and!; [done|done|congruence]. }
    intros k r k' r' H1 H2. apply ok_owned0; auto.
Qed.

Lemma benign_rely t p p' : benign p p' -> rely t p p'.
Proof.
  intros []. split; rewrite ?be_entries0, ?be_handoff0, ?be_where0; unfold gone; rewrite ?be_where0; auto.
Qed.

(** What threads rely on is in four fields of the pool. *)
Definition same_view (p p' : OutputPool) : Prop :=
  p_capacity p' = p_capacity p /\ p_entries p' = p_entries p /\ p_handoff p' = p_handoff p /\ p_where p' = p_where p.

Lemma view_thread t p p' pt : same_view p p' -> thread_ok t p pt -> thread_ok t p' pt.
Proof.
  intros (B1 & B2 & B5 & B6).
  assert (forall d, membersForDaemonLocked d p' = membersForDaemonLocked d p) as Em
    by (intros d; unfold membersForDaemonLocked; by rewrite B2).
  destruct pt as [| | | | | |c rv h r [a|] [v|] rp old| | | | | | | | | | | | | | | | | | | | | |];
    cbn [thread_ok]; unfold holds, hand, gone, victim_ok, room; rewrite ?B1, ?B2, ?B5, ?B6; try done;
    repeat setoid_rewrite Em; try done.
  all: intros Hf; eapply Forall_impl; [exact Hf|]; cbn; intros x; unfold hand, gone; by rewrite B6.
Qed.

Lemma benign_view p p' : benign p p' -> same_view p p'.
Proof. intros []. by split_and!. Qed.

Lemma view_rely t p p' : same_view p p' -> rely t p p'.
Proof. intros (B1 & B2 & B5 & B6). split; unfold gone; rewrite ?B2, ?B5, ?B6; auto. Qed.

Lemma rely_trans t p q s : rely t p q -> rely t q s -> rely t p s.
Proof.
  intros R1 R2. split.
  - rewrite (re_capacity _ _ _ R2). apply R1.
  - intros h H O. apply (re_handoff _ _ _ R2); [by apply (re_handoff _ _ _ R1)|done].
  - intros h k H O K. rewrite (re_keys _ _ _ R2 h); [|by apply (re_handoff _ _ _ R1)|done..].
    by apply (re_keys _ _ _ R1 h).
  - intros h H O. etrans; [eapply (re_entries _ _ _ R2 h); [by apply (re_handoff _ _ _ R1)|done]|by apply (re_entries _ _ _ R1 h)].
  - intros u r U H. apply (re_hand _ _ _ R2); [done|]. by apply (re_hand _ _ _ R1).
  - intros r H. apply R2. by apply R1.
  - intros r a H. destruct (re_home _ _ _ R1 r a H) as [H'|H']; [by apply R2|right; by apply R2].
Qed.

(** ** Resources *)

Lemma surrender_eq rs p :
  exists m, surrender rs p = set_where m p /\ forall r, m !! r = if decide (r ∈ rs) then Some Gone else p_where p !! r.
Proof.
  revert p; induction rs as [|x rs IH]; intros p.
  - exists (p_where p). split; [by destruct p|]. intros r. destruct (decide (r ∈ [])); [set_solver|done].
  - destruct (IH (locate x Gone p)) as (m & E & Hm). exists m.
    split; [exact E|]. intros r. rewrite Hm. cbn. destruct (decide (r ∈ rs)), (decide (r ∈ x :: rs)); try set_solver; try done.
    + destruct (decide (r = x)) as [->|]; [by rewrite lookup_insert_eq|set_solver].
    + rewrite lookup_insert_ne by set_solver. done.
Qed.

Lemma surrender_ok rs p :
  pool_ok p -> (forall r, r ∈ rs -> is_Some (p_where p !! r)) ->
  (forall k a e r, p_entries p !! k = Some a -> p_heap p !! a = Some e -> e_resource e = Some r -> r ∉ rs) ->
  pool_ok (surrender rs p).
Proof.
  intros [W []] Hw Hn. destruct (surrender_eq rs p) as (m & -> & Hm). split; [done|]. split; cbn; try done.
  - intros k a e r Hk He Hr. rewrite Hm, decide_False; eauto.
  - intros a e r He Hr. rewrite Hm. destruct (decide (r ∈ rs)); eauto.
  - intros r Hr. rewrite Hm. destruct (decide (r ∈ rs)); eauto.
  - intros r. rewrite Hm. destruct (decide (r ∈ rs)); eauto.
Qed.

Lemma surrender_rely t rs p :
  (forall r u, r ∈ rs -> u <> t -> p_where p !! r <> Some (Hand u)) -> rely t p (surrender rs p).
Proof.
  intros H. destruct (surrender_eq rs p) as (m & -> & Hm). split; cbn; auto; unfold gone; cbn.
  - intros u r Hu Hr. rewrite Hm. destruct (decide (r ∈ rs)) as [Hin|]; [|done]. by destruct (H r u Hin Hu).
  - intros r Hr. rewrite Hm. by destruct (decide (r ∈ rs)).
  - intros r a Hr. rewrite Hm. destruct (decide (r ∈ rs)); auto.
Qed.

Lemma surrender_gone rs p : Forall (gone (surrender rs p)) rs.
Proof.
  destruct (surrender_eq rs p) as (m & -> & Hm). apply Forall_forall. intros r Hr. unfold gone. cbn.
  by rewrite Hm, decide_True.
Qed.

Lemma die_ok r p : pool_ok p -> gone p r -> pool_ok (die r p).
Proof. intros [W []] Hg. split; [done|]. split; cbn; try done. intros x Hx. apply elem_of_union in Hx as [->%elem_of_singleton|]; auto. Qed.

(** A resource in the heap is not in the hands of a thread. *)
Lemma heap_not_hand p a r u : pool_ok p -> resource_at (Some a) p = Some r -> p_where p !! r <> Some (Hand u).
Proof.
  intros O. cbn. destruct (p_heap p !! a) as [e|] eqn:E; [|done]. cbn. intros Hr.
  destruct (ok_heap_home _ (ok_shape _ O) a e r E Hr) as [->| ->]; done.
Qed.

Lemma heap_where p a r : pool_ok p -> resource_at (Some a) p = Some r -> is_Some (p_where p !! r).
Proof.
  intros O. cbn. destruct (p_heap p !! a) as [e|] eqn:E; [|done]. cbn. intros Hr.
  destruct (ok_heap_home _ (ok_shape _ O) a e r E Hr) as [->| ->]; eauto.
Qed.

Lemma resource_elem a p r : r ∈ option_list (resource_at a p) <-> resource_at a p = Some r.
Proof. destruct (resource_at a p); cbn; set_solver. Qed.

Lemma benign_drop a p : benign p (upd a (put_resource None) p).
Proof. apply benign_upd. intros []; split; cbn; auto. Qed.

Lemma take_ok a p : pool_ok p -> pool_ok (take_resource a p).
Proof.
  intros O. unfold take_resource. pose proof (benign_drop a p) as B. apply surrender_ok; [by eapply benign_ok|..].
  - intros r Hr%resource_elem. rewrite (be_where _ _ B). by eapply heap_where.
  - intros k b e r Hk He Hr Hin%resource_elem. cbn in Hk, He.
    destruct (decide (a = b)) as [->|Hne].
    + rewrite lookup_alter_eq in He. destruct (p_heap p !! b) as [e0|] eqn:E0; [|done].
      cbn in He. injection He as <-. done.
    + rewrite lookup_alter_ne in He by done. pose proof (ok_home _ (ok_shape _ O) k b e r Hk He Hr) as Hb.
      cbn in Hin. destruct (p_heap p !! a) as [e0|] eqn:E0; [|done]. cbn in Hin.
      destruct (ok_heap_home _ (ok_shape _ O) a e0 r E0 Hin); congruence.
Qed.

Lemma take_rely t a p : pool_ok p -> rely t p (take_resource a p).
Proof.
  intros O. eapply rely_trans; [apply benign_rely, (benign_drop a)|]. apply surrender_rely.
  intros r u Hr%resource_elem _. rewrite (be_where _ _ (benign_drop a p)). by eapply heap_not_hand.
Qed.

Lemma take_gone a p r : resource_at (Some a) p = Some r -> gone (take_resource a p) r.
Proof.
  intros Hr. pose proof (surrender_gone (option_list (resource_at (Some a) p)) (upd a (put_resource None) p)) as H.
  rewrite Forall_forall in H. by apply H, resource_elem.
Qed.

(** ** Handoffs *)

Lemma core_ok p p' :
  p_capacity p' = p_capacity p -> p_entries p' = p_entries p -> p_lru p' = p_lru p -> p_active p' = p_active p ->
  p_where p' = p_where p -> p_dead p' = p_dead p -> p_nextEntry p' = p_nextEntry p ->
  p_nextResource p' = p_nextResource p -> p_heap p' = p_heap p -> pool_ok p -> pool_ok p'.
Proof.
  intros E1 E2 E3 E4 E5 E6 E7 E8 E9 [W []]. split; [by eapply within_ext|].
  split; unfold has_resource in *; by rewrite ?E1, ?E2, ?E3, ?E4, ?E5, ?E6, ?E7, ?E8, ?E9.
Qed.

Lemma clear_ok h p : pool_ok p -> pool_ok (clearHandoffLocked h p).
Proof. unfold clearHandoffLocked. destruct (is_handoff h p); [by apply core_ok|done]. Qed.

Lemma clear_rely t h p : holds t h p -> rely t p (clearHandoffLocked h p).
Proof.
  intros [Hh Ho]. unfold clearHandoffLocked. destruct (is_handoff h p); [|by apply view_rely].
  split; cbn; auto. intros h' Hh' Ho'. rewrite Hh in Hh'. injection Hh' as ->. done.
Qed.

Lemma clear_where h p : p_where (clearHandoffLocked h p) = p_where p.
Proof. unfold clearHandoffLocked. by destruct (is_handoff h p). Qed.

Lemma clear_entries h p : p_entries (clearHandoffLocked h p) = p_entries p.
Proof. unfold clearHandoffLocked. by destruct (is_handoff h p). Qed.

Lemma clear_heap h p : p_heap (clearHandoffLocked h p) = p_heap p.
Proof. unfold clearHandoffLocked. by destruct (is_handoff h p). Qed.

(** ** Sections *)

Definition next_ok (t : nat) (p : OutputPool) (n : next) : Prop :=
  match n with
  | Goto pt => thread_ok t p pt
  | GotoThen pt todo => thread_ok t p pt /\ Forall (fun pt => quiet pt = true) todo
  | Finish _ | Panic => True
  end.

(** What a section of thread [t] has to show. *)
Definition good (t : nat) (p : OutputPool) (pn : OutputPool * next) : Prop :=
  pool_ok pn.1 /\ rely t p pn.1 /\ next_ok t pn.1 pn.2.

Lemma good_benign t p p' n : pool_ok p -> benign p p' -> next_ok t p' n -> good t p (p', n).
Proof. intros O B N. split_and!; [by eapply benign_ok|by apply benign_rely|done]. Qed.

Lemma good_after t p q pn : rely t p q -> good t q pn -> good t p pn.
Proof. intros R (O & R' & N). split_and!; [done|by eapply rely_trans|done]. Qed.

(** A resource in the hands of a thread is in no entry. *)
Lemma hand_not_installed t p k a e r :
  pool_ok p -> hand t p r -> p_entries p !! k = Some a -> p_heap p !! a = Some e -> e_resource e <> Some r.
Proof. intros O H Hk He Hr. pose proof (ok_home _ (ok_shape _ O) _ _ _ _ Hk He Hr). unfold hand in H. congruence. Qed.

Lemma good_abort t p h rs err : pool_ok p -> holds t h p -> Forall (hand t p) rs -> good t p (abort h rs err p).
Proof.
  intros O Hh Hr. rewrite Forall_forall in Hr. unfold abort. split_and!; cbn [fst snd].
  - apply surrender_ok; [by apply clear_ok|..].
    + intros r Hin. rewrite clear_where, (Hr r Hin). eauto.
    + intros k a e r Hk He Her Hin. rewrite clear_entries in Hk. rewrite clear_heap in He.
      by eapply (hand_not_installed t p k a e r); eauto.
  - eapply rely_trans; [by apply (clear_rely t h)|]. apply surrender_rely. intros r u Hin Hu.
    rewrite clear_where, (Hr r Hin). congruence.
  - apply surrender_gone.
Qed.

(** ** Membership and order *)

Lemma remove_key_elem k l x : NoDup l -> x ∈ remove_key k l <-> x ∈ l /\ x <> k.
Proof.
  induction l as [|y l IH]; intros Hnd; cbn; [set_solver|]. apply NoDup_cons in Hnd as [Hy Hnd].
  destruct (decide (y = k)) as [->|]; [set_solver|]. rewrite !elem_of_cons, IH by done. set_solver.
Qed.

Lemma remove_key_NoDup k l : NoDup l -> NoDup (remove_key k l).
Proof.
  induction l as [|y l IH]; intros Hnd; cbn; [constructor|]. apply NoDup_cons in Hnd as [Hy Hnd].
  destruct (decide (y = k)) as [->|]; [done|]. apply NoDup_cons. split; [|auto].
  intros H%remove_key_elem; [|done]. set_solver.
Qed.

Lemma move_to_end_NoDup k l : NoDup l -> NoDup (remove_key k l ++ [k]).
Proof.
  intros H. apply NoDup_app. split_and!; [by apply remove_key_NoDup| |apply NoDup_singleton].
  intros x Hx%remove_key_elem; [set_solver|done].
Qed.

(** Showing a member. *)
Lemma setActive_shape k p : shape_ok p -> is_Some (p_entries p !! k) -> shape_ok (setActiveLocked k p).
Proof.
  intros [] Hk. split; cbn; try done.
  - by apply move_to_end_NoDup.
  - intros x. rewrite elem_of_app, remove_key_elem, ok_lru0 by done.
    destruct (decide (x = k)) as [->|]; set_solver.
  - intros x [= <-]. done.
Qed.

Lemma setActive_ok k p : pool_ok p -> is_Some (p_entries p !! k) -> pool_ok (setActiveLocked k p).
Proof. intros [W S] Hk. split; [done|by apply setActive_shape]. Qed.

(** Dropping a member that is not shown. *)
Lemma drop_shape k p : shape_ok p -> p_active p <> Some k ->
  shape_ok (removeLRULocked k (set_entries (delete k (p_entries p)) p)).
Proof.
  intros [] Ha. split; cbn; try done.
  - by apply remove_key_NoDup.
  - intros x. rewrite remove_key_elem, ok_lru0 by done. destruct (decide (x = k)) as [->|Hne].
    + rewrite lookup_delete_eq. split; [by intros []|by intros []].
    + rewrite lookup_delete_ne by done. tauto.
  - intros x Hx. rewrite lookup_delete_ne by congruence. auto.
  - intros x a Hx. apply lookup_delete_Some in Hx as [_ Hx]. auto.
  - intros x a e r Hx. apply lookup_delete_Some in Hx as [_ Hx]. eauto.
  - assert (Hs : forall x r, has_resource (removeLRULocked k (set_entries (delete k (p_entries p)) p)) x r -> has_resource p x r).
    { intros x r (a & e & Hx & H). cbn in Hx. apply lookup_delete_Some in Hx as [_ Hx]. exists a, e. by split. }
    intros x r x' r' H1 H2. apply ok_owned0; auto.
Qed.

(** ** [activate] *)

Lemma entry_of_Some p k a e : entry_of p k = Some (a, e) <-> p_entries p !! k = Some a /\ p_heap p !! a = Some e.
Proof.
  unfold entry_of. destruct (p_entries p !! k) as [b|]; cbn; [|naive_solver].
  destruct (p_heap p !! b) eqn:E; cbn; naive_solver.
Qed.

Lemma entry_of_None p k : shape_ok p -> entry_of p k = None -> p_entries p !! k = None.
Proof.
  intros S H. destruct (p_entries p !! k) as [a|] eqn:E; [|done].
  destruct (ok_keys _ S k a E) as (e & He & _). assert (entry_of p k = Some (a, e)) by by apply entry_of_Some. congruence.
Qed.

Lemma good_refl t p n : pool_ok p -> next_ok t p n -> good t p (p, n).
Proof. intros O N. by apply good_benign. Qed.

Lemma good_activate_start t c key revision p : pool_ok p -> good t p (activate_start t c key revision p).
Proof.
  intros O. unfold activate_start.
  destruct (negb _); [by apply good_refl|]. destruct (negb _); [by apply good_refl|].
  destruct (p_closed p); [by apply good_refl|]. destruct (bool_decide _); [by apply good_refl|].
  case_bool_decide as Hh; [by apply good_refl|]. rewrite <- eq_None_not_Some in Hh.
  assert (Hb : forall q n, (makeActive c = false -> is_Some (p_entries p !! key)) ->
    q = set_workers (S (p_workers p)) (set_handoff (Some (mkHandoff (S (p_nextID p)) t key (S (p_nextLease p))
          (epoch_of p (key_host key)) None 0 (p_nextCtx p))) (set_nextCtx (S (p_nextCtx p))
          (set_nextID (S (p_nextID p)) (set_nextLease (S (p_nextLease p)) p)))) ->
    n = Goto (AOpen c revision (mkHandoff (S (p_nextID p)) t key (S (p_nextLease p)) (epoch_of p (key_host key)) None 0 (p_nextCtx p))) ->
    good t p (q, n)).
  { intros q n Hk -> ->. split_and!; cbn [fst snd].
    - by eapply core_ok, O.
    - split; cbn; auto; rewrite Hh; by intros.
    - split; [done|]. exact Hk. }
  destruct (entry_of p key) as [[a e]|] eqn:E.
  - apply entry_of_Some in E as [Ek Ee]. destruct (e_restoring e); [by apply good_refl|].
    destruct (_ && _); [|eapply Hb; [|done..]; by rewrite Ek].
    destruct (makeActive c); [|by apply good_refl]. split_and!; [|by apply view_rely|done].
    apply setActive_ok; [done|by rewrite Ek].
  - destruct (requireDesired c) eqn:Ec; [by apply good_refl|]. eapply Hb; [|done..]. by destruct c.
Qed.

Lemma fresh_rely t p r p' : shape_ok p -> fresh_resource t p = (r, p') -> rely t p p'.
Proof.
  intros S [= <- <-]. assert (Hn : p_where p !! p_nextResource p = None).
  { destruct (p_where p !! p_nextResource p) eqn:E; [|done].
    pose proof (ok_where _ S (p_nextResource p)). rewrite E in H. specialize (H ltac:(eauto)). lia. }
  assert (He : forall x y, p_where p !! x = Some y -> <[p_nextResource p := Hand t]> (p_where p) !! x = Some y).
  { intros x y Hx. rewrite lookup_insert_ne by congruence. done. }
  split; cbn; auto. intros x. apply He.
Qed.

Lemma fresh_ok t p r p' : pool_ok p -> fresh_resource t p = (r, p') -> pool_ok p' /\ hand t p' r.
Proof.
  intros O Hf. pose proof (fresh_rely t p r p' (ok_shape _ O) Hf) as R. injection Hf as <- <-. destruct O as [W S].
  split; [|unfold hand; cbn; by rewrite lookup_insert_eq]. split; [done|].
  assert (Hn : p_where p !! p_nextResource p = None).
  { destruct (p_where p !! p_nextResource p) eqn:E; [|done].
    pose proof (ok_where _ S (p_nextResource p)). rewrite E in H. specialize (H ltac:(eauto)). lia. }
  destruct S. split; cbn; try done.
  - intros k a e r Hk He Hr. rewrite lookup_insert_ne; [eauto|]. intros <-. erewrite ok_home0 in Hn; eauto. done.
  - intros a e r He Hr. destruct (ok_heap_home0 a e r He Hr) as [Hw|Hw];
      (rewrite lookup_insert_ne; [eauto|intros <-; congruence]).
  - intros r Hr. rewrite lookup_insert_ne; [eauto|]. intros <-. erewrite ok_dead0 in Hn; eauto. done.
  - intros r. destruct (decide (r = p_nextResource p)) as [->|]; [lia|]. rewrite lookup_insert_ne by done.
    intros Hw. specialize (ok_where0 r Hw). lia.
Qed.

(** The oldest member, of the pool or of one daemon. *)
Lemma oldest_member p v : shape_ok p -> oldestEvictionCandidateLocked p = Some v ->
  exists k, p_entries p !! k = Some v.
Proof. intros S. unfold oldestEvictionCandidateLocked. destruct (p_lru p) as [|k l]; [done|]. eauto. Qed.

Lemma oldest_of_daemon p d v : shape_ok p -> oldestEvictionCandidateForDaemonLocked d p = Some v ->
  exists k, p_entries p !! k = Some v /\ key_daemon k = d.
Proof.
  intros S. unfold oldestEvictionCandidateForDaemonLocked. induction (p_lru p) as [|k l IH]; cbn; [done|].
  destruct (decide (key_daemon k = d)) as [Hd|]; [|done].
  destruct (entry_of p k) as [[a e]|] eqn:E; [|done]. apply entry_of_Some in E as [Ek _].
  destruct (e_evicting e || e_restoring e); [done|]. cbn. intros [= <-]. eauto.
Qed.

Lemma good_activate_prepare t c revision h r parent valid p :
  pool_ok p -> holds t h p -> hand t p r -> (makeActive c = false -> is_Some (p_entries p !! h_key h)) ->
  good t p (activate_prepare c revision h r parent valid p).
Proof.
  intros O Hh Hr Hc. unfold activate_prepare.
  assert (Ha : forall err, good t p (abort h [r] err p)) by (intros err; apply good_abort; auto).
  destruct (_ || negb _); [apply Ha|]. destruct (negb valid); [apply Ha|].
  destruct (entry_of p (h_key h)) as [[a e]|] eqn:E.
  - apply entry_of_Some in E as [Ek Ee]. destruct (bool_decide _).
    + apply good_benign; [done|apply benign_upd; intros []; split; cbn; auto|]. by split_and!.
    + apply good_refl; [done|]. cbn. split_and!; done.
  - pose proof (entry_of_None _ _ (ok_shape _ O) E) as Ek.
    assert (Hm : makeActive c = true) by (destruct (makeActive c); [done|]; rewrite Ek in Hc; by destruct (Hc eq_refl)).
    set (d := key_daemon (h_key h)). destruct (Nat.leb_spec maxStableOutputObserversPerDaemon (membersForDaemonLocked d p)) as [Hd|Hd];
    destruct (Nat.leb_spec (p_capacity p) (size (p_entries p))) as [Hs|Hs]; cbn [orb].
    4: { apply good_refl; [done|]. cbn. by split_and!. }
    all: match goal with |- context [mbind _ ?x] => destruct x as [v|] eqn:Ev end; cbn [mbind option_bind]; [|apply Ha].
    all: destruct (p_heap p !! v) as [e|] eqn:Ee; cbn [mbind option_bind]; [|apply Ha].
    all: assert (Hv : exists vk, p_entries p !! vk = Some v /\ (room d p \/ key_daemon vk = d))
      by (first [destruct (oldest_of_daemon p d v (ok_shape _ O) Ev) as (k & ? & ?)|destruct (oldest_member p v (ok_shape _ O) Ev) as (k & ?)];
          exists k; auto).
    all: destruct Hv as (vk & Hvk & Hroom); destruct (ok_keys _ (ok_shape _ O) vk v Hvk) as (e' & He' & Hkey);
      rewrite Ee in He'; injection He' as <-; rewrite Hkey.
    all: split_and!; cbn [fst snd];
      [apply (core_ok (upd v (put_evicting true) p)); [done..|]; eapply benign_ok, O; apply benign_upd; intros []; split; cbn; auto| |].
    all: destruct Hh as [Hh Ho].
    1,3,5: split; cbn; auto; rewrite Hh; intros h' [= <-]; done.
    all: cbn; split_and!; try done; exists vk; by split_and!.
Qed.

(** ** Counting members *)

Definition count (d : string) (X : gset OutputKey) : nat := size (filter (fun k => key_daemon k = d) X).

Lemma count_add d k X : k ∉ X -> count d ({[k]} ∪ X) = ((if decide (key_daemon k = d) then 1 else 0) + count d X)%nat.
Proof.
  intros Hk. unfold count. destruct (decide (key_daemon k = d)) as [Hd|Hd].
  - replace (filter (fun k => key_daemon k = d) ({[k]} ∪ X)) with ({[k]} ∪ filter (fun k => key_daemon k = d) X) by set_solver.
    rewrite size_union by set_solver. by rewrite size_singleton.
  - by replace (filter (fun k => key_daemon k = d) ({[k]} ∪ X)) with (filter (fun k => key_daemon k = d) X) by set_solver.
Qed.

Lemma count_remove d k X : k ∈ X -> count d X = ((if decide (key_daemon k = d) then 1 else 0) + count d (X ∖ {[k]}))%nat.
Proof.
  intros Hk. rewrite <- count_add by set_solver. f_equal. apply set_eq. intros x.
  destruct (decide (x = k)) as [->|]; set_solver.
Qed.

Lemma members_count d p : membersForDaemonLocked d p = count d (dom (p_entries p)).
Proof. done. Qed.

(** ** Installing a resource *)

Definition install (f : outputPoolEntry -> outputPoolEntry) (a r : nat) (p : OutputPool) : OutputPool :=
  locate r (Home a) (upd a f p).

Definition installs (r : nat) (f : outputPoolEntry -> outputPoolEntry) : Prop :=
  forall e, e_key (f e) = e_key e /\ e_resource (f e) = Some r.

(** The stream is with no member but the one at [a]. *)
Definition unshared (a r : nat) (p : OutputPool) : Prop :=
  forall k b e x, p_entries p !! k = Some b -> p_heap p !! b = Some e -> e_resource e = Some x -> stream_of x = stream_of r -> b = a.

Lemma not_owned_unshared a r p : resourceOwnedLocked r p = false -> unshared a r p.
Proof.
  intros H k b e x Hk He Hx Hs. exfalso. apply not_true_iff_false in H. apply H.
  unfold resourceOwnedLocked. apply existsb_exists. exists (k, b). split.
  - by apply list_elem_of_In, elem_of_map_to_list.
  - cbn. rewrite He, Hx. apply bool_decide_eq_true_2. cbn. by rewrite Hs.
Qed.

Lemma install_shape t f a r p : shape_ok p -> hand t p r -> unshared a r p -> installs r f -> shape_ok (install f a r p).
Proof.
  intros S Hr Hun Hf. assert (Hlt : (r < p_nextResource p)%nat) by (apply (ok_where _ S); rewrite Hr; eauto).
  unfold hand in Hr.
  assert (Hne : forall x y, p_where p !! x = Some y -> y <> Hand t -> <[r := Home a]> (p_where p) !! x = Some y).
  { intros x y Hx Hy. rewrite lookup_insert_ne; [done|]. intros <-. congruence. }
  assert (Hh : forall b e, alter f a (p_heap p) !! b = Some e ->
    exists e0, p_heap p !! b = Some e0 /\ e_key e = e_key e0 /\ (b = a /\ e_resource e = Some r \/ b <> a /\ e = e0)).
  { intros b e He. destruct (decide (a = b)) as [->|Hab].
    - rewrite lookup_alter_eq in He. destruct (p_heap p !! b) as [e0|]; [|done]. injection He as <-.
      exists e0. destruct (Hf e0). naive_solver.
    - rewrite lookup_alter_ne in He by done. naive_solver. }
  destruct S. split; cbn; try done.
  - intros k b Hk. destruct (ok_keys0 k b Hk) as (e & He & <-). destruct (decide (a = b)) as [->|Hab].
    + rewrite lookup_alter_eq, He. cbn. eexists; split; [done|]. apply Hf.
    + rewrite lookup_alter_ne by done. eauto.
  - intros b [e He]. destruct (Hh b e He) as (e0 & ? & _). eauto.
  - intros k b e x Hk He Hx. destruct (Hh b e He) as (e0 & He0 & _ & [[-> Hx']|[_ ->]]).
    + rewrite Hx in Hx'. injection Hx' as ->. by rewrite lookup_insert_eq.
    + apply Hne; [eauto|done].
  - intros b e x He Hx. destruct (Hh b e He) as (e0 & He0 & _ & [[-> Hx']|[_ ->]]).
    + rewrite Hx in Hx'. injection Hx' as ->. left. by rewrite lookup_insert_eq.
    + destruct (ok_heap_home0 b e0 x He0 Hx); [left|right]; by apply Hne.
  - assert (Hs : forall k x, has_resource (install f a r p) k x ->
      exists b, p_entries p !! k = Some b /\ (b = a /\ x = r \/ b <> a /\ has_resource p k x)).
    { intros k x (b & e & Hk & He & Hx). cbn in Hk, He. exists b. split; [done|].
      destruct (Hh b e He) as (e0 & He0 & _ & [[-> Hx']|[Hb ->]]); [left; split; [done|congruence]|].
      right. split; [done|]. exists b, e0. by split_and!. }
    assert (Hfar : forall k b x, p_entries p !! k = Some b -> b <> a -> has_resource p k x -> stream_of x <> stream_of r).
    { intros k b x Hk Hb (b' & e & Hk' & He & Hx) Hsx. rewrite Hk in Hk'. injection Hk' as <-. apply Hb. by eapply Hun. }
    assert (Hone : forall k k' b, p_entries p !! k = Some b -> p_entries p !! k' = Some b -> k' = k).
    { intros k k' b H1 H2. destruct (ok_keys0 k b H1) as (e1 & He1 & <-). destruct (ok_keys0 k' b H2) as (e2 & He2 & <-). congruence. }
    intros k x k' x' H1 H2 Hst. destruct (Hs k x H1) as (b & Hk & [[-> ->]|[Hb H1']]);
      destruct (Hs k' x' H2) as (b' & Hk' & [[-> ->]|[Hb' H2']]).
    + by eapply Hone.
    + by destruct (Hfar _ _ _ Hk' Hb' H2').
    + by destruct (Hfar _ _ _ Hk Hb H1').
    + by eapply ok_owned0.
  - intros x Hx. apply Hne; [auto|done].
  - intros x. destruct (decide (x = r)) as [->|]; [done|]. rewrite lookup_insert_ne by done. auto.
Qed.

Lemma install_rely t f a r p : hand t p r -> rely t p (install f a r p).
Proof.
  unfold hand. intros Hr.
  assert (Hne : forall x y, p_where p !! x = Some y -> y <> Hand t -> <[r := Home a]> (p_where p) !! x = Some y).
  { intros x y Hx Hy. rewrite lookup_insert_ne; [done|]. intros <-. congruence. }
  split; cbn; auto.
  - intros u x Hu Hx. apply Hne; [done|congruence].
  - intros x Hx. unfold gone. cbn. by apply Hne.
Qed.

Lemma installs_installed lease revision r : installs r (installed lease revision r).
Proof. by intros []. Qed.

(** After the last section of [activate] the resources to close belong to no entry. *)
Lemma good_closing t p q h rs o :
  pool_ok q -> rely t p q -> holds t h q ->
  (forall r, r ∈ rs -> exists x, p_where q !! r = Some x /\ x <> Hand t /\ forall u, x <> Hand u) ->
  (forall k a e r, p_entries q !! k = Some a -> p_heap q !! a = Some e -> e_resource e = Some r -> r ∉ rs) ->
  good t p (surrender rs (clearHandoffLocked h q), Goto (Closing rs o)).
Proof.
  intros O R Hh Hw Hn. eapply good_after; [exact R|]. split_and!; cbn [fst snd].
  - apply surrender_ok; [by apply clear_ok|..].
    + intros r Hr. rewrite clear_where. destruct (Hw r Hr) as (x & -> & _). eauto.
    + intros k a e r. rewrite clear_entries, clear_heap. apply Hn.
  - eapply rely_trans; [by apply (clear_rely t h)|]. apply surrender_rely. intros r u Hr Hu.
    rewrite clear_where. destruct (Hw r Hr) as (x & -> & _ & Hx). intros [= ->]. by apply (Hx u).
  - apply surrender_gone.
Qed.

Lemma setActive_view k p : same_view p (setActiveLocked k p).
Proof. by split_and!. Qed.

Lemma shown_view c k p : same_view p (if makeActive c : bool then setActiveLocked k p else p).
Proof. destruct (makeActive c); [apply setActive_view|by split_and!]. Qed.

Lemma same_view_trans p q s : same_view p q -> same_view q s -> same_view p s.
Proof. intros (?&?&?&?) (?&?&?&?). split_and!; congruence. Qed.

Lemma shown_heap c k p : p_heap (if makeActive c then setActiveLocked k p else p) = p_heap p.
Proof. by destruct (makeActive c). Qed.

Lemma old_closings (o v : option nat) `{Decision (stream_of <$> o <> stream_of <$> v)} x : v = None ->
  x ∈ option_list v ++ (if bool_decide (stream_of <$> o <> stream_of <$> v) then option_list o else []) -> o = Some x.
Proof.
  intros ->. cbn. case_bool_decide; destruct o as [y|]; cbn; rewrite ?list_elem_of_singleton, ?elem_of_nil; naive_solver.
Qed.

Lemma good_install_existing t c revision h r a old p :
  pool_ok p -> holds t h p -> hand t p r -> unshared a r p -> p_entries p !! h_key h = Some a ->
  (forall x, old = Some x -> p_where p !! x = Some (Home a) \/ gone p x) ->
  good t p (activate_install c revision h r (Some a) None old p).
Proof.
  intros O Hh Hr Hun Hk Hold.
  set (q := if makeActive c then setActiveLocked (h_key h) (install (installed (h_lease h) revision r) a r p)
            else install (installed (h_lease h) revision r) a r p).
  destruct (ok_keys _ (ok_shape _ O) _ _ Hk) as (e & He & Hek).
  set (old' := match old with Some x => Some x | None => resource_at (Some a) p end).
  assert (Hold' : forall x, old' = Some x -> p_where p !! x = Some (Home a) \/ gone p x).
  { intros x. unfold old'. destruct old as [y|]; [by intros [= ->]; apply Hold|]. cbn. rewrite He. cbn. intros Hx.
    left. by eapply (ok_home _ (ok_shape _ O)). }
  assert (V : same_view (install (installed (h_lease h) revision r) a r p) q) by apply shown_view.
  assert (Oq : pool_ok q).
  { assert (pool_ok (install (installed (h_lease h) revision r) a r p)).
    { split; [apply O|]. eapply install_shape; [apply O|exact Hr|exact Hun|apply installs_installed]. }
    unfold q. destruct (makeActive c); [|done]. apply setActive_ok; [done|]. cbn. by rewrite Hk. }
  assert (Hw : forall x, old' = Some x -> p_where q !! x = Some (Home a) \/ p_where q !! x = Some Gone).
  { intros x Hx. destruct V as (_ & _ & _ & ->). cbn. rewrite lookup_insert_ne; [by apply Hold'|].
    intros <-. destruct (Hold' _ Hx) as [H|H]; unfold hand, gone in *; congruence. }
  eapply (good_closing t p q h); [done| | | |].
  - eapply rely_trans; [by apply install_rely|by apply view_rely].
  - destruct V as (_ & _ & V & _). unfold holds. by rewrite V.
  - intros x Hx%old_closings; [|done]. destruct (Hw x Hx) as [->| ->]; eexists; split_and!; done.
  - intros k b e' x Hkb He' Hx Hxin%old_closings; [|done].
    pose proof (ok_home _ (ok_shape _ Oq) k b e' x Hkb He' Hx) as Hb.
    destruct (Hw x Hxin) as [Hx'|Hx']; [|congruence]. rewrite Hx' in Hb. injection Hb as ->.
    unfold q in He'. rewrite shown_heap in He'. cbn in He'. rewrite lookup_alter_eq, He in He'. injection He' as <-.
    cbn in Hx. injection Hx as ->. destruct (Hold' _ Hxin) as [H|H]; unfold hand, gone in *; congruence.
Qed.

(** The thread of the handoff may change members freely. *)
Lemma own_rely t h p q m :
  holds t h p -> p_capacity q = p_capacity p -> p_where q = m -> rely t p (set_where m p) -> rely t p q.
Proof.
  intros [Hh Ho] Hc <- R. destruct R. cbn in *.
  split; try done; intros h'; rewrite Hh; try (by intros [= <-]); intros k [= <-]; done.
Qed.

(** A new member, shown at once and still without a resource. *)
Definition add_member (key : OutputKey) (p : OutputPool) : OutputPool :=
  setActiveLocked key (set_nextEntry (S (p_nextEntry p)) (set_heap (<[p_nextEntry p := new_entry key]> (p_heap p))
    (set_entries (<[key := p_nextEntry p]> (p_entries p)) p))).

Lemma next_entry_free p : shape_ok p -> p_heap p !! p_nextEntry p = None.
Proof.
  intros S. destruct (p_heap p !! p_nextEntry p) eqn:E; [|done].
  pose proof (ok_heap _ S (p_nextEntry p)) as H. rewrite E in H. specialize (H ltac:(eauto)). lia.
Qed.

Lemma add_member_shape key p : shape_ok p -> p_entries p !! key = None -> shape_ok (add_member key p).
Proof.
  intros S Hk. pose proof (next_entry_free p S) as Hn. destruct S. split; cbn; try done.
  - by apply move_to_end_NoDup.
  - intros x. rewrite elem_of_app, remove_key_elem, ok_lru0, list_elem_of_singleton by done.
    destruct (decide (x = key)) as [->|Hne]; [rewrite lookup_insert_eq; naive_solver|].
    rewrite lookup_insert_ne by done. naive_solver.
  - intros x [= <-]. by rewrite lookup_insert_eq.
  - intros k a Hka. destruct (decide (k = key)) as [->|Hne].
    + rewrite lookup_insert_eq in Hka. injection Hka as <-. rewrite lookup_insert_eq. eauto.
    + rewrite lookup_insert_ne in Hka by done. destruct (ok_keys0 k a Hka) as (e & He & Hek).
      exists e. split; [|done]. rewrite lookup_insert_ne; [done|]. intros <-. congruence.
  - intros a. destruct (decide (a = p_nextEntry p)) as [->|]; [lia|]. rewrite lookup_insert_ne by done.
    intros Ha. specialize (ok_heap0 a Ha). lia.
  - intros k a e r Hka He Hr. destruct (decide (a = p_nextEntry p)) as [->|Hne].
    + rewrite lookup_insert_eq in He. injection He as <-. done.
    + rewrite lookup_insert_ne in He by done. destruct (decide (k = key)) as [->|]; [|rewrite lookup_insert_ne in Hka by done; eauto].
      rewrite lookup_insert_eq in Hka. congruence.
  - intros a e r He Hr. destruct (decide (a = p_nextEntry p)) as [->|Hne].
    + rewrite lookup_insert_eq in He. injection He as <-. done.
    + rewrite lookup_insert_ne in He by done. eauto.
  - assert (Hs : forall k r, has_resource (add_member key p) k r -> has_resource p k r).
    { intros k r (a & e & Hka & He & Hr). cbn in Hka, He. destruct (decide (a = p_nextEntry p)) as [->|Hne].
      - rewrite lookup_insert_eq in He. injection He as <-. done.
      - rewrite lookup_insert_ne in He by done. destruct (decide (k = key)) as [->|Hk'].
        + rewrite lookup_insert_eq in Hka. congruence.
        + rewrite lookup_insert_ne in Hka by done. exists a, e. by split_and!. }
    intros k r k' r' H1 H2. apply ok_owned0; auto.
Qed.

(** The new member has no stream yet. *)
Lemma added_unshared a key r p : shape_ok p -> p_entries p !! key = None -> resourceOwnedLocked r p = false -> unshared a r (add_member key p).
Proof.
  intros S Hk Hno k b e x Hkb He Hx Hs. cbn in Hkb, He. destruct (decide (b = p_nextEntry p)) as [->|Hne].
  - rewrite lookup_insert_eq in He. injection He as <-. done.
  - rewrite lookup_insert_ne in He by done. destruct (decide (k = key)) as [->|Hk'].
    + rewrite lookup_insert_eq in Hkb. congruence.
    + rewrite lookup_insert_ne in Hkb by done. by eapply (not_owned_unshared a r p).
Qed.

(** With the new member in and the victim out the limits hold. *)
Lemma within_add p q key a : within p -> p_capacity q = p_capacity p -> p_entries q = <[key := a]> (p_entries p) ->
  p_entries p !! key = None -> (size (p_entries p) < p_capacity p)%nat -> room (key_daemon key) p -> within q.
Proof.
  intros [_ W] Hc He Hk Hs Hr. unfold within, room in *. rewrite He, Hc, map_size_insert_None by done. split; [lia|].
  intros d. rewrite members_count, He, dom_insert_L, count_add by (by apply not_elem_of_dom).
  specialize (W d). rewrite members_count in *. destruct (decide (key_daemon key = d)) as [<-|]; lia.
Qed.

Lemma within_swap p q key vk a v : within p -> p_capacity q = p_capacity p ->
  p_entries q = delete vk (<[key := a]> (p_entries p)) -> p_entries p !! key = None -> p_entries p !! vk = Some v ->
  (room (key_daemon key) p \/ key_daemon vk = key_daemon key) -> within q.
Proof.
  intros [Hs W] Hc He Hk Hv Hr. unfold within, room in *. assert (Hne : vk <> key) by congruence.
  assert (Hin : vk ∈ dom (p_entries p)) by (apply elem_of_dom; eauto).
  rewrite He, Hc, map_size_delete_Some, map_size_insert_None; [|done|by rewrite lookup_insert_ne].
  split; [lia|]. intros d. rewrite members_count, He, dom_delete_L, dom_insert_L.
  specialize (W d). rewrite members_count in *.
  assert (Hc' : count d (({[key]} ∪ dom (p_entries p)) ∖ {[vk]}) =
    ((if decide (key_daemon key = d) then 1 else 0) + count d (dom (p_entries p) ∖ {[vk]}))%nat).
  { rewrite <- count_add; [f_equal; set_solver|]. apply not_elem_of_dom in Hk. set_solver. }
  rewrite Hc'. pose proof (count_remove d vk (dom (p_entries p)) Hin) as Hrm. rewrite Hrm in W.
  destruct (decide (key_daemon key = d)) as [<-|]; destruct (decide (key_daemon vk = _)); try lia.
  destruct Hr as [Hr|Hr]; [lia|congruence].
Qed.

Lemma closings_new p (o : option nat) `{Decision (stream_of <$> resource_at None p <> stream_of <$> o)} :
  option_list o ++ (if bool_decide (stream_of <$> resource_at None p <> stream_of <$> o) then option_list (resource_at None p) else []) = option_list o.
Proof. destruct (bool_decide _); apply app_nil_r. Qed.

Lemma option_list_elem (o : option nat) x : x ∈ option_list o -> o = Some x.
Proof. destruct o; cbn; rewrite ?list_elem_of_singleton, ?elem_of_nil; naive_solver. Qed.

(** The pool with the new member and its resource. *)
Record joined (t : nat) (p : OutputPool) (key : OutputKey) (r : nat) (q : OutputPool) : Prop := mkJoined {
  jo_shape : shape_ok q;
  jo_rely : rely t p (set_where (p_where q) p);
  jo_active : p_active q = Some key;
  jo_entries : p_entries q = <[key := p_nextEntry p]> (p_entries p);
  jo_capacity : p_capacity q = p_capacity p;
  jo_handoff : p_handoff q = p_handoff p;
  jo_where : p_where q = <[r := Home (p_nextEntry p)]> (p_where p);
  jo_heap : forall v, v <> p_nextEntry p -> p_heap q !! v = p_heap p !! v;
}.

Lemma install_joined t lease revision key r p :
  shape_ok p -> hand t p r -> resourceOwnedLocked r p = false -> p_entries p !! key = None ->
  joined t p key r (install (installed lease revision r) (p_nextEntry p) r (add_member key p)).
Proof.
  intros S Hr Hun Hk. split; try reflexivity.
  - eapply install_shape; [by apply add_member_shape|exact Hr|by apply added_unshared|apply installs_installed].
  - eapply rely_trans; [apply (install_rely t (installed lease revision r) (p_nextEntry p) r p Hr)|apply view_rely; by split_and!].
  - intros v Hv. cbn. by rewrite lookup_alter_ne, lookup_insert_ne by done.
Qed.

(** Dropping the victim from it. *)
Lemma good_evict t p q h r v o :
  pool_ok p -> holds t h p -> hand t p r -> p_entries p !! h_key h = None -> victim_ok h v p -> joined t p (h_key h) r q ->
  exists e, p_heap q !! v = Some e /\
    good t p (surrender (option_list (e_resource e)) (clearHandoffLocked h
      (removeLRULocked (e_key e) (set_entries (delete (e_key e) (p_entries q)) q))), Goto (Closing (option_list (e_resource e)) o)).
Proof.
  intros O Hh Hr Hk (vk & Hvk & Hv & Hroom) J. destruct (ok_keys _ (ok_shape _ O) vk v Hv) as (e & He & Hek). subst vk.
  pose proof (next_entry_free p (ok_shape _ O)) as Hfree.
  assert (Hqv : p_heap q !! v = Some e) by (rewrite (jo_heap _ _ _ _ _ J); [done|intros ->; congruence]).
  exists e. split; [done|]. set (s := removeLRULocked _ _).
  assert (Hw : forall x, e_resource e = Some x -> p_where q !! x = Some (Home v)).
  { intros x Hx. pose proof (ok_home _ (ok_shape _ O) _ v e x Hv He Hx) as Hx'.
    rewrite (jo_where _ _ _ _ _ J), lookup_insert_ne; [done|]. intros <-. unfold hand in Hr. congruence. }
  assert (Os : pool_ok s).
  { split; [eapply (within_swap p s (h_key h) (e_key e) (p_nextEntry p) v); try done; [apply O|apply J|]|].
    - cbn. by rewrite (jo_entries _ _ _ _ _ J).
    - apply drop_shape; [apply J|]. rewrite (jo_active _ _ _ _ _ J). congruence. }
  apply (good_closing t p s); [done|eapply (own_rely t h p s (p_where q)); try done; apply J| | |].
  - unfold holds. cbn. by rewrite (jo_handoff _ _ _ _ _ J).
  - intros x Hx%option_list_elem. exists (Home v). by split_and!; [apply Hw| |].
  - intros k b e' x Hkb He' Hx Hxin%option_list_elem.
    pose proof (ok_home _ (ok_shape _ Os) k b e' x Hkb He' Hx) as Hb. cbn in Hb, He', Hkb.
    rewrite (Hw x Hxin) in Hb. injection Hb as <-. rewrite Hqv in He'. injection He' as <-.
    apply lookup_delete_Some in Hkb as [Hne Hkb]. destruct (ok_keys _ (jo_shape _ _ _ _ _ J) k v Hkb) as (e'' & He'' & Hk'').
    congruence.
Qed.

Lemma good_install_new t c revision h r victim p :
  pool_ok p -> holds t h p -> hand t p r -> resourceOwnedLocked r p = false -> p_entries p !! h_key h = None -> makeActive c = true ->
  match victim with
  | Some v => victim_ok h v p
  | None => (size (p_entries p) < p_capacity p)%nat /\ room (key_daemon (h_key h)) p
  end ->
  good t p (activate_install c revision h r None victim None p).
Proof.
  intros O Hh Hr Hun Hk Hm Hv.
  pose proof (install_joined t (h_lease h) revision (h_key h) r p (ok_shape _ O) Hr Hun Hk) as J.
  unfold activate_install. rewrite Hm.
  change (setActiveLocked (h_key h) (locate r _ (upd _ (installed (h_lease h) revision r) _)))
    with (install (installed (h_lease h) revision r) (p_nextEntry p) r (add_member (h_key h) p)).
  revert J. generalize (install (installed (h_lease h) revision r) (p_nextEntry p) r (add_member (h_key h) p)).
  intros q J. rewrite closings_new. destruct victim as [v|].
  - destruct (good_evict t p q h r v (Activated (h_key h) revision (h_lease h) false
      (Some v ≫= fun v0 => e_key <$> p_heap q !! v0) false) O Hh Hr Hk Hv J) as (e & He & G).
    revert G. cbn [resource_at mbind option_bind]. unfold mbind, option_bind. by rewrite He.
  - destruct Hv as [Hs Hroom].
    assert (Oq : pool_ok q).
    { split; [eapply (within_add p q (h_key h)); try done; [apply O|apply J..]|apply J]. }
    apply (good_closing t p q); [done|eapply (own_rely t h p q (p_where q)); try done; apply J| |by intros x ?%elem_of_nil|].
    + unfold holds. by rewrite (jo_handoff _ _ _ _ _ J).
    + intros k b e' x _ _ _. apply not_elem_of_nil.
Qed.

(** ** The other sections *)

Lemma benign_holds t h p q : benign p q -> holds t h p -> holds t h q.
Proof. intros B [Hh Ho]. split; [by rewrite (be_handoff _ _ B)|done]. Qed.

Lemma benign_hand t p q r : benign p q -> hand t p r -> hand t q r.
Proof. intros B. unfold hand. by rewrite (be_where _ _ B). Qed.

Lemma good_activate_commit t c revision h r existing victim replacement old parent bound valid p :
  pool_ok p -> thread_ok t p (ACommit c revision h r existing victim replacement old) ->
  good t p (activate_commit c revision h r existing victim replacement old parent bound valid p).
Proof.
  intros O T. unfold activate_commit. set (q := unmark replacement (unmark victim p)).
  assert (B : benign p q) by (etransitivity; apply benign_unmark).
  assert (Hh : holds t h p) by (destruct existing; apply T).
  assert (Hr : hand t p r) by (destruct existing; apply T).
  assert (Hroll : forall err, good t p (abort h [r] err q)).
  { intros err. eapply good_after; [by apply benign_rely|]. apply good_abort; [by eapply benign_ok|by eapply benign_holds|].
    constructor; [by eapply benign_hand|constructor]. }
  destruct (_ || negb _); [apply Hroll|]. destruct (resourceOwnedLocked r p) eqn:Hown.
  { split_and!; cbn [fst snd]; [apply clear_ok; by eapply benign_ok| |done].
    eapply rely_trans; [by apply benign_rely|]. apply clear_rely. by eapply benign_holds. }
  destruct (negb bound); [apply Hroll|]. destruct (negb valid); [apply Hroll|]. clear q B Hroll.
  destruct existing as [a|].
  - destruct T as (_ & _ & Hk & -> & Hold). apply good_install_existing; try done. by apply not_owned_unshared.
  - destruct T as (_ & _ & Hk & Hm & -> & Hv). by apply good_install_new.
Qed.

Lemma good_discard t p rs o : pool_ok p -> Forall (hand t p) rs -> good t p (surrender rs p, Goto (Closing rs o)).
Proof.
  intros O Hr. rewrite Forall_forall in Hr. split_and!; cbn [fst snd].
  - apply surrender_ok; [done|intros r Hin; rewrite (Hr r Hin); eauto|].
    intros k a e r Hk He Her Hin. by eapply (hand_not_installed t p k a e r); eauto.
  - apply surrender_rely. intros r u Hin Hu. rewrite (Hr r Hin). congruence.
  - apply surrender_gone.
Qed.

(** Emptying an entry, with other benign changes. *)
Lemma empty_entry t a p q :
  pool_ok p -> benign p q -> (forall e, p_heap q !! a = Some e -> e_resource e = None) ->
  pool_ok (surrender (option_list (resource_at (Some a) p)) q) /\ rely t p (surrender (option_list (resource_at (Some a) p)) q).
Proof.
  intros O B Ha. pose proof (ok_shape _ O) as S. split.
  - apply surrender_ok; [by eapply benign_ok|..].
    + intros r Hr%resource_elem. rewrite (be_where _ _ B). by eapply heap_where.
    + intros k b e r Hk He Hr Hin%resource_elem. pose proof (ok_home _ (ok_shape _ (benign_ok _ _ B O)) k b e r Hk He Hr) as Hb.
      rewrite (be_where _ _ B) in Hb. cbn in Hin. destruct (p_heap p !! a) as [e0|] eqn:E0; [|done]. cbn in Hin.
      destruct (ok_heap_home _ S a e0 r E0 Hin) as [Hw|Hw]; [|congruence].
      rewrite Hb in Hw. injection Hw as ->. by rewrite (Ha e He) in Hr.
  - eapply rely_trans; [by apply benign_rely|]. apply surrender_rely.
    intros r u Hr%resource_elem _. rewrite (be_where _ _ B). by eapply heap_not_hand.
Qed.

Lemma good_disconnectLease t key lease a e p : pool_ok p -> p_heap p !! a = Some e ->
  good t p (disconnectLease_finish key lease a e p).
Proof.
  intros O He. unfold disconnectLease_finish. destruct (_ && _); [|by apply good_refl].
  set (f := fun e => put_evicting false (put_resource None (put_lease (S (p_nextLease p)) e))).
  replace (e_resource e) with (resource_at (Some a) p) by (cbn; by rewrite He).
  destruct (empty_entry t a p (upd a f (next_lease p))) as [H1 H2]; [done| | |by split_and!].
  - etransitivity; [apply benign_next_lease|]. apply benign_upd. by intros []; split; cbn; auto.
  - intros e'. cbn. rewrite lookup_alter_eq, He. by intros [= <-].
Qed.

Lemma benign_set_active p : p_active p <> None -> shape_ok p -> shape_ok (set_active None p).
Proof. intros _ []. split; cbn; try done. Qed.

Lemma good_remove t key p : pool_ok p -> good t p (remove_start key p).
Proof.
  intros O. unfold remove_start. destruct (negb _); [by apply good_refl|]. destruct (p_closed p); [by apply good_refl|].
  destruct (handoff_on_key key p) as [h|] eqn:Eh; [apply good_benign; auto with pool; done|].
  destruct (entry_of p key) as [[a e]|] eqn:E; [|by apply good_refl]. apply entry_of_Some in E as [Ek Ee].
  set (q := upd a _ _). assert (B : benign p q).
  { unfold q. etransitivity; [apply (benign_cancel_opt (e_restoreCancel e))|].
    etransitivity; [apply benign_next_lease|]. apply benign_upd. by intros []; split; cbn; auto. }
  clearbody q. pose proof (benign_ok _ _ B O) as [W S].
  eapply good_after; [by apply benign_rely|]. rewrite <- (be_entries _ _ B) in Ek.
  assert (Hno : forall h, p_handoff q = Some h -> h_key h <> key /\ h_victimKey h <> Some key).
  { intros h Hh. rewrite (be_handoff _ _ B) in Hh. unfold handoff_on_key in Eh. rewrite Hh in Eh.
    repeat case_bool_decide; done. }
  set (s := removeLRULocked key _).
  assert (Ws : forall x, within (set_active x s)).
  { intros x. destruct W as [W1 W2]. split.
    - cbn. rewrite map_size_delete_Some by done. lia.
    - intros d. etransitivity; [|apply (W2 d)]. apply members_subset. apply delete_subseteq. }
  assert (R : forall x, rely t q (set_active x s)).
  { intros x. split; cbn; auto.
    - intros h k Hh _ Hk. destruct (Hno h Hh). rewrite lookup_delete_ne by (destruct Hk; congruence). done.
    - intros h _ _. apply delete_subseteq. }
  case_bool_decide as Ha.
  - split_and!; [|apply R|done]. split; [apply Ws|]. apply (drop_shape key (set_active None q)); [|done].
    apply benign_set_active; [cbn in Ha; congruence|done].
  - split_and!; [|exact (R (p_active q))|done]. split; [exact (Ws (p_active q))|]. by apply drop_shape.
Qed.

Lemma good_taken t a p n :
  pool_ok p -> (forall r, resource_at (Some a) p = Some r -> next_ok t (take_resource a p) n) ->
  (resource_at (Some a) p = None -> next_ok t (take_resource a p) n) -> good t p (take_resource a p, n).
Proof.
  intros O H1 H2. split_and!; [by apply take_ok|by apply take_rely|].
  destruct (resource_at (Some a) p) eqn:E; eauto.
Qed.

Lemma good_restore_start t key revision p : pool_ok p -> good t p (restore_start key revision p).
Proof.
  intros O. unfold restore_start. destruct (negb _); [by apply good_refl|]. destruct (negb _); [by apply good_refl|].
  destruct (p_closed p); [by apply good_refl|].
  destruct (entry_of p key) as [[a e]|]; [|by apply good_refl].
  destruct (_ && _); [by apply good_refl|]. destruct (bool_decide _); [by apply good_refl|].
  destruct (e_restoring e); [by apply good_refl|]. apply good_benign; [done| |done].
  etransitivity; [|apply benign_workers]. etransitivity; [|apply benign_nextCtx].
  etransitivity; [apply benign_next_lease|]. apply benign_upd. by intros []; split; cbn; auto.
Qed.

Lemma good_restore_commit t key revision a lease epoch ctx r parent valid bound valid2 p :
  pool_ok p -> hand t p r -> good t p (restore_commit key revision a lease epoch ctx r parent valid bound valid2 p).
Proof.
  intros O Hr. unfold restore_commit.
  assert (Hf : forall err, good t p (p, Goto (RFinish a lease [r] (Failed err))))
    by (intros err; apply good_refl; [done|]; cbn; auto).
  destruct (p_heap p !! a) as [e|]; [|apply Hf]. destruct (_ || negb (epoch_of _ _ =? _)%nat); [apply Hf|].
  destruct (negb valid); [apply Hf|]. destruct (resourceOwnedLocked r p) eqn:Hown; [apply good_refl; [done|constructor]|].
  destruct (negb bound); [apply Hf|]. destruct (negb valid2); [apply Hf|].
  set (f := fun e => put_restoreCancel None (put_restoring false (put_resource (Some r) e))).
  eapply good_after; [apply (install_rely t f a r p Hr)|]. apply good_benign; [|apply benign_cancel|done].
  split; [apply O|]. apply (install_shape t); [apply O|done|by apply not_owned_unshared|by intros []].
Qed.

Lemma free_heap a p e : free a p = Some e -> p_heap p !! a = Some e.
Proof. unfold free. destruct (p_heap p !! a) as [e0|]; cbn; [|done]. destruct (e_locked e0); congruence. Qed.

Lemma fresh_view t p r p' : fresh_resource t p = (r, p') ->
  p_entries p' = p_entries p /\ p_handoff p' = p_handoff p.
Proof. by intros [= <- <-]. Qed.

Lemma good_open t c revision h parent valid p : pool_ok p -> thread_ok t p (AOpen c revision h) ->
  good t p (let '(r, p') := fresh_resource t p in activate_prepare c revision h r parent valid p').
Proof.
  intros O [Hh Hc]. destruct (fresh_resource t p) as [r p'] eqn:E. destruct (fresh_ok t p r p' O E) as [O' Hr].
  destruct (fresh_view t p r p' E) as [E1 E2]. eapply good_after; [eapply fresh_rely, E; apply O|].
  apply good_activate_prepare; [done| |done|by rewrite E1]. unfold holds. by rewrite E2.
Qed.

Lemma good_die t r p n : pool_ok p -> gone p r -> next_ok t p n -> good t p (die r p, n).
Proof.
  intros O Hg Hn. split_and!; [by apply die_ok|by apply view_rely|].
  destruct n as [pt|pt todo| |]; cbn in *; [|destruct Hn; split; [|done]|done..]; by eapply view_thread.
Qed.

(** The points of [activate]. *)
Definition activating (pt : point) : bool :=
  match pt with
  | AStart _ _ _ | AOpen _ _ _ | AVictim _ _ _ _ _ | ASnapshot _ _ _ _ _ | ASnapFailed _ _ _ | AReplace _ _ _ _ _
  | ACommit _ _ _ _ _ _ _ _ => true
  | _ => false
  end.

(** The points of the calls on leases and hosts. *)
Definition detaching (pt : point) : bool :=
  match pt with
  | WStart _ _ | WLock _ _ _ | WApply _ _ | DStart _ _ | DLock _ _ _ | HStart _ | HWait _ _ | HDetach _ _ _
  | HClose _ _ _ _ | FStart _ | FLoop _ => true
  | _ => false
  end.

Lemma activate_good t pt ans p pn : activating pt = true ->
  pool_ok p -> thread_ok t p pt -> section t pt ans p = Some pn -> good t p pn.
Proof.
  intros Ha O T Hs. destruct pt; try done; destruct ans; cbn [section] in Hs; try done; clear Ha.
  - (* AStart *) injection Hs as <-. by apply good_activate_start.
  - (* AOpen, failed *) injection Hs as <-. destruct T as [Hh _]. split_and!; [by apply clear_ok|by apply clear_rely|done].
  - injection Hs as <-. destruct T as [Hh _]. split_and!; [by apply clear_ok|by apply clear_rely|done].
  - (* AOpen *) pose proof (good_open t c revision h parent valid p O T) as G.
    destruct (fresh_resource t p) as [r p']. injection Hs as <-. exact G.
  - (* AVictim *) destruct (free v p) as [e|]; [|done]. cbn in Hs.
    destruct (e_resource e); injection Hs as <-; [|by apply good_refl].
    apply good_benign; [done|apply benign_lock|]. eapply (view_thread t p); [apply benign_view, benign_lock|exact T].
  - (* ASnapshot *) injection Hs as <-. apply good_benign; [done|apply benign_lock|].
    assert (V : same_view p (upd v (put_locked false) p)) by apply benign_view, benign_lock.
    destruct T as (Hh & Hr & Hk & Hm & Hv). destruct ok; eapply (view_thread t p _ _ V); cbn; by split_and!.
  - (* ASnapFailed *) injection Hs as <-. destruct T as [Hh Hr].
    assert (B : benign p (unmark (Some v) p)) by apply benign_unmark.
    eapply good_after; [by apply benign_rely|]. apply good_abort; [by eapply benign_ok|by eapply benign_holds|].
    constructor; [by eapply benign_hand|constructor].
  - (* AReplace *) destruct (free e p) as [x|] eqn:Ef; [|done]. injection Hs as <-. apply good_refl; [done|].
    destruct T as (Hh & Hr & Hk). cbn. split_and!; try done. intros y Hy. left.
    eapply (ok_home _ (ok_shape _ O)); eauto using free_heap.
  - (* ACommit *) injection Hs as <-. by apply good_activate_commit.
Qed.

Lemma detach_good t pt ans p pn : detaching pt = true ->
  pool_ok p -> thread_ok t p pt -> section t pt ans p = Some pn -> good t p pn.
Proof.
  intros Ha O T Hs. destruct pt; try done; try destruct detached as [|a es]; destruct ans; cbn [section] in Hs; try done; clear Ha.
  - (* WStart *) injection Hs as <-. unfold withLease_start. repeat case_match; by apply good_refl.
  - (* WLock *) destruct (free e p); [|done]. injection Hs as <-. unfold withLease_check.
    destruct (_ && _); [|by apply good_refl]. apply good_benign; auto with pool; done.
  - (* WApply *) injection Hs as <-. apply good_benign; auto with pool; done.
  - (* DStart *) injection Hs as <-. unfold disconnectLease_start. repeat case_match; try by apply good_refl.
    apply good_benign; auto with pool; done.
  - (* DLock *) destruct (free e p) eqn:Ef; [|done]. injection Hs as <-. apply good_disconnectLease; [done|by apply free_heap].
  - (* HStart *) injection Hs as <-. unfold disconnectHost_start. destruct (p_closed p); [by apply good_refl|].
    set (q := set_hostEpoch _ p). eapply good_after; [apply benign_rely, benign_hostEpoch|].
    assert (Oq : pool_ok q) by (eapply benign_ok, O; apply benign_hostEpoch).
    destruct (handoff_on_host host q); [apply good_benign; auto with pool; done|].
    pose proof (benign_detach host (addresses q) (q, [])) as B. destruct (fold_left _ _ _) as [q' d]. by apply good_benign.
  - (* HWait *) destruct (handoff_over id p); [|done]. injection Hs as <-. by apply good_refl.
  - (* HDetach *) injection Hs as <-. apply good_benign; auto with pool; done.
  - destruct (free a p); [|done]. injection Hs as <-. unfold disconnectHost_take. apply good_taken; [done|..].
    + intros r Hr. rewrite Hr. by apply take_gone.
    + intros Hr. by rewrite Hr.
  - (* HClose *) injection Hs as <-. by apply good_die.
  - injection Hs as <-. by apply good_die.
  - (* FStart *) injection Hs as <-. unfold forgetHost_start. destruct (p_closed p); [by apply good_refl|].
    apply good_benign; [done|apply benign_retired|]. split; [done|]. by repeat constructor.
  - (* FLoop *) injection Hs as <-. unfold forgetHost_loop. destruct (DesiredForHost host p) as [|k ks]; [by apply good_refl|].
    apply good_refl; [done|]. split; [done|]. apply Forall_app. split; [|by repeat constructor].
    apply Forall_map. by apply Forall_true.
Qed.

(** Every section keeps the invariant and what the other threads rely on. *)
Lemma section_good t pt ans p pn :
  pool_ok p -> thread_ok t p pt -> section t pt ans p = Some pn -> good t p pn.
Proof.
  intros O T Hs. destruct (activating pt) eqn:Ea; [by eapply activate_good|].
  destruct (detaching pt) eqn:Ed; [by eapply detach_good|].
  destruct pt; try done; clear Ea Ed; try destruct entries as [|a es]; destruct ans; cbn [section] in Hs; try done; try (by destruct rs).
  - (* MStart *) injection Hs as <-. by apply good_remove.
  - (* MWait *) destruct (handoff_over id p); [|done]. injection Hs as <-. by apply good_refl.
  - (* MTake *) destruct (free e p); [|done]. injection Hs as <-. unfold remove_take. apply good_taken; [done|..].
    + intros r Hr. rewrite Hr. cbn. constructor; [by apply take_gone|constructor].
    + intros Hr. rewrite Hr. constructor.
  - (* RStart *) injection Hs as <-. by apply good_restore_start.
  - injection Hs as <-. apply good_refl; [done|constructor].
  - injection Hs as <-. apply good_refl; [done|constructor].
  - (* ROpen *) destruct (fresh_resource t p) as [r p'] eqn:E. injection Hs as <-.
    destruct (fresh_ok t p r p' O E) as [O' Hr]. eapply good_after; [eapply fresh_rely, E; apply O|].
    by apply good_restore_commit.
  - (* RFinish *) injection Hs as <-. pose proof (benign_finishRestore e lease p) as B.
    eapply good_after; [by apply benign_rely|]. apply good_discard; [by eapply benign_ok|].
    cbn in T. eapply Forall_impl; [exact T|]. intros r. by apply benign_hand.
  - (* CStart *) injection Hs as <-. unfold close_start. destruct (p_closed p); [by apply good_refl|].
    apply good_benign; [done| |done]. etransitivity; [apply (benign_closed true)|].
    etransitivity; [|apply benign_fold, benign_close_one]. case_match; auto with pool.
  - (* CWait *) destruct (p_closeDone p); [|done]. injection Hs as <-. by apply good_refl.
  - (* CTake *) destruct (_ =? _)%nat; [|done]. injection Hs as <-. apply good_benign; auto with pool; done.
  - destruct (free a p); [|done]. injection Hs as <-. unfold close_take. apply good_taken; [done|..].
    + intros r Hr. rewrite Hr. by apply take_gone.
    + intros Hr. by rewrite Hr.
  - (* CClose *) injection Hs as <-. by apply good_die.
  - injection Hs as <-. by apply good_die.
  - (* Closing *) destruct rs; [|done]. injection Hs as <-. by apply good_refl.
  - destruct rs as [|r rs]; [done|]. injection Hs as <-. inversion T; subst. by apply good_die.
Qed.

(** ** Executions *)

Lemma start_ok capacity p : NewOutputPool capacity = Ok p -> world_ok (start p).
Proof.
  unfold NewOutputPool. destruct (_ || _); [done|]. intros [= <-]. split; [|done..].
  split; [split; [apply Nat.le_0_l|intros d; apply Nat.le_0_l]|]. split; cbn; try done; try set_solver.
  - constructor.
  - intros k. rewrite lookup_empty, elem_of_nil. split; [done|by intros []].
  - intros a [x Hx]. by rewrite lookup_empty in Hx.
  - intros k r k' r' (a & e & Hk & _). cbn in Hk. by rewrite lookup_empty in Hk.
  - intros r [x Hx]. by rewrite lookup_empty in Hx.
Qed.

(** A pool that differs for the other threads only by what they do not rely on. *)
Lemma others_ok t w q : world_ok w -> rely t (w_pool w) q ->
  forall u th, u <> t -> w_threads w !! u = Some th ->
  thread_ok u q (t_point th) /\ Forall (fun pt => quiet pt = true) (t_todo th).
Proof.
  intros O R u th Hu Hth. destruct (wo_threads _ O u th Hth) as [T F]. split; [|done]. by eapply thread_ok_rely.
Qed.

Lemma settle_ok t th q n w :
  world_ok w -> w_threads w !! t = Some th -> good t (w_pool w) (q, n) -> world_ok (settle t th q n w).
Proof.
  intros O Hth (Oq & R & N). cbn [fst snd] in *. pose proof (others_ok t w q O R) as Hoth.
  destruct (wo_threads _ O t th Hth) as [_ F]. pose proof (wo_fresh _ O t th Hth) as Ht.
  assert (Hins : forall q' pt todo wk res, pool_ok q' -> same_view q q' -> thread_ok t q' pt ->
    Forall (fun pt => quiet pt = true) todo ->
    world_ok (mkWorld q' (<[t := mkThread pt todo wk]> (w_threads w)) (w_next w) res false)).
  { intros q' pt todo wk res Oq' V T Fq. split; cbn; [done|..].
    - intros u th'. destruct (decide (u = t)) as [->|Hu]; [rewrite lookup_insert_eq; by intros [= <-]|].
      rewrite lookup_insert_ne by done. intros Hu'. destruct (Hoth u th' Hu Hu') as [T' F']. split; [|done]. by eapply view_thread.
    - intros u th'. destruct (decide (u = t)) as [->|Hu]; [done|]. rewrite lookup_insert_ne by done. apply (wo_fresh _ O). }
  assert (Hdel : forall q' res pn, pool_ok q' -> same_view q q' -> world_ok (mkWorld q' (delete t (w_threads w)) (w_next w) res pn)).
  { intros q' res pn Oq' V. split; cbn; [done|..].
    - intros u th' [Hu Hu']%lookup_delete_Some. destruct (Hoth u th' (not_eq_sym Hu) Hu') as [T' F']. split; [|done]. by eapply view_thread.
    - intros u th' [Hu Hu']%lookup_delete_Some. by eapply (wo_fresh _ O). }
  destruct n as [pt|pt todo|o|]; cbn [settle].
  - by apply Hins.
  - destruct N as [T Fq]. apply Hins; [done|done|done|by apply Forall_app].
  - set (q' := if t_worker th then _ else q).
    assert (B : benign q q') by (unfold q'; destruct (t_worker th); auto with pool).
    pose proof (benign_ok _ _ B Oq) as Oq'. pose proof (benign_view _ _ B) as V.
    destruct (t_todo th) as [|pt todo]; [by apply Hdel|]. inversion F; subst.
    destruct (failed o); [by apply Hdel|]. apply Hins; try done. by apply quiet_ok.
  - by apply Hdel.
Qed.

Lemma step_ok a w w' : world_ok w -> step a w = Some w' -> world_ok w'.
Proof.
  intros O. unfold step. destruct (w_panic w); [done|]. destruct a as [pt|t ans].
  - destruct (is_call pt) eqn:Ec; [|done]. intros [= <-]. split; cbn; [apply O|..].
    + intros u th. destruct (decide (u = w_next w)) as [->|Hu].
      * rewrite lookup_insert_eq. intros [= <-]. split; [|done]. apply quiet_ok. cbn. unfold quiet. by rewrite Ec.
      * rewrite lookup_insert_ne by done. apply (wo_threads _ O).
    + intros u th. destruct (decide (u = w_next w)) as [->|Hu]; [lia|].
      rewrite lookup_insert_ne by done. intros H. pose proof (wo_fresh _ O u th H). lia.
  - destruct (w_threads w !! t) as [th|] eqn:Eth; [|done]. cbn.
    destruct (section t (t_point th) ans (w_pool w)) as [[q n]|] eqn:Es; [|done]. cbn. intros [= <-].
    apply settle_ok; [done|done|]. eapply section_good; [apply O|by apply (wo_threads _ O)|done].
Qed.

Lemma steps_ok l w w' : world_ok w -> steps l w = Some w' -> world_ok w'.
Proof.
  revert w; induction l as [|a l IH]; cbn; intros w O; [by intros [= <-]|].
  destruct (step a w) as [w1|] eqn:E; [|done]. cbn. apply IH. by eapply step_ok.
Qed.

(** [w] is the world after some calls ran, interleaved in some way. *)
Definition reached (capacity : Z) (w : world) : Prop :=
  exists p l, NewOutputPool capacity = Ok p /\ steps l (start p) = Some w.

Lemma reached_ok capacity w : reached capacity w -> pool_ok (w_pool w).
Proof. intros (p & l & Hp & Hl). apply (steps_ok l (start p)); [by eapply start_ok|done]. Qed.

(** C31. Whatever calls run, and however they interleave, the pool never has more
    members than its capacity, nor more than seven of one daemon, not even while a
    new stream is being prepared; the order in which they were shown lists each
    member once and nothing else; and the terminal that is shown is a member. *)
Theorem pool_within_limits (capacity : Z) (w : world) :
  reached capacity w ->
  (size (p_entries (w_pool w)) <= p_capacity (w_pool w))%nat /\
  (forall d, membersForDaemonLocked d (w_pool w) <= maxStableOutputObserversPerDaemon)%nat /\
  NoDup (p_lru (w_pool w)) /\
  (forall k, k ∈ p_lru (w_pool w) <-> is_Some (p_entries (w_pool w) !! k)) /\
  (forall k, p_active (w_pool w) = Some k -> is_Some (p_entries (w_pool w) !! k)).
Proof. intros [[W1 W2] []]%reached_ok. by split_and!. Qed.

(** C32. Whatever streams the opener returns, also ones it has returned before, no two
    members ever hold the same stream, under any interleaving.  When the opener returns
    a new stream every time, no member holds a stream that was closed.  (With an opener
    that does not, a member's stream can be closed under it.) *)
Theorem members_hold_open_streams (capacity : Z) (w : world) (k : OutputKey) (a : nat) (e : outputPoolEntry) (r : nat) :
  reached capacity w ->
  entry_of (w_pool w) k = Some (a, e) -> e_resource e = Some r ->
  (forall k' a' e' r', entry_of (w_pool w) k' = Some (a', e') -> e_resource e' = Some r' -> stream_of r' = stream_of r -> k' = k) /\
  ((forall n m, stream_of n = stream_of m -> n = m) -> forall x, x ∈ p_dead (w_pool w) -> stream_of x <> stream_of r).
Proof.
  intros O%reached_ok [Hk He]%entry_of_Some Hr. apply ok_shape in O. split.
  - intros k' a' e' r' [Hk' He']%entry_of_Some Hr'. apply (ok_owned _ O k r); [by exists a, e|by exists a', e'].
  - intros Hinj x Hd Hx. apply Hinj in Hx as ->. apply (ok_dead _ O) in Hd.
    pose proof (ok_home _ O k a e r Hk He Hr). congruence.
Qed.

End Opener.
