(* ===== verification/OutputPoolCalls.v ===== *)
(** * Showing a new terminal in a full pool

    [Activate] run on its own: which member makes room, what happens when that
    member is disconnected, and executions that interleave calls. *)

From S2P Require Import Prelude OutputPool OutputPoolSafety.
Local Open Scope go_scope.

Section Opener.
Context {OO : OutputOpener}.

(** The pool is full, [key] is new, nothing stands in the way of showing it, and the
    oldest member [k0] is the entry [e0] at [a0]. *)
Record full_pool (key k0 : OutputKey) (rest : list OutputKey) (a0 : nat) (e0 : outputPoolEntry) (revision : nat)
  (p : OutputPool) : Prop := mkFullPool {
  fp_key : key_validate key = true;
  fp_revision : revision_validate revision = true;
  fp_open : p_closed p = false;
  fp_host : key_host key ∉ p_retired p;
  fp_idle : p_handoff p = None;
  fp_new : p_entries p !! key = None;
  fp_ctx : p_nextCtx p ∉ p_cancelled p;
  fp_room : room (key_daemon key) p;
  fp_full : (p_capacity p <= size (p_entries p))%nat;
  fp_lru : p_lru p = k0 :: rest;
  fp_oldest : p_entries p !! k0 = Some a0;
  fp_entry : p_heap p !! a0 = Some e0;
  fp_ok : pool_ok p;
}.

(** What [activate] has done to the pool [p] when it opens the stream, and when it
    has chosen its victim. *)
Record opening (t : nat) (key : OutputKey) (h : outputHandoff) (p q : OutputPool) : Prop := mkOpening {
  op_capacity : p_capacity q = p_capacity p;
  op_entries : p_entries q = p_entries p;
  op_lru : p_lru q = p_lru p;
  op_heap : p_heap q = p_heap p;
  op_epochs : p_hostEpoch q = p_hostEpoch p;
  op_closed : p_closed q = false;
  op_dead : p_dead q = p_dead p;
  op_ctx : h_ctx h ∉ p_cancelled q;
  op_handoff : p_handoff q = Some h;
  op_key : h_key h = key;
  op_epoch : h_epoch h = epoch_of p (key_host key);
  op_plain : h_victimKey h = None;
  op_owner : h_owner h = t;
  op_ok : pool_ok q;
}.

Lemma start_opens t key k0 rest a0 e0 revision p : full_pool key k0 rest a0 e0 revision p ->
  exists q h, activate_start t Activate key revision p = (q, Goto (AOpen Activate revision h)) /\ opening t key h p q /\ p_nextResource q = p_nextResource p.
Proof.
  intros F. pose proof (good_activate_start t Activate key revision p (fp_ok _ _ _ _ _ _ _ F)) as [O _].
  revert O. unfold activate_start. rewrite (fp_key _ _ _ _ _ _ _ F), (fp_revision _ _ _ _ _ _ _ F), (fp_open _ _ _ _ _ _ _ F). cbn [negb].
  rewrite bool_decide_eq_false_2 by apply F. rewrite (fp_idle _ _ _ _ _ _ _ F).
  rewrite bool_decide_eq_false_2 by (intros [? ?]; done).
  replace (entry_of p key) with (@None (nat * outputPoolEntry)) by (unfold entry_of; by rewrite (fp_new _ _ _ _ _ _ _ F)).
  cbn [requireDesired fst]. intros O. do 2 eexists. split; [reflexivity|]. split; [|done]. split; try done; try apply F.
Qed.

Lemma current_handoff t key h p q : opening t key h p q -> handoffCurrentLocked h q = true.
Proof.
  intros P. unfold handoffCurrentLocked, is_handoff, h_victimHost.
  rewrite (op_closed _ _ _ _ _ P), (op_handoff _ _ _ _ _ P), (op_plain _ _ _ _ _ P), Nat.eqb_refl, (op_epoch _ _ _ _ _ P), (op_key _ _ _ _ _ P).
  unfold epoch_of. by rewrite (op_epochs _ _ _ _ _ P), Nat.eqb_refl.
Qed.

Lemma opening_fresh t key h p q r q' : opening t key h p q -> fresh_resource t q = (r, q') -> opening t key h p q' /\ hand t q' r.
Proof.
  intros P E. destruct (fresh_ok t q r q' (op_ok _ _ _ _ _ P) E) as [O Hr]. injection E as <- <-.
  split; [|done]. destruct P. by split.
Qed.

(** The oldest member is chosen. *)
Lemma prepare_chooses t key k0 rest a0 e0 revision h r p q : full_pool key k0 rest a0 e0 revision p -> opening t key h p q ->
  activate_prepare Activate revision h r false true q =
  (set_handoff (Some (with_victim k0 (epoch_of p (key_host k0)) h)) (upd a0 (put_evicting true) q),
   Goto (AVictim Activate revision (with_victim k0 (epoch_of p (key_host k0)) h) r a0)).
Proof.
  intros F P. unfold activate_prepare. rewrite (current_handoff _ _ _ _ _ P).
  rewrite bool_decide_eq_false_2 by apply P. cbn [orb negb]. rewrite (op_key _ _ _ _ _ P).
  replace (entry_of q key) with (@None (nat * outputPoolEntry))
    by (unfold entry_of; by rewrite (op_entries _ _ _ _ _ P), (fp_new _ _ _ _ _ _ _ F)).
  replace (membersForDaemonLocked (key_daemon key) q) with (membersForDaemonLocked (key_daemon key) p)
    by (unfold membersForDaemonLocked; by rewrite (op_entries _ _ _ _ _ P)).
  pose proof (fp_room _ _ _ _ _ _ _ F) as Hr. unfold room in Hr.
  rewrite (proj2 (Nat.leb_gt _ _) Hr), (op_capacity _ _ _ _ _ P), (op_entries _ _ _ _ _ P).
  rewrite (proj2 (Nat.leb_le _ _) (fp_full _ _ _ _ _ _ _ F)). cbn [orb].
  replace (oldestEvictionCandidateLocked q) with (Some a0)
    by (unfold oldestEvictionCandidateLocked; by rewrite (op_lru _ _ _ _ _ P), (fp_lru _ _ _ _ _ _ _ F), (op_entries _ _ _ _ _ P), (fp_oldest _ _ _ _ _ _ _ F)).
  cbn [mbind option_bind]. rewrite (op_heap _ _ _ _ _ P), (fp_entry _ _ _ _ _ _ _ F). cbn [mbind option_bind].
  destruct (ok_keys _ (ok_shape _ (fp_ok _ _ _ _ _ _ _ F)) k0 a0 (fp_oldest _ _ _ _ _ _ _ F)) as (e & He & Hk).
  rewrite (fp_entry _ _ _ _ _ _ _ F) in He. injection He as <-. rewrite Hk.
  unfold epoch_of. by rewrite (op_epochs _ _ _ _ _ P).
Qed.

(** One step of a thread. *)
Lemma run_step w t th ans p n : w_panic w = false -> w_threads w !! t = Some th ->
  section t (t_point th) ans (w_pool w) = Some (p, n) -> step (Run t ans) w = Some (settle t th p n w).
Proof. intros H1 H2 H3. unfold step. rewrite H1, H2. cbn. by rewrite H3. Qed.

Definition thread_at (t : nat) (pt : point) (w : world) : Prop :=
  w_panic w = false /\ exists th, w_threads w !! t = Some th /\ t_point th = pt /\ t_todo th = [].

Lemma run_goto w t pt ans p pt' : thread_at t pt w -> section t pt ans (w_pool w) = Some (p, Goto pt') ->
  exists w', step (Run t ans) w = Some w' /\ w_pool w' = p /\ thread_at t pt' w' /\ w_results w' = w_results w.
Proof.
  intros [Hp (th & Hth & <- & Htodo)] Hs. eexists. split; [by eapply run_step|]. split; [done|]. split; [|done].
  split; [done|]. eexists. split; [cbn; apply lookup_insert_eq|]. done.
Qed.

Lemma run_panic w t pt ans p : thread_at t pt w -> section t pt ans (w_pool w) = Some (p, Panic) ->
  exists w', step (Run t ans) w = Some w' /\ w_panic w' = true.
Proof. intros [Hp (th & Hth & <- & Htodo)] Hs. eexists. split; [by eapply run_step|done]. Qed.

Lemma call_step w pt : w_panic w = false -> is_call pt = true ->
  exists w', step (Call pt) w = Some w' /\ w_pool w' = w_pool w /\ thread_at (w_next w) pt w' /\ w_results w' = w_results w.
Proof.
  intros Hp Hc. unfold step. rewrite Hp, Hc. eexists. split; [done|]. split; [done|]. split; [|done].
  split; [done|]. eexists. split; [cbn; apply lookup_insert_eq|done].
Qed.

(** The call up to the point where it takes the mutex of its victim. *)
Lemma activate_reaches_victim key k0 rest a0 e0 revision w :
  w_panic w = false -> full_pool key k0 rest a0 e0 revision (w_pool w) ->
  exists w' q h r, steps [Call (AStart Activate key revision); Run (w_next w) Proceed; Run (w_next w) (Opened false true true true)] w = Some w' /\
    opening (w_next w) key h (w_pool w) q /\ hand (w_next w) q r /\ r = p_nextResource (w_pool w) /\
    w_pool w' = set_handoff (Some (with_victim k0 (epoch_of (w_pool w) (key_host k0)) h)) (upd a0 (put_evicting true) q) /\
    thread_at (w_next w) (AVictim Activate revision (with_victim k0 (epoch_of (w_pool w) (key_host k0)) h) r a0) w' /\
    w_results w' = w_results w.
Proof.
  intros Hp F. destruct (call_step w (AStart Activate key revision) Hp eq_refl) as (w1 & E1 & P1 & T1 & R1).
  destruct (start_opens (w_next w) _ _ _ _ _ _ _ F) as (q & h & Es & Po & Hnext).
  destruct (run_goto w1 (w_next w) _ Proceed q (AOpen Activate revision h) T1) as (w2 & E2 & P2 & T2 & R2).
  { rewrite P1. cbn. by rewrite Es. }
  destruct (fresh_resource (w_next w) q) as [r q'] eqn:Ef. destruct (opening_fresh _ _ _ _ _ _ _ Po Ef) as [Po' Hr].
  assert (Hrn : r = p_nextResource (w_pool w)) by (injection Ef as <- _; exact Hnext).
  pose proof (prepare_chooses _ _ _ _ _ _ _ _ r _ _ F Po') as Ep.
  assert (Sec : section (w_next w) (AOpen Activate revision h) (Opened false true true true) (w_pool w2) =
    Some (activate_prepare Activate revision h r false true q')) by (rewrite P2; cbn [section]; by rewrite Ef).
  rewrite Ep in Sec. destruct (run_goto _ _ _ _ _ _ T2 Sec) as (w3 & E3 & P3 & T3 & R3).
  exists w3, q', h, r. split_and!; try done; [|congruence]. cbn [steps]. by rewrite E1; cbn; rewrite E2; cbn; rewrite E3.
Qed.

(** C40. When the pool is full, its oldest member is disconnected and the daemon of the
    new terminal has fewer than seven members, showing the new terminal panics: the eviction takes a snapshot of a stream that is not there. *)
Theorem evict_disconnected_panics (key k0 : OutputKey) (rest : list OutputKey) (a0 : nat) (e0 : outputPoolEntry)
  (revision : nat) (w : world) :
  w_panic w = false -> full_pool key k0 rest a0 e0 revision (w_pool w) ->
  e_resource e0 = None -> e_locked e0 = false ->
  exists w', steps [Call (AStart Activate key revision); Run (w_next w) Proceed;
                    Run (w_next w) (Opened false true true true); Run (w_next w) Proceed] w = Some w' /\
    w_panic w' = true.
Proof.
  intros Hp F Hr Hl. destruct (activate_reaches_victim key k0 rest a0 e0 revision w Hp F) as (w1 & q & h & r & E1 & P & _ & _ & P1 & T1 & _).
  destruct (run_panic w1 (w_next w) _ Proceed (w_pool w1) T1) as (w2 & E2 & Hw2).
  { cbn [section]. unfold free. rewrite P1. cbn. rewrite lookup_alter_eq, (op_heap _ _ _ _ _ P), (fp_entry _ _ _ _ _ _ _ F). cbn.
    rewrite Hl. cbn. by rewrite Hr. }
  exists w2. split; [|done].
  change (steps ([Call (AStart Activate key revision); Run (w_next w) Proceed; Run (w_next w) (Opened false true true true)] ++ [Run (w_next w) Proceed]) w = Some w2).
  rewrite steps_app, E1. cbn. by rewrite E2.
Qed.

(** ** The eviction goes through *)

(** The pool when the snapshot of the victim was taken. *)
Definition snapshotted (h' : outputHandoff) (a0 : nat) (q : OutputPool) : OutputPool :=
  upd a0 (put_locked false) (upd a0 (put_locked true) (set_handoff (Some h') (upd a0 (put_evicting true) q))).

Lemma snapshotted_heap h' a0 q e0 : p_heap q !! a0 = Some e0 ->
  p_heap (snapshotted h' a0 q) !! a0 = Some (put_locked false (put_locked true (put_evicting true e0))).
Proof. intros H. cbn. by rewrite !lookup_alter_eq, H. Qed.

Lemma snapshotted_ok h' a0 q : pool_ok q -> pool_ok (snapshotted h' a0 q).
Proof.
  intros O. unfold snapshotted. eapply benign_ok; [etransitivity; apply benign_lock|].
  apply (core_ok (upd a0 (put_evicting true) q)); [done..|]. eapply benign_ok, O. apply benign_mark.
Qed.

(** The stream is not one of a member. *)
Definition new_stream (r : nat) (p : OutputPool) : Prop := forall k x, has_resource p k x -> stream_of x <> stream_of r.

Lemma not_owned r p : new_stream r p -> resourceOwnedLocked r p = false.
Proof.
  intros Hr. unfold resourceOwnedLocked. apply not_true_iff_false. rewrite existsb_exists.
  intros ([k a] & Hin%list_elem_of_In%elem_of_map_to_list & Hx). cbn in Hx.
  destruct (p_heap p !! a) as [e|] eqn:He; [|done]. apply bool_decide_eq_true in Hx.
  destruct (e_resource e) as [x|] eqn:Ex; [|done]. injection Hx as Hx. apply (Hr k x); [|done]. by exists a, e.
Qed.

(** So it is when the opener returns a new stream every time. *)
Lemma injective_new p : (forall n m, stream_of n = stream_of m -> n = m) -> pool_ok p -> new_stream (p_nextResource p) p.
Proof.
  intros Hinj O k x (a & e & Hk & He & Hr) Hs. apply Hinj in Hs. pose proof (ok_home _ (ok_shape _ O) k a e x Hk He Hr) as Hw.
  pose proof (ok_where _ (ok_shape _ O) x ltac:(rewrite Hw; eauto)). lia.
Qed.

Lemma has_resource_upd a f p k x : (forall e, e_resource (f e) = e_resource e) -> has_resource (upd a f p) k x -> has_resource p k x.
Proof.
  intros Hf (b & e & Hk & He & Hx). cbn in Hk, He. destruct (decide (a = b)) as [->|Hne].
  - rewrite lookup_alter_eq in He. destruct (p_heap p !! b) as [e0|] eqn:E0; [|done]. injection He as <-.
    exists b, e0. rewrite <- (Hf e0). by split_and!.
  - rewrite lookup_alter_ne in He by done. exists b, e. by split_and!.
Qed.

Lemma snapshotted_new t key h h' a0 p q r : opening t key h p q -> new_stream r p -> new_stream r (snapshotted h' a0 q).
Proof.
  intros P Hn k x Hx. apply (Hn k). unfold snapshotted in Hx.
  do 2 (apply has_resource_upd in Hx; [|by intros []]).
  assert (H' : has_resource q k x) by (apply (has_resource_upd a0 (put_evicting true)); [by intros []|exact Hx]).
  destruct H' as (b & e & Hk & He & Hr). exists b, e. rewrite <- (op_entries _ _ _ _ _ P), <- (op_heap _ _ _ _ _ P). by split_and!.
Qed.

Lemma commit_installs t key k0 rest a0 e0 revision h r p q : full_pool key k0 rest a0 e0 revision p -> opening t key h p q -> new_stream r p ->
  let h' := with_victim k0 (epoch_of p (key_host k0)) h in
  activate_commit Activate revision h' r None (Some a0) None None false true true (snapshotted h' a0 q) =
  activate_install Activate revision h' r None (Some a0) None (snapshotted h' a0 q).
Proof.
  intros F P Hr h'. unfold activate_commit. rewrite (not_owned r (snapshotted h' a0 q)) by (by eapply snapshotted_new).
  assert (Hc : handoffCurrentLocked h' (snapshotted h' a0 q) = true).
  { unfold handoffCurrentLocked, is_handoff, h_victimHost. cbn.
    rewrite (op_closed _ _ _ _ _ P), Nat.eqb_refl, (op_epoch _ _ _ _ _ P), (op_key _ _ _ _ _ P). unfold epoch_of. cbn.
    by rewrite (op_epochs _ _ _ _ _ P), !Nat.eqb_refl. }
  rewrite Hc, bool_decide_eq_false_2 by apply P. done.
Qed.

(** What the pool is after the oldest member [k0] made room for [key]. *)
Record shown (key k0 : OutputKey) (rest : list OutputKey) (r0 : nat) (p p' : OutputPool) : Prop := mkShown {
  sh_lru : p_lru p' = rest ++ [key];
  sh_active : p_active p' = Some key;
  sh_evicted : p_entries p' !! k0 = None;
  sh_new : exists a, p_entries p' !! key = Some a /\ exists r, resource_at (Some a) p' = Some r /\ r <> r0;
  sh_others : forall k, k <> key -> k <> k0 -> p_entries p' !! k = p_entries p !! k;
  sh_idle : p_handoff p' = None;
}.

Lemma remove_key_absent k l : k ∉ l -> remove_key k l = l.
Proof.
  induction l as [|x l IH]; cbn; intros H; [done|]. destruct (decide (x = k)) as [->|]; [set_solver|].
  f_equal. apply IH. set_solver.
Qed.

Lemma surrender_keeps rs p : p_lru (surrender rs p) = p_lru p /\ p_active (surrender rs p) = p_active p /\
  p_entries (surrender rs p) = p_entries p /\ p_heap (surrender rs p) = p_heap p /\ p_handoff (surrender rs p) = p_handoff p.
Proof. destruct (surrender_eq rs p) as (m & -> & _). done. Qed.

Lemma clear_keeps h p : p_handoff p = Some h -> p_lru (clearHandoffLocked h p) = p_lru p /\
  p_active (clearHandoffLocked h p) = p_active p /\ p_handoff (clearHandoffLocked h p) = None.
Proof. intros H. unfold clearHandoffLocked, is_handoff. by rewrite H, Nat.eqb_refl. Qed.

Lemma order_after key k0 rest : key <> k0 -> key ∉ rest -> k0 ∉ rest ->
  remove_key k0 (remove_key key (k0 :: rest) ++ [key]) = rest ++ [key].
Proof.
  intros Hne H1 H2. rewrite (remove_key_absent key (k0 :: rest)) by (rewrite not_elem_of_cons; auto).
  cbn. by rewrite decide_True.
Qed.
(** The order of the members has neither the new key nor the oldest one twice. *)
Lemma order_fresh p key k0 rest : shape_ok p -> p_entries p !! key = None -> p_lru p = k0 :: rest -> key ∉ rest /\ k0 ∉ rest.
Proof.
  intros S Hk Hl. split.
  - intros Hin. assert (Hin' : key ∈ p_lru p) by (rewrite Hl; by right).
    apply (ok_lru _ S) in Hin'. rewrite Hk in Hin'. by destruct Hin'.
  - pose proof (ok_nodup _ S) as Hnd. rewrite Hl in Hnd. by apply NoDup_cons in Hnd as [].
Qed.

(** The last section with a victim that has a stream. *)
Lemma install_evicts t key k0 rest a0 e revision h r r0 s :
  pool_ok s -> hand t s r -> new_stream r s -> p_lru s = k0 :: rest -> p_entries s !! key = None -> p_entries s !! k0 = Some a0 ->
  p_heap s !! a0 = Some e -> e_resource e = Some r0 -> p_handoff s = Some h -> h_key h = key ->
  exists p', activate_install Activate revision h r None (Some a0) None s =
    (p', Goto (Closing [r0] (Activated key revision (h_lease h) false (Some k0) false))) /\
    shown key k0 rest r0 s p' /\ p_dead p' = p_dead s.
Proof.
  intros O Hr Hnew Hl Hk Hk0 He Hr0 Hh <-. pose proof (ok_shape _ O) as S. assert (Hne : h_key h <> k0) by congruence.
  destruct (ok_keys _ S k0 a0 Hk0) as (e' & He' & Hek). rewrite He in He'. injection He' as <-.
  assert (Hrr : r <> r0).
  { intros ->. pose proof (ok_home _ S k0 a0 _ r0 Hk0 He Hr0) as Hw. unfold hand in Hr. congruence. }
  pose proof (next_entry_free s S) as Hfree. destruct (order_fresh s _ _ _ S Hk Hl) as [Hf1 Hf2].
  pose proof (install_joined t (h_lease h) revision (h_key h) r s S Hr (not_owned r s Hnew) Hk) as J.
  unfold activate_install. cbn [makeActive].
  change (setActiveLocked (h_key h) (locate r _ (upd _ (installed (h_lease h) revision r) _)))
    with (install (installed (h_lease h) revision r) (p_nextEntry s) r (add_member (h_key h) s)).
  set (j := install _ _ _ _) in *. rewrite closings_new.
  assert (Hj : p_heap j !! a0 = Some e) by (rewrite (jo_heap _ _ _ _ _ J); [done|]; intros ->; congruence).
  unfold resource_at. cbn [mbind option_bind]. unfold mbind, option_bind. rewrite Hj. cbn [fmap option_fmap option_map].
  rewrite Hr0, Hek. change (option_list (Some r0)) with [r0]. set (g := removeLRULocked k0 _).
  assert (Hg : p_handoff g = Some h) by exact Hh.
  destruct (clear_keeps h g Hg) as (C1 & C2 & C3). destruct (surrender_keeps [r0] (clearHandoffLocked h g)) as (G1 & G2 & G3 & G4 & G5).
  eexists. split; [reflexivity|]. split; [split|].
  - rewrite G1, C1. cbn. rewrite Hl. by apply order_after.
  - by rewrite G2, C2.
  - rewrite G3, clear_entries. apply lookup_delete_eq.
  - exists (p_nextEntry s). rewrite G3, clear_entries. cbn. rewrite lookup_delete_ne, lookup_insert_eq by done. split; [done|].
    exists r. split; [|done]. rewrite clear_heap. cbn. by rewrite lookup_alter_eq, lookup_insert_eq.
  - intros k H1 H2. rewrite G3, clear_entries. cbn. by rewrite lookup_delete_ne, lookup_insert_ne by done.
  - by rewrite G5, C3.
  - destruct (surrender_eq [r0] (clearHandoffLocked h g)) as (m & -> & _). cbn.
    unfold clearHandoffLocked. by destruct (is_handoff h g).
Qed.

Lemma install_shows t key k0 rest a0 e0 revision h r r0 p q :
  full_pool key k0 rest a0 e0 revision p -> opening t key h p q -> hand t q r -> new_stream r p -> e_resource e0 = Some r0 ->
  let h' := with_victim k0 (epoch_of p (key_host k0)) h in
  exists p', activate_install Activate revision h' r None (Some a0) None (snapshotted h' a0 q) =
    (p', Goto (Closing [r0] (Activated key revision (h_lease h) false (Some k0) false))) /\
    shown key k0 rest r0 p p' /\ p_dead p' = p_dead p.
Proof.
  intros F P Hr Hnew Hr0 h'.
  assert (Es : p_entries (snapshotted h' a0 q) = p_entries p) by apply (op_entries _ _ _ _ _ P).
  destruct (install_evicts t key k0 rest a0 (put_locked false (put_locked true (put_evicting true e0))) revision h' r r0
    (snapshotted h' a0 q)) as (p' & E & [] & D); try done.
  - apply snapshotted_ok, P.
  - by eapply snapshotted_new.
  - rewrite <- (fp_lru _ _ _ _ _ _ _ F). apply (op_lru _ _ _ _ _ P).
  - rewrite Es. apply F.
  - rewrite Es. apply F.
  - apply snapshotted_heap. by rewrite (op_heap _ _ _ _ _ P), (fp_entry _ _ _ _ _ _ _ F).
  - apply (op_key _ _ _ _ _ P).
  - exists p'. split; [done|]. split; [|rewrite D; apply (op_dead _ _ _ _ _ P)].
    split; try done. intros k H1 H2. rewrite <- Es. auto.
Qed.

Lemma run_finish w t pt ans p o : thread_at t pt w -> section t pt ans (w_pool w) = Some (p, Finish o) ->
  exists w', step (Run t ans) w = Some w' /\ benign p (w_pool w') /\ w_results w' !! t = Some o /\ w_panic w' = false.
Proof.
  intros [Hp (th & Hth & <- & Htodo)] Hs. eexists. split; [by eapply run_step|]. unfold settle. rewrite Htodo. cbn.
  split; [destruct (t_worker th); auto with pool|]. by rewrite lookup_insert_eq.
Qed.

(** Showing a new terminal in a full pool, when everything outside succeeds: the
    member shown longest ago is snapshotted, leaves the pool and its stream is
    closed; the new one is shown, connected and last in the order; all other
    members and their order stay. *)
Theorem activate_evicts_oldest (key k0 : OutputKey) (rest : list OutputKey) (a0 r0 : nat) (e0 : outputPoolEntry)
  (revision : nat) (w : world) :
  w_panic w = false -> full_pool key k0 rest a0 e0 revision (w_pool w) ->
  e_resource e0 = Some r0 -> e_locked e0 = false -> new_stream (p_nextResource (w_pool w)) (w_pool w) ->
  let t := w_next w in
  exists w' lease, steps [Call (AStart Activate key revision); Run t Proceed; Run t (Opened false true true true);
      Run t Proceed; Run t (Snapshotted true); Run t (Committed false true true);
      Run t (CloseReturned true); Run t Proceed] w = Some w' /\
    w_results w' !! t = Some (Activated key revision lease false (Some k0) false) /\
    p_lru (w_pool w') = rest ++ [key] /\ p_active (w_pool w') = Some key /\
    p_entries (w_pool w') !! k0 = None /\ p_dead (w_pool w') = {[r0]} ∪ p_dead (w_pool w) /\
    (forall k, k <> key -> k <> k0 -> p_entries (w_pool w') !! k = p_entries (w_pool w) !! k).
Proof.
  intros Hp F Hr Hl Hnew t.
  destruct (activate_reaches_victim key k0 rest a0 e0 revision w Hp F) as (w1 & q & h & r & E1 & P & Hh & Hrn & P1 & T1 & R1).
  rewrite <- Hrn in Hnew.
  fold t in E1, P, Hh, T1. set (h' := with_victim k0 (epoch_of (w_pool w) (key_host k0)) h) in *.
  destruct (run_goto w1 t _ Proceed (upd a0 (put_locked true) (w_pool w1)) (ASnapshot Activate revision h' r a0) T1) as (w2 & E2 & P2 & T2 & R2).
  { cbn [section]. unfold free. rewrite P1. cbn. rewrite lookup_alter_eq, (op_heap _ _ _ _ _ P), (fp_entry _ _ _ _ _ _ _ F). cbn.
    rewrite Hl. cbn. by rewrite Hr. }
  destruct (run_goto w2 t _ (Snapshotted true) (upd a0 (put_locked false) (w_pool w2)) (ACommit Activate revision h' r None (Some a0) None None) T2)
    as (w3 & E3 & P3 & T3 & R3); [done|].
  assert (P3' : w_pool w3 = snapshotted h' a0 q) by (by rewrite P3, P2, P1).
  destruct (install_shows t key k0 rest a0 e0 revision h r r0 (w_pool w) q F P Hh Hnew Hr) as (p' & Ei & Sh & D).
  assert (Sec : section t (ACommit Activate revision h' r None (Some a0) None None) (Committed false true true) (w_pool w3) = Some (p', Goto (Closing [r0] (Activated key revision (h_lease h) false (Some k0) false)))).
  { cbn [section]. by rewrite P3', <- Ei, <- (commit_installs t key k0 rest a0 e0 revision h r (w_pool w) q F P Hnew). }
  destruct (run_goto w3 t _ _ _ _ T3 Sec) as (w4 & E4 & P4 & T4 & R4).
  destruct (run_goto w4 t _ (CloseReturned true) (die r0 (w_pool w4)) (Closing [] (Activated key revision (h_lease h) false (Some k0) false)) T4)
    as (w5 & E5 & P5 & T5 & R5); [done|].
  destruct (run_finish w5 t _ Proceed (w_pool w5) (Activated key revision (h_lease h) false (Some k0) false) T5) as (w6 & E6 & B6 & R6 & _); [done|].
  exists w6, (h_lease h). split.
  { change (steps ([Call (AStart Activate key revision); Run t Proceed; Run t (Opened false true true true)] ++
      [Run t Proceed; Run t (Snapshotted true); Run t (Committed false true true); Run t (CloseReturned true); Run t Proceed]) w = Some w6).
    rewrite steps_app, E1. cbn. rewrite E2. cbn. rewrite E3. cbn. rewrite E4. cbn. rewrite E5. cbn. by rewrite E6. }
  split; [done|]. rewrite (be_lru _ _ B6), (be_active _ _ B6), (be_entries _ _ B6), (be_dead _ _ B6), P5, P4. cbn. rewrite D.
  destruct Sh. by split_and!.
Qed.

End Opener.

(** ** Examples and witnesses *)

Module PoolWitness.

(** An opener that returns a new stream every time. *)
#[local] Instance new_streams : OutputOpener := fun n => n.

Definition key (s : string) : OutputKey := mkOutputKey "laptop" "lion" s.
Definition pool (capacity : Z) : OutputPool := match NewOutputPool capacity with Ok p => p | Err _ => mkPool 0 ∅ [] None 0 0 ∅ ∅ None false 0 false ∅ 0 0 ∅ 0 ∅ ∅ end.

Definition default_world : world := start (pool 0).
Definition after (capacity : Z) (l : list action) : world := default default_world (steps l (start (pool capacity))).

(** [Activate] as thread [t] on a pool that needs no eviction. *)
Definition shows (t : nat) (k : OutputKey) : list action :=
  [Call (AStart Activate k 1); Run t Proceed; Run t (Opened false true true true); Run t (Committed false true true); Run t Proceed].

(** ... and on a full pool. *)
Definition evicts (t : nat) (k : OutputKey) : list action :=
  [Call (AStart Activate k 1); Run t Proceed; Run t (Opened false true true true); Run t Proceed;
   Run t (Snapshotted true); Run t (Committed false true true); Run t (CloseReturned true); Run t Proceed].

Definition two_shown : list action := shows 0 (key "a") ++ shows 1 (key "b").

Example evicted : let w := after 2 (two_shown ++ evicts 2 (key "c")) in
  (p_lru (w_pool w), p_active (w_pool w), elements (p_dead (w_pool w)), w_results w !! 2, w_panic w) =
  ([key "b"; key "c"], Some (key "c"), [0], Some (Activated (key "c") 1 3 false (Some (key "a")) false), false).
Proof. vm_compute. reflexivity. Qed.

Lemma reached_after capacity l : NewOutputPool capacity = Ok (pool capacity) -> is_Some (steps l (start (pool capacity))) ->
  reached capacity (after capacity l).
Proof. intros H [w Hw]. exists (pool capacity), l. split; [done|]. unfold after. by rewrite Hw. Qed.

Definition shown_c : world := after 2 (two_shown ++ evicts 2 (key "c")).

Lemma shown_c_reached : reached 2 shown_c.
Proof. apply reached_after; [vm_compute; reflexivity|vm_compute; eexists; reflexivity]. Qed.

Lemma pool_within_limits_witness :
  p_lru (w_pool shown_c) = [key "b"; key "c"] /\ (size (p_entries (w_pool shown_c)) <= p_capacity (w_pool shown_c))%nat.
Proof.
  split; [vm_compute; reflexivity|]. exact (proj1 (pool_within_limits 2 shown_c shown_c_reached)).
Defined.

Definition entry_c : outputPoolEntry := default (new_entry (key "c")) (p_heap (w_pool shown_c) !! 2).

Lemma members_hold_open_streams_witness :
  e_resource entry_c = Some 2 /\
  (forall k' a' e' r', entry_of (w_pool shown_c) k' = Some (a', e') -> e_resource e' = Some r' ->
     stream_of r' = stream_of 2 -> k' = key "c") /\
  (forall x, x ∈ p_dead (w_pool shown_c) -> stream_of x <> stream_of 2).
Proof.
  split; [vm_compute; reflexivity|].
  destruct (members_hold_open_streams 2 shown_c (key "c") 2 entry_c 2 shown_c_reached) as [H1 H2]; [vm_compute; reflexivity..|].
  split; [exact H1|]. apply H2. intros n m H. exact H.
Defined.

(** An opener that returns the stream of "b" again for the third terminal. *)
Definition repeats : OutputOpener := fun n => Nat.min n 1.
Definition repeated (l : list action) : world := default default_world (@steps repeats (two_shown ++ l) (start (pool 3))).

(** It is refused, and left open. *)
Example owned_refused :
  let w := repeated [Call (AStart Activate (key "c") 1); Run 2 Proceed; Run 2 (Opened false true true true); Run 2 (Committed false true true)] in
  (w_results w !! 2, p_lru (w_pool w), elements (p_dead (w_pool w))) =
  (Some (Failed ErrOutputResourceOwned), [key "a"; key "b"], []).
Proof. vm_compute. reflexivity. Qed.

(** But the checks before the one of the owner close it: "b" holds a closed stream. *)
Example owned_closed :
  let w := repeated [Call (AStart Activate (key "c") 1); Run 2 Proceed; Run 2 (Opened false false true true); Run 2 (CloseReturned true)] in
  (p_lru (w_pool w), map repeats (elements (p_dead (w_pool w))),
   repeats <$> (p_entries (w_pool w) !! key "b" ≫= fun a => resource_at (Some a) (w_pool w))) = ([key "a"; key "b"], [1], Some 1).
Proof. vm_compute. reflexivity. Qed.

(** The stream of the oldest member ended, so it is disconnected. *)
Definition ended : world := after 2 (two_shown ++ [Call (DStart (key "a") 1); Run 2 Proceed; Run 2 Proceed]).
Definition entry_a : outputPoolEntry := default (new_entry (key "a")) (p_heap (w_pool ended) !! 0).

Lemma evict_disconnected_panics_witness :
  e_resource entry_a = None /\
  exists w', steps [Call (AStart Activate (key "c") 1); Run (w_next ended) Proceed;
                    Run (w_next ended) (Opened false true true true); Run (w_next ended) Proceed] ended = Some w' /\
    w_panic w' = true.
Proof.
  split; [vm_compute; reflexivity|].
  apply (evict_disconnected_panics (key "c") (key "a") [key "b"] 0 entry_a 1 ended);
    [vm_compute; reflexivity| |vm_compute; reflexivity|vm_compute; reflexivity].
  split; try (vm_compute; reflexivity).
  - apply (bool_decide_unpack _). vm_compute. exact I.
  - apply (bool_decide_unpack _). vm_compute. exact I.
  - apply Nat.ltb_lt. vm_compute. reflexivity.
  - apply (reached_ok 2). apply reached_after; [vm_compute; reflexivity|vm_compute; eexists; reflexivity].
Defined.

Definition two : world := after 2 two_shown.
Definition connected_a : outputPoolEntry := default (new_entry (key "a")) (p_heap (w_pool two) !! 0).

Lemma activate_evicts_oldest_witness :
  e_resource connected_a = Some 0 /\
  exists w' lease, steps (evicts 2 (key "c")) two = Some w' /\
    w_results w' !! 2 = Some (Activated (key "c") 1 lease false (Some (key "a")) false) /\
    p_lru (w_pool w') = [key "b"] ++ [key "c"] /\ p_active (w_pool w') = Some (key "c") /\
    p_entries (w_pool w') !! key "a" = None /\ p_dead (w_pool w') = {[0]} ∪ p_dead (w_pool two) /\
    (forall k, k <> key "c" -> k <> key "a" -> p_entries (w_pool w') !! k = p_entries (w_pool two) !! k).
Proof.
  split; [vm_compute; reflexivity|].
  assert (O : pool_ok (w_pool two)).
  { apply (reached_ok 2). apply reached_after; [vm_compute; reflexivity|vm_compute; eexists; reflexivity]. }
  refine (activate_evicts_oldest (key "c") (key "a") [key "b"] 0 0 connected_a 1 two _ _ _ _ _);
    [vm_compute; reflexivity| |vm_compute; reflexivity|vm_compute; reflexivity|by apply injective_new].
  split; try (vm_compute; reflexivity).
  - apply (bool_decide_unpack _). vm_compute. exact I.
  - apply (bool_decide_unpack _). vm_compute. exact I.
  - apply Nat.ltb_lt. vm_compute. reflexivity.
  - exact O.
Defined.

(** [RemoveDesired] takes the stream while [DisconnectHost] waits for the mutex of
    the entry: [DisconnectHost] then closes a nil stream. *)
Example remove_during_disconnect :
  w_panic (after 2 (two_shown ++
    [Call (HStart ("laptop", "lion")); Run 2 Proceed; Call (MStart (key "a")); Run 3 Proceed; Run 3 Proceed; Run 2 Proceed])) = true.
Proof. vm_compute. reflexivity. Qed.

(** [DisconnectHost] forgets that a member is being evicted: an update is applied to
    it after its snapshot was taken, and its stream is closed under the update. *)
Definition late_update : world := after 1
  ([Call (HStart ("laptop", "lion")); Run 0 Proceed] ++ shows 1 (key "a") ++
   [Call (AStart Activate (key "b") 1); Run 2 Proceed; Run 2 (Opened false true true true); Run 2 Proceed; Run 2 (Snapshotted true);
    Run 0 Proceed; Call (WStart (key "a") 1); Run 3 Proceed; Run 3 Proceed;
    Run 2 (Committed false true true); Run 2 (CloseReturned true)]).

Example update_after_snapshot :
  (t_point <$> w_threads late_update !! 3, elements (p_dead (w_pool late_update))) = (Some (WApply 0 0), [0]).
Proof. vm_compute. reflexivity. Qed.

End PoolWitness.
