(* ===== verification/RetainedOutput.v ===== *)
(** * Terminal output kept on disk: [supervisor/retained_output.go]

    While a session runs, the supervisor appends its output to a file; a file over
    one MiB is compacted to its last MiB.  When the session ends, the supervisor
    writes a sidecar that says which part of the stream the file holds, and the
    daemon serves the file only if the sidecar matches.  A directory keeps the
    files of the last 32 runtimes.

    [shelf] is the file and the sidecar of one runtime; the sidecar is its decoded
    record, [None] when it is absent or is not one.  Each call takes what the
    operating system answers as an argument, so every system call may fail. *)

From S2P Require Import Prelude GoStrings GoMarshal GoStrconv Session.
From Stdlib Require Import Sorting.Sorted.
Local Open Scope go_scope.
Local Open Scope Z_scope.

Definition RetainedOutputCapacity : Z := 2 ^ 20.
Definition RetainedOutputGenerationLimit : nat := 32.

Inductive retained_error := InvalidIdentity | SystemError | ShortWrite | OverCapacity | MetadataInvalid | SizeChanged.

#[global] Instance retained_error_eq : EqDecision retained_error.
Proof. solve_decision. Defined.

Record retainedOutputMetadata := mkMetadata {
  rm_Version : Z;
  rm_SessionID : string;
  rm_Generation : Z;
  rm_StartOffset : Z;
  rm_EndOffset : Z;
  rm_UpdatedAtMS : Z;
}.

Record RetainedOutputSnapshot := mkSnapshot {
  sn_SessionID : string;
  sn_Generation : Z;
  sn_StartOffset : Z;
  sn_EndOffset : Z;
  sn_UpdatedAt : Z;
  sn_Data : string;
}.

Record shelf := mkShelf { sh_log : option string; sh_side : option retainedOutputMetadata }.

(** [o.file]: nil, open, or closed after a failed close. *)
Inductive handle := HNil | HOpen | HDead.

Record RetainedOutput := mkOutput { ro_file : handle; ro_metadata : retainedOutputMetadata; ro_capacity : Z }.

(** ** Names *)

Definition retained_name (generation : Z) : string := "output." +:+ FormatUint generation +:+ ".log".

Definition ParseRetainedOutputGeneration (name : string) : option Z :=
  if negb (HasPrefix name "output.") || negb (HasSuffix name ".log") then None
  else match ParseUint (TrimSuffix (TrimPrefix name "output.") ".log") with
       | Some generation => if generation =? 0 then None else Some generation
       | None => None
       end.

(** ** Writing *)

Definition set_offsets (start stop now : Z) (m : retainedOutputMetadata) : retainedOutputMetadata :=
  mkMetadata (rm_Version m) (rm_SessionID m) (rm_Generation m) start stop now.

Definition with_file (f : handle) (o : RetainedOutput) : RetainedOutput := mkOutput f (ro_metadata o) (ro_capacity o).

(** What the operating system answers to [compact]: the first call that fails, or
    the outcome of the rename and of opening the file again. *)
Inductive compact_answer := StatFails | PrepareFails | OldCloseFails | RenameFails (reopened : bool) | Renamed (reopened : bool).

Definition reopened_file (ok : bool) : handle := if ok then HOpen else HNil.

Definition compact (ans : compact_answer) (sh : shelf) (o : RetainedOutput) : shelf * RetainedOutput * option retained_error :=
  let content := default "" (sh_log sh) in
  let keep := ro_capacity o in
  match ans with
  | StatFails => (sh, o, Some SystemError)
  | _ =>
      if zlen content <=? keep then (sh, o, None)
      else match ans with
           | StatFails | PrepareFails => (sh, o, Some SystemError)
           | OldCloseFails => (sh, with_file HDead o, Some SystemError)
           | RenameFails reopened => (sh, with_file (reopened_file reopened) o, Some SystemError)
           | Renamed reopened =>
               let m := ro_metadata o in
               (mkShelf (Some (str_drop (Z.to_nat (zlen content - keep)) content)) (sh_side sh),
                mkOutput (reopened_file reopened)
                  (set_offsets (u64 (rm_EndOffset m - keep)) (rm_EndOffset m) (rm_UpdatedAtMS m) m) keep,
                if reopened then None else Some SystemError)
           end
  end.

(** [n] bytes were written and [failed] says whether the write returned an error. *)
Definition Write (data : string) (now : Z) (n : nat) (failed stat_ok : bool) (ans : compact_answer)
  (sh : shelf) (o : RetainedOutput) : shelf * RetainedOutput * option retained_error :=
  if data ==s "" then (sh, o, None)
  else match ro_file o with
       | HNil => (sh, o, None)
       | HDead => let m := ro_metadata o in
                  (sh, mkOutput HDead (set_offsets (rm_StartOffset m) (rm_EndOffset m) now m) (ro_capacity o), Some SystemError)
       | HOpen =>
           let written := str_take n data in
           let m := ro_metadata o in
           let sh := mkShelf (Some (default "" (sh_log sh) +:+ written)) (sh_side sh) in
           let o := mkOutput HOpen (set_offsets (rm_StartOffset m) (u64 (rm_EndOffset m + zlen written)) now m) (ro_capacity o) in
           if failed then (sh, o, Some SystemError)
           else if negb (slen written =? slen data)%nat then (sh, o, Some ShortWrite)
           else if negb stat_ok then (sh, o, Some SystemError)
           else if ro_capacity o <? zlen (default "" (sh_log sh)) then compact ans sh o
           else (sh, o, None)
       end.

(** [writeRetainedMetadata]: the sidecar is replaced by a rename or not at all. *)
Definition writeRetainedMetadata (ok : bool) (m : retainedOutputMetadata) (sh : shelf) : shelf * option retained_error :=
  if ok then (mkShelf (sh_log sh) (Some m), None) else (sh, Some SystemError).

Definition CloseOutput (now : Z) (sync_ok meta_ok close_ok : bool) (sh : shelf) (o : RetainedOutput)
  : shelf * RetainedOutput * option retained_error :=
  match ro_file o with
  | HNil => (sh, o, None)
  | f =>
      let m := ro_metadata o in
      let m := set_offsets (rm_StartOffset m) (rm_EndOffset m) now m in
      let synced := match f with HOpen => sync_ok | _ => false end in
      let '(sh, meta_err) := if synced then writeRetainedMetadata meta_ok m sh else (sh, None) in
      let closed := match f with HOpen => close_ok | _ => false end in
      (sh, mkOutput HNil m (ro_capacity o),
       if synced && closed && bool_decide (meta_err = None) then None else Some SystemError)
  end.

(** ** Opening *)

(** [readable]: the sidecar can be opened. *)
Definition readRetainedMetadata (readable : bool) (sh : shelf) : option retainedOutputMetadata :=
  match sh_side sh with
  | Some m => if readable && (rm_Version m =? 1) && (0 <? rm_UpdatedAtMS m) then Some m else None
  | None => None
  end.

(** The sidecar describes a file of [size] bytes of this runtime. *)
Definition metadata_matches (sessionID : string) (generation size : Z) (m : retainedOutputMetadata) : bool :=
  (rm_SessionID m ==s sessionID) && (rm_Generation m =? generation) &&
  negb (rm_EndOffset m <? rm_StartOffset m) && (u64 (rm_EndOffset m - rm_StartOffset m) =? size).

Inductive open_answer := OpenFails (created : bool) | OpenStatFails | OpenOk (readable prune_ok : bool) (ans : compact_answer).

Section Identity.
Context `{UC : UnicodeCase}.

Definition OpenRetainedOutput (sessionID : string) (generation now : Z) (ans : open_answer) (sh : shelf)
  : shelf * result retained_error RetainedOutput :=
  if negb (is_Ok (ParseSessionID sessionID)) || (generation =? 0) then (sh, Err InvalidIdentity)
  else
    let created := mkShelf (Some (default "" (sh_log sh))) (sh_side sh) in
    match ans with
    | OpenFails c => (if c then created else sh, Err SystemError)
    | OpenStatFails => (created, Err SystemError)
    | OpenOk readable prune_ok cans =>
        let size := zlen (default "" (sh_log sh)) in
        let fresh := mkMetadata 1 sessionID generation 0 size now in
        let m := match readRetainedMetadata readable sh with
                 | Some saved => if metadata_matches sessionID generation size saved then saved else fresh
                 | None => fresh
                 end in
        let o := mkOutput HOpen m RetainedOutputCapacity in
        if negb prune_ok then (created, Err SystemError)
        else if RetainedOutputCapacity <? size then
          match compact cans created o with
          | (sh', o', None) => (sh', Ok o')
          | (sh', _, Some e) => (sh', Err e)
          end
        else (created, Ok o)
    end.

End Identity.

(** ** Pruning *)

(** Insertion sort for [slices.Sort]. *)
Fixpoint insert_generation (g : Z) (l : list Z) : list Z :=
  match l with
  | [] => [g]
  | x :: l' => if g <=? x then g :: l else x :: insert_generation g l'
  end.

Definition sort_generations (l : list Z) : list Z := fold_right insert_generation [] l.

(** The loop: the generations to remove, oldest first, with the current one passed
    over. *)
Fixpoint choose_removed (current : Z) (remove : nat) (generations : list Z) : list Z :=
  match remove, generations with
  | O, _ | _, [] => []
  | S k, g :: gs => if g =? current then choose_removed current remove gs else g :: choose_removed current k gs
  end.

(** The generations of the files that are removed, given the names of the regular
    files of the directory. *)
Definition pruneRetainedOutputGenerations (names : list string) (current : Z) : list Z :=
  let generations := omap ParseRetainedOutputGeneration names in
  if (length generations <=? RetainedOutputGenerationLimit)%nat then []
  else choose_removed current (length generations - RetainedOutputGenerationLimit) (sort_generations generations).

(** ** Reading *)

(** The file is examined in [sh1] and the sidecar read in [sh2], later. *)
Definition RetainedOutputInfo (sessionID : string) (generation : Z) (readable : bool) (sh1 sh2 : shelf)
  : result retained_error RetainedOutputSnapshot :=
  match sh_log sh1 with
  | None => Err SystemError
  | Some content =>
      if RetainedOutputCapacity <? zlen content then Err OverCapacity
      else match readRetainedMetadata readable sh2 with
           | Some m => if metadata_matches sessionID generation (zlen content) m
                       then Ok (mkSnapshot sessionID generation (rm_StartOffset m) (rm_EndOffset m) (rm_UpdatedAtMS m) "")
                       else Err MetadataInvalid
           | None => Err MetadataInvalid
           end
  end.

(** [io.ReadAll] of an [io.LimitReader]. *)
Definition limited (n : Z) (s : string) : string := if zlen s <=? n then s else str_take (Z.to_nat n) s.

(** The data is read in [sh3], later still; [size] is what its Stat said. *)
Definition ReadRetainedOutput (sessionID : string) (generation : Z) (readable : bool) (sh1 sh2 sh3 : shelf) (size : Z)
  : result retained_error RetainedOutputSnapshot :=
  match RetainedOutputInfo sessionID generation readable sh1 sh2 with
  | Err e => Err e
  | Ok sn =>
      match sh_log sh3 with
      | None => Err SystemError
      | Some content =>
          if RetainedOutputCapacity <? size then Err OverCapacity
          else
            let data := limited (RetainedOutputCapacity + 1) content in
            if negb (zlen data =? size) then Err SizeChanged
            else Ok (mkSnapshot (sn_SessionID sn) (sn_Generation sn) (sn_StartOffset sn) (sn_EndOffset sn) (sn_UpdatedAt sn) data)
      end
  end.

(** ** A runtime and its file *)

Inductive out_op :=
| OpWrite (data : string) (now : Z) (n : nat) (failed stat_ok : bool) (ans : compact_answer)
| OpClose (now : Z) (sync_ok meta_ok close_ok : bool).

(** The disk, the open output, and all bytes the file has taken so far, which need not
    be all the runtime wrote: [capture] below has those. *)
Record keeping := mkKeeping { k_shelf : shelf; k_output : RetainedOutput; k_stream : string }.

Definition accepted (op : out_op) (o : RetainedOutput) : string :=
  match op, ro_file o with
  | OpWrite data _ n _ _ _, HOpen => str_take n data
  | _, _ => ""
  end.

Definition out_step (op : out_op) (k : keeping) : keeping :=
  let '(sh, o, _) := match op with
                     | OpWrite data now n failed stat_ok ans => Write data now n failed stat_ok ans (k_shelf k) (k_output k)
                     | OpClose now sync_ok meta_ok close_ok => CloseOutput now sync_ok meta_ok close_ok (k_shelf k) (k_output k)
                     end in
  mkKeeping sh o (k_stream k +:+ accepted op (k_output k)).

Definition out_run (ops : list out_op) (k : keeping) : keeping := fold_left (fun k op => out_step op k) ops k.

(** ** The supervisor and its runtime: [capture] and [Wait] of [session.go]

    [cp_output] is the field [retainedOutput], which [capture] sets to nil when a write
    fails.  [cp_wrote] records every byte the runtime wrote and [cp_failed] whether a
    write to the file has failed. *)
Record capture := mkCapture {
  cp_shelf : shelf;
  cp_output : option RetainedOutput;
  cp_done : bool;
  cp_wrote : string;
  cp_failed : bool;
}.

(** The answers of the operating system to [Close]. *)
Record close_answer := mkCloseAnswer { ca_now : Z; ca_sync : bool; ca_meta : bool; ca_close : bool }.

(** [capture] has read [data] from the terminal; or the process has ended and [Wait],
    which waits for [capture], goes on. *)
Inductive capture_op :=
| CRead (data : string) (now : Z) (n : nat) (failed stat_ok : bool) (ans : compact_answer) (cl : close_answer)
| CWait (cl : close_answer).

Definition close_file (cl : close_answer) (sh : shelf) (o : RetainedOutput) : shelf * RetainedOutput :=
  fst (CloseOutput (ca_now cl) (ca_sync cl) (ca_meta cl) (ca_close cl) sh o).

Definition capture_step (op : capture_op) (c : capture) : capture :=
  if cp_done c then c else
  match op, cp_output c with
  | CRead data _ _ _ _ _ _, None => mkCapture (cp_shelf c) None false (cp_wrote c +:+ data) (cp_failed c)
  | CRead data now n failed stat_ok ans cl, Some o =>
      match Write data now n failed stat_ok ans (cp_shelf c) o with
      | (sh, o', None) => mkCapture sh (Some o') false (cp_wrote c +:+ data) (cp_failed c)
      | (sh, o', Some _) => mkCapture (fst (close_file cl sh o')) None false (cp_wrote c +:+ data) true
      end
  | CWait _, None => mkCapture (cp_shelf c) None true (cp_wrote c) (cp_failed c)
  | CWait cl, Some o =>
      let '(sh, o') := close_file cl (cp_shelf c) o in mkCapture sh (Some o') true (cp_wrote c) (cp_failed c)
  end.

Definition capture_run (ops : list capture_op) (c : capture) : capture := fold_left (fun c op => capture_step op c) ops c.

Lemma zlen_drop (n : nat) (s : string) : zlen (str_drop n s) = Z.max 0 (zlen s - Z.of_nat n).
Proof.
  unfold zlen. revert s; induction n as [|n IH]; intros s; cbn [str_drop]; [lia|].
  destruct s; [cbn; lia|]. rewrite IH. cbn [slen]. lia.
Qed.

Lemma str_drop_drop (n m : nat) (s : string) : str_drop n (str_drop m s) = str_drop (m + n) s.
Proof.
  revert s; induction m as [|m IH]; intros s; [done|]. cbn [str_drop Nat.add]. destruct s; [by destruct n|apply IH].
Qed.

(** ** The file is a window of the stream *)

Record windowed (sh : shelf) (o : RetainedOutput) (stream : string) : Prop := mkWindowed {
  wi_end : rm_EndOffset (ro_metadata o) = zlen stream;
  wi_start : 0 <= rm_StartOffset (ro_metadata o) <= zlen stream;
  wi_log : sh_log sh = Some (str_drop (Z.to_nat (rm_StartOffset (ro_metadata o))) stream);
  wi_capacity : ro_capacity o = RetainedOutputCapacity;
}.

Lemma compact_windowed ans sh o stream : zlen stream < 2 ^ 64 -> windowed sh o stream ->
  windowed (compact ans sh o).1.1 (compact ans sh o).1.2 stream /\ sh_side (compact ans sh o).1.1 = sh_side sh.
Proof.
  intros Hs [He Hst Hl Hc]. unfold compact. rewrite Hl, Hc. cbn [default from_option].
  pose proof (zlen_nonneg stream) as Hp. assert (H0 : 0 < RetainedOutputCapacity) by (unfold RetainedOutputCapacity; lia).
  destruct ans; cbn [fst snd]; try done; destruct (Z.leb_spec (zlen (id (str_drop (Z.to_nat (rm_StartOffset (ro_metadata o))) stream))) RetainedOutputCapacity) as [|Hgt];
    cbn [fst snd sh_side]; try done.
  unfold id in *. split; [|done]. rewrite zlen_drop in *. rewrite Z2Nat.id in * by lia.
  split; cbn [ro_metadata rm_EndOffset rm_StartOffset set_offsets sh_log ro_capacity]; try done.
  - rewrite He, u64_small by lia. lia.
  - f_equal. rewrite He, u64_small by lia. rewrite str_drop_drop. f_equal. lia.
Qed.

Lemma append_windowed sh o stream data now : zlen (stream +:+ data) < 2 ^ 64 -> windowed sh o stream ->
  let m := ro_metadata o in
  windowed (mkShelf (Some (default "" (sh_log sh) +:+ data)) (sh_side sh))
    (mkOutput HOpen (set_offsets (rm_StartOffset m) (u64 (rm_EndOffset m + zlen data)) now m) (ro_capacity o)) (stream +:+ data).
Proof.
  intros Hs [He Hst Hl Hc] m. rewrite zlen_app in Hs. pose proof (zlen_nonneg stream). pose proof (zlen_nonneg data).
  split; cbn [ro_metadata rm_EndOffset rm_StartOffset set_offsets sh_log ro_capacity]; subst m; try done.
  - rewrite He, u64_small, zlen_app by lia. done.
  - rewrite zlen_app. lia.
  - rewrite Hl. cbn. f_equal. rewrite str_drop_app_le; [done|]. unfold zlen in *. lia.
Qed.

(** A write keeps the window and leaves the sidecar. *)
Lemma write_windowed data now n failed stat_ok ans sh o stream :
  zlen (stream +:+ accepted (OpWrite data now n failed stat_ok ans) o) < 2 ^ 64 -> windowed sh o stream ->
  let w := Write data now n failed stat_ok ans sh o in
  windowed w.1.1 w.1.2 (stream +:+ accepted (OpWrite data now n failed stat_ok ans) o) /\
  sh_side w.1.1 = sh_side sh /\ (ro_file o = HNil -> w.1.1 = sh /\ w.1.2 = o).
Proof.
  intros Hs W. unfold Write, accepted in *. destruct (String.eqb_spec data "") as [->|Hd].
  { assert (Ha : (match ro_file o with HOpen => str_take n "" | _ => "" end) = "") by (destruct (ro_file o), n; done).
    rewrite Ha, str_app_nil_r in *. by split_and!. }
  destruct (ro_file o); [rewrite str_app_nil_r in *; by split_and!| |].
  - pose proof (append_windowed sh o stream (str_take n data) now Hs W) as W'. cbn zeta in W'.
    split; [|split; [|done]].
    + destruct failed; [done|]. destruct (negb _); [done|]. destruct (negb _); [done|]. destruct (_ <? _); [|done].
      by apply compact_windowed.
    + destruct failed; [done|]. destruct (negb _); [done|]. destruct (negb _); [done|]. destruct (_ <? _); [|done].
      by rewrite (proj2 (compact_windowed ans _ _ _ Hs W')).
  - rewrite str_app_nil_r in *. split_and!; try done. by destruct W.
Qed.

Lemma close_windowed now sync_ok meta_ok close_ok sh o stream : windowed sh o stream ->
  let c := CloseOutput now sync_ok meta_ok close_ok sh o in
  windowed c.1.1 c.1.2 stream /\
  (sh_side c.1.1 = sh_side sh \/ sh_side c.1.1 = Some (ro_metadata c.1.2)) /\ ro_file c.1.2 = HNil /\
  (ro_file o = HNil -> c.1.1 = sh /\ c.1.2 = o).
Proof.
  intros [He Hst Hl Hc]. unfold CloseOutput, writeRetainedMetadata.
  destruct (ro_file o) eqn:Ef; [split_and!; auto; by split| |]; cbn; [|split_and!; auto; done].
  destruct sync_ok; [destruct meta_ok|]; cbn; split_and!; auto; done.
Qed.

(** A sidecar means that the output is closed and that it describes the file. *)
Definition kept_ok (k : keeping) : Prop :=
  windowed (k_shelf k) (k_output k) (k_stream k) /\
  forall m, sh_side (k_shelf k) = Some m -> ro_file (k_output k) = HNil /\
    rm_StartOffset m = rm_StartOffset (ro_metadata (k_output k)) /\ rm_EndOffset m = rm_EndOffset (ro_metadata (k_output k)).

Lemma out_step_eq op k : exists sh o,
  out_step op k = mkKeeping sh o (k_stream k +:+ accepted op (k_output k)) /\
  (sh, o) = match op with
            | OpWrite data now n failed stat_ok ans => (Write data now n failed stat_ok ans (k_shelf k) (k_output k)).1
            | OpClose now sync_ok meta_ok close_ok => (CloseOutput now sync_ok meta_ok close_ok (k_shelf k) (k_output k)).1
            end.
Proof. unfold out_step. destruct op; (destruct (Write _ _ _ _ _ _ _ _) as [[sh o] e] || destruct (CloseOutput _ _ _ _ _ _) as [[sh o] e]); eauto. Qed.

Lemma out_step_ok op k : zlen (k_stream (out_step op k)) < 2 ^ 64 -> kept_ok k ->
  kept_ok (out_step op k) /\ (ro_file (k_output k) = HNil -> out_step op k = k).
Proof.
  destruct (out_step_eq op k) as (sh & o & -> & E). intros Hs [W Hside]. cbn in Hs. destruct op as [data now n failed stat_ok ans|now sync_ok meta_ok close_ok].
  - destruct (write_windowed data now n failed stat_ok ans (k_shelf k) (k_output k) (k_stream k) Hs W) as (W' & S' & N').
    rewrite <- E in W', S', N'. cbn in W', S', N'. split; [split; [done|]|].
    + cbn. rewrite S'. intros m Hm. destruct (Hside m Hm) as (Hn & ? & ?). by destruct (N' Hn) as [-> ->].
    + intros Hn. destruct (N' Hn) as [-> ->]. unfold accepted. rewrite Hn, str_app_nil_r. by destruct k.
  - destruct (close_windowed now sync_ok meta_ok close_ok (k_shelf k) (k_output k) (k_stream k) W) as (W' & S' & F' & N').
    rewrite <- E in W', S', F', N'. cbn in W', S', F', N'. cbn [accepted]. rewrite str_app_nil_r. split; [split; [done|]|].
    + cbn. intros m Hm. split; [done|]. destruct S' as [S'|S']; [|rewrite S' in Hm; by injection Hm as <-].
      rewrite S' in Hm. destruct (Hside m Hm) as (Hn & ? & ?). by destruct (N' Hn) as [_ ->].
    + intros Hn. destruct (N' Hn) as [-> ->]. by destruct k.
Qed.

Lemma stream_grows ops k : zlen (k_stream k) <= zlen (k_stream (out_run ops k)).
Proof.
  revert k; induction ops as [|op ops IH]; intros k; [done|]. cbn. etransitivity; [|apply IH].
  destruct (out_step_eq op k) as (sh & o & -> & _). cbn. rewrite zlen_app. pose proof (zlen_nonneg (accepted op (k_output k))). lia.
Qed.

Lemma out_run_ok ops k : zlen (k_stream (out_run ops k)) < 2 ^ 64 -> kept_ok k ->
  kept_ok (out_run ops k) /\ (ro_file (k_output k) = HNil -> out_run ops k = k).
Proof.
  revert k; induction ops as [|op ops IH]; intros k Hs O; [done|].
  change (out_run (op :: ops) k) with (out_run ops (out_step op k)) in *.
  pose proof (stream_grows ops (out_step op k)) as Hg. destruct (out_step_ok op k ltac:(lia) O) as [O' N'].
  destruct (IH (out_step op k) Hs O') as [O'' N'']. split; [done|]. intros Hn. rewrite (N' Hn) in *. by apply N''.
Qed.

(** ** The file keeps what the runtime wrote, up to the first failure *)

Lemma write_accepted data now n failed stat_ok ans sh o sh' o' : ro_file o = HOpen ->
  Write data now n failed stat_ok ans sh o = (sh', o', None) -> str_take n data = data /\ ro_file o' = HOpen.
Proof.
  intros Ho. unfold Write. destruct (String.eqb_spec data "") as [->|]; [intros [= <- <-]; by destruct n|].
  rewrite Ho. destruct failed; [done|]. destruct (Nat.eqb_spec (slen (str_take n data)) (slen data)) as [E|]; [|done].
  assert (Ht : str_take n data = data) by (apply str_take_ge; rewrite slen_take in E; lia). cbn [negb].
  destruct (negb stat_ok); [done|]. destruct (_ <? _); [|by intros [= <- <-]].
  unfold compact. destruct ans as [| | |r|r]; try done; destruct (_ <=? _); try done; try (by intros [= <- <-]).
  destruct r; [|done]. by intros [= <- <-].
Qed.

(** What the file has taken is a prefix of what the runtime wrote, and all of it as long
    as no write has failed. *)
Definition captured (c : capture) (k : keeping) : Prop :=
  cp_shelf c = k_shelf k /\
  match cp_output c with
  | Some o => k_output k = o /\ k_stream k = cp_wrote c /\ (cp_done c = false -> ro_file o = HOpen)
  | None => cp_failed c = true /\ exists lost, cp_wrote c = k_stream k +:+ lost
  end.

Lemma captured_step op c k : captured c k -> exists ops, captured (capture_step op c) (out_run ops k).
Proof.
  intros Hc. unfold capture_step. destruct (cp_done c) eqn:Hd; [by exists []|]. destruct Hc as [Hsh H]. rewrite Hd in H.
  destruct op as [data now n failed stat_ok ans cl|cl]; destruct (cp_output c) as [o|] eqn:Ho.
  - destruct H as (Hko & Hst & Hf). specialize (Hf eq_refl).
    set (w := OpWrite data now n failed stat_ok ans).
    assert (Hacc : accepted w (k_output k) = str_take n data) by (rewrite Hko; cbn; by rewrite Hf).
    destruct (Write data now n failed stat_ok ans (cp_shelf c) o) as [[sh o'] [e|]] eqn:Hw.
    + exists [w; OpClose (ca_now cl) (ca_sync cl) (ca_meta cl) (ca_close cl)].
      unfold out_run, w, close_file. cbn [fold_left]. unfold out_step at 2.
      rewrite Hko, <- Hsh, Hw. unfold out_step. cbn [k_shelf k_output].
      destruct (CloseOutput _ _ _ _ sh o') as [[sh2 o2] e2]. split; [done|]. cbn [cp_output cp_failed]. split; [done|].
      exists (str_drop n data). cbn [k_stream cp_wrote accepted]. rewrite Hf, Hst, str_app_nil_r, <- str_app_assoc.
      by rewrite str_take_drop.
    + destruct (write_accepted _ _ _ _ _ _ _ _ _ _ Hf Hw) as [Ht Hopen]. exists [w].
      unfold out_run, w. cbn [fold_left]. unfold out_step. rewrite Hko, <- Hsh, Hw. split; [done|]. cbn.
      by rewrite Hf, Hst, Ht.
  - destruct H as [Hf [lost Hl]]. exists []. split; [done|]. split; [done|]. exists (lost +:+ data).
    cbn. by rewrite Hl, str_app_assoc.
  - destruct H as (Hko & Hst & Hf). exists [OpClose (ca_now cl) (ca_sync cl) (ca_meta cl) (ca_close cl)].
    unfold out_run, close_file. cbn [fold_left]. unfold out_step. rewrite Hko, <- Hsh.
    destruct (CloseOutput _ _ _ _ (cp_shelf c) o) as [[sh2 o2] e2]. split; [done|]. cbn. by rewrite str_app_nil_r.
  - exists []. split; [done|]. exact H.
Qed.

Lemma out_run_app ops ops' k : out_run (ops ++ ops') k = out_run ops' (out_run ops k).
Proof. apply fold_left_app. Qed.

Lemma captured_run ops c k : captured c k -> exists fops, captured (capture_run ops c) (out_run fops k).
Proof.
  revert c k; induction ops as [|op ops IH]; intros c k H; [by exists []|].
  destruct (captured_step op c k H) as [f1 H1]. destruct (IH _ _ H1) as [f2 H2].
  exists (f1 ++ f2). by rewrite out_run_app.
Qed.

Lemma captured_stream c k : captured c k ->
  exists lost, cp_wrote c = k_stream k +:+ lost /\ (cp_failed c = false -> lost = "").
Proof.
  intros [_ H]. destruct (cp_output c) as [o|].
  - destruct H as (_ & -> & _). exists "". by rewrite str_app_nil_r.
  - destruct H as [-> [lost ->]]. by exists lost.
Qed.

Section Theorems.
Context `{UC : UnicodeCase}.

(** A runtime whose file is new. *)
Lemma open_new sessionID generation now ans sh o :
  OpenRetainedOutput sessionID generation now ans (mkShelf None None) = (sh, Ok o) ->
  sh = mkShelf (Some "") None /\ o = mkOutput HOpen (mkMetadata 1 sessionID generation 0 0 now) RetainedOutputCapacity.
Proof.
  unfold OpenRetainedOutput. destruct (_ || _); [done|]. destruct ans as [c| |readable prune_ok cans]; [done..|].
  cbn [sh_log sh_side default readRetainedMetadata]. destruct (negb prune_ok); [done|]. by intros [= <- <-].
Qed.

Lemma new_kept sessionID generation now :
  kept_ok (mkKeeping (mkShelf (Some "") None) (mkOutput HOpen (mkMetadata 1 sessionID generation 0 0 now) RetainedOutputCapacity) "").
Proof. split; [|done]. by split. Qed.

(** Whatever system calls fail while a runtime writes its output, compacts the
    file and closes it, and whenever the daemon looks (the file, then the sidecar,
    then the data, with writes in between): what the daemon serves is exactly the
    part of the stream its offsets name, up to the end of the stream. *)
Lemma snapshot_exact (sessionID : string) (generation now : Z) (ans : open_answer) (sh : shelf) (o : RetainedOutput)
  (ops1 ops2 ops3 : list out_op) (readable : bool) (size : Z) (sn : RetainedOutputSnapshot) :
  OpenRetainedOutput sessionID generation now ans (mkShelf None None) = (sh, Ok o) ->
  let k1 := out_run ops1 (mkKeeping sh o "") in
  let k2 := out_run ops2 k1 in
  let k3 := out_run ops3 k2 in
  zlen (k_stream k3) < 2 ^ 64 ->
  ReadRetainedOutput sessionID generation readable (k_shelf k1) (k_shelf k2) (k_shelf k3) size = Ok sn ->
  sn_EndOffset sn = zlen (k_stream k3) /\ 0 <= sn_StartOffset sn <= sn_EndOffset sn /\
  sn_Data sn = str_drop (Z.to_nat (sn_StartOffset sn)) (k_stream k3) /\ zlen (sn_Data sn) <= RetainedOutputCapacity.
Proof.
  intros [-> ->]%open_new k1 k2 k3 Hs. unfold ReadRetainedOutput, RetainedOutputInfo.
  destruct (sh_log (k_shelf k1)) as [c1|]; [|done]. destruct (_ <? _); [done|].
  unfold readRetainedMetadata. destruct (sh_side (k_shelf k2)) as [m|] eqn:Em; [|done].
  destruct (_ && _); [|done]. destruct (metadata_matches _ _ _ m); [|done].
  pose proof (stream_grows ops3 k2) as G2. pose proof (stream_grows ops2 k1) as G1. fold k3 in G2. fold k2 in G1.
  assert (O1 : kept_ok k1) by (apply out_run_ok; [fold k1; lia|apply new_kept]).
  destruct (out_run_ok ops2 k1 ltac:(fold k2; lia) O1) as [O2 _]. fold k2 in O2.
  destruct (out_run_ok ops3 k2 ltac:(fold k3; lia) O2) as [_ N3]. fold k3 in N3.
  destruct O2 as [[We Ws Wl Wc] Hside]. destruct (Hside m Em) as (Hn & Hst & Hen). rewrite (N3 Hn), Wl in *.
  destruct (Z.ltb_spec RetainedOutputCapacity size) as [|Hsize]; [done|].
  set (content := str_drop _ (k_stream k2)). destruct (Z.eqb_spec (zlen (limited (RetainedOutputCapacity + 1) content)) size) as [Hz|]; [|done].
  intros [= <-]. cbn [sn_EndOffset sn_StartOffset sn_Data negb]. rewrite Hst, Hen, We. split_and!; try lia.
  unfold limited in *. destruct (Z.leb_spec (zlen content) (RetainedOutputCapacity + 1)) as [|Hbig]; [done|].
  exfalso. revert Hz. unfold zlen in *. rewrite slen_take. lia.
Qed.

(** ** When nothing fails *)

Definition ok_write (now : Z) (data : string) : out_op := OpWrite data now (slen data) false true (Renamed true).

(** The file holds the last bytes of the stream and the output is open. *)
Definition fits (sessionID : string) (generation : Z) (k : keeping) : Prop :=
  kept_ok k /\ sh_side (k_shelf k) = None /\ ro_file (k_output k) = HOpen /\
  rm_StartOffset (ro_metadata (k_output k)) = Z.max 0 (zlen (k_stream k) - RetainedOutputCapacity) /\
  rm_Version (ro_metadata (k_output k)) = 1 /\ rm_SessionID (ro_metadata (k_output k)) = sessionID /\
  rm_Generation (ro_metadata (k_output k)) = generation.

Lemma ok_write_fits sessionID generation now data k : zlen (k_stream k +:+ data) < 2 ^ 64 -> fits sessionID generation k ->
  fits sessionID generation (out_step (ok_write now data) k) /\ k_stream (out_step (ok_write now data) k) = k_stream k +:+ data.
Proof.
  intros Hs (O & Hside & Hf & Hst & Hv & Hid & Hg).
  assert (Hacc : accepted (ok_write now data) (k_output k) = data) by (cbn; rewrite Hf; by apply str_take_ge).
  assert (Hk : k_stream (out_step (ok_write now data) k) = k_stream k +:+ data).
  { destruct (out_step_eq (ok_write now data) k) as (sh & o & -> & _). cbn [k_stream]. by rewrite Hacc. }
  split; [|done]. split; [apply out_step_ok; [by rewrite Hk|done]|]. rewrite Hk. destruct O as [[We Ws Wl Wc] _].
  pose proof (zlen_nonneg (k_stream k)) as P1. pose proof (zlen_nonneg data) as P2. rewrite zlen_app in Hs |- *.
  unfold out_step, ok_write, Write. destruct (String.eqb_spec data "") as [->|Hne].
  { cbn [k_shelf k_output]. change (zlen "") with 0. rewrite Z.add_0_r. by split_and!. }
  rewrite Hf, (str_take_ge (slen data)), Nat.eqb_refl by lia. cbn [negb]. rewrite Wl, Wc, We. cbn [sh_log default from_option].
  unfold id. rewrite u64_small by lia.
  set (content := str_drop _ (k_stream k) +:+ data).
  assert (Hlen : zlen content = Z.min (zlen (k_stream k)) RetainedOutputCapacity + zlen data).
  { unfold content. rewrite zlen_app, zlen_drop, Hst, Z2Nat.id by lia. unfold RetainedOutputCapacity. lia. }
  assert (Hcap : 0 < RetainedOutputCapacity) by (unfold RetainedOutputCapacity; lia).
  cbn [ro_capacity]. destruct (Z.ltb_spec RetainedOutputCapacity (zlen content)) as [Hgt|Hle].
  - unfold compact. cbn [sh_log default from_option ro_capacity]. unfold id. rewrite (proj2 (Z.leb_gt _ _) Hgt).
    cbn [k_shelf k_output sh_side ro_file reopened_file ro_metadata set_offsets rm_StartOffset rm_EndOffset rm_Version rm_SessionID rm_Generation].
    rewrite u64_small by lia. split_and!; try done. lia.
  - cbn [k_shelf k_output sh_side ro_file ro_metadata set_offsets rm_StartOffset rm_Version rm_SessionID rm_Generation].
    split_and!; try done. rewrite Hst. lia.
Qed.

Lemma ok_writes_fit sessionID generation now datas k : zlen (k_stream k +:+ concat_str datas) < 2 ^ 64 -> fits sessionID generation k ->
  fits sessionID generation (out_run (map (ok_write now) datas) k) /\
  k_stream (out_run (map (ok_write now) datas) k) = k_stream k +:+ concat_str datas.
Proof.
  revert k; induction datas as [|d datas IH]; intros k Hs F; [by rewrite str_app_nil_r|].
  change (out_run (map (ok_write now) (d :: datas)) k) with (out_run (map (ok_write now) datas) (out_step (ok_write now d) k)).
  cbn [concat_str] in *. rewrite str_app_assoc in *.
  destruct (ok_write_fits sessionID generation now d k) as [F' E']; [|done|].
  { rewrite zlen_app in Hs. pose proof (zlen_nonneg (concat_str datas)). lia. }
  rewrite <- E' in *. by apply IH.
Qed.

(** When nothing fails, the daemon is served the end of everything the runtime
    wrote, at its offsets: all of it, or the last MiB. *)
Theorem retained_roundtrip (sessionID : string) (generation now : Z) (datas : list string) :
  is_Ok (ParseSessionID sessionID) = true -> 0 < generation -> 0 < now -> zlen (concat_str datas) < 2 ^ 64 ->
  let total := zlen (concat_str datas) in
  let start := Z.max 0 (total - RetainedOutputCapacity) in
  exists sh o, OpenRetainedOutput sessionID generation now (OpenOk true true (Renamed true)) (mkShelf None None) = (sh, Ok o) /\
    let sh' := k_shelf (out_run (map (ok_write now) datas ++ [OpClose now true true true]) (mkKeeping sh o "")) in
    ReadRetainedOutput sessionID generation true sh' sh' sh' (Z.min total RetainedOutputCapacity) =
    Ok (mkSnapshot sessionID generation start total now (str_drop (Z.to_nat start) (concat_str datas))).
Proof.
  intros Hid Hg Hn Hs total start.
  exists (mkShelf (Some "") None), (mkOutput HOpen (mkMetadata 1 sessionID generation 0 0 now) RetainedOutputCapacity).
  split.
  { unfold OpenRetainedOutput. rewrite Hid. cbn [negb orb]. rewrite (proj2 (Z.eqb_neq _ _)) by lia. done. }
  set (k0 := mkKeeping _ _ ""). destruct (ok_writes_fit sessionID generation now datas k0) as [F E].
  { done. }
  { split; [apply new_kept|by split_and!]. }
  unfold out_run at 1. rewrite fold_left_app. cbn [fold_left]. change (fold_left _ (map (ok_write now) datas) k0) with (out_run (map (ok_write now) datas) k0).
  change (k_stream k0 +:+ concat_str datas) with ("" +:+ concat_str datas) in E. rewrite str_app_nil_l in E.
  revert F E. generalize (out_run (map (ok_write now) datas) k0). intros k ((W & _) & Hside & Hf & Hst & Hv & Hsid & Hgen) E.
  destruct W as [We Ws Wl Wc]. rewrite E in *. unfold out_step, CloseOutput. rewrite Hf. cbn [writeRetainedMetadata k_shelf].
  fold total in We, Ws, Hst. fold start in Hst. rewrite Hst in *. rewrite Wl.
  assert (Hlen : zlen (str_drop (Z.to_nat start) (concat_str datas)) = Z.min total RetainedOutputCapacity).
  { rewrite zlen_drop. fold total. pose proof (zlen_nonneg (concat_str datas)) as Hp. fold total in Hp.
    unfold start, RetainedOutputCapacity. lia. }
  unfold ReadRetainedOutput, RetainedOutputInfo, readRetainedMetadata, metadata_matches, limited.
  cbn [sh_log sh_side set_offsets rm_Version rm_UpdatedAtMS rm_SessionID rm_Generation rm_StartOffset rm_EndOffset].
  pose proof (zlen_nonneg (concat_str datas)) as Hp. fold total in Hp.
  rewrite Hlen, Hv, (proj2 (Z.ltb_ge _ _)), (proj2 (Z.ltb_lt 0 now)) by (unfold RetainedOutputCapacity; lia).
  cbn [andb Z.eqb Pos.eqb set_offsets rm_SessionID rm_Generation rm_StartOffset rm_EndOffset rm_UpdatedAtMS].
  rewrite Hsid, Hgen, We, String.eqb_refl, Z.eqb_refl, (proj2 (Z.ltb_ge total start)), u64_small by (unfold start, RetainedOutputCapacity; lia).
  replace (total - start) with (Z.min total RetainedOutputCapacity) by (unfold start, RetainedOutputCapacity; lia).
  rewrite Z.eqb_refl. cbn [andb negb]. rewrite (proj2 (Z.leb_le _ _)), Hlen, Z.eqb_refl by lia. done.
Qed.

End Theorems.

(** ** Which files are removed *)

Lemma retained_name_parsed (generation : Z) :
  0 < generation < 2 ^ 64 -> ParseRetainedOutputGeneration (retained_name generation) = Some generation.
Proof.
  intros Hg. unfold ParseRetainedOutputGeneration, retained_name.
  rewrite HasPrefix_app, TrimPrefix_app, TrimSuffix_app, str_app_assoc, HasSuffix_app. cbn [negb orb].
  by rewrite ParseUint_FormatUint, (proj2 (Z.eqb_neq _ _)) by lia.
Qed.

Lemma insert_generation_perm g l : insert_generation g l ≡ₚ g :: l.
Proof. induction l as [|x l IH]; cbn; [done|]. destruct (g <=? x); [done|]. rewrite IH. by rewrite Permutation_swap. Qed.

Lemma sort_generations_perm l : sort_generations l ≡ₚ l.
Proof. induction l as [|g l IH]; cbn; [done|]. by rewrite insert_generation_perm, IH. Qed.

Lemma insert_generation_sorted g l : StronglySorted Z.le l -> StronglySorted Z.le (insert_generation g l).
Proof.
  induction 1 as [|x l Hs IH Hx]; cbn; [repeat constructor|]. destruct (Z.leb_spec g x) as [H|H].
  - constructor; [by constructor|]. constructor; [done|]. eapply Forall_impl; [exact Hx|]. cbn. lia.
  - constructor; [done|]. rewrite insert_generation_perm. constructor; [lia|done].
Qed.

Lemma sort_generations_sorted l : StronglySorted Z.le (sort_generations l).
Proof. induction l as [|g l IH]; cbn; [constructor|]. by apply insert_generation_sorted. Qed.

(** The loop takes the first of those other than the current one. *)
Lemma choose_removed_take current k l : choose_removed current k l = take k (filter (.≠ current) l).
Proof.
  revert k; induction l as [|g l IH]; intros k; [by destruct k|]. destruct k as [|k]; [done|]. cbn [choose_removed].
  destruct (Z.eqb_spec g current) as [->|Hne].
  - rewrite filter_cons_False by auto. apply IH.
  - rewrite filter_cons_True by done. cbn [take]. by rewrite IH.
Qed.

Lemma filter_sorted (P : Z -> Prop) `{!forall x, Decision (P x)} l : StronglySorted Z.le l -> StronglySorted Z.le (filter P l).
Proof.
  induction 1 as [|x l Hs IH Hx]; [constructor|]. rewrite filter_cons. case_decide; [|done]. constructor; [done|].
  apply Forall_forall. intros y [_ Hy]%list_elem_of_filter. rewrite Forall_forall in Hx. auto.
Qed.

Lemma sorted_app_le l1 l2 a b : StronglySorted Z.le (l1 ++ l2) -> a ∈ l1 -> b ∈ l2 -> a <= b.
Proof.
  intros Hs Ha Hb. induction l1 as [|x l1 IH]; [by apply not_elem_of_nil in Ha|].
  apply StronglySorted_inv in Hs as [Hs Hx]. apply elem_of_cons in Ha as [->|Ha]; [|auto].
  rewrite Forall_forall in Hx. apply Hx, elem_of_app. by right.
Qed.

Lemma filter_other_length (current : Z) (l : list Z) : NoDup l -> (length l <= S (length (filter (.≠ current) l)))%nat.
Proof.
  induction 1 as [|x l Hx Hnd IH]; [cbn; lia|]. rewrite filter_cons. case_decide as Hc; cbn [length]; [lia|].
  rewrite Hc in Hx. clear IH Hnd Hc x. induction l as [|y l IH]; [done|]. apply not_elem_of_cons in Hx as [Hy Hx].
  rewrite filter_cons_True by done. cbn [length]. specialize (IH Hx). lia.
Qed.

(** Opening a runtime's output prunes the directory to the 32 last runtimes: with
    the files [generations], exactly as many are removed as there are too many, the
    current runtime's file is never among them, and every file that is removed is
    older than every other file that stays. *)
Theorem prune_keeps_newest (generations : list Z) (current : Z) :
  NoDup generations -> Forall (fun g => 0 < g < 2 ^ 64) generations ->
  let removed := pruneRetainedOutputGenerations (map retained_name generations) current in
  NoDup removed /\ removed ⊆ generations /\ current ∉ removed /\
  length removed = (length generations - RetainedOutputGenerationLimit)%nat /\
  forall g kept, g ∈ removed -> kept ∈ generations -> kept ∉ removed -> kept <> current -> g < kept.
Proof.
  intros Hnd Hg removed. unfold removed, pruneRetainedOutputGenerations.
  assert (E : omap ParseRetainedOutputGeneration (map retained_name generations) = generations).
  { clear Hnd removed. induction Hg as [|g l Hg _ IH]; [done|]. cbn. by rewrite retained_name_parsed, IH. }
  rewrite E. destruct (Nat.leb_spec (length generations) RetainedOutputGenerationLimit) as [Hle|Hgt].
  { split_and!; [constructor|set_solver..| |set_solver]. cbn [length]. lia. }
  rewrite choose_removed_take. pose proof (sort_generations_perm generations) as Hp.
  set (others := filter (.≠ current) (sort_generations generations)). set (k := (_ - _)%nat).
  assert (Hs : StronglySorted Z.le others) by apply filter_sorted, sort_generations_sorted.
  assert (Hnd' : NoDup others) by (apply NoDup_filter; by rewrite Hp).
  assert (Hin : forall g, g ∈ others <-> g <> current /\ g ∈ generations) by (intros g; unfold others; by rewrite list_elem_of_filter, Hp).
  assert (Hlen : (length generations <= S (length others))%nat).
  { rewrite <- Hp at 1. apply filter_other_length. by rewrite Hp. }
  clearbody others. rewrite <- (take_drop k others) in Hs, Hnd', Hin. apply NoDup_app in Hnd' as (Hn1 & Hdis & _).
  split_and!.
  - done.
  - intros g Hgin. apply (Hin g). set_solver.
  - intros Hc. destruct (proj1 (Hin current)) as [Hne _]; [set_solver|done].
  - rewrite length_take. unfold k, RetainedOutputGenerationLimit in *. lia.
  - intros g kept Hr Hk Hnk Hne. assert (Hd : kept ∈ drop k others).
    { destruct (proj1 (elem_of_app (take k others) (drop k others) kept)) as [H|H]; [apply Hin; done|done|done]. }
    pose proof (sorted_app_le _ _ g kept Hs Hr Hd). enough (g <> kept) by lia. intros ->. by apply Hnk.
Qed.

Module RetainedWitness.

#[local] Existing Instance latin_case.

Lemma retained_roundtrip_witness :
  exists sh o, OpenRetainedOutput "ABC123" 7 1000 (OpenOk true true (Renamed true)) (mkShelf None None) = (sh, Ok o) /\
    let sh' := k_shelf (out_run (map (ok_write 1000) ["ab"; "c"] ++ [OpClose 1000 true true true]) (mkKeeping sh o "")) in
    ReadRetainedOutput "ABC123" 7 true sh' sh' sh' 3 = Ok (mkSnapshot "ABC123" 7 0 3 1000 "abc").
Proof. apply (retained_roundtrip "ABC123" 7 1000 ["ab"; "c"]); vm_compute; reflexivity. Defined.

Definition many : list Z := Z.of_nat <$> seq 1 40.

Lemma prune_keeps_newest_witness :
  length (pruneRetainedOutputGenerations (map retained_name many) 3) = 8%nat.
Proof. apply (prune_keeps_newest many 3); [apply (bool_decide_unpack _); vm_compute; exact I..]. Defined.

(** The nine oldest without the current runtime's, number 3. *)
Example pruned_generations : pruneRetainedOutputGenerations (map retained_name many) 3 = [1; 2; 4; 5; 6; 7; 8; 9].
Proof. vm_compute. reflexivity. Qed.

End RetainedWitness.
