(* ===== verification/OutputServe.v ===== *)
(** * Serving terminal output: the output part of [internal/ducklion/daemon/server.go]

    The daemon keeps one [OutputHub] for each supervisor connection and the hub of
    each session's current connection.  A client subscribes to the hub of a live
    session, or to the output kept on disk for a stopped one, and is written events
    of at most 64 KiB until the subscription ends.

    Hubs are shared by reference: [sv_hubs] is the heap they live in, with the
    bytes each has accepted beside it.  The server's critical sections are the
    operations [sv_op]; a call that has several takes the operations of other
    goroutines between them as arguments.  Random ids and the clock are arguments
    as well.  [sync.Once] around a release is the test that the reservation is
    still there. *)

From S2P Require Import Prelude GoStrings GoMarshal OutputHub Registry Session SessionDB SessionStore SessionService RetainedOutput.
Local Open Scope go_scope.
Local Open Scope Z_scope.

Definition maxOutputSubscriptionsPerSession : Z := 32.
Definition maxOutputSubscriptionsGlobal : Z := 512.
Definition ErrOutputUnavailable : string := "output_unavailable".
Definition InternalError : string := "internal".

(** A hub, with the offset of its first byte and the bytes it has accepted. *)
Record hub_cell := mkCell { hc_hub : OutputHub; hc_base : Z; hc_stream : bytes }.

Record registeredOutput := mkRegistered { go_identity : RuntimeIdentity; go_hub : nat }.
Record runtimeSequence := mkSequence { rq_identity : RuntimeIdentity; rq_value : Z }.

Record serving := mkServing {
  sv_instanceID : string;
  sv_hubs : gmap nat hub_cell;
  sv_nextHub : nat;
  sv_outputs : gmap string registeredOutput;
  sv_sequences : gmap string runtimeSequence;
  sv_outputSubscriptions : Z;
  sv_bySession : gmap string Z;
  sv_reserved : gmap nat string;        (* reservations that were not released *)
  sv_nextReservation : nat;
}.

Definition new_serving (instanceID : string) : serving := mkServing instanceID ∅ 0 ∅ ∅ 0 ∅ ∅ 0.

Definition set_hubs (hubs : gmap nat hub_cell) (s : serving) : serving :=
  mkServing (sv_instanceID s) hubs (sv_nextHub s) (sv_outputs s) (sv_sequences s) (sv_outputSubscriptions s)
    (sv_bySession s) (sv_reserved s) (sv_nextReservation s).
Definition set_outputs (outputs : gmap string registeredOutput) (s : serving) : serving :=
  mkServing (sv_instanceID s) (sv_hubs s) (sv_nextHub s) outputs (sv_sequences s) (sv_outputSubscriptions s)
    (sv_bySession s) (sv_reserved s) (sv_nextReservation s).
Definition set_sequences (sequences : gmap string runtimeSequence) (s : serving) : serving :=
  mkServing (sv_instanceID s) (sv_hubs s) (sv_nextHub s) (sv_outputs s) sequences (sv_outputSubscriptions s)
    (sv_bySession s) (sv_reserved s) (sv_nextReservation s).
Definition set_quota (total : Z) (by_session : gmap string Z) (reserved : gmap nat string) (next : nat) (s : serving) : serving :=
  mkServing (sv_instanceID s) (sv_hubs s) (sv_nextHub s) (sv_outputs s) (sv_sequences s) total by_session reserved next.

(** An operation of a hub's own, on the hub number [n]. *)
Definition on_hub (n : nat) (f : OutputHub -> OutputHub) (s : serving) : serving :=
  set_hubs (alter (fun c => mkCell (f (hc_hub c)) (hc_base c) (hc_stream c)) n (sv_hubs s)) s.

(** ** Quota *)

Definition lookup0 (m : gmap string Z) (k : string) : Z := default 0 (m !! k).

Definition reserveOutputSubscription (sessionID : string) (s : serving) : serving * result ProtocolError nat :=
  if (maxOutputSubscriptionsGlobal <=? sv_outputSubscriptions s)
     || (maxOutputSubscriptionsPerSession <=? lookup0 (sv_bySession s) sessionID)
  then (s, Err (mkProtocolError Code.ErrBusy "output subscription capacity reached" true None None))
  else
    let r := sv_nextReservation s in
    (set_quota (sv_outputSubscriptions s + 1)
       (<[sessionID := lookup0 (sv_bySession s) sessionID + 1]> (sv_bySession s))
       (<[r := sessionID]> (sv_reserved s)) (S r) s,
     Ok r).

(** The function that [reserveOutputSubscription] returns. *)
Definition releaseQuota (r : nat) (s : serving) : serving :=
  match sv_reserved s !! r with
  | None => s
  | Some sessionID =>
      let left := lookup0 (sv_bySession s) sessionID - 1 in
      set_quota (sv_outputSubscriptions s - 1)
        (if left =? 0 then delete sessionID (sv_bySession s) else <[sessionID := left]> (sv_bySession s))
        (delete r (sv_reserved s)) (sv_nextReservation s) s
  end.

(** ** Hubs of live sessions *)

Definition hub_capacity : Z := 4194304.

(** The locked part of [activateOutput]: the new hub, and the one it replaces,
    which is closed afterwards. *)
Definition activate_section (identity : RuntimeIdentity) (s : serving) : serving * option nat :=
  let n := sv_nextHub s in
  (mkServing (sv_instanceID s) (<[n := mkCell (NewOutputHub hub_capacity) 0 []]> (sv_hubs s)) (S n)
     (<[ri_SessionID identity := mkRegistered identity n]> (sv_outputs s)) (sv_sequences s) (sv_outputSubscriptions s)
     (sv_bySession s) (sv_reserved s) (sv_nextReservation s),
   go_hub <$> sv_outputs s !! ri_SessionID identity).

(** The locked part of [deactivateOutput] and the hub it closes afterwards. *)
Definition deactivate_section (identity : RuntimeIdentity) (s : serving) : serving * option nat :=
  match sv_outputs s !! ri_SessionID identity with
  | Some current =>
      if bool_decide (go_identity current = identity)
      then (set_outputs (delete (ri_SessionID identity) (sv_outputs s)) s, Some (go_hub current))
      else (s, None)
  | None => (s, None)
  end.

Definition forget_sequence (identity : RuntimeIdentity) (s : serving) : serving :=
  match sv_sequences s !! ri_SessionID identity with
  | Some sequence =>
      if bool_decide (rq_identity sequence = identity) then set_sequences (delete (ri_SessionID identity) (sv_sequences s)) s else s
  | None => s
  end.

Definition nextInputSequence (identity : RuntimeIdentity) (s : serving) : serving * Z :=
  let current := match sv_sequences s !! ri_SessionID identity with
                 | Some q => if bool_decide (rq_identity q = identity) then q else mkSequence identity 0
                 | None => mkSequence identity 0
                 end in
  let value := u64 (rq_value current + 1) in
  (set_sequences (<[ri_SessionID identity := mkSequence identity value]> (sv_sequences s)) s, value).

Definition runtimeOutputEnd (identity : RuntimeIdentity) (s : serving) : option Z :=
  match sv_outputs s !! ri_SessionID identity with
  | Some registered =>
      if bool_decide (go_identity registered = identity)
      then (fun c => snd (Bounds (hc_hub c))) <$> sv_hubs s !! go_hub registered
      else None
  | None => None
  end.

(** The [supervisor.output] request on the hub of its connection; the
    acknowledgement is the frame's offset and length.  [current] is what the
    registry says of the connection's identity. *)
Definition supervisor_output (offset : Z) (data : bytes) (gap current : bool) (c : hub_cell)
  : hub_cell * result ProtocolError (Z * Z) :=
  if (length data =? 0)%nat || (maxOutputFrameBytes <? length data)%nat || negb current
  then (c, Err (protocol_error Code.ErrInvalidArgument "invalid supervisor output"))
  else
    let '(start, end_) := Bounds (hc_hub c) in
    let recoveredSeed := gap && (start =? 0) && (end_ =? 0) in
    if negb recoveredSeed && negb (offset =? end_)
    then (c, Err (protocol_error Code.ErrStaleGeneration "output offset is not contiguous"))
    else if gap then
      match PublishRecovered (hc_hub c) offset data true with
      | (h, Some frame) => (mkCell h offset data, Ok (fr_Offset frame, Z.of_nat (length (fr_Data frame))))
      | (h, None) => (mkCell h (hc_base c) (hc_stream c), Err (protocol_error Code.ErrStaleGeneration "recovered output is invalid"))
      end
    else
      let '(h, frame) := Publish (hc_hub c) data in
      (mkCell h (hc_base c) (if h_closed (hc_hub c) then hc_stream c else hc_stream c ++ data),
       Ok (fr_Offset frame, Z.of_nat (length (fr_Data frame)))).

(** ** Operations of the goroutines *)

Inductive sv_op :=
| SActivate (identity : RuntimeIdentity)
| SDeactivate (identity : RuntimeIdentity)
| SForgetSequence (identity : RuntimeIdentity)
| SNextInput (identity : RuntimeIdentity)
| SCloseHub (n : nat)
| SOutput (n : nat) (offset : N) (data : bytes) (gap current : bool)
| SSubscribe (n : nat) (offset queue : Z)
| SCancel (n id : nat)
| SReceive (n id : nat)
| SReserve (sessionID : string)
| SRelease (r : nat).

Definition sv_step (op : sv_op) (s : serving) : serving :=
  match op with
  | SActivate identity => fst (activate_section identity s)
  | SDeactivate identity => fst (deactivate_section identity s)
  | SForgetSequence identity => forget_sequence identity s
  | SNextInput identity => fst (nextInputSequence identity s)
  | SCloseHub n => on_hub n Close s
  | SOutput n offset data gap current =>
      set_hubs (alter (fun c => fst (supervisor_output (Z.of_N offset) data gap current c)) n (sv_hubs s)) s
  | SSubscribe n offset queue => on_hub n (fun h => fst (Subscribe h offset queue)) s
  | SCancel n id => on_hub n (fun h => Cancel h id) s
  | SReceive n id => on_hub n (fun h => Receive h id) s
  | SReserve sessionID => fst (reserveOutputSubscription sessionID s)
  | SRelease r => releaseQuota r s
  end.

Definition sv_run (ops : list sv_op) (s : serving) : serving := fold_left (fun s op => sv_step op s) ops s.

Definition close_some (n : option nat) (s : serving) : serving := match n with Some n => sv_step (SCloseHub n) s | None => s end.

(** [others] runs between the critical sections. *)
Definition activateOutput (identity : RuntimeIdentity) (others : list sv_op) (s : serving) : serving :=
  let '(s, previous) := activate_section identity s in
  close_some previous (sv_run others s).

Definition deactivateOutput (identity : RuntimeIdentity) (others1 others2 : list sv_op) (s : serving) : serving :=
  match deactivate_section identity s with
  | (s, Some n) => forget_sequence identity (sv_run others2 (close_some (Some n) (sv_run others1 s)))
  | (s, None) => s
  end.

(** ** Subscribing *)

Record OutputSubscribe := mkSubscribe { su_Offset : Z; su_TailBytes : Z }.

(** What the handler reads of a request; [or_Body] is the decoded body, [None] when
    it is empty or not one. *)
Record output_request := mkOutputRequest {
  or_SessionID : string;
  or_InstanceID : string;
  or_RuntimeGeneration : option Z;
  or_Body : option OutputSubscribe;
}.

Record OutputSubscribeResult := mkSubscribeResult {
  sr_SubscriptionID : string;
  sr_RuntimeID : string;
  sr_InstanceID : string;
  sr_SessionID : string;
  sr_RuntimeGeneration : Z;
  sr_StartOffset : Z;
  sr_EndOffset : Z;
  sr_Gap : bool;
}.

(** The hub of a live session, or one of the call's own. *)
Inductive hub_ref := Shared (n : nat) | Private (h : OutputHub).

(** [po_stream] is the number of the subscription in its hub and [po_reservation]
    what [po_cancel] releases. *)
Record preparedOutputSubscription := mkPrepared {
  po_metadata : OutputSubscribeResult;
  po_identity : RuntimeIdentity;
  po_replay : OutputFrame;
  po_stream : nat;
  po_hub : hub_ref;
  po_reservation : nat;
}.

(** [prepared.cancel]; a second call finds nothing to do. *)
Definition po_cancel (p : preparedOutputSubscription) (s : serving) : serving :=
  releaseQuota (po_reservation p) (match po_hub p with Shared n => sv_step (SCancel n (po_stream p)) s | Private _ => s end).

Definition sub_message (e : sub_error) : string :=
  match e with ErrOutputClosed => "output hub is closed" | ErrOffsetAhead => "output offset is ahead of runtime" end.

(** The offset of a subscription that asks for the last [tail] bytes. *)
Definition tail_offset (start end_ tail : Z) : Z :=
  if (tail <? end_) && (start <? end_ - tail) then end_ - tail else start.

(** The answers of the disk to a read of retained output: the file and the sidecar
    when each is looked at, the size at the last look, and whether the sidecar can
    be opened. *)
Record disk_answer := mkDisk { dk_readable : bool; dk_info : shelf; dk_sidecar : shelf; dk_data : shelf; dk_size : Z }.

Section Subscribing.
Context `{UC : UnicodeCase} `{UF : UnicodeFormat}.

(** The session is stopped, or it is a shell that has left a diagnostic row. *)
Definition retained_readable (sessionID : string) (generation : Z) (d : db) : option ProtocolError :=
  match GetSession sessionID d with
  | Ok session =>
      if negb (s_RuntimeGeneration session =? generation)
      then Some (protocol_error Code.ErrStaleGeneration "runtime generation changed")
      else if negb (s_Status session ==s StatusStopped)
      then Some (mkProtocolError Code.ErrAdapterUnhealthy "session runtime is reconnecting" true None None)
      else None
  | Err ErrNotFound =>
      match GetRetainedShellSession sessionID generation d with
      | Ok _ => None
      | Err ErrNotFound => Some (protocol_error Code.ErrNotFound "session does not exist")
      | Err _ => Some (protocol_error InternalError "could not inspect retained session")
      end
  | Err _ => Some (protocol_error InternalError "could not inspect retained session")
  end.

(** [now] and [ttl] are in nanoseconds.  The boolean says that the expired file and
    its sidecar are removed. *)
Definition prepareRetainedOutputSubscription (uuid lease : string) (now ttl : Z) (d : db) (disk : disk_answer)
  (sessionID : string) (generation : Z) (subscription : OutputSubscribe) (s : serving)
  : serving * bool * result ProtocolError preparedOutputSubscription :=
  match retained_readable sessionID generation d with
  | Some e => (s, false, Err e)
  | None =>
      match ReadRetainedOutput sessionID generation (dk_readable disk) (dk_info disk) (dk_sidecar disk) (dk_data disk) (dk_size disk) with
      | Err _ => (s, false, Err (protocol_error ErrOutputUnavailable "retained PTY output is unavailable or has expired"))
      | Ok snapshot =>
          if ttl <? now - sn_UpdatedAt snapshot * 1000000
          then (s, true, Err (protocol_error ErrOutputUnavailable "retained PTY output has expired"))
          else
            match reserveOutputSubscription sessionID s with
            | (s, Err e) => (s, false, Err e)
            | (s, Ok r) =>
                let start := sn_StartOffset snapshot in
                match PublishRecovered (NewOutputHub RetainedOutputCapacity) start (String.list_ascii_of_string (sn_Data snapshot)) (negb (start =? 0)) with
                | (_, None) => (releaseQuota r s, false, Err (protocol_error InternalError "retained PTY output could not be restored"))
                | (hub, Some _) =>
                    let offset := if 0 <? su_TailBytes subscription
                                  then tail_offset start (sn_EndOffset snapshot) (su_TailBytes subscription)
                                  else su_Offset subscription in
                    match Subscribe hub offset 1 with
                    | (_, Err e) => (releaseQuota r s, false, Err (protocol_error Code.ErrInvalidArgument (sub_message e)))
                    | (hub, Ok (replay, id)) =>
                        let identity := mkIdentity sessionID generation ("retained-" +:+ lease) in
                        (s, false,
                         Ok (mkPrepared
                               (mkSubscribeResult uuid (ri_LeaseID identity) (sv_instanceID s) sessionID generation
                                  (fr_Offset replay) (sn_EndOffset snapshot) (fr_Gap replay))
                               identity replay id (Private (Close hub)) r))
                    end
                end
            end
      end
  end.

(** The operations of other goroutines between the call's own sections: before the
    reservation, before the bounds are read, before the subscription and before the
    final bounds. *)
Record meanwhile := mkMeanwhile { mw_reserve : list sv_op; mw_bounds : list sv_op; mw_subscribe : list sv_op; mw_end : list sv_op }.

Definition hub_at (n : nat) (s : serving) : OutputHub :=
  match sv_hubs s !! n with Some c => hc_hub c | None => NewOutputHub hub_capacity end.

Definition prepareOutputSubscription (uuid lease : string) (now ttl : Z) (d : db) (disk : disk_answer) (mw : meanwhile)
  (request : output_request) (s : serving) : serving * bool * result ProtocolError preparedOutputSubscription :=
  let invalid := Err (protocol_error Code.ErrInvalidArgument "invalid output subscription") in
  match ParseSessionID (or_SessionID request), or_RuntimeGeneration request, or_Body request with
  | Ok sessionID, Some generation, Some subscription =>
      if negb (or_InstanceID request ==s sv_instanceID s) || (4194304 <? su_TailBytes subscription)
         || (0 <? su_TailBytes subscription) && negb (su_Offset subscription =? 0)
      then (s, false, invalid)
      else
        match sv_outputs s !! sessionID with
        | None => prepareRetainedOutputSubscription uuid lease now ttl d disk sessionID generation subscription s
        | Some current =>
            if negb (ri_Generation (go_identity current) =? generation)
            then (s, false, Err (protocol_error Code.ErrStaleGeneration "runtime generation changed"))
            else
              let n := go_hub current in
              match reserveOutputSubscription sessionID (sv_run (mw_reserve mw) s) with
              | (s, Err e) => (s, false, Err e)
              | (s, Ok r) =>
                  let s := sv_run (mw_bounds mw) s in
                  let '(start, end_) := Bounds (hub_at n s) in
                  let offset := if 0 <? su_TailBytes subscription then tail_offset start end_ (su_TailBytes subscription)
                                else su_Offset subscription in
                  let s := sv_run (mw_subscribe mw) s in
                  match snd (Subscribe (hub_at n s) offset 32) with
                  | Err e => (releaseQuota r s, false, Err (protocol_error Code.ErrInvalidArgument (sub_message e)))
                  | Ok (replay, id) =>
                      let s := sv_run (mw_end mw) (sv_step (SSubscribe n offset 32) s) in
                      let identity := go_identity current in
                      (s, false,
                       Ok (mkPrepared
                             (mkSubscribeResult uuid (ri_LeaseID identity) (sv_instanceID s) sessionID (ri_Generation identity)
                                (fr_Offset replay) (snd (Bounds (hub_at n s))) (fr_Gap replay))
                             identity replay id (Shared n) r))
                  end
              end
        end
  | _, _, _ => (s, false, invalid)
  end.

End Subscribing.

(** ** Writing the events *)

Record OutputEvent := mkEvent {
  oe_Type : string;
  oe_SubscriptionID : string;
  oe_RuntimeID : string;
  oe_InstanceID : string;
  oe_SessionID : string;
  oe_RuntimeGeneration : Z;
  oe_Frame : OutputFrame;
  oe_Reason : string;
}.

(** A connection: what was written to it, and how many writes it still takes. *)
Record wire := mkWire { wr_events : list OutputEvent; wr_left : nat }.

Definition wire_write (e : OutputEvent) (w : wire) : wire * bool :=
  match wr_left w with
  | O => (w, false)
  | S k => (mkWire (wr_events w ++ [e]) k, true)
  end.

Definition maxChunk : nat := Z.to_nat 65536.

Definition output_event (p : preparedOutputSubscription) (type_ : string) (frame : OutputFrame) (reason : string) : OutputEvent :=
  mkEvent type_ (sr_SubscriptionID (po_metadata p)) (ri_LeaseID (po_identity p)) (sr_InstanceID (po_metadata p))
    (ri_SessionID (po_identity p)) (ri_Generation (po_identity p)) frame reason.

(** The chunk of a frame from index [start]. *)
Definition chunk_frame (frame : OutputFrame) (start : nat) : OutputFrame :=
  let end_ := Nat.min (start + maxChunk) (length (fr_Data frame)) in
  mkFrame (u64 (fr_Offset frame + Z.of_nat start)) (take (end_ - start) (drop start (fr_Data frame)))
    (fr_Gap frame && (start =? 0)%nat).

Fixpoint write_chunks (fuel : nat) (p : preparedOutputSubscription) (frame : OutputFrame) (start : nat) (w : wire) : wire * bool :=
  match fuel with
  | O => (w, true)
  | S fuel' =>
      if (length (fr_Data frame) <=? start)%nat then (w, true)
      else match wire_write (output_event p "output" (chunk_frame frame start) "") w with
           | (w, true) => write_chunks fuel' p frame (start + maxChunk) w
           | (w, false) => (w, false)
           end
  end.

Definition writeOutputEvents (p : preparedOutputSubscription) (frame : OutputFrame) (w : wire) : wire * bool :=
  if (length (fr_Data frame) =? 0)%nat then (w, true) else write_chunks (length (fr_Data frame)) p frame 0 w.

Definition frame_end (frame : OutputFrame) : Z := u64 (fr_Offset frame + Z.of_nat (length (fr_Data frame))).

Fixpoint write_frames (p : preparedOutputSubscription) (frames : list OutputFrame) (nextOffset : Z) (w : wire) : wire * option Z :=
  match frames with
  | [] => (w, Some nextOffset)
  | frame :: frames =>
      match writeOutputEvents p frame w with
      | (w, true) => write_frames p frames (frame_end frame) w
      | (w, false) => (w, None)
      end
  end.

(** [frames] is what the channel gives until it is closed and empty, [finalEnd] the
    end of the hub after that. *)
Definition streamOutputSubscription (p : preparedOutputSubscription) (frames : list OutputFrame) (finalEnd : Z) (w : wire) : wire :=
  match writeOutputEvents p (po_replay p) w with
  | (w, false) => w
  | (w, true) =>
      match write_frames p frames (frame_end (po_replay p)) w with
      | (w, None) => w
      | (w, Some nextOffset) =>
          let reason := if nextOffset <? finalEnd then "subscriber_lag" else "runtime_disconnected" in
          fst (wire_write (output_event p "output_end" (mkFrame nextOffset [] false) reason) w)
      end
  end.
