(* ===== verification/OutputServeSafety.v ===== *)
(** * What subscribers of terminal output are served

    Theorems on [OutputServe]: the quota of subscriptions, the events a client of a
    live session is written, and those a client of a stopped one is. *)

From S2P Require Import Prelude GoStrings GoMarshal OutputHub Registry Session SessionDB SessionStore SessionService RetainedOutput OutputServe.
Local Open Scope go_scope.
Local Open Scope Z_scope.

Lemma sv_run_ind (P : serving -> Prop) ops s : (forall op s, P s -> P (sv_step op s)) -> P s -> P (sv_run ops s).
Proof. intros Hstep. revert s. induction ops as [|op ops IH]; intros s Hs; [done|]. by apply IH, Hstep. Qed.

Lemma sv_run_app ops1 ops2 s : sv_run (ops1 ++ ops2) s = sv_run ops2 (sv_run ops1 s).
Proof. apply fold_left_app. Qed.

(** ** The quota *)

(** The reservations of a session. *)
Definition held (sessionID : string) (m : gmap nat string) : gmap nat string := filter (fun kv => kv.2 = sessionID) m.

Record quota_ok (s : serving) : Prop := mkQuotaOk {
  qo_total : sv_outputSubscriptions s = Z.of_nat (size (sv_reserved s));
  qo_max : sv_outputSubscriptions s <= maxOutputSubscriptionsGlobal;
  qo_session : forall id, lookup0 (sv_bySession s) id = Z.of_nat (size (held id (sv_reserved s)));
  qo_session_max : forall id, lookup0 (sv_bySession s) id <= maxOutputSubscriptionsPerSession;
  qo_positive : forall id v, sv_bySession s !! id = Some v -> 0 < v;
  qo_fresh : forall r, (sv_nextReservation s <= r)%nat -> sv_reserved s !! r = None;
}.

Lemma held_insert id r id' m : m !! r = None ->
  size (held id (<[r := id']> m)) = (if bool_decide (id' = id) then S (size (held id m)) else size (held id m)).
Proof.
  intros Hr. unfold held. case_bool_decide as Hc.
  - rewrite map_filter_insert_True by done. apply map_size_insert_None. apply map_lookup_filter_None_2. by left.
  - rewrite map_filter_insert_False by done. by rewrite delete_id.
Qed.

Lemma held_delete id r id' m : m !! r = Some id' ->
  size (held id m) = (if bool_decide (id' = id) then S (size (held id (delete r m))) else size (held id (delete r m))).
Proof.
  intros Hr. rewrite <- (insert_delete_id m r id' Hr) at 1. by rewrite held_insert by apply lookup_delete_eq.
Qed.

Lemma lookup0_insert id id' v m : lookup0 (<[id' := v]> m) id = if bool_decide (id' = id) then v else lookup0 m id.
Proof.
  unfold lookup0. case_bool_decide as Hc; [subst; by rewrite lookup_insert_eq|by rewrite lookup_insert_ne].
Qed.

Lemma lookup0_delete id id' m : lookup0 (delete id' m) id = if bool_decide (id' = id) then 0 else lookup0 m id.
Proof.
  unfold lookup0. case_bool_decide as Hc; [subst; by rewrite lookup_delete_eq|by rewrite lookup_delete_ne].
Qed.

Lemma reserve_quota id s : quota_ok s -> quota_ok (fst (reserveOutputSubscription id s)).
Proof.
  intros [Ht Hm Hs Hsm Hp Hf]. unfold reserveOutputSubscription.
  destruct (Z.leb_spec maxOutputSubscriptionsGlobal (sv_outputSubscriptions s)) as [|Hg]; [by split|].
  destruct (Z.leb_spec maxOutputSubscriptionsPerSession (lookup0 (sv_bySession s) id)) as [|Hl]; [by split|].
  assert (Hn : sv_reserved s !! sv_nextReservation s = None) by (by apply Hf).
  split; cbn [orb fst set_quota sv_outputSubscriptions sv_reserved sv_bySession sv_nextReservation].
  - rewrite map_size_insert_None by done. lia.
  - lia.
  - intros id'. rewrite held_insert, lookup0_insert by done. case_bool_decide as Hc; [subst id'|apply Hs]. rewrite Hs. lia.
  - intros id'. rewrite lookup0_insert. case_bool_decide; [lia|apply Hsm].
  - intros id' v. rewrite lookup_insert_Some. intros [[<- <-]|[_ Hv]]; [|by eapply Hp]. rewrite Hs. lia.
  - intros r Hr. rewrite lookup_insert_ne by lia. apply Hf. lia.
Qed.

Lemma release_quota r s : quota_ok s -> quota_ok (releaseQuota r s).
Proof.
  intros [Ht Hm Hs Hsm Hp Hf]. unfold releaseQuota. destruct (sv_reserved s !! r) as [id|] eqn:Hr; [|by split].
  assert (Hl : forall id', lookup0 (if lookup0 (sv_bySession s) id - 1 =? 0 then delete id (sv_bySession s)
                      else <[id := lookup0 (sv_bySession s) id - 1]> (sv_bySession s)) id' =
               if bool_decide (id = id') then lookup0 (sv_bySession s) id - 1 else lookup0 (sv_bySession s) id').
  { intros id'. destruct (Z.eqb_spec (lookup0 (sv_bySession s) id - 1) 0) as [E|E]; [rewrite lookup0_delete|by rewrite lookup0_insert].
    case_bool_decide; [by rewrite E|done]. }
  assert (Hsz : size (sv_reserved s) = S (size (delete r (sv_reserved s)))).
  { rewrite <- (insert_delete_id _ r id Hr) at 1. apply map_size_insert_None, lookup_delete_eq. }
  split; cbn [set_quota sv_outputSubscriptions sv_reserved sv_bySession sv_nextReservation].
  - lia.
  - lia.
  - intros id'. rewrite Hl. pose proof (held_delete id' r id _ Hr) as Hd. pose proof (Hs id') as Hs'.
    case_bool_decide; [subst id'|]; lia.
  - intros id'. rewrite Hl. pose proof (Hsm id'). case_bool_decide; [subst id'|]; lia.
  - intros id' v. destruct (Z.eqb_spec (lookup0 (sv_bySession s) id - 1) 0) as [E|E].
    + rewrite lookup_delete_Some. intros [_ Hv]. by eapply Hp.
    + rewrite lookup_insert_Some. intros [[<- <-]|[_ Hv]]; [|by eapply Hp].
      pose proof (held_delete id r id _ Hr) as Hd. rewrite bool_decide_true in Hd by done. rewrite Hs in *. lia.
  - intros r' Hr'. apply lookup_delete_None. right. by apply Hf.
Qed.

(** The other operations leave the quota. *)
Definition same_quota (s s' : serving) : Prop :=
  sv_outputSubscriptions s' = sv_outputSubscriptions s /\ sv_bySession s' = sv_bySession s /\
  sv_reserved s' = sv_reserved s /\ sv_nextReservation s' = sv_nextReservation s.

Lemma same_quota_ok s s' : same_quota s s' -> quota_ok s -> quota_ok s'.
Proof. intros (E1 & E2 & E3 & E4) [? ? ? ? ? ?]. split; rewrite ?E1, ?E2, ?E3, ?E4; done. Qed.

Lemma sv_step_quota op s : quota_ok s -> quota_ok (sv_step op s).
Proof.
  intros Q. destruct op as [i|i|i|i|n|n o d g c|n o q|n id|n id|id|r]; cbn [sv_step]; [..|by apply reserve_quota|by apply release_quota];
    apply (same_quota_ok s); try done.
  - unfold deactivate_section. destruct (sv_outputs s !! _) as [x|]; [|done]. by case_bool_decide.
  - unfold forget_sequence. destruct (sv_sequences s !! _) as [x|]; [|done]. by case_bool_decide.
Qed.

(** C33. The daemon's count of output subscriptions is exact whatever its goroutines
    do, with every release run any number of times: in total and for each session it
    is the number of reservations not yet released, at most 512 and 32, and the map
    keeps no entry for a session without subscriptions. *)
Theorem subscription_quota_exact (instanceID : string) (ops : list sv_op) :
  let s := sv_run ops (new_serving instanceID) in
  sv_outputSubscriptions s = Z.of_nat (size (sv_reserved s)) /\ sv_outputSubscriptions s <= 512 /\
  forall id, lookup0 (sv_bySession s) id = Z.of_nat (size (held id (sv_reserved s))) /\ lookup0 (sv_bySession s) id <= 32 /\
             sv_bySession s !! id <> Some 0.
Proof.
  intros s. assert (Q : quota_ok s).
  { apply sv_run_ind; [intros; by apply sv_step_quota|]. by split. }
  destruct Q as [Ht Hm Hs Hsm Hp Hf]. split_and!; [done|done|]. intros id. split_and!; [apply Hs|apply Hsm|]. intros E. apply Hp in E. lia.
Qed.

(** ** What happens to a hub *)

(** One step of a hub: an operation of its own, or, where it may be seeded, the
    recovered bytes. *)
Inductive cell_next (seedable : bool) (c : hub_cell) : hub_cell -> Prop :=
| next_same : cell_next seedable c c
| next_hub (op : hub_op) : cell_next seedable c (mkCell (hub_step (hc_hub c) op) (hc_base c) (hc_stream c ++ added (hc_hub c) op))
| next_seed (offset : N) (data : bytes) (h : OutputHub) (f : OutputFrame) :
    seedable = true -> data <> [] -> PublishRecovered (hc_hub c) (Z.of_N offset) data true = (h, Some f) ->
    cell_next seedable c (mkCell h (Z.of_N offset) data).

Lemma next_quiet b op c : added (hc_hub c) op = [] -> cell_next b c (mkCell (hub_step (hc_hub c) op) (hc_base c) (hc_stream c)).
Proof. intros E. pose proof (next_hub b c op) as H. by rewrite E, app_nil_r in H. Qed.

(** The operation may seed the hub. *)
Definition seeds (n : nat) (op : sv_op) : bool :=
  match op with SOutput m _ _ gap _ => (m =? n)%nat && gap | _ => false end.

Lemma supervisor_output_next offset data gap current c :
  cell_next gap c (fst (supervisor_output (Z.of_N offset) data gap current c)).
Proof.
  unfold supervisor_output. destruct (Nat.eqb_spec (length data) 0) as [|Hd]; [apply next_same|]. destruct (_ || _); [apply next_same|].
  destruct (Bounds (hc_hub c)) as [start end_]. destruct (_ && negb _); [apply next_same|].
  destruct gap.
  - destruct (PublishRecovered _ _ _ _) as [h [f|]] eqn:E; cbn [fst]; [eapply next_seed; [done|by intros ->|done]|].
    unfold PublishRecovered in E. destruct (_ || _); [|done]. injection E as <-. destruct c. apply next_same.
  - pose proof (next_hub false c (OpPublish data)) as H. cbn [hub_step added] in H.
    destruct (Publish (hc_hub c) data) as [h frame]. cbn [fst] in *. destruct (h_closed _); [by rewrite app_nil_r in H|done].
Qed.

Definition hubs_fresh (s : serving) : Prop := forall n, (sv_nextHub s <= n)%nat -> sv_hubs s !! n = None.

Lemma on_hub_lookup n f s m :
  sv_hubs (on_hub n f s) !! m = (fun c => if bool_decide (m = n) then mkCell (f (hc_hub c)) (hc_base c) (hc_stream c) else c) <$> sv_hubs s !! m.
Proof.
  unfold on_hub. cbn [set_hubs sv_hubs]. case_bool_decide as Hc; [subst m; apply lookup_alter_eq|].
  rewrite lookup_alter_ne by done. by destruct (sv_hubs s !! m).
Qed.

Lemma on_hub_next b n op s m c : sv_hubs s !! m = Some c -> added (hc_hub c) op = [] ->
  exists c', sv_hubs (on_hub n (fun h => hub_step h op) s) !! m = Some c' /\ cell_next b c c'.
Proof.
  intros Hc Ha. eexists. rewrite on_hub_lookup, Hc. cbn. split; [done|]. case_bool_decide; [by apply next_quiet|apply next_same].
Qed.

(** The operations that touch hubs. *)
Definition of_hubs (op : sv_op) : bool :=
  match op with SActivate _ | SCloseHub _ | SOutput _ _ _ _ _ | SSubscribe _ _ _ | SCancel _ _ | SReceive _ _ => true | _ => false end.

Lemma quiet_hubs op s : of_hubs op = false -> sv_hubs (sv_step op s) = sv_hubs s /\ sv_nextHub (sv_step op s) = sv_nextHub s.
Proof.
  destruct op as [i|i|i|i|m|m o d g c|m o q|m id|m id|id|r]; try done; intros _; cbn [sv_step].
  - unfold deactivate_section. destruct (sv_outputs s !! _) as [x|]; [|done]. by case_bool_decide.
  - unfold forget_sequence. destruct (sv_sequences s !! _) as [x|]; [|done]. by case_bool_decide.
  - unfold reserveOutputSubscription. by destruct (_ || _).
  - unfold releaseQuota. by destruct (sv_reserved s !! r).
Qed.

Lemma hub_step_next op s n c : hubs_fresh s -> sv_hubs s !! n = Some c ->
  exists c', sv_hubs (sv_step op s) !! n = Some c' /\ cell_next (seeds n op) c c'.
Proof.
  intros Hf Hc. destruct (of_hubs op) eqn:E; [|rewrite (proj1 (quiet_hubs op s E)); exists c; split; [done|apply next_same]].
  destruct op as [i|i|i|i|m|m o d g cu|m o q|m id|m id|id|r]; try done; clear E; cbn [sv_step seeds].
  - exists c. cbn [activate_section fst sv_hubs]. split; [|apply next_same]. rewrite lookup_insert_ne; [done|].
    intros E. rewrite Hf in Hc by lia. done.
  - by apply (on_hub_next _ m OutputHub.OpClose).
  - cbn [set_hubs sv_hubs]. destruct (decide (m = n)) as [->|Hne].
    + rewrite lookup_alter_eq, Hc, Nat.eqb_refl. eexists. split; [done|]. apply supervisor_output_next.
    + rewrite lookup_alter_ne by done. exists c. split; [done|apply next_same].
  - by apply (on_hub_next _ m (OpSubscribe o q)).
  - by apply (on_hub_next _ m (OpCancel id)).
  - by apply (on_hub_next _ m (OpReceive id)).
Qed.

(** ** Every hub holds the end of what it accepted *)

Definition cell_end (c : hub_cell) : Z := hc_base c + Z.of_nat (length (hc_stream c)).

Definition cell_ok (c : hub_cell) : Prop := tracks (hc_base c) (hc_stream c) (hc_hub c).

(** *** Without a bound on the offsets *)

Lemma publish_chunk_size h p : ring_wf h ->
  ring_wf (publish_chunk h p) /\ (h_size h <= h_size (publish_chunk h p))%nat /\ (p <> [] -> (0 < h_size (publish_chunk h p))%nat).
Proof.
  intros Hw. unfold publish_chunk. set (h1 := set_end h _). assert (Hw1 : ring_wf h1) by (destruct Hw; by split).
  pose proof (appendLocked_wf h1 p Hw1) as [? ? ? ?]. pose proof (appendLocked_size h1 p Hw1) as Hs.
  cbn [broadcast h_size]. rewrite Hs. change (h_size h1) with (h_size h). change (h_capacity h1) with (h_capacity h).
  destruct Hw as [? ? ? ?]. split_and!; [by split|lia|]. intros Hp. destruct p; [done|cbn [length]; lia].
Qed.

Lemma publish_loop_size fuel h p : ring_wf h -> (length p <= fuel)%nat ->
  ring_wf (publish_loop fuel h p) /\ (h_size h <= h_size (publish_loop fuel h p))%nat /\ (p <> [] -> (0 < h_size (publish_loop fuel h p))%nat).
Proof.
  revert h p; induction fuel as [|fuel IH]; intros h p Hw Hf; [by destruct p; [|cbn in Hf; lia]|].
  cbn [publish_loop]. destruct p as [|x p]; [done|].
  assert (Hm : (1 <= maxOutputFrameBytes)%nat) by (by apply to_nat_pos).
  destruct (publish_chunk_size h (take maxOutputFrameBytes (x :: p)) Hw) as (Hw' & Hs & Hp).
  destruct (IH _ (drop maxOutputFrameBytes (x :: p)) Hw') as (Hw'' & Hs' & _).
  { rewrite length_drop. cbn [length] in *. lia. }
  split_and!; [done|lia|]. intros _. enough (0 < h_size (publish_chunk h (take maxOutputFrameBytes (x :: p))))%nat by lia.
  apply Hp. destruct maxOutputFrameBytes; [lia|done].
Qed.

Lemma hub_step_size h op : ring_wf h ->
  ring_wf (hub_step h op) /\ (h_size h <= h_size (hub_step h op))%nat /\ (added h op <> [] -> (0 < h_size (hub_step h op))%nat).
Proof.
  intros Hw. assert (Hsubs : forall n cl subs gone, ring_wf (mkHub (h_capacity h) (h_data h) (h_start h) (h_size h) (h_startOffset h)
    (h_endOffset h) n cl subs gone)) by (intros; destruct Hw; by split).
  destruct op as [d|o q|i|i|]; cbn [hub_step added].
  - unfold Publish. destruct (h_closed h); [done|]. by apply publish_loop_size.
  - unfold Subscribe. destruct (h_closed h); [done|]. destruct (_ <? o); [done|]. split; [apply Hsubs|done].
  - unfold Cancel. destruct (h_subscribers h !! i); [|done]. split; [apply Hsubs|done].
  - split; [apply Hsubs|done].
  - unfold Close. destruct (h_closed h); [done|]. split; [apply Hsubs|done].
Qed.

(** An empty ring has accepted nothing. *)
Record cell_wf (c : hub_cell) : Prop := mkCellWf {
  cw_ring : ring_wf (hc_hub c);
  cw_empty : h_size (hc_hub c) = 0%nat -> hc_base c = 0 /\ hc_stream c = [];
}.

(** A hub that takes a seed was empty. *)
Lemma seed_empty c offset data h f : cell_wf c -> PublishRecovered (hc_hub c) offset data true = (h, Some f) -> hc_base c = 0 /\ hc_stream c = [].
Proof.
  intros [_ He]. unfold PublishRecovered. destruct (Nat.eqb_spec (h_size (hc_hub c)) 0) as [E|E]; [auto|].
  by rewrite orb_true_r.
Qed.

Lemma cell_next_grows b c c' : cell_wf c -> cell_next b c c' -> cell_end c <= cell_end c'.
Proof.
  intros Hwf [|op|offset data h f _ _ E]; unfold cell_end; cbn [hc_base hc_stream]; [lia|rewrite length_app; lia|].
  destruct (seed_empty _ _ _ _ _ Hwf E) as [-> ->]. cbn [length]. lia.
Qed.

Lemma cell_next_ok b c c' : cell_wf c -> cell_end c' < 2 ^ 64 -> cell_next b c c' -> cell_ok c -> cell_ok c'.
Proof.
  intros Hwf Hov Hn Hok. destruct Hn as [|op|offset data h f _ _ E]; [done|by apply hub_step_tracks|].
  destruct (seed_empty _ _ _ _ _ Hwf E) as [Hb Hs]. unfold cell_ok in *. cbn [hc_hub hc_base hc_stream] in *. rewrite Hb, Hs in Hok.
  pose proof (PublishRecovered_tracks (hc_hub c) (Z.of_N offset) data true Hok ltac:(lia) Hov) as H. rewrite E in H. by apply H.
Qed.

Lemma appendLocked_nonempty h p : ring_wf h -> p <> [] -> (0 < h_size (appendLocked h p))%nat.
Proof. intros Hw Hp. rewrite appendLocked_size by done. destruct Hw, p; [done|cbn [length]; lia]. Qed.

Lemma cell_next_wf b c c' : cell_next b c c' -> cell_wf c -> cell_wf c'.
Proof.
  intros Hn [Hw He]. destruct Hn as [|op|offset data h f _ Hd E]; [done| |].
  - destruct (hub_step_size (hc_hub c) op Hw) as (Hw' & Hs & Ha). split; cbn [hc_hub hc_base hc_stream]; [done|].
    intros E. destruct He as [Hb Hst]; [lia|]. split; [done|]. rewrite Hst. cbn [app].
    destruct (added (hc_hub c) op); [done|]. specialize (Ha ltac:(done)). lia.
  - revert E. unfold PublishRecovered. destruct (_ || _); [done|]. intros [= <- _]. set (h1 := mkHub _ _ _ _ _ _ _ _ _ _).
    assert (Hw1 : ring_wf h1) by (destruct Hw; by split). set (data' := if (_ <? _)%nat then _ else data).
    assert (Hd' : data' <> []).
    { subst data'. destruct (Nat.ltb_spec (h_capacity (hc_hub c)) (length data)) as [Hl|]; [|done]. intros E. apply (f_equal length) in E.
      rewrite length_drop in E. cbn [length] in E. destruct Hw. lia. }
    split; cbn [hc_hub hc_base hc_stream]; [by apply appendLocked_wf|]. pose proof (appendLocked_nonempty h1 data' Hw1 Hd'). lia.
Qed.

(** *** Runs *)

Record hubs_ok (s : serving) : Prop := mkHubsOk {
  ho_fresh : hubs_fresh s;
  ho_wf : forall n c, sv_hubs s !! n = Some c -> cell_wf c;
  ho_ok : forall n c, sv_hubs s !! n = Some c -> cell_end c < 2 ^ 64 -> cell_ok c;
  ho_registered : forall id g, sv_outputs s !! id = Some g -> is_Some (sv_hubs s !! go_hub g);
}.

Lemma fresh_cell_ok : cell_ok (mkCell (NewOutputHub hub_capacity) 0 []).
Proof. apply NewOutputHub_tracks. Qed.

Lemma hubs_kept op s n : hubs_fresh s -> is_Some (sv_hubs s !! n) -> is_Some (sv_hubs (sv_step op s) !! n).
Proof. intros Hf [c Hc]. destruct (hub_step_next op s n c Hf Hc) as (c' & -> & _). eauto. Qed.

Lemma hubs_born op s n c : sv_hubs s !! n = None -> sv_hubs (sv_step op s) !! n = Some c ->
  c = mkCell (NewOutputHub hub_capacity) 0 [] /\ n = sv_nextHub s /\ sv_nextHub (sv_step op s) = S n.
Proof.
  intros Hn. destruct (of_hubs op) eqn:E; [|rewrite (proj1 (quiet_hubs op s E)); congruence].
  destruct op as [i|i|i|i|m|m o d g cu|m o q|m id|m id|id|r]; try done; clear E; cbn [sv_step];
    rewrite ?on_hub_lookup, ?Hn; try done.
  - cbn [activate_section fst sv_hubs sv_nextHub]. rewrite lookup_insert_Some. intros [[<- <-]|[_ ?]]; [done|congruence].
  - cbn [set_hubs sv_hubs]. destruct (decide (m = n)) as [->|Hne]; [rewrite lookup_alter_eq, Hn|rewrite lookup_alter_ne by done; congruence]. done.
Qed.

Lemma next_hub_le op s : (sv_nextHub s <= sv_nextHub (sv_step op s))%nat.
Proof.
  destruct (of_hubs op) eqn:E; [|rewrite (proj2 (quiet_hubs op s E)); lia]. destruct op; try done; cbn; lia.
Qed.

Lemma outputs_step op s id g : sv_outputs (sv_step op s) !! id = Some g ->
  sv_outputs s !! id = Some g \/ sv_hubs (sv_step op s) !! go_hub g = Some (mkCell (NewOutputHub hub_capacity) 0 []).
Proof.
  destruct op as [i|i|i|i|m|m o d gp cu|m o q|m k|m k|k|r]; cbn [sv_step]; auto.
  - cbn [activate_section fst sv_outputs sv_hubs]. rewrite lookup_insert_Some. intros [[<- <-]|[_ ?]]; [right; apply lookup_insert_eq|auto].
  - unfold deactivate_section. destruct (sv_outputs s !! _) as [x|]; [|auto]. case_bool_decide; [|auto].
    cbn [fst set_outputs sv_outputs]. rewrite lookup_delete_Some. tauto.
  - unfold forget_sequence. destruct (sv_sequences s !! _) as [x|]; [|auto]. case_bool_decide; auto.
  - unfold reserveOutputSubscription. destruct (_ || _); auto.
  - unfold releaseQuota. destruct (sv_reserved s !! r); auto.
Qed.

Lemma sv_step_hubs op s : hubs_ok s -> hubs_ok (sv_step op s).
Proof.
  intros [Hf Hw Hok Hr].
  assert (Hback : forall n c, sv_hubs (sv_step op s) !! n = Some c ->
    (exists c0, sv_hubs s !! n = Some c0 /\ cell_next (seeds n op) c0 c) \/ c = mkCell (NewOutputHub hub_capacity) 0 []).
  { intros n c Hc. destruct (sv_hubs s !! n) as [c0|] eqn:E; [|right; by eapply hubs_born].
    left. exists c0. split; [done|]. destruct (hub_step_next op s n c0 Hf E) as (c' & Hc' & Hn). by rewrite Hc in Hc'; injection Hc' as ->. }
  split.
  - intros n Hn. destruct (sv_hubs (sv_step op s) !! n) as [c|] eqn:E; [|done]. exfalso. pose proof (next_hub_le op s).
    destruct (sv_hubs s !! n) as [c0|] eqn:E0; [rewrite Hf in E0 by lia; done|]. destruct (hubs_born op s n c E0 E) as (_ & _ & ?). lia.
  - intros n c Hc. destruct (Hback n c Hc) as [(c0 & H0 & Hn)| ->]; [by eapply cell_next_wf, Hw|].
    split; [apply fresh_cell_ok|done].
  - intros n c Hc Hov. destruct (Hback n c Hc) as [(c0 & H0 & Hn)| ->]; [|apply fresh_cell_ok].
    pose proof (cell_next_grows _ _ _ (Hw _ _ H0) Hn). eapply cell_next_ok; [by eapply Hw|done|done|]. apply (Hok n); [done|lia].
  - intros id g Hg. destruct (outputs_step op s id g Hg) as [Hg'|Hg']; [apply hubs_kept; [done|by eapply Hr]|by rewrite Hg'].
Qed.

Lemma sv_run_hubs ops s : hubs_ok s -> hubs_ok (sv_run ops s).
Proof. apply sv_run_ind, sv_step_hubs. Qed.

Lemma new_hubs_ok instanceID : hubs_ok (new_serving instanceID).
Proof. by split. Qed.

(** *** A subscription during a run *)

Lemma sv_step_sub op s n c id s0 : hubs_ok s -> sv_hubs s !! n = Some c -> seeds n op = false ->
  sub_state (hc_base c) id s0 (hc_stream c) (hc_hub c) ->
  exists c', sv_hubs (sv_step op s) !! n = Some c' /\ cell_end c <= cell_end c' /\
    (cell_end c' < 2 ^ 64 -> hc_base c' = hc_base c /\ sub_state (hc_base c) id s0 (hc_stream c') (hc_hub c')).
Proof.
  intros [Hf Hw Hok _] Hc Hs Hsub. destruct (hub_step_next op s n c Hf Hc) as (c' & Hc' & Hn). rewrite Hs in Hn.
  exists c'. split; [done|]. pose proof (cell_next_grows _ _ _ (Hw _ _ Hc) Hn) as Hg. split; [done|]. intros Hov.
  destruct Hn as [|hop|? ? ? ? ? ? ?]; [done| |done]. split; [done|]. apply hub_step_sub; [done| |done]. apply (Hok n); [done|lia].
Qed.

Lemma grows_run ops s n c : hubs_ok s -> sv_hubs s !! n = Some c ->
  exists c', sv_hubs (sv_run ops s) !! n = Some c' /\ cell_end c <= cell_end c'.
Proof.
  revert s c; induction ops as [|op ops IH]; intros s c H0 Hc; [exists c; by split|].
  destruct (hub_step_next op s n c (ho_fresh _ H0) Hc) as (c1 & Hc1 & Hn). pose proof (cell_next_grows _ _ _ (ho_wf _ H0 _ _ Hc) Hn).
  destruct (IH _ c1 (sv_step_hubs op s H0) Hc1) as (c' & Hc' & Hg'). exists c'. split; [done|lia].
Qed.

Lemma sv_run_sub ops s n c id s0 : hubs_ok s -> sv_hubs s !! n = Some c -> Forall (fun op => seeds n op = false) ops ->
  sub_state (hc_base c) id s0 (hc_stream c) (hc_hub c) ->
  exists c', sv_hubs (sv_run ops s) !! n = Some c' /\ cell_end c <= cell_end c' /\
    (cell_end c' < 2 ^ 64 -> hc_base c' = hc_base c /\ sub_state (hc_base c) id s0 (hc_stream c') (hc_hub c')).
Proof.
  intros H0 Hc Hs Hsub. revert s c H0 Hc Hsub. induction Hs as [|op ops Hop Hops IH]; intros s c H0 Hc Hsub; [exists c; split_and!; try done; lia|].
  destruct (sv_step_sub op s n c id s0 H0 Hc Hop Hsub) as (c1 & Hc1 & Hg1 & Hs1). pose proof (sv_step_hubs op s H0) as H1.
  (* without the bound the subscription's state is not needed *)
  destruct (decide (cell_end c1 < 2 ^ 64)) as [Hov|Hov].
  - destruct (Hs1 Hov) as [Hb Hsub1]. rewrite <- Hb in Hsub1. destruct (IH _ c1 H1 Hc1 Hsub1) as (c' & Hc' & Hg' & Hs').
    exists c'. split; [done|]. split; [lia|]. intros Hov'. by rewrite <- Hb; apply Hs'.
  - destruct (grows_run ops _ n c1 H1 Hc1) as (c' & Hc' & Hg'). exists c'. split; [done|]. split; [lia|]. lia.
Qed.

(** ** The events of a subscription *)

(** Writing a list of events: the connection takes a prefix. *)
Definition write_all (es : list OutputEvent) (w : wire) : wire * bool :=
  (mkWire (wr_events w ++ take (wr_left w) es) (wr_left w - length es), (length es <=? wr_left w)%nat).

Lemma write_all_nil w : write_all [] w = (w, true).
Proof. unfold write_all. rewrite take_nil, app_nil_r, Nat.sub_0_r. by destruct w. Qed.

Lemma wire_write_all e w : wire_write e w = write_all [e] w.
Proof.
  unfold wire_write, write_all. destruct w as [es [|k]]; cbn [wr_left wr_events take length Nat.sub Nat.leb]; [by rewrite app_nil_r|].
  by rewrite take_nil, Nat.sub_0_r.
Qed.

Lemma write_all_app es1 es2 w :
  write_all (es1 ++ es2) w = (if snd (write_all es1 w) then write_all es2 (fst (write_all es1 w)) else write_all es1 w).
Proof.
  unfold write_all. cbn [snd fst wr_left wr_events]. rewrite length_app. destruct (Nat.leb_spec (length es1) (wr_left w)) as [H|H].
  - rewrite take_app, (take_ge es1) by lia. f_equal; [f_equal; [by rewrite app_assoc|lia]|].
    destruct (Nat.leb_spec (length es1 + length es2) (wr_left w)), (Nat.leb_spec (length es2) (wr_left w - length es1)); done || lia.
  - rewrite take_app_le by lia. rewrite (proj2 (Nat.leb_gt (length es1 + length es2) _)) by lia. do 2 f_equal. lia.
Qed.

(** The events of a frame. *)
Fixpoint chunk_events (fuel : nat) (p : preparedOutputSubscription) (frame : OutputFrame) (start : nat) : list OutputEvent :=
  match fuel with
  | O => []
  | S fuel' =>
      if (length (fr_Data frame) <=? start)%nat then []
      else output_event p "output" (chunk_frame frame start) "" :: chunk_events fuel' p frame (start + maxChunk)
  end.

Definition frame_events (p : preparedOutputSubscription) (frame : OutputFrame) : list OutputEvent :=
  chunk_events (length (fr_Data frame)) p frame 0.

Lemma write_chunks_all fuel p frame start w : write_chunks fuel p frame start w = write_all (chunk_events fuel p frame start) w.
Proof.
  revert start w; induction fuel as [|fuel IH]; intros start w; cbn [write_chunks chunk_events]; [by rewrite write_all_nil|].
  destruct (_ <=? _)%nat; [by rewrite write_all_nil|]. rewrite wire_write_all.
  match goal with |- _ = write_all (?e :: ?l) w => change (write_all (e :: l) w) with (write_all ([e] ++ l) w) end. rewrite write_all_app.
  destruct (write_all [_] w) as [w1 [|]]; cbn [fst snd]; [apply IH|done].
Qed.

Lemma writeOutputEvents_all p frame w : writeOutputEvents p frame w = write_all (frame_events p frame) w.
Proof.
  unfold writeOutputEvents, frame_events. destruct (Nat.eqb_spec (length (fr_Data frame)) 0) as [->|]; [by rewrite write_all_nil|apply write_chunks_all].
Qed.

Definition data_events (p : preparedOutputSubscription) (frames : list OutputFrame) : list OutputEvent := concat (map (frame_events p) frames).

Definition last_end (frames : list OutputFrame) (next : Z) : Z := default next (frame_end <$> last frames).

Lemma last_end_cons f frames next : last_end (f :: frames) next = last_end frames (frame_end f).
Proof. unfold last_end. rewrite last_cons. by destruct (last frames). Qed.

Lemma write_frames_all p frames next w :
  write_frames p frames next w =
  (fst (write_all (data_events p frames) w), if snd (write_all (data_events p frames) w) then Some (last_end frames next) else None).
Proof.
  unfold data_events. revert next w; induction frames as [|f frames IH]; intros next w; cbn [write_frames map concat]; [by rewrite write_all_nil|].
  rewrite writeOutputEvents_all, write_all_app. destruct (write_all (frame_events p f) w) as [w1 [|]]; cbn [fst snd]; [|done].
  rewrite IH. f_equal. destruct (snd _); [|done]. by rewrite last_end_cons.
Qed.

Definition end_reason (nextOffset finalEnd : Z) : string :=
  if nextOffset <? finalEnd then "subscriber_lag" else "runtime_disconnected".

(** All events of a subscription. *)
Definition all_events (p : preparedOutputSubscription) (frames : list OutputFrame) (finalEnd : Z) : list OutputEvent :=
  let next := last_end (po_replay p :: frames) 0 in
  data_events p (po_replay p :: frames) ++ [output_event p "output_end" (mkFrame next [] false) (end_reason next finalEnd)].

Lemma stream_writes_all p frames finalEnd w :
  streamOutputSubscription p frames finalEnd w = fst (write_all (all_events p frames finalEnd) w).
Proof.
  unfold streamOutputSubscription, all_events, data_events. cbn [map concat]. rewrite writeOutputEvents_all, <- app_assoc, write_all_app.
  destruct (write_all (frame_events p (po_replay p)) w) as [w1 [|]]; cbn [fst snd]; [|done].
  rewrite write_frames_all, write_all_app. unfold data_events.
  destruct (write_all (concat _) w1) as [w2 [|]]; cbn [fst snd]; [|done]. rewrite wire_write_all.
  by rewrite last_end_cons.
Qed.

Lemma payload_app fs gs : payload (fs ++ gs) = payload fs ++ payload gs.
Proof. unfold payload. by rewrite map_app, concat_app. Qed.

Lemma contiguous_app pos fs gs :
  contiguous pos (fs ++ gs) <-> contiguous pos fs /\ contiguous (pos + Z.of_nat (length (payload fs))) gs.
Proof.
  revert pos; induction fs as [|f fs IH]; intros pos; cbn [app contiguous]; [cbn; rewrite Z.add_0_r; tauto|].
  rewrite IH. unfold payload. cbn [map concat]. rewrite length_app, Nat2Z.inj_add, Z.add_assoc. tauto.
Qed.

(** Events that carry the bytes [data] from [pos] on, none of them empty or larger
    than 64 KiB. *)
Record carries (p : preparedOutputSubscription) (pos : Z) (data : bytes) (es : list OutputEvent) : Prop := mkCarries {
  ca_contiguous : contiguous pos (map oe_Frame es);
  ca_payload : payload (map oe_Frame es) = data;
  ca_size : Forall (fun e => (0 < length (fr_Data (oe_Frame e)) <= maxChunk)%nat) es;
  ca_events : Forall (fun e => e = output_event p "output" (oe_Frame e) "") es;
}.

Lemma carries_app p pos d1 d2 es1 es2 :
  carries p pos d1 es1 -> carries p (pos + Z.of_nat (length d1)) d2 es2 -> carries p pos (d1 ++ d2) (es1 ++ es2).
Proof.
  intros [C1 P1 S1 E1] [C2 P2 S2 E2]. split; rewrite ?map_app.
  - apply contiguous_app. by rewrite P1.
  - by rewrite payload_app, P1, P2.
  - by apply Forall_app.
  - by apply Forall_app.
Qed.

Lemma maxChunk_pos : (0 < maxChunk)%nat.
Proof. by apply to_nat_pos. Qed.

Lemma chunk_events_carry fuel p frame start :
  0 <= fr_Offset frame -> fr_Offset frame + Z.of_nat (length (fr_Data frame)) < 2 ^ 64 ->
  (length (fr_Data frame) - start <= fuel)%nat ->
  carries p (fr_Offset frame + Z.of_nat start) (drop start (fr_Data frame)) (chunk_events fuel p frame start).
Proof.
  intros H0 Hov. pose proof maxChunk_pos as Hm. revert start; induction fuel as [|fuel IH]; intros start Hf; cbn [chunk_events].
  { rewrite drop_ge by lia. by repeat split. }
  destruct (Nat.leb_spec (length (fr_Data frame)) start) as [Hle|Hgt]; [rewrite drop_ge by done; by repeat split|].
  specialize (IH (start + maxChunk)%nat ltac:(lia)). set (end_ := Nat.min (start + maxChunk) (length (fr_Data frame))).
  set (chunk := take (end_ - start) (drop start (fr_Data frame))).
  assert (Hlen : length chunk = (end_ - start)%nat) by (unfold chunk; rewrite length_take, length_drop; lia).
  assert (Hsplit : drop start (fr_Data frame) = chunk ++ drop (start + maxChunk) (fr_Data frame)).
  { rewrite <- (take_drop (end_ - start) (drop start (fr_Data frame))) at 1. fold chunk. f_equal. rewrite drop_drop.
    destruct (decide (start + maxChunk <= length (fr_Data frame))%nat); [f_equal; lia|]. rewrite !drop_ge by lia. done. }
  assert (Hone : carries p (fr_Offset frame + Z.of_nat start) chunk [output_event p "output" (chunk_frame frame start) ""]).
  { split; [|unfold payload; cbn; by rewrite app_nil_r|constructor; [cbn; fold end_; fold chunk; lia|done]|by constructor].
    cbn [map contiguous oe_Frame output_event chunk_frame fr_Offset]. by rewrite u64_small by lia. }
  rewrite Hsplit. apply (carries_app _ _ _ _ _ _ Hone). destruct (decide (end_ = (start + maxChunk)%nat)) as [He|He].
  - rewrite Hlen, He. by replace (fr_Offset frame + Z.of_nat start + Z.of_nat (start + maxChunk - start)) with (fr_Offset frame + Z.of_nat (start + maxChunk)) by lia.
  - rewrite (drop_ge (fr_Data frame)) by lia. destruct fuel; cbn [chunk_events]; [by repeat split|].
    rewrite (proj2 (Nat.leb_le _ _)) by lia. by repeat split.
Qed.

Lemma data_events_carry p pos frames :
  0 <= pos -> contiguous pos frames -> pos + Z.of_nat (length (payload frames)) < 2 ^ 64 ->
  carries p pos (payload frames) (data_events p frames).
Proof.
  unfold data_events. revert pos; induction frames as [|f frames IH]; intros pos H0 Hc Hov; [by repeat split|].
  destruct Hc as [Hf Hc]. unfold payload in *. cbn [map concat] in *. rewrite length_app in Hov. apply carries_app.
  - pose proof (chunk_events_carry (length (fr_Data f)) p f 0) as H. rewrite Z.add_0_r, drop_0, Hf in H. apply H; lia.
  - apply IH; [lia|done|lia].
Qed.

Lemma last_end_payload pos frames next : frames <> [] -> 0 <= pos -> contiguous pos frames ->
  pos + Z.of_nat (length (payload frames)) < 2 ^ 64 -> last_end frames next = pos + Z.of_nat (length (payload frames)).
Proof.
  intros Hne H0 Hc Hov. revert pos next H0 Hc Hov. induction frames as [|f frames IH]; intros pos next H0 Hc Hov; [done|].
  destruct Hc as [Hf Hc]. rewrite last_end_cons. unfold payload in *. cbn [map concat] in *. rewrite length_app in *. destruct frames as [|g frames].
  - unfold last_end, frame_end. cbn. rewrite Hf, u64_small by lia. lia.
  - rewrite (IH ltac:(done) (pos + Z.of_nat (length (fr_Data f)))); [lia|lia|done|lia].
Qed.

(** What a subscription whose channel gave [frames] writes. *)
Lemma stream_carries p frames finalEnd rest w :
  let pos := fr_Offset (po_replay p) in
  0 <= pos -> contiguous pos (po_replay p :: frames) -> finalEnd < 2 ^ 64 ->
  finalEnd = pos + Z.of_nat (length (payload (po_replay p :: frames) ++ rest)) ->
  exists es, carries p pos (payload (po_replay p :: frames)) es /\
    wr_events (streamOutputSubscription p frames finalEnd w) = wr_events w ++ take (wr_left w)
      (es ++ [output_event p "output_end" (mkFrame (pos + Z.of_nat (length (payload (po_replay p :: frames)))) [] false)
                (if bool_decide (rest = []) then "runtime_disconnected" else "subscriber_lag")]).
Proof.
  intros pos H0 Hc Hov He. rewrite length_app in He. exists (data_events p (po_replay p :: frames)).
  split; [apply data_events_carry; [done|done|lia]|]. rewrite stream_writes_all. cbn [write_all fst wr_events]. unfold all_events.
  rewrite (last_end_payload pos) by (done || lia). unfold end_reason. do 5 f_equal. case_bool_decide as Hr.
  - subst rest. by rewrite (proj2 (Z.ltb_ge _ _)) by (cbn [length] in *; lia).
  - rewrite (proj2 (Z.ltb_lt _ _)); [done|]. destruct rest; [done|cbn [length] in *; lia].
Qed.

(** ** Live sessions *)

Section Live.
Context `{UC : UnicodeCase} `{UF : UnicodeFormat}.

Lemma hub_at_cell n s c : sv_hubs s !! n = Some c -> hub_at n s = hc_hub c.
Proof. unfold hub_at. by intros ->. Qed.

(** A subscription to a live session: its replay and channel come from the hub that
    was the session's when the request came, at some later moment. *)
Lemma prepare_live uuid lease now ttl d disk mw request s s1 removed p n :
  hubs_ok s -> prepareOutputSubscription uuid lease now ttl d disk mw request s = (s1, removed, Ok p) -> po_hub p = Shared n ->
  exists s' c offset h1,
    hubs_ok s' /\ sv_hubs s' !! n = Some c /\ Subscribe (hc_hub c) offset 32 = (h1, Ok (po_replay p, po_stream p)) /\
    s1 = sv_run (mw_end mw) (sv_step (SSubscribe n offset 32) s') /\ sr_Gap (po_metadata p) = fr_Gap (po_replay p) /\
    forall sub, or_Body request = Some sub -> su_TailBytes sub = 0 -> offset = su_Offset sub.
Proof.
  intros H0. unfold prepareOutputSubscription. destruct (ParseSessionID _) as [sid|]; [|done].
  destruct (or_RuntimeGeneration request) as [g|]; [|done]. destruct (or_Body request) as [sub|]; [|done].
  destruct (_ || _); [done|]. destruct (sv_outputs s !! sid) as [cur|] eqn:Ec.
  2:{ unfold prepareRetainedOutputSubscription. destruct (retained_readable _ _ _); [done|]. destruct (ReadRetainedOutput _ _ _ _ _ _ _); [|done].
      destruct (_ <? _); [done|]. destruct (reserveOutputSubscription _ _) as [s2 [r|]]; [|done]. destruct (PublishRecovered _ _ _ _) as [h [f|]]; [|done].
      destruct (Subscribe _ _ _) as [h2 [[rp id]|]]; [|done]. by intros [= _ _ <-]. }
  destruct (negb _); [done|]. pose proof (ho_registered _ H0 _ _ Ec) as Hreg.
  destruct (reserveOutputSubscription sid (sv_run (mw_reserve mw) s)) as [s2 [r|]] eqn:Er; [|done].
  assert (E2 : s2 = sv_run (mw_reserve mw ++ [SReserve sid]) s) by (rewrite sv_run_app; cbn; by rewrite Er).
  destruct (Bounds _) as [start end_]. set (offset := if 0 <? su_TailBytes sub then _ else _).
  set (s' := sv_run (mw_subscribe mw) (sv_run (mw_bounds mw) s2)).
  assert (Hs' : hubs_ok s') by (subst s' s2; by repeat apply sv_run_hubs).
  assert (Hc : is_Some (sv_hubs s' !! go_hub cur)).
  { subst s' s2. rewrite <- !sv_run_app. revert Hreg. generalize ((mw_reserve mw ++ [SReserve sid]) ++ mw_bounds mw ++ mw_subscribe mw).
    intros ops [c Hc]. destruct (grows_run ops s _ c H0 Hc) as (c' & -> & _). eauto. }
  destruct Hc as [c Hc]. rewrite (hub_at_cell _ _ _ Hc). destruct (Subscribe (hc_hub c) offset 32) as [h1 [[rp id]|]] eqn:Es; cbn [snd]; [|done].
  intros [= <- <- <-]. intros [= <-]. exists s', c, offset, h1. split_and!; try done. intros sub' [= <-] Ht. subst offset. by rewrite Ht.
Qed.

Lemma subscribed_cell n offset s c h1 x : sv_hubs s !! n = Some c -> Subscribe (hc_hub c) offset 32 = (h1, x) ->
  sv_hubs (sv_step (SSubscribe n offset 32) s) !! n = Some (mkCell h1 (hc_base c) (hc_stream c)).
Proof. intros Hc Hs. cbn [sv_step]. rewrite on_hub_lookup, Hc. cbn. by rewrite bool_decide_true, Hs. Qed.

(** C28. As long as the hub of a live session is not seeded with recovered output after
    the client subscribed, the client gets the session's output without holes: after any
    other operations of other goroutines, during the call and after it, the events it
    is written carry consecutive bytes of the hub's stream from the replay's offset
    on, in pieces of at most 64 KiB, as far as its connection takes them; the last
    event names where they end and says [subscriber_lag] exactly when bytes are
    missing.  The replay starts where the client asked, or later with the gap flag.
    The stream has fewer than 2^64 bytes, and the subscription has ended.  After a
    late seed bytes are skipped without notice, see [recovered_seed_missed]. *)
Theorem live_subscriber_sees_stream (instanceID uuid lease : string) (now ttl : Z) (d : db) (disk : disk_answer) (mw : meanwhile)
  (request : output_request) (before after : list sv_op) (s1 : serving) (p : preparedOutputSubscription) (n : nat)
  (c : hub_cell) (ch : channel) (left : nat) :
  prepareOutputSubscription uuid lease now ttl d disk mw request (sv_run before (new_serving instanceID)) = (s1, false, Ok p) ->
  po_hub p = Shared n -> Forall (fun op => seeds n op = false) (mw_end mw ++ after) ->
  sv_hubs (sv_run after s1) !! n = Some c -> cell_end c < 2 ^ 64 ->
  h_subscribers (hc_hub c) !! po_stream p = None -> h_gone (hc_hub c) !! po_stream p = Some ch ->
  let pos := fr_Offset (po_replay p) in
  exists es delivered rest,
    carries p pos delivered es /\
    0 <= hc_base c <= pos /\ delivered ++ rest = drop (Z.to_nat (pos - hc_base c)) (hc_stream c) /\
    wr_events (streamOutputSubscription p (ch_sent ch) (snd (Bounds (hc_hub c))) (mkWire [] left)) =
      take left (es ++ [output_event p "output_end" (mkFrame (pos + Z.of_nat (length delivered)) [] false)
                          (if bool_decide (rest = []) then "runtime_disconnected" else "subscriber_lag")]) /\
    forall sub, or_Body request = Some sub -> su_TailBytes sub = 0 ->
      pos = su_Offset sub \/ su_Offset sub < pos /\ sr_Gap (po_metadata p) = true.
Proof.
  intros Hp Hn Hseed Hc Hov Hsubs Hgone pos. pose proof (sv_run_hubs before _ (new_hubs_ok instanceID)) as H0.
  destruct (prepare_live _ _ _ _ _ _ _ _ _ _ _ _ _ H0 Hp Hn) as (s' & c0 & offset & h1 & Hs' & Hc0 & Hsub & -> & Hgap & Hoff).
  rewrite <- sv_run_app in Hc. pose proof (subscribed_cell n offset s' c0 h1 _ Hc0 Hsub) as Hc1.
  pose proof (sv_step_hubs (SSubscribe n offset 32) s' Hs') as Hs1. set (s1 := sv_step _ s') in *.
  destruct (grows_run (mw_end mw ++ after) _ n _ Hs1 Hc1) as (c' & Hc' & Hg). assert (c' = c) as -> by congruence. unfold cell_end in Hg. cbn [hc_base hc_stream] in Hg.
  assert (Hok0 : cell_ok c0) by (apply (ho_ok _ Hs' n); [done|unfold cell_end in *; lia]).
  destruct (Subscribe_state _ _ _ _ _ _ _ _ Hok0 Hsub) as (_ & Hsub1 & Hpos & Hdata & Hstart & Hflag). fold pos in Hpos, Hdata, Hstart.
  destruct (sv_run_sub (mw_end mw ++ after) s1 n _ (po_stream p) (hc_stream c0) Hs1 Hc1 Hseed Hsub1) as (c'' & Hc'' & _ & Hfin). assert (c'' = c) as -> by congruence.
  destruct (Hfin Hov) as [Hb [_ Hst]]. cbn [hc_base] in Hb, Hst. pose proof (tr_base _ _ _ Hok0) as Hb0.
  destruct Hst as [(x & Hx & _)|(_ & x & rest & Hx & _ & Hcont & Hstream)]; [congruence|]. assert (x = ch) as -> by congruence.
  pose proof (ho_ok _ (sv_run_hubs (mw_end mw ++ after) _ Hs1) n c Hc Hov) as Hok. unfold cell_end in Hov.
  assert (Hlen : pos + Z.of_nat (length (fr_Data (po_replay p))) = hc_base c0 + Z.of_nat (length (hc_stream c0))).
  { rewrite Hdata, length_drop. lia. }
  assert (Htail : payload (po_replay p :: ch_sent ch) ++ rest = drop (Z.to_nat (pos - hc_base c)) (hc_stream c)).
  { rewrite Hstream, Hb, drop_app_le by lia. rewrite <- Hdata. unfold payload. cbn [map concat]. by rewrite <- app_assoc. }
  assert (Hend : snd (Bounds (hc_hub c)) = pos + Z.of_nat (length (payload (po_replay p :: ch_sent ch) ++ rest))).
  { cbn [Bounds snd]. rewrite (tr_end _ _ _ Hok), Htail, length_drop, Hb. lia. }
  destruct (stream_carries p (ch_sent ch) (snd (Bounds (hc_hub c))) rest (mkWire [] left)) as (es & Hca & Hw).
  { fold pos. lia. }
  { cbn [contiguous]. split; [done|]. fold pos. by rewrite Hlen. }
  { cbn [Bounds snd]. rewrite (tr_end _ _ _ Hok). lia. }
  { done. }
  exists es, (payload (po_replay p :: ch_sent ch)), rest. split_and!; try done; [lia..|]. intros sub Hbody Ht.
  rewrite <- (Hoff sub Hbody Ht), Hgap, Hflag, Hstart. destruct (Z.ltb_spec offset (hc_base c0 + Z.of_nat (length (hc_stream c0) - h_capacity (hc_hub c0)))); lia.
Qed.

End Live.

(** ** Stopped sessions *)

Lemma list_ascii_drop n s : String.list_ascii_of_string (str_drop n s) = drop n (String.list_ascii_of_string s).
Proof. revert s; induction n as [|n IH]; intros s; [done|]. destruct s; [done|]. apply IH. Qed.

Lemma list_ascii_app s t :
  String.list_ascii_of_string (s +:+ t) = String.list_ascii_of_string s ++ String.list_ascii_of_string t.
Proof. induction s as [|c s IH]; [done|]. cbn. by rewrite <- IH. Qed.

Lemma list_ascii_length s : Z.of_nat (length (String.list_ascii_of_string s)) = zlen s.
Proof. unfold zlen. induction s as [|x s IH]; [done|]. cbn [String.list_ascii_of_string length slen]. lia. Qed.

Lemma tail_offset_max start end_ tail : 0 <= start -> tail_offset start end_ tail = Z.max start (end_ - tail).
Proof. intros H. unfold tail_offset. destruct (Z.ltb_spec tail end_), (Z.ltb_spec start (end_ - tail)); cbn [andb]; lia. Qed.

Lemma NewOutputHub_capacity capacity : 0 < capacity -> h_capacity (NewOutputHub capacity) = Z.to_nat capacity.
Proof. intros H. unfold NewOutputHub. by rewrite (proj2 (Z.leb_gt _ _)) by lia. Qed.

Lemma PublishRecovered_capacity h offset data gap h' f : PublishRecovered h offset data gap = (h', Some f) -> h_capacity h' = h_capacity h.
Proof.
  unfold PublishRecovered. destruct (_ || _); [done|]. intros [= <- _]. set (h1 := mkHub _ _ _ _ _ _ _ _ _ _).
  by rewrite (proj1 (appendLocked_fields h1 _)).
Qed.

Lemma close_bounds h : Bounds (Close h) = Bounds h.
Proof. unfold Close. by destruct (h_closed h). Qed.

(** The channel of a subscription after which the hub is closed at once. *)
Lemma closed_channel base s h offset h1 replay id :
  tracks base s h -> Subscribe h offset 1 = (h1, Ok (replay, id)) -> base + Z.of_nat (length s) < 2 ^ 64 ->
  exists ch, h_gone (Close h1) !! id = Some ch /\ contiguous (base + Z.of_nat (length s)) (ch_sent ch) /\ payload (ch_sent ch) = [].
Proof.
  intros Ht Hs Hov. destruct (Subscribe_state _ _ _ _ _ _ _ _ Ht Hs) as (Ht1 & Hsub & _).
  assert (Hopen : h_closed h1 = false).
  { unfold Subscribe in Hs. destruct (h_closed h) eqn:E; [done|]. destruct (_ <? offset); [done|]. injection Hs as <- _. done. }
  pose proof (hub_step_sub base id s s h1 OutputHub.OpClose) as H. cbn [added hub_step] in H. rewrite app_nil_r in H.
  destruct (H Hov Ht1 Hsub) as [_ [(c & Hc & _)|(_ & ch & rest & Hg & _ & Hcont & E)]].
  - exfalso. unfold Close in Hc. rewrite Hopen in Hc. done.
  - exists ch. split_and!; [done|done|]. apply (f_equal length) in E. rewrite !length_app in E. by destruct (payload _); [|cbn in E; lia].
Qed.

Section Stopped.
Context `{UC : UnicodeCase} `{UF : UnicodeFormat}.

(** What is served is what the file has taken. *)
Lemma stopped_stream_kept (sessionID uuid lease : string) (generation opened now ttl size : Z) (ans : open_answer) (sh : shelf)
  (o : RetainedOutput) (ops1 ops2 ops3 : list out_op) (readable removed : bool) (d : db) (subscription : OutputSubscribe)
  (s s1 : serving) (p : preparedOutputSubscription) (left : nat) :
  OpenRetainedOutput sessionID generation opened ans (mkShelf None None) = (sh, Ok o) ->
  let k1 := out_run ops1 (mkKeeping sh o "") in
  let k2 := out_run ops2 k1 in
  let k3 := out_run ops3 k2 in
  zlen (k_stream k3) < 2 ^ 64 ->
  prepareRetainedOutputSubscription uuid lease now ttl d (mkDisk readable (k_shelf k1) (k_shelf k2) (k_shelf k3) size)
    sessionID generation subscription s = (s1, removed, Ok p) ->
  let stream := String.list_ascii_of_string (k_stream k3) in
  let total := Z.of_nat (length stream) in
  let pos := fr_Offset (po_replay p) in
  retained_readable sessionID generation d = None /\
  exists oldest es h ch,
    0 <= oldest /\ oldest <= total <= oldest + RetainedOutputCapacity /\
    let asked := if 0 <? su_TailBytes subscription then Z.max oldest (total - su_TailBytes subscription) else su_Offset subscription in
    pos = Z.max asked oldest /\ sr_Gap (po_metadata p) = (asked <? oldest) /\
    carries p pos (drop (Z.to_nat pos) stream) es /\
    po_hub p = Private h /\ h_gone h !! po_stream p = Some ch /\
    wr_events (streamOutputSubscription p (ch_sent ch) (snd (Bounds h)) (mkWire [] left)) =
      take left (es ++ [output_event p "output_end" (mkFrame total [] false) "runtime_disconnected"]).
Proof.
  intros Hopen k1 k2 k3 Hs. unfold prepareRetainedOutputSubscription. destruct (retained_readable _ _ _) eqn:Er; [done|].
  cbn [dk_readable dk_info dk_sidecar dk_data dk_size].
  destruct (ReadRetainedOutput _ _ _ _ _ _ _) as [sn|e] eqn:Es; [|done].
  destruct (snapshot_exact _ _ _ _ _ _ _ _ _ _ _ _ Hopen Hs Es) as (He & Hst & Hdata & Hcap). fold k1 k2 k3 in He, Hdata.
  destruct (_ <? now - _); [done|]. destruct (reserveOutputSubscription _ _) as [s2 [r|]]; [|done].
  set (start := sn_StartOffset sn) in *. set (data := String.list_ascii_of_string (sn_Data sn)).
  assert (Hd : data = drop (Z.to_nat start) (String.list_ascii_of_string (k_stream k3))) by (unfold data; by rewrite Hdata, list_ascii_drop).
  pose proof (list_ascii_length (k_stream k3)) as Htot. pose proof (list_ascii_length (sn_Data sn)) as Hl. fold data in Hl.
  set (stream := String.list_ascii_of_string (k_stream k3)) in *. clearbody data.
  pose proof (f_equal length Hd) as Hlen. rewrite length_drop in Hlen.
  destruct (PublishRecovered _ _ _ _) as [h [f|]] eqn:Ep; [|done].
  assert (Ht : tracks start data h).
  { pose proof (PublishRecovered_tracks (NewOutputHub RetainedOutputCapacity) start data (negb (start =? 0)) (NewOutputHub_tracks _)) as H.
    rewrite Ep in H. apply H; [lia|lia|done]. }
  set (offset := if 0 <? su_TailBytes subscription then _ else _).
  destruct (Subscribe h offset 1) as [h1 [[replay id]|]] eqn:Esub; [|done]. intros [= <- <- <-]. cbn [po_replay po_hub po_stream po_metadata sr_Gap].
  destruct (Subscribe_state _ _ _ _ _ _ _ _ Ht Esub) as (Ht1 & Hsub & Hpos & Hrep & Hstart & Hgap).
  assert (Hold : start + Z.of_nat (length data - h_capacity h) = start).
  { rewrite (PublishRecovered_capacity _ _ _ _ _ _ Ep), NewOutputHub_capacity by done. unfold zlen in *. lia. }
  rewrite Hold in Hstart, Hgap. rewrite <- Htot in He.
  assert (Hoff : offset = if 0 <? su_TailBytes subscription then Z.max start (Z.of_nat (length stream) - su_TailBytes subscription) else su_Offset subscription).
  { subst offset. rewrite He. destruct (0 <? _); [apply tail_offset_max; lia|done]. }
  destruct (closed_channel _ _ _ _ _ _ _ Ht Esub ltac:(lia)) as (ch & Hch & Hcont & Hpay).
  assert (Hall : payload (replay :: ch_sent ch) = drop (Z.to_nat (fr_Offset replay)) stream).
  { unfold payload in *. cbn [map concat]. rewrite Hpay, app_nil_r, Hrep, Hd, drop_drop. f_equal. lia. }
  match goal with |- context [streamOutputSubscription ?q] => set (p := q) end.
  destruct (stream_carries p (ch_sent ch) (snd (Bounds (Close h1))) [] (mkWire [] left)) as (es & Hca & Hw).
  { cbn [p po_replay]. lia. }
  { cbn [p po_replay contiguous]. split; [done|]. replace (_ + _) with (start + Z.of_nat (length data)); [done|]. rewrite Hrep, length_drop. lia. }
  { rewrite close_bounds. cbn [Bounds snd]. rewrite (tr_end _ _ _ Ht1). lia. }
  { rewrite close_bounds, app_nil_r. cbn [p po_replay Bounds snd]. rewrite Hall, (tr_end _ _ _ Ht1), length_drop. lia. }
  cbn [p po_replay] in Hca, Hw. fold p in Hca, Hw. rewrite Hall in Hca, Hw. rewrite length_drop in Hw. split; [done|].
  exists start, es, (Close h1), ch. rewrite <- Hoff. split_and!; try done; [lia|unfold zlen in *; lia|lia|].
  rewrite Hw. cbn [wr_events app wr_left bool_decide]. do 4 f_equal. f_equal. lia.
Qed.

(** C29. The client of a stopped session is served from the output file what the
    runtime wrote, up to the point where writing the file failed.  Whatever system calls
    fail while the supervisor captures the output, compacts and closes the file, and
    whatever it still does while the daemon reads: a subscription that is granted is to a
    stopped session or an exited shell, and its events carry exactly the bytes of the
    runtime's output from where the client asked, or from the oldest byte on disk with
    the gap flag, up to an offset [total], which the last event names.  When no write to
    the file has failed, [total] is the end of the output; otherwise the supervisor has
    dropped the file, and what the runtime wrote after it is not served and not
    announced. *)
Theorem stopped_subscriber_sees_stream (sessionID uuid lease : string) (generation opened now ttl size : Z) (ans : open_answer) (sh : shelf)
  (o : RetainedOutput) (ops1 ops2 ops3 : list capture_op) (readable removed : bool) (d : db) (subscription : OutputSubscribe)
  (s s1 : serving) (p : preparedOutputSubscription) (left : nat) :
  OpenRetainedOutput sessionID generation opened ans (mkShelf None None) = (sh, Ok o) ->
  let c1 := capture_run ops1 (mkCapture sh (Some o) false "" false) in
  let c2 := capture_run ops2 c1 in
  let c3 := capture_run ops3 c2 in
  zlen (cp_wrote c3) < 2 ^ 64 ->
  prepareRetainedOutputSubscription uuid lease now ttl d (mkDisk readable (cp_shelf c1) (cp_shelf c2) (cp_shelf c3) size)
    sessionID generation subscription s = (s1, removed, Ok p) ->
  let output := String.list_ascii_of_string (cp_wrote c3) in
  let pos := fr_Offset (po_replay p) in
  retained_readable sessionID generation d = None /\
  exists total oldest es h ch,
    total <= Z.of_nat (length output) /\ (cp_failed c3 = false -> total = Z.of_nat (length output)) /\
    0 <= oldest /\ oldest <= total <= oldest + RetainedOutputCapacity /\
    let asked := if 0 <? su_TailBytes subscription then Z.max oldest (total - su_TailBytes subscription) else su_Offset subscription in
    pos = Z.max asked oldest /\ sr_Gap (po_metadata p) = (asked <? oldest) /\
    carries p pos (drop (Z.to_nat pos) (take (Z.to_nat total) output)) es /\
    po_hub p = Private h /\ h_gone h !! po_stream p = Some ch /\
    wr_events (streamOutputSubscription p (ch_sent ch) (snd (Bounds h)) (mkWire [] left)) =
      take left (es ++ [output_event p "output_end" (mkFrame total [] false) "runtime_disconnected"]).
Proof.
  intros Hopen c1 c2 c3 Hs Hp output pos.
  assert (H0 : captured (mkCapture sh (Some o) false "" false) (mkKeeping sh o "")).
  { apply open_new in Hopen as [-> ->]. by split. }
  destruct (captured_run ops1 _ _ H0) as [f1 H1]. destruct (captured_run ops2 _ _ H1) as [f2 H2].
  destruct (captured_run ops3 _ _ H2) as [f3 H3]. fold c1 in H1, H2, H3. fold c2 in H2, H3. fold c3 in H3.
  destruct (captured_stream _ _ H3) as (lost & Hw & Hlost).
  rewrite (proj1 H1), (proj1 H2), (proj1 H3) in Hp. subst output. rewrite Hw in Hs |- *. rewrite zlen_app in Hs.
  pose proof (zlen_nonneg lost) as Hl.
  destruct (stopped_stream_kept _ _ _ _ _ _ _ _ _ _ _ f1 f2 f3 _ _ _ _ _ _ _ left Hopen ltac:(lia) Hp)
    as (Hr & oldest & es & h & ch & H4 & H5 & H6 & H7 & H8 & H9 & H10 & H11).
  split; [done|]. revert H4 H5 H6 H7 H8 H9 H10 H11. set (k := k_stream _). intros.
  exists (Z.of_nat (length (String.list_ascii_of_string k))), oldest, es, h, ch.
  rewrite list_ascii_app, length_app. split; [lia|]. split; [intros Hf; rewrite (Hlost Hf); cbn; lia|].
  rewrite Nat2Z.id, take_app_length. exact (conj H4 (conj H5 (conj H6 (conj H7 (conj H8 (conj H9 (conj H10 H11))))))).
Qed.

End Stopped.

(** ** Concrete instances *)

Module ServeWitness.

#[local] Existing Instance latin_case.
#[local] Instance serve_format : UnicodeFormat := {| u_Cf _ := false |}.

(** The rings of the daemon are too large to evaluate; that they have room for five
    bytes is all that matters here. *)
Lemma new_hub_shape capacity : 5 <= capacity ->
  exists c data, NewOutputHub capacity = mkHub (S (S (S (S (S c))))) data 0 0 0 0 0 false ∅ ∅.
Proof.
  intros H. unfold NewOutputHub. rewrite (proj2 (Z.leb_gt _ _)) by lia. remember (Z.to_nat capacity) as n eqn:E.
  do 5 (destruct n as [|n]; [lia|]). eauto.
Qed.

Definition identity : RuntimeIdentity := mkIdentity "ABC123" 7 "lease".
Definition live : list sv_op := [SActivate identity].
Definition request : output_request := mkOutputRequest "ABC123" "lion" (Some 7) (Some (mkSubscribe 0 0)).
Definition quiet : meanwhile := mkMeanwhile [] [] [] [].
Definition no_disk : disk_answer := mkDisk false (mkShelf None None) (mkShelf None None) (mkShelf None None) 0.
Definition nothing : preparedOutputSubscription := mkPrepared (mkSubscribeResult "" "" "" "" 0 0 0 false) identity (mkFrame 0 [] false) 0 (Shared 0) 0.
Definition got (r : serving * bool * result ProtocolError preparedOutputSubscription) : preparedOutputSubscription :=
  match r.2 with Ok p => p | Err _ => nothing end.
Definition cell0 (s : serving) : hub_cell := default (mkCell (NewOutputHub 1) 0 []) (sv_hubs s !! 0%nat).

Lemma answered r : is_Ok r.2 = true -> r.1.2 = false -> r = (r.1.1, false, Ok (got r)).
Proof. destruct r as [[s b] [p|e]]; [|done]. cbn. by intros _ ->. Qed.

Lemma found {A : Type} (d : A) (o : option A) : match o with Some _ => true | None => false end = true -> o = Some (default d o).
Proof. by destruct o. Qed.

(** The session's hub is [h]. *)
Definition serving_on (h : OutputHub) : serving :=
  mkServing "lion" (<[0%nat := mkCell h 0 []]> ∅) 1 (<["ABC123" := mkRegistered identity 0]> ∅) ∅ 0 ∅ ∅ 0.

Lemma live_serving : sv_run live (new_serving "lion") = serving_on (NewOutputHub hub_capacity).
Proof. reflexivity. Qed.

Definition subscribed := prepareOutputSubscription "sub" "" 0 0 empty_db no_disk quiet request (sv_run live (new_serving "lion")).
Definition after : list sv_op := [SOutput 0 0 ["a"; "b"]%char false true; SCloseHub 0].
Definition ended : hub_cell := cell0 (sv_run after subscribed.1.1).
Definition ended_channel : channel := default (mkChannel 0 [] 0 false) (h_gone (hc_hub ended) !! 1%nat).

(** A client that subscribes between the registration of a runtime and its first,
    recovered, output. *)
Definition seeded : hub_cell :=
  cell0 (sv_run [SOutput 0 100 ["o"; "l"; "d"]%char true true; SOutput 0 103 ["n"; "e"; "w"]%char false true; SCloseHub 0] subscribed.1.1).

Ltac on_small_hub :=
  try unfold ended_channel; try unfold ended; try unfold seeded; unfold subscribed; rewrite live_serving;
  destruct (new_hub_shape hub_capacity) as (ring & data & ->); [unfold hub_capacity; lia|]; vm_compute; reflexivity.

Lemma live_subscriber_sees_stream_witness : exists es delivered rest,
  carries (got subscribed) 0 delivered es /\ delivered ++ rest = ["a"; "b"]%char /\
  wr_events (streamOutputSubscription (got subscribed) (ch_sent ended_channel) 2 (mkWire [] 9)) =
    take 9 (es ++ [output_event (got subscribed) "output_end" (mkFrame (0 + Z.of_nat (length delivered)) [] false)
                     (if bool_decide (rest = []) then "runtime_disconnected" else "subscriber_lag")]).
Proof.
  assert (E0 : po_stream (got subscribed) = 1%nat) by on_small_hub.
  assert (E1 : fr_Offset (po_replay (got subscribed)) = 0) by on_small_hub.
  assert (E2 : drop (Z.to_nat (0 - hc_base ended)) (hc_stream ended) = ["a"; "b"]%char) by on_small_hub.
  assert (E3 : snd (Bounds (hc_hub ended)) = 2) by on_small_hub.
  destruct (live_subscriber_sees_stream "lion" "sub" "" 0 0 empty_db no_disk quiet request live after subscribed.1.1 (got subscribed) 0
              ended ended_channel 9) as (es & delivered & rest & H1 & _ & H3 & H4 & _).
  - apply (answered subscribed); on_small_hub.
  - on_small_hub.
  - repeat constructor.
  - apply found. on_small_hub.
  - on_small_hub.
  - rewrite E0. on_small_hub.
  - rewrite E0. apply found. on_small_hub.
  - rewrite E1 in H1, H3, H4. rewrite E2 in H3. rewrite E3 in H4. exists es, delivered, rest. auto.
Defined.

(** The recovered bytes are not sent to it and the next frame skips them without a
    gap flag. *)
Example recovered_seed_missed :
  (hc_base seeded, hc_stream seeded, ch_sent <$> h_gone (hc_hub seeded) !! 1%nat) =
    (100, ["o"; "l"; "d"; "n"; "e"; "w"]%char, Some [mkFrame 103 ["n"; "e"; "w"]%char false]) /\
  (fr_Offset (po_replay (got subscribed)), fr_Data (po_replay (got subscribed)), sr_Gap (po_metadata (got subscribed))) = (0, [], false).
Proof. split; on_small_hub. Qed.

(** The second write to the file fails after one byte, and what the runtime writes then
    is lost; its shell left a diagnostic row. *)
Definition opened : shelf * RetainedOutput :=
  (mkShelf (Some "") None, mkOutput HOpen (mkMetadata 1 "ABC123" 7 0 0 1000) RetainedOutputCapacity).
Definition closing : close_answer := mkCloseAnswer 1003 true true true.
Definition written : list capture_op :=
  [CRead "abc" 1001 3 false true (Renamed true) closing; CRead "de" 1002 1 true true (Renamed true) closing;
   CRead "fgh" 1002 3 false true (Renamed true) closing; CWait closing].
Definition kept : capture := capture_run written (mkCapture opened.1 (Some opened.2) false "" false).
Definition exited_db : db := mkDB ∅ ∅ ∅ ∅ ∅ ∅ {[("ABC123", 7) := mkRetained "ABC123" 7 "shell" 1003 true ""]} ∅ ∅ ∅ [] [] 0 ∅ ∅.
Definition restored := prepareRetainedOutputSubscription "sub" "x" 1004000000 5000000 exited_db
  (mkDisk true (cp_shelf kept) (cp_shelf kept) (cp_shelf kept) 4) "ABC123" 7 (mkSubscribe 1 0) (new_serving "lion").

Ltac on_small_file :=
  unfold restored, prepareRetainedOutputSubscription; destruct (new_hub_shape RetainedOutputCapacity) as (ring & data & ->);
  [unfold RetainedOutputCapacity; lia|]; vm_compute; reflexivity.

Lemma stopped_subscriber_sees_stream_witness :
  retained_readable "ABC123" 7 exited_db = None /\ cp_wrote kept = "abcdefgh" /\ cp_failed kept = true /\
  exists total oldest es h ch, total <= 8 /\ 0 <= oldest /\ oldest <= total <= oldest + RetainedOutputCapacity /\
    1 = Z.max 1 oldest /\
    carries (got restored) 1 (drop 1 (take (Z.to_nat total) ["a"; "b"; "c"; "d"; "e"; "f"; "g"; "h"]%char)) es /\
    po_hub (got restored) = Private h /\ h_gone h !! 1%nat = Some ch /\
    wr_events (streamOutputSubscription (got restored) (ch_sent ch) (snd (Bounds h)) (mkWire [] 9)) =
      take 9 (es ++ [output_event (got restored) "output_end" (mkFrame total [] false) "runtime_disconnected"]).
Proof.
  assert (E0 : po_stream (got restored) = 1%nat) by on_small_file.
  assert (E1 : fr_Offset (po_replay (got restored)) = 1) by on_small_file.
  destruct (stopped_subscriber_sees_stream "ABC123" "sub" "x" 7 1000 1004000000 5000000 4 (OpenOk true true (Renamed true)) opened.1 opened.2
           written [] [] true false exited_db (mkSubscribe 1 0) (new_serving "lion") restored.1.1 (got restored) 9)
    as (H0 & total & oldest & es & h & ch & Ht & _ & H1 & H2 & H3 & _ & H4 & H5 & H6 & H7).
  - vm_compute. reflexivity.
  - vm_compute. reflexivity.
  - apply (answered restored); on_small_file.
  - split; [exact H0|]. split; [vm_compute; reflexivity|]. split; [vm_compute; reflexivity|].
    rewrite E0 in H6. rewrite E1 in H3, H4. exists total, oldest, es, h, ch.
    split_and!; [exact Ht|done|apply H2..|done|exact H4|done|done|done].
Defined.

End ServeWitness.
