(* ===== verification/OAuthRefresh.v ===== *)
(** * Rotation of OAuth refresh tokens

    [internal/server/services/oauth_refresh.go] and the Codex refresh of
    [internal/server/handlers/proxy.go].  A stored key has an access token and a
    refresh token; presenting the refresh token to the provider gives a new access
    token and usually a new refresh token, after which the old one must not be used
    again.  Three paths rotate: the scheduler, the admin's "refresh now" and a
    client's refresh through the proxy; a lock per key serialises them.  The admin
    replaces credentials without it.

    A path is a [pc]: the point it has reached, with what it has read so far.  Each
    step between two points does one database statement or one request, so that
    [sys_step] interleaves any number of paths with the admin's statements.
    [s_log] records the requests that matter.  Encryption, the URL test of
    [net/url], the claims of a JWT and the decoding of an answer's body are
    parameters. *)

From S2P Require Import Prelude GoStrings GoMarshal GoJSON KeyResolver Redact.
Local Open Scope go_scope.
Local Open Scope Z_scope.

(** The columns of [api_keys] the code uses. *)
Record key_row := mkRow {
  kr_ServiceName : string;
  kr_KeyEncrypted : string;
  kr_RefreshToken : string;
  kr_ExpiresAt : Z;
  kr_TokenEndpoint : string;
  kr_SubscriptionInfo : string;
  kr_UpstreamProxyURL : string;
  kr_IsActive : bool;
}.

(** ** Statements *)

Definition set_tokens (access : string) (expires : Z) (k : key_row) : key_row :=
  mkRow (kr_ServiceName k) access (kr_RefreshToken k) expires (kr_TokenEndpoint k) (kr_SubscriptionInfo k) (kr_UpstreamProxyURL k) true.
Definition set_refresh (refresh : string) (k : key_row) : key_row :=
  mkRow (kr_ServiceName k) (kr_KeyEncrypted k) refresh (kr_ExpiresAt k) (kr_TokenEndpoint k) (kr_SubscriptionInfo k) (kr_UpstreamProxyURL k) (kr_IsActive k).
Definition set_info (info : string) (k : key_row) : key_row :=
  mkRow (kr_ServiceName k) (kr_KeyEncrypted k) (kr_RefreshToken k) (kr_ExpiresAt k) (kr_TokenEndpoint k) info (kr_UpstreamProxyURL k) (kr_IsActive k).
Definition set_proxy (url : string) (k : key_row) : key_row :=
  mkRow (kr_ServiceName k) (kr_KeyEncrypted k) (kr_RefreshToken k) (kr_ExpiresAt k) (kr_TokenEndpoint k) (kr_SubscriptionInfo k) url (kr_IsActive k).
Definition set_active (active : bool) (k : key_row) : key_row :=
  mkRow (kr_ServiceName k) (kr_KeyEncrypted k) (kr_RefreshToken k) (kr_ExpiresAt k) (kr_TokenEndpoint k) (kr_SubscriptionInfo k) (kr_UpstreamProxyURL k) active.

Definition UpdateTokens (id access : string) (expires : Z) (rows : gmap string key_row) := alter (set_tokens access expires) id rows.
Definition UpdateRefreshToken (id refresh : string) (rows : gmap string key_row) := alter (set_refresh refresh) id rows.
Definition UpdateSubscriptionInfo (id info : string) (rows : gmap string key_row) := alter (set_info info) id rows.
Definition SetActive (id : string) (active : bool) (rows : gmap string key_row) := alter (set_active active) id rows.

(** [UpdateRefreshable]: empty tokens and a zero time leave their columns. *)
Definition UpdateRefreshable (id access refresh endpoint info : string) (expires : Z) (rows : gmap string key_row) :=
  alter (fun k => mkRow (kr_ServiceName k) (if access ==s "" then kr_KeyEncrypted k else access)
                    (if refresh ==s "" then kr_RefreshToken k else refresh)
                    (if 0 <? expires then expires else kr_ExpiresAt k) endpoint info (kr_UpstreamProxyURL k)
                    (if (access !=s "") && (refresh !=s "") then true else kr_IsActive k)) id rows.

(** The row still has the credentials that were read. *)
Definition same_credentials (snapshot k : key_row) : bool :=
  (kr_KeyEncrypted k ==s kr_KeyEncrypted snapshot) && (kr_RefreshToken k ==s kr_RefreshToken snapshot) &&
  (kr_TokenEndpoint k ==s kr_TokenEndpoint snapshot) && (kr_UpstreamProxyURL k ==s kr_UpstreamProxyURL snapshot).

Definition DeactivateIfCredentialSnapshot (id : string) (snapshot : key_row) (rows : gmap string key_row) : gmap string key_row * bool :=
  match rows !! id with
  | Some k => if same_credentials snapshot k then (<[id := set_active false k]> rows, true) else (rows, false)
  | None => (rows, false)
  end.

(** The condition of [ListExpiring]; [now] in milliseconds. *)
Definition expiring (now : Z) (k : key_row) : bool :=
  kr_IsActive k && (kr_RefreshToken k !=s "") && (0 <? kr_ExpiresAt k) && (kr_ExpiresAt k <? now / 1000 * 1000 + 10 * 60 * 1000).

(** ** Answers of the token endpoint *)

Record token_response := mkTokens { tr_AccessToken : string; tr_RefreshToken : string; tr_IDToken : string; tr_ExpiresIn : Z }.

(** [ans_error] is the decoded [error] field ([JNull] when it is absent) and
    [ans_tokens] the decoded tokens; [None] when the body does not decode. *)
Inductive http_answer :=
| NetError
| Answer (status : Z) (error : option jval) (tokens : option token_response).

Definition str_field (m : list (string * jval)) (k : string) : string :=
  match obj_get m k with Some (JStr s) => s | _ => "" end.

Definition permanentCodes : list string :=
  ["invalid_grant"; "invalid_refresh_token"; "refresh_token_expired"; "refresh_token_reused"; "refresh_token_invalidated";
   "invalid_client"; "unauthorized_client"; "unsupported_grant_type"].

Section OAuth.
Context `{UC : UnicodeCase} `{FT : FloatText}.

Definition oauthErrorCode (raw : jval) : string :=
  match raw with
  | JStr v => v
  | JObj v =>
      if str_field v "code" !=s "" then str_field v "code"
      else if Contains (ToLower (str_field v "message")) "invalid refresh token" then "invalid_refresh_token"
      else str_field v "type"
  | _ => ""
  end.

Definition isPermanentOAuthError (status : Z) (error : option jval) : bool :=
  if status =? 401 then true
  else if negb (status =? 400) then false
  else match error with
       | Some raw => in_words permanentCodes (oauthErrorCode raw)
       | None => false
       end.

(** ** The request *)

Definition claudeOAuthClientID : string := "9d1c250a-e61b-44d9-88ed-5944d1962f5e".
Definition codexClientID : string := "app_EMoamEEZ73f0CkXaXp7hrann".

Definition info_map (raw : string) : option (list (string * jval)) :=
  match UnmarshalMap raw with Some m => Some (default [] m) | None => None end.

Definition first_field (m : list (string * jval)) (keys : list string) : string :=
  default "" (List.find (fun v => v !=s "") (map (str_field m) keys)).

Definition oauthMetadataString (raw : string) (keys : list string) : string :=
  if raw ==s "" then "" else match info_map raw with Some m => first_field m keys | None => "" end.

Variable codex_url : string -> bool.     (* [IsCodexOpenAIRefreshEndpoint] *)
Variable jwt_exp : string -> option Z.   (* the [exp] claim of a JWT's payload part *)
Variable decrypt : string -> option string.
Variable encrypt : N -> string -> string.

Definition isCodexOpenAIRefresh (k : key_row) : bool :=
  codex_url (kr_TokenEndpoint k) ||
  match info_map (kr_SubscriptionInfo k) with
  | Some m => (str_field m "credential_kind" ==s "codex_oauth") || (str_field m "source" ==s "codex") || (str_field m "auth_mode" ==s "chatgpt")
  | None => false
  end.

Inductive encoding := JSONBody | FormBody.

Record token_request := mkTokenRequest { tq_endpoint : string; tq_encoding : encoding; tq_client : string; tq_token : string }.

Definition useAnthropic (k : key_row) (token : string) : bool :=
  Contains (kr_TokenEndpoint k) "anthropic" || HasPrefix token "sk-ant-ort01" || HasPrefix token "sk-ant-oart01".

(** The request [refreshKey] builds; an empty client id is left out of a form. *)
Definition token_request_of (k : key_row) (token : string) : token_request :=
  if useAnthropic k token then
    let override := match info_map (kr_SubscriptionInfo k) with Some m => str_field m "clientId" | None => "" end in
    mkTokenRequest (kr_TokenEndpoint k) JSONBody (if override ==s "" then claudeOAuthClientID else override) token
  else
    let client := oauthMetadataString (kr_SubscriptionInfo k) ["client_id"; "clientId"] in
    if isCodexOpenAIRefresh k then mkTokenRequest (kr_TokenEndpoint k) JSONBody (if client ==s "" then codexClientID else client) token
    else mkTokenRequest (kr_TokenEndpoint k) FormBody client token.

(** ** The new expiry *)

Definition jwtExpiresAtMillis (token : string) : Z :=
  match Split token "." with
  | _ :: payload :: _ =>
      match jwt_exp payload with
      | Some e => if e <=? 0 then 0 else i64 (e * 1000)
      | None => 0
      end
  | _ => 0
  end.

Definition new_expiry (r : token_response) (now : Z) : Z :=
  let from_jwt := if tr_ExpiresIn r <=? 0 then jwtExpiresAtMillis (tr_AccessToken r) else 0 in
  if from_jwt <=? 0
  then i64 (now + i64 ((if tr_ExpiresIn r <=? 0 then 3600 else tr_ExpiresIn r) * 1000))
  else from_jwt.

(** [openAIAuthRefreshExpiresAt]. *)
Definition proxy_expiry (r : token_response) (now : Z) : Z :=
  if 0 <? tr_ExpiresIn r then i64 (now + i64 (tr_ExpiresIn r * 1000))
  else match Split (tr_AccessToken r) "." with
       | [_; payload; _] =>
           match jwt_exp payload with
           | Some e => if e <=? 0 then i64 (now + 3600 * 1000) else i64 (e * 1000)
           | None => i64 (now + 3600 * 1000)
           end
       | _ => i64 (now + 3600 * 1000)
       end.

(** ** Metadata *)

Definition stamped (m : list (string * jval)) (idToken time : string) : string :=
  let m := if idToken ==s "" then m else obj_set m "id_token" (JStr idToken) in
  Marshal (JObj (obj_set m "last_refresh" (JStr time))).

(** [mergeCodexRefreshMetadata]: what cannot be decoded counts as empty. *)
Definition mergeCodexRefreshMetadata (raw idToken time : string) : string :=
  stamped (if TrimSpace raw ==s "" then [] else default [] (info_map raw)) idToken time.

(** [parseSubscriptionInfo] as [persistOpenAIAuthRefreshMetadata] uses it; [None] is
    the nil map that the JSON text null leaves, to which it assigns. *)
Definition proxy_metadata (raw : string) : option (list (string * jval)) :=
  if TrimSpace raw ==s "" then Some []
  else match UnmarshalMap raw with
       | Some m => m
       | None => Some []
       end.

(** ** The paths *)

(** The scheduler, the admin's refresh, and a client's refresh through the proxy. *)
Inductive job := JScheduled | JManual | JProxy.

Inductive outcome :=
| Refreshed
| NotNeeded            (* no longer expiring, or rotated by another path *)
| Refused              (* the resolver or a guard refused *)
| FailedStep           (* a statement, an encryption or a request failed *)
| ProviderError        (* an error answer that is not permanent, or an unusable one *)
| StillWorking         (* permanent error, but the access token works or was not tested *)
| Deactivated
| CredentialsChanged
| Panicked.

(** Before a request the point holds the row as it was read; after the answer, the
    tokens to store.  [kid] is the key whose lock is held, [used] the key that is
    refreshed. *)
Inductive pc :=
| PWait (j : job) (kid : string)
| PLoad (j : job) (kid : string)
| PSend (j : job) (kid used : string) (key : key_row) (token : string) (retry : bool)
| PChanged (j : job) (kid used : string) (key : key_row) (token : string)
| PReload (j : job) (kid : string) (key : key_row)
| PTest (j : job) (kid : string) (latest : key_row)
| PDeactivate (j : job) (kid : string) (latest : key_row)
| PResolve (kid used : string) (key : key_row) (token : string)
| PStoreAccess (j : job) (kid used : string) (key : key_row) (token : string) (r : token_response) (enc : string) (expires : Z)
| PStoreMeta (j : job) (kid used : string) (key : key_row) (token : string) (r : token_response)
| PWriteMeta (kid used : string) (key : key_row) (token : string) (r : token_response) (text : string)
| PStoreRefresh (j : job) (kid used : string) (key : key_row) (token : string) (r : token_response)
| PActivate (kid : string)
| PUnlock (kid : string) (o : outcome)
| PDone (o : outcome).

(** What the surroundings answer to one step: the clock, whether the statement
    succeeds, whether an HTTP client and a request can be made, the nonce and success
    of an encryption, the answer to a request, the time text, and the key the
    resolver chooses with its guards passed. *)
Record input := mkInput {
  in_now : Z;
  in_ok : bool;
  in_client : bool;
  in_nonce : N;
  in_enc : bool;
  in_http : http_answer;
  in_time : string;
  in_chosen : option string;
}.

Inductive event :=
| ESent (keyID token : string) (rq : option token_request)   (* a refresh token was presented; [rq] is the request
                                                  of the scheduler and the admin *)
| ERotated (keyID token : string)              (* the provider replaced it *)
| ERejected (keyID token : string)             (* the provider will never accept it *)
| ETested (access : string) (status : Z).      (* an access token was tried *)

Definition read (i : input) (id : string) (rows : gmap string key_row) : option key_row := if in_ok i then rows !! id else None.

(** The token of a response that must replace the one used. *)
Definition rotated (token : string) (r : token_response) : bool := (tr_RefreshToken r !=s "") && (tr_RefreshToken r !=s token).

Definition success (j : job) (status : Z) : bool :=
  match j with JProxy => (200 <=? status) && (status <? 300) | _ => status =? 200 end.

(** After [GetByID] (or the resolver) under the lock: the guards before the request. *)
Definition load_step (i : input) (j : job) (kid : string) (rows : gmap string key_row) : pc :=
  match j with
  | JProxy =>
      match in_chosen i with
      | None => PUnlock kid Refused
      | Some used =>
          match read i used rows with
          | None => PUnlock kid Refused
          | Some key =>
              if negb (kr_IsActive key) then PUnlock kid Refused
              else if kr_RefreshToken key ==s "" then PUnlock kid Refused
              else match decrypt (kr_RefreshToken key) with
                   | Some token => if token ==s "" then PUnlock kid Refused else PSend j kid used key token false
                   | None => PUnlock kid Refused
                   end
          end
      end
  | _ =>
      match read i kid rows with
      | None => PUnlock kid FailedStep
      | Some key =>
          if kr_RefreshToken key ==s "" then PUnlock kid Refused
          else if match j with JScheduled => in_now i + 10 * 60 * 1000 <? kr_ExpiresAt key | _ => false end then PUnlock kid NotNeeded
          else match decrypt (kr_RefreshToken key) with
               | None => PUnlock kid FailedStep
               | Some token =>
                   if kr_TokenEndpoint key ==s "" then PUnlock kid Refused
                   else match DecryptUpstreamProxyURL decrypt (kr_UpstreamProxyURL key) with
                        | None => PUnlock kid FailedStep
                        | Some _ =>
                            if isCodexOpenAIRefresh key && negb (codex_url (kr_TokenEndpoint key)) then PUnlock kid Refused
                            else PSend j kid kid key token false
                        end
               end
      end
  end.

(** A request that gets no answer; a second one of the proxy leaves it with the
    error answer to the first. *)
Definition unsent (retry : bool) : outcome := if retry then ProviderError else FailedStep.

(** The answer to a presented token. *)
Definition answer_step (i : input) (j : job) (kid used : string) (key : key_row) (token : string) (retry : bool) : pc :=
  match in_http i with
  | NetError => PUnlock kid (unsent retry)
  | Answer status error tokens =>
      if success j status then
        match tokens with
        | None => PUnlock kid (match j with JProxy => Refreshed | _ => ProviderError end)
        | Some r =>
            if tr_AccessToken r ==s "" then PUnlock kid (match j with JProxy => Refreshed | _ => ProviderError end)
            else if negb (in_enc i) then PUnlock kid (match j with JProxy => Refreshed | _ => FailedStep end)
            else PStoreAccess j kid used key token r (encrypt (in_nonce i) (tr_AccessToken r))
                   (match j with JProxy => proxy_expiry r (in_now i) | _ => new_expiry r (in_now i) end)
        end
      else if isPermanentOAuthError status error && negb retry then PChanged j kid used key token
      else PUnlock kid ProviderError
  end.

Definition answer_events (i : input) (j : job) (used : string) (key : key_row) (token : string) : list event :=
  ESent used token (match j with JProxy => None | _ => Some (token_request_of key token) end) ::
  match in_http i with
  | NetError => []
  | Answer status error tokens =>
      if success j status then match tokens with Some r => if rotated token r then [ERotated used token] else [] | None => [] end
      else if isPermanentOAuthError status error then [ERejected used token] else []
  end.

(** The stored token is no longer the one that was presented. *)
Definition token_changed (i : input) (id token : string) (rows : gmap string key_row) : bool :=
  match read i id rows with
  | Some key =>
      if kr_RefreshToken key ==s "" then false
      else match decrypt (kr_RefreshToken key) with
           | Some current => (current !=s "") && (current !=s token)
           | None => false
           end
  | None => false
  end.

(** [testStoredAccessToken]: the token to try, where one can be tried. *)
Definition test_token (latest : key_row) : option string :=
  if kr_KeyEncrypted latest ==s "" then None
  else match decrypt (kr_KeyEncrypted latest) with
       | None => None
       | Some access =>
           let access := TrimSpace access in
           if access ==s "" then None
           else if isCodexOpenAIRefresh latest || (kr_ServiceName latest ==s "openai") || Contains (kr_TokenEndpoint latest) "auth.openai.com"
                   || (kr_ServiceName latest ==s "anthropic") || Contains (kr_TokenEndpoint latest) "anthropic"
           then match DecryptUpstreamProxyURL decrypt (kr_UpstreamProxyURL latest) with Some _ => Some access | None => None end
           else None
       end.

Definition test_step (i : input) (j : job) (kid : string) (latest : key_row) : pc * list event :=
  match test_token latest with
  | None => (PUnlock kid StillWorking, [])
  | Some access =>
      if negb (in_client i) then (PUnlock kid StillWorking, [])
      else match in_http i with
           | NetError => (PUnlock kid StillWorking, [])
           | Answer status _ _ =>
               (if (status =? 401) || (status =? 403) then PDeactivate j kid latest else PUnlock kid StillWorking,
                [ETested access status])
           end
  end.

(** [refreshKey] returns no error. *)
Definition returns_ok (j : job) (kid : string) (o : outcome) : pc := match j with JManual => PActivate kid | _ => PUnlock kid o end.

Definition thread_step (i : input) (rows : gmap string key_row) (p : pc) : gmap string key_row * pc * list event :=
  match p with
  | PWait _ _ | PUnlock _ _ | PDone _ => (rows, p, [])
  | PLoad j kid => (rows, load_step i j kid rows, [])
  | PSend j kid used key token retry =>
      if negb (in_client i) then (rows, PUnlock kid (unsent retry), [])
      else (rows, answer_step i j kid used key token retry, answer_events i j used key token)
  | PChanged j kid used key token =>
      (rows,
       match j with
       | JProxy => if token_changed i used token rows then PResolve kid used key token else PUnlock kid ProviderError
       | _ => if token_changed i used token rows then returns_ok j kid NotNeeded else PReload j kid key
       end, [])
  | PReload j kid key =>
      (rows,
       match read i kid rows with
       | None => PUnlock kid StillWorking
       | Some latest => if negb (kr_RefreshToken latest ==s kr_RefreshToken key) then returns_ok j kid NotNeeded else PTest j kid latest
       end, [])
  | PTest j kid latest => let '(p, es) := test_step i j kid latest in (rows, p, es)
  | PDeactivate j kid latest =>
      if negb (in_ok i) then (rows, PUnlock kid FailedStep, [])
      else match DeactivateIfCredentialSnapshot kid latest rows with
           | (rows', true) => (rows', PUnlock kid Deactivated, [])
           | (rows', false) => (rows', PUnlock kid CredentialsChanged, [])
           end
  | PResolve kid used key token =>
      (rows,
       match in_chosen i with
       | Some again =>
           match read i again rows with
           | Some key' =>
               if (again ==s used) && kr_IsActive key' && (kr_RefreshToken key' !=s "") then
                 match decrypt (kr_RefreshToken key') with
                 | Some token' => if token' ==s "" then PUnlock kid ProviderError else PSend JProxy kid used key' token' true
                 | None => PUnlock kid ProviderError
                 end
               else PUnlock kid ProviderError
           | None => PUnlock kid ProviderError
           end
       | None => PUnlock kid ProviderError
       end, [])
  | PStoreAccess j kid used key token r enc expires =>
      if in_ok i then (UpdateTokens used enc expires rows, match j with JProxy => PStoreMeta j kid used key token r | _ => PStoreRefresh j kid used key token r end, [])
      else (rows, match j with JProxy => PStoreMeta j kid used key token r | _ => PUnlock kid FailedStep end, [])
  | PStoreRefresh j kid used key token r =>
      let rows' := if rotated token r && in_enc i && in_ok i then UpdateRefreshToken used (encrypt (in_nonce i) (tr_RefreshToken r)) rows else rows in
      (rows', match j with
              | JProxy => PUnlock kid Refreshed
              | _ => if isCodexOpenAIRefresh key then PStoreMeta j kid used key token r else returns_ok j kid Refreshed
              end, [])
  | PStoreMeta j kid used key token r =>
      match j with
      | JProxy =>
          match read i used rows with
          | None => (rows, PStoreRefresh j kid used key token r, [])
          | Some row =>
              match proxy_metadata (kr_SubscriptionInfo row) with
              | None => (rows, PUnlock kid Panicked, [])
              | Some m => (rows, PWriteMeta kid used key token r (stamped m (tr_IDToken r) (in_time i)), [])
              end
          end
      | _ =>
          (if in_ok i then UpdateSubscriptionInfo used (mergeCodexRefreshMetadata (kr_SubscriptionInfo key) (tr_IDToken r) (in_time i)) rows else rows,
           returns_ok j kid Refreshed, [])
      end
  | PWriteMeta kid used key token r text =>
      (if in_ok i then UpdateSubscriptionInfo used text rows else rows, PStoreRefresh JProxy kid used key token r, [])
  | PActivate kid => if in_ok i then (SetActive kid true rows, PUnlock kid Refreshed, []) else (rows, PUnlock kid FailedStep, [])
  end.

(** ** The system *)

Record sys := mkSys {
  s_rows : gmap string key_row;
  s_locks : gmap string nat;          (* the thread that holds the lock of a key *)
  s_threads : gmap nat pc;
  s_log : list event;
}.

(** The admin's statements. *)
Inductive admin :=
| AdUpdate (id access refresh endpoint info : string) (expires : Z)
| AdProxy (id url : string)
| AdActive (id : string) (active : bool)
| AdDelete (id : string)
| AdCreate (id : string) (k : key_row).

Definition admin_step (a : admin) (rows : gmap string key_row) : gmap string key_row :=
  match a with
  | AdUpdate id access refresh endpoint info expires => UpdateRefreshable id access refresh endpoint info expires rows
  | AdProxy id url => alter (set_proxy url) id rows
  | AdActive id active => SetActive id active rows
  | AdDelete id => delete id rows
  | AdCreate id k => match rows !! id with Some _ => rows | None => <[id := k]> rows end
  end.

Inductive action := AStart (t : nat) (j : job) (kid : string) | AStep (t : nat) (i : input) | AAdmin (a : admin).

(** [WithOAuthRefreshLock]: the empty id has no lock. *)
Definition take_lock (t : nat) (kid : string) (locks : gmap string nat) : option (gmap string nat) :=
  if kid ==s "" then Some locks else match locks !! kid with None => Some (<[kid := t]> locks) | Some _ => None end.

Definition drop_lock (kid : string) (locks : gmap string nat) : gmap string nat := if kid ==s "" then locks else delete kid locks.

Definition sys_step (a : action) (s : sys) : sys :=
  match a with
  | AStart t j kid =>
      match s_threads s !! t with
      | Some _ => s
      | None => mkSys (s_rows s) (s_locks s) (<[t := PWait j kid]> (s_threads s)) (s_log s)
      end
  | AAdmin ad => mkSys (admin_step ad (s_rows s)) (s_locks s) (s_threads s) (s_log s)
  | AStep t i =>
      match s_threads s !! t with
      | None => s
      | Some (PWait j kid) =>
          match take_lock t kid (s_locks s) with
          | Some locks => mkSys (s_rows s) locks (<[t := PLoad j kid]> (s_threads s)) (s_log s)
          | None => s
          end
      | Some (PUnlock kid o) => mkSys (s_rows s) (drop_lock kid (s_locks s)) (<[t := PDone o]> (s_threads s)) (s_log s)
      | Some p =>
          let '(rows, p', es) := thread_step i (s_rows s) p in
          mkSys rows (s_locks s) (<[t := p']> (s_threads s)) (s_log s ++ es)
      end
  end.

Definition sys_run (acts : list action) (s : sys) : sys := fold_left (fun s a => sys_step a s) acts s.

Definition start (rows : gmap string key_row) : sys := mkSys rows ∅ ∅ [].

End OAuth.
