(* ===== verification/OAuthSafety.v ===== *)
(** * Refresh tokens are used once, and keys are deactivated for cause

    Theorems on the interleavings of [OAuthRefresh]. *)

From S2P Require Import Prelude GoStrings GoMarshal GoJSON KeyResolver Redact OAuthRefresh.
Local Open Scope go_scope.
Local Open Scope Z_scope.

Section Safety.
Context `{UC : UnicodeCase} `{FT : FloatText}.
Variable codex_url : string -> bool.
Variable jwt_exp : string -> option Z.
Variable decrypt : string -> option string.
Variable encrypt : N -> string -> string.

Abbreviation thread_step := (thread_step codex_url jwt_exp decrypt encrypt).
Abbreviation sys_step := (sys_step codex_url jwt_exp decrypt encrypt).
Abbreviation sys_run := (sys_run codex_url jwt_exp decrypt encrypt).
Abbreviation load_step := (load_step codex_url decrypt).
Abbreviation answer_step := (answer_step jwt_exp encrypt).
Abbreviation answer_events := (answer_events codex_url).
Abbreviation test_step := (test_step codex_url decrypt).
Abbreviation test_token := (test_token codex_url decrypt).

(** A path that is neither waiting for its lock nor about to drop it. *)
Definition running (p : pc) : bool := match p with PWait _ _ | PUnlock _ _ | PDone _ => false | _ => true end.

(** The cases of a step of the system. *)
Lemma sys_step_running t i s p rows p' es : s_threads s !! t = Some p -> running p = true -> thread_step i (s_rows s) p = (rows, p', es) ->
  sys_step (AStep t i) s = mkSys rows (s_locks s) (<[t := p']> (s_threads s)) (s_log s ++ es).
Proof. intros Ht Hr Hs. cbn [OAuthRefresh.sys_step]. rewrite Ht. by destruct p; try done; rewrite Hs. Qed.

Lemma sys_step_resting t i s p : s_threads s !! t = Some p -> running p = false ->
  exists locks p', sys_step (AStep t i) s = mkSys (s_rows s) locks (<[t := p']> (s_threads s)) (s_log s) /\
    match p with
    | PWait j kid => p' = PLoad j kid /\ take_lock t kid (s_locks s) = Some locks \/ p' = p /\ locks = s_locks s
    | PUnlock kid o => p' = PDone o /\ locks = drop_lock kid (s_locks s)
    | _ => p' = p /\ locks = s_locks s
    end.
Proof.
  intros Ht Hr. cbn [OAuthRefresh.sys_step]. rewrite Ht. destruct p as [j kid| | | | | | | | | | | | |kid o|o]; try done.
  - destruct (take_lock t kid (s_locks s)) as [locks|] eqn:E; [by exists locks, (PLoad j kid); auto|].
    exists (s_locks s), (PWait j kid). split; [|auto]. rewrite insert_id by done. by destruct s.
  - by exists (drop_lock kid (s_locks s)), (PDone o).
  - exists (s_locks s), (PDone o). cbn [OAuthRefresh.thread_step]. by rewrite app_nil_r.
Qed.

Lemma sys_step_absent t i s : s_threads s !! t = None -> sys_step (AStep t i) s = s.
Proof. intros Ht. cbn [OAuthRefresh.sys_step]. by rewrite Ht. Qed.

(** ** Deactivation *)

(** What a path that has come so far has seen. *)
Definition seen (log : list event) (p : pc) : Prop :=
  match p with
  | PSend j kid used key token _ => decrypt (kr_RefreshToken key) = Some token /\ (j = JProxy \/ used = kid)
  | PChanged JProxy _ _ _ _ => True
  | PChanged _ kid used key token => used = kid /\ decrypt (kr_RefreshToken key) = Some token /\ ERejected kid token ∈ log
  | PReload _ kid key | PTest _ kid key => exists token, decrypt (kr_RefreshToken key) = Some token /\ ERejected kid token ∈ log
  | PDeactivate _ kid key =>
      (exists token, decrypt (kr_RefreshToken key) = Some token /\ ERejected kid token ∈ log) /\
      exists access status, test_token key = Some access /\ ETested access status ∈ log /\ (status = 401 \/ status = 403)
  | _ => True
  end.

Lemma seen_more log es p : seen log p -> seen (log ++ es) p.
Proof.
  destruct p as [| |j kid used key token b|j kid used key token|j kid key|j kid key|j kid key| | | | | | | |]; cbn; try done.
  - destruct j; try done; (intros (? & ? & ?); split_and!; [done|done|]; apply elem_of_app; by left).
  - intros (x & ? & ?). exists x. split; [done|]. apply elem_of_app. by left.
  - intros (x & ? & ?). exists x. split; [done|]. apply elem_of_app. by left.
  - intros [(x & ? & ?) (a & st & ? & ? & ?)]. split; [exists x|exists a, st]; split_and!; try done; apply elem_of_app; by left.
Qed.

Lemma seen_returns log j kid o : seen log (returns_ok j kid o).
Proof. by destruct j. Qed.

Lemma load_seen log i j kid rows : seen log (load_step i j kid rows).
Proof.
  unfold OAuthRefresh.load_step. destruct j; repeat (case_match; try done); cbn; auto.
Qed.

Lemma answer_seen log i j kid used key token retry : decrypt (kr_RefreshToken key) = Some token -> (j = JProxy \/ used = kid) ->
  seen (log ++ answer_events i j used key token) (answer_step i j kid used key token retry).
Proof.
  intros Hd Hu. unfold OAuthRefresh.answer_step, OAuthRefresh.answer_events. destruct (in_http i) as [|status error tokens]; [done|].
  destruct (success j status); [by destruct tokens as [r|]; [destruct (tr_AccessToken r ==s ""); [|destruct (in_enc i)]|]|].
  destruct (isPermanentOAuthError status error); [|done]. destruct retry; [done|]. cbn [andb negb seen].
  destruct j; try done; (destruct Hu as [?| ->]; [done|]; split_and!; try done; apply elem_of_app; right; set_solver).
Qed.

Lemma thread_seen log i rows p rows' p' es : thread_step i rows p = (rows', p', es) -> seen log p -> seen (log ++ es) p'.
Proof.
  destruct p as [j kid|j kid|j kid used key token b|j kid used key token|j kid key|j kid key|j kid key|kid used key token
                |j kid used key token r enc ex|j kid used key token r|kid used key token r text|j kid used key token r|kid|kid o|o];
    cbn [OAuthRefresh.thread_step]; intros E Hs.
  - by injection E as _ <- <-.
  - injection E as _ <- <-. apply load_seen.
  - destruct (negb (in_client i)); injection E as _ <- <-; [done|]. apply answer_seen; apply Hs.
  - injection E as _ <- <-. rewrite app_nil_r. cbn in Hs. destruct j; destruct (token_changed _ _ _ _ _); try done; cbn; destruct Hs as (-> & ? & ?); eauto.
  - injection E as _ <- <-. rewrite app_nil_r. destruct (read i kid rows) as [latest|]; [|done].
    destruct (String.eqb_spec (kr_RefreshToken latest) (kr_RefreshToken key)) as [Er|]; [|apply seen_returns]. cbn in *. by rewrite Er.
  - unfold OAuthRefresh.test_step in E. destruct (test_token key) as [access|] eqn:Et; [|by injection E as _ <- <-].
    destruct (negb (in_client i)); [by injection E as _ <- <-|]. destruct (in_http i) as [|status error tokens]; [by injection E as _ <- <-|].
    injection E as _ <- <-. destruct (Z.eqb_spec status 401) as [H1|H1]; [|destruct (Z.eqb_spec status 403) as [H3|H3]; [|done]]; cbn;
      (split; [destruct Hs as (x & ? & ?); exists x; split; [done|set_solver]|exists access, status; split_and!; [done|set_solver|auto]]).
  - destruct (negb (in_ok i)); [by injection E as _ <- <-|]. destruct (DeactivateIfCredentialSnapshot _ _ _) as [rows2 [|]]; by injection E as _ <- <-.
  - injection E as _ <- <-. repeat (case_match; try done). cbn. auto.
  - destruct (in_ok i), j; by injection E as _ <- <-.
  - destruct j; [injection E as _ <- <-; done| |]; [injection E as _ <- <-; done|].
    destruct (read i used rows) as [row|]; [|by injection E as _ <- <-]. destruct (proxy_metadata _); by injection E as _ <- <-.
  - by injection E as _ <- <-.
  - injection E as _ <- <-. destruct j; [| |done]; destruct (isCodexOpenAIRefresh _ _); done.
  - destruct (in_ok i); by injection E as _ <- <-.
  - by injection E as _ <- <-.
  - by injection E as _ <- <-.
Qed.

Lemma sys_seen acts rows t p : s_threads (sys_run acts (start rows)) !! t = Some p -> seen (s_log (sys_run acts (start rows))) p.
Proof.
  enough (H : forall s, (forall t p, s_threads s !! t = Some p -> seen (s_log s) p) ->
    forall t p, s_threads (sys_run acts s) !! t = Some p -> seen (s_log (sys_run acts s)) p) by (apply H; by intros).
  induction acts as [|a acts IH]; intros s Hs; [done|]. apply (IH (sys_step a s)). clear IH t p. intros t p.
  destruct a as [t' j kid|t' i|ad]; [| |apply Hs].
  - cbn [OAuthRefresh.sys_step]. destruct (s_threads s !! t') eqn:E; [apply Hs|]. cbn. rewrite lookup_insert_Some.
    intros [[<- <-]|[_ Hp]]; [done|by eapply Hs].
  - destruct (s_threads s !! t') as [q|] eqn:E; [|rewrite sys_step_absent by done; apply Hs]. destruct (running q) eqn:Hr.
    + destruct (thread_step i (s_rows s) q) as [[rows' q'] es] eqn:Eq. rewrite (sys_step_running t' i s q rows' q' es E Hr Eq).
      cbn [s_threads s_log]. rewrite lookup_insert_Some. intros [[<- <-]|[_ Hp]]; [|by eapply seen_more, Hs].
      eapply thread_seen; [done|]. by apply (Hs t').
    + destruct (sys_step_resting t' i s q E Hr) as (locks & q' & -> & Hq). cbn [s_threads s_log]. rewrite lookup_insert_Some.
      intros [[<- <-]|[_ Hp]]; [|by eapply Hs]. destruct q; try done; naive_solver.
Qed.

(** Every other statement of the paths leaves an active key active. *)
Definition keeps_active (f : gmap string key_row) (g : gmap string key_row) : Prop :=
  forall kid k k', f !! kid = Some k -> kr_IsActive k = true -> g !! kid = Some k' -> kr_IsActive k' = true.

Lemma active_kept_refl f : keeps_active f f.
Proof. intros kid k k' H1 H2 H3. congruence. Qed.

Lemma keeps_alter upd id f : (forall k, kr_IsActive k = true -> kr_IsActive (upd k) = true) -> keeps_active f (alter upd id f).
Proof.
  intros Hu kid k k' H1 H2. destruct (decide (id = kid)) as [->|Hne].
  - rewrite lookup_alter_eq, H1. intros [= <-]. by apply Hu.
  - rewrite lookup_alter_ne by done. congruence.
Qed.

Lemma thread_keeps_active i rows p rows' p' es : thread_step i rows p = (rows', p', es) ->
  match p with PDeactivate _ _ _ => True | _ => keeps_active rows rows' end.
Proof.
  destruct p as [j kid|j kid|j kid used key token b|j kid used key token|j kid key|j kid key|j kid key|kid used key token
                |j kid used key token r enc ex|j kid used key token r|kid used key token r text|j kid used key token r|kid|kid o|o];
    cbn [OAuthRefresh.thread_step]; intros E; try done; try (injection E as <- _ _; apply active_kept_refl).
  - destruct (negb _); injection E as <- _ _; apply active_kept_refl.
  - destruct (test_step _ _ _ _) as [q es']. injection E as <- _ _. apply active_kept_refl.
  - destruct (in_ok i), j; injection E as <- _ _; (apply active_kept_refl || by apply keeps_alter).
  - destruct j; [| |destruct (read i used rows); [destruct (proxy_metadata _)|]]; injection E as <- _ _;
      try apply active_kept_refl; (destruct (in_ok i); [by apply keeps_alter|apply active_kept_refl]).
  - injection E as <- _ _. destruct (in_ok i); [by apply keeps_alter|apply active_kept_refl].
  - injection E as <- _ _. destruct (_ && _); [by apply keeps_alter|apply active_kept_refl].
  - destruct (in_ok i); injection E as <- _ _; [by apply keeps_alter|apply active_kept_refl].
Qed.

Lemma test_token_plain key access : test_token key = Some access -> exists plain, decrypt (kr_KeyEncrypted key) = Some plain /\ access = TrimSpace plain.
Proof.
  unfold OAuthRefresh.test_token. destruct (_ ==s ""); [done|]. destruct (decrypt (kr_KeyEncrypted key)) as [plain|]; [|done].
  repeat (case_match; try done). intros [= <-]. eauto.
Qed.

(** C18. A key is deactivated for cause.  Whatever runs meanwhile: when a path turns an
    active key off, the provider has rejected for good the refresh token the key has at
    that moment, and the access token it has at that moment has been tried and
    refused. *)
Theorem deactivation_is_justified (rows : gmap string key_row) (acts : list action) (t : nat) (i : input) (kid : string) (k k' : key_row) :
  let s := sys_run acts (start rows) in
  s_rows s !! kid = Some k -> kr_IsActive k = true ->
  s_rows (sys_step (AStep t i) s) !! kid = Some k' -> kr_IsActive k' = false ->
  k' = set_active false k /\
  (exists token, decrypt (kr_RefreshToken k) = Some token /\ ERejected kid token ∈ s_log s) /\
  exists access status, decrypt (kr_KeyEncrypted k) = Some access /\ ETested (TrimSpace access) status ∈ s_log s /\ (status = 401 \/ status = 403).
Proof.
  intros s Hk Ha Hk' Ha'. destruct (s_threads s !! t) as [p|] eqn:Ht; [|rewrite sys_step_absent in Hk' by done; congruence].
  destruct (running p) eqn:Hr; [|destruct (sys_step_resting t i s p Ht Hr) as (locks & q & E & _); rewrite E in Hk'; cbn in Hk'; congruence].
  destruct (thread_step i (s_rows s) p) as [[rows' p'] es] eqn:Es. rewrite (sys_step_running t i s p rows' p' es Ht Hr Es) in Hk'.
  cbn [s_rows] in Hk'. pose proof (thread_keeps_active i _ p _ _ _ Es) as Hkeep.
  destruct p as [| | | | | |j kid' key| | | | | | | |]; try (specialize (Hkeep kid k k' Hk Ha Hk'); congruence).
  pose proof (sys_seen acts rows t _ Ht) as [(token & Hd & Hrej) (access & status & Hta & Htest & Hstat)]. fold s in Hrej, Htest.
  cbn [OAuthRefresh.thread_step] in Es. destruct (negb (in_ok i)); [injection Es as <- _ _; congruence|].
  unfold DeactivateIfCredentialSnapshot in Es. destruct (s_rows s !! kid') as [row|] eqn:Erow; [|injection Es as <- _ _; congruence].
  destruct (same_credentials key row) eqn:Esame; injection Es as <- _ _; [|congruence].
  apply lookup_insert_Some in Hk' as [[<- <-]|[_ ?]]; [|congruence]. assert (row = k) as -> by congruence.
  unfold same_credentials in Esame. rewrite !andb_true_iff, !String.eqb_eq in Esame. destruct Esame as [[[E1 E2] _] _]. apply test_token_plain in Hta as (plain & Hp & ->).
  rewrite E1, E2. split_and!; [done|by exists token|by exists plain, status].
Qed.

(** ** Rotation *)

Definition pc_lock (p : pc) : option string :=
  match p with
  | PWait _ _ | PDone _ => None
  | PLoad _ kid | PSend _ kid _ _ _ _ | PChanged _ kid _ _ _ | PReload _ kid _ | PTest _ kid _ | PDeactivate _ kid _
  | PResolve kid _ _ _ | PStoreAccess _ kid _ _ _ _ _ _ | PStoreMeta _ kid _ _ _ _ | PWriteMeta kid _ _ _ _ _
  | PStoreRefresh _ kid _ _ _ _ | PActivate kid | PUnlock kid _ => Some kid
  end.

(** The key that is refreshed is the key whose lock is held. *)
Definition own (p : pc) : Prop :=
  match p with
  | PSend _ kid used _ _ _ | PChanged _ kid used _ _ | PResolve kid used _ _ | PStoreAccess _ kid used _ _ _ _ _
  | PStoreMeta _ kid used _ _ _ | PWriteMeta kid used _ _ _ _ | PStoreRefresh _ kid used _ _ _ => used = kid
  | _ => True
  end.

(** A new refresh token that is still to be stored. *)
Definition to_store (p : pc) : option string :=
  match p with
  | PStoreAccess _ _ _ _ token r _ _ | PStoreRefresh _ _ _ _ token r | PStoreMeta JProxy _ _ _ token r | PWriteMeta _ _ _ token r _ =>
      if rotated token r then Some (tr_RefreshToken r) else None
  | _ => None
  end.

(** The token in a path's hands has not been replaced, nor has the one it stores. *)
Definition unspent (log : list event) (p : pc) : Prop :=
  match p with PSend _ kid _ _ token _ => ERotated kid token ∉ log | _ => True end /\
  forall kid new, pc_lock p = Some kid -> to_store p = Some new -> ERotated kid new ∉ log.

Definition row_unspent (log : list event) (kid : string) (rows : gmap string key_row) : Prop :=
  forall row token, rows !! kid = Some row -> decrypt (kr_RefreshToken row) = Some token -> ERotated kid token ∉ log.

Definition meta_ok (rows : gmap string key_row) : Prop := forall kid row, rows !! kid = Some row -> proxy_metadata (kr_SubscriptionInfo row) <> None.

Definition text_ok (p : pc) : Prop := match p with PWriteMeta _ _ _ _ _ text => proxy_metadata text <> None | _ => True end.

(** Every statement succeeds; the resolver chooses the locked key; a new token comes
    with an access token and was not replaced before. *)
Definition polite_input (log : list event) (p : pc) (i : input) : Prop :=
  in_ok i = true /\ in_enc i = true /\
  match p with
  | PLoad JProxy kid => in_chosen i = None \/ in_chosen i = Some kid
  | PSend j kid _ _ token _ =>
      match in_http i with
      | Answer status _ (Some r) =>
          success j status = true -> rotated token r = true -> tr_AccessToken r <> "" /\ ERotated kid (tr_RefreshToken r) ∉ log
      | _ => True
      end
  | _ => True
  end.

Lemma stamped_not_null m idToken time : proxy_metadata (stamped m idToken time) <> None.
Proof.
  unfold proxy_metadata, stamped. set (m' := obj_set _ _ _). clearbody m'. destruct (TrimSpace _ ==s ""); [done|].
  cbn [Marshal]. set (body := comma_join _ +:+ _). clearbody body. unfold UnmarshalMap, Unmarshal.
  replace (2 * slen ("{" +:+ body) + 2)%nat with (S (2 * slen body + 3)) by (rewrite slen_app; cbn [slen]; lia).
  cbn [parse_value]. change (skip_ws ("{" +:+ body)) with (String "{" body).
  cbn [HasPrefix]. cbn. repeat (case_match; simplify_eq; try done).
Qed.

Ltac pc_cases p :=
  destruct p as [j kid|j kid|j kid used key token retry|j kid used key token|j kid key|j kid key|j kid key|kid used key token
                |j kid used key token r enc ex|j kid used key token r|kid used key token r text|j kid used key token r|kid|kid o|o].

Lemma returns_keeps j kid o : pc_lock (returns_ok j kid o) = Some kid /\ own (returns_ok j kid o) /\ text_ok (returns_ok j kid o) /\ to_store (returns_ok j kid o) = None.
Proof. by destruct j. Qed.

(** A path keeps its lock until it drops it, and stays with its key. *)
Lemma thread_keeps i rows p rows' p' es log kid0 :
  thread_step i rows p = (rows', p', es) -> running p = true -> polite_input log p i -> own p -> meta_ok rows -> pc_lock p = Some kid0 ->
  pc_lock p' = Some kid0 /\ own p' /\ text_ok p'.
Proof.
  intros E Hr (Hok & Henc & Hp) Ho Hm Hl. pc_cases p; try done; cbn [OAuthRefresh.thread_step pc_lock own] in *; injection Hl as ->.
  - injection E as _ <- _. unfold OAuthRefresh.load_step. destruct j; repeat (case_match; try done); cbn; naive_solver.
  - destruct (negb _); injection E as _ <- _; [done|]. unfold OAuthRefresh.answer_step. repeat (case_match; try done).
  - injection E as _ <- _. destruct j; destruct (token_changed _ _ _ _ _); done.
  - injection E as _ <- _. destruct (read i kid0 rows); [|done]. by destruct (negb _), j.
  - destruct (test_step i j kid0 key) as [q es'] eqn:Et. injection E as _ <- _. unfold OAuthRefresh.test_step in Et.
    repeat (case_match; simplify_eq; try done).
  - rewrite Hok in E. cbn in E. destruct (DeactivateIfCredentialSnapshot _ _ _) as [rows2 [|]]; by injection E as _ <- _.
  - injection E as _ <- _. repeat (case_match; try done).
  - rewrite Hok in E. destruct j; by injection E as _ <- _.
  - destruct j; [by injection E as _ <- _..|]. destruct (read i used rows) as [row|]; [|by injection E as _ <- _].
    destruct (proxy_metadata _); injection E as _ <- _; [|done]. split_and!; [done|done|apply stamped_not_null].
  - by injection E as _ <- _.
  - injection E as _ <- _. destruct j; [| |done]; destruct (isCodexOpenAIRefresh _ _); done.
  - rewrite Hok in E. by injection E as _ <- _.
Qed.

(** It touches no other key. *)
Lemma thread_rows i rows p rows' p' es kid0 k :
  thread_step i rows p = (rows', p', es) -> running p = true -> own p -> pc_lock p = Some kid0 -> k <> kid0 -> rows' !! k = rows !! k.
Proof.
  intros E Hr Ho Hl Hk. pc_cases p; try done; cbn [OAuthRefresh.thread_step pc_lock own] in *; injection Hl as ->; subst;
    try (by injection E as <- _ _).
  - by destruct (negb _); injection E as <- _ _.
  - destruct (test_step _ _ _ _). by injection E as <- _ _.
  - destruct (negb _); [by injection E as <- _ _|]. unfold DeactivateIfCredentialSnapshot in E. destruct (rows !! kid0) as [x|]; [|by injection E as <- _ _].
    destruct (same_credentials key x); injection E as <- _ _; [by rewrite lookup_insert_ne|done].
  - destruct (in_ok i), j; injection E as <- _ _; unfold UpdateTokens; by rewrite ?lookup_alter_ne.
  - destruct j; [| |destruct (read i kid0 rows); [destruct (proxy_metadata _)|]]; injection E as <- _ _; try done;
      destruct (in_ok i); unfold UpdateSubscriptionInfo; by rewrite ?lookup_alter_ne.
  - injection E as <- _ _. destruct (in_ok i); unfold UpdateSubscriptionInfo; by rewrite ?lookup_alter_ne.
  - injection E as <- _ _. destruct (_ && _); unfold UpdateRefreshToken; by rewrite ?lookup_alter_ne.
  - destruct (in_ok i); injection E as <- _ _; unfold SetActive; by rewrite ?lookup_alter_ne.
Qed.

Lemma meta_alter upd id rows : (forall k, kr_SubscriptionInfo (upd k) = kr_SubscriptionInfo k \/ proxy_metadata (kr_SubscriptionInfo (upd k)) <> None) ->
  meta_ok rows -> meta_ok (alter upd id rows).
Proof.
  intros Hu Hm kid row. rewrite lookup_alter. case_decide as Hc; [subst|apply Hm]. destruct (rows !! kid) as [x|] eqn:E; [|done].
  intros [= <-]. destruct (Hu x) as [->|]; [by apply (Hm kid)|done].
Qed.

Lemma merged_not_null raw idToken time : proxy_metadata (mergeCodexRefreshMetadata raw idToken time) <> None.
Proof. apply stamped_not_null. Qed.

Lemma thread_meta i rows p rows' p' es :
  thread_step i rows p = (rows', p', es) -> text_ok p -> meta_ok rows -> meta_ok rows'.
Proof.
  intros E Ht Hm. pc_cases p; cbn [OAuthRefresh.thread_step text_ok] in *; try (by injection E as <- _ _).
  - by destruct (negb _); injection E as <- _ _.
  - destruct (test_step _ _ _ _). by injection E as <- _ _.
  - destruct (negb _); [by injection E as <- _ _|]. unfold DeactivateIfCredentialSnapshot in E. destruct (rows !! kid) as [x|] eqn:Ex; [|by injection E as <- _ _].
    destruct (same_credentials key x); injection E as <- _ _; [|done]. intros kid' row. rewrite lookup_insert_Some. intros [[<- <-]|[_ ?]]; [apply (Hm kid x Ex)|by eapply Hm].
  - destruct (in_ok i), j; injection E as <- _ _; try done; (apply meta_alter; [by left|done]).
  - destruct j; [| |destruct (read i used rows); [destruct (proxy_metadata _)|]]; injection E as <- _ _; try done;
      (destruct (in_ok i); [apply meta_alter; [right; apply merged_not_null|done]|done]).
  - injection E as <- _ _. destruct (in_ok i); [apply meta_alter; [by right|done]|done].
  - injection E as <- _ _. destruct (_ && _); [apply meta_alter; [by left|done]|done].
  - destruct (in_ok i); injection E as <- _ _; [apply meta_alter; [by left|done]|done].
Qed.

(** Events of a step concern its key, and it presents at most one token, first. *)
Lemma thread_events i rows p rows' p' es log kid0 :
  thread_step i rows p = (rows', p', es) -> running p = true -> own p -> unspent log p -> pc_lock p = Some kid0 ->
  (forall k token, ERotated k token ∈ es -> k = kid0) /\
  (forall l1 k token rq l2, es = l1 ++ ESent k token rq :: l2 -> l1 = [] /\ k = kid0 /\ ERotated kid0 token ∉ log).
Proof.
  intros E Hr Ho [Hu _] Hl.
  assert (Hnil : es = [] -> (forall k token, ERotated k token ∈ es -> k = kid0) /\
    (forall l1 k token rq l2, es = l1 ++ ESent k token rq :: l2 -> l1 = [] /\ k = kid0 /\ ERotated kid0 token ∉ log)).
  { intros ->. split; [set_solver|]. by intros [|]. }
  pc_cases p; try done; cbn [OAuthRefresh.thread_step pc_lock own] in *; injection Hl as ->; try (apply Hnil; by injection E as _ _ <-).
  - destruct (negb _); injection E as _ _ <-; [by apply Hnil|]. subst used. clear Hnil. unfold OAuthRefresh.answer_events. split.
    + intros k tok Hin. apply elem_of_cons in Hin as [|Hin]; [done|]. repeat (case_match; try set_solver).
    + intros [|x l1] k tok rq l2 E; [by injection E as <- <- _ _|]. injection E as _ E. exfalso.
      destruct (in_http i) as [|st er [r|]]; repeat (case_match; try done); (destruct l1; [done|destruct l1; done]).
  - destruct (test_step i j kid0 key) as [q es'] eqn:Et. injection E as _ _ <-. unfold OAuthRefresh.test_step in Et.
    repeat (case_match; simplify_eq; try (by apply Hnil)); (split; [set_solver|]; intros [|x l1] k tok rq l2 E'; [done|]; injection E' as _ E'; by destruct l1).
  - destruct (negb (in_ok i)); [apply Hnil; by injection E as _ _ <-|]. destruct (DeactivateIfCredentialSnapshot _ _ _) as [rows2 [|]]; apply Hnil; by injection E as _ _ <-.
  - apply Hnil. destruct (in_ok i); by injection E as _ _ <-.
  - apply Hnil. destruct j; [by injection E as _ _ <-..|]. destruct (read i used rows); [destruct (proxy_metadata _)|]; by injection E as _ _ <-.
  - apply Hnil. destruct (in_ok i); by injection E as _ _ <-.
Qed.

Hypothesis decrypt_encrypt : forall nonce plain, decrypt (encrypt nonce plain) = Some plain.

Lemma row_unspent_alter upd id log kid rows :
  (forall k, kr_RefreshToken (upd k) = kr_RefreshToken k) -> row_unspent log kid rows -> row_unspent log kid (alter upd id rows).
Proof.
  intros Hu H row token. rewrite lookup_alter. case_decide as Hc; [subst|apply H]. destruct (rows !! kid) as [x|] eqn:E; [|done].
  intros [= <-]. rewrite Hu. by apply H.
Qed.

(** A spent token is on its way to being replaced. *)
Definition covered (log : list event) (kid : string) (rows : gmap string key_row) (p : pc) : Prop := to_store p <> None \/ row_unspent log kid rows.

Lemma load_tokens i j kid rows log : polite_input log (PLoad j kid) i -> row_unspent log kid rows -> unspent log (load_step i j kid rows) /\ to_store (load_step i j kid rows) = None.
Proof.
  intros (_ & _ & Hp) Hrow. unfold OAuthRefresh.load_step, read.
  assert (Hsend : forall used key token, used = kid -> (if in_ok i then rows !! used else None) = Some key -> decrypt (kr_RefreshToken key) = Some token ->
    ERotated kid token ∉ log).
  { intros used key token -> Hk Hd. destruct (in_ok i); [|done]. by eapply Hrow. }
  destruct j; repeat (case_match; try (split; [split; [done|by intros]|done])); (split; [split; [|by intros]|done]); cbn;
    (eapply Hsend; [|eassumption|eassumption]); naive_solver.
Qed.

Lemma returns_tokens log j kid o : unspent log (returns_ok j kid o).
Proof. by destruct j. Qed.

(** The answer: where the provider replaced the token, the new one is stored next. *)
Lemma answer_tokens i j kid key token retry rows log :
  polite_input log (PSend j kid kid key token retry) i -> ERotated kid token ∉ log -> row_unspent log kid rows ->
  unspent (log ++ answer_events i j kid key token) (answer_step i j kid kid key token retry) /\
  covered (log ++ answer_events i j kid key token) kid rows (answer_step i j kid kid key token retry).
Proof.
  intros (_ & Henc & Hp) Hu Hrow. unfold OAuthRefresh.answer_events, OAuthRefresh.answer_step.
  assert (Hquiet : forall es, (forall k tok, ERotated k tok ∉ es) -> row_unspent (log ++ es) kid rows).
  { intros es Hes row tok Hk Hd. rewrite elem_of_app. intros [H|H]; [by eapply Hrow|by eapply Hes]. }
  destruct (in_http i) as [|status error tokens]; [split; [done|right; apply Hquiet; set_solver]|].
  destruct (success j status) eqn:Hsucc.
  2:{ destruct (isPermanentOAuthError status error); (split; [destruct retry; done|right; apply Hquiet; set_solver]). }
  destruct tokens as [r|]; [|split; [done|right; apply Hquiet; set_solver]]. specialize (Hp eq_refl). rewrite Henc. cbn [negb].
  destruct (rotated token r) eqn:Hrot.
  - destruct (Hp eq_refl) as [Hacc Hnew]. rewrite (proj2 (String.eqb_neq _ _) Hacc). split; [split; [done|]|left; cbn; by rewrite Hrot].
    cbn. rewrite Hrot. intros ? ? [= <-] [= <-]. rewrite elem_of_app. intros [H|H]; [done|].
    unfold rotated in Hrot. apply andb_true_iff in Hrot as [_ Hne]. apply negb_true_iff, String.eqb_neq in Hne. set_solver.
  - destruct (tr_AccessToken r ==s ""); (split; [split; [done|]|right; apply Hquiet; set_solver]); cbn; [done|]. by rewrite Hrot.
Qed.

Lemma thread_tokens i rows p rows' p' es log kid0 :
  thread_step i rows p = (rows', p', es) -> running p = true -> polite_input log p i -> own p -> meta_ok rows -> pc_lock p = Some kid0 ->
  unspent log p -> covered log kid0 rows p -> unspent (log ++ es) p' /\ covered (log ++ es) kid0 rows' p'.
Proof.
  intros E Hr Hpol Ho Hm Hl Hu Hc. pose proof Hpol as (Hok & Henc & _).
  assert (Hstay : forall q, es = [] -> rows' = rows -> to_store p = None -> p' = q -> unspent log q -> unspent (log ++ es) p' /\ covered (log ++ es) kid0 rows' p').
  { intros q -> -> Hn -> Hq. rewrite app_nil_r. split; [done|]. destruct Hc as [|Hc]; [congruence|by right]. }
  pc_cases p; try done; cbn [OAuthRefresh.thread_step pc_lock own] in *; injection Hl as ->.
  - injection E as <- <- <-. destruct Hc as [|Hc]; [done|]. destruct (load_tokens i j kid0 rows log Hpol Hc) as [H1 H2].
    rewrite app_nil_r. split; [done|by right].
  - subst used. destruct (negb _); [injection E as <- <- <-; by eapply Hstay|]. injection E as <- <- <-. destruct Hc as [|Hc]; [done|].
    apply answer_tokens; [done|exact (proj1 Hu)|done].
  - injection E as <- <- <-. eapply Hstay; try done. destruct j; destruct (token_changed _ _ _ _ _); done.
  - injection E as <- <- <-. eapply Hstay; try done. destruct (read i kid0 rows); [|done]. destruct (negb _); [apply returns_tokens|done].
  - destruct (test_step i j kid0 key) as [q es'] eqn:Et. injection E as <- <- <-. unfold OAuthRefresh.test_step in Et.
    destruct Hc as [|Hc]; [done|]. split.
    + repeat (case_match; simplify_eq; try done).
    + right. intros row tok Hk Hd. rewrite elem_of_app. intros [H|H]; [by eapply Hc|]. repeat (case_match; simplify_eq; try set_solver).
  - destruct Hc as [|Hc]; [done|]. rewrite Hok in E. cbn [negb] in E. unfold DeactivateIfCredentialSnapshot in E.
    destruct (rows !! kid0) as [x|] eqn:Ex; [|injection E as <- <- <-; rewrite app_nil_r; split; [done|by right]].
    destruct (same_credentials key x); injection E as <- <- <-; rewrite app_nil_r; (split; [done|right]); [|done].
    intros row tok. rewrite lookup_insert_Some. intros [[_ <-]|[? _]]; [|done]. by apply (Hc x).
  - injection E as <- <- <-. destruct Hc as [|Hc]; [done|]. rewrite app_nil_r. subst used.
    assert (Hgo : forall key' tok', read i kid0 rows = Some key' -> decrypt (kr_RefreshToken key') = Some tok' -> ERotated kid0 tok' ∉ log).
    { intros key' tok'. unfold read. destruct (in_ok i); [|done]. intros Hk Hd. by eapply Hc. }
    destruct (in_chosen i) as [again|]; [|split; [done|by right]]. destruct (read i again rows) as [key'|] eqn:Erd; [|split; [done|by right]].
    destruct ((again ==s kid0) && kr_IsActive key' && (kr_RefreshToken key' !=s "")) eqn:Eg; [|split; [done|by right]].
    apply andb_true_iff in Eg as [[Eg%String.eqb_eq _]%andb_true_iff _]. subst again. destruct (decrypt (kr_RefreshToken key')) as [tok'|] eqn:Ed; [|split; [done|by right]].
    destruct (tok' ==s ""); [split; [done|by right]|]. split; [split; [by eapply Hgo|done]|by right].
  - subst used. rewrite Hok in E. assert (Hrow : row_unspent log kid0 rows -> row_unspent log kid0 (UpdateTokens kid0 enc ex rows)) by (by apply row_unspent_alter).
    destruct j; injection E as <- <- <-; rewrite app_nil_r; (split; [split; [done|exact (proj2 Hu)]|destruct Hc as [Hc|Hc]; [by left|right; auto]]).
  - subst used. assert (Hrow : forall text, row_unspent log kid0 rows -> row_unspent log kid0 (UpdateSubscriptionInfo kid0 text rows)) by (intros; by apply row_unspent_alter).
    destruct j.
    1,2: destruct Hc as [|Hc]; [done|]; rewrite Hok in E; injection E as <- <- <-; rewrite app_nil_r; split; [done|right; auto].
    unfold read in E. rewrite Hok in E. destruct (rows !! kid0) as [row|] eqn:Erow.
    + pose proof (Hm kid0 row Erow) as Hmeta. destruct (proxy_metadata _); [|done]. injection E as <- <- <-. rewrite app_nil_r.
      split; [split; [done|exact (proj2 Hu)]|exact Hc].
    + injection E as <- <- <-. rewrite app_nil_r. split; [split; [done|exact (proj2 Hu)]|exact Hc].
  - subst used. rewrite Hok in E. injection E as <- <- <-. rewrite app_nil_r. split; [split; [done|exact (proj2 Hu)]|].
    destruct Hc as [Hc|Hc]; [by left|right]. by apply row_unspent_alter.
  - subst used. rewrite Hok, Henc in E. destruct Hu as [_ Hu]. specialize (Hu kid0). cbn [pc_lock to_store] in Hu.
    assert (Hnew : row_unspent log kid0 (if rotated token r && true && true then UpdateRefreshToken kid0 (encrypt (in_nonce i) (tr_RefreshToken r)) rows else rows)).
    { destruct (rotated token r) eqn:Hrot; cbn [andb]; [|destruct Hc as [Hc|Hc]; [cbn in Hc; by rewrite Hrot in Hc|done]].
      intros row tok. unfold UpdateRefreshToken. rewrite lookup_alter_eq. destruct (rows !! kid0); [|done]. intros [= <-]. cbn.
      rewrite decrypt_encrypt. intros [= <-]. by apply Hu. }
    injection E as <- <- <-. rewrite app_nil_r. destruct j; [| |split; [done|by right]];
      (destruct (isCodexOpenAIRefresh codex_url key); (split; [done|right; done])).
  - rewrite Hok in E. injection E as <- <- <-. rewrite app_nil_r. destruct Hc as [|Hc]; [done|]. split; [done|right]. by apply row_unspent_alter.
Qed.

(** What the theorem asks of the surroundings: no statement fails, a phantom token
    names one key, neither the provider nor the admin brings back a token that was
    replaced for the key, and stored metadata is not the JSON text null. *)
Definition polite (s : sys) (a : action) : Prop :=
  match a with
  | AStart _ _ kid => kid <> ""
  | AStep t i => match s_threads s !! t with Some p => running p = true -> polite_input (s_log s) p i | None => True end
  | AAdmin (AdUpdate id _ refresh _ info _) =>
      (refresh <> "" -> forall token, decrypt refresh = Some token -> ERotated id token ∉ s_log s) /\ proxy_metadata info <> None
  | AAdmin (AdCreate id k) =>
      (forall token, decrypt (kr_RefreshToken k) = Some token -> ERotated id token ∉ s_log s) /\ proxy_metadata (kr_SubscriptionInfo k) <> None
  | AAdmin _ => True
  end.

Fixpoint polite_run (s : sys) (acts : list action) : Prop :=
  match acts with
  | [] => True
  | a :: acts => polite s a /\ polite_run (sys_step a s) acts
  end.

Record inv (s : sys) : Prop := mkInv {
  iv_locks : forall t p kid, s_threads s !! t = Some p -> pc_lock p = Some kid -> kid <> "" /\ s_locks s !! kid = Some t;
  iv_wait : forall t j kid, s_threads s !! t = Some (PWait j kid) -> kid <> "";
  iv_own : forall t p, s_threads s !! t = Some p -> own p /\ text_ok p /\ unspent (s_log s) p;
  iv_rows : forall kid, row_unspent (s_log s) kid (s_rows s) \/
              exists t p, s_threads s !! t = Some p /\ pc_lock p = Some kid /\ to_store p <> None;
  iv_meta : meta_ok (s_rows s);
  iv_sent : forall l1 k token rq l2, s_log s = l1 ++ ESent k token rq :: l2 -> ERotated k token ∉ l1;
}.

Lemma unspent_more log es p kid : pc_lock p = Some kid -> (forall token, ERotated kid token ∉ es) -> unspent log p -> unspent (log ++ es) p.
Proof.
  intros Hl Hes [H1 H2]. split.
  - destruct p; try done. injection Hl as <-. rewrite elem_of_app. intros [?|?]; [done|by eapply Hes].
  - intros kid' new Hk Hn. rewrite elem_of_app. intros [?|H]; [by eapply H2|]. assert (kid' = kid) as -> by congruence. by eapply Hes.
Qed.

Lemma unspent_idle log p : pc_lock p = None -> unspent log p.
Proof. intros H. destruct p; try done; by split. Qed.

(** The running path's step. *)
Lemma running_inv t i s p rows p' es : inv s -> s_threads s !! t = Some p -> running p = true -> polite_input (s_log s) p i ->
  thread_step i (s_rows s) p = (rows, p', es) -> inv (mkSys rows (s_locks s) (<[t := p']> (s_threads s)) (s_log s ++ es)).
Proof.
  intros [Hlk Hw Ho Hrow Hm Hsent] Ht Hr Hp E. destruct (Ho t p Ht) as (Hown & Htext & Hun).
  assert (exists kid, pc_lock p = Some kid) as [kid Hl] by (destruct p; eauto; done).
  destruct (thread_keeps i _ p _ _ _ _ kid E Hr Hp Hown Hm Hl) as (Hl' & Hown' & Htext').
  destruct (thread_events i _ p _ _ _ (s_log s) kid E Hr Hown Hun Hl) as [Hrot Hsnd].
  destruct (Hlk t p kid Ht Hl) as [Hne Hholder].
  assert (Honly : forall t2 p2, s_threads s !! t2 = Some p2 -> pc_lock p2 = Some kid -> t2 = t).
  { intros t2 p2 H2 Hl2. destruct (Hlk t2 p2 kid H2 Hl2). congruence. }
  assert (Hcov : covered (s_log s) kid (s_rows s) p).
  { destruct (Hrow kid) as [H|(t2 & p2 & H2 & Hl2 & Hst)]; [by right|left]. assert (t2 = t) as -> by eauto. congruence. }
  destruct (thread_tokens i _ p _ _ _ _ kid E Hr Hp Hown Hm Hl Hun Hcov) as [Hun' Hcov'].
  assert (Hother : forall k token, k <> kid -> ERotated k token ∉ es) by (intros k token Hk H; by apply Hk, (Hrot k token)).
  split; cbn [s_threads s_locks s_log s_rows].
  - intros t2 p2 k2. rewrite lookup_insert_Some. intros [[<- <-]|[_ H2]] Hl2; [|by eapply Hlk]. by assert (k2 = kid) as -> by congruence.
  - intros t2 j k2. rewrite lookup_insert_Some. intros [[<- ->]|[_ H2]]; [done|by eapply Hw].
  - intros t2 p2. rewrite lookup_insert_Some. intros [[<- <-]|[Hne2 H2]]; [done|]. destruct (Ho t2 p2 H2) as (? & ? & Hu2). split_and!; try done.
    destruct (pc_lock p2) as [k2|] eqn:El2; [|by apply unspent_idle]. apply (unspent_more _ _ _ k2); [done| |done].
    intros token. apply Hother. intros ->. apply Hne2. symmetry. eauto.
  - intros k2. destruct (decide (k2 = kid)) as [->|Hk2].
    + destruct Hcov' as [Hst|Hrow']; [right; exists t, p'; rewrite lookup_insert_eq; auto|by left].
    + destruct (Hrow k2) as [H|(t2 & p2 & H2 & Hl2 & Hst)].
      * left. intros row token. rewrite (thread_rows i _ p _ _ _ kid k2 E Hr Hown Hl Hk2). intros Hk Hd. rewrite elem_of_app.
        intros [?|?]; [by eapply H|by eapply Hother].
      * right. exists t2, p2. rewrite lookup_insert_ne; [done|]. intros ->. congruence.
  - by eapply thread_meta.
  - intros l1 k token rq l2 Heq. apply app_eq_inv in Heq as [(l & Hl1 & Hes)|(l & -> & Hes)].
    + destruct l as [|x l]; cbn in Hes.
      * symmetry in Hes. destruct (Hsnd [] k token rq l2 Hes) as (_ & -> & H). by rewrite app_nil_r in Hl1; subst l1.
      * injection Hes as <- Hes. by eapply Hsent.
    + destruct (Hsnd l k token rq l2 Hes) as (-> & -> & H). by rewrite app_nil_r.
Qed.

(** The lock is taken or dropped. *)
Lemma resting_inv t i s p : inv s -> s_threads s !! t = Some p -> running p = false -> inv (sys_step (AStep t i) s).
Proof.
  intros [Hlk Hw Ho Hrow Hm Hsent] Ht Hr. destruct (sys_step_resting t i s p Ht Hr) as (locks & p' & -> & Hp).
  assert (Hshape : to_store p = None /\ ((exists j kid, p' = PLoad j kid) \/ p' = p /\ pc_lock p = None \/ exists o, p' = PDone o)).
  { split; [by destruct p|]. destruct p; try done; [destruct Hp as [[-> _]|[-> _]]|destruct Hp as [-> _]..]; eauto. }
  destruct Hshape as [Hst Hshape].
  assert (Hnew : own p' /\ text_ok p' /\ unspent (s_log s) p').
  { destruct Hshape as [(j & kid & ->)|[[-> _]|(o & ->)]]; [by split_and!|by apply (Ho t)|by split_and!]. }
  assert (Hlocks : forall t2 p2 k2, <[t := p']> (s_threads s) !! t2 = Some p2 -> pc_lock p2 = Some k2 -> k2 <> "" /\ locks !! k2 = Some t2).
  { intros t2 p2 k2. rewrite lookup_insert_Some. intros [[<- <-]|[Hne H2]] Hl2.
    - destruct p as [j kid| | | | | | | | | | | | |kid o|o]; try done; [|by destruct Hp as [-> _]..]. destruct Hp as [[-> Hp]|[-> _]]; [|done].
      injection Hl2 as <-. pose proof (Hw t j kid Ht) as Hk. split; [done|]. unfold take_lock in Hp. rewrite (proj2 (String.eqb_neq _ _) Hk) in Hp.
      destruct (s_locks s !! kid); [done|]. injection Hp as <-. apply lookup_insert_eq.
    - destruct (Hlk t2 p2 k2 H2 Hl2) as [Hk Hh]. split; [done|]. destruct p as [j kid| | | | | | | | | | | | |kid o|o]; try done; [| |by destruct Hp as [_ ->]].
      + destruct Hp as [[_ Hp]|[_ ->]]; [|done]. unfold take_lock in Hp. destruct (kid ==s ""); [by injection Hp as <-|].
        destruct (s_locks s !! kid) eqn:E; [done|]. injection Hp as <-. rewrite lookup_insert_ne; [done|]. intros ->. congruence.
      + destruct Hp as [_ ->]. unfold drop_lock. destruct (kid ==s ""); [done|]. rewrite lookup_delete_ne; [done|]. intros ->.
        destruct (Hlk t _ k2 Ht eq_refl). congruence. }
  split; cbn [s_threads s_locks s_log s_rows]; try done.
  - intros t2 j kid. rewrite lookup_insert_Some. intros [[<- ->]|[_ H2]]; [|by eapply Hw].
    destruct Hshape as [(? & ? & [=])|[[<- _]|(? & [=])]]. by eapply Hw.
  - intros t2 p2. rewrite lookup_insert_Some. intros [[<- <-]|[_ H2]]; [done|exact (Ho t2 p2 H2)].
  - intros kid. destruct (Hrow kid) as [H|(t2 & p2 & H2 & Hl2 & Hs2)]; [by left|right]. exists t2, p2. rewrite lookup_insert_ne; [done|].
    intros ->. congruence.
Qed.

Lemma admin_inv ad s : inv s -> polite s (AAdmin ad) -> inv (sys_step (AAdmin ad) s).
Proof.
  intros [Hlk Hw Ho Hrow Hm Hsent] Hp. cbn [OAuthRefresh.sys_step].
  enough (H : (forall kid, row_unspent (s_log s) kid (s_rows s) -> row_unspent (s_log s) kid (admin_step ad (s_rows s))) /\ meta_ok (admin_step ad (s_rows s))).
  { destruct H as [H1 H2]. split; cbn; try done. intros kid. destruct (Hrow kid) as [H|H]; [left; auto|by right]. }
  destruct ad as [id access refresh endpoint info expires|id url|id active|id|id k]; cbn [admin_step].
  - destruct Hp as [Hp1 Hp2]. split; [|apply meta_alter; [by right|done]]. intros kid H row token. unfold UpdateRefreshable. rewrite lookup_alter.
    case_decide as Hc; [subst kid|apply H]. destruct (s_rows s !! id) as [x|] eqn:E; [|done]. intros [= <-]. cbn [kr_RefreshToken].
    destruct (String.eqb_spec refresh "") as [|Hne]; [by apply H|by apply Hp1].
  - split; [intros; by apply row_unspent_alter|apply meta_alter; [by left|done]].
  - split; [intros; by apply row_unspent_alter|apply meta_alter; [by left|done]].
  - split; [intros kid H row token|intros kid row]; rewrite lookup_delete_Some; intros [_ Hk]; [by apply H|by eapply Hm].
  - destruct Hp as [Hp1 Hp2]. destruct (s_rows s !! id) as [x|] eqn:E; [done|].
    split; [intros kid H row token|intros kid row]; rewrite lookup_insert_Some; intros [[<- <-]|[_ Hk]]; eauto.
Qed.

Lemma sys_step_inv a s : inv s -> polite s a -> inv (sys_step a s).
Proof.
  intros I Hp. destruct a as [t j kid|t i|ad]; [| |by apply admin_inv].
  - cbn [OAuthRefresh.sys_step polite] in *. destruct (s_threads s !! t) eqn:E; [done|]. destruct I as [Hlk Hw Ho Hrow Hm Hsent].
    split; cbn [s_threads s_locks s_log s_rows]; try done.
    + intros t2 p2 k2. rewrite lookup_insert_Some. intros [[_ <-]|[_ H2]]; [done|by apply Hlk].
    + intros t2 j2 k2. rewrite lookup_insert_Some. intros [[_ [= _ <-]]|[_ H2]]; [done|by eapply Hw].
    + intros t2 p2. rewrite lookup_insert_Some. intros [[_ <-]|[_ H2]]; [by split_and!|exact (Ho t2 p2 H2)].
    + intros k. destruct (Hrow k) as [H|(t2 & p2 & H2 & ?)]; [by left|right]. exists t2, p2. rewrite lookup_insert_ne; [done|congruence].
  - cbn [polite] in Hp. destruct (s_threads s !! t) as [p|] eqn:E; [|by rewrite sys_step_absent]. destruct (running p) eqn:Hr; [|by eapply resting_inv].
    destruct (thread_step i (s_rows s) p) as [[rows p'] es] eqn:Es. rewrite (sys_step_running t i s p rows p' es E Hr Es).
    eapply running_inv; eauto.
Qed.

(** C17. A refresh token is not used again once the provider has replaced it: under any
    interleaving of the scheduler, refreshes by the admin, refreshes through the proxy
    and replacements of credentials by the admin, no request presents for a key a
    token that an earlier answer replaced for that key.  This holds for surroundings
    that are [polite], on every step of the run: every database statement succeeds and
    every token can be encrypted; the resolver, given a phantom token, chooses the key
    whose lock is held; an answer that rotates the refresh token carries an access token
    and not a refresh token that was replaced before; the admin does not store a replaced
    token again; and the stored metadata of every key is not the JSON text null, neither
    at the start nor as the admin writes it (with null it fails, as
    [null_metadata_loses_token] shows). *)
Theorem replaced_token_never_presented (rows : gmap string key_row) (acts : list action) (l1 l2 : list event)
  (keyID token : string) (rq : option token_request) :
  meta_ok rows -> polite_run (start rows) acts ->
  s_log (sys_run acts (start rows)) = l1 ++ ESent keyID token rq :: l2 -> ERotated keyID token ∉ l1.
Proof.
  intros Hm Hp. apply iv_sent. assert (I : inv (start rows)).
  { split; cbn; try done; [left; intros row tok _ _; apply not_elem_of_nil|by intros [|]]. }
  revert I Hp. generalize (start rows). induction acts as [|a acts IH]; intros s I Hp; [done|]. destruct Hp as [Ha Hp].
  apply (IH (sys_step a s)); [by apply sys_step_inv|done].
Qed.

End Safety.

(** ** Concrete instances *)

Module OAuthWitness.

#[local] Existing Instance latin_case.
#[local] Instance no_floats : FloatText := fun _ => "0".

Definition enc (nonce : N) (plain : string) : string := "e:" +:+ plain.
Definition dec (s : string) : option string := if HasPrefix s "e:" then Some (str_drop 2 s) else None.
Definition endpoint : string := "https://auth.openai.com/oauth/token".
Definition codex (u : string) : bool := u ==s endpoint.
Definition no_jwt (payload : string) : option Z := None.

Definition key0 : key_row := mkRow "openai" "e:A0" "e:R0" 1000 endpoint "" "" true.
Definition with_info (info : string) : key_row := set_info info key0.

Definition go (http : http_answer) (chosen : string) : input := mkInput 5000 true true 0 true http "now" (Some chosen).
Definition step (t : nat) : action := AStep t (go NetError "k").
Definition ask (t : nat) (http : http_answer) : action := AStep t (go http "k").
Definition gives (access refresh : string) : http_answer := Answer 200 (Some JNull) (Some (mkTokens access refresh "" 3600)).

Definition run := sys_run codex no_jwt dec enc.

Lemma dec_enc nonce plain : dec (enc nonce plain) = Some plain.
Proof. unfold dec, enc. by rewrite HasPrefix_app. Qed.

(** The scheduler and then the admin refresh the key. *)
Definition twice : list action :=
  [AStart 1 JScheduled "k"; step 1; AStart 2 JManual "k"; step 2; step 1; ask 1 (gives "A1" "R1"); step 1; step 2; step 1; step 1; step 1;
   step 2; step 2; ask 2 (gives "A2" "R2"); step 2; step 2; step 2; step 2].

Definition request_of (token : string) : option token_request := Some (mkTokenRequest endpoint JSONBody codexClientID token).

Ltac spent_solver :=
  vm_compute; repeat (first [split | intro]); try reflexivity; try discriminate; try done;
  repeat match goal with
  | H : _ ∈ _ :: _ |- _ => apply elem_of_cons in H as [H|H]
  | H : _ ∈ [] |- _ => by apply not_elem_of_nil in H
  | H : list_elem_of _ [] |- _ => by apply not_elem_of_nil in H
  | H : list_elem_of _ (_ :: _) |- _ => apply elem_of_cons in H as [H|H]
  | _ => discriminate
  end.

Lemma replaced_token_never_presented_witness : ERotated "k" "R1" ∉ [ESent "k" "R0" (request_of "R0"); ERotated "k" "R0"].
Proof.
  apply (replaced_token_never_presented codex no_jwt dec enc dec_enc {["k" := key0]} twice
           [ESent "k" "R0" (request_of "R0"); ERotated "k" "R0"] [ERotated "k" "R1"] "k" "R1" (request_of "R1")).
  - intros kid row. rewrite lookup_singleton_Some. intros [_ <-]. by vm_compute.
  - spent_solver.
  - vm_compute. reflexivity.
Defined.

Definition refused : http_answer := Answer 401 None None.

(** The provider rejects the refresh token and the access token. *)
Definition rejected : list action := [AStart 1 JScheduled "k"; step 1; step 1; ask 1 refused; step 1; step 1; ask 1 refused].

Lemma deactivation_is_justified_witness :
  let log := s_log (sys_run codex no_jwt dec enc rejected (start {["k" := key0]})) in
  set_active false key0 = set_active false key0 /\
  (exists token, dec (kr_RefreshToken key0) = Some token /\ ERejected "k" token ∈ log) /\
  exists access status, dec (kr_KeyEncrypted key0) = Some access /\ ETested (TrimSpace access) status ∈ log /\ (status = 401 \/ status = 403).
Proof.
  apply (deactivation_is_justified codex no_jwt dec enc {["k" := key0]} rejected 1 (go NetError "k") "k" key0 (set_active false key0)); vm_compute; reflexivity.
Defined.

(** While the scheduler waits for the provider, the admin enters new credentials: the
    answer for the old ones is stored over them. *)
Definition overwritten : list action :=
  [AStart 1 JScheduled "k"; step 1; step 1; ask 1 (gives "A1" "R1");
   AAdmin (AdUpdate "k" "e:NewA" "e:NewR" endpoint "" 0); step 1; step 1; step 1; step 1].

Example admin_update_overwritten :
  let s := run overwritten (start {["k" := key0]}) in
  (kr_KeyEncrypted <$> s_rows s !! "k", kr_RefreshToken <$> s_rows s !! "k", s_threads s !! 1%nat) = (Some "e:A1", Some "e:R1", Some (PDone Refreshed)).
Proof. vm_compute. reflexivity. Qed.

(** With the metadata null, a refresh through the proxy panics after the provider has
    replaced the token and before the new one is stored, so the next refresh presents
    the replaced token. *)
Definition with_null : list action :=
  [AStart 1 JProxy "k"; step 1; step 1; ask 1 (gives "A1" "R1"); step 1; step 1; step 1; AStart 2 JProxy "k"; step 2; step 2; ask 2 refused].

Example null_metadata_loses_token :
  let s := run with_null (start {["k" := with_info "null"]}) in
  (s_threads s !! 1%nat, s_log s) =
  (Some (PDone Panicked), [ESent "k" "R0" None; ERotated "k" "R0"; ESent "k" "R0" None; ERejected "k" "R0"]).
Proof. vm_compute. reflexivity. Qed.

(** A phantom token of a round-robin pool: the resolution under the lock gives the
    other key of the pool. *)
Definition pool_db : database :=
  mkDB [mkPlaceholder "p" "dw_pool" "s" None (Some "g") "c" None false true 0]
    [mkAPIKey "k1" "s" "e:A1" "" "e:R1" "" true 0; mkAPIKey "k2" "s" "e:A2" "" "e:R2" "" true 0]
    [mkGroup "g" "round-robin" 0] [mkMember "g" "k1" 1; mkMember "g" "k2" 2] [].

Definition chosen_key (r : result resolve_error ResolveResult) : string := match r with Ok x => rr_APIKeyID x | Err _ => "" end.

Example pool_resolves_twice :
  let first := Resolve dec pool_db "dw_pool" "c" 0 in
  (chosen_key first.2, chosen_key (Resolve dec first.1 "dw_pool" "c" 0).2) = ("k1", "k2").
Proof. vm_compute. reflexivity. Qed.

(** So the proxy refreshes the second key under the lock of the first, while the
    scheduler refreshes it under its own: its token is presented after it was
    replaced. *)
Definition unlocked : list action :=
  [AStart 1 JProxy "k1"; AStep 1 (go NetError "k2"); AStep 1 (go NetError "k2"); AStart 2 JScheduled "k2"; step 2; step 2;
   AStep 1 (go (gives "A3" "R3") "k2"); ask 2 refused].

Example pool_refresh_unlocked :
  s_log (run unlocked (start {["k1" := key0; "k2" := key0]})) =
  [ESent "k2" "R0" None; ERotated "k2" "R0"; ESent "k2" "R0" (request_of "R0"); ERejected "k2" "R0"].
Proof. vm_compute. reflexivity. Qed.

End OAuthWitness.
