(* ===== verification/Crypto.v ===== *)
(** * Encryption of stored secrets: [internal/server/services/crypto.go]

    A secret is sealed with AES-GCM under a random nonce and stored as base64 of the
    nonce and the sealed text.  The cipher itself is the parameter [AEAD], with the
    law that opening a sealed text under the same key and nonce gives it back;
    [DecodeString] is [base64.StdEncoding]'s. *)

From S2P Require Import Prelude GoStrings GoMarshal.
Local Open Scope go_scope.

Class AEAD := {
  Seal : string -> string -> string -> string;             (* key, nonce, text *)
  Open_ : string -> string -> string -> option string;
  open_seal : forall key nonce text, Open_ key nonce (Seal key nonce text) = Some text;
}.

(** ** base64 *)

Definition base64_value (c : ascii) : option N :=
  let n := byteN c in
  if in_range 65 90 n then Some (n - 65)%N
  else if in_range 97 122 n then Some (n - 71)%N
  else if in_range 48 57 n then Some (n + 4)%N
  else if c ==c "+" then Some 62%N
  else if c ==c "/" then Some 63%N
  else None.

(** Line breaks are skipped wherever they are. *)
Fixpoint no_breaks (s : string) : string :=
  match s with
  | EmptyString => ""
  | String c s' => if (c ==c "010") || (c ==c "013") then no_breaks s' else String c (no_breaks s')
  end.

(** Four digits at a time; padding only at the end, and the bits left over are
    ignored. *)
Fixpoint decode64 (s : string) : option string :=
  match s with
  | EmptyString => Some ""
  | String a (String b (String c (String d s'))) =>
      match base64_value a, base64_value b with
      | Some x, Some y =>
          let first := Nbyte (x * 4 + y / 16) in
          match base64_value c with
          | None => if (c ==c "=") && (d ==c "=") && (s' ==s "") then Some (String first "") else None
          | Some z =>
              let second := Nbyte (y mod 16 * 16 + z / 4) in
              match base64_value d with
              | None => if (d ==c "=") && (s' ==s "") then Some (String first (String second "")) else None
              | Some w =>
                  match decode64 s' with
                  | Some rest => Some (String first (String second (String (Nbyte (z mod 4 * 64 + w)) rest)))
                  | None => None
                  end
              end
          end
      | _, _ => None
      end
  | _ => None
  end.

Definition DecodeString (s : string) : option string := decode64 (no_breaks s).

(** ** The secrets *)

Definition nonce_size : nat := 12.

(** [aes.NewCipher] takes keys of 16, 24 and 32 bytes. *)
Definition valid_key (key : string) : bool := (slen key =? 16) || (slen key =? 24) || (slen key =? 32).

Section Secrets.
Context `{AE : AEAD}.

(** [nonce] is what the random source gives, [None] when it fails. *)
Definition Encrypt (key : string) (nonce : option string) (plaintext : string) : option string :=
  if negb (valid_key key) then None
  else match nonce with
       | Some n => Some (base64 (n +:+ Seal key n plaintext))
       | None => None
       end.

Definition Decrypt (key encoded : string) : option string :=
  match DecodeString encoded with
  | None => None
  | Some ciphertext =>
      if negb (valid_key key) then None
      else if slen ciphertext <? nonce_size then None
      else Open_ key (str_take nonce_size ciphertext) (str_drop nonce_size ciphertext)
  end.

End Secrets.

(** ** Decoding undoes encoding *)

Lemma base64_value_digit (n : N) : (n < 64)%N -> base64_value (base64_digit n) = Some n /\ base64_digit n <> "010"%char /\ base64_digit n <> "013"%char.
Proof.
  intros Hn. assert (Hall : forallb (fun k => let c := base64_digit (N.of_nat k) in
    bool_decide (base64_value c = Some (N.of_nat k)) && negb (c ==c "010") && negb (c ==c "013")) (seq 0 64) = true) by (vm_compute; reflexivity).
  rewrite forallb_forall in Hall. specialize (Hall (N.to_nat n)). rewrite in_seq, N2Nat.id in Hall. specialize (Hall ltac:(lia)). cbn zeta in Hall.
  apply andb_true_iff in Hall as [[H1 H2]%andb_true_iff H3]. apply bool_decide_eq_true in H1. split_and!; [done|intros E|intros E]; rewrite E in *; done.
Qed.

Lemma no_breaks_digit n s : (n < 64)%N -> no_breaks (String (base64_digit n) s) = String (base64_digit n) (no_breaks s).
Proof.
  intros Hn. destruct (base64_value_digit n Hn) as (_ & H1 & H2). cbn [no_breaks].
  by rewrite (proj2 (Ascii.eqb_neq _ _) H1), (proj2 (Ascii.eqb_neq _ _) H2).
Qed.

Lemma byteN_bound c : (byteN c < 256)%N.
Proof. apply N_ascii_bounded. Qed.

Lemma Nbyte_byteN c n : n = byteN c -> Nbyte n = c.
Proof. intros ->. apply ascii_N_embedding. Qed.

Lemma base64_nil : DecodeString (base64 "") = Some "".
Proof. done. Qed.

Lemma pack (x y k : N) : (y < k)%N -> ((x * k + y) / k = x)%N /\ ((x * k + y) mod k = y)%N.
Proof.
  intros Hy. split; [by rewrite N.div_add_l, N.div_small by lia; lia|]. by rewrite N.add_comm, N.Div0.mod_add, N.mod_small.
Qed.

(** The digits of three bytes, and the bytes of those digits. *)
Lemma triple_digits (a b c : N) : (a < 256)%N -> (b < 256)%N -> (c < 256)%N ->
  (a / 4 < 64)%N /\ (a mod 4 * 16 + b / 16 < 64)%N /\ (b mod 16 * 4 + c / 64 < 64)%N /\ (c mod 64 < 64)%N /\
  (a / 4 * 4 + (a mod 4 * 16 + b / 16) / 16 = a)%N /\
  ((a mod 4 * 16 + b / 16) mod 16 * 16 + (b mod 16 * 4 + c / 64) / 4 = b)%N /\
  ((b mod 16 * 4 + c / 64) mod 4 * 64 + c mod 64 = c)%N.
Proof.
  intros Ha Hb Hc.
  assert (Hdiv : forall x k m, (0 < k)%N -> (x < k * m)%N -> (x / k < m)%N) by (intros; by apply N.Div0.div_lt_upper_bound).
  assert (Hsplit : forall x k, (x / k * k + x mod k = x)%N) by (intros x k; rewrite N.mul_comm; symmetry; apply N.div_mod').
  pose proof (Hdiv a 4 64 ltac:(lia) ltac:(lia))%N. pose proof (Hdiv b 16 16 ltac:(lia) ltac:(lia))%N.
  pose proof (Hdiv c 64 4 ltac:(lia) ltac:(lia))%N. pose proof (N.mod_upper_bound a 4 ltac:(lia)). pose proof (N.mod_upper_bound b 16 ltac:(lia)).
  pose proof (N.mod_upper_bound c 64 ltac:(lia)).
  destruct (pack (a mod 4) (b / 16) 16) as [-> ->]; [done|]. destruct (pack (b mod 16) (c / 64) 4) as [-> ->]; [done|].
  split_and!; [lia|lia|lia|lia|apply Hsplit..].
Qed.

(** Decoding what was encoded gives it back. *)
Lemma decode_encode (s : string) : DecodeString (base64 s) = Some s.
Proof.
  remember (slen s) as n eqn:E. revert s E. induction (lt_wf n) as [n _ IH]. intros s ->. unfold DecodeString in *.
  destruct s as [|a s]; [done|]. pose proof (byteN_bound a) as Ha.
  destruct s as [|b s].
  { destruct (triple_digits (byteN a) 0 0) as (H1 & H2 & _ & _ & E1 & _); [lia..|]. cbn [base64]. rewrite N.add_0_r in *.
    rewrite !no_breaks_digit by done. cbn [no_breaks decode64 Ascii.eqb orb].
    rewrite (proj1 (base64_value_digit _ H1)), (proj1 (base64_value_digit _ H2)). cbn. do 2 f_equal. by apply Nbyte_byteN. }
  pose proof (byteN_bound b) as Hb. destruct s as [|c s].
  { destruct (triple_digits (byteN a) (byteN b) 0) as (H1 & H2 & H3 & _ & E1 & E2 & _); [lia..|]. cbn [base64]. rewrite N.add_0_r in *.
    rewrite !no_breaks_digit by done. cbn [no_breaks decode64 Ascii.eqb orb].
    rewrite (proj1 (base64_value_digit _ H1)), (proj1 (base64_value_digit _ H2)), (proj1 (base64_value_digit _ H3)). cbn.
    do 2 f_equal; [by apply Nbyte_byteN|]. f_equal. by apply Nbyte_byteN. }
  pose proof (byteN_bound c) as Hc. destruct (triple_digits (byteN a) (byteN b) (byteN c)) as (H1 & H2 & H3 & H4 & E1 & E2 & E3); [lia..|].
  cbn [base64]. rewrite !no_breaks_digit by done. cbn [decode64].
  rewrite (proj1 (base64_value_digit _ H1)), (proj1 (base64_value_digit _ H2)), (proj1 (base64_value_digit _ H3)), (proj1 (base64_value_digit _ H4)).
  rewrite (IH (slen s)) by (done || (cbn [slen]; lia)). do 2 f_equal; [by apply Nbyte_byteN|]. f_equal; [by apply Nbyte_byteN|]. f_equal. by apply Nbyte_byteN.
Qed.

Section Roundtrip.
Context `{AE : AEAD}.

(** A stored secret can be read back with the key it was stored under. *)
Theorem decrypt_encrypt (key nonce plaintext : string) :
  valid_key key = true -> slen nonce = nonce_size ->
  exists stored, Encrypt key (Some nonce) plaintext = Some stored /\ Decrypt key stored = Some plaintext.
Proof.
  intros Hk Hn. unfold Encrypt, Decrypt. rewrite Hk. cbn [negb]. eexists. split; [done|]. rewrite decode_encode, slen_app, Hn.
  rewrite (proj2 (Nat.ltb_ge _ _)) by lia. rewrite <- Hn, str_take_app, str_drop_app. apply open_seal.
Qed.

End Roundtrip.
