(* ===== verification/ActivityState.v ===== *)
(** * The local state of Ducklord: [internal/ducklord/activity_state.go]

    Which activity of a session the user has seen, which categories are muted, how
    sessions are grouped, the project layout and terminal bookmarks; and the file
    they are kept in.  Also the notification policy of
    [internal/ducklord/notification_policy.go] and of [cmd/ducklord], and the count
    of new events in [notificationDeltas].

    A nil map is [None].  A [range] over a map visits its entries in an order the
    program does not choose: the order is an argument.  Texts of JSON values are
    represented by the values; encoding by reflection is the class [StateCodec].
    Event counters are [uint64] and times [int64]. *)

From S2P Require Import Prelude GoStrings GoMarshal GoJSON GoStrconv Session SessionDB Layout.
Local Open Scope go_scope.
Local Open Scope Z_scope.

(** ** Notification policy *)

Definition NotificationCompleted : string := "task_completed".
Definition NotificationFailed : string := "task_failed".
Definition NotificationActionNeeded : string := "action_needed".
Definition NotificationAttention : string := "terminal_attention".

Definition NotificationOff : string := "off".
Definition NotificationIndicator : string := "indicator".
Definition NotificationSound : string := "sound".
Definition NotificationSystem : string := "system".

Definition valid_category (c : string) : bool := among c NotificationCategories.
Definition valid_class (c : string) : bool := among c [NotificationCompleted; NotificationFailed; NotificationActionNeeded; NotificationAttention].
Definition valid_level (l : string) : bool := among l [NotificationOff; NotificationIndicator; NotificationSound; NotificationSystem].

Definition Rank (l : string) : Z :=
  if l ==s NotificationIndicator then 1 else if l ==s NotificationSound then 2 else if l ==s NotificationSystem then 3 else 0.

Definition NotificationClassFor (category : string) : option string :=
  if category ==s "task_completed" then Some NotificationCompleted
  else if among category ["task_failed"; "task_timeout"; "unexpected_process_exit"; "task_cancelled"] then Some NotificationFailed
  else if among category ["approval_required"; "agent_needs_input"] then Some NotificationActionNeeded
  else if category ==s "terminal_attention" then Some NotificationAttention
  else None.

(** A map of levels; [None] when it is nil. *)
Abbreviation levels := (option (gmap string string)).

Definition ResolveNotificationLevel (class : string) (global host session : levels) : string :=
  let pick (m : levels) (level : string) := default level (default ∅ m !! class) in
  pick session (pick host (pick global NotificationIndicator)).

Definition ShouldDeliver (level : string) (focusActive inFocusedProject : bool) (threshold : string) : bool :=
  if level ==s NotificationOff then false
  else negb focusActive || inFocusedProject || (Rank threshold <=? Rank level).

Definition ValidateNotificationLevels (m : levels) : bool :=
  forallb (fun e => valid_class e.1 && valid_level e.2) (map_to_list (default ∅ m)).

Definition notificationImportance (category : string) : Z :=
  if among category ["agent_needs_input"; "approval_required"] then 0
  else if among category ["task_failed"; "task_cancelled"; "task_timeout"; "unexpected_process_exit"] then 1
  else if category ==s "task_completed" then 2
  else if category ==s "terminal_attention" then 3
  else 4.

(** ** Data *)

Definition activityStateVersion : Z := 1.
Definition maxActivityStateBytes : Z := 1048576.
Definition maxOrganizationSessions : nat := 16384.
Definition maxCustomGroups : nat := 4096.
Definition maxTerminalBookmarks : nat := 4096.

Definition OrganizationCustom : string := "custom".
Definition OrganizationHost : string := "host".
Definition OrganizationType : string := "type".
Definition UngroupedGroupID : string := "ungrouped".

Record CustomGroup := mkGroup { cg_ID : string; cg_Name : string }.

Record OrganizationState := mkOrganization {
  os_Mode : string;
  os_SessionOrder : list SessionIdentity;
  os_Groups : list CustomGroup;
  os_Membership : option (gmap SessionIdentity string);
  os_GroupOrders : option (gmap string (list string));
  os_Collapsed : option (gmap string (list string)) }.

Record TerminalBookmark := mkBookmark {
  tb_Session : SessionIdentity; tb_Label : string; tb_Anchor : string; tb_Fingerprint : string }.

Record SessionNotificationState := mkEntry {
  ns_Seen : option (gmap string Z);
  ns_Observed : option (gmap string Z);
  ns_Disabled : option (gmap string bool);
  ns_Unread : option (gmap string bool);
  ns_LastEventAtMS : Z;
  ns_LastEventCategory : string;
  ns_Levels : levels }.

(** The zero value, which [s.Sessions[key]] gives for an absent key. *)
Definition no_entry : SessionNotificationState := mkEntry None None None None 0 "" None.

Record ActivityState := mkState {
  as_Version : Z;
  as_Sessions : option (gmap string SessionNotificationState);
  as_Organization : OrganizationState;
  as_ProjectLayout : ProjectLayout;
  as_Bookmarks : list TerminalBookmark;
  as_Extra : option (gmap string jval) }.

(** What [Reconcile] reads of a [RemoteSession]. *)
Record RemoteSession := mkRemote {
  rs_InstanceID : string;
  rs_SessionID : string;
  rs_ActivitySequences : gmap string Z;
  rs_ActivityUpdatedAtMS : gmap string Z }.

Definition newOrganizationState : OrganizationState :=
  mkOrganization OrganizationCustom [] [] (Some ∅) (Some {[OrganizationCustom := [UngroupedGroupID]]}) (Some ∅).

Definition organization_clone (o : OrganizationState) : OrganizationState :=
  mkOrganization (os_Mode o) (os_SessionOrder o) (os_Groups o) (Some (default ∅ (os_Membership o)))
    (Some (default ∅ (os_GroupOrders o))) (Some (default ∅ (os_Collapsed o))).

Definition NewActivityState : ActivityState :=
  mkState activityStateVersion (Some ∅) newOrganizationState NewProjectLayout [] (Some ∅).

Definition entry_clone (e : SessionNotificationState) : SessionNotificationState :=
  mkEntry (Some (default ∅ (ns_Seen e))) (Some (default ∅ (ns_Observed e))) (Some (default ∅ (ns_Disabled e)))
    (Some (default ∅ (ns_Unread e))) (ns_LastEventAtMS e) (ns_LastEventCategory e) (ns_Levels e).

(** [Clone]; [None] is a nil receiver. *)
Definition state_clone (s : option ActivityState) : ActivityState :=
  match s with
  | None => NewActivityState
  | Some s => mkState (as_Version s) (Some (entry_clone <$> default ∅ (as_Sessions s))) (organization_clone (as_Organization s))
                (Clone (as_ProjectLayout s)) (as_Bookmarks s) (Some (default ∅ (as_Extra s)))
  end.

Definition set_sessions (m : option (gmap string SessionNotificationState)) (s : ActivityState) : ActivityState :=
  mkState (as_Version s) m (as_Organization s) (as_ProjectLayout s) (as_Bookmarks s) (as_Extra s).

Definition mode_valid (m : string) : bool := (m ==s OrganizationCustom) || (m ==s OrganizationHost) || (m ==s OrganizationType).

(** The value of a key of a map that may be nil. *)
Definition get {A} (zero : A) (m : option (gmap string A)) (k : string) : A := default zero (default ∅ m !! k).

Definition entry_of (key : string) (s : ActivityState) : SessionNotificationState := default no_entry (default ∅ (as_Sessions s) !! key).

Section Activity.
Context `{UC : UnicodeCase} `{UF : UnicodeFormat} `{UU : UUIDs}.

(** ** Identities *)

Definition IdentityFromSession (r : RemoteSession) : option SessionIdentity :=
  match ParseInstanceID (rs_InstanceID r), ParseSessionID (rs_SessionID r) with
  | Some i, Ok s => Some (mkIdentity i s)
  | _, _ => None
  end.

Definition Key (i : SessionIdentity) : string :=
  if is_Ok (identity_validate i) then si_InstanceID i +:+ "/" +:+ si_SessionID i else "".

Definition MarshalText (i : SessionIdentity) : option string :=
  if is_Ok (identity_validate i) then Some (si_InstanceID i +:+ "/" +:+ si_SessionID i) else None.

Definition UnmarshalText (text : string) : option SessionIdentity :=
  match Split text "/" with
  | [a; b] => match ParseInstanceID a, ParseSessionID b with Some i, Ok s => Some (mkIdentity i s) | _, _ => None end
  | _ => None
  end.

Definition activitySessionKey (instanceID sessionID : string) : string :=
  match ParseInstanceID instanceID, ParseSessionID sessionID with
  | Some _, Ok _ => instanceID +:+ "/" +:+ sessionID
  | _, _ => ""
  end.

(** ** Events seen and unread *)

(** The parts of the loop body of [ReconcileWithEnabled], in its order. *)
Definition note_event (updated : gmap string Z) (category : string) (ec : SessionNotificationState * bool) : SessionNotificationState * bool :=
  let '(e, changed) := ec in
  let eventAt := default 0 (updated !! category) in
  if (0 <? eventAt) &&
     ((ns_LastEventAtMS e <? eventAt) ||
      (eventAt =? ns_LastEventAtMS e) && (notificationImportance category <? notificationImportance (ns_LastEventCategory e)))
  then (mkEntry (ns_Seen e) (ns_Observed e) (ns_Disabled e) (ns_Unread e) eventAt category (ns_Levels e), true)
  else (e, changed).

Definition set_seen (category : string) (n : Z) (e : SessionNotificationState) : SessionNotificationState :=
  mkEntry (Some (<[category := n]> (default ∅ (ns_Seen e)))) (ns_Observed e) (ns_Disabled e) (ns_Unread e)
    (ns_LastEventAtMS e) (ns_LastEventCategory e) (ns_Levels e).

Definition set_observed (category : string) (n : Z) (e : SessionNotificationState) : SessionNotificationState :=
  mkEntry (ns_Seen e) (Some (<[category := n]> (default ∅ (ns_Observed e)))) (ns_Disabled e) (ns_Unread e)
    (ns_LastEventAtMS e) (ns_LastEventCategory e) (ns_Levels e).

Definition set_unread (m : gmap string bool) (e : SessionNotificationState) : SessionNotificationState :=
  mkEntry (ns_Seen e) (ns_Observed e) (ns_Disabled e) (Some m) (ns_LastEventAtMS e) (ns_LastEventCategory e) (ns_Levels e).

Definition set_disabled (m : gmap string bool) (e : SessionNotificationState) : SessionNotificationState :=
  mkEntry (ns_Seen e) (ns_Observed e) (Some m) (ns_Unread e) (ns_LastEventAtMS e) (ns_LastEventCategory e) (ns_Levels e).

Definition observe (initial : bool) (category : string) (current : Z) (ec : SessionNotificationState * bool) : SessionNotificationState * bool :=
  let ec1 := if initial then (set_observed category current ec.1, true) else ec in
  if get 0 (ns_Observed ec1.1) category <? current then (set_observed category current ec1.1, true) else ec1.

Definition raise_seen (category : string) (current : Z) (ec : SessionNotificationState * bool) : SessionNotificationState * bool :=
  if get 0 (ns_Seen ec.1) category <? current then (set_seen category current ec.1, true) else ec.

Definition clear_unread (category : string) (ec : SessionNotificationState * bool) : SessionNotificationState * bool :=
  if get false (ns_Unread ec.1) category then (set_unread (delete category (default ∅ (ns_Unread ec.1))) ec.1, true) else ec.

Definition add_unread (category : string) (current : Z) (ec : SessionNotificationState * bool) : SessionNotificationState * bool :=
  if (get 0 (ns_Seen ec.1) category <? current) && negb (get false (ns_Unread ec.1) category)
  then (set_unread (<[category := true]> (default ∅ (ns_Unread ec.1))) ec.1, true) else ec.

(** Whether the policy mutes a category: [enabled] is nil or a function. *)
Definition muted (enabled : option (string -> bool)) (e : SessionNotificationState) (category : string) : bool :=
  get false (ns_Disabled e) category || match enabled with Some f => negb (f category) | None => false end.

Definition visit (activeFresh initial : bool) (enabled : option (string -> bool)) (updated : gmap string Z)
  (ec : SessionNotificationState * bool) (cv : string * Z) : SessionNotificationState * bool :=
  let '(category, current) := cv in
  let ec := observe initial category current (note_event updated category ec) in
  if activeFresh then clear_unread category (raise_seen category current ec)
  else if muted enabled ec.1 category then raise_seen category current ec
  else add_unread category current ec.

Definition with_maps (e : SessionNotificationState) : SessionNotificationState :=
  mkEntry (Some (default ∅ (ns_Seen e))) (Some (default ∅ (ns_Observed e))) (ns_Disabled e) (Some (default ∅ (ns_Unread e)))
    (ns_LastEventAtMS e) (ns_LastEventCategory e) (ns_Levels e).

(** One call of [ReconcileWithEnabled]; [visits] is the order of its [range].  [None]
    is the panic of an assignment to a nil map. *)
Definition ReconcileWithEnabled (visits : list (string * Z)) (session : RemoteSession) (activeFresh : bool)
  (enabled : option (string -> bool)) (s : ActivityState) : option (ActivityState * (bool * bool)) :=
  let key := activitySessionKey (rs_InstanceID session) (rs_SessionID session) in
  if key ==s "" then Some (s, (false, false))
  else
    let e := entry_of key s in
    let initial := bool_decide (ns_Observed e = None) in
    let '(e', changed) := fold_left (visit activeFresh initial enabled (rs_ActivityUpdatedAtMS session)) visits (with_maps e, false) in
    let unread := existsb (fun x => x.2) (map_to_list (default ∅ (ns_Unread e'))) in
    match as_Sessions s with
    | Some m => Some (set_sessions (Some (<[key := e']> m)) s, (unread, changed))
    | None => None
    end.

Definition Reconcile (visits : list (string * Z)) (session : RemoteSession) (activeFresh : bool) (s : ActivityState) :=
  ReconcileWithEnabled visits session activeFresh None s.

Definition MarkSeen (visits : list (string * Z)) (session : RemoteSession) (s : ActivityState) : option (ActivityState * bool) :=
  match Reconcile visits session true s with Some (s', (_, changed)) => Some (s', changed) | None => None end.

(** An error leaves the state as it was; [None] is a panic. *)
Definition SetEnabled (instanceID sessionID category : string) (enabled : bool) (s : ActivityState) : option (ActivityState * bool) :=
  let key := activitySessionKey instanceID sessionID in
  if (key ==s "") || negb (valid_category category) then Some (s, false)
  else
    let e := entry_of key s in
    let d := default ∅ (ns_Disabled e) in
    let e' := set_disabled (if enabled then delete category d else <[category := true]> d) e in
    match as_Sessions s with Some m => Some (set_sessions (Some (<[key := e']> m)) s, true) | None => None end.

Definition Enabled (instanceID sessionID category : string) (s : ActivityState) : bool :=
  let key := activitySessionKey instanceID sessionID in
  if (key ==s "") || negb (valid_category category) then false else negb (get false (ns_Disabled (entry_of key s)) category).

(** [effectiveNotificationLevel] of [cmd/ducklord]: [host] is the level map of the
    session's client in the configuration. *)
Definition effectiveNotificationLevel (global host : levels) (session : RemoteSession) (s : ActivityState) (category : string) : string :=
  match NotificationClassFor category with
  | Some class =>
      if negb (Enabled (rs_InstanceID session) (rs_SessionID session) category s) then NotificationOff
      else
        let local := match IdentityFromSession session with Some i => ns_Levels (entry_of (Key i) s) | None => None end in
        ResolveNotificationLevel class global host local
  | None => NotificationOff
  end.

Definition reconcileNotificationState (visits : list (string * Z)) (global host : levels) (session : RemoteSession) (activeFresh : bool)
  (s : ActivityState) : option (ActivityState * (bool * bool)) :=
  ReconcileWithEnabled visits session activeFresh (Some (fun c => effectiveNotificationLevel global host session s c !=s NotificationOff)) s.

(** [markActivitySeen] of [cmd/ducklord]; [saved] is whether the save succeeds. *)
Definition markActivitySeen (visits : list (string * Z)) (session : RemoteSession) (saved : bool) (s : ActivityState) : option ActivityState :=
  match MarkSeen visits session (state_clone (Some s)) with
  | Some (next, changed) => Some (if changed && saved then next else s)
  | None => None
  end.

(** The loop of [saveNotificationSettings]; [None] when a call is refused. *)
Fixpoint set_all (session : RemoteSession) (staged : string -> bool) (categories : list string) (s : ActivityState) : option ActivityState :=
  match categories with
  | [] => Some s
  | c :: cs =>
      match SetEnabled (rs_InstanceID session) (rs_SessionID session) c (staged c) s with
      | Some (s', true) => set_all session staged cs s'
      | _ => None
      end
  end.

Definition set_levels (m : gmap string string) (e : SessionNotificationState) : SessionNotificationState :=
  mkEntry (ns_Seen e) (ns_Observed e) (ns_Disabled e) (ns_Unread e) (ns_LastEventAtMS e) (ns_LastEventCategory e) (Some m).

(** The state [saveNotificationSettings] saves, or [None] if it stops before. *)
Definition settings_next (session : RemoteSession) (staged : string -> bool) (m : gmap string string) (s : ActivityState) : option ActivityState :=
  next ← set_all session staged NotificationCategories (state_clone (Some s));
  if negb (ValidateNotificationLevels (Some m)) then None
  else
    i ← IdentityFromSession session;
    Some (set_sessions (Some (<[Key i := set_levels m (entry_of (Key i) next)]> (default ∅ (as_Sessions next)))) next).

Definition saveNotificationSettings (session : RemoteSession) (staged : string -> bool) (m : gmap string string) (saved : bool) (s : ActivityState)
  : ActivityState :=
  match settings_next session staged m s with Some next => if saved then next else s | None => s end.

(** [focus] is the project the user restricts notifications to, [""] for none. *)
Definition shouldDeliverNotification (global host : levels) (focus threshold : string) (session : RemoteSession) (s : ActivityState) (category : string) : bool :=
  let level := effectiveNotificationLevel global host session s category in
  if focus ==s "" then level !=s NotificationOff
  else
    match IdentityFromSession session with
    | None => false
    | Some i => ShouldDeliver level true (among focus (ProjectsFor i (as_ProjectLayout s))) threshold
    end.

(** ** New events to deliver: [notificationDeltas] of [cmd/ducklord/main.go]

    [observed] is [s.notificationObserved]; [before] holds the counters of the row
    the update replaces, [None] when there was none. *)
Definition delta_step (first : bool) (before : gmap string Z) (acc : gmap string Z * gmap string Z) (cv : string * Z) : gmap string Z * gmap string Z :=
  let '(observed, deltas) := acc in
  let '(category, value) := cv in
  let baseline := if first then value else default 0 (before !! category) in
  let seen := default 0 (observed !! category) in
  let baseline := if baseline <? seen then seen else baseline in
  (<[category := value]> observed, if baseline <? value then <[category := value - baseline]> deltas else deltas).

Definition notificationDeltas (visits : list (string * Z)) (identity : string) (before : option (gmap string Z))
  (observed : gmap string (gmap string Z)) : gmap string (gmap string Z) * gmap string Z :=
  let first := bool_decide (before = None) && bool_decide (observed !! identity = None) in
  let '(o, deltas) := fold_left (delta_step first (default ∅ before)) visits (default ∅ (observed !! identity), ∅) in
  (<[identity := o]> observed, deltas).

(** ** Terminal bookmarks *)

Variable sha256hex : string -> string.

Definition newline : ascii := "010".

Definition TerminalTextFingerprint (text : string) : string := "sha256:" +:+ sha256hex text.

(** The last line that is not empty, or the first one; [lines] is not empty. *)
Fixpoint last_line (last : nat) (lines : list string) : nat :=
  match last with
  | O => O
  | S n => if default "" (lines !! last) ==s "" then last_line n lines else last
  end.

Definition occurrences (hash : string) (lines : list string) : nat :=
  length (filter (fun l => TerminalTextFingerprint l = hash) lines).

Definition label_ok (label : string) : bool := (label !=s "") && (length (runes label) <=? 80)%nat && ValidString label.

Inductive activity_error :=
| BadIdentity (e : layout_error) | BadLabel | BadAnchor | TooManyBookmarks | BadBookmark
| BadMode (m : string) | TooManySessions | DuplicateSession | TooManyGroups | BadGroupID (id : string) | DuplicateGroup (id : string)
| BadGroupName (id : string) | UnknownGroup (id : string) | BadOrderMode (m : string) | OrderTooLarge | BadOrderID (m id : string)
| BadCollapsed (m id : string) | BadVersion (v : Z) | BadLayout (e : layout_error)
| BadKey | BadCategory (c : string) | BadTimestamp | BadLevels | BadDisabled | BadUnread
| UnsafeFile | TooLarge | BadSection (name : string) | BadDirectory | IOError.

Definition identity_check (i : SessionIdentity) : result activity_error unit :=
  match identity_validate i with Ok _ => Ok tt | Err e => Err (BadIdentity e) end.

Definition NewTerminalBookmark (session : SessionIdentity) (label0 text : string) : result activity_error TerminalBookmark :=
  _ <-! identity_check session;
  let label := TrimSpace label0 in
  if negb (label_ok label) then Err BadLabel
  else
    let lines := Split text newline in
    let last := last_line (length lines - 1) lines in
    let lineHash := TerminalTextFingerprint (default "" (lines !! last)) in
    let occurrence := Z.of_nat (occurrences lineHash (take (S last) lines)) in
    Ok (mkBookmark session label ("line:" +:+ int_text (occurrence - 1)) lineHash).

(** [fmt.Sscanf(anchor, "line:%d", &occurrence)]: the text, spaces but no newline,
    an optional sign and digits; what follows is left unread. *)
Fixpoint skip_space (skip : nat) (s : string) : option string :=
  match s with
  | EmptyString => Some ""
  | String c s' =>
      match skip with
      | S k => skip_space k s'
      | O =>
          if c ==c newline then None
          else if (c ==c "013") && (match s' with String d _ => d ==c newline | EmptyString => false end) then skip_space 1 s'
          else let '(r, w) := DecodeRune s in if IsSpace r then skip_space (w - 1) s' else Some s
      end
  end.

Fixpoint digit_prefix (s : string) : string :=
  match s with
  | String c s' => if is_digit c then String c (digit_prefix s') else ""
  | EmptyString => ""
  end.

Definition scan_int (s : string) : option Z :=
  match skip_space 0 s with
  | Some (String c s') => ParseInt (if (c ==c "+") || (c ==c "-") then String c (digit_prefix s') else digit_prefix (String c s'))
  | _ => None
  end.

Definition Sscanf_line (anchor : string) : option Z :=
  if HasPrefix anchor "line:" then scan_int (str_drop 5 anchor) else None.

Fixpoint find_occurrence (fingerprint : string) (seen occurrence : Z) (index : nat) (lines : list string) : option nat :=
  match lines with
  | [] => None
  | l :: ls =>
      if TerminalTextFingerprint l !=s fingerprint then find_occurrence fingerprint seen occurrence (S index) ls
      else if seen =? occurrence then Some index
      else find_occurrence fingerprint (seen + 1) occurrence (S index) ls
  end.

Definition TerminalBookmarkLine (text : string) (b : TerminalBookmark) : option nat :=
  match Sscanf_line (tb_Anchor b) with
  | Some occurrence => if occurrence <? 0 then None else find_occurrence (tb_Fingerprint b) 0 occurrence 0 (Split text newline)
  | None => None
  end.

(** [boundedTerminalText] and [terminalBookmarkLineInCurrent] of
    [cmd/ducklord/terminal_tools.go]: a bookmark is made in the end of the text and
    looked up in all of it. *)
Definition terminalSearchBytes : nat := Nat.mul 64 1024.

Definition boundedTerminalText (text : string) : string :=
  if (slen text <=? terminalSearchBytes)%nat then text else str_drop (slen text - terminalSearchBytes) text.

Definition terminalBookmarkLineInCurrent (text : string) (b : TerminalBookmark) : option nat := TerminalBookmarkLine text b.

Definition AddTerminalBookmark (b : TerminalBookmark) (s : ActivityState) : result activity_error ActivityState :=
  _ <-! identity_check (tb_Session b);
  if (TrimSpace (tb_Label b) !=s tb_Label b) || negb (label_ok (tb_Label b)) then Err BadLabel
  else if (tb_Anchor b ==s "") || (tb_Fingerprint b ==s "") then Err BadAnchor
  else if (maxTerminalBookmarks <=? length (as_Bookmarks s))%nat then Err TooManyBookmarks
  else Ok (mkState (as_Version s) (as_Sessions s) (as_Organization s) (as_ProjectLayout s) (as_Bookmarks s ++ [b]) (as_Extra s)).

Definition TerminalBookmarksFor (i : SessionIdentity) (s : ActivityState) : list TerminalBookmark :=
  filter (fun b => tb_Session b = i) (as_Bookmarks s).

(** ** Validation *)

Definition check (b : bool) (e : activity_error) : result activity_error unit := if b then Ok tt else Err e.

Fixpoint each {A} (f : A -> result activity_error unit) (l : list A) : result activity_error unit :=
  match l with
  | [] => Ok tt
  | x :: l' => _ <-! f x; each f l'
  end.

(** [each], with the elements before the current one. *)
Fixpoint each_new {A} (f : list A -> A -> result activity_error unit) (seen l : list A) : result activity_error unit :=
  match l with
  | [] => Ok tt
  | x :: l' => _ <-! f seen x; each_new f (x :: seen) l'
  end.

Definition group_check (seen : list CustomGroup) (g : CustomGroup) : result activity_error unit :=
  _ <-! check (canonicalLayoutUUID (cg_ID g) && (cg_ID g !=s UngroupedGroupID)) (BadGroupID (cg_ID g));
  _ <-! check (negb (among (cg_ID g) (map cg_ID seen))) (DuplicateGroup (cg_ID g));
  check (validateCustomGroupName (cg_Name g)) (BadGroupName (cg_ID g)).

(** The switch on the mode shared by the group orders and the collapsed groups. *)
Definition group_known (groups : list string) (mode id : string) : bool :=
  if mode ==s OrganizationCustom then (id ==s UngroupedGroupID) || among id groups
  else if mode ==s OrganizationHost then SafeIdentifier id
  else if mode ==s OrganizationType then (id ==s "shell") || (id ==s "agent")
  else true.

Definition id_check (err : string -> activity_error) (groups : list string) (mode : string) (seen : list string) (id : string)
  : result activity_error unit :=
  _ <-! check (negb ((id ==s "") || among id seen)) (err id);
  check (group_known groups mode id) (err id).

Definition order_check (groups : list string) (x : string * list string) : result activity_error unit :=
  _ <-! check (mode_valid x.1) (BadOrderMode x.1);
  _ <-! check (length x.2 <=? maxCustomGroups + 1)%nat OrderTooLarge;
  each_new (id_check (BadOrderID x.1) groups x.1) [] x.2.

Definition collapsed_check (groups : list string) (x : string * list string) : result activity_error unit :=
  _ <-! check (mode_valid x.1 && (length x.2 <=? maxCustomGroups + 1)%nat) (BadCollapsed x.1 "");
  each_new (id_check (BadCollapsed x.1) groups x.1) [] x.2.

Definition member_check (groups : list string) (x : SessionIdentity * string) : result activity_error unit :=
  _ <-! identity_check x.1; check (among x.2 groups) (UnknownGroup x.2).

Definition organization_validate (o : OrganizationState) : result activity_error OrganizationState :=
  let mode := if os_Mode o ==s "" then OrganizationCustom else os_Mode o in
  let membership := default ∅ (os_Membership o) in
  let groups := map cg_ID (os_Groups o) in
  _ <-! check (mode_valid mode) (BadMode mode);
  _ <-! check ((length (os_SessionOrder o) <=? maxOrganizationSessions)%nat && (size membership <=? maxOrganizationSessions)%nat) TooManySessions;
  _ <-! each_new (fun seen i => _ <-! identity_check i; check (negb (bool_decide (i ∈ seen))) DuplicateSession) [] (os_SessionOrder o);
  _ <-! check (length (os_Groups o) <=? maxCustomGroups)%nat TooManyGroups;
  _ <-! each_new group_check [] (os_Groups o);
  _ <-! each (member_check groups) (map_to_list membership);
  _ <-! each (order_check groups) (map_to_list (default ∅ (os_GroupOrders o)));
  _ <-! each (collapsed_check groups) (map_to_list (default ∅ (os_Collapsed o)));
  Ok (mkOrganization mode (os_SessionOrder o) (os_Groups o) (Some membership)
        (Some (default ∅ (os_GroupOrders o))) (Some (default ∅ (os_Collapsed o)))).

Definition bookmark_check (b : TerminalBookmark) : result activity_error unit :=
  _ <-! identity_check (tb_Session b);
  check ((TrimSpace (tb_Label b) ==s tb_Label b) && label_ok (tb_Label b) && (tb_Anchor b !=s "") && (tb_Fingerprint b !=s "")) BadBookmark.

Definition key_check (key : string) : result activity_error unit :=
  match Split key "/" with
  | [a; b] =>
      _ <-! check (bool_decide (is_Some (ParseInstanceID a))) (BadIdentity InvalidInstance);
      check (is_Ok (ParseSessionID b)) (BadIdentity InvalidSession)
  | _ => Err BadKey
  end.

Definition categories_check (m : option (gmap string Z)) : result activity_error unit :=
  each (fun x => check (valid_category x.1) (BadCategory x.1)) (map_to_list (default ∅ m)).

Definition flags_check (err : activity_error) (m : option (gmap string bool)) : result activity_error unit :=
  each (fun x => check (valid_category x.1 && x.2) err) (map_to_list (default ∅ m)).

Definition entry_check (x : string * SessionNotificationState) : result activity_error unit :=
  let e := x.2 in
  _ <-! key_check x.1;
  _ <-! categories_check (ns_Seen e);
  _ <-! categories_check (ns_Observed e);
  _ <-! check (0 <=? ns_LastEventAtMS e) BadTimestamp;
  _ <-! check ((ns_LastEventCategory e ==s "") || valid_category (ns_LastEventCategory e)) (BadCategory (ns_LastEventCategory e));
  _ <-! check (ValidateNotificationLevels (ns_Levels e)) BadLevels;
  _ <-! flags_check BadDisabled (ns_Disabled e);
  flags_check BadUnread (ns_Unread e).

(** [validate] also fills in what is missing: it returns the state it leaves.  Which
    of several errors is reported depends on the order of the maps. *)
Definition state_validate (s : ActivityState) : result activity_error ActivityState :=
  _ <-! check (as_Version s =? activityStateVersion) (BadVersion (as_Version s));
  o <-! organization_validate (as_Organization s);
  _ <-! (match Validate (as_ProjectLayout s) with Ok _ => Ok tt | Err e => Err (BadLayout e) end);
  _ <-! check (length (as_Bookmarks s) <=? maxTerminalBookmarks)%nat TooManyBookmarks;
  _ <-! each bookmark_check (as_Bookmarks s);
  _ <-! each entry_check (map_to_list (default ∅ (as_Sessions s)));
  Ok (mkState (as_Version s) (Some (default ∅ (as_Sessions s))) o (as_ProjectLayout s) (as_Bookmarks s) (as_Extra s)).
End Activity.
