(* ===== verification/ActivityStore.v ===== *)
(** * Saving and loading the local state: [ActivityStateStore] of [activity_state.go]

    [Save] writes a temporary file and renames it over the state file; [Load] reads it
    back, and sets a file it cannot use aside.  The model lists the disks a save
    goes through, with every call that can fail, and marks a file as synced when its
    content has reached the disk. *)

From S2P Require Import Prelude GoStrings GoMarshal GoJSON GoStrconv Session SessionDB Layout ActivityState.
Local Open Scope go_scope.
Local Open Scope Z_scope.

Inductive file_kind := Regular | Symlink | OtherKind.

Record file := mkFile { f_kind : file_kind; f_perm : Z; f_data : string; f_synced : bool }.

(** The directory of the state file and the files in it, by name. *)
Record disk := mkDisk { dk_dir : option (bool * Z); dk_files : gmap string file }.

Definition private_mode (perm : Z) : bool := Z.land perm 63 =? 0.

(** ** The text of a state

    A section is represented by its JSON value; the texts of the typed sections are
    written and read by reflection. *)
Class StateCodec := {
  render_sections : gmap string jval -> string;           (* [json.MarshalIndent] *)
  parse_sections : string -> option (gmap string jval);   (* one value, then the end *)
  enc_version : Z -> jval;
  dec_version : jval -> option Z;
  enc_sessions : option (gmap string SessionNotificationState) -> jval;
  dec_sessions : jval -> option (option (gmap string SessionNotificationState));
  enc_organization : OrganizationState -> jval;
  dec_organization : OrganizationState -> jval -> option OrganizationState;   (* into a value *)
  enc_layout : ProjectLayout -> jval;
  dec_layout : ProjectLayout -> jval -> option ProjectLayout;
  enc_bookmarks : list TerminalBookmark -> jval;
  dec_bookmarks : jval -> option (list TerminalBookmark) }.

Definition reserved_sections : list string := ["version"; "notifications"; "organization"; "project_layout"; "terminal_bookmarks"].

Section Store.
Context `{UC : UnicodeCase} `{UF : UnicodeFormat} `{UU : UUIDs} `{SC : StateCodec}.

Definition MarshalJSON (s : ActivityState) : result activity_error (gmap string jval) :=
  let extra := default ∅ (as_Extra s) in
  match List.find (fun x => among x.1 reserved_sections) (map_to_list extra) with
  | Some (name, _) => Err (BadSection name)
  | None =>
      let sections := <["project_layout" := enc_layout (as_ProjectLayout s)]>
                      (<["organization" := enc_organization (as_Organization s)]>
                      (<["notifications" := enc_sessions (as_Sessions s)]>
                      (<["version" := enc_version (as_Version s)]> extra))) in
      Ok (match as_Bookmarks s with [] => sections | bs => <["terminal_bookmarks" := enc_bookmarks bs]> sections end)
  end.

(** A section that is present is decoded and taken out. *)
Definition section {A} (name : string) (absent : A) (dec : jval -> option A) (sections : gmap string jval)
  : option (A * gmap string jval) :=
  match sections !! name with
  | Some raw => match dec raw with Some v => Some (v, delete name sections) | None => None end
  | None => Some (absent, sections)
  end.

Definition UnmarshalJSON (sections : gmap string jval) : option ActivityState :=
  match sections !! "version" with
  | Some raw =>
      match dec_version raw with
      | Some version =>
          '(sessions, r1) ← section "notifications" (Some ∅) dec_sessions (delete "version" sections);
          '(organization, r2) ← section "organization" newOrganizationState (dec_organization newOrganizationState) r1;
          '(projects, r3) ← section "project_layout" NewProjectLayout (dec_layout NewProjectLayout) r2;
          '(bookmarks, r4) ← section "terminal_bookmarks" [] dec_bookmarks r3;
          Some (mkState version sessions organization projects bookmarks (Some r4))
      | None => None
      end
  | None => None
  end.

(** ** Load *)

Inductive load_cause := Undecodable | Unusable (e : activity_error).
Inductive load_warning := CorruptStateRecovered (preserved : string) (cause : load_cause) | UnknownMode (mode : string).

Record load_answers := mkLoad { la_open : bool; la_stat : bool; la_read : bool; la_rename : bool; la_now : Z }.

Definition corrupt_name (path : string) (now : Z) : string := path +:+ ".corrupt-" +:+ int_text now.

Definition recoverCorrupt (path : string) (a : load_answers) (cause : load_cause) (d : disk)
  : disk * result activity_error (ActivityState * option load_warning) :=
  if la_rename a then
    match dk_files d !! path with
    | Some f =>
        (mkDisk (dk_dir d) (<[corrupt_name path (la_now a) := f]> (delete path (dk_files d))),
         Ok (NewActivityState, Some (CorruptStateRecovered (corrupt_name path (la_now a)) cause)))
    | None => (d, Err IOError)
    end
  else (d, Err IOError).

(** The mode of a decoded state is repaired before it is validated. *)
Definition repair_mode (s : ActivityState) : ActivityState * option load_warning :=
  let o := as_Organization s in
  let custom := mkState (as_Version s) (as_Sessions s)
                  (mkOrganization OrganizationCustom (os_SessionOrder o) (os_Groups o) (os_Membership o) (os_GroupOrders o) (os_Collapsed o))
                  (as_ProjectLayout s) (as_Bookmarks s) (as_Extra s) in
  if os_Mode o ==s "" then (custom, None)
  else if mode_valid (os_Mode o) then (s, None)
  else (custom, Some (UnknownMode (os_Mode o))).

Definition Load (path : string) (a : load_answers) (d : disk) : disk * result activity_error (ActivityState * option load_warning) :=
  match dk_files d !! path with
  | None => if la_open a then (d, Ok (NewActivityState, None)) else (d, Err IOError)
  | Some f =>
      if negb (la_open a) || (match f_kind f with Symlink => true | _ => false end) || negb (la_stat a) then (d, Err IOError)
      else if negb (match f_kind f with Regular => true | _ => false end) || negb (private_mode (f_perm f)) || (maxActivityStateBytes <? zlen (f_data f))
      then (d, Err UnsafeFile)
      else if negb (la_read a) then (d, Err IOError)
      else
        match parse_sections (f_data f) ≫= UnmarshalJSON with
        | None => recoverCorrupt path a Undecodable d
        | Some s0 =>
            let '(s, warning) := repair_mode s0 in
            match state_validate s with
            | Ok s' => (d, Ok (s', warning))
            | Err e => recoverCorrupt path a (Unusable e) d
            end
        end
  end.

(** ** Save *)

Record save_answers := mkSave {
  sv_mkdir : bool; sv_lstat : bool; sv_chmod_dir : bool; sv_lstat2 : bool;
  sv_create : option string;      (* the name [os.CreateTemp] chose *)
  sv_chmod : bool; sv_write : option nat;   (* [Some n]: the write fails after [n] bytes *)
  sv_sync : bool; sv_close : bool; sv_rename : bool; sv_open_dir : bool; sv_sync_dir : bool; sv_remove : bool }.

Definition put_file (name : string) (f : file) (d : disk) : disk := mkDisk (dk_dir d) (<[name := f]> (dk_files d)).
Definition remove_file (name : string) (d : disk) : disk := mkDisk (dk_dir d) (delete name (dk_files d)).
Definition rename_file (from to : string) (d : disk) : disk :=
  match dk_files d !! from with Some f => mkDisk (dk_dir d) (<[to := f]> (delete from (dk_files d))) | None => d end.
Definition set_dir (x : bool * Z) (d : disk) : disk := mkDisk (Some x) (dk_files d).

(** The part of [Save] that makes the directory private, and the disks it leaves. *)
Definition private_dir (a : save_answers) (d : disk) : list disk * result activity_error unit :=
  if negb (sv_mkdir a) then ([], Err IOError)
  else
    match dk_dir d with
    | Some (false, _) => ([], Err IOError)
    | _ =>
        let perm := match dk_dir d with Some (_, p) => p | None => 448 end in
        let d1 := set_dir (true, perm) d in
        if negb (sv_lstat a) then ([d1], Err BadDirectory)
        else if private_mode perm then ([d1], Ok tt)
        else if negb (sv_chmod_dir a) then ([d1], Err IOError)
        else ([d1; set_dir (true, 448) d], if sv_lstat2 a then Ok tt else Err BadDirectory)
    end.

(** From [os.CreateTemp] to the rename, without the deferred removal. *)
Definition write_temp (path tmp data : string) (a : save_answers) (d : disk) : list disk * result activity_error unit :=
  let at_ perm text synced := put_file tmp (mkFile Regular perm text synced) d in
  let d1 := at_ 384 "" false in
  if negb (sv_chmod a) then ([d1], Err IOError)
  else match sv_write a with
       | Some n => ([d1; at_ 384 (str_take n data) false], Err IOError)
       | None =>
           let d2 := at_ 384 data false in
           if negb (sv_sync a) then ([d1; d2], Err IOError)
           else
             let d3 := at_ 384 data true in
             if negb (sv_close a) then ([d1; d2; d3], Err IOError)
             else if negb (sv_rename a) then ([d1; d2; d3], Err IOError)
             else ([d1; d2; d3; rename_file tmp path d3], if sv_open_dir a && sv_sync_dir a then Ok tt else Err IOError)
       end.

Definition last_disk (d : disk) (trail : list disk) : disk := default d (last trail).

(** The disks a call of [Save] leaves one after the other, and its answer. *)
Definition Save (path : string) (a : save_answers) (s0 : ActivityState) (d : disk) : list disk * result activity_error unit :=
  match state_validate s0 with
  | Err e => ([], Err e)
  | Ok s =>
      match MarshalJSON s with
      | Err e => ([], Err e)
      | Ok sections =>
          let data := render_sections sections +:+ String newline "" in
          if maxActivityStateBytes <? zlen data then ([], Err TooLarge)
          else
            let '(t1, r1) := private_dir a d in
            match r1 with
            | Err e => (t1, Err e)
            | Ok _ =>
                let d1 := last_disk d t1 in
                match sv_create a with
                | None => (t1, Err IOError)
                | Some tmp =>
                    let '(t2, r2) := write_temp path tmp data a d1 in
                    let d2 := last_disk d1 t2 in
                    (t1 ++ t2 ++ (if sv_remove a then [remove_file tmp d2] else []), r2)
                end
            end
      end
  end.

(** ** What a state becomes when it is saved and loaded

    Empty maps are left out and read back as nil, and the order of the custom groups
    is decoded into the default. *)

Definition normal {A} (m : option (gmap string A)) : option (gmap string A) := if bool_decide (default ∅ m = ∅) then None else m.

Definition normal_entry (e : SessionNotificationState) : SessionNotificationState :=
  mkEntry (normal (ns_Seen e)) (normal (ns_Observed e)) (normal (ns_Disabled e)) (normal (ns_Unread e))
    (ns_LastEventAtMS e) (ns_LastEventCategory e) (normal (ns_Levels e)).

Definition decoded_organization (o : OrganizationState) : OrganizationState :=
  mkOrganization (os_Mode o) (os_SessionOrder o) (os_Groups o) (Some (default ∅ (os_Membership o)))
    (Some (default ∅ (os_GroupOrders o) ∪ {[OrganizationCustom := [UngroupedGroupID]]})) (Some (default ∅ (os_Collapsed o))).

Definition normal_sessions (m : option (gmap string SessionNotificationState)) : option (gmap string SessionNotificationState) :=
  match m with Some m => Some (normal_entry <$> m) | None => None end.

Definition reloaded (s : ActivityState) : ActivityState :=
  mkState (as_Version s) (normal_sessions (as_Sessions s)) (decoded_organization (as_Organization s)) (as_ProjectLayout s)
    (as_Bookmarks s) (Some (default ∅ (as_Extra s))).

(** What [encoding/json] promises for the parts of [s]: what it writes, it reads
    back, empty maps aside.  Texts have to be valid UTF-8 for this. *)
Record reads_back (s : ActivityState) : Prop := mkReads {
  rb_text : forall sections, MarshalJSON s = Ok sections -> parse_sections (render_sections sections +:+ String newline "") = Some sections;
  rb_version : dec_version (enc_version (as_Version s)) = Some (as_Version s);
  rb_sessions : dec_sessions (enc_sessions (as_Sessions s)) = Some (normal_sessions (as_Sessions s));
  rb_organization : os_Mode (as_Organization s) <> "" ->
    dec_organization newOrganizationState (enc_organization (as_Organization s)) = Some (decoded_organization (as_Organization s));
  rb_layout : dec_layout NewProjectLayout (enc_layout (as_ProjectLayout s)) = Some (as_ProjectLayout s);
  rb_bookmarks : dec_bookmarks (enc_bookmarks (as_Bookmarks s)) = Some (as_Bookmarks s) }.

Lemma each_ok {A} (f : A -> result activity_error unit) l : each f l = Ok tt <-> forall x, x ∈ l -> f x = Ok tt.
Proof.
  induction l as [|x l IH]; cbn [each]; [split; [set_solver|done]|]. destruct (f x) as [[]|e] eqn:E; cbn [rbind].
  - rewrite IH. set_solver.
  - split; [done|]. intros H. specialize (H x ltac:(set_solver)). congruence.
Qed.

Lemma each_map_ok {K V} `{Countable K} (f : K * V -> result activity_error unit) (m : gmap K V) :
  each f (map_to_list m) = Ok tt <-> forall k v, m !! k = Some v -> f (k, v) = Ok tt.
Proof.
  rewrite each_ok. split; [intros Hf k v Hk; apply Hf; by apply elem_of_map_to_list|].
  intros Hf [k v] Hk. apply Hf. by apply elem_of_map_to_list.
Qed.

Lemma rbind_ok {E A B} (m : result E A) (k : A -> result E B) b : rbind m k = Ok b <-> exists a, m = Ok a /\ k a = Ok b.
Proof. destruct m; cbn; naive_solver. Qed.

Lemma rbind_unit {E B} (m : result E unit) (k : unit -> result E B) b : rbind m k = Ok b <-> m = Ok tt /\ k tt = Ok b.
Proof. destruct m as [[]|]; cbn; naive_solver. Qed.

Lemma check_ok b e : check b e = Ok tt <-> b = true.
Proof. by destruct b. Qed.

(** What a successful validation has checked, and what it leaves. *)
Lemma organization_validate_ok o o' :
  organization_validate o = Ok o' ->
  mode_valid (os_Mode o') = true /\
  o' = mkOrganization (os_Mode o') (os_SessionOrder o) (os_Groups o) (Some (default ∅ (os_Membership o)))
         (Some (default ∅ (os_GroupOrders o))) (Some (default ∅ (os_Collapsed o))) /\
  organization_validate o' = Ok o' /\
  organization_validate (decoded_organization o') = Ok (decoded_organization o').
Proof.
  unfold organization_validate. cbv zeta. intros H. repeat (apply rbind_unit in H as [? H]). injection H as <-.
  cbn [os_Mode os_SessionOrder os_Groups os_Membership os_GroupOrders os_Collapsed].
  set (mode := if os_Mode o ==s "" then OrganizationCustom else os_Mode o) in *.
  assert (Hm : mode_valid mode = true) by (by apply check_ok in H0).
  assert (Hne : mode ==s "" = false) by (by destruct (String.eqb_spec mode ""); [subst mode; rewrite e in Hm|]).
  split_and!; [done|done| |].
  - rewrite Hne. cbn [from_option id]. rewrite H0. cbn [rbind]. rewrite H1. cbn [rbind]. rewrite H2. cbn [rbind]. rewrite H3. cbn [rbind].
    rewrite H4. cbn [rbind]. rewrite H5. cbn [rbind]. rewrite H6. cbn [rbind]. by rewrite H7.
  - unfold decoded_organization. cbn [os_Mode os_SessionOrder os_Groups os_Membership os_GroupOrders os_Collapsed from_option id].
    rewrite Hne. rewrite H0. cbn [rbind]. rewrite H1. cbn [rbind]. rewrite H2. cbn [rbind]. rewrite H3. cbn [rbind].
    rewrite H4. cbn [rbind]. rewrite H5. cbn [rbind].
    rewrite (proj2 (each_map_ok _ _)); [cbn [rbind]; by rewrite H7|].
    intros k v Hk. apply lookup_union_Some_raw in Hk as [Hk|[_ Hk]]; [by apply (proj1 (each_map_ok _ _) H6)|].
    apply lookup_singleton_Some in Hk as [<- <-]. done.
Qed.

Lemma default_normal {A} (m : option (gmap string A)) : default ∅ (normal m) = default ∅ m.
Proof. unfold normal. by case_bool_decide as H. Qed.

Lemma entry_check_normal key e : entry_check (key, normal_entry e) = entry_check (key, e).
Proof.
  unfold entry_check, categories_check, flags_check, ValidateNotificationLevels. cbn [snd fst normal_entry ns_Seen ns_Observed ns_Disabled
    ns_Unread ns_LastEventAtMS ns_LastEventCategory ns_Levels]. by rewrite !default_normal.
Qed.

Lemma state_validate_ok s s' :
  state_validate s = Ok s' ->
  mode_valid (os_Mode (as_Organization s')) = true /\ is_Some (as_Sessions s') /\
  state_validate (reloaded s') = Ok (reloaded s').
Proof.
  unfold state_validate. intros H. apply rbind_unit in H as [Hv H]. apply rbind_ok in H as (o & Ho & H).
  apply rbind_unit in H as [Hl H]. apply rbind_unit in H as [Hb H]. apply rbind_unit in H as [Hbs H]. apply rbind_unit in H as [He H].
  injection H as <-. cbn [as_Organization as_Sessions]. destruct (organization_validate_ok _ _ Ho) as (Hm & Eo & _ & Hr).
  split_and!; [done|done|]. cbn [reloaded as_Version as_Sessions as_Organization as_ProjectLayout as_Bookmarks as_Extra normal_sessions from_option id].
  rewrite Hv. cbn [rbind]. rewrite Hr. cbn [rbind]. rewrite Hl. cbn [rbind]. rewrite Hb. cbn [rbind]. rewrite Hbs. cbn [rbind].
  rewrite (proj2 (each_map_ok _ _)); [done|]. intros k v Hk. rewrite lookup_fmap in Hk.
  destruct (default ∅ (as_Sessions s) !! k) as [e|] eqn:E; [|done]. injection Hk as <-. rewrite entry_check_normal.
  by apply (proj1 (each_map_ok _ _) He).
Qed.

Lemma find_none_among (m : gmap string jval) name : List.find (fun x => among x.1 reserved_sections) (map_to_list m) = None ->
  among name reserved_sections = true -> m !! name = None.
Proof.
  intros H Hn. destruct (m !! name) as [v|] eqn:E; [|done]. apply elem_of_map_to_list in E. apply list_elem_of_In in E.
  pose proof (List.find_none _ _ H _ E) as Hf. cbv beta in Hf. cbn [fst] in Hf. congruence.
Qed.

Lemma section_present {A} name (absent : A) dec m raw v : m !! name = Some raw -> dec raw = Some v ->
  section name absent dec m = Some (v, delete name m).
Proof. intros H1 H2. unfold section. by rewrite H1, H2. Qed.

(** Decoding undoes encoding. *)
Lemma unmarshal_marshal s sections :
  reads_back s -> os_Mode (as_Organization s) <> "" -> MarshalJSON s = Ok sections -> UnmarshalJSON sections = Some (reloaded s).
Proof.
  intros R Hm H. pose proof (rb_organization _ R Hm) as Ro. destruct R as [_ Rv Rs _ Rl Rb]. unfold MarshalJSON in H. cbv zeta in H.
  destruct (List.find _ _) as [[n v]|] eqn:Ef; [done|]. set (extra := default ∅ (as_Extra s)) in *.
  pose proof (fun n => find_none_among extra n Ef) as Hx.
  set (base := <["project_layout" := _]> _) in H.
  assert (Hs : sections = match as_Bookmarks s with [] => base | bs => <["terminal_bookmarks" := enc_bookmarks bs]> base end) by congruence. clear H.
  assert (L : forall n, n <> "terminal_bookmarks" -> sections !! n = base !! n).
  { intros n Hn. rewrite Hs. destruct (as_Bookmarks s); [done|]. by rewrite lookup_insert_ne. }
  unfold UnmarshalJSON. rewrite L by done. unfold base. rewrite !lookup_insert_ne, lookup_insert_eq by done. rewrite Rv.
  erewrite section_present; [|rewrite lookup_delete_ne, L by done; unfold base; rewrite !lookup_insert_ne, lookup_insert_eq by done; done|exact Rs].
  cbn [mbind option_bind].
  erewrite section_present; [|rewrite !lookup_delete_ne, L by done; unfold base; rewrite !lookup_insert_ne, lookup_insert_eq by done; done|exact Ro].
  cbn [mbind option_bind].
  erewrite section_present; [|rewrite !lookup_delete_ne, L by done; unfold base; rewrite lookup_insert_eq by done; done|exact Rl].
  cbn [mbind option_bind].
  assert (E : section "terminal_bookmarks" [] dec_bookmarks
     (delete "project_layout" (delete "organization" (delete "notifications" (delete "version" sections)))) = Some (as_Bookmarks s, extra)).
  { unfold section. rewrite !lookup_delete_ne by done. rewrite Hs. destruct (as_Bookmarks s) as [|b bs].
    - unfold base. rewrite !lookup_insert_ne by done. rewrite Hx by done. do 2 f_equal.
      apply map_eq. intros n. repeat (rewrite lookup_delete; case_decide; [subst; by rewrite Hx|]). by rewrite !lookup_insert_ne.
    - rewrite lookup_insert_eq, Rb. do 2 f_equal.
      apply map_eq. intros n. repeat (rewrite lookup_delete; case_decide; [subst; by rewrite Hx|]). rewrite lookup_insert_ne by done.
      unfold base. by rewrite !lookup_insert_ne. }
  rewrite E. done.
Qed.

(** ** Saving replaces the file at once *)

Definition saved_file (data : string) : file := mkFile Regular 384 data true.

Lemma private_dir_files a d d' : d' ∈ (private_dir a d).1 -> dk_files d' = dk_files d.
Proof. unfold private_dir. repeat case_match; set_solver. Qed.

Lemma last_disk_files d t (P : gmap string file -> Prop) : P (dk_files d) -> (forall d', d' ∈ t -> P (dk_files d')) -> P (dk_files (last_disk d t)).
Proof.
  intros H0 H. unfold last_disk. destruct (last t) as [x|] eqn:E; [|done]. apply H. by apply last_Some_elem_of.
Qed.

Lemma last_disk_app d t1 t2 : last_disk d (t1 ++ t2) = last_disk (last_disk d t1) t2.
Proof. unfold last_disk. rewrite last_app. by destruct (last t2). Qed.

Lemma write_temp_files path tmp data a d :
  tmp <> path ->
  (forall d', d' ∈ (write_temp path tmp data a d).1 ->
     dk_files d' !! path = dk_files d !! path \/ dk_files d' !! path = Some (saved_file data)) /\
  ((write_temp path tmp data a d).2 = Ok tt -> dk_files (last_disk d (write_temp path tmp data a d).1) !! path = Some (saved_file data)).
Proof.
  intros Hne. set (d3 := put_file tmp (saved_file data) d).
  assert (Hr : dk_files (rename_file tmp path d3) !! path = Some (saved_file data)).
  { unfold rename_file, d3. cbn. rewrite lookup_insert_eq. cbn. by rewrite lookup_insert_eq. }
  assert (Hp : forall f, dk_files (put_file tmp f d) !! path = dk_files d !! path) by (intros f; cbn; by rewrite lookup_insert_ne).
  unfold write_temp. cbv zeta. fold (saved_file data). fold d3.
  repeat (case_match; cbn [fst snd]); (split; [|done || by intros _; cbn]); intros d' Hd'; set_unfold in Hd';
    destruct_or?; subst; try done; auto; left; apply Hp.
Qed.

Lemma remove_file_other name path d : name <> path -> dk_files (remove_file name d) !! path = dk_files d !! path.
Proof. intros H. cbn. by rewrite lookup_delete_ne. Qed.

(** The file at [path] holds [v] for good, and reading it gives [v] back. *)
Definition stores (path : string) (v : ActivityState) (d : disk) : Prop :=
  (exists f, dk_files d !! path = Some f /\ f_synced f = true) /\
  forall la, la_open la = true -> la_stat la = true -> la_read la = true -> Load path la d = (d, Ok (reloaded v, None)).

Lemma load_saved_file path s v sections d :
  state_validate s = Ok v -> reads_back v -> MarshalJSON v = Ok sections ->
  zlen (render_sections sections +:+ String newline "") <= maxActivityStateBytes ->
  dk_files d !! path = Some (saved_file (render_sections sections +:+ String newline "")) -> stores path v d.
Proof.
  intros Hv R Hs Hl Hf. destruct (state_validate_ok _ _ Hv) as (Hm & _ & Hre). split; [by eexists|]. intros la Ho Ht Hr.
  assert (Hmode : os_Mode (as_Organization v) <> "") by (intros E; by rewrite E in Hm).
  unfold Load. rewrite Hf, Ho, Ht, Hr. cbn [negb orb saved_file f_kind f_perm f_data].
  rewrite (proj2 (Z.ltb_ge _ _) Hl). cbn [orb negb private_mode]. rewrite (rb_text _ R _ Hs). cbn [mbind option_bind].
  rewrite (unmarshal_marshal _ _ R Hmode Hs). unfold repair_mode. cbn [reloaded as_Organization decoded_organization os_Mode].
  destruct (String.eqb_spec (os_Mode (as_Organization v)) "") as [|_]; [done|]. rewrite Hm. by rewrite Hre.
Qed.

(** C26. A save replaces the state at once.  Whatever fails, and at every point between
    two system calls, the file holds what it held before, or the new state on disk,
    which [Load] returns; after a save that succeeded, the new state. *)
Theorem save_is_atomic (path : string) (a : save_answers) (s v : ActivityState) (d : disk) (trail : list disk) (r : result activity_error unit) :
  state_validate s = Ok v -> reads_back v -> sv_create a <> Some path -> Save path a s d = (trail, r) ->
  (forall d', d' ∈ trail -> dk_files d' !! path = dk_files d !! path \/ stores path v d') /\
  (r = Ok tt -> stores path v (last_disk d trail)).
Proof.
  intros Hv R Hne. unfold Save. rewrite Hv. destruct (MarshalJSON v) as [sections|e] eqn:Hs; [|intros [= <- <-]; set_solver].
  cbv zeta. set (data := render_sections sections +:+ _). destruct (Z.ltb_spec maxActivityStateBytes (zlen data)) as [|Hl]; [intros [= <- <-]; set_solver|].
  pose proof (fun d' => private_dir_files a d d') as Hp. destruct (private_dir a d) as [t1 r1] eqn:E1. cbn [fst] in Hp.
  assert (Hp' : forall d', d' ∈ t1 -> dk_files d' !! path = dk_files d !! path) by (intros d' Hd'; by rewrite Hp).
  destruct r1 as [[]|e]; [|intros [= <- <-]; naive_solver]. destruct (sv_create a) as [tmp|]; [|intros [= <- <-]; naive_solver].
  assert (Ht : tmp <> path) by congruence. pose proof (write_temp_files path tmp data a (last_disk d t1) Ht) as [W1 W2].
  destruct (write_temp path tmp data a (last_disk d t1)) as [t2 r2] eqn:E2. cbn [fst snd] in W1, W2. intros [= <- <-].
  assert (H1 : dk_files (last_disk d t1) !! path = dk_files d !! path).
  { apply (last_disk_files d t1 (fun m => m !! path = dk_files d !! path)); [done|]. intros d' Hd'. by rewrite Hp. }
  set (fin := last_disk (last_disk d t1) t2) in *. set (t3 := if sv_remove a then [remove_file tmp fin] else []).
  assert (Q2 : forall d', d' ∈ t2 \/ d' = fin -> dk_files d' !! path = dk_files d !! path \/ dk_files d' !! path = Some (saved_file data)).
  { rewrite H1 in W1. intros d' [H| ->]; [by apply W1|]. subst fin.
    apply (last_disk_files _ t2 (fun m => m !! path = _ \/ m !! path = _)); [by left|exact W1]. }
  assert (H3 : forall d', d' ∈ t3 -> dk_files d' !! path = dk_files fin !! path).
  { subst t3. intros d' Hd'. destruct (sv_remove a); [|by apply not_elem_of_nil in Hd']. apply list_elem_of_singleton in Hd' as ->. by apply remove_file_other. }
  split.
  - intros d' Hd'. rewrite !elem_of_app in Hd'. assert (Q : dk_files d' !! path = dk_files d !! path \/ dk_files d' !! path = Some (saved_file data)).
    { destruct Hd' as [H|[H|H]]; [left; by apply Hp'|apply Q2; auto|]. rewrite (H3 _ H). apply Q2; auto. }
    destruct Q as [Q|Q]; [by left|right]. by eapply load_saved_file.
  - intros Hr. eapply load_saved_file; [done..|]. rewrite !last_disk_app. fold fin.
    apply (last_disk_files fin t3 (fun m => m !! path = Some (saved_file data))); [by apply W2|].
    intros d' Hd'. rewrite (H3 _ Hd'). by apply W2.
Qed.
End Store.
