(* ===== verification/ActivitySafety.v ===== *)
(** * What Ducklord knows to be unread, and where bookmarks lead

    Theorems on [ActivityState]: the unread marks are exactly the events reported and
    neither shown nor muted; each event is delivered once; a bookmark finds its
    line. *)

From S2P Require Import Prelude GoStrings GoMarshal GoJSON GoStrconv Session SessionDB Layout ActivityState ActivityStore.
Local Open Scope go_scope.
Local Open Scope Z_scope.

(** ** One call of [Reconcile], category by category *)

(** What one report of [n] does to the counter seen and the unread mark. *)
Definition after_report (active mute : bool) (n : Z) (x : Z * bool) : Z * bool :=
  if active then (Z.max x.1 n, false)
  else if mute then (Z.max x.1 n, x.2)
  else (x.1, x.2 || (x.1 <? n)).

Definition marks (e : SessionNotificationState) (c : string) : Z * bool := (get 0 (ns_Seen e) c, get false (ns_Unread e) c).

Lemma get_insert {A} (zero x : A) m c c' : get zero (Some (<[c := x]> (default ∅ m))) c' = if bool_decide (c = c') then x else get zero m c'.
Proof.
  unfold get. cbn [from_option id]. case_bool_decide as H; [subst; by rewrite lookup_insert_eq|by rewrite lookup_insert_ne].
Qed.

Lemma get_delete {A} (zero : A) m c c' : get zero (Some (delete c (default ∅ m))) c' = if bool_decide (c = c') then zero else get zero m c'.
Proof.
  unfold get. cbn [from_option id]. case_bool_decide as H; [subst; by rewrite lookup_delete_eq|by rewrite lookup_delete_ne].
Qed.

(** Everything [visit] does not touch for the marks. *)
Definition same_marks (e e' : SessionNotificationState) : Prop :=
  ns_Seen e' = ns_Seen e /\ ns_Unread e' = ns_Unread e /\ ns_Disabled e' = ns_Disabled e /\ ns_Levels e' = ns_Levels e.

Lemma noted_marks updated initial c n ec :
  same_marks ec.1 (observe initial c n (note_event updated c ec)).1.
Proof.
  destruct ec as [e ch]. unfold observe, note_event. by repeat (case_match; cbn in *; try done).
Qed.

Lemma visit_marks active initial enabled updated ec c n c' :
  marks (visit active initial enabled updated ec (c, n)).1 c' =
    (if bool_decide (c = c') then after_report active (muted enabled ec.1 c) n (marks ec.1 c') else marks ec.1 c') /\
  ns_Disabled (visit active initial enabled updated ec (c, n)).1 = ns_Disabled ec.1 /\
  ns_Levels (visit active initial enabled updated ec (c, n)).1 = ns_Levels ec.1.
Proof.
  unfold visit. destruct (noted_marks updated initial c n ec) as (Hs & Hu & Hd & Hl). revert Hs Hu Hd Hl.
  generalize (observe initial c n (note_event updated c ec)). intros [e ch] Hs Hu Hd Hl. cbn [fst] in *.
  assert (Hm : muted enabled e c = muted enabled ec.1 c) by (unfold muted; by rewrite Hd). rewrite Hm.
  unfold marks. rewrite <- Hs, <- Hu, <- Hd, <- Hl. clear Hs Hu Hd Hl Hm.
  unfold clear_unread, raise_seen, add_unread, after_report. cbn [fst].
  destruct active; [|destruct (muted enabled ec.1 c)];
    repeat (case_match; cbn [fst set_seen set_unread ns_Seen ns_Unread ns_Disabled ns_Levels] in * );
    rewrite ?get_insert, ?get_delete; repeat (case_bool_decide; subst); bool_to_prop; split_and!; try done;
    f_equal; try lia; try congruence.
  all: cbn [snd]; destruct H as [->|Hu]; [by rewrite orb_false_r|by destruct (get false (ns_Unread e) c')].
Qed.

Lemma fold_marks active initial enabled updated visits ec c :
  NoDup (map fst visits) ->
  let r := fold_left (visit active initial enabled updated) visits ec in
  marks r.1 c = match (list_to_map visits : gmap string Z) !! c with
                | Some n => after_report active (muted enabled ec.1 c) n (marks ec.1 c)
                | None => marks ec.1 c
                end /\
  ns_Disabled r.1 = ns_Disabled ec.1 /\ ns_Levels r.1 = ns_Levels ec.1.
Proof.
  revert ec. induction visits as [|[c0 n0] visits IH]; intros ec Hnd; [done|]. cbn [map fst] in Hnd. apply NoDup_cons in Hnd as [Hn Hnd].
  cbn [fold_left]. destruct (IH (visit active initial enabled updated ec (c0, n0)) Hnd) as (H1 & H2 & H3).
  destruct (visit_marks active initial enabled updated ec c0 n0 c) as (V1 & V2 & V3). cbv zeta. rewrite H1, H2, H3, V1, V2, V3.
  split; [|done]. unfold muted. rewrite V2. cbn [list_to_map foldr fst snd uncurry].
  destruct (decide (c0 = c)) as [->|Hne].
  - rewrite bool_decide_true by done. rewrite not_elem_of_list_to_map_1 by done. by rewrite lookup_insert_eq.
  - rewrite bool_decide_false by done. by rewrite lookup_insert_ne by done.
Qed.

Lemma with_maps_marks e c : marks (with_maps e) c = marks e c /\ forall enabled, muted enabled (with_maps e) c = muted enabled e c.
Proof. done. Qed.

Section Safety.
Context `{UC : UnicodeCase} `{UF : UnicodeFormat} `{UU : UUIDs}.

(** The order of a [range] over the counters of a session. *)
Definition ranges (visits : list (string * Z)) (r : RemoteSession) : Prop := visits ≡ₚ map_to_list (rs_ActivitySequences r).

Lemma ranges_map visits r : ranges visits r -> NoDup (map fst visits) /\ (list_to_map visits : gmap string Z) = rs_ActivitySequences r.
Proof.
  intros H. assert (Hn : NoDup (map fst visits)).
  { rewrite (Permutation_map fst H). apply (NoDup_fst_map_to_list (rs_ActivitySequences r)). }
  split; [done|]. rewrite (list_to_map_proper visits _ Hn H). apply list_to_map_to_list.
Qed.

Lemma reconcile_marks visits r active enabled s s' u ch key c :
  ranges visits r -> ReconcileWithEnabled visits r active enabled s = Some (s', (u, ch)) ->
  let k := activitySessionKey (rs_InstanceID r) (rs_SessionID r) in
  marks (entry_of key s') c =
    match (if (k ==s "") || negb (bool_decide (k = key)) then None else rs_ActivitySequences r !! c) with
    | Some n => after_report active (muted enabled (entry_of key s) c) n (marks (entry_of key s) c)
    | None => marks (entry_of key s) c
    end /\
  ns_Disabled (entry_of key s') = ns_Disabled (entry_of key s) /\ (is_Some (as_Sessions s') <-> is_Some (as_Sessions s)).
Proof.
  intros Hr. unfold ReconcileWithEnabled. cbv zeta. destruct (String.eqb_spec (activitySessionKey (rs_InstanceID r) (rs_SessionID r)) "") as [E|E].
  { intros [= <- _ _]. done. }
  set (k := activitySessionKey _ _) in *. destruct (ranges_map _ _ Hr) as [Hn Hm].
  destruct (fold_left _ visits _) as [e' ch'] eqn:Ef. destruct (as_Sessions s) as [m|] eqn:Em; [|done]. intros [= <- _ _]. cbn [orb].
  pose proof (fold_marks active (bool_decide (ns_Observed (entry_of k s) = None)) enabled (rs_ActivityUpdatedAtMS r) visits (with_maps (entry_of k s), false) c Hn) as HF.
  rewrite Ef in HF. cbv zeta in HF. cbn [fst] in HF. destruct HF as (F1 & F2 & _). rewrite Hm in F1.
  destruct (decide (k = key)) as [<-|Hk].
  - rewrite bool_decide_true by done. cbn [negb].
    assert (Ee : entry_of k (set_sessions (Some (<[k:=e']> m)) s) = e') by (unfold entry_of; cbn; by rewrite lookup_insert_eq).
    rewrite Ee, F1, F2. by split_and!.
  - rewrite bool_decide_false by done. cbn [negb].
    assert (Ee : entry_of key (set_sessions (Some (<[k:=e']> m)) s) = entry_of key s).
    { unfold entry_of. cbn. rewrite Em. cbn. by rewrite lookup_insert_ne. }
    rewrite Ee. by split_and!.
Qed.

(** ** The history of a state *)

(** What changes the state: reports of the hosts, looking at a session, settings of a
    session, a copy, edits of the other parts, and a restart of the program. *)
Inductive activity_op :=
| OReport (visits : list (string * Z)) (r : RemoteSession) (active : bool) (enabled : option (string -> bool))
| OSeen (visits : list (string * Z)) (r : RemoteSession) (saved : bool)
| OSettings (r : RemoteSession) (staged : string -> bool) (m : gmap string string) (saved : bool)
| OClone
| OEdit (o : OrganizationState) (l : ProjectLayout) (bs : list TerminalBookmark)
| ORestart.

Definition activity_step (op : activity_op) (s : ActivityState) : option ActivityState :=
  match op with
  | OReport visits r active enabled => fst <$> ReconcileWithEnabled visits r active enabled s
  | OSeen visits r saved => markActivitySeen visits r saved s
  | OSettings r staged m saved => Some (saveNotificationSettings r staged m saved s)
  | OClone => Some (state_clone (Some s))
  | OEdit o l bs => Some (mkState (as_Version s) (as_Sessions s) o l bs (as_Extra s))
  | ORestart => Some (reloaded s)
  end.

Definition activity_run (ops : list activity_op) (s : ActivityState) : option ActivityState :=
  fold_left (fun s op => s ≫= activity_step op) ops (Some s).

Definition session_key (r : RemoteSession) : string := activitySessionKey (rs_InstanceID r) (rs_SessionID r).

(** What an operation reports for a category of a session: the counter, and whether
    the user is looking at the session. *)
Definition reports (op : activity_op) (key c : string) : option (Z * bool) :=
  match op with
  | OReport _ r active _ => if bool_decide (session_key r = key) then (fun n => (n, active)) <$> rs_ActivitySequences r !! c else None
  | OSeen _ r saved => if saved && bool_decide (session_key r = key) then (fun n => (n, true)) <$> rs_ActivitySequences r !! c else None
  | _ => None
  end.

(** Whether settings mute a category of a session. *)
Definition switches (op : activity_op) (key c : string) : option bool :=
  match op with
  | OSettings r staged m true =>
      if bool_decide (session_key r = key) && valid_category c && ValidateNotificationLevels (Some m) then Some (negb (staged c)) else None
  | _ => None
  end.

Definition switched_off (ops : list activity_op) (key c : string) : bool :=
  fold_left (fun b op => default b (switches op key c)) ops false.

(** Whether the report of [op] after [ops] is muted, by settings or by the policy. *)
Definition silent (ops : list activity_op) (op : activity_op) (key c : string) : bool :=
  switched_off ops key c || match op with OReport _ _ _ (Some f) => negb (f c) | _ => false end.

Definition fair_op (op : activity_op) : Prop :=
  match op with OReport visits r _ _ | OSeen visits r _ => ranges visits r | _ => True end.

Definition off (key c : string) (s : ActivityState) : bool := get false (ns_Disabled (entry_of key s)) c.

Lemma entry_of_set key k e s : entry_of key (set_sessions (Some (<[k := e]> (default ∅ (as_Sessions s)))) s) = if bool_decide (k = key) then e else entry_of key s.
Proof. unfold entry_of. cbn. case_bool_decide; [subst; by rewrite lookup_insert_eq|by rewrite lookup_insert_ne]. Qed.

Lemma set_all_spec (r : RemoteSession) staged cs s :
  session_key r <> "" -> forallb valid_category cs = true -> is_Some (as_Sessions s) ->
  exists s', set_all r staged cs s = Some s' /\ is_Some (as_Sessions s') /\
    forall key c, marks (entry_of key s') c = marks (entry_of key s) c /\
      off key c s' = if bool_decide (session_key r = key) && among c cs then negb (staged c) else off key c s.
Proof.
  intros Hk. revert s. induction cs as [|c0 cs IH]; intros s Hv [m Hm].
  { exists s. cbn. rewrite Hm. split_and!; [done..|]. intros key c. by rewrite andb_false_r. }
  cbn [forallb] in Hv. apply andb_true_iff in Hv as [Hc Hv]. cbn [set_all]. unfold SetEnabled. fold (session_key r).
  rewrite (proj2 (String.eqb_neq _ _) Hk), Hc. cbn [negb orb]. rewrite Hm.
  set (e := set_disabled _ _). set (s1 := set_sessions (Some (<[session_key r := e]> m)) s).
  destruct (IH s1 Hv) as (s' & E & Hs & Hspec); [done|]. exists s'. split_and!; [exact E|done|]. intros key c.
  destruct (Hspec key c) as [H1 H2]. rewrite H1, H2.
  assert (Ee : entry_of key s1 = if bool_decide (session_key r = key) then e else entry_of key s).
  { pose proof (entry_of_set key (session_key r) e s) as X. rewrite Hm in X. exact X. }
  unfold off. rewrite Ee. case_bool_decide as Hkey; [|done]. subst key. split; [done|]. cbn [andb among existsb].
  fold (among c cs). destruct (among c cs); [by rewrite orb_true_r|]. rewrite orb_false_r. subst e. cbn [set_disabled ns_Disabled].
  destruct (staged c0) eqn:Est; rewrite ?get_delete, ?get_insert; destruct (String.eqb_spec c c0) as [->|Hne].
  1,3: rewrite bool_decide_true by done; by rewrite Est.
  all: by rewrite bool_decide_false by congruence.
Qed.

Lemma clone_entry key s : entry_of key (state_clone (Some s)) = entry_clone (entry_of key s) \/ entry_of key (state_clone (Some s)) = entry_of key s.
Proof.
  unfold entry_of. cbn [state_clone as_Sessions from_option id]. rewrite lookup_fmap. destruct (default ∅ (as_Sessions s) !! key); [by left|by right].
Qed.

Lemma clone_marks key c s : marks (entry_of key (state_clone (Some s))) c = marks (entry_of key s) c /\ off key c (state_clone (Some s)) = off key c s.
Proof. unfold off. by destruct (clone_entry key s) as [-> | ->]. Qed.

Lemma reloaded_marks key c s : is_Some (as_Sessions s) ->
  marks (entry_of key (reloaded s)) c = marks (entry_of key s) c /\ off key c (reloaded s) = off key c s.
Proof.
  intros [m Hm]. unfold off, entry_of. cbn [reloaded as_Sessions]. rewrite Hm. cbn [normal_sessions from_option id]. rewrite lookup_fmap.
  destruct (m !! key) as [e|]; [|done]. unfold marks, get. cbn. by rewrite !default_normal.
Qed.

Lemma visit_unchanged active initial enabled updated ec cv c :
  (visit active initial enabled updated ec cv).2 = false -> ec.2 = false /\ marks (visit active initial enabled updated ec cv).1 c = marks ec.1 c.
Proof.
  destruct ec as [e ch], cv as [c0 n]. unfold visit, note_event, observe, raise_seen, clear_unread, add_unread.
  by repeat (case_match; cbn in *; try done).
Qed.

Lemma fold_unchanged active initial enabled updated visits ec c :
  (fold_left (visit active initial enabled updated) visits ec).2 = false ->
  marks (fold_left (visit active initial enabled updated) visits ec).1 c = marks ec.1 c /\ ec.2 = false.
Proof.
  revert ec. induction visits as [|cv visits IH]; intros ec H; [done|]. cbn [fold_left] in *. destruct (IH _ H) as [-> H2].
  by destruct (visit_unchanged _ _ _ _ _ _ c H2) as [? ->].
Qed.

Lemma reconcile_unchanged visits r active enabled s s' u key c :
  ReconcileWithEnabled visits r active enabled s = Some (s', (u, false)) -> marks (entry_of key s') c = marks (entry_of key s) c.
Proof.
  unfold ReconcileWithEnabled. cbv zeta. destruct (activitySessionKey _ _ ==s ""); [by intros [= <- _]|]. fold (session_key r).
  pose proof (fold_unchanged active (bool_decide (ns_Observed (entry_of (session_key r) s) = None)) enabled (rs_ActivityUpdatedAtMS r) visits
    (with_maps (entry_of (session_key r) s), false) c) as H.
  destruct (fold_left _ visits _) as [e' ch] eqn:E. destruct (as_Sessions s) as [m|] eqn:Em; [|done]. intros [= <- _ ->].
  destruct (H eq_refl) as [H1 _]. pose proof (entry_of_set key (session_key r) e' s) as X. rewrite Em in X. cbn [from_option id] in X. rewrite X.
  case_bool_decide; [subst; exact H1|done].
Qed.

Lemma seen_step visits r saved s s' key c :
  ranges visits r -> key <> "" -> is_Some (as_Sessions s) -> markActivitySeen visits r saved s = Some s' ->
  is_Some (as_Sessions s') /\ off key c s' = off key c s /\
  marks (entry_of key s') c = match reports (OSeen visits r saved) key c with
                              | Some (n, a) => after_report a (off key c s) n (marks (entry_of key s) c)
                              | None => marks (entry_of key s) c end.
Proof.
  intros Hr Hkey Hs. unfold markActivitySeen, MarkSeen, Reconcile.
  destruct (ReconcileWithEnabled visits r true None (state_clone (Some s))) as [[next [u changed]]|] eqn:E; [|done]. intros [= <-].
  destruct (reconcile_marks _ _ _ _ _ _ _ _ key c Hr E) as (M1 & M2 & M3). fold (session_key r) in M1. destruct (clone_marks key c s) as [C1 C2].
  assert (Moff : off key c next = off key c s) by (unfold off in *; by rewrite M2).
  assert (M : marks (entry_of key next) c = match (if bool_decide (session_key r = key) then rs_ActivitySequences r !! c else None) with
     | Some n => after_report true (off key c s) n (marks (entry_of key s) c) | None => marks (entry_of key s) c end).
  { rewrite M1, C1. cbv zeta. case_bool_decide as Hk; [|by rewrite orb_true_r]. rewrite Hk, (proj2 (String.eqb_neq _ _) Hkey). cbn [negb orb]. done. }
  cbn [reports]. destruct saved; [|by rewrite andb_false_r]. rewrite andb_true_r. cbn [andb].
  destruct changed.
  - split_and!; [by apply M3|done|]. rewrite M. case_bool_decide; [|done]. by destruct (rs_ActivitySequences r !! c).
  - split_and!; [done|done|]. rewrite (reconcile_unchanged _ _ _ _ _ _ _ key c E), C1 in M. rewrite M at 1.
    case_bool_decide; [|done]. by destruct (rs_ActivitySequences r !! c).
Qed.

Lemma settings_step r staged m saved s key c :
  key <> "" -> is_Some (as_Sessions s) ->
  let s' := saveNotificationSettings r staged m saved s in
  is_Some (as_Sessions s') /\ off key c s' = default (off key c s) (switches (OSettings r staged m saved) key c) /\
  marks (entry_of key s') c = marks (entry_of key s) c.
Proof.
  intros Hkey Hs. cbv zeta. unfold saveNotificationSettings, settings_next.
  destruct (decide (session_key r = "")) as [Ek|Ek].
  { assert (E : set_all r staged NotificationCategories (state_clone (Some s)) = None).
    { unfold NotificationCategories. cbn [set_all]. unfold SetEnabled. fold (session_key r). by rewrite Ek. }
    rewrite E. cbn [mbind option_bind]. split_and!; [done| |done]. cbn [switches]. destruct saved; [|done]. by rewrite bool_decide_false by congruence. }
  destruct (set_all_spec r staged NotificationCategories (state_clone (Some s)) Ek eq_refl) as (next & -> & Hn & Hspec); [done|].
  cbn [mbind option_bind]. destruct (Hspec key c) as [H1 H2]. destruct (clone_marks key c s) as [C1 C2].
  unfold switches. destruct (ValidateNotificationLevels (Some m)) eqn:Hl; cbn [negb]; [|split_and!; [done| |done]; destruct saved; [by rewrite andb_false_r|done]].
  destruct (IdentityFromSession r) as [i|] eqn:Ei.
  2:{ exfalso. unfold IdentityFromSession in Ei. unfold session_key, activitySessionKey in Ek. by repeat case_match. }
  cbn [mbind option_bind]. destruct saved; [|done]. split; [done|]. unfold off. rewrite !entry_of_set.
  assert (Ho : get false (ns_Disabled (if bool_decide (Key i = key) then set_levels m (entry_of (Key i) next) else entry_of key next)) c = off key c next)
    by (unfold off; destruct (bool_decide_reflect (Key i = key)) as [<-|_]; reflexivity).
  assert (Hm : marks (if bool_decide (Key i = key) then set_levels m (entry_of (Key i) next) else entry_of key next) c = marks (entry_of key next) c)
    by (unfold off; destruct (bool_decide_reflect (Key i = key)) as [<-|_]; reflexivity).
  rewrite Ho, Hm, H1, H2, C1, C2, andb_true_r. split; [|done]. fold (valid_category c). by destruct (bool_decide (session_key r = key) && valid_category c).
Qed.

Definition policy (op : activity_op) (c : string) : bool := match op with OReport _ _ _ (Some f) => negb (f c) | _ => false end.

Lemma step_spec op s key c :
  fair_op op -> key <> "" -> is_Some (as_Sessions s) ->
  exists s', activity_step op s = Some s' /\ is_Some (as_Sessions s') /\ off key c s' = default (off key c s) (switches op key c) /\
    marks (entry_of key s') c = match reports op key c with
                                | Some (n, a) => after_report a (off key c s || policy op c) n (marks (entry_of key s) c)
                                | None => marks (entry_of key s) c end.
Proof.
  intros Hf Hkey Hs. destruct op as [visits r active enabled|visits r saved|r staged m saved| | |]; cbn [activity_step].
  - destruct (ReconcileWithEnabled visits r active enabled s) as [[s' [u ch]]|] eqn:E.
    + exists s'. split; [done|]. destruct (reconcile_marks _ _ _ _ _ _ _ _ key c Hf E) as (M1 & M2 & M3). split; [by apply M3|].
      unfold off. rewrite M2, M1. split; [done|]. fold (session_key r). cbn [reports]. cbv zeta. destruct (bool_decide_reflect (session_key r = key)) as [->|Hk]; cbn [negb];
        [|by rewrite orb_true_r]. rewrite (proj2 (String.eqb_neq _ _) Hkey). cbn [orb]. by destruct (rs_ActivitySequences r !! c).
    + exfalso. destruct Hs as [m Hm]. unfold ReconcileWithEnabled in E. cbv zeta in E. rewrite Hm in E. by repeat case_match.
  - destruct (markActivitySeen visits r saved s) as [s'|] eqn:E.
    + exists s'. destruct (seen_step visits r saved s s' key c Hf Hkey Hs E) as (H1 & H2 & H3). rewrite orb_false_r. by rewrite H2.
    + exfalso. unfold markActivitySeen, MarkSeen, Reconcile, ReconcileWithEnabled in E. cbn [state_clone as_Sessions] in E. by repeat case_match.
  - destruct (settings_step r staged m saved s key c Hkey Hs) as (H1 & H2 & H3). eauto.
  - destruct (clone_marks key c s) as [H1 H2]. eexists. by split_and!.
  - eexists. by split_and!.
  - destruct (reloaded_marks key c s Hs) as [H1 H2]. eexists. split_and!; try done. destruct Hs as [m Hm]. cbn. by rewrite Hm.
Qed.

(** A report whose events the user has seen or does not want to hear of. *)
Definition consumed (ops : list activity_op) (key c : string) (m : Z) : Prop :=
  exists p o q a, ops = p ++ o :: q /\ reports o key c = Some (m, a) /\ (a = true \/ silent p o key c = true).

(** [op] after [ops] reports events that were not consumed before and are not now. *)
Definition fresh (ops : list activity_op) (op : activity_op) (key c : string) : Prop :=
  exists n, reports op key c = Some (n, false) /\ silent ops op key c = false /\ 0 < n /\ forall m, consumed ops key c m -> m < n.

(** Some report brought fresh events, and the user has not looked since. *)
Definition pending (ops : list activity_op) (key c : string) : Prop :=
  exists p op q, ops = p ++ op :: q /\ fresh p op key c /\ forall o m, o ∈ q -> reports o key c <> Some (m, true).

Lemma snoc_split {A} (l p q : list A) (x y : A) : l ++ [x] = p ++ y :: q -> (q = [] /\ p = l /\ y = x) \/ exists q', q = q' ++ [x] /\ l = p ++ y :: q'.
Proof.
  intros E. destruct q as [|z q] using rev_ind; [left; by apply app_inj_tail in E as [-> ->]|right]. clear IHq.
  exists q. rewrite app_comm_cons, app_assoc in E. apply app_inj_tail in E as [-> ->]. done.
Qed.

Lemma pending_snoc ops op key c :
  pending (ops ++ [op]) key c <-> (pending ops key c /\ (forall m, reports op key c <> Some (m, true))) \/ fresh ops op key c.
Proof.
  split.
  - intros (p & o & q & E & Hf & Hq). apply snoc_split in E as [(-> & -> & ->)|(q' & -> & ->)]; [by right|left]. split; [|intros m; apply Hq; set_solver].
    exists p, o, q'. split_and!; [done..|]. intros o' m Ho. apply Hq. set_solver.
  - intros [[(p & o & q & -> & Hf & Hq) Hn]|Hf].
    + exists p, o, (q ++ [op]). split_and!; [by rewrite app_comm_cons, app_assoc|done|]. intros o' m [Ho|Ho%list_elem_of_singleton]%elem_of_app; [by apply Hq|subst; apply Hn].
    + exists ops, op, []. split_and!; [done..|]. intros o' m Ho. by apply not_elem_of_nil in Ho.
Qed.

Lemma consumed_snoc ops op key c m :
  consumed (ops ++ [op]) key c m <-> consumed ops key c m \/ exists a, reports op key c = Some (m, a) /\ (a = true \/ silent ops op key c = true).
Proof.
  split.
  - intros (p & o & q & a & E & Hr & Ha). apply snoc_split in E as [(-> & -> & ->)|(q' & -> & ->)]; [right; eauto|left]. by exists p, o, q', a.
  - intros [(p & o & q & a & -> & Hr & Ha)|(a & Hr & Ha)]; [|by exists ops, op, [], a].
    exists p, o, (q ++ [op]), a. by rewrite app_comm_cons, app_assoc.
Qed.

(** The counter seen is the largest consumed. *)
Definition tops (x : Z) (P : Z -> Prop) : Prop := 0 <= x /\ (forall m, P m -> m <= x) /\ (0 < x -> P x).

Lemma activity_ledger ops key c :
  key <> "" -> Forall fair_op ops ->
  exists s, activity_run ops NewActivityState = Some s /\ is_Some (as_Sessions s) /\ off key c s = switched_off ops key c /\
    tops (marks (entry_of key s) c).1 (consumed ops key c) /\ ((marks (entry_of key s) c).2 = true <-> pending ops key c).
Proof.
  intros Hkey. induction ops as [|op ops IH] using rev_ind; intros Hf.
  { exists NewActivityState. unfold tops. split_and!; try done.
    - intros m (p & o & q & a & E & _). by destruct p.
    - split; [done|]. intros (p & o & q & E & _). by destruct p. }
  apply Forall_app in Hf as [Hf [Hop _]%Forall_cons]. destruct (IH Hf) as (s & Er & Hs & Hoff & Ht & Hu).
  destruct (step_spec op s key c Hop Hkey Hs) as (s' & Es & Hs' & Hoff' & Hm). exists s'.
  split; [unfold activity_run in *; rewrite fold_left_app, Er; exact Es|]. split; [done|]. split.
  { unfold switched_off in *. rewrite fold_left_app. cbn [fold_left]. by rewrite Hoff', Hoff. }
  rewrite Hm, Hoff. change (switched_off ops key c || policy op c) with (silent ops op key c). clear Hm.
  destruct (marks (entry_of key s) c) as [seen unread]. cbn [fst snd] in *. rewrite pending_snoc. destruct Ht as (T0 & T1 & T2).
  unfold tops. setoid_rewrite consumed_snoc.
  unfold fresh. destruct (reports op key c) as [[n a]|] eqn:Erep; cbn [fst snd].
  2:{ split; [split_and!; [done|naive_solver|by left; apply T2]|]. rewrite Hu. split; [by left|naive_solver]. }
  unfold after_report. destruct a; [|destruct (silent ops op key c) eqn:Esil]; cbn [fst snd].
  - split; [split_and!; [lia|intros m [Hc|(a & [= -> _] & _)]; [specialize (T1 m Hc)|]; lia|]|].
    { intros Hp. destruct (Z.max_spec seen n) as [[_ ->]|[_ Hx]]; [right; eauto|left; rewrite Hx in *; auto]. }
    split; [done|]. intros [[_ Hn]|(n' & [=] & _)]. by destruct (Hn n).
  - split; [split_and!; [lia|intros m [Hc|(a & [= -> _] & _)]; [specialize (T1 m Hc)|]; lia|]|].
    { intros Hp. destruct (Z.max_spec seen n) as [[_ ->]|[_ Hx]]; [right; eauto|left; rewrite Hx in *; auto]. }
    rewrite Hu. split; [by left|naive_solver].
  - split; [split_and!; [lia|naive_solver|auto]|]. rewrite orb_true_iff, Hu, Z.ltb_lt. split.
    + intros [Hp|Hlt]; [left; naive_solver|right]. exists n. split_and!; [done|done|lia|]. intros m Hc. specialize (T1 m Hc). lia.
    + intros [[Hp _]|(n' & [= <-] & _ & Hn & Hc)]; [by left|right]. destruct (decide (0 < seen)); [|lia]. by apply Hc, T2.
Qed.

(** C25. The unread marks are exact.  Whatever hosts report, in whatever order maps are
    visited, and through settings, copies and restarts: nothing panics, and a
    category of a session is marked unread exactly when some report brought events
    that were then neither shown nor muted, above all events consumed before, and the
    user has not looked at the session since. *)
Theorem unread_exact (ops : list activity_op) (key c : string) :
  key <> "" -> Forall fair_op ops ->
  exists s, activity_run ops NewActivityState = Some s /\
    (get false (ns_Unread (entry_of key s)) c = true <-> pending ops key c).
Proof. intros Hkey Hf. destruct (activity_ledger ops key c Hkey Hf) as (s & ? & _ & _ & _ & ?). by exists s. Qed.
End Safety.

(** ** Bookmarks *)

Section Bookmarks.
Context `{UC : UnicodeCase} `{UF : UnicodeFormat} `{UU : UUIDs}.
Variable sha256hex : string -> string.

Lemma skip_space_digit (c : ascii) (s : string) : is_digit c = true -> skip_space 0 (String c s) = Some (String c s).
Proof.
  intros H. cbn [skip_space].
  assert (D : (c ==c newline) = false /\ (c ==c "013") = false /\ DecodeRune (String c s) = (byteN c, 1%nat) /\ IsSpace (byteN c) = false).
  { revert H. destruct c as [[] [] [] [] [] [] [] []]; try discriminate; intros _; repeat split. }
  destruct D as (-> & -> & -> & ->). done.
Qed.

Lemma digit_prefix_all (s : string) : str_forall is_digit s = true -> digit_prefix s = s.
Proof. induction s as [|c s IH]; cbn; [done|]. intros [-> H]%andb_true_iff. by rewrite IH. Qed.

Lemma scan_int_text (n : Z) : 0 <= n < 2 ^ 63 -> scan_int (int_text n) = Some n.
Proof.
  intros Hn. assert (E : int_text n = dec_text 20 (Z.abs_N n)) by (unfold int_text; by rewrite (proj2 (Z.ltb_ge n 0)) by lia).
  assert (Hd : str_forall is_digit (int_text n) = true) by (rewrite E; apply dec_text_plain).
  pose proof (ParseInt_int_text n ltac:(lia)) as Hp. assert (Hne : int_text n <> "") by (rewrite E; apply dec_text_nonempty).
  revert Hd Hp Hne. generalize (int_text n). intros t Hd Hp Hne. destruct t as [|c t]; [done|]. unfold scan_int.
  cbn [str_forall] in Hd. pose proof Hd as [Hc _]%andb_true_iff. rewrite skip_space_digit by done.
  assert (Hs : (c ==c "+") || (c ==c "-") = false) by (revert Hc; destruct c as [[] [] [] [] [] [] [] []]; try discriminate; reflexivity).
  rewrite Hs, digit_prefix_all; done.
Qed.

Lemma Sscanf_line_text (t : string) : Sscanf_line ("line:" +:+ t) = scan_int t.
Proof. by destruct t. Qed.

Abbreviation hash := (TerminalTextFingerprint sha256hex).

Lemma find_occurrence_nth (h l : string) (lines : list string) (k index : nat) (seen : Z) :
  lines !! k = Some l -> hash l = h ->
  find_occurrence sha256hex h seen (seen + Z.of_nat (occurrences sha256hex h (take k lines))) index lines = Some (index + k)%nat.
Proof.
  revert k index seen. induction lines as [|x lines IH]; intros k index seen Hk Hl; [done|]. destruct k as [|k]; cbn [find_occurrence take].
  - injection Hk as ->. rewrite Hl, String.eqb_refl. cbn. rewrite Z.add_0_r, Z.eqb_refl. f_equal. lia.
  - unfold occurrences. rewrite filter_cons. destruct (decide (hash x = h)) as [Ex|Ex].
    + rewrite Ex, String.eqb_refl. cbn [negb length]. rewrite (proj2 (Z.eqb_neq _ _)) by lia.
      replace (seen + Z.of_nat (S _)) with ((seen + 1) + Z.of_nat (occurrences sha256hex h (take k lines))) by (unfold occurrences; lia).
      rewrite IH by done. f_equal. lia.
    + rewrite (proj2 (String.eqb_neq _ _) Ex). cbn [negb]. fold (occurrences sha256hex h (take k lines)). rewrite IH by done. f_equal. lia.
Qed.

Lemma last_line_le n lines : (last_line n lines <= n)%nat.
Proof. induction n as [|n IH]; cbn [last_line]; [done|]. case_match; lia. Qed.

Lemma length_Split (s : string) (c : ascii) : (length (Split s c) <= S (slen s))%nat.
Proof.
  induction s as [|d s IH]; cbn [Split slen]; [done|]. destruct (d ==c c); [cbn; lia|]. destruct (Split s c); cbn in *; lia.
Qed.

(** A bookmark finds its line.  A bookmark taken at the end of a text leads to the
    last line of the text that is not empty, in that text and after any further
    lines have been appended. *)
Theorem bookmark_found (i : SessionIdentity) (label text : string) (b : TerminalBookmark) (more : string) :
  zlen text < 2 ^ 62 -> NewTerminalBookmark sha256hex i label text = Ok b ->
  let lines := Split text newline in
  let last := last_line (length lines - 1) lines in
  is_Some (lines !! last) /\ (forall j l, (last < j)%nat -> lines !! j = Some l -> l = "") /\
  TerminalBookmarkLine sha256hex text b = Some last /\ TerminalBookmarkLine sha256hex (text +:+ String newline more) b = Some last.
Proof.
  intros Hlen Hb. cbv zeta. set (lines := Split text newline) in *. set (last := last_line (length lines - 1) lines) in *.
  pose proof (Split_nonempty text newline) as Hne. fold lines in Hne. pose proof (length_Split text newline) as HlS. fold lines in HlS.
  pose proof (last_line_le (length lines - 1) lines) as Hle. fold last in Hle.
  assert (Hlt : (last < length lines)%nat) by (destruct lines; [done|cbn in *; lia]).
  destruct (lookup_lt_is_Some_2 _ _ Hlt) as [l Hl]. split; [by eexists|]. split.
  { assert (G : forall n j x, (last_line n lines < j <= n)%nat -> lines !! j = Some x -> x = "").
    { induction n as [|n IH]; intros j x Hj Hx; cbn [last_line] in Hj; [lia|].
      destruct (String.eqb_spec (default "" (lines !! S n)) "") as [E|E]; [|lia].
      destruct (decide (j = S n)) as [->|Hj']; [by rewrite Hx in E|]. apply (IH j x); [lia|done]. }
    intros j x Hj Hx. apply (G (length lines - 1)%nat j x); [|done]. apply lookup_lt_Some in Hx. fold last. lia. }
  unfold NewTerminalBookmark in Hb. apply rbind_unit in Hb as [_ Hb]. cbv zeta in Hb. destruct (negb (label_ok _)); [done|].
  fold lines in Hb. fold last in Hb. rewrite Hl in Hb. cbn [from_option id] in Hb. injection Hb as <-.
  unfold TerminalBookmarkLine. cbn [tb_Anchor tb_Fingerprint].
  assert (Ho : occurrences sha256hex (hash l) (take (S last) lines) = S (occurrences sha256hex (hash l) (take last lines))).
  { rewrite (take_S_r _ _ _ Hl). unfold occurrences. rewrite filter_app, length_app, filter_cons_True by done. cbn. lia. }
  rewrite Ho. set (occ := occurrences sha256hex (hash l) (take last lines)).
  assert (Hocc : (occ <= last)%nat).
  { subst occ. unfold occurrences. etransitivity; [apply length_filter|]. rewrite length_take. lia. }
  unfold zlen in Hlen. assert (Ea : Sscanf_line ("line:" +:+ int_text (Z.of_nat (S occ) - 1)) = Some (0 + Z.of_nat occ)).
  { replace (Z.of_nat (S occ) - 1) with (Z.of_nat occ) by lia. rewrite Sscanf_line_text, scan_int_text; [done|lia]. }
  rewrite Ea. rewrite (proj2 (Z.ltb_ge _ _)) by lia. split.
  - fold lines. subst occ. by rewrite (find_occurrence_nth _ l).
  - rewrite (Split_app text more newline). fold lines. subst occ.
    rewrite <- (take_app_le lines (Split more newline) last) by lia. rewrite (find_occurrence_nth _ l); [done| |done]. by rewrite lookup_app_l.
Qed.
End Bookmarks.

(** ** New events are delivered once *)

Lemma delta_fold first before visits acc c :
  NoDup (map fst visits) ->
  let r := fold_left (delta_step first before) visits acc in
  match (list_to_map visits : gmap string Z) !! c with
  | Some v =>
      let base := Z.max (if first then v else default 0 (before !! c)) (default 0 (acc.1 !! c)) in
      r.1 !! c = Some v /\ r.2 !! c = if base <? v then Some (v - base) else acc.2 !! c
  | None => r.1 !! c = acc.1 !! c /\ r.2 !! c = acc.2 !! c
  end.
Proof.
  revert acc. induction visits as [|[c0 v0] visits IH]; intros [o d] Hnd; [done|]. cbn [map fst] in Hnd. apply NoDup_cons in Hnd as [Hn Hnd].
  cbn [fold_left list_to_map foldr fst snd uncurry]. specialize (IH (delta_step first before (o, d) (c0, v0)) Hnd). cbv zeta in *.
  destruct (decide (c0 = c)) as [->|Hne].
  - rewrite not_elem_of_list_to_map_1 in IH by done. rewrite lookup_insert_eq. destruct IH as [-> ->]. cbn [delta_step fst snd]. cbv zeta.
    split; [apply lookup_insert_eq|]. generalize (if first then v0 else default 0 (before !! c)). intros x.
    assert (Hx : (if x <? default 0 (o !! c) then default 0 (o !! c) else x) = Z.max x (default 0 (o !! c)))
      by (destruct (Z.ltb_spec x (default 0 (o !! c))); lia). rewrite Hx.
    destruct (Z.max x (default 0 (o !! c)) <? v0); [apply lookup_insert_eq|done].
  - rewrite lookup_insert_ne by done. cbn [delta_step fst snd] in IH. cbv zeta in IH.
    assert (Ho : (<[c0 := v0]> o : gmap string Z) !! c = o !! c) by (by rewrite lookup_insert_ne).
    rewrite Ho in IH.
    assert (Hd : forall (b : bool) x, (if b then <[c0 := x]> d else d) !! c = d !! c) by (intros [|] x; [by rewrite lookup_insert_ne|done]).
    rewrite Hd in IH. exact IH.
Qed.

(** One update of a host: its counters, the order they are visited in, and whether
    Ducklord still has the row of the previous update. *)
Record host_update := mkUpdate { hu_counters : gmap string Z; hu_visits : list (string * Z); hu_known : bool }.

(** The deliveries for a category during the updates of one host, after [prev]. *)
Fixpoint deliveries (identity c : string) (us : list host_update) (prev : gmap string Z) (observed : gmap string (gmap string Z)) : Z :=
  match us with
  | [] => 0
  | u :: us =>
      let '(o, deltas) := notificationDeltas (hu_visits u) identity (if hu_known u then Some prev else None) observed in
      default 0 (deltas !! c) + deliveries identity c us (hu_counters u) o
  end.

Definition counter (c : string) (m : gmap string Z) : Z := default 0 (m !! c).

(** Counters only grow. *)
Fixpoint grows (c : string) (m : gmap string Z) (us : list host_update) : Prop :=
  match us with [] => True | u :: us => counter c m <= counter c (hu_counters u) /\ grows c (hu_counters u) us end.

Definition visited (u : host_update) : Prop := hu_visits u ≡ₚ map_to_list (hu_counters u).

Lemma update_deltas identity c u before observed :
  visited u ->
  let r := notificationDeltas (hu_visits u) identity before observed in
  let obs := default ∅ (observed !! identity) in
  let first := bool_decide (before = None) && bool_decide (observed !! identity = None) in
  exists o, r.1 !! identity = Some o /\ counter c o = (match hu_counters u !! c with Some v => v | None => counter c obs end) /\
    default 0 (r.2 !! c) = match hu_counters u !! c with
                           | Some v => Z.max 0 (v - Z.max (if first then v else counter c (default ∅ before)) (counter c obs)) | None => 0 end.
Proof.
  intros Hv. cbv zeta. unfold notificationDeltas.
  set (first := bool_decide (before = None) && bool_decide (observed !! identity = None)).
  assert (Hn : NoDup (map fst (hu_visits u))) by (rewrite (Permutation_map fst Hv); apply (NoDup_fst_map_to_list (hu_counters u))).
  assert (Hm : (list_to_map (hu_visits u) : gmap string Z) = hu_counters u).
  { rewrite (list_to_map_proper _ _ Hn Hv). apply list_to_map_to_list. }
  pose proof (delta_fold first (default ∅ before) (hu_visits u) (default ∅ (observed !! identity), ∅) c Hn) as H. cbv zeta in H.
  rewrite Hm in H. destruct (fold_left _ _ _) as [o d]. cbn [fst snd] in *. exists o. split; [apply lookup_insert_eq|].
  destruct (hu_counters u !! c) as [v|]; destruct H as [H1 H2]; unfold counter; rewrite H1, H2; [|by rewrite lookup_empty].
  split; [done|]. destruct (Z.ltb_spec (Z.max (if first then v else default 0 (default ∅ before !! c)) (default 0 (default ∅ (observed !! identity) !! c))) v) as [L|L].
  - cbn. lia.
  - rewrite lookup_empty. cbn. lia.
Qed.

Lemma deliveries_sum identity c us prev observed o :
  Forall visited us -> grows c prev us -> observed !! identity = Some o -> 0 <= counter c prev -> counter c o = counter c prev ->
  deliveries identity c us prev observed = counter c (default prev (hu_counters <$> last us)) - counter c prev.
Proof.
  revert prev observed o. induction us as [|u us IH]; intros prev observed o Hv Hg Ho H0 Hc; [cbn; lia|].
  apply Forall_cons in Hv as [Hu Hv]. destruct Hg as [Hle Hg].
  destruct (update_deltas identity c u (if hu_known u then Some prev else None) observed Hu) as (o' & E1 & E2 & E3). cbv zeta in *.
  rewrite Ho in E2, E3. cbn [from_option id] in E2, E3. rewrite andb_false_r in E3.
  cbn [deliveries]. destruct (notificationDeltas _ _ _ _) as [obs' deltas]. cbn [fst snd] in *.
  assert (Hd : default 0 (deltas !! c) = counter c (hu_counters u) - counter c prev /\ counter c o' = counter c (hu_counters u)).
  { rewrite E2, E3. assert (Hcu : counter c (hu_counters u) = default 0 (hu_counters u !! c)) by done.
    destruct (hu_counters u !! c) as [v|]; cbn [from_option id] in Hcu; rewrite Hcu in *; [|split; lia].
    split; [|done]. destruct (hu_known u); cbn [from_option id]; [|change (counter c ∅) with 0]; lia. }
  destruct Hd as [-> Hd]. rewrite (IH _ _ o' Hv Hg E1) by lia.
  assert (El : default prev (hu_counters <$> last (u :: us)) = default (hu_counters u) (hu_counters <$> last us)) by (rewrite last_cons; by destruct (last us)).
  rewrite El. lia.
Qed.

(** Every new event is delivered once.  For a session reported by one host, from
    its first update on: what is delivered for a category is the growth of its
    counter since the first update, also when rows were dropped in between. *)
Theorem deltas_exact (identity c : string) (u : host_update) (us : list host_update) (observed : gmap string (gmap string Z)) (prev : gmap string Z) :
  visited u -> Forall visited us -> grows c (hu_counters u) us -> 0 <= counter c (hu_counters u) ->
  observed !! identity = None -> hu_known u = false ->
  deliveries identity c (u :: us) prev observed = counter c (default (hu_counters u) (hu_counters <$> last us)) - counter c (hu_counters u).
Proof.
  intros Hu Hv Hg H0 Ho Hk. destruct (update_deltas identity c u None observed Hu) as (o & E1 & E2 & E3). cbv zeta in *.
  cbn [deliveries]. rewrite Hk. destruct (notificationDeltas _ _ _ _) as [obs deltas]. cbn [fst snd] in *. rewrite Ho in E2, E3.
  rewrite !bool_decide_true in E3 by done. cbn [andb from_option id] in E2, E3. change (counter c ∅) with 0 in E2, E3.
  rewrite (deliveries_sum _ _ _ _ _ o Hv Hg E1 H0).
  - rewrite E3. unfold counter in H0. destruct (hu_counters u !! c); cbn in *; lia.
  - rewrite E2. unfold counter. by destruct (hu_counters u !! c).
Qed.
