(* ===== verification/Organization.v ===== *)
(** * Groups of sessions in Ducklord: the organization operations of [cmd/ducklord/main.go]

    The list of sessions is shown in groups: by host, by kind, or in custom groups the
    user makes.  The state of the list is an [OrganizationState], which [Save]
    validates.  An operation returns the state it leaves or saves, or [None] when it
    refuses.  The selection and the messages are left out; [rows] is [s.sessions]. *)

From S2P Require Import Prelude GoStrings GoMarshal GoJSON GoStrconv Session SessionDB Layout ActivityState ActivityStore.
Local Open Scope go_scope.
Local Open Scope Z_scope.

(** What the list reads of a [RemoteSession]. *)
Record row := mkListed {
  row_remote : RemoteSession; row_Client : string; row_Kind : string; row_Group : string; row_Name : string; row_Unread : bool }.

Definition sessionKey (r : row) : string :=
  if (rs_InstanceID (row_remote r) !=s "") && (rs_SessionID (row_remote r) !=s "")
  then row_Client r +:+ "/" +:+ rs_InstanceID (row_remote r) +:+ "/" +:+ rs_SessionID (row_remote r)
  else row_Group r +:+ "/" +:+ row_Client r +:+ "/" +:+ row_Name r.

Definition str_ltb (a b : string) : bool := match String.compare a b with Lt => true | _ => false end.

(** [sort.SliceStable]: insertion keeps the order of elements that do not compare. *)
Fixpoint insert_by {A} (less : A -> A -> bool) (x : A) (l : list A) : list A :=
  match l with
  | [] => [x]
  | y :: l' => if less y x then y :: insert_by less x l' else x :: l
  end.
Definition stable_sort {A} (less : A -> A -> bool) (l : list A) : list A := fold_right (insert_by less) [] l.

Definition index_of (id : string) (l : list string) : option nat := fst <$> list_find (fun x => x = id) l.

Section Groups.
Context `{UC : UnicodeCase} `{UF : UnicodeFormat} `{UU : UUIDs}.

Definition row_identity (r : row) : option SessionIdentity := IdentityFromSession (row_remote r).

Definition organizationMode (o : OrganizationState) : string := if mode_valid (os_Mode o) then os_Mode o else OrganizationCustom.

Definition organizationGroupID (o : OrganizationState) (r : row) : string :=
  let mode := organizationMode o in
  if mode ==s OrganizationHost then row_Client r
  else if mode ==s OrganizationType then (if row_Kind r ==s "shell" then "shell" else "agent")
  else
    match row_identity r with
    | Some i => let group := default "" (default ∅ (os_Membership o) !! i) in if group !=s "" then group else UngroupedGroupID
    | None => UngroupedGroupID
    end.

(** [customGroupDisplayName]: the name, with a piece of the id when groups share it. *)
Fixpoint unique_prefix (fuel n : nat) (id : string) (others : list string) : nat :=
  match fuel with
  | O => n
  | S k => if (slen id <=? n)%nat then n
           else if existsb (fun other => (other !=s id) && HasPrefix other (str_take n id)) others then unique_prefix k (S n) id others else n
  end.

Definition customGroupDisplayName (o : OrganizationState) (g : CustomGroup) : string :=
  let duplicates := map cg_ID (filter (fun c => cg_Name c = cg_Name g) (os_Groups o)) in
  if (length duplicates <? 2)%nat then cg_Name g
  else cg_Name g +:+ " · " +:+ str_take (Nat.min (unique_prefix (slen (cg_ID g)) 4 (cg_ID g) duplicates) (slen (cg_ID g))) (cg_ID g).

Definition organizationGroupLabel (o : OrganizationState) (r : row) : string :=
  let id := organizationGroupID o r in
  if organizationMode o !=s OrganizationCustom then id
  else if id ==s UngroupedGroupID then "Ungrouped"
  else match List.find (fun g => cg_ID g ==s id) (os_Groups o) with
       | Some g => customGroupDisplayName o g
       | None => "Ungrouped"
       end.

(** ** The rows of the list *)

Inductive list_row := GroupRow (id label : string) | SessionRow (id : string) (index : nat).

Definition groupCollapsed (o : OrganizationState) (id : string) : bool :=
  among id (default [] (default ∅ (os_Collapsed o) !! organizationMode o)).

(** The labels of groups, the indices of their sessions and the order of groups, after
    the loop over the sessions. *)
Record listing := mkListing { ls_labels : gmap string string; ls_sessions : gmap string (list nat); ls_order : list string; ls_seen : gset string }.

Definition list_session (o : OrganizationState) (l : listing) (x : nat * row) : listing :=
  let id := organizationGroupID o x.2 in
  mkListing (if default "" (ls_labels l !! id) ==s "" then <[id := organizationGroupLabel o x.2]> (ls_labels l) else ls_labels l)
    (<[id := default [] (ls_sessions l !! id) ++ [x.1]]> (ls_sessions l))
    (if bool_decide (id ∈ ls_seen l) then ls_order l else ls_order l ++ [id]) ({[id]} ∪ ls_seen l).

Definition first_listing (o : OrganizationState) : listing :=
  mkListing
    (if organizationMode o ==s OrganizationCustom
     then fold_left (fun m g => <[cg_ID g := customGroupDisplayName o g]> m) (os_Groups o) {[UngroupedGroupID := "Ungrouped"]}
     else ∅)
    ∅ (default [] (default ∅ (os_GroupOrders o) !! organizationMode o)) ∅.

Fixpoint emit_groups (o : OrganizationState) (l : listing) (emitted : gset string) (ids : list string) : list list_row :=
  match ids with
  | [] => []
  | id :: ids' =>
      let label := default "" (ls_labels l !! id) in
      if bool_decide (id ∈ emitted) || (label ==s "") then emit_groups o l emitted ids'
      else GroupRow id label :: (if groupCollapsed o id then [] else map (SessionRow id) (default [] (ls_sessions l !! id)))
             ++ emit_groups o l ({[id]} ∪ emitted) ids'
  end.

Definition sessionListRows (o : OrganizationState) (rows : list row) : list list_row :=
  let l := fold_left (list_session o) (imap pair rows) (first_listing o) in
  emit_groups o l ∅ (ls_order l).

(** ** Keeping the order *)

Definition add_session (order : list SessionIdentity) (r : row) : list SessionIdentity :=
  match row_identity r with
  | Some i => if among (Key i) (map Key order) then order else order ++ [i]
  | None => order
  end.

Definition add_group (o : OrganizationState) (order : list string) (r : row) : list string :=
  let g := organizationGroupID o r in if among g order then order else order ++ [g].

Definition rank (id : string) (l : list string) : nat := default O (index_of id l).

(** The keys of the session order that count for a rank: the first of equal ones, and
    no identity without a key. *)
Definition ranked_keys (order : list SessionIdentity) : list string := filter (fun k => k <> "") (map Key order).

Definition row_less (o : OrganizationState) (promote : bool) (selectedGroup : string) (a b : row) : bool :=
  let groups := default [] (default ∅ (os_GroupOrders o) !! organizationMode o) in
  let keys := ranked_keys (os_SessionOrder o) in
  let ga := organizationGroupID o a in
  let gb := organizationGroupID o b in
  if negb (rank ga groups =? rank gb groups)%nat then (rank ga groups <? rank gb groups)%nat
  else if promote && (ga !=s selectedGroup) && negb (Bool.eqb (row_Unread a) (row_Unread b)) then row_Unread a
  else
    match row_identity a, row_identity b with
    | Some i, Some j =>
        if negb (rank (Key i) keys =? rank (Key j) keys)%nat then (rank (Key i) keys <? rank (Key j) keys)%nat else str_ltb (sessionKey a) (sessionKey b)
    | Some _, None => true
    | None, Some _ => false
    | None, None => str_ltb (sessionKey a) (sessionKey b)
    end.

Definition set_order (order : list SessionIdentity) (o : OrganizationState) : OrganizationState :=
  mkOrganization (os_Mode o) order (os_Groups o) (os_Membership o) (os_GroupOrders o) (os_Collapsed o).
Definition set_mode (mode : string) (o : OrganizationState) : OrganizationState :=
  mkOrganization mode (os_SessionOrder o) (os_Groups o) (os_Membership o) (os_GroupOrders o) (os_Collapsed o).
Definition set_group_order (mode : string) (order : list string) (o : OrganizationState) : OrganizationState :=
  mkOrganization (os_Mode o) (os_SessionOrder o) (os_Groups o) (os_Membership o) (Some (<[mode := order]> (default ∅ (os_GroupOrders o)))) (os_Collapsed o).
Definition set_collapsed (mode : string) (ids : list string) (o : OrganizationState) : OrganizationState :=
  mkOrganization (os_Mode o) (os_SessionOrder o) (os_Groups o) (os_Membership o) (os_GroupOrders o) (Some (<[mode := ids]> (default ∅ (os_Collapsed o)))).
Definition set_groups (gs : list CustomGroup) (o : OrganizationState) : OrganizationState :=
  mkOrganization (os_Mode o) (os_SessionOrder o) gs (os_Membership o) (os_GroupOrders o) (os_Collapsed o).
Definition set_membership (m : gmap SessionIdentity string) (o : OrganizationState) : OrganizationState :=
  mkOrganization (os_Mode o) (os_SessionOrder o) (os_Groups o) (Some m) (os_GroupOrders o) (os_Collapsed o).

(** [applyOrganizationOrder] outside the workspace preview; [selectedKey] is the key of
    the selected session. *)
Definition applyOrganizationOrder (promote : bool) (selectedKey : string) (o : OrganizationState) (rows : list row) : OrganizationState * list row :=
  let selectedGroup := match List.find (fun r => sessionKey r ==s selectedKey) rows with Some r => organizationGroupID o r | None => "" end in
  let o1 := if os_Mode o ==s "" then set_mode OrganizationCustom o else o in
  let o2 := set_order (fold_left add_session rows (os_SessionOrder o1)) o1 in
  let mode := organizationMode o2 in
  let o3 := set_group_order mode (fold_left (add_group o2) rows (default [] (default ∅ (os_GroupOrders o2) !! mode))) o2 in
  (o3, stable_sort (row_less o3 promote selectedGroup) rows).

Definition cycleOrganizationMode (o : OrganizationState) : OrganizationState :=
  let mode := organizationMode o in
  set_mode (if mode ==s OrganizationCustom then OrganizationHost else if mode ==s OrganizationHost then OrganizationType else OrganizationCustom) o.

(** ** Operations of the user *)

Definition setSelectedGroupCollapsed (id : string) (want : bool) (rows : list row) (o : OrganizationState) : option OrganizationState :=
  if id ==s "" then None
  else if negb (existsb (fun x => match x with GroupRow g _ => g ==s id | _ => false end) (sessionListRows o rows)) then None
  else if Bool.eqb (groupCollapsed o id) want then None
  else
    let mode := organizationMode o in
    let collapsed := default [] (default ∅ (os_Collapsed o) !! mode) in
    Some (set_collapsed mode
            (match index_of id collapsed with
             | Some k => if want then collapsed else take k collapsed ++ drop (S k) collapsed
             | None => if want then collapsed ++ [id] else collapsed
             end) (organization_clone o)).

Definition move_member (i : SessionIdentity) (target : string) (o : OrganizationState) : OrganizationState :=
  let m := default ∅ (os_Membership o) in
  set_membership (if target ==s UngroupedGroupID then delete i m else <[i := target]> m) o.

(** The position after the last session of the target group. *)
Fixpoint after_group (in_group : SessionIdentity -> bool) (index : nat) (insert : nat) (order : list SessionIdentity) : nat :=
  match order with
  | [] => insert
  | i :: order' => after_group in_group (S index) (if in_group i then S index else insert) order'
  end.

Definition insert_nth {A} (k : nat) (x : A) (l : list A) : list A := take k l ++ x :: drop k l.

(** [moveDraggedSessionBefore]; [before] is the row it is dropped on, if any.  Groups
    are those of the state before the move. *)
Definition moveDraggedSessionBefore (identity : SessionIdentity) (target : string) (before : option SessionIdentity) (rows : list row)
  (o : OrganizationState) : option OrganizationState :=
  let custom := organizationMode o ==s OrganizationCustom in
  if Key identity ==s "" then None
  else if custom && negb ((target ==s UngroupedGroupID) || among target (map cg_ID (os_Groups o))) then None
  else
    match List.find (fun r => bool_decide (row_identity r = Some identity)) rows with
    | None => None
    | Some r =>
        if negb custom && (target !=s organizationGroupID o r) then None
        else
          let o1 := if custom then move_member identity target (organization_clone o) else organization_clone o in
          let order := filter (fun i => i <> identity) (os_SessionOrder o) in
          let in_target i := existsb (fun r => bool_decide (row_identity r = Some i) && (organizationGroupID o r ==s target)) rows in
          let insert :=
            match before with
            | Some b => if (Key b !=s "") && negb (bool_decide (b = identity))
                        then default (length order) (fst <$> list_find (fun i => i = b) order)
                        else after_group in_target 0 (length order) order
            | None => after_group in_target 0 (length order) order
            end in
          Some (set_order (insert_nth insert identity order) o1)
    end.

(** [commitGroupName], to create a group with the id drawn or to rename one. *)
Definition createGroup (id line : string) (o : OrganizationState) : option OrganizationState :=
  let name := TrimSpace line in
  if negb (validateCustomGroupName name) then None
  else Some (set_group_order OrganizationCustom (default [] (default ∅ (os_GroupOrders o) !! OrganizationCustom) ++ [id])
               (set_groups (os_Groups o ++ [mkGroup id name]) (organization_clone o))).

Definition renameGroup (target line : string) (o : OrganizationState) : option OrganizationState :=
  let name := TrimSpace line in
  if negb (validateCustomGroupName name) then None
  else if negb (among target (map cg_ID (os_Groups o))) then None
  else Some (set_groups (update_first (fun g => cg_ID g ==s target) (fun g => mkGroup (cg_ID g) name) (os_Groups o)) (organization_clone o)).

(** The branches of [commitGroupOperation]. *)
Definition moveToGroup (identity : SessionIdentity) (target : string) (rows : list row) (o : OrganizationState) : option OrganizationState :=
  if existsb (fun r => bool_decide (row_identity r = Some identity)) rows then Some (move_member identity target (organization_clone o)) else None.

Definition deleteGroup (target : string) (o : OrganizationState) : option OrganizationState :=
  if negb (among target (map cg_ID (os_Groups o))) then None
  else
    let without (m : option (gmap string (list string))) := filter (fun id => id <> target) (default [] (default ∅ m !! OrganizationCustom)) in
    Some (set_collapsed OrganizationCustom (without (os_Collapsed o))
           (set_group_order OrganizationCustom (without (os_GroupOrders o))
             (set_membership (filter (fun x => x.2 <> target) (default ∅ (os_Membership o)))
               (set_groups (filter (fun g => cg_ID g <> target) (os_Groups o)) (organization_clone o))))).

Definition exchange (i j : nat) (l : list string) : list string :=
  match l !! i, l !! j with Some x, Some y => <[i := y]> (<[j := x]> l) | _, _ => l end.

Definition shiftGroup (target : string) (down : bool) (o : OrganizationState) : option OrganizationState :=
  let order := default [] (default ∅ (os_GroupOrders o) !! OrganizationCustom) in
  match index_of target order with
  | None => None
  | Some k =>
      if down then (if (S k <? length order)%nat then Some (set_group_order OrganizationCustom (exchange k (S k) order) (organization_clone o)) else None)
      else match k with O => None | S k' => Some (set_group_order OrganizationCustom (exchange k k' order) (organization_clone o)) end
  end.

(** The part of [moveSelectedSession] that exchanges two sessions of the list; a
    custom group is that of the row it moves to. *)
Definition last_index_of (key : string) (order : list SessionIdentity) : option nat := last_index (fun i => Key i ==s key) 0 order.

Definition moveSelectedSession (selected : SessionIdentity) (target : row) (o : OrganizationState) : option OrganizationState :=
  match row_identity target with
  | None => None
  | Some t =>
      let order := os_SessionOrder o in
      let target_index := if Key t ==s Key selected then None else last_index_of (Key t) order in
      match last_index_of (Key selected) order, target_index with
      | Some a, Some b =>
          let o1 := set_order (match order !! a, order !! b with Some x, Some y => <[a := y]> (<[b := x]> order) | _, _ => order end) o in
          Some (if organizationMode o ==s OrganizationCustom then move_member selected (organizationGroupID o target) o1 else o1)
      | _, _ => None
      end
  end.
End Groups.
