(* ===== verification/OrganizationSafety.v ===== *)
(** * Organizing sessions keeps the state savable, and the list complete

    Theorems on [Organization]: every operation leaves a state that [Save] accepts, and
    every session whose group is not collapsed is listed once. *)

From S2P Require Import Prelude GoStrings GoMarshal GoJSON GoStrconv Session SessionDB Layout ActivityState ActivityStore Organization.
Local Open Scope go_scope.
Local Open Scope Z_scope.

Lemma room_for_two : (2 <= maxCustomGroups)%nat.
Proof. unfold maxCustomGroups. lia. Qed.

(** The limits are large numbers in unary. *)
#[local] Opaque maxCustomGroups maxOrganizationSessions.

Section Valid.
Context `{UC : UnicodeCase} `{UF : UnicodeFormat} `{UU : UUIDs}.

(** ** What a valid organization is *)

Lemma among_elem id l : among id l = true <-> id ∈ l.
Proof.
  unfold among. rewrite existsb_exists. setoid_rewrite String.eqb_eq. setoid_rewrite <- list_elem_of_In. naive_solver.
Qed.

Lemma each_new_ok {A B} (key : A -> B) (good : A -> Prop) (f : list A -> A -> result activity_error unit) :
  (forall seen x, f seen x = Ok tt <-> good x /\ key x ∉ map key seen) ->
  forall l seen, each_new f seen l = Ok tt <-> (forall x, x ∈ l -> good x) /\ NoDup (map key l) /\ forall x, x ∈ l -> key x ∉ map key seen.
Proof.
  intros Hf. induction l as [|x l IH]; intros seen; cbn [each_new map].
  { split; [|done]. intros _. split_and!; [set_solver|constructor|set_solver]. }
  rewrite rbind_unit, Hf, IH, NoDup_cons. cbn [map]. split.
  - intros [[H1 H2] (H3 & H4 & H5)]. split_and!; [set_solver|..|set_solver]; [|done].
    intros (y & E & Hy)%list_elem_of_In%in_map_iff. apply list_elem_of_In in Hy. apply (H5 y Hy). rewrite E. set_solver.
  - intros (H1 & [H2 H3] & H4). split_and!; [set_solver|set_solver|set_solver|done|].
    intros y Hy [E|E]%elem_of_cons; [|by apply (H4 y); [set_solver|]]. apply H2. rewrite <- E. apply list_elem_of_In, in_map, list_elem_of_In, Hy.
Qed.

Definition known_list (groups : list string) (mode : string) (ids : list string) : Prop :=
  mode_valid mode = true /\ (length ids <= maxCustomGroups + 1)%nat /\ NoDup ids /\ forall id, id ∈ ids -> id <> "" /\ group_known groups mode id = true.

Definition good_group (g : CustomGroup) : Prop :=
  canonicalLayoutUUID (cg_ID g) = true /\ cg_ID g <> UngroupedGroupID /\ validateCustomGroupName (cg_Name g) = true.

Definition good_identity (i : SessionIdentity) : Prop := is_Ok (identity_validate i) = true.

Definition groups_of (o : OrganizationState) : list string := map cg_ID (os_Groups o).
Definition members (o : OrganizationState) : gmap SessionIdentity string := default ∅ (os_Membership o).
Definition orders (o : OrganizationState) : gmap string (list string) := default ∅ (os_GroupOrders o).
Definition folded (o : OrganizationState) : gmap string (list string) := default ∅ (os_Collapsed o).

Record org_ok (o : OrganizationState) : Prop := mkOrgOk {
  ok_mode : mode_valid (os_Mode o) = true;
  ok_length : (length (os_SessionOrder o) <= maxOrganizationSessions)%nat;
  ok_size : (size (members o) <= maxOrganizationSessions)%nat;
  ok_distinct : NoDup (os_SessionOrder o);
  ok_identities : forall i, i ∈ os_SessionOrder o -> good_identity i;
  ok_room : (length (os_Groups o) <= maxCustomGroups)%nat;
  ok_group_ids : NoDup (groups_of o);
  ok_groups : forall g, g ∈ os_Groups o -> good_group g;
  ok_members : forall i g, members o !! i = Some g -> good_identity i /\ g ∈ groups_of o;
  ok_orders : forall mode ids, orders o !! mode = Some ids -> known_list (groups_of o) mode ids;
  ok_folded : forall mode ids, folded o !! mode = Some ids -> known_list (groups_of o) mode ids }.

Lemma identity_check_ok i : identity_check i = Ok tt <-> good_identity i.
Proof. unfold identity_check, good_identity. by destruct (identity_validate i). Qed.

Lemma ids_check_ok err groups mode ids :
  each_new (id_check err groups mode) [] ids = Ok tt <-> NoDup ids /\ forall id, id ∈ ids -> id <> "" /\ group_known groups mode id = true.
Proof.
  rewrite (each_new_ok (fun x => x) (fun id => id <> "" /\ group_known groups mode id = true)).
  - rewrite !map_id. set_solver.
  - intros seen x. unfold id_check. rewrite rbind_unit, !check_ok, map_id, negb_true_iff, orb_false_iff, String.eqb_neq, <- among_elem.
    destruct (among x seen); naive_solver.
Qed.

Lemma order_check_ok groups mode ids : order_check groups (mode, ids) = Ok tt <-> known_list groups mode ids.
Proof. unfold order_check, known_list. cbn [fst snd]. rewrite !rbind_unit, !check_ok, ids_check_ok, Nat.leb_le. tauto. Qed.

Lemma collapsed_check_ok groups mode ids : collapsed_check groups (mode, ids) = Ok tt <-> known_list groups mode ids.
Proof. unfold collapsed_check, known_list. cbn [fst snd]. rewrite !rbind_unit, !check_ok, ids_check_ok, andb_true_iff, Nat.leb_le. tauto. Qed.

Lemma groups_check_ok gs : each_new group_check [] gs = Ok tt <-> (forall g, g ∈ gs -> good_group g) /\ NoDup (map cg_ID gs).
Proof.
  rewrite (each_new_ok cg_ID good_group).
  - set_solver.
  - intros seen g. unfold group_check, good_group. rewrite !rbind_unit, !check_ok, andb_true_iff, negb_true_iff, String.eqb_neq, <- among_elem.
    destruct (among (cg_ID g) (map cg_ID seen)); naive_solver.
Qed.

Lemma session_check_ok order :
  each_new (fun seen i => _ <-! identity_check i; check (negb (bool_decide (i ∈ seen))) DuplicateSession) [] order = Ok tt <->
  (forall i, i ∈ order -> good_identity i) /\ NoDup order.
Proof.
  rewrite (each_new_ok (fun x => x) good_identity).
  - rewrite map_id. set_solver.
  - intros seen i. rewrite rbind_unit, identity_check_ok, check_ok, map_id, negb_true_iff, bool_decide_eq_false. done.
Qed.

Lemma member_check_ok groups i g : member_check groups (i, g) = Ok tt <-> good_identity i /\ g ∈ groups.
Proof. unfold member_check. cbn [fst snd]. by rewrite rbind_unit, identity_check_ok, check_ok, among_elem. Qed.

(** Validation accepts exactly the valid organizations. *)
Lemma organization_validate_iff o : os_Mode o <> "" ->
  organization_validate o = Ok (organization_clone o) <-> org_ok o.
Proof.
  intros Hm. unfold organization_validate. cbv zeta. rewrite (proj2 (String.eqb_neq _ _) Hm).
  rewrite !rbind_unit, !check_ok, session_check_ok, groups_check_ok, !each_map_ok, andb_true_iff, !Nat.leb_le.
  setoid_rewrite member_check_ok. setoid_rewrite order_check_ok. setoid_rewrite collapsed_check_ok.
  split.
  - intros (H1 & [H2 H3] & [H4 H5] & H6 & [H7 H8] & H9 & H10 & H11 & _). by split.
  - intros []. by split_and!.
Qed.

Lemma org_ok_ext o o' : os_Mode o' = os_Mode o -> os_SessionOrder o' = os_SessionOrder o -> os_Groups o' = os_Groups o ->
  members o' = members o -> orders o' = orders o -> folded o' = folded o -> org_ok o -> org_ok o'.
Proof.
  intros E1 E2 E3 E4 E5 E6 []. unfold groups_of in *. split; unfold groups_of; rewrite ?E1, ?E2, ?E3, ?E4, ?E5, ?E6; done.
Qed.

Lemma org_ok_clone o : org_ok o -> org_ok (organization_clone o).
Proof. by apply org_ok_ext. Qed.

(** ** Changes of one part *)

Lemma ok_set_mode mode o : org_ok o -> mode_valid mode = true -> org_ok (set_mode mode o).
Proof. by intros [] Hm. Qed.

Lemma ok_set_order order o : org_ok o -> NoDup order -> (forall i, i ∈ order -> good_identity i) ->
  (length order <= maxOrganizationSessions)%nat -> org_ok (set_order order o).
Proof. by intros [] Hd Hi Hl. Qed.

Lemma ok_set_group_order mode ids o : org_ok o -> known_list (groups_of o) mode ids -> org_ok (set_group_order mode ids o).
Proof.
  intros [] Hk. split; try done. intros mode' ids' H. cbn in H. apply lookup_insert_Some in H as [[<- <-]|[_ H]]; [done|by apply ok_orders0].
Qed.

Lemma ok_set_collapsed mode ids o : org_ok o -> known_list (groups_of o) mode ids -> org_ok (set_collapsed mode ids o).
Proof.
  intros [] Hk. split; try done. intros mode' ids' H. cbn in H. apply lookup_insert_Some in H as [[<- <-]|[_ H]]; [done|by apply ok_folded0].
Qed.

(** Room for the membership of a session. *)
Definition fits_member (i : SessionIdentity) (o : OrganizationState) : Prop :=
  is_Some (members o !! i) \/ (size (members o) < maxOrganizationSessions)%nat.

Lemma ok_move_member i target o : org_ok o -> good_identity i -> fits_member i o ->
  target = UngroupedGroupID \/ target ∈ groups_of o -> org_ok (move_member i target o).
Proof.
  intros H Hi Hf Ht. destruct H. unfold move_member. destruct (String.eqb_spec target UngroupedGroupID) as [->|Hne].
  - split; try done.
    + etransitivity; [apply map_subseteq_size, (delete_subseteq (members o) i)|done].
    + intros j g H. cbn in H. apply lookup_delete_Some in H as [_ H]. by apply ok_members0.
  - destruct Ht as [|Ht]; [done|]. split; try done.
    + change (size (<[i := target]> (members o)) <= maxOrganizationSessions)%nat. destruct Hf as [[g Hg]|Hf].
      * rewrite map_size_insert_Some by eauto. done.
      * destruct (members o !! i) as [g|] eqn:Hg; [rewrite map_size_insert_Some by eauto; lia|rewrite map_size_insert_None by done; lia].
    + intros j g H. cbn in H. apply lookup_insert_Some in H as [[<- <-]|[_ H]]; [done|by apply ok_members0].
Qed.

Lemma known_list_sub groups mode ids ids' : known_list groups mode ids -> NoDup ids' -> ids' ⊆ ids -> known_list groups mode ids'.
Proof.
  intros (H1 & H2 & H3 & H4) Hd Hs. split_and!; try done; [|naive_solver].
  pose proof (submseteq_length _ _ (NoDup_submseteq _ _ Hd Hs)). lia.
Qed.

(** Lists of custom groups never outgrow their limit. *)
Lemma known_custom groups ids : (length groups <= maxCustomGroups)%nat -> NoDup ids ->
  (forall id, id ∈ ids -> id <> "" /\ (id = UngroupedGroupID \/ id ∈ groups)) -> known_list groups OrganizationCustom ids.
Proof.
  intros Hg Hd Hi. split_and!; try done.
  - assert (Hs : ids ⊆ UngroupedGroupID :: groups) by set_solver. pose proof (submseteq_length _ _ (NoDup_submseteq _ _ Hd Hs)) as L. cbn [length] in L. revert Hg L. generalize maxCustomGroups. lia.
  - intros id Hid. destruct (Hi id Hid) as [H1 H2]. split; [done|]. unfold group_known. cbn. rewrite orb_true_iff, String.eqb_eq, among_elem. done.
Qed.

Lemma known_custom_inv groups ids id : known_list groups OrganizationCustom ids -> id ∈ ids -> id <> "" /\ (id = UngroupedGroupID \/ id ∈ groups).
Proof.
  intros (_ & _ & _ & H) Hid. destruct (H id Hid) as [H1 H2]. split; [done|]. unfold group_known in H2. cbn in H2.
  rewrite orb_true_iff, String.eqb_eq, among_elem in H2. done.
Qed.

Lemma order_of_ok o mode : org_ok o -> mode_valid mode = true -> known_list (groups_of o) mode (default [] (orders o !! mode)).
Proof.
  intros H Hm. destruct (orders o !! mode) as [ids|] eqn:E; [by apply (ok_orders o H)|]. split_and!; [done|cbn; lia|constructor|]. intros id Hid. by apply not_elem_of_nil in Hid.
Qed.

Lemma folded_of_ok o mode : org_ok o -> mode_valid mode = true -> known_list (groups_of o) mode (default [] (folded o !! mode)).
Proof.
  intros H Hm. destruct (folded o !! mode) as [ids|] eqn:E; [by apply (ok_folded o H)|]. split_and!; [done|cbn; lia|constructor|]. intros id Hid. by apply not_elem_of_nil in Hid.
Qed.

Lemma organizationMode_valid o : mode_valid (organizationMode o) = true.
Proof. unfold organizationMode. by destruct (mode_valid (os_Mode o)) eqn:E. Qed.

(** ** Rows *)

(** A row of the list: its host has a name of the configuration, and the identity it
    parses to is canonical. *)
Definition row_ok (r : row) : Prop := SafeIdentifier (row_Client r) = true /\ forall i, row_identity r = Some i -> good_identity i.

Lemma SafeIdentifier_nonempty id : SafeIdentifier id = true -> id <> "".
Proof. by intros H ->. Qed.

Lemma group_of_row o r : org_ok o -> row_ok r ->
  organizationGroupID o r <> "" /\ group_known (groups_of o) (organizationMode o) (organizationGroupID o r) = true.
Proof.
  intros H [Hc _]. unfold organizationGroupID. cbv zeta. pose proof (organizationMode_valid o) as Hm. unfold group_known.
  unfold mode_valid in Hm. rewrite !orb_true_iff, !String.eqb_eq in Hm.
  destruct Hm as [[-> | ->]| ->]; cbn -[SafeIdentifier]; [|split; [by apply SafeIdentifier_nonempty|done]|by destruct (row_Kind r ==s "shell")].
  destruct (row_identity r) as [i|]; [|done]. fold (members o). destruct (members o !! i) as [g|] eqn:E; [|done].
  cbn [from_option id]. destruct (String.eqb_spec g "") as [|Hg]; [done|]. cbn [negb]. split; [done|]. rewrite orb_true_iff. right. apply among_elem. apply (ok_members o H i g E).
Qed.

(** ** Each operation *)

Lemma add_sessions_ok rows order : Forall row_ok rows -> NoDup order -> (forall i, i ∈ order -> good_identity i) ->
  NoDup (fold_left add_session rows order) /\ forall i, i ∈ fold_left add_session rows order -> good_identity i.
Proof.
  revert order. induction rows as [|r rows IH]; intros order Hr Hd Hi; [done|]. apply Forall_cons in Hr as [[_ Hr] Hrs]. cbn [fold_left].
  apply IH; [done|..]; unfold add_session; (destruct (row_identity r) as [i|] eqn:E; [|done]); destruct (among (Key i) (map Key order)) eqn:Ha; try done.
  - apply NoDup_app. split_and!; [done| |apply NoDup_singleton]. intros j Hj ->%list_elem_of_singleton.
    assert (Hk : among (Key i) (map Key order) = true); [|congruence]. apply among_elem, list_elem_of_In, in_map, list_elem_of_In, Hj.
  - intros j [Hj|Hj%list_elem_of_singleton]%elem_of_app; [by apply Hi|subst]. by apply Hr.
Qed.

Lemma add_groups_ok (P : string -> Prop) o rows ids : (forall r, r ∈ rows -> P (organizationGroupID o r)) -> NoDup ids -> (forall id, id ∈ ids -> P id) ->
  NoDup (fold_left (add_group o) rows ids) /\ forall id, id ∈ fold_left (add_group o) rows ids -> P id.
Proof.
  revert ids. induction rows as [|r rows IH]; intros ids Hr Hd Hi; [done|]. cbn [fold_left].
  apply IH; [set_solver|..]; unfold add_group; cbv zeta; destruct (among (organizationGroupID o r) ids) eqn:Ha; try done.
  - apply NoDup_app. split_and!; [done| |apply NoDup_singleton]. intros j Hj ->%list_elem_of_singleton. apply among_elem in Hj. congruence.
  - intros j [Hj|Hj%list_elem_of_singleton]%elem_of_app; [by apply Hi|subst]. apply Hr. set_solver.
Qed.

Lemma ok_apply promote key o rows : org_ok o -> Forall row_ok rows ->
  let o' := (applyOrganizationOrder promote key o rows).1 in
  (length (os_SessionOrder o') <= maxOrganizationSessions)%nat ->
  (length (default [] (orders o' !! organizationMode o')) <= maxCustomGroups + 1)%nat -> org_ok o'.
Proof.
  intros H Hr. unfold applyOrganizationOrder. cbv zeta. assert (Hm : os_Mode o ==s "" = false) by (apply String.eqb_neq; intros E; pose proof (ok_mode o H) as X; by rewrite E in X).
  rewrite Hm. cbn [fst]. intros Hl Hg. set (o2 := set_order (fold_left add_session rows (os_SessionOrder o)) o) in *.
  destruct (add_sessions_ok rows (os_SessionOrder o) Hr (ok_distinct o H) (ok_identities o H)) as [D1 D2].
  assert (H2 : org_ok o2) by (by apply ok_set_order). set (mode := organizationMode o2) in *.
  apply ok_set_group_order; [done|]. destruct (order_of_ok o2 mode H2 (organizationMode_valid o2)) as (K1 & K2 & K3 & K4).
  destruct (add_groups_ok (fun id => id <> "" /\ group_known (groups_of o2) mode id = true) o2 rows (default [] (orders o2 !! mode))) as [G1 G2]; [|done|done|].
  { intros r Hin. apply group_of_row; [done|]. by eapply Forall_forall in Hr. }
  split_and!; try done.
  cbn [orders set_group_order os_GroupOrders from_option id] in Hg. change (organizationMode (set_group_order _ _ o2)) with mode in Hg.
  rewrite lookup_insert_eq in Hg. exact Hg.
Qed.

Lemma ok_cycle o : org_ok o -> org_ok (cycleOrganizationMode o).
Proof. intros H. unfold cycleOrganizationMode. apply ok_set_mode; [done|]. by repeat case_match. Qed.

(** A group shown in the list is in the saved order or the group of a session. *)
Lemma listed_order o xs l id : id ∈ ls_order (fold_left (list_session o) xs l) ->
  id ∈ ls_order l \/ exists x, x ∈ xs /\ id = organizationGroupID o x.2.
Proof.
  revert l. induction xs as [|x xs IH]; intros l H; [by left|]. cbn [fold_left] in H.
  apply IH in H as [H|(y & ? & ?)]; [|right; exists y; set_solver].
  unfold list_session in H. cbn [ls_order] in H. cbv zeta in H. case_match; [by left|].
  apply elem_of_app in H as [H|H%list_elem_of_singleton]; [by left|right; exists x; set_solver].
Qed.

Lemma indexed_row (rows : list row) x : x ∈ imap pair rows -> rows !! x.1 = Some x.2.
Proof. intros (k & Hk)%list_elem_of_lookup_1. rewrite list_lookup_imap in Hk. destruct (rows !! k) as [r|] eqn:E; [|done]. by injection Hk as <-. Qed.

Lemma emitted_group o l emitted ids id label : GroupRow id label ∈ emit_groups o l emitted ids -> id ∈ ids.
Proof.
  revert emitted. induction ids as [|x ids IH]; intros emitted H; cbn [emit_groups] in H; [by apply not_elem_of_nil in H|]. cbv zeta in H.
  destruct (bool_decide (x ∈ emitted) || _); [right; by eapply IH|]. apply elem_of_cons in H as [[= -> _]|H]; [left|].
  apply elem_of_app in H as [H|H]; [|right; by eapply IH]. exfalso. destruct (groupCollapsed o x); [by apply not_elem_of_nil in H|].
  by apply list_elem_of_fmap in H as (k & ? & _).
Qed.

Lemma shown_group_known o rows id label : org_ok o -> Forall row_ok rows -> GroupRow id label ∈ sessionListRows o rows ->
  id <> "" /\ group_known (groups_of o) (organizationMode o) id = true.
Proof.
  intros H Hr Hin. unfold sessionListRows in Hin. cbv zeta in Hin. apply emitted_group in Hin.
  apply listed_order in Hin as [Hin|(x & Hx%indexed_row%list_elem_of_lookup_2 & ->)].
  - cbn [first_listing ls_order] in Hin. fold (orders o) in Hin. pose proof (order_of_ok o _ H (organizationMode_valid o)) as (_ & _ & _ & K). by apply K.
  - apply group_of_row; [done|]. by eapply Forall_forall in Hr.
Qed.

Lemma ok_collapse id want rows o o' : org_ok o -> Forall row_ok rows -> setSelectedGroupCollapsed id want rows o = Some o' ->
  (organizationMode o = OrganizationHost -> (length (default [] (folded o !! OrganizationHost)) <= maxCustomGroups)%nat) -> org_ok o'.
Proof.
  intros H Hr E Hroom. unfold setSelectedGroupCollapsed in E. destruct (id ==s ""); [done|]. destruct (negb (existsb _ _)) eqn:Ex; [done|].
  destruct (Bool.eqb _ _); [done|]. cbv zeta in E. fold (folded o) in E. injection E as <-.
  apply negb_false_iff, existsb_exists in Ex as ([g label|] & Hin & Hg); [|done]. apply String.eqb_eq in Hg as ->. apply list_elem_of_In in Hin.
  destruct (shown_group_known o rows id label H Hr Hin) as [Hid Hknown].
  pose proof (folded_of_ok o _ H (organizationMode_valid o)) as Hk. pose proof Hk as (K1 & K2 & K3 & K4).
  apply ok_set_collapsed; [by apply org_ok_clone|]. change (groups_of (organization_clone o)) with (groups_of o).
  set (mode := organizationMode o) in *. set (ids := default [] (folded o !! mode)) in *. unfold index_of.
  destruct (list_find (fun x => x = id) ids) as [[k y]|] eqn:Ef; cbn [fmap option_fmap option_map fst].
  - destruct want; [done|]. apply (known_list_sub _ _ ids); [done| |].
    + apply list_find_Some in Ef as (Ek & _). rewrite <- (take_drop_middle _ _ _ Ek) in K3. by apply NoDup_app in K3 as (? & ? & [? ?]%NoDup_cons); apply NoDup_app; set_solver.
    + intros x Hx. apply list_find_Some in Ef as (Ek & _). rewrite <- (take_drop_middle _ _ _ Ek). set_solver.
  - destruct want; [|done]. apply list_find_None in Ef. assert (Hn : id ∉ ids) by (intros Hin'; by eapply Forall_forall in Ef).
    assert (D : NoDup (ids ++ [id])) by (apply NoDup_app; split_and!; [done|set_solver|apply NoDup_singleton]).
    assert (A : forall x, x ∈ ids ++ [id] -> x <> "" /\ group_known (groups_of o) mode x = true) by (intros x [Hx|Hx%list_elem_of_singleton]%elem_of_app; subst; auto).
    assert (Hids : mode = OrganizationHost -> (length ids <= maxCustomGroups)%nat) by (intros E; specialize (Hroom E); subst ids; by rewrite E).
    clearbody ids. clearbody mode. unfold mode_valid in K1. rewrite !orb_true_iff, !String.eqb_eq in K1. destruct K1 as [[-> | ->]| ->].
    + apply known_custom; [unfold groups_of; rewrite length_map; apply (ok_room o H)|done|]. intros x Hx. destruct (A x Hx) as [A1 A2]. split; [done|].
      unfold group_known in A2. cbn in A2. by rewrite orb_true_iff, String.eqb_eq, among_elem in A2.
    + split_and!; [done|..|done|done]. specialize (Hids eq_refl). rewrite length_app. cbn [length]. lia.
    + assert (S : ids ++ [id] ⊆ ["shell"; "agent"]).
      { intros x Hx. destruct (A x Hx) as [_ A2]. unfold group_known in A2. cbn in A2. rewrite orb_true_iff, !String.eqb_eq in A2. set_solver. }
      pose proof (submseteq_length _ _ (NoDup_submseteq _ _ D S)) as L. split_and!; [done|..|done|done]. cbn [length] in L. pose proof room_for_two. lia.
Qed.

Lemma insert_nth_perm {A} k (x : A) l : insert_nth k x l ≡ₚ x :: l.
Proof. unfold insert_nth. rewrite <- Permutation_middle. by rewrite take_drop. Qed.

Lemma ok_drag i target before rows o o' : org_ok o -> Forall row_ok rows -> fits_member i o ->
  i ∈ os_SessionOrder o \/ (length (os_SessionOrder o) < maxOrganizationSessions)%nat ->
  moveDraggedSessionBefore i target before rows o = Some o' -> org_ok o'.
Proof.
  intros H Hr Hfit Hroom E. unfold moveDraggedSessionBefore in E. cbv zeta in E. destruct (Key i ==s ""); [done|].
  destruct (_ && negb _) eqn:Ht in E; [done|]. destruct (List.find _ rows) as [r|] eqn:Ef; [|done]. destruct (negb _ && _) in E; [done|].
  apply List.find_some in Ef as [Hin Hi]. apply bool_decide_eq_true in Hi. apply list_elem_of_In in Hin.
  assert (Hgood : good_identity i) by (eapply Forall_forall in Hr as [_ Hg]; [|exact Hin]; by apply Hg).
  set (k := match before with Some _ => _ | None => _ end) in E. clearbody k. injection E as <-.
  set (order := filter (fun j => j <> i) (os_SessionOrder o)).
  assert (Hd : NoDup (i :: order)) by (apply NoDup_cons; split; [unfold order; rewrite list_elem_of_filter; naive_solver|apply NoDup_filter, (ok_distinct o H)]).
  assert (Hlen : (length (i :: order) <= maxOrganizationSessions)%nat).
  { cbn [length]. pose proof (length_filter (fun j => j <> i) (os_SessionOrder o)) as L. pose proof (ok_length o H) as Hl. destruct Hroom as [Hin'|Hlt]; [|subst order; lia].
    assert (S : i :: order ⊆ os_SessionOrder o) by (intros j [->|[_ Hj]%list_elem_of_filter]%elem_of_cons; done).
    pose proof (submseteq_length _ _ (NoDup_submseteq _ _ Hd S)) as L2. cbn [length] in L2. lia. }
  apply ok_set_order.
  - destruct (organizationMode o ==s OrganizationCustom); [|by apply org_ok_clone]. apply ok_move_member; [by apply org_ok_clone|done|done|].
    cbn [andb] in Ht. apply negb_false_iff, orb_true_iff in Ht as [Ht%String.eqb_eq|Ht%among_elem]; [by left|by right].
  - by rewrite insert_nth_perm.
  - intros j Hj. rewrite insert_nth_perm in Hj. apply elem_of_cons in Hj as [->|[_ Hj]%list_elem_of_filter]; [done|by apply (ok_identities o H)].
  - by rewrite insert_nth_perm.
Qed.

Lemma known_grow groups groups' mode ids : groups ⊆ groups' -> known_list groups mode ids -> known_list groups' mode ids.
Proof.
  intros Hs (K1 & K2 & K3 & K4). split_and!; try done. intros id Hid. destruct (K4 id Hid) as [? Hk]. split; [done|].
  unfold group_known in *. destruct (mode ==s OrganizationCustom); [|done]. rewrite orb_true_iff, among_elem in *. set_solver.
Qed.

(** An id that can be drawn for a new group. *)
Definition fresh_group (id : string) (o : OrganizationState) : Prop :=
  canonicalLayoutUUID id = true /\ id <> "" /\ id <> UngroupedGroupID /\ id ∉ groups_of o /\ id ∉ default [] (orders o !! OrganizationCustom).

Lemma ok_create id line o o' : org_ok o -> fresh_group id o -> (length (os_Groups o) < maxCustomGroups)%nat ->
  createGroup id line o = Some o' -> org_ok o'.
Proof.
  intros H (F1 & F2 & F3 & F4 & F5) Hroom E. unfold createGroup in E. cbv zeta in E. destruct (validateCustomGroupName (TrimSpace line)) eqn:Hn; [|done].
  cbn [negb] in E. injection E as <-. set (o1 := set_groups _ _).
  assert (Eg : groups_of o1 = groups_of o ++ [id]) by (unfold groups_of; cbn; by rewrite map_app).
  assert (H1 : org_ok o1).
  { destruct H. split; try done.
    - cbn. rewrite length_app. cbn [length]. lia.
    - rewrite Eg. apply NoDup_app. split_and!; [done|set_solver|apply NoDup_singleton].
    - intros g [Hg|Hg%list_elem_of_singleton]%elem_of_app; [by apply ok_groups0|subst]. by split_and!.
    - intros i g Hg. destruct (ok_members0 i g Hg). rewrite Eg. set_solver.
    - intros mode ids Hids. rewrite Eg. eapply known_grow; [|by apply ok_orders0]. set_solver.
    - intros mode ids Hids. rewrite Eg. eapply known_grow; [|by apply ok_folded0]. set_solver. }
  apply ok_set_group_order; [done|]. pose proof (order_of_ok o OrganizationCustom H eq_refl) as K. pose proof K as (K1 & K2 & K3 & K4). fold (orders o).
  apply known_custom; [unfold groups_of; rewrite length_map; apply (ok_room o1 H1)|apply NoDup_app; split_and!; [done|set_solver|apply NoDup_singleton]|].
  intros x [Hx|Hx%list_elem_of_singleton]%elem_of_app; rewrite Eg; [destruct (known_custom_inv _ _ _ K Hx); set_solver|subst; set_solver].
Qed.

Lemma update_first_ids test name gs : map cg_ID (update_first test (fun g => mkGroup (cg_ID g) name) gs) = map cg_ID gs.
Proof. induction gs as [|g gs IH]; cbn [update_first map]; [done|]. destruct (test g); cbn [map cg_ID]; [done|by rewrite IH]. Qed.

Lemma update_first_elem {A} test (h : A -> A) gs g : g ∈ update_first test h gs -> g ∈ gs \/ exists g', g' ∈ gs /\ g = h g'.
Proof. induction gs as [|x gs IH]; cbn [update_first]; [by left|]. destruct (test x); set_solver. Qed.

Lemma ok_rename target line o o' : org_ok o -> renameGroup target line o = Some o' -> org_ok o'.
Proof.
  intros H E. unfold renameGroup in E. cbv zeta in E. destruct (validateCustomGroupName (TrimSpace line)) eqn:Hn; [|done]. cbn [negb] in E.
  destruct (negb (among _ _)); [done|]. injection E as <-. set (gs := update_first _ _ _).
  assert (Eg : map cg_ID gs = groups_of o) by apply update_first_ids.
  destruct H. split; unfold groups_of in *; cbn [set_groups os_Groups os_Mode os_SessionOrder organization_clone] in *; rewrite ?Eg; try done.
  - rewrite <- (length_map cg_ID gs), Eg, length_map. done.
  - intros g [Hg|(g' & Hg & ->)]%update_first_elem; [by apply ok_groups0|]. destruct (ok_groups0 g' Hg) as (? & ? & ?). by split_and!.
Qed.

Lemma ok_move i target rows o o' : org_ok o -> Forall row_ok rows -> fits_member i o -> target = UngroupedGroupID \/ target ∈ groups_of o ->
  moveToGroup i target rows o = Some o' -> org_ok o'.
Proof.
  intros H Hr Hf Ht E. unfold moveToGroup in E. destruct (existsb _ rows) eqn:Ex; [|done]. injection E as <-.
  apply existsb_exists in Ex as (r & Hin & Hi). apply bool_decide_eq_true in Hi. apply list_elem_of_In in Hin.
  apply ok_move_member; [by apply org_ok_clone| |done|done]. eapply Forall_forall in Hr as [_ Hg]; [|exact Hin]. by apply Hg.
Qed.

Lemma without_known groups target ids : known_list groups OrganizationCustom ids -> target <> UngroupedGroupID ->
  (length groups <= maxCustomGroups)%nat -> known_list (filter (fun g => g <> target) groups) OrganizationCustom (filter (fun id => id <> target) ids).
Proof.
  intros K Ht Hl. pose proof K as (_ & _ & K3 & _). apply known_custom.
  - etransitivity; [apply length_filter|exact Hl].
  - by apply NoDup_filter.
  - intros id [Hne Hid]%list_elem_of_filter. destruct (known_custom_inv _ _ _ K Hid) as [? [?|?]]; [auto|]. split; [done|]. right. by apply list_elem_of_filter.
Qed.

Lemma known_other groups groups' mode ids : mode <> OrganizationCustom -> known_list groups mode ids -> known_list groups' mode ids.
Proof.
  intros Hm (K1 & K2 & K3 & K4). split_and!; try done. intros id Hid. destruct (K4 id Hid) as [? Hk]. split; [done|].
  unfold group_known in *. by rewrite (proj2 (String.eqb_neq _ _) Hm) in *.
Qed.

Lemma map_filter_ids target gs : map cg_ID (filter (fun g => cg_ID g <> target) gs) = filter (fun id => id <> target) (map cg_ID gs).
Proof. induction gs as [|g gs IH]; [done|]. cbn [map]. rewrite !filter_cons. destruct (decide (cg_ID g <> target)); cbn [map]; by rewrite IH. Qed.

Lemma ok_delete target o o' : org_ok o -> deleteGroup target o = Some o' -> org_ok o'.
Proof.
  intros H E. unfold deleteGroup in E. cbv zeta in E. destruct (among target (map cg_ID (os_Groups o))) eqn:Ha; [|done]. cbn [negb] in E. injection E as <-.
  apply among_elem in Ha. assert (Ht : target <> UngroupedGroupID).
  { apply list_elem_of_In, in_map_iff in Ha as (g & <- & Hg). apply list_elem_of_In in Hg. by destruct (ok_groups o H g Hg) as (_ & ? & _). }
  fold (orders o). fold (folded o). fold (members o).
  pose proof (order_of_ok o OrganizationCustom H eq_refl) as Ko. pose proof (folded_of_ok o OrganizationCustom H eq_refl) as Kf. destruct H.
  assert (Hg : (length (groups_of o) <= maxCustomGroups)%nat) by (unfold groups_of; by rewrite length_map).
  assert (Eg : map cg_ID (filter (fun g => cg_ID g <> target) (os_Groups o)) = filter (fun id => id <> target) (groups_of o)) by apply map_filter_ids.
  split; unfold groups_of in *; cbn [set_collapsed set_group_order set_membership set_groups os_Groups os_Mode os_SessionOrder organization_clone] in *; rewrite ?Eg; try exact ok_mode0; try done.
  - etransitivity; [apply map_subseteq_size, map_filter_subseteq|exact ok_size0].
  - etransitivity; [apply length_filter|exact ok_room0].
  - by apply NoDup_filter.
  - intros g [_ Hin]%list_elem_of_filter. by apply ok_groups0.
  - intros i g Hi. change (filter (fun x => x.2 <> target) (members o) !! i = Some g) in Hi. apply map_lookup_filter_Some in Hi as [Hi Hne].
    destruct (ok_members0 i g Hi). split; [done|]. by apply list_elem_of_filter.
  - intros mode ids Hi. cbn in Hi. apply lookup_insert_Some in Hi as [[<- <-]|[Hm Hi]]; [by apply without_known|]. eapply known_other; [congruence|]. by apply ok_orders0.
  - intros mode ids Hi. cbn in Hi. apply lookup_insert_Some in Hi as [[<- <-]|[Hm Hi]]; [by apply without_known|]. eapply known_other; [congruence|]. by apply ok_folded0.
Qed.

Lemma insert_perm {A} (l : list A) j x y : l !! j = Some y -> y :: <[j := x]> l ≡ₚ x :: l.
Proof.
  revert j. induction l as [|z l IH]; intros [|j] H; try done; cbn in *; [injection H as ->; apply perm_swap|].
  rewrite perm_swap, (IH j H). apply perm_swap.
Qed.

Lemma exchange_perm {A} (l : list A) i j x y : l !! i = Some x -> l !! j = Some y -> <[i := y]> (<[j := x]> l) ≡ₚ l.
Proof.
  revert i j. induction l as [|z l IH]; intros [|i] [|j] Hi Hj; try done; cbn in *.
  - by injection Hj as ->.
  - injection Hi as ->. by apply insert_perm.
  - injection Hj as ->. by apply insert_perm.
  - by rewrite IH.
Qed.

Lemma swap_perm i j l : exchange i j l ≡ₚ l.
Proof. unfold exchange. destruct (l !! i) as [x|] eqn:Ei; [|done]. destruct (l !! j) as [y|] eqn:Ej; [|done]. by apply exchange_perm. Qed.

Lemma ok_shift target down o o' : org_ok o -> shiftGroup target down o = Some o' -> org_ok o'.
Proof.
  intros H E. unfold shiftGroup in E. cbv zeta in E. fold (orders o) in E. pose proof (order_of_ok o OrganizationCustom H eq_refl) as K.
  assert (G : forall i j, org_ok (set_group_order OrganizationCustom (exchange i j (default [] (orders o !! OrganizationCustom))) (organization_clone o))).
  { intros i j. apply ok_set_group_order; [by apply org_ok_clone|]. destruct K as (K1 & K2 & K3 & K4).
    pose proof (swap_perm i j (default [] (orders o !! OrganizationCustom))) as P. split_and!; try done; [by rewrite P|by rewrite P|].
    intros id Hid. rewrite P in Hid. by apply K4. }
  destruct (index_of _ _) as [k|]; [|done]. destruct down; [case_match; [|done]|destruct k; [done|]]; injection E as <-; apply G.
Qed.

Lemma ok_swap selected target o o' : org_ok o -> row_ok target -> good_identity selected -> fits_member selected o ->
  moveSelectedSession selected target o = Some o' -> org_ok o'.
Proof.
  intros H Hr Hg Hf E. unfold moveSelectedSession in E. cbv zeta in E. destruct (row_identity target) as [t|]; [|done].
  destruct (last_index_of _ _) as [a|]; [|done]. destruct (if Key t ==s Key selected then None else last_index_of (Key t) (os_SessionOrder o)) as [b|]; [|done].
  set (order := match os_SessionOrder o !! a with Some _ => _ | None => _ end) in E.
  assert (P : order ≡ₚ os_SessionOrder o).
  { unfold order. destruct (os_SessionOrder o !! a) as [x|] eqn:Ea; [|done]. destruct (os_SessionOrder o !! b) as [y|] eqn:Eb; [|done]. by apply exchange_perm. }
  assert (H1 : org_ok (set_order order o)).
  { apply ok_set_order; [done|..]; rewrite ?P; [apply (ok_distinct o H)| |apply (ok_length o H)]. intros i Hi. rewrite P in Hi. by apply (ok_identities o H). }
  destruct (String.eqb_spec (organizationMode o) OrganizationCustom) as [Em|]; injection E as <-; [|done]. apply ok_move_member; [done..|].
  destruct (group_of_row o target H Hr) as [_ K]. unfold group_known in K. rewrite Em in K. cbn in K. by rewrite orb_true_iff, String.eqb_eq, among_elem in K.
Qed.

(** ** All operations *)

Inductive org_op :=
| GApply (promote : bool) (selectedKey : string) (rows : list row)
| GCycle
| GCollapse (id : string) (want : bool) (rows : list row)
| GDrag (i : SessionIdentity) (target : string) (before : option SessionIdentity) (rows : list row)
| GCreate (id line : string)
| GRename (target line : string)
| GMove (i : SessionIdentity) (target : string) (rows : list row)
| GDelete (target : string)
| GShift (target : string) (down : bool)
| GSwap (selected : SessionIdentity) (target : row).

(** The state an operation saves; [None] when it refuses. *)
Definition org_next (op : org_op) (o : OrganizationState) : option OrganizationState :=
  match op with
  | GApply promote key rows => Some (applyOrganizationOrder promote key o rows).1
  | GCycle => Some (cycleOrganizationMode o)
  | GCollapse id want rows => setSelectedGroupCollapsed id want rows o
  | GDrag i target before rows => moveDraggedSessionBefore i target before rows o
  | GCreate id line => createGroup id line o
  | GRename target line => renameGroup target line o
  | GMove i target rows => moveToGroup i target rows o
  | GDelete target => deleteGroup target o
  | GShift target down => shiftGroup target down o
  | GSwap selected target => moveSelectedSession selected target o
  end.

(** What an operation relies on: rows as the hosts report them, a new id, a group of
    the menu, and room within the limits. *)
Definition org_fits (op : org_op) (o : OrganizationState) : Prop :=
  match op with
  | GApply promote key rows =>
      let o' := (applyOrganizationOrder promote key o rows).1 in
      Forall row_ok rows /\ (length (os_SessionOrder o') <= maxOrganizationSessions)%nat /\
      (length (default [] (orders o' !! organizationMode o')) <= maxCustomGroups + 1)%nat
  | GCollapse _ _ rows =>
      Forall row_ok rows /\ (organizationMode o = OrganizationHost -> (length (default [] (folded o !! OrganizationHost)) <= maxCustomGroups)%nat)
  | GDrag i _ _ rows =>
      Forall row_ok rows /\ fits_member i o /\ (i ∈ os_SessionOrder o \/ (length (os_SessionOrder o) < maxOrganizationSessions)%nat)
  | GCreate id _ => fresh_group id o /\ (length (os_Groups o) < maxCustomGroups)%nat
  | GMove i target rows => Forall row_ok rows /\ fits_member i o /\ (target = UngroupedGroupID \/ target ∈ groups_of o)
  | GSwap selected target => row_ok target /\ good_identity selected /\ fits_member selected o
  | _ => True
  end.

Fixpoint org_run (ops : list org_op) (o : OrganizationState) : OrganizationState :=
  match ops with [] => o | op :: ops => org_run ops (default o (org_next op o)) end.

Fixpoint org_fits_all (ops : list org_op) (o : OrganizationState) : Prop :=
  match ops with [] => True | op :: ops => org_fits op o /\ org_fits_all ops (default o (org_next op o)) end.

Lemma org_next_ok op o o' : org_ok o -> org_fits op o -> org_next op o = Some o' -> org_ok o'.
Proof.
  intros H Hf E. destruct op; cbn [org_next org_fits] in *.
  - injection E as <-. destruct Hf as (? & ? & ?). by apply (ok_apply promote selectedKey).
  - injection E as <-. by apply ok_cycle.
  - destruct Hf. by eapply ok_collapse.
  - destruct Hf as (? & ? & ?). by eapply ok_drag.
  - destruct Hf. by eapply ok_create.
  - by eapply ok_rename.
  - destruct Hf as (? & ? & ?). by eapply ok_move.
  - by eapply ok_delete.
  - by eapply ok_shift.
  - destruct Hf as (? & ? & ?). by eapply ok_swap.
Qed.

(** C24. Organizing sessions never leaves a state that cannot be saved.  From a new state,
    through any operations on groups, orders and modes within the limits, validation
    accepts the organization: no group or order refers to a group that is gone. *)
Theorem organization_always_savable (ops : list org_op) :
  org_fits_all ops newOrganizationState ->
  let o := org_run ops newOrganizationState in organization_validate o = Ok (organization_clone o).
Proof.
  assert (H0 : org_ok newOrganizationState) by (apply organization_validate_iff; [done|with_strategy transparent [maxCustomGroups maxOrganizationSessions] reflexivity]). revert H0. generalize newOrganizationState.
  induction ops as [|op ops IH]; intros o H Hf; cbn [org_run].
  - apply organization_validate_iff; [|done]. intros E. pose proof (ok_mode o H) as X. by rewrite E in X.
  - destruct Hf as [Hf Hfs]. apply IH; [|done]. destruct (org_next op o) as [o'|] eqn:E; [|done]. by eapply org_next_ok.
Qed.

(** ** The list shows every session once *)

Lemma emit_session o l emitted ids id k :
  SessionRow id k ∈ emit_groups o l emitted ids <->
  id ∈ ids /\ id ∉ emitted /\ default "" (ls_labels l !! id) <> "" /\ groupCollapsed o id = false /\ k ∈ default [] (ls_sessions l !! id).
Proof.
  revert emitted. induction ids as [|x ids IH]; intros emitted; cbn [emit_groups]; [rewrite elem_of_nil; set_solver|]. cbv zeta.
  destruct (bool_decide_reflect (x ∈ emitted)) as [He|He]; cbn [orb]; [rewrite IH; set_solver|].
  destruct (String.eqb_spec (default "" (ls_labels l !! x)) "") as [El|El]; [rewrite IH; set_solver|].
  rewrite elem_of_cons, elem_of_app, IH. assert (Hg : SessionRow id k = GroupRow x (default "" (ls_labels l !! x)) <-> False) by (by split).
  assert (Hs : SessionRow id k ∈ (if groupCollapsed o x then [] else map (SessionRow x) (default [] (ls_sessions l !! x))) <->
    id = x /\ groupCollapsed o id = false /\ k ∈ default [] (ls_sessions l !! id)).
  { destruct (groupCollapsed o x) eqn:Ec; [rewrite elem_of_nil; split; [done|intros (-> & E & _); congruence]|].
    rewrite list_elem_of_fmap. split; [intros (k' & [= -> ->] & Hk); by split_and!|intros (-> & _ & Hk); by exists k]. }
  rewrite Hg, Hs, !elem_of_cons, elem_of_union, elem_of_singleton. destruct (decide (id = x)) as [->|Hne]; tauto.
Qed.

Lemma emit_group o l emitted ids id :
  id ∈ ids -> id ∉ emitted -> default "" (ls_labels l !! id) <> "" -> GroupRow id (default "" (ls_labels l !! id)) ∈ emit_groups o l emitted ids.
Proof.
  revert emitted. induction ids as [|x ids IH]; intros emitted Hid He Hl; [by apply not_elem_of_nil in Hid|]. cbn [emit_groups]. cbv zeta.
  destruct (decide (id = x)) as [->|Hne].
  - rewrite bool_decide_false by done. rewrite (proj2 (String.eqb_neq _ _) Hl). cbn [orb]. left.
  - apply elem_of_cons in Hid as [|Hid]; [done|]. destruct (bool_decide (x ∈ emitted) || _); [by apply IH|]. right. apply elem_of_app. right.
    apply IH; [done|set_solver|done].
Qed.

Lemma emit_nodup o l emitted ids : (forall id, NoDup (default [] (ls_sessions l !! id))) -> NoDup (emit_groups o l emitted ids).
Proof.
  intros Hs. revert emitted. induction ids as [|x ids IH]; intros emitted; cbn [emit_groups]; [constructor|]. cbv zeta.
  destruct (bool_decide (x ∈ emitted) || _); [done|]. apply NoDup_cons. split.
  - rewrite elem_of_app. intros [H|H].
    + destruct (groupCollapsed o x); [by apply not_elem_of_nil in H|]. by apply list_elem_of_fmap in H as (k & ? & _).
    + assert (G : forall e ids', x ∈ e -> forall label, GroupRow x label ∉ emit_groups o l e ids').
      { clear. intros e ids' He label. revert e He. induction ids' as [|y ids' IH]; intros e He; cbn [emit_groups]; [apply not_elem_of_nil|]. cbv zeta.
        destruct (bool_decide_reflect (y ∈ e)) as [Hy|Hy]; cbn [orb]; [by apply IH|]. destruct (_ ==s ""); [by apply IH|].
        rewrite elem_of_cons, elem_of_app. intros [[= -> _]|[H|H]]; [done| |by eapply IH in H; [|set_solver]].
        destruct (groupCollapsed o y); [by apply not_elem_of_nil in H|]. by apply list_elem_of_fmap in H as (k & ? & _). }
      eapply G in H; [done|set_solver].
  - apply NoDup_app. split_and!; [| |apply IH].
    + destruct (groupCollapsed o x); [constructor|]. apply NoDup_fmap; [by intros ? ? [= ?]|apply Hs].
    + intros [g label|g k] Hr1 Hr2; destruct (groupCollapsed o x); try (by apply not_elem_of_nil in Hr1); apply list_elem_of_fmap in Hr1 as (k' & Hk & _); [done|].
      injection Hk as -> ->. apply emit_session in Hr2 as (_ & Hx & _). set_solver.
Qed.

Lemma listing_spec o xs l :
  (forall id, id ∈ ls_seen l -> id ∈ ls_order l) ->
  let l' := fold_left (list_session o) xs l in
  (forall id, default [] (ls_sessions l' !! id) = default [] (ls_sessions l !! id) ++ map fst (filter (fun x => organizationGroupID o x.2 = id) xs)) /\
  (forall id, default "" (ls_labels l !! id) <> "" -> default "" (ls_labels l' !! id) <> "") /\
  (forall x, x ∈ xs -> organizationGroupLabel o x.2 <> "" -> default "" (ls_labels l' !! organizationGroupID o x.2) <> "") /\
  (forall id, id ∈ ls_order l -> id ∈ ls_order l') /\ (forall x, x ∈ xs -> organizationGroupID o x.2 ∈ ls_order l').
Proof.
  revert l. induction xs as [|x xs IH]; intros l Hl; cbn [fold_left].
  { cbv zeta. split_and!; try done; [intros id; by rewrite app_nil_r|..]; intros y Hy; by apply not_elem_of_nil in Hy. }
  set (l1 := list_session o l x). set (g := organizationGroupID o x.2).
  assert (O1 : forall id, id ∈ ls_order l -> id ∈ ls_order l1) by (intros id Hid; unfold l1, list_session; cbn [ls_order]; cbv zeta; case_match; set_solver).
  assert (O2 : g ∈ ls_order l1) by (unfold l1, list_session; cbn [ls_order]; cbv zeta; fold g; case_bool_decide; [by apply Hl|set_solver]).
  assert (L1 : forall id, default "" (ls_labels l !! id) <> "" -> default "" (ls_labels l1 !! id) <> "").
  { intros id Hid. unfold l1, list_session. cbn [ls_labels]. cbv zeta. fold g. destruct (String.eqb_spec (default "" (ls_labels l !! g)) "") as [E|E]; [|done].
    rewrite lookup_insert_ne; [done|congruence]. }
  assert (L2 : organizationGroupLabel o x.2 <> "" -> default "" (ls_labels l1 !! g) <> "").
  { intros Hn. unfold l1, list_session. cbn [ls_labels]. cbv zeta. fold g. destruct (String.eqb_spec (default "" (ls_labels l !! g)) "") as [E|E]; [|done]. by rewrite lookup_insert_eq. }
  assert (S1 : forall id, id ∈ ls_seen l1 -> id ∈ ls_order l1).
  { intros id Hid. unfold l1, list_session in Hid. cbn [ls_seen] in Hid. cbv zeta in Hid. fold g in Hid. apply elem_of_union in Hid as [->%elem_of_singleton|Hid]; [done|auto]. }
  destruct (IH l1 S1) as (I1 & I2 & I3 & I4 & I5). split_and!.
  - intros id. rewrite I1. unfold l1, list_session. cbn [ls_sessions]. cbv zeta. fold g. rewrite filter_cons. destruct (decide (g = id)) as [<-|Hne].
    + rewrite decide_True by done. rewrite lookup_insert_eq. cbn [from_option id map]. by rewrite <- app_assoc.
    + rewrite decide_False by done. by rewrite lookup_insert_ne.
  - intros id Hid. apply I2, L1, Hid.
  - intros y [->|Hy]%elem_of_cons Hn; [by apply I2, L2|by apply I3].
  - intros id Hid. apply I4, O1, Hid.
  - intros y [->|Hy]%elem_of_cons; [by apply I4|by apply I5].
Qed.

Lemma group_name_nonempty name : validateCustomGroupName name = true -> name <> "".
Proof. intros H ->. unfold validateCustomGroupName in H. rewrite !andb_true_iff in H. by destruct H as [[_ H] _]. Qed.

Lemma str_app_nonempty (a b : string) : a <> "" -> a +:+ b <> "".
Proof. by destruct a. Qed.

Lemma label_nonempty o r : org_ok o -> row_ok r -> organizationGroupLabel o r <> "".
Proof.
  intros H Hr. unfold organizationGroupLabel. cbv zeta. destruct (group_of_row o r H Hr) as [Hid _].
  destruct (_ !=s OrganizationCustom); [done|]. destruct (_ ==s UngroupedGroupID); [done|].
  destruct (List.find _ _) as [g|] eqn:Ef; [|done]. apply List.find_some in Ef as [Hg _]. apply list_elem_of_In in Hg.
  destruct (ok_groups o H g Hg) as (_ & _ & Hn%group_name_nonempty). unfold customGroupDisplayName. cbv zeta. destruct (_ <? 2)%nat; [done|by apply str_app_nonempty].
Qed.

Lemma indexed_filter (rows : list row) (P : nat * row -> Prop) `{forall x, Decision (P x)} k :
  k ∈ map fst (filter P (imap pair rows)) <-> exists r, rows !! k = Some r /\ P (k, r).
Proof.
  rewrite list_elem_of_fmap. split.
  - intros ([k' r] & -> & [HP Hx]%list_elem_of_filter). apply indexed_row in Hx. by exists r.
  - intros (r & Hr & HP). exists (k, r). split; [done|]. apply list_elem_of_filter. split; [done|].
    apply (list_elem_of_lookup_2 _ k). by rewrite list_lookup_imap, Hr.
Qed.

Lemma indices_nodup (rows : list row) : NoDup (map fst (imap pair rows)).
Proof.
  assert (E : map fst (imap pair rows) = seq 0 (length rows)).
  { apply list_eq. intros k. rewrite list_lookup_fmap, list_lookup_imap. destruct (rows !! k) as [r|] eqn:E; cbn.
    - apply lookup_lt_Some in E. by rewrite lookup_seq_lt.
    - apply lookup_ge_None in E. by rewrite lookup_seq_ge. }
  rewrite E. apply NoDup_seq.
Qed.

Lemma map_filter_nodup {A B} (f : A -> B) (P : A -> Prop) `{forall x, Decision (P x)} l : NoDup (map f l) -> NoDup (map f (filter P l)).
Proof.
  induction l as [|x l IH]; [done|]. cbn [map]. rewrite NoDup_cons, filter_cons. intros [Hx Hn]. destruct (decide (P x)); [|auto].
  cbn [map]. apply NoDup_cons. split; [|auto]. intros (y & E & [_ Hy]%list_elem_of_filter)%list_elem_of_fmap. apply Hx. rewrite E. by apply list_elem_of_fmap_2.
Qed.

(** The list is complete and has no duplicates.  For a valid organization, the list
    has every row once; it shows a session exactly under its group, unless that group
    is collapsed; and the group of every session has a heading. *)
Theorem list_shows_sessions (o : OrganizationState) (rows : list row) :
  org_ok o -> Forall row_ok rows ->
  NoDup (sessionListRows o rows) /\
  (forall id k, SessionRow id k ∈ sessionListRows o rows <->
     exists r, rows !! k = Some r /\ organizationGroupID o r = id /\ groupCollapsed o id = false) /\
  (forall k r, rows !! k = Some r -> exists label, label <> "" /\ GroupRow (organizationGroupID o r) label ∈ sessionListRows o rows).
Proof.
  intros H Hr. unfold sessionListRows. cbv zeta.
  destruct (listing_spec o (imap pair rows) (first_listing o)) as (L1 & _ & L3 & _ & L5); [intros id Hid; by apply elem_of_empty in Hid|].
  set (l := fold_left (list_session o) (imap pair rows) (first_listing o)) in *.
  assert (Hs : forall id, default [] (ls_sessions l !! id) = map fst (filter (fun x => organizationGroupID o x.2 = id) (imap pair rows))).
  { intros id. rewrite L1. cbn [first_listing ls_sessions]. by rewrite lookup_empty. }
  assert (Hlab : forall k r, rows !! k = Some r -> default "" (ls_labels l !! organizationGroupID o r) <> "" /\ organizationGroupID o r ∈ ls_order l).
  { intros k r E. assert (Hx : (k, r) ∈ imap pair rows) by (apply (list_elem_of_lookup_2 _ k); by rewrite list_lookup_imap, E). split; [|by apply (L5 (k, r))].
    apply (L3 (k, r) Hx). apply label_nonempty; [done|]. by eapply Forall_lookup_1 in Hr. }
  split_and!.
  - apply emit_nodup. intros id. rewrite Hs. apply map_filter_nodup, indices_nodup.
  - intros id k. rewrite emit_session, Hs, indexed_filter. cbn [snd]. split.
    + intros (_ & _ & _ & Hc & r & E & Hg). by exists r.
    + intros (r & E & <- & Hc). destruct (Hlab k r E). split_and!; [done|set_solver|done|done|by exists r].
  - intros k r E. destruct (Hlab k r E) as [Hn Ho]. eexists. split; [exact Hn|]. apply emit_group; [done|set_solver|done].
Qed.
End Valid.
