(* ===== verification/ActivityWitness.v ===== *)
(** * Concrete runs of the local state of Ducklord

    Inputs at which the theorems of [ActivitySafety], [ActivityStore] and
    [OrganizationSafety] apply, and executions that do what the code or a comment does
    not intend. *)

From S2P Require Import Prelude GoStrings GoMarshal GoJSON GoStrconv Session SessionDB Layout LayoutViews ActivityState ActivityStore ActivitySafety Organization OrganizationSafety.
Local Open Scope go_scope.
Local Open Scope Z_scope.

Module ActivityWitness.

#[local] Instance act_case : UnicodeCase := latin_case.
#[local] Instance act_format : UnicodeFormat := {| u_Cf r := (r =? 173)%N |}.
#[local] Instance act_uuids : UUIDs := LayoutWitness.sample_uuids.

Definition here : string := LayoutWitness.instance_id.
Definition shell : SessionIdentity := LayoutWitness.shell.
Definition remote (counters times : gmap string Z) : RemoteSession := mkRemote here "7K3ABC" counters times.
Definition key : string := here +:+ "/7K3ABC".

(** ** Unread marks *)

Definition report (n : Z) (active : bool) : activity_op :=
  OReport [("task_completed", n)] (remote {["task_completed" := n]} ∅) active None.

Lemma report_fair n active : fair_op (report n active).
Proof.
  unfold fair_op, report, ranges, remote. cbn [rs_ActivitySequences]. by rewrite map_to_list_singleton.
Qed.

(** Three events while the user looks elsewhere, a look, a restart, one more event. *)
Definition day : list activity_op := [report 3 false; report 3 true; ORestart; report 4 false].

Lemma unread_exact_witness :
  exists s, activity_run day NewActivityState = Some s /\
    (get false (ns_Unread (entry_of key s)) "task_completed" = true <-> pending day key "task_completed").
Proof.
  apply (unread_exact day key "task_completed").
  - vm_compute. discriminate.
  - unfold day. rewrite !Forall_cons. split_and!; [apply report_fair|apply report_fair|done|apply report_fair|apply Forall_nil_2].
Defined.

(** Which of two events of one moment is the last depends on the order of a [range]. *)
Definition tied : RemoteSession :=
  remote {["agent_needs_input" := 1; "approval_required" := 1]} {["agent_needs_input" := 7; "approval_required" := 7]}.
Definition last_category (visits : list (string * Z)) : option string :=
  (fun x => ns_LastEventCategory (entry_of key x.1)) <$> Reconcile visits tied false NewActivityState.

Example last_event_by_chance :
  last_category [("agent_needs_input", 1); ("approval_required", 1)] = Some "agent_needs_input" /\
  last_category [("approval_required", 1); ("agent_needs_input", 1)] = Some "approval_required".
Proof. split; vm_compute; reflexivity. Qed.

(** A category this program does not know makes the state one that cannot be saved. *)
Definition newer : RemoteSession := remote {["disk_full" := 1]} ∅.
Example unknown_category_blocks_save :
  (fun x => state_validate x.1) <$> Reconcile [("disk_full", 1)] newer false NewActivityState = Some (Err (BadCategory "disk_full")).
Proof. vm_compute. reflexivity. Qed.

(** Two names of one host: after the newer one is gone, an older inventory of the other
    lowers the counter, and the same two events are delivered again. *)
Definition alias_run : list Z :=
  let c := "task_completed" in
  let step before n obs := notificationDeltas [(c, n)] key before obs in
  let '(o1, d1) := step None 3 ∅ in
  let '(o2, d2) := step None 5 o1 in
  let '(o3, d3) := step (Some {[c := 3]}) 3 o2 in
  let '(o4, d4) := step (Some {[c := 3]}) 5 o3 in
  map (fun d : gmap string Z => default 0 (d !! c)) [d1; d2; d3; d4].

Example alias_delivered_twice : alias_run = [0; 2; 0; 2].
Proof. vm_compute. reflexivity. Qed.

Lemma update_visited n known : visited (mkUpdate {["task_completed" := n]} [("task_completed", n)] known).
Proof. unfold visited. cbn [hu_visits hu_counters]. by rewrite map_to_list_singleton. Qed.

Definition first_update : host_update := mkUpdate {["task_completed" := 3]} [("task_completed", 3)] false.
Definition later_updates : list host_update :=
  [mkUpdate {["task_completed" := 4]} [("task_completed", 4)] true; mkUpdate {["task_completed" := 9]} [("task_completed", 9)] false].

Lemma deltas_exact_witness : deliveries key "task_completed" (first_update :: later_updates) ∅ ∅ = 6.
Proof.
  rewrite (deltas_exact key "task_completed" first_update later_updates ∅ ∅); try done.
  - apply update_visited.
  - unfold later_updates. rewrite !Forall_cons. split_and!; [apply update_visited|apply update_visited|apply Forall_nil_2].
Defined.

(** ** Bookmarks *)

Definition text_id (s : string) : string := s.
Definition nl (l : list string) : string := Join l newline.
Definition mark (text : string) : option TerminalBookmark := match NewTerminalBookmark text_id shell "here" text with Ok b => Some b | Err _ => None end.

Definition sample_mark : TerminalBookmark := mkBookmark shell "here" "line:1" "sha256:make".

Lemma bookmark_found_witness :
  mark (nl ["make"; "ok"; "make"; ""]) = Some sample_mark /\ TerminalBookmarkLine text_id (nl ["make"; "ok"; "make"; ""; "make"]) sample_mark = Some 2%nat.
Proof.
  split; [vm_compute; reflexivity|].
  destruct (bookmark_found text_id shell "here" (nl ["make"; "ok"; "make"; ""]) sample_mark "make") as (_ & _ & _ & H); [done|vm_compute; reflexivity|exact H].
Defined.

(** When the line before it is dropped from the scrollback, the bookmark on the second
    line leads to the third. *)
Example dropped_line_shifts_bookmark :
  let b := sample_mark in mark (nl ["make"; "make"]) = Some b /\ TerminalBookmarkLine text_id (nl ["make"; "make"; "make"]) b = Some 1%nat /\
    TerminalBookmarkLine text_id (nl ["make"; "make"]) b = Some 1%nat /\ TerminalBookmarkLine text_id (nl ["make"]) b = None.
Proof. split_and!; vm_compute; reflexivity. Qed.

(** In a text over 64 KiB, a bookmark just made on the last line (number 39999)
    leads to line 32767. *)
Definition long_text : string := nl (repeat "a" 40000).
Example long_text_misses_bookmark :
  N.of_nat <$> (mark (boundedTerminalText long_text) ≫= terminalBookmarkLineInCurrent text_id long_text) = Some 32767%N.
Proof. vm_compute. reflexivity. Qed.

(** ** Saving *)

Definition sample_entry : SessionNotificationState :=
  mkEntry (Some {["task_completed" := 3]}) (Some ∅) None (Some ∅) 7 "task_completed" None.
Definition sample : ActivityState :=
  mkState 1 (Some {[key := sample_entry]}) newOrganizationState NewProjectLayout [sample_mark] (Some {["future" := JBool true]}).

Definition sample_sections : gmap string jval :=
  <["terminal_bookmarks" := JStr "b"]> (<["project_layout" := JStr "l"]> (<["organization" := JStr "o"]>
  (<["notifications" := JStr "n"]> (<["version" := JStr "v"]> {["future" := JBool true]})))).

#[local] Instance sample_codec : StateCodec := {|
  render_sections _ := "state";
  parse_sections text := if text ==s "state" +:+ String newline "" then Some sample_sections else None;
  enc_version _ := JStr "v"; dec_version _ := Some 1;
  enc_sessions _ := JStr "n"; dec_sessions _ := Some (normal_sessions (as_Sessions sample));
  enc_organization _ := JStr "o"; dec_organization _ _ := Some (decoded_organization newOrganizationState);
  enc_layout _ := JStr "l"; dec_layout _ _ := Some NewProjectLayout;
  enc_bookmarks _ := JStr "b"; dec_bookmarks _ := Some [sample_mark] |}.

Lemma sample_reads_back : reads_back sample.
Proof.
  split; try reflexivity. intros sections E.
  assert (M : MarshalJSON sample = Ok sample_sections) by (vm_compute; reflexivity). rewrite M in E. by injection E as <-.
Qed.

Definition all_well : save_answers := mkSave true true true true (Some ".state-1.json") true None true true true true true true.
Definition no_disk : disk := mkDisk None ∅.

Lemma save_is_atomic_witness :
  exists trail, Save "state.json" all_well sample no_disk = (trail, Ok tt) /\ stores "state.json" sample (last_disk no_disk trail).
Proof.
  assert (V : state_validate sample = Ok sample) by (vm_compute; reflexivity).
  assert (R : snd (Save "state.json" all_well sample no_disk) = Ok tt) by (vm_compute; reflexivity).
  destruct (Save "state.json" all_well sample no_disk) as [trail r] eqn:E. cbn [snd] in R. subst r. exists trail. split; [reflexivity|].
  apply (save_is_atomic "state.json" all_well sample sample no_disk trail (Ok tt) V sample_reads_back); [discriminate|exact E|reflexivity].
Defined.

(** ** Organizing *)

Definition listed (kind : string) : row := mkListed (remote ∅ ∅) "laptop" kind "" "build" false.
Definition group : string := "00000000-0000-4000-8000-000000000001".

(** A group is made, the session moved into it, the group folded and removed, and the
    list shown by host. *)
Definition tidy : list org_op :=
  [GApply true "" [listed "shell"]; GCreate group " work "; GMove shell group [listed "shell"]; GCollapse group true [listed "shell"];
   GDelete group; GCycle; GApply false "" [listed "shell"]].

Lemma listed_ok : Forall row_ok [listed "shell"].
Proof. apply Forall_singleton. split; [vm_compute; reflexivity|]. intros i Hi. vm_compute in Hi. injection Hi as <-. vm_compute. reflexivity. Qed.

Lemma organization_always_savable_witness :
  let o := org_run tidy newOrganizationState in
  os_SessionOrder o = [shell] /\ os_Groups o = [] /\ organization_validate o = Ok (organization_clone o).
Proof.
  split; [vm_compute; reflexivity|]. split; [vm_compute; reflexivity|]. apply (organization_always_savable tidy). unfold tidy.
  cbn [org_fits_all]. split_and!; try exact I; cbn [org_fits]; cbv zeta; split_and!; try exact I; try exact listed_ok.
  all: try (apply Nat.leb_le; vm_compute; reflexivity).
  - repeat split; try discriminate; apply (bool_decide_eq_true_1 _); vm_compute; reflexivity.
  - right. apply Nat.ltb_lt. vm_compute. reflexivity.
  - right. apply (bool_decide_eq_true_1 _). vm_compute. reflexivity.
  - intros Hm. vm_compute in Hm. discriminate.
Defined.

Lemma list_shows_sessions_witness :
  sessionListRows newOrganizationState [listed "shell"] = [GroupRow "ungrouped" "Ungrouped"; SessionRow "ungrouped" 0] /\
  NoDup (sessionListRows newOrganizationState [listed "shell"]).
Proof.
  split; [vm_compute; reflexivity|]. apply (list_shows_sessions newOrganizationState [listed "shell"]); [|exact listed_ok].
  apply organization_validate_iff; [done|vm_compute; reflexivity].
Defined.

(** Sessions leave the order only when the user moves them: an order that is full stays
    full, and then nothing can be saved. *)
Lemma order_never_shrinks (promote : bool) (selectedKey : string) (o : OrganizationState) (rows : list row) :
  os_SessionOrder o `prefix_of` os_SessionOrder (applyOrganizationOrder promote selectedKey o rows).1.
Proof.
  unfold applyOrganizationOrder. cbv zeta. cbn [fst set_group_order set_order os_SessionOrder].
  assert (E : os_SessionOrder (if os_Mode o ==s "" then set_mode OrganizationCustom o else o) = os_SessionOrder o) by (by case_match). rewrite E.
  generalize (os_SessionOrder o). clear. induction rows as [|r rows IH]; intros order; [done|]. cbn [fold_left]. etransitivity; [|apply IH].
  unfold add_session. destruct (row_identity r) as [i|]; [|done]. case_match; [done|]. by exists [i].
Qed.
End ActivityWitness.
